(* ===== verification/_CoqProject ===== *)
-Q . S2P
Prelude.v
Mmu.v
Config.v
Phys.v
Hw.v
Mp.v
Lapic.v
CString.v
Kalloc.v
PageTable.v
Vmspace.v
UvmInv.v
CopyInv.v
UserMem.v
State.v
Spinlock.v
Demo.v
PageList.v
Swap.v
Policy.v
Uvm.v
UvmSpec.v
GrowSpec.v
LoadSpec.v
CopySpec.v
SwapInv.v
Ageing.v
SwapDemo.v
UvmDemo.v
Replacement.v
Pgfault.v
Proc.v
ProcSpec.v
ProcRefine.v
ProcClaims.v
Bytes.v
Bio.v
BioSpec.v
Memide.v
Ide.v
Log.v
LogSpec.v
Kbd.v
Console.v
Fs.v
FsSpec.v
FsBlocks.v
FsFile.v
FsData.v
FsReserve.v
FsWrite.v
Mkfs.v
FsOps.v
FsDemo.v
FsClaims.v
Pipe.v
Args.v
File.v
Sysfile.v
Kernel.v
SwapImpl.v
Ulib.v
Grep.v
Sh.v
ShSpec.v
ShParse.v
ShClaims.v
ShRun.v
Printf.v
Uprogs.v
Umalloc.v
UmallocSpec.v
Exec.v
ExecSpec.v
Boot.v
ExecClaims.v
ExecDemo.v
Trap.v
TrapSpec.v
TrapDemo.v
