(* ===== verification/Prelude.v ===== *)
(** * A verification of the xv6 memory-management kernel

    The repository is xv6, a small Unix for the x86, with a paging framework
    added to it: swapping of pages to a file per process under a choice of
    replacement policies, and copy-on-write sharing of pages after [fork].
    This library models the program as it is written, in a shallow embedding,
    and proves what makes its parts correct.

    ** How code becomes Rocq

    A C routine is a function of the same name.  A routine that only computes is
    a plain function; one that reads and writes state is a computation of the
    state-and-error monad [M S A] of this file, over the state [S] of its
    component.  A run ends in [Ok value state] or in an error: [Panic] for a call
    of [panic], [UB] for undefined behaviour (a null or wild access, an index out
    of range, the use of an uninitialised variable), [Blocked] for a [sleep] that
    nothing in a sequential run can end, and [NoFuel].  Integers keep their
    width: [uint] is [Z] with [u32] written wherever C may wrap around, [int]
    with [s32].  A C loop that is not structural takes fuel; the caller passes an
    amount that is enough, for a reason given where it is defined, and the
    theorems state the result, so that [NoFuel] is excluded.  Pointers into
    fixed arrays are indices, [None] is the null pointer; pointers into memory
    are addresses.

    What the sources do not contain is a parameter: the choices of the build and
    the linker in the class [Config]; the machine's ports and registers in
    [Hw.Machine], with the protocol of the disk controller as the laws of
    [Hw.Ata]; device drivers in [Devsw]; for the user programs the system calls
    in [Uprogs.Sys] and [Uprogs.Stdio].  Inside the kernel the file system is an
    interface too: processes and paging are written against the class
    [FileSystem], with the laws of swap files in [SwapFile]; [Kernel] implements
    the first with the layers below and [SwapImpl] proves the second.

    ** The parts

    - Machine integers, outcomes, the monad, loops: this file.  [mmu.h],
      [memlayout.h], [param.h]: [Mmu]; the build: [Config]; memory: [Phys];
      [string.c]: [CString]; [traps.h] and the port instructions of [x86.h]: [Hw].
    - [bootmain.c] and the page directory of [main.c]: [Boot].  [mp.c]: [Mp];
      [lapic.c], [ioapic.c], [picirq.c], [uart.c]: [Lapic].
    - [kalloc.c]: [Kalloc], free list and reference counters.
    - [vm.c]: [PageTable] (walking and mapping), [Uvm] (building, growing,
      shrinking, copying, freeing, switching), [PageList] (the list of resident
      pages and the slots of the swap file), [Swap] (eviction, swapping in,
      choosing a victim).  The proofs are in [Vmspace], [UvmInv], [CopyInv],
      [UserMem], [UvmSpec], [GrowSpec], [LoadSpec], [CopySpec], [SwapInv],
      [Policy], [Ageing], [Replacement].
    - [proc.c], [proc.h]: [State] (the structures and the kernel state [kernel],
      with the ways a component's computation runs inside it), [Proc] (the
      routines), [ProcSpec] (the process table as a machine of critical
      sections), [ProcRefine] and [ProcClaims]; [exec.c]: [Exec], [ExecSpec],
      [ExecClaims].
    - [trap.c], [syscall.c], [sysproc.c]: [Pgfault] (the page-fault case),
      [Swap.update_meta_data] (the ageing), [Args] (fetching arguments), [Trap]
      (dispatch, the calls on processes, the whole handler), [TrapSpec].
    - [spinlock.c]: [Spinlock]; [sleeplock.c], [bio.c], [ide.c]: [Bio] and
      [BioSpec], with the port accesses of [ide.c] in [Ide] and the driver
      [memide.c] in [Memide]; [log.c]: [Log], [LogSpec]; [fs.c]: [Fs], with the
      proofs in [FsSpec], [FsBlocks], [FsFile], [FsData], [FsReserve], [FsWrite],
      [FsOps], [FsClaims]; [mkfs.c]: [Mkfs]; [pipe.c]: [Pipe]; [file.c]: [File];
      [sysfile.c] and the swap files of [fs.c]: [Sysfile]; the file layer as a
      whole: [Kernel], [SwapImpl].
    - [console.c]: [Console]; [kbd.c]: [Kbd]; [cprintf] and [printf.c]: [Printf].
    - User programs: [ulib.c]: [Ulib]; [umalloc.c]: [Umalloc], [UmallocSpec];
      [grep.c]: [Grep]; [sh.c]: [Sh], [ShSpec], [ShParse], [ShClaims], [ShRun];
      the small programs: [Uprogs].
    - Concrete states on which the theorems are applied: [Demo], [SwapDemo],
      [UvmDemo], [FsDemo], [ExecDemo], [TrapDemo].

    ** What the theorems show

    - Memory.  The allocator refines a set of pages with counts; mapping,
      building, growing, copying and freeing address spaces do exactly what they
      should and keep the accounting of pages ([vm_inv]); a write after [fork] is
      seen by the writer alone; swapping preserves the contents of every page
      under every policy; each policy picks the page it picks.
    - Processes.  In every interleaving of critical sections the process table
      keeps its invariant; the routines refine that machine; the scheduler is
      fair; every trap has one of a few outcomes; [exec] builds the image the
      file describes.
    - Storage.  The drivers do to the disk what the buffer cache assumes; the
      cache returns the contents of blocks; a commit is atomic under a crash after
      any write; [readi] and [writei] are reads and writes of a byte sequence; the
      swap files of the file system are those that paging is verified against.
    - Concurrency and devices.  Locks exclude; pipes are bounded queues without
      lost wakeups; the console is a line-editing terminal; output stays on the
      screen.
    - Start-up.  The boot loader loads the kernel; the processor table is read to
      its end exactly when every entry is of a known type.
    - User level.  The shell's parser in place is equivalent to its grammar and a
      line runs as its tree means; [malloc] and [free] keep the heap; [grep] prints
      the matching lines; [wc], [cat] and [echo] do their work however reads are
      cut up.
    - Where the code does not do what it means to, the theorem says what it does.

    ** Fuel

    Loops over arrays and lists of fixed size have that size ([list_fuel],
    [SCFIFO_fuel]: two turns round the list, of which the first clears the bits);
    loops over bytes the number of blocks or entries ([io_fuel], [dir_fuel]); the
    allocator's walks the number of headers in the heap ([blocks_fuel],
    [malloc_fuel]).  Loops that wait for a device or for input have no bound of
    their own: their fuel is an argument, and the theorems give how much is enough
    (the length of the input, the number of entries of a table, the bound on
    polling of [Ata]) or that none is.

    ** Not modelled

    - Assembly ([bootasm.S], [entry.S], [entryother.S], [swtch.S], [trapasm.S],
      [usys.S], [initcode.S]) and generated vectors: there is no model of
      instructions; a context switch is a change of the running process.
    - [main], [mpmain] and [mpenter], which only call the initialisers one after
      the other, and [startothers], which waits for another processor.
    - Text that is printed for diagnosis on the way ([procdump], warnings).
    - The registers of devices below the laws stated of them, and time.
    - [main] of [grep.c], which opens the named files and calls [grep].
    - The test programs [usertests.c], [forktest.c], [stressfs.c], [ass3Tests.c],
      which only make system calls and compare results; prototypes. *)

From stdpp Require Export base list option numbers strings sorting sets gmap.
From Stdlib Require Export ZArith Lia.

Open Scope Z_scope.
#[export] Set Default Goal Selector "!".

(** ** Machine integers

    [uint] is modelled by [Z] in [0, 2^32); every C operation that may leave
    that range is written with [u32] (wrap-around) or [s32] (the value of the
    same bits as a signed [int]). *)

Definition u32 (x : Z) : Z := x mod 4294967296.
Definition s32 (x : Z) : Z := (x + 2147483648) mod 4294967296 - 2147483648.
Definition u8 (x : Z) : Z := x mod 256.

(** Bitwise complement of a [uint]. *)
Definition notu (x : Z) : Z := Z.lxor x 4294967295.

Definition is_u32 (x : Z) : Prop := 0 ≤ x < 4294967296.
Definition is_u8 (x : Z) : Prop := 0 ≤ x < 256.

(** [nz x] is the truth value C gives to the integer [x]. *)
Definition nz (x : Z) : bool := negb (x =? 0).

(** Linear arithmetic with division and remainder by constants. *)
Ltac dlia := Z.to_euclidean_division_equations; lia.

Create HintDb kern discriminated.

Section Ints.
Implicit Types x y : Z.

Lemma u32_range x : is_u32 (u32 x).
Proof. unfold is_u32, u32. dlia. Qed.

Lemma u32_small x : is_u32 x → u32 x = x.
Proof. unfold is_u32, u32. intros. by apply Z.mod_small. Qed.

Lemma u32_idemp x : u32 (u32 x) = u32 x.
Proof. apply u32_small, u32_range. Qed.

Lemma u32_add_l x y : u32 (u32 x + y) = u32 (x + y).
Proof. unfold u32. by rewrite Zplus_mod_idemp_l. Qed.

Lemma u32_add_r x y : u32 (x + u32 y) = u32 (x + y).
Proof. unfold u32. by rewrite Zplus_mod_idemp_r. Qed.

Lemma u32_sub_l x y : u32 (u32 x - y) = u32 (x - y).
Proof. unfold u32. by rewrite Zminus_mod_idemp_l. Qed.

Lemma s32_range x : -2147483648 ≤ s32 x < 2147483648.
Proof. unfold s32. dlia. Qed.

Lemma s32_small x : -2147483648 ≤ x < 2147483648 → s32 x = x.
Proof. unfold s32. intros. rewrite Z.mod_small; lia. Qed.

Lemma u32_s32 x : u32 (s32 x) = u32 x.
Proof. unfold u32, s32. dlia. Qed.

Lemma nz_true x : nz x = true ↔ x ≠ 0.
Proof. unfold nz. destruct (Z.eqb_spec x 0); naive_solver. Qed.

Lemma nz_false x : nz x = false ↔ x = 0.
Proof. unfold nz. destruct (Z.eqb_spec x 0); naive_solver. Qed.
End Ints.

#[export] Hint Resolve u32_range : kern.

(** Bits above the width of a [uint] are zero. *)
Lemma testbit_u32_high x i : is_u32 x → 32 ≤ i → Z.testbit x i = false.
Proof.
  intros Hx Hi. unfold is_u32 in Hx.
  destruct (decide (x = 0)) as [->|]; [apply Z.bits_0|].
  apply Z.bits_above_log2; [lia|].
  apply Z.log2_lt_pow2; [lia|].
  eapply Z.lt_le_trans; [apply Hx|].
  apply (Z.pow_le_mono_r 2 32); lia.
Qed.

(** Masking with the complement of a low mask is rounding down. *)
Lemma land_high_mask x n :
  0 ≤ n ≤ 32 → is_u32 x →
  Z.land x (notu (Z.ones n)) = x - x mod 2 ^ n.
Proof.
  intros Hn Hx.
  assert (E : Z.land x (notu (Z.ones n)) = Z.ldiff x (Z.ones n)).
  { apply Z.bits_inj'. intros i Hi. unfold notu.
    rewrite Z.land_spec, Z.ldiff_spec, Z.lxor_spec.
    change 4294967295 with (Z.ones 32).
    destruct (decide (i < 32)).
    - rewrite (Z.ones_spec_low 32) by lia. by rewrite xorb_true_r.
    - rewrite testbit_u32_high by (auto; lia). done. }
  rewrite E, Z.ldiff_ones_r by lia.
  rewrite Z.shiftl_mul_pow2, Z.shiftr_div_pow2 by lia.
  pose proof (Z.div_mod x (2 ^ n)). lia.
Qed.

(** ** Texts *)

Definition bytes_of_string (s : string) : list Z := (λ c, Z.of_nat (Ascii.nat_of_ascii c)) <$> String.list_ascii_of_string s.
Definition string_of_bytes (l : list Z) : string := String.string_of_list_ascii ((λ b, Ascii.ascii_of_nat (Z.to_nat b)) <$> l).

(** ** Outcomes

    A kernel routine returns a value in a new state, or does not return: it
    calls [panic], executes undefined behaviour (a null or wild access, an
    array index out of range), runs out of the fuel that bounds a loop, or
    blocks (a [sleep] that nothing in a sequential run can end). *)

Inductive err : Type :=
  | Panic (msg : string)
  | UB (why : string)
  | NoFuel
  | Blocked (chan : string).

Inductive res (S A : Type) : Type :=
  | Ok (a : A) (s : S)
  | Err (e : err).
Arguments Ok {S A} a s.
Arguments Err {S A} e.

Definition M (S A : Type) : Type := S → res S A.

Section Monad.
Context {S : Type}.

#[global] Instance M_ret : MRet (M S) := λ A a s, Ok a s.
#[global] Instance M_bind : MBind (M S) := λ A B f c s,
  match c s with
  | Ok a s' => f a s'
  | Err e => Err e
  end.

Definition gets {A} (f : S → A) : M S A := λ s, Ok (f s) s.
Definition modify (f : S → S) : M S unit := λ s, Ok tt (f s).
Definition fail {A} (e : err) : M S A := λ _, Err e.
Definition panic {A} (msg : string) : M S A := fail (Panic msg).
Definition ub {A} (why : string) : M S A := fail (UB why).

(** [when b c] runs [c] if [b] holds: an [if] without [else]. *)
Definition when (b : bool) (c : M S unit) : M S unit :=
  if b then c else mret tt.

(** [assert_ok b why] is an access that is undefined unless [b]. *)
Definition assert_ok (b : bool) (why : string) : M S unit :=
  if b then mret tt else ub why.

(** ** Weakest preconditions (total correctness) *)

Definition wp {A} (c : M S A) (Q : A → S → Prop) (s : S) : Prop :=
  match c s with
  | Ok a s' => Q a s'
  | Err _ => False
  end.

Lemma wp_ret {A} (a : A) Q s : wp (mret a) Q s ↔ Q a s.
Proof. done. Qed.

Lemma wp_bind {A B} (c : M S A) (f : A → M S B) Q s :
  wp (c ≫= f) Q s ↔ wp c (λ a, wp (f a) Q) s.
Proof. unfold wp, mbind, M_bind. by destruct (c s). Qed.

Lemma wp_gets {A} (f : S → A) Q s : wp (gets f) Q s ↔ Q (f s) s.
Proof. done. Qed.

Lemma wp_modify f Q s : wp (modify f) Q s ↔ Q tt (f s).
Proof. done. Qed.

Lemma wp_when b c Q s :
  wp (when b c) Q s ↔ (if b then wp c Q s else Q tt s).
Proof. by destruct b. Qed.

Lemma wp_assert_ok b why Q s :
  wp (assert_ok b why) Q s ↔ b = true ∧ Q tt s.
Proof. unfold wp. destruct b; simpl; naive_solver. Qed.

Lemma wp_mono {A} (c : M S A) (Q Q' : A → S → Prop) s :
  wp c Q s → (∀ a s', Q a s' → Q' a s') → wp c Q' s.
Proof. unfold wp. destruct (c s); eauto. Qed.

Lemma wp_ok {A} (c : M S A) Q s :
  wp c Q s ↔ ∃ a s', c s = Ok a s' ∧ Q a s'.
Proof. unfold wp. destruct (c s); naive_solver. Qed.

Lemma wp_eq {A} (c : M S A) a s s' Q :
  c s = Ok a s' → wp c Q s ↔ Q a s'.
Proof. unfold wp. by intros ->. Qed.

(** Running a bind when the outcome of its head is known. *)
Lemma bind_ok {A B} (c : M S A) (f : A → M S B) s a s' :
  c s = Ok a s' → (c ≫= f) s = f a s'.
Proof. unfold mbind, M_bind. by intros ->. Qed.

Lemma bind_err {A B} (c : M S A) (f : A → M S B) s e :
  c s = Err e → (c ≫= f) s = Err e.
Proof. unfold mbind, M_bind. by intros ->. Qed.

Lemma bind_inv {A B} (c : M S A) (f : A → M S B) s b s'' :
  (c ≫= f) s = Ok b s'' →
  ∃ a s', c s = Ok a s' ∧ f a s' = Ok b s''.
Proof. unfold mbind, M_bind. destruct (c s); naive_solver. Qed.

(** ** Loops *)

(** [while_ fuel c body] is [while(c) body]; it gives [NoFuel] when the
    loop has not ended after [fuel] iterations. *)
Fixpoint while_ (fuel : nat) (c : M S bool) (body : M S unit) : M S unit :=
  match fuel with
  | O => fail NoFuel
  | Datatypes.S fuel' =>
      b ← c;
      if b : bool then body ;; while_ fuel' c body else mret tt
  end.

(** [forM l f] runs [f] on each element of [l] in order. *)
Fixpoint forM {A} (l : list A) (f : A → M S unit) : M S unit :=
  match l with
  | [] => mret tt
  | x :: l' => f x ;; forM l' f
  end.

Lemma forM_app {A} (l1 l2 : list A) (f : A → M S unit) s :
  forM (l1 ++ l2) f s = (forM l1 f ;; forM l2 f) s.
Proof.
  revert s. induction l1 as [|x l1 IH]; intros s; [done|].
  simpl. unfold mbind, M_bind. destruct (f x s); [|done]. apply IH.
Qed.

(** The invariant rule of [forM]: the invariant sees what is done and what
    is left. *)
Lemma wp_forM {A} (l : list A) (f : A → M S unit)
    (I : list A → list A → S → Prop) s :
  I [] l s →
  (∀ l1 x l2 s, l = l1 ++ x :: l2 → I l1 (x :: l2) s →
     wp (f x) (λ _, I (l1 ++ [x]) l2) s) →
  wp (forM l f) (λ _, I l []) s.
Proof.
  intros H0 Hstep.
  enough (∀ l2 l1 s, l = l1 ++ l2 → I l1 l2 s →
    wp (forM l2 f) (λ _, I l []) s) as Hgen by by apply (Hgen l []).
  clear s H0. induction l2 as [|x l2 IH]; intros l1 s El HI; simpl.
  - rewrite app_nil_r in El. subst l1. done.
  - rewrite wp_bind. eapply wp_mono; [by eapply Hstep|].
    intros ? s' HI'. apply (IH (l1 ++ [x])); [|done].
    by rewrite <- app_assoc.
Qed.
End Monad.

#[global] Arguments M_bind : simpl never.
#[global] Arguments M_ret : simpl never.

#[export] Hint Rewrite @wp_ret @wp_bind @wp_gets @wp_modify @wp_when
  @wp_assert_ok : wp.

(** Symbolic execution: push [wp] through the monadic operations. *)
Ltac wp_go := repeat (progress (autorewrite with wp; simpl)).

(** ** Lists *)

Lemma lookup_insert_dec {A} (l : list A) i j x y :
  l !! i = Some y → <[i:=x]> l !! j = if decide (i = j) then Some x else l !! j.
Proof.
  intros Hi. apply lookup_lt_Some in Hi. case_decide as E.
  - subst. by apply list_lookup_insert_eq.
  - by apply list_lookup_insert_ne.
Qed.

Lemma length_filter_insert {A} (P : A → Prop) `{∀ x, Decision (P x)} l i x y :
  l !! i = Some x →
  Z.of_nat (length (filter P (<[i:=y]> l))) = Z.of_nat (length (filter P l))
    - (if decide (P x) then 1 else 0) + (if decide (P y) then 1 else 0).
Proof.
  intros Hi. rewrite insert_take_drop by (by eapply lookup_lt_Some).
  assert (E : filter P l = filter P (take i l ++ x :: drop (S i) l))
    by (by rewrite take_drop_middle).
  rewrite E. clear E.
  rewrite !filter_app, !filter_cons, !length_app.
  repeat case_decide; simpl; lia.
Qed.

Lemma length_filter_pos {A} (P : A → Prop) `{∀ x, Decision (P x)} l i x :
  l !! i = Some x → P x → (0 < length (filter P l))%nat.
Proof.
  intros Hi Hx. assert (Hin : x ∈ filter P l).
  { apply list_elem_of_filter. split; [done|]. by eapply list_elem_of_lookup_2. }
  destruct (filter P l); [by apply not_elem_of_nil in Hin|simpl; lia].
Qed.

Lemma filter_none {A} (P : A → Prop) `{∀ x, Decision (P x)} l :
  (∀ i x, l !! i = Some x → ¬ P x) → filter P l = [].
Proof.
  induction l as [|x l IH]; intros Hl; [done|].
  rewrite filter_cons, decide_False by (by apply (Hl O)).
  apply IH. intros i. apply (Hl (S i)).
Qed.

Lemma mapM_Some_fmap {A B} (h : A → option B) (f : A → B) l :
  (∀ x, x ∈ l → h x = Some (f x)) → mapM h l = Some (f <$> l).
Proof.
  induction l as [|x l IH]; intros Hl; [done|]. simpl.
  rewrite Hl by set_solver. simpl. rewrite IH by set_solver. done.
Qed.

Lemma list_find_middle {A} (P : A → Prop) `{∀ x, Decision (P x)} l1 x l2 :
  P x → (∀ y, y ∈ l1 → ¬ P y) → list_find P (l1 ++ x :: l2) = Some (length l1, x).
Proof.
  intros Hx Hl. apply list_find_Some. split; [by apply list_lookup_middle|].
  split; [done|]. intros j y Hj Hlt. rewrite lookup_app_l in Hj by done.
  apply Hl. by eapply list_elem_of_lookup_2.
Qed.

Lemma list_find_absent {A} (P : A → Prop) `{∀ x, Decision (P x)} l :
  (∀ y, y ∈ l → ¬ P y) → list_find P l = None.
Proof. intros Hl. by apply list_find_None, Forall_forall. Qed.

Lemma alter_insert {A} (f : A → A) (j : nat) (t : list A) q : t !! j = Some q → alter f j t = <[j:=f q]> t.
Proof.
  intros E. apply list_eq. intros k. destruct (decide (k = j)) as [->|Hne].
  - rewrite list_lookup_alter_eq, E, list_lookup_insert_eq; [done|]. by eapply lookup_lt_Some.
  - by rewrite list_lookup_alter_ne, list_lookup_insert_ne.
Qed.

Lemma length_filter_split {A} (P Q : A → Prop) `{∀ x, Decision (P x)} `{∀ x, Decision (Q x)} (l : list A) :
  (∀ x, x ∈ l → Q x → P x) → length (filter P l) = (length (filter Q l) + length (filter (λ x, P x ∧ ¬ Q x) l))%nat.
Proof.
  induction l as [|x l IH]; intros HQP; [done|]. rewrite !filter_cons. assert (Hx : Q x → P x) by (apply HQP; left).
  assert (Hl : ∀ y, y ∈ l → Q y → P y) by (intros y Hy; apply HQP; by right). specialize (IH Hl).
  destruct (decide (P x)) as [HP|HP], (decide (Q x)) as [HQ|HQ]; [..|by exfalso; auto|];
    destruct (decide (P x ∧ ¬ Q x)); try tauto; cbn; lia.
Qed.

Lemma filter_ext_in {A} (P Q : A → Prop) `{∀ x, Decision (P x)} `{∀ x, Decision (Q x)} (l : list A) :
  (∀ x, x ∈ l → P x ↔ Q x) → filter P l = filter Q l.
Proof.
  induction l as [|x l IH]; intros HPQ; [done|]. rewrite !filter_cons, IH by (intros y Hy; apply HPQ; by right).
  assert (Hx : P x ↔ Q x) by (apply HPQ; left). destruct (decide (P x)), (decide (Q x)); tauto || done.
Qed.
