(* ===== verification/Mmu.v ===== *)
(** * Mmu: addresses, page-table entries and descriptors

    The macros of [mmu.h], [memlayout.h] and [param.h] that the memory
    subsystem uses, on [uint] values (see [Prelude]), with the arithmetic
    facts about them that the page-table code relies on. *)

From S2P Require Import Prelude.

(** ** Constants *)

Definition FL_IF := 0x200.
Definition SEG_KCODE := 1.
Definition SEG_KDATA := 2.
Definition SEG_UCODE := 3.
Definition SEG_UDATA := 4.
Definition SEG_TSS := 5.
Definition DPL_USER := 3.
Definition STA_X := 0x8.
Definition STA_W := 0x2.
Definition STA_R := 0x2.
Definition STS_T32A := 0x9.
Definition STS_IG32 := 0xE.
Definition STS_TG32 := 0xF.

Definition NPDENTRIES := 1024.
Definition NPTENTRIES := 1024.
Definition PGSIZE := 4096.
Definition PTXSHIFT := 12.
Definition PDXSHIFT := 22.

Definition PTE_P := 0x001.
Definition PTE_W := 0x002.
Definition PTE_U := 0x004.
Definition PTE_PS := 0x080.
Definition PTE_PG := 0x200.
Definition PTE_A := 0x020.
Definition PTE_COW := 0x400.

Definition EXTMEM := 0x100000.
Definition PHYSTOP := 0xE000000.
Definition DEVSPACE := 0xFE000000.
Definition KERNBASE := 0x80000000.
Definition KERNLINK := KERNBASE + EXTMEM.

Definition NPROC := 64%nat.
Definition KSTACKSIZE := 4096.
Definition NOFILE := 16%nat.
Definition MAXARG := 32.

(** ** Address macros *)

Definition V2P (a : Z) : Z := u32 (a - KERNBASE).
Definition P2V (a : Z) : Z := u32 (a + KERNBASE).

Definition PDX (va : Z) : Z := Z.land (Z.shiftr va PDXSHIFT) 0x3FF.
Definition PTX (va : Z) : Z := Z.land (Z.shiftr va PTXSHIFT) 0x3FF.
Definition PGADDR (d t o : Z) : Z :=
  u32 (Z.lor (Z.lor (Z.shiftl d PDXSHIFT) (Z.shiftl t PTXSHIFT)) o).

Definition PGROUNDUP (sz : Z) : Z :=
  Z.land (u32 (sz + PGSIZE - 1)) (notu (PGSIZE - 1)).
Definition PGROUNDDOWN (a : Z) : Z := Z.land a (notu (PGSIZE - 1)).

Definition PTE_ADDR (pte : Z) : Z := Z.land pte (notu 0xFFF).
Definition PTE_FLAGS (pte : Z) : Z := Z.land pte 0xFFF.

(** [has pte f]: the C condition [pte & f] for a flag [f]. *)
Definition has (pte f : Z) : bool := nz (Z.land pte f).

(** ** Descriptors *)

Record segdesc := {
  sd_lim_15_0 : Z; sd_base_15_0 : Z; sd_base_23_16 : Z; sd_type : Z;
  sd_s : Z; sd_dpl : Z; sd_p : Z; sd_lim_19_16 : Z; sd_avl : Z;
  sd_rsv1 : Z; sd_db : Z; sd_g : Z; sd_base_31_24 : Z
}.

(** The value a bit-field of [w] bits keeps. *)
Definition bits (w x : Z) : Z := x mod 2 ^ w.

Definition SEG (type base lim dpl : Z) : segdesc := {|
  sd_lim_15_0 := bits 16 (Z.land (Z.shiftr lim 12) 0xffff);
  sd_base_15_0 := bits 16 (Z.land base 0xffff);
  sd_base_23_16 := bits 8 (Z.land (Z.shiftr base 16) 0xff);
  sd_type := bits 4 type; sd_s := 1; sd_dpl := bits 2 dpl; sd_p := 1;
  sd_lim_19_16 := bits 4 (Z.shiftr lim 28); sd_avl := 0; sd_rsv1 := 0;
  sd_db := 1; sd_g := 1; sd_base_31_24 := bits 8 (Z.shiftr base 24)
|}.

Definition SEG16 (type base lim dpl : Z) : segdesc := {|
  sd_lim_15_0 := bits 16 (Z.land lim 0xffff);
  sd_base_15_0 := bits 16 (Z.land base 0xffff);
  sd_base_23_16 := bits 8 (Z.land (Z.shiftr base 16) 0xff);
  sd_type := bits 4 type; sd_s := 1; sd_dpl := bits 2 dpl; sd_p := 1;
  sd_lim_19_16 := bits 4 (Z.shiftr lim 16); sd_avl := 0; sd_rsv1 := 0;
  sd_db := 1; sd_g := 0; sd_base_31_24 := bits 8 (Z.shiftr base 24)
|}.

Record gatedesc := {
  gd_off_15_0 : Z; gd_cs : Z; gd_args : Z; gd_rsv1 : Z; gd_type : Z;
  gd_s : Z; gd_dpl : Z; gd_p : Z; gd_off_31_16 : Z
}.

Definition SETGATE (istrap : bool) (sel off d : Z) : gatedesc := {|
  gd_off_15_0 := bits 16 (Z.land off 0xffff);
  gd_cs := bits 16 sel; gd_args := 0; gd_rsv1 := 0;
  gd_type := if istrap then STS_TG32 else STS_IG32;
  gd_s := 0; gd_dpl := bits 2 d; gd_p := 1;
  gd_off_31_16 := bits 16 (Z.shiftr off 16)
|}.

(** How the processor reads a descriptor back. *)
Definition seg_base (d : segdesc) : Z :=
  sd_base_15_0 d + sd_base_23_16 d * 2 ^ 16 + sd_base_31_24 d * 2 ^ 24.
Definition seg_limit (d : segdesc) : Z :=
  let l := sd_lim_15_0 d + sd_lim_19_16 d * 2 ^ 16 in
  if sd_g d =? 1 then l * 4096 + 4095 else l.
Definition gate_offset (g : gatedesc) : Z :=
  gd_off_15_0 g + gd_off_31_16 g * 2 ^ 16.

(** Unfold the constants of this file, for arithmetic. *)
Ltac consts := unfold KERNLINK, NPDENTRIES, NPTENTRIES, PGSIZE, PTXSHIFT, PDXSHIFT,
  EXTMEM, PHYSTOP, DEVSPACE, KERNBASE, KSTACKSIZE, is_u32, is_u8 in *.
Ltac klia := consts; dlia.

#[global] Arguments PDX : simpl never.
#[global] Arguments PTX : simpl never.
#[global] Arguments PGADDR : simpl never.
#[global] Arguments PGROUNDUP : simpl never.
#[global] Arguments PGROUNDDOWN : simpl never.
#[global] Arguments PTE_ADDR : simpl never.
#[global] Arguments PTE_FLAGS : simpl never.
#[global] Arguments has : simpl never.
#[global] Arguments notu : simpl never.
#[global] Arguments u32 : simpl never.

(** ** Address arithmetic *)

Lemma PGROUNDDOWN_eq a : is_u32 a → PGROUNDDOWN a = a - a mod 4096.
Proof. intros. unfold PGROUNDDOWN. by apply (land_high_mask a 12). Qed.

Lemma PTE_ADDR_eq p : is_u32 p → PTE_ADDR p = p - p mod 4096.
Proof. intros. unfold PTE_ADDR. by apply (land_high_mask p 12). Qed.

Lemma PTE_FLAGS_eq p : PTE_FLAGS p = p mod 4096.
Proof. unfold PTE_FLAGS. by apply (Z.land_ones p 12). Qed.

Lemma PGROUNDUP_eq a :
  PGROUNDUP a = u32 (a + 4095) - u32 (a + 4095) mod 4096.
Proof.
  unfold PGROUNDUP. replace (a + PGSIZE - 1) with (a + 4095) by klia.
  apply (land_high_mask _ 12); [lia|apply u32_range].
Qed.

(** Below the last page of the address space, rounding up is the least
    multiple of the page size that is not below. *)
Lemma PGROUNDUP_least a :
  0 ≤ a ≤ 4294963200 →
  PGROUNDUP a mod 4096 = 0 ∧ a ≤ PGROUNDUP a < a + 4096.
Proof. intros. rewrite PGROUNDUP_eq. unfold u32. dlia. Qed.

Lemma PDX_eq va : is_u32 va → PDX va = va / 2 ^ 22.
Proof.
  intros. unfold PDX. change 0x3FF with (Z.ones 10).
  rewrite Z.land_ones, Z.shiftr_div_pow2 by done. unfold PDXSHIFT. klia.
Qed.

Lemma PTX_eq va : PTX va = va / 4096 mod 1024.
Proof.
  unfold PTX. change 0x3FF with (Z.ones 10).
  by rewrite Z.land_ones, Z.shiftr_div_pow2 by done.
Qed.

Lemma PDX_range va : 0 ≤ PDX va < 1024.
Proof.
  unfold PDX. change 0x3FF with (Z.ones 10). rewrite Z.land_ones by done.
  apply Z.mod_pos_bound. done.
Qed.

Lemma PTX_range va : 0 ≤ PTX va < 1024.
Proof. rewrite PTX_eq. dlia. Qed.

Lemma testbit_small b n i : 0 ≤ b < 2 ^ n → 0 ≤ n ≤ i → Z.testbit b i = false.
Proof.
  intros Hb Hi. destruct (decide (b = 0)) as [->|]; [apply Z.bits_0|].
  apply Z.bits_above_log2; [lia|]. apply Z.log2_lt_pow2; [lia|].
  eapply Z.lt_le_trans; [apply Hb|]. apply Z.pow_le_mono_r; lia.
Qed.

(** [lor] of bit-disjoint numbers is their sum. *)
Lemma lor_low q b n : 0 ≤ n → 0 ≤ b < 2 ^ n → Z.lor (q * 2 ^ n) b = q * 2 ^ n + b.
Proof.
  intros Hn Hb.
  assert (E : Z.land (q * 2 ^ n) b = 0).
  { apply Z.bits_inj'. intros i Hi. rewrite Z.land_spec, Z.bits_0.
    destruct (decide (i < n)); [by rewrite Z.mul_pow2_bits_low|].
    rewrite (testbit_small b n i) by lia. apply andb_false_r. }
  rewrite <- Z.lxor_lor by done. symmetry. by apply Z.add_nocarry_lxor.
Qed.

Lemma PGADDR_eq d t o :
  0 ≤ d < 1024 → 0 ≤ t < 1024 → 0 ≤ o < 4096 →
  PGADDR d t o = d * 2 ^ 22 + t * 2 ^ 12 + o.
Proof.
  intros Hd Ht Ho. unfold PGADDR, PDXSHIFT, PTXSHIFT.
  rewrite !Z.shiftl_mul_pow2 by lia.
  rewrite (lor_low d (t * 2 ^ 12) 22) by lia.
  replace (d * 2 ^ 22 + t * 2 ^ 12) with ((d * 1024 + t) * 2 ^ 12) by lia.
  rewrite lor_low by lia. rewrite u32_small; [lia|unfold is_u32; lia].
Qed.

Lemma PTE_ADDR_range p : is_u32 p → is_u32 (PTE_ADDR p).
Proof. intros. rewrite PTE_ADDR_eq by done. klia. Qed.

Lemma V2P_P2V a : is_u32 a → V2P (P2V a) = a.
Proof. intros. unfold V2P, P2V, u32. klia. Qed.

Lemma P2V_V2P a : is_u32 a → P2V (V2P a) = a.
Proof. intros. unfold V2P, P2V, u32. klia. Qed.

(** A page-table entry made from a page address and flags gives both back. *)
Lemma PTE_ADDR_lor pa f :
  is_u32 pa → pa mod 4096 = 0 → 0 ≤ f < 4096 →
  Z.lor pa f = pa + f ∧ PTE_ADDR (Z.lor pa f) = pa ∧ PTE_FLAGS (Z.lor pa f) = f.
Proof.
  intros Hpa Hal Hf.
  assert (E : Z.lor pa f = pa + f).
  { replace pa with (pa / 4096 * 2 ^ 12) at 1 2 by klia. apply lor_low; lia. }
  rewrite E. split; [done|]. rewrite PTE_ADDR_eq, PTE_FLAGS_eq by klia. klia.
Qed.

(** ** Flag tests *)

Lemma has_bit p k : 0 ≤ k → has p (2 ^ k) = Z.testbit p k.
Proof.
  intros Hk. unfold has, nz. destruct (Z.testbit p k) eqn:E.
  - apply negb_true_iff, Z.eqb_neq. intros H0.
    apply (f_equal (λ x, Z.testbit x k)) in H0.
    rewrite Z.land_spec, Z.pow2_bits_true, Z.bits_0, E in H0 by lia. done.
  - apply negb_false_iff, Z.eqb_eq. apply Z.bits_inj'. intros i Hi.
    rewrite Z.land_spec, Z.bits_0, Z.pow2_bits_eqb by lia.
    destruct (Z.eqb_spec k i) as [->|]; [by rewrite E|by rewrite andb_false_r].
Qed.

Lemma has_P p : has p PTE_P = Z.testbit p 0. Proof. by apply (has_bit p 0). Qed.
Lemma has_W p : has p PTE_W = Z.testbit p 1. Proof. by apply (has_bit p 1). Qed.
Lemma has_U p : has p PTE_U = Z.testbit p 2. Proof. by apply (has_bit p 2). Qed.
Lemma has_A p : has p PTE_A = Z.testbit p 5. Proof. by apply (has_bit p 5). Qed.
Lemma has_PG p : has p PTE_PG = Z.testbit p 9. Proof. by apply (has_bit p 9). Qed.
Lemma has_COW p : has p PTE_COW = Z.testbit p 10. Proof. by apply (has_bit p 10). Qed.

Lemma notu_spec x i : 0 ≤ i < 32 → Z.testbit (notu x) i = negb (Z.testbit x i).
Proof.
  intros Hi. unfold notu. rewrite Z.lxor_spec. change 4294967295 with (Z.ones 32).
  rewrite (Z.ones_spec_low 32) by lia. by rewrite xorb_true_r.
Qed.

Lemma aligned_low_bits pa i : pa mod 4096 = 0 → 0 ≤ i < 12 → Z.testbit pa i = false.
Proof.
  intros Hpa Hi. replace pa with (pa / 4096 * 2 ^ 12) by dlia.
  apply Z.mul_pow2_bits_low. lia.
Qed.

(** Decide the flags of an entry built with [lor], [land] and [notu]. *)
Ltac flags :=
  repeat rewrite ?has_P, ?has_W, ?has_U, ?has_A, ?has_PG, ?has_COW;
  repeat (first [rewrite Z.lor_spec | rewrite Z.land_spec | rewrite notu_spec by lia]);
  repeat match goal with
  | |- context [Z.testbit ?c ?i] =>
      lazymatch c with
      | PTE_P => idtac | PTE_W => idtac | PTE_U => idtac | PTE_A => idtac
      | PTE_PG => idtac | PTE_COW => idtac | Z0 => idtac | Zpos _ => idtac
      end;
      let v := eval vm_compute in (Z.testbit c i) in
      lazymatch v with
      | true => change (Z.testbit c i) with true
      | false => change (Z.testbit c i) with false
      end
  end;
  simpl; rewrite ?orb_true_r, ?orb_false_r, ?andb_true_r, ?andb_false_r; simpl.

(** Flag changes keep the page address. *)
Lemma PTE_ADDR_bits p i : 0 ≤ i → Z.testbit (PTE_ADDR p) i =
  Z.testbit p i && (12 <=? i) && (i <? 32).
Proof.
  intros Hi. unfold PTE_ADDR. rewrite Z.land_spec. unfold notu. rewrite Z.lxor_spec.
  change 0xFFF with (Z.ones 12). change 4294967295 with (Z.ones 32).
  destruct (Z.leb_spec 12 i), (Z.ltb_spec i 32);
  rewrite ?(Z.ones_spec_low 12), ?(Z.ones_spec_high 12),
    ?(Z.ones_spec_low 32), ?(Z.ones_spec_high 32) by lia;
  simpl; by rewrite ?andb_true_r, ?andb_false_r.
Qed.

Lemma PTE_ADDR_set p f : 0 ≤ f < 4096 → PTE_ADDR (Z.lor p f) = PTE_ADDR p.
Proof.
  intros Hf. apply Z.bits_inj'. intros i Hi. rewrite !PTE_ADDR_bits, Z.lor_spec by done.
  destruct (Z.leb_spec 12 i); [|by rewrite !andb_false_r].
  by rewrite (testbit_small f 12 i), orb_false_r by lia.
Qed.

Lemma PTE_ADDR_clear p f : 0 ≤ f < 4096 → PTE_ADDR (Z.land p (notu f)) = PTE_ADDR p.
Proof.
  intros Hf. apply Z.bits_inj'. intros i Hi. rewrite !PTE_ADDR_bits, Z.land_spec by done.
  destruct (Z.leb_spec 12 i), (Z.ltb_spec i 32); rewrite ?andb_false_r; try done.
  by rewrite notu_spec, (testbit_small f 12 i), andb_true_r by lia.
Qed.

(** Bitwise operations stay within [k] bits. *)
Lemma below_lor k x y :
  0 < k → 0 ≤ x < 2 ^ k → 0 ≤ y < 2 ^ k → 0 ≤ Z.lor x y < 2 ^ k.
Proof.
  intros Hk Hx Hy. assert (0 ≤ Z.lor x y) by (apply Z.lor_nonneg; lia). split; [done|].
  destruct (decide (Z.lor x y = 0)) as [->|]; [lia|].
  apply Z.log2_lt_pow2; [lia|]. rewrite Z.log2_lor by lia. apply Z.max_lub_lt.
  - destruct (decide (x = 0)) as [->|]; [done|]. apply Z.log2_lt_pow2; lia.
  - destruct (decide (y = 0)) as [->|]; [done|]. apply Z.log2_lt_pow2; lia.
Qed.

Lemma below_land k x y : 0 < k → 0 ≤ x < 2 ^ k → 0 ≤ y → 0 ≤ Z.land x y < 2 ^ k.
Proof.
  intros Hk Hx Hy. assert (0 ≤ Z.land x y) by (apply Z.land_nonneg; lia). split; [done|].
  destruct (decide (Z.land x y = 0)) as [->|]; [lia|].
  destruct (decide (x = 0)) as [->|]; [done|].
  apply Z.log2_lt_pow2; [lia|]. eapply Z.le_lt_trans; [apply Z.log2_land; lia|].
  apply Z.min_lt_iff. left. apply Z.log2_lt_pow2; lia.
Qed.

Lemma is_u32_lor x y : is_u32 x → is_u32 y → is_u32 (Z.lor x y).
Proof. by apply (below_lor 32). Qed.

Lemma is_u32_land x y : is_u32 x → 0 ≤ y → is_u32 (Z.land x y).
Proof. by apply (below_land 32). Qed.

Lemma low_lor x y : 0 ≤ x < 4096 → 0 ≤ y < 4096 → 0 ≤ Z.lor x y < 4096.
Proof. by apply (below_lor 12). Qed.

Lemma low_land x y : 0 ≤ x < 4096 → 0 ≤ y → 0 ≤ Z.land x y < 4096.
Proof. by apply (below_land 12). Qed.

Lemma PTE_FLAGS_low p : 0 ≤ PTE_FLAGS p < 4096.
Proof. rewrite PTE_FLAGS_eq. by apply Z.mod_pos_bound. Qed.
