(* ===== verification/Config.v ===== *)
(** * Config: what the build and the linker fix

    The page-replacement policy and the verbosity are preprocessor symbols
    ([-DSELECTION=...], [-DVERBOSE_PRINT=...] in the Makefile); [end] and
    [data] are placed by the linker script [kernel.ld].  The development is
    parametric in all four through the class [Config]. *)

From S2P Require Import Prelude Mmu.

(** The policies of [proc.h]. *)
Inductive selection := NFUA | LAPA | SCFIFO | AQ | NONE | LIFO.

#[global] Instance selection_eq_dec : EqDecision selection.
Proof. solve_decision. Defined.

Class Config := {
  SELECTION : selection;
  VERBOSE_PRINT : bool;
  kdata : Z;   (* extern char data[] *)
  kend : Z     (* extern char end[] *)
}.

(** What [kernel.ld] guarantees: the image is linked at [KERNLINK], its data
    segment starts on a page boundary, and it ends below the 4 megabytes that
    [entrypgdir] maps. *)
Class ConfigOk `{Config} : Prop := {
  kdata_aligned : kdata mod PGSIZE = 0;
  kdata_low : KERNLINK < kdata;
  kdata_end : kdata < kend;
  kend_high : kend < KERNBASE + 4 * 1024 * 1024
}.

(** A layout of the size a real build gives, for the concrete runs. *)
Definition demo_config (sel : selection) : Config := {|
  SELECTION := sel; VERBOSE_PRINT := false;
  kdata := 0x80109000; kend := 0x80117000
|}.

Lemma demo_config_ok sel : @ConfigOk (demo_config sel).
Proof. by constructor. Qed.
