(* ===== verification/Phys.v ===== *)
(** * Phys: physical memory and the state of the page allocator

    Physical memory is a map from byte addresses to bytes.  The kernel
    reaches it through its direct map: the kernel virtual address [v] is the
    physical address [V2P v].  An access outside the direct map (a null
    pointer, say) is undefined behaviour. *)

From S2P Require Import Prelude Mmu.

(** ** Bytes and words *)

Definition memory : Type := Z → Z.

Definition ld8 (m : memory) (a : Z) : Z := u8 (m a).
Definition st8 (m : memory) (a v : Z) : memory :=
  λ x, if x =? a then u8 v else m x.

Definition ld32 (m : memory) (a : Z) : Z :=
  ld8 m a + ld8 m (a + 1) * 256 + ld8 m (a + 2) * 65536
  + ld8 m (a + 3) * 16777216.
Definition st32 (m : memory) (a w : Z) : memory :=
  st8 (st8 (st8 (st8 m a w) (a + 1) (w / 256)) (a + 2) (w / 65536))
    (a + 3) (w / 16777216).

(** [x] lies in the [n] bytes from [a]. *)
Definition in_range (a n x : Z) : bool := (a <=? x) && (x <? a + n).

Definition fill (m : memory) (a n c : Z) : memory :=
  λ x, if in_range a n x then u8 c else m x.
Definition copy (m : memory) (dst src n : Z) : memory :=
  λ x, if in_range dst n x then ld8 m (src + (x - dst)) else m x.
Definition st_bytes (m : memory) (a : Z) (l : list Z) : memory :=
  λ x, if in_range a (Z.of_nat (length l)) x
       then u8 (nth (Z.to_nat (x - a)) l 0) else m x.
Definition ld_bytes (m : memory) (a : Z) (n : nat) : list Z :=
  (λ i, ld8 m (a + Z.of_nat i)) <$> seq 0 n.

Section Memory.
Implicit Types (m : memory) (a b w n c : Z).

Lemma ld8_range m a : is_u8 (ld8 m a).
Proof. unfold ld8, u8, is_u8. dlia. Qed.

Lemma ld8_st8 m a v : ld8 (st8 m a v) a = u8 v.
Proof. unfold ld8, st8, u8. rewrite Z.eqb_refl. dlia. Qed.

Lemma ld8_st8_ne m a b v : a ≠ b → ld8 (st8 m a v) b = ld8 m b.
Proof. intros. unfold ld8, st8. by destruct (Z.eqb_spec b a). Qed.

Lemma ld32_range m a : is_u32 (ld32 m a).
Proof.
  unfold ld32. pose proof (ld8_range m a). pose proof (ld8_range m (a + 1)).
  pose proof (ld8_range m (a + 2)). pose proof (ld8_range m (a + 3)). klia.
Qed.

Lemma ld32_ext m m' a b :
  (∀ i, 0 ≤ i < 4 → ld8 m (a + i) = ld8 m' (b + i)) → ld32 m a = ld32 m' b.
Proof.
  intros H. unfold ld32. rewrite <- (Z.add_0_r a), <- (Z.add_0_r b).
  by rewrite <- !Z.add_assoc, !H by lia.
Qed.

Lemma ld32_st32 m a w : is_u32 w → ld32 (st32 m a w) a = w.
Proof.
  intros. unfold ld32, st32.
  rewrite !ld8_st8, !(ld8_st8_ne _ (a + 3)), !ld8_st8, !(ld8_st8_ne _ (a + 2)),
    !ld8_st8, !(ld8_st8_ne _ (a + 1)), !ld8_st8 by lia.
  unfold u8. klia.
Qed.

Lemma ld8_st32_ne m a b w : (b < a ∨ a + 4 ≤ b) → ld8 (st32 m a w) b = ld8 m b.
Proof. intros. unfold st32. by rewrite !ld8_st8_ne by lia. Qed.

Lemma ld32_st32_ne m a b w :
  (a + 4 ≤ b ∨ b + 4 ≤ a) → ld32 (st32 m a w) b = ld32 m b.
Proof. intros. apply ld32_ext. intros. apply ld8_st32_ne. lia. Qed.

Lemma ld8_fill_in m a n c b : a ≤ b < a + n → ld8 (fill m a n c) b = u8 c.
Proof.
  intros. unfold ld8, fill, in_range.
  destruct (Z.leb_spec a b), (Z.ltb_spec b (a + n)); try lia.
  simpl. unfold u8. dlia.
Qed.

Lemma ld8_fill_out m a n c b : (b < a ∨ a + n ≤ b) → ld8 (fill m a n c) b = ld8 m b.
Proof.
  intros. unfold ld8, fill, in_range.
  destruct (Z.leb_spec a b), (Z.ltb_spec b (a + n)); try lia; done.
Qed.

Lemma ld32_fill_out m a n c b :
  (b + 4 ≤ a ∨ a + n ≤ b) → ld32 (fill m a n c) b = ld32 m b.
Proof. intros. apply ld32_ext. intros. apply ld8_fill_out. lia. Qed.

Lemma ld32_fill_0 m a n b : a ≤ b → b + 4 ≤ a + n → ld32 (fill m a n 0) b = 0.
Proof. intros. unfold ld32. by rewrite !ld8_fill_in by lia. Qed.

Lemma ld8_copy_in m d s n b :
  d ≤ b < d + n → ld8 (copy m d s n) b = ld8 m (s + (b - d)).
Proof.
  intros. unfold ld8, copy, in_range.
  destruct (Z.leb_spec d b), (Z.ltb_spec b (d + n)); try lia.
  simpl. unfold ld8, u8. dlia.
Qed.

Lemma ld8_copy_out m d s n b :
  (b < d ∨ d + n ≤ b) → ld8 (copy m d s n) b = ld8 m b.
Proof.
  intros. unfold ld8, copy, in_range.
  destruct (Z.leb_spec d b), (Z.ltb_spec b (d + n)); try lia; done.
Qed.

Lemma ld32_copy_out m d s n b :
  (b + 4 ≤ d ∨ d + n ≤ b) → ld32 (copy m d s n) b = ld32 m b.
Proof. intros. apply ld32_ext. intros. apply ld8_copy_out. lia. Qed.

Lemma ld8_st_bytes_in m a l i x :
  l !! i = Some x → ld8 (st_bytes m a l) (a + Z.of_nat i) = u8 x.
Proof.
  intros Hi. pose proof (lookup_lt_Some _ _ _ Hi).
  unfold ld8, st_bytes, in_range.
  destruct (Z.leb_spec a (a + Z.of_nat i)),
    (Z.ltb_spec (a + Z.of_nat i) (a + Z.of_nat (length l))); try lia.
  simpl. replace (Z.to_nat (a + Z.of_nat i - a)) with i by lia.
  erewrite nth_lookup_Some by done. unfold u8. dlia.
Qed.

Lemma ld8_st_bytes_out m a l b :
  (b < a ∨ a + Z.of_nat (length l) ≤ b) → ld8 (st_bytes m a l) b = ld8 m b.
Proof.
  intros. unfold ld8, st_bytes, in_range.
  destruct (Z.leb_spec a b), (Z.ltb_spec b (a + Z.of_nat (length l))); try lia; done.
Qed.

Lemma length_ld_bytes m a (k : nat) : length (ld_bytes m a k) = k.
Proof. unfold ld_bytes. by rewrite length_fmap, length_seq. Qed.

Lemma lookup_ld_bytes m a (k i : nat) :
  (i < k)%nat → ld_bytes m a k !! i = Some (ld8 m (a + Z.of_nat i)).
Proof. intros. unfold ld_bytes. by rewrite list_lookup_fmap, lookup_seq_lt. Qed.
End Memory.

(** ** Allocator state

    [struct kmem] and [struct gloabl_meta_data] of [kalloc.c] and [types.h],
    beside the memory they manage.  [kmem_locked] is [kmem.lock] as the
    running CPU sees it. *)

Record phys := mkPhys {
  mem : memory;
  kmem_locked : bool;
  use_lock : bool;
  freelist : Z;
  referenceCounters : Z → Z;
  total_system_pages : Z;
  system_free_pages : Z
}.

Definition set_mem (m : memory) (s : phys) : phys :=
  mkPhys m (kmem_locked s) (use_lock s) (freelist s) (referenceCounters s)
    (total_system_pages s) (system_free_pages s).
Definition set_kmem_locked (b : bool) (s : phys) : phys :=
  mkPhys (mem s) b (use_lock s) (freelist s) (referenceCounters s)
    (total_system_pages s) (system_free_pages s).
Definition set_use_lock (b : bool) (s : phys) : phys :=
  mkPhys (mem s) (kmem_locked s) b (freelist s) (referenceCounters s)
    (total_system_pages s) (system_free_pages s).
Definition set_freelist (v : Z) (s : phys) : phys :=
  mkPhys (mem s) (kmem_locked s) (use_lock s) v (referenceCounters s)
    (total_system_pages s) (system_free_pages s).
Definition set_referenceCounters (f : Z → Z) (s : phys) : phys :=
  mkPhys (mem s) (kmem_locked s) (use_lock s) (freelist s) f
    (total_system_pages s) (system_free_pages s).
Definition set_total_system_pages (v : Z) (s : phys) : phys :=
  mkPhys (mem s) (kmem_locked s) (use_lock s) (freelist s) (referenceCounters s)
    v (system_free_pages s).
Definition set_system_free_pages (v : Z) (s : phys) : phys :=
  mkPhys (mem s) (kmem_locked s) (use_lock s) (freelist s) (referenceCounters s)
    (total_system_pages s) v.

(** [<[i:=v]>] on a counter table. *)
Definition upd (f : Z → Z) (i v : Z) : Z → Z := λ j, if j =? i then v else f j.

Lemma upd_eq f i v : upd f i v i = v.
Proof. unfold upd. by rewrite Z.eqb_refl. Qed.
Lemma upd_ne f i j v : i ≠ j → upd f i v j = f j.
Proof. unfold upd. by destruct (Z.eqb_spec j i). Qed.

(** ** Kernel accesses through the direct map *)

(** The [n] bytes at kernel address [v] are mapped. *)
Definition kaddr_ok (v n : Z) : bool :=
  (KERNBASE <=? v) && (v + n <=? KERNBASE + PHYSTOP).

Definition kload32 (v : Z) : M phys Z :=
  assert_ok (kaddr_ok v 4) "load outside the direct map" ;;
  gets (λ s, ld32 (mem s) (V2P v)).

Definition kstore32 (v w : Z) : M phys unit :=
  assert_ok (kaddr_ok v 4) "store outside the direct map" ;;
  modify (λ s, set_mem (st32 (mem s) (V2P v) w) s).

(** [memset(v, c, n)] and [memmove(dst, src, n)] on kernel addresses. *)
Definition kmemset (v c n : Z) : M phys unit :=
  assert_ok (kaddr_ok v n) "memset outside the direct map" ;;
  modify (λ s, set_mem (fill (mem s) (V2P v) n c) s).

Definition kmemmove (dst src n : Z) : M phys unit :=
  assert_ok (kaddr_ok dst n && kaddr_ok src n) "memmove outside the direct map" ;;
  modify (λ s, set_mem (copy (mem s) (V2P dst) (V2P src) n) s).

(** Copying bytes the kernel holds outside the page pool into memory. *)
Definition kstore_bytes (v : Z) (l : list Z) : M phys unit :=
  assert_ok (kaddr_ok v (Z.of_nat (length l))) "store outside the direct map" ;;
  modify (λ s, set_mem (st_bytes (mem s) (V2P v) l) s).

#[global] Arguments kload32 : simpl never.
#[global] Arguments kstore32 : simpl never.
#[global] Arguments kmemset : simpl never.
#[global] Arguments kmemmove : simpl never.
#[global] Arguments kstore_bytes : simpl never.
#[global] Arguments st32 : simpl never.
#[global] Arguments ld32 : simpl never.
#[global] Arguments fill : simpl never.
#[global] Arguments copy : simpl never.
#[global] Arguments V2P : simpl never.
#[global] Arguments P2V : simpl never.

Lemma kaddr_ok_true v n :
  kaddr_ok v n = true ↔ KERNBASE ≤ v ∧ v + n ≤ KERNBASE + PHYSTOP.
Proof. unfold kaddr_ok. rewrite andb_true_iff, !Z.leb_le. done. Qed.

Lemma kload32_eq v s :
  kaddr_ok v 4 = true → kload32 v s = Ok (ld32 (mem s) (V2P v)) s.
Proof. unfold kload32. by intros ->. Qed.

Lemma kstore32_eq v w s :
  kaddr_ok v 4 = true →
  kstore32 v w s = Ok tt (set_mem (st32 (mem s) (V2P v) w) s).
Proof. unfold kstore32. by intros ->. Qed.

Lemma kmemset_eq v c n s :
  kaddr_ok v n = true →
  kmemset v c n s = Ok tt (set_mem (fill (mem s) (V2P v) n c) s).
Proof. unfold kmemset. by intros ->. Qed.

Lemma kmemmove_eq d c n s :
  kaddr_ok d n = true → kaddr_ok c n = true →
  kmemmove d c n s = Ok tt (set_mem (copy (mem s) (V2P d) (V2P c) n) s).
Proof. unfold kmemmove. by intros -> ->. Qed.

Lemma kstore_bytes_eq v l s :
  kaddr_ok v (Z.of_nat (length l)) = true →
  kstore_bytes v l s = Ok tt (set_mem (st_bytes (mem s) (V2P v) l) s).
Proof. unfold kstore_bytes. by intros ->. Qed.

Lemma V2P_direct v : KERNBASE ≤ v < 4294967296 → V2P v = v - KERNBASE.
Proof. intros. unfold V2P. rewrite u32_small; klia. Qed.
