(* ===== verification/Hw.v ===== *)
(** * Hw: interrupts, ports, registers and the disk controller

    The machine below the kernel is a parameter: a type of states with what
    reading and writing a port or a register does to it.  What the drivers rely
    on of the disk controller is stated as the laws of the class [Ata], and a
    simple controller shows that they can hold. *)

From S2P Require Import Prelude Mmu Phys.

(** ** Numbers of traps and interrupts, [traps.h] *)

Definition T_PGFLT := 14.
Definition T_SYSCALL := 64.
Definition T_IRQ0 := 32.
Definition IRQ_TIMER := 0.
Definition IRQ_KBD := 1.
Definition IRQ_COM1 := 4.
Definition IRQ_IDE := 14.
Definition IRQ_ERROR := 19.
Definition IRQ_SPURIOUS := 31.

(** ** Ports and registers *)

(** [inb], [outb], [insl] and [outsl] of [x86.h] (the string instructions move lists of
    bytes), and accesses to memory-mapped registers. *)
Class Machine (D : Type) := {
  m_inb : Z → D → Z * D;
  m_outb : Z → Z → D → D;
  m_insl : Z → nat → D → list Z * D;
  m_outsl : Z → list Z → D → D;
  m_rd : Z → D → Z * D;
  m_wr : Z → Z → D → D
}.

Section Ports.
Context {D : Type} `{Machine D}.

Definition inb (port : Z) : M D Z := λ d, let (v, d') := m_inb port d in Ok (u8 v) d'.
Definition outb (port data : Z) : M D unit := modify (m_outb port (u8 data)).
(** [cnt] is in units of four bytes. *)
Definition insl (port : Z) (cnt : nat) : M D (list Z) := λ d, let (v, d') := m_insl port cnt d in Ok v d'.
Definition outsl (port : Z) (data : list Z) : M D unit := modify (m_outsl port data).
Definition mmio_read (a : Z) : M D Z := λ d, let (v, d') := m_rd a d in Ok (u32 v) d'.
Definition mmio_write (a v : Z) : M D unit := modify (m_wr a (u32 v)).

(** [while((inb(port) & mask) != want)], with at most [fuel] looks. *)
Fixpoint poll (fuel : nat) (port mask want : Z) : M D Z :=
  match fuel with
  | O => fail NoFuel
  | S fuel' => r ← inb port; if Z.land r mask =? want then mret r else poll fuel' port mask want
  end.
End Ports.

(** ** The disk controller *)

(** The registers of a command: number of sectors, the three low bytes of the
    sector, drive and high bits, command. *)
Definition ata_command `{Machine D} (count r3 r4 r5 r6 cmd : Z) (d : D) : D :=
  m_outb 0x1f7 cmd (m_outb 0x1f6 r6 (m_outb 0x1f5 r5 (m_outb 0x1f4 r4 (m_outb 0x1f3 r3 (m_outb 0x1f2 count d))))).
(** Drive and sector, from the registers, in the mode that numbers sectors. *)
Definition ata_drive (r6 : Z) : Z := Z.land (Z.shiftr r6 4) 1.
Definition ata_lba (r3 r4 r5 r6 : Z) : Z := r3 + r4 * 2 ^ 8 + r5 * 2 ^ 16 + Z.land r6 15 * 2 ^ 24.

Class Ata (D : Type) `{Machine D} (looks : nat) := {
  ata_ok : D → Prop;
  ata_sector : D → Z → Z → list Z;         (* drive, sector *)
  ata_pending : D → option (list Z);       (* what the next string input gives *)
  (** The controller becomes ready without an error, and looking at its status changes
      nothing else. *)
  ata_wait : ∀ d, ata_ok d → ∃ r d', poll looks 0x1f7 0xc0 0x40 d = Ok r d' ∧ Z.land r 0x21 = 0 ∧
    ata_ok d' ∧ ata_sector d' = ata_sector d ∧ ata_pending d' = ata_pending d;
  (** The command to read one sector. *)
  ata_read : ∀ d r3 r4 r5 r6, ata_ok d → Z.land r6 0xe0 = 0xe0 →
    is_u8 r3 → is_u8 r4 → is_u8 r5 → is_u8 r6 →
    let d' := ata_command 1 r3 r4 r5 r6 0x20 d in
    ata_ok d' ∧ ata_sector d' = ata_sector d ∧
    ata_pending d' = Some (ata_sector d (ata_drive r6) (ata_lba r3 r4 r5 r6));
  (** The data. *)
  ata_data : ∀ d x, ata_ok d → ata_pending d = Some x →
    ∃ d', m_insl 0x1f0 128 d = (x, d') ∧ ata_ok d' ∧ ata_sector d' = ata_sector d;
  (** The command to write one sector, and its data. *)
  ata_write : ∀ d r3 r4 r5 r6 x, ata_ok d → Z.land r6 0xe0 = 0xe0 →
    is_u8 r3 → is_u8 r4 → is_u8 r5 → is_u8 r6 → length x = 512%nat →
    let d' := m_outsl 0x1f0 x (ata_command 1 r3 r4 r5 r6 0x30 d) in
    ata_ok d' ∧ ∀ v n, ata_sector d' v n = if decide (v = ata_drive r6 ∧ n = ata_lba r3 r4 r5 r6) then x else ata_sector d v n;
  (** The control register. *)
  ata_control : ∀ d v, ata_ok d → ata_ok (m_outb 0x3f6 v d) ∧ ata_sector (m_outb 0x3f6 v d) = ata_sector d;
  ata_length : ∀ d v n, length (ata_sector d v n) = 512%nat
}.

(** ** A controller *)

(** Contents, registers, how often the status will still be busy, and the data of
    the last read. *)
Record pio := mkPio { p_sectors : Z → Z → list Z; p_regs : Z → Z; p_busy : nat; p_data : option (list Z) }.

Definition fit512 (l : list Z) : list Z := take 512 (l ++ replicate 512 0).
Lemma fit512_id l : length l = 512%nat → fit512 l = l.
Proof. intros Hl. unfold fit512. rewrite take_app_le by lia. apply take_ge. lia. Qed.
Definition pio_sector (d : pio) (v n : Z) : list Z := fit512 (p_sectors d v n).

#[export] Instance pio_machine : Machine pio := {
  m_inb := λ p d,
    if p =? 0x1f7 then
      match p_busy d with
      | O => (0x40, d)
      | S k => (0x80, mkPio (p_sectors d) (p_regs d) k (p_data d))
      end
    else (p_regs d p, d);
  m_outb := λ p v d,
    let regs := λ q, if q =? p then v else p_regs d q in
    if p =? 0x1f7 then
      mkPio (p_sectors d) regs 3
        (if v =? 0x20 then Some (pio_sector d (ata_drive (p_regs d 0x1f6))
           (ata_lba (p_regs d 0x1f3) (p_regs d 0x1f4) (p_regs d 0x1f5) (p_regs d 0x1f6))) else None)
    else mkPio (p_sectors d) regs (p_busy d) (p_data d);
  m_insl := λ p n d, (default [] (p_data d), mkPio (p_sectors d) (p_regs d) (p_busy d) None);
  m_outsl := λ p l d,
    let v := ata_drive (p_regs d 0x1f6) in
    let n := ata_lba (p_regs d 0x1f3) (p_regs d 0x1f4) (p_regs d 0x1f5) (p_regs d 0x1f6) in
    mkPio (λ v' n', if decide (v' = v ∧ n' = n) then l else p_sectors d v' n') (p_regs d) (p_busy d) (p_data d);
  m_rd := λ a d, (0, d);
  m_wr := λ a v d, d
}.

Lemma length_fit512 l : length (fit512 l) = 512%nat.
Proof. unfold fit512. rewrite length_take, length_app, length_replicate. lia. Qed.

#[export, refine] Instance pio_ata : Ata pio 5 := {
  ata_ok := λ d, (p_busy d ≤ 3)%nat; ata_sector := pio_sector; ata_pending := p_data }.
Proof.
  - intros d Hd. exists 0x40, (mkPio (p_sectors d) (p_regs d) 0 (p_data d)). split; [|split; [done|split; [cbn; lia|done]]].
    destruct d as [s r [|[|[|[|k]]]] x]; cbn in Hd; try lia; reflexivity.
  - intros d r3 r4 r5 r6 Hd _ _ _ _ _. cbn. split; [lia|done].
  - intros d x Hd E. eexists. cbn. rewrite E. done.
  - intros d r3 r4 r5 r6 x Hd _ _ _ _ _ Hx. cbn. split; [lia|]. intros v n. unfold pio_sector. cbn. case_decide; [by apply fit512_id|done].
  - intros d v Hd. done.
  - intros d v n. apply length_fit512.
Defined.
