(* ===== verification/Mp.v ===== *)
(** * Mp: finding the processors, [mp.c]

    The tables that the BIOS leaves in memory are read at their addresses in the
    kernel's part of the address space.  [mycpu] and [cpuid] of [proc.c] look a
    processor up in what [mpinit] has found. *)

From S2P Require Import Prelude Mmu Phys Hw.

Definition NCPU : nat := 8.

(** Sizes of [struct mp], [struct mpconf], [struct mpproc], [struct mpioapic], and the
    types of entries. *)
Definition sizeof_mp := 16.
Definition sizeof_mpconf := 44.
Definition sizeof_mpproc := 20.
Definition sizeof_mpioapic := 8.
Definition MPPROC := 0.
Definition MPBUS := 1.
Definition MPIOAPIC := 2.
Definition MPIOINTR := 3.
Definition MPLINTR := 4.

Section Tables.
Context (m : memory).
Definition ld16 (a : Z) : Z := ld8 m a + 256 * ld8 m (a + 1).

Fixpoint sum_loop (n : nat) (a s : Z) : Z := match n with O => s | S n' => sum_loop n' (a + 1) (s32 (s + ld8 m a)) end.
Definition sum (addr len : Z) : Z := u8 (sum_loop (Z.to_nat len) addr 0).

Definition SIG_MP : list Z := [95; 77; 80; 95].
Definition SIG_PCMP : list Z := [80; 67; 77; 80].

(** [for(p = addr; p < e; p += sizeof(struct mp))]; 0 when there is none. *)
Fixpoint mpsearch1_loop (n : nat) (p : Z) : Z :=
  match n with
  | O => 0
  | S n' => if bool_decide (ld_bytes m p 4 = SIG_MP) && (sum p sizeof_mp =? 0) then p else mpsearch1_loop n' (p + sizeof_mp)
  end.
Definition mpsearch1 (a len : Z) : Z := mpsearch1_loop (Z.to_nat (len / sizeof_mp)) (P2V a).

Definition mpsearch : Z :=
  let bda := P2V 0x400 in
  let p := Z.shiftl (Z.lor (Z.shiftl (ld8 m (bda + 0x0f)) 8) (ld8 m (bda + 0x0e))) 4 in
  let mp :=
    if nz p then mpsearch1 p 1024
    else mpsearch1 (u32 (Z.lor (Z.shiftl (ld8 m (bda + 0x14)) 8) (ld8 m (bda + 0x13)) * 1024 - 1024)) 1024 in
  if nz mp then mp else mpsearch1 0xf0000 0x10000.

(** The table and the structure that points to it. *)
Definition mpconfig : option (Z * Z) :=
  let mp := mpsearch in
  if (mp =? 0) || (ld32 m (mp + 4) =? 0) then None
  else
    let conf := P2V (ld32 m (mp + 4)) in
    if negb (bool_decide (ld_bytes m conf 4 = SIG_PCMP)) then None
    else if negb (ld8 m (conf + 6) =? 1) && negb (ld8 m (conf + 6) =? 4) then None
    else if negb (sum conf (ld16 (conf + 4)) =? 0) then None
    else Some (conf, mp).
End Tables.

(** ** What is found *)

Record mpst := mkMpst { ncpu : nat; apicids : list Z; ioapicid : Z; lapic : Z }.
Definition add_cpu (id : Z) (s : mpst) : mpst := mkMpst (S (ncpu s)) (<[ncpu s:=id]> (apicids s)) (ioapicid s) (lapic s).
Definition set_ioapicid (id : Z) (s : mpst) : mpst := mkMpst (ncpu s) (apicids s) id (lapic s).
Definition set_lapic (a : Z) (s : mpst) : mpst := mkMpst (ncpu s) (apicids s) (ioapicid s) a.

(** The loop over the entries; the result is [ismp].  The [break] in the case of an
    unknown entry leaves the [switch], not the loop. *)
Fixpoint mpinit_loop (m : memory) (fuel : nat) (p e : Z) (ismp : bool) : M mpst bool :=
  match fuel with
  | O => fail NoFuel
  | S fuel' =>
      if p <? e then
        let ty := ld8 m p in
        if ty =? MPPROC then
          n ← gets ncpu;
          when (n <? NCPU)%nat (modify (add_cpu (ld8 m (p + 1)))) ;;
          mpinit_loop m fuel' (p + sizeof_mpproc) e ismp
        else if ty =? MPIOAPIC then
          modify (set_ioapicid (ld8 m (p + 1))) ;;
          mpinit_loop m fuel' (p + sizeof_mpioapic) e ismp
        else if (ty =? MPBUS) || (ty =? MPIOINTR) || (ty =? MPLINTR) then mpinit_loop m fuel' (p + 8) e ismp
        else mpinit_loop m fuel' p e false
      else mret ismp
  end.

Section Init.
Context {D : Type} `{Machine D}.
Definition on_mp {A} (c : M mpst A) : M (D * mpst) A := λ '(d, s), match c s with Ok a s' => Ok a (d, s') | Err e => Err e end.
Definition on_ports {A} (c : M D A) : M (D * mpst) A := λ '(d, s), match c d with Ok a d' => Ok a (d', s) | Err e => Err e end.

Definition mpinit (m : memory) (fuel : nat) : M (D * mpst) unit :=
  match mpconfig m with
  | None => panic "Expect to run on an SMP"
  | Some (conf, mp) =>
      on_mp (modify (set_lapic (ld32 m (conf + 36)))) ;;
      ismp ← on_mp (mpinit_loop m fuel (conf + sizeof_mpconf) (conf + ld16 m (conf + 4)) true);
      if negb ismp then panic "Didn't find a suitable machine"
      else when (nz (ld8 m (mp + 12)))
        (on_ports (outb 0x22 0x70) ;; v ← on_ports (inb 0x23); on_ports (outb 0x23 (Z.lor v 1)))
  end.
End Init.

(** ** [mycpu] *)

(** [fl] is the interrupt flag, [id] what [lapicid] gives. *)
Definition mycpu (fl : bool) (id : Z) : M mpst nat :=
  if fl then panic "mycpu called with interrupts enabled"
  else
    n ← gets ncpu;
    l ← gets apicids;
    match list_find (λ x, x = id) (take n l) with
    | Some (i, _) => mret i
    | None => panic "unknown apicid"
    end.
Definition cpuid (fl : bool) (id : Z) : M mpst nat := mycpu fl id.

(** ** Which tables are read to their end *)

(** The entries from [p] to [e] are all of known types. *)
Definition entry_size (ty : Z) : option Z :=
  if ty =? MPPROC then Some sizeof_mpproc
  else if ty =? MPIOAPIC then Some sizeof_mpioapic
  else if (ty =? MPBUS) || (ty =? MPIOINTR) || (ty =? MPLINTR) then Some 8
  else None.
Inductive entries (m : memory) (e : Z) : Z → list (Z * Z) → Prop :=
  | entries_end p : e ≤ p → entries m e p []
  | entries_next p n l : p < e → entry_size (ld8 m p) = Some n → entries m e (p + n) l → entries m e p ((ld8 m p, ld8 m (p + 1)) :: l).

(** The processors of a table, and its last input-output controller. *)
Definition procs (l : list (Z * Z)) : list Z := snd <$> filter (λ x, x.1 = MPPROC) l.
Definition last_ioapic (id : Z) (l : list (Z * Z)) : Z := default id (last (snd <$> filter (λ x, x.1 = MPIOAPIC) l)).

Lemma entry_size_pos ty n : entry_size ty = Some n → 8 ≤ n.
Proof. unfold entry_size, sizeof_mpproc, sizeof_mpioapic. repeat case_match; intros [= <-]; lia. Qed.

(** What an entry does. *)
Definition take_entry (x : Z * Z) (s : mpst) : mpst :=
  if x.1 =? MPPROC then (if (ncpu s <? NCPU)%nat then add_cpu x.2 s else s)
  else if x.1 =? MPIOAPIC then set_ioapicid x.2 s
  else s.

Lemma mpinit_loop_entry m fuel p e b s n : p < e → entry_size (ld8 m p) = Some n →
  mpinit_loop m (S fuel) p e b s = mpinit_loop m fuel (p + n) e b (take_entry (ld8 m p, ld8 m (p + 1)) s).
Proof.
  intros Hp Hn. cbn [mpinit_loop]. rewrite (proj2 (Z.ltb_lt _ _)) by done. unfold entry_size in Hn. unfold take_entry. cbn [fst snd].
  destruct (ld8 m p =? MPPROC); [injection Hn as <-; unfold mbind, M_bind, gets; by destruct (ncpu s <? NCPU)%nat|].
  destruct (ld8 m p =? MPIOAPIC); [by injection Hn as <-|].
  destruct ((ld8 m p =? MPBUS) || (ld8 m p =? MPIOINTR) || (ld8 m p =? MPLINTR)); [by injection Hn as <-|done].
Qed.
Lemma mpinit_loop_unknown m p e : p < e → entry_size (ld8 m p) = None → ∀ fuel b s, mpinit_loop m fuel p e b s = Err NoFuel.
Proof.
  intros Hp Hn. induction fuel as [|fuel IH]; intros b s; [done|]. cbn [mpinit_loop]. rewrite (proj2 (Z.ltb_lt _ _)) by done.
  unfold entry_size in Hn. repeat case_match; try done.
Qed.

Lemma mpinit_loop_end m e p l : entries m e p l → ∀ fuel b s, (length l < fuel)%nat → mpinit_loop m fuel p e b s = Ok b (foldl (λ s x, take_entry x s) s l).
Proof.
  induction 1 as [p Hp|p n l Hp Hn He IH]; intros fuel b s Hf; (destruct fuel as [|fuel]; [cbn in Hf; lia|]).
  - cbn [mpinit_loop]. by rewrite (proj2 (Z.ltb_ge _ _)).
  - rewrite (mpinit_loop_entry _ _ _ _ _ _ n) by done. cbn in Hf. rewrite IH by lia. done.
Qed.

(** A table that cannot be read to its end has an unknown entry, and the loop stays
    there. *)
Lemma mpinit_loop_hangs m e k : ∀ p, e - p < Z.of_nat k → (∀ l, ¬ entries m e p l) → ∀ fuel b s, mpinit_loop m fuel p e b s = Err NoFuel.
Proof.
  induction k as [|k IH]; intros p Hk Hno fuel b s.
  { exfalso. apply (Hno []). constructor. lia. }
  destruct (decide (p < e)) as [Hp|Hp]; [|exfalso; apply (Hno []); constructor; lia].
  destruct (entry_size (ld8 m p)) as [n|] eqn:Hn; [|by apply mpinit_loop_unknown].
  destruct fuel as [|fuel]; [done|]. rewrite (mpinit_loop_entry _ _ _ _ _ _ n) by done. pose proof (entry_size_pos _ _ Hn).
  apply IH; [lia|]. intros l Hl. apply (Hno ((ld8 m p, ld8 m (p + 1)) :: l)). by econstructor.
Qed.

(** ** The processors found *)

Definition found (s : mpst) : list Z := take (ncpu s) (apicids s).

Lemma take_entries l : ∀ s, length (apicids s) = NCPU → (ncpu s ≤ NCPU)%nat →
  let s' := foldl (λ s x, take_entry x s) s l in
  found s' = take NCPU (found s ++ procs l) ∧ length (apicids s') = NCPU ∧ (ncpu s' ≤ NCPU)%nat ∧ ioapicid s' = last_ioapic (ioapicid s) l.
Proof.
  induction l as [|[ty id] l IH]; intros s Hl Hn; cbn [foldl].
  { unfold found. change (procs []) with (@nil Z). rewrite app_nil_r, take_take. split_and!; [f_equal; lia|done|done|done]. }
  assert (Hs : found (take_entry (ty, id) s) = take NCPU (found s ++ procs [(ty, id)]) ∧ length (apicids (take_entry (ty, id) s)) = NCPU ∧
    (ncpu (take_entry (ty, id) s) ≤ NCPU)%nat).
  { unfold take_entry, procs, found. cbn [fst snd]. rewrite filter_cons. cbn [fst]. destruct (Z.eqb_spec ty MPPROC) as [->|Hne].
    - rewrite decide_True by done. rewrite filter_nil. change (snd <$> [(MPPROC, id)]) with [id]. destruct (Nat.ltb_spec (ncpu s) NCPU) as [Hlt|Hge].
      + cbn [add_cpu ncpu apicids]. rewrite length_insert. split_and!; [|done|lia].
        rewrite (take_S_r _ _ id) by (apply list_lookup_insert_eq; lia). rewrite take_insert_ge by lia.
        symmetry. apply take_ge. rewrite length_app, length_take. cbn. lia.
      + split_and!; [|done|done]. replace (ncpu s) with NCPU by lia. rewrite take_app_le by (rewrite length_take; lia). by rewrite take_take, Nat.min_id.
    - rewrite decide_False by done. rewrite filter_nil, fmap_nil, app_nil_r. assert (Hf : take NCPU (take (ncpu s) (apicids s)) = take (ncpu s) (apicids s)) by (apply take_ge; rewrite length_take; lia).
      rewrite Hf. by destruct (ty =? MPIOAPIC). }
  destruct Hs as (H1 & H2 & H3). destruct (IH _ H2 H3) as (I1 & I2 & I3 & I4). split_and!; [|done|done|].
  - rewrite I1, H1. assert (Hp : procs ((ty, id) :: l) = procs [(ty, id)] ++ procs l).
    { unfold procs. rewrite <- fmap_app, <- filter_app. done. }
    rewrite Hp, app_assoc. set (k := found s ++ procs [(ty, id)]).
    rewrite (take_app (take NCPU k)), take_take, Nat.min_id, length_take, (take_app k). f_equal. destruct (decide (NCPU ≤ length k)%nat).
    + rewrite Nat.min_l by done. rewrite Nat.sub_diag. replace (NCPU - _)%nat with 0%nat by lia. done.
    + by rewrite Nat.min_r by lia.
  - rewrite I4. unfold take_entry, last_ioapic. cbn [fst snd]. rewrite filter_cons. cbn [fst].
    destruct (Z.eqb_spec ty MPPROC) as [->|Hne].
    + rewrite decide_False by done. by destruct (ncpu s <? NCPU)%nat.
    + destruct (Z.eqb_spec ty MPIOAPIC) as [->|Hne'].
      * rewrite decide_True by done. cbn. by destruct (last (snd <$> filter _ l)) eqn:E; rewrite ?last_cons, ?E.
      * by rewrite decide_False by done.
Qed.

Lemma take_entries_lapic l : ∀ s, lapic (foldl (λ s x, take_entry x s) s l) = lapic s.
Proof.
  induction l as [|[ty id] l IH]; intros s; [done|]. cbn [foldl]. rewrite IH. unfold take_entry. by repeat case_match.
Qed.

(** C40. [mpinit] on the table that the BIOS gives.  When every entry has a known type,
    it ends; the processors are then those of the table in its order, up to [NCPU] of
    them, and the last input-output controller and the address of the local controller
    are those of the table.  When there is an entry of another type it never ends: the
    pointer does not move, however long the loop runs, and the panic that the code has
    for this case is not reached. *)
Theorem mpinit_reads_table `{Machine D} m (d : D) s conf mp :
  mpconfig m = Some (conf, mp) → length (apicids s) = NCPU → (ncpu s ≤ NCPU)%nat →
  let e := conf + ld16 m (conf + 4) in
  (∀ l, entries m e (conf + sizeof_mpconf) l → ∃ d' s',
     (∀ fuel, (length l < fuel)%nat → mpinit m fuel (d, s) = Ok tt (d', s')) ∧
     found s' = take NCPU (found s ++ procs l) ∧ ioapicid s' = last_ioapic (ioapicid s) l ∧ lapic s' = ld32 m (conf + 36)) ∧
  ((∀ l, ¬ entries m e (conf + sizeof_mpconf) l) → ∀ fuel, mpinit m fuel (d, s) = Err NoFuel).
Proof.
  intros Hc Hl Hn e. unfold mpinit. rewrite Hc. set (s1 := set_lapic (ld32 m (conf + 36)) s). split.
  - intros l He. set (s' := foldl (λ s x, take_entry x s) s1 l).
    assert (Hd : ∃ d', when (nz (ld8 m (mp + 12))) (on_ports (outb 0x22 0x70) ;; v ← on_ports (inb 0x23); on_ports (outb 0x23 (Z.lor v 1))) (d, s') = Ok tt (d', s')).
    { destruct (nz (ld8 m (mp + 12))); [|by exists d]. cbn [when]. unfold on_ports, inb, outb, mbind, M_bind, modify.
      destruct (m_inb 35 (m_outb 34 (u8 112) d)) as [v d']. by eexists. }
    destruct Hd as [d' Hd]. exists d', s'. destruct (take_entries l s1 Hl Hn) as (F1 & _ & _ & F4). split_and!; [|done|done|apply take_entries_lapic].
    intros fuel Hf. rewrite (bind_ok _ _ _ tt (d, s1)) by done.
    rewrite (bind_ok _ _ _ true (d, s')); [exact Hd|]. unfold on_mp. by rewrite (mpinit_loop_end m e _ l He).
  - intros Hno fuel. rewrite (bind_ok _ _ _ tt (d, s1)) by done. apply bind_err. unfold on_mp.
    rewrite (mpinit_loop_hangs m e (S (Z.to_nat (e - (conf + sizeof_mpconf))))); [done|lia|done].
Qed.

(** [mycpu] gives the number of the processor that asks. *)
Lemma mycpu_found s i id : NoDup (found s) → found s !! i = Some id → mycpu false id s = Ok i s.
Proof.
  intros Hd Hi. unfold mycpu, mbind, M_bind, gets. fold (found s). rewrite <- (take_drop_middle _ _ _ Hi).
  rewrite list_find_middle; [rewrite length_take_le; [done|]; apply lookup_lt_Some in Hi; lia|done|].
  intros y Hy ->. apply list_elem_of_lookup in Hy as [j Hj]. pose proof (lookup_lt_Some _ _ _ Hj) as Hlt. rewrite length_take in Hlt.
  rewrite lookup_take_lt in Hj by lia. pose proof (NoDup_lookup _ _ _ _ Hd Hi Hj). lia.
Qed.

(** ** A table with two processors *)

Definition demo_mp : list Z := SIG_MP ++ [0; 32; 0; 0; 1; 4; 128; 0; 0; 0; 0; 0].
Definition demo_conf (ty : Z) : list Z :=
  SIG_PCMP ++ [92; 0; 4; 142 - ty] ++ replicate 20 0 ++ replicate 8 0 ++ [0; 0; 0xe0; 0xfe] ++ replicate 4 0 ++
  ([0; 0] ++ replicate 18 0) ++ ([0; 1] ++ replicate 18 0) ++ [ty; 3; 0; 0; 0; 0; 0; 0].
Definition demo_bios (ty : Z) : memory := st_bytes (st_bytes (λ _, 0) (P2V 0xf0000) demo_mp) (P2V 0x2000) (demo_conf ty).
Definition demo_mpst : mpst := mkMpst 0 (replicate NCPU 0) 0 0.

Lemma demo_mpconfig ty : ty = 2 ∨ ty = 9 → mpconfig (demo_bios ty) = Some (P2V 0x2000, P2V 0xf0000) ∧ ld16 (demo_bios ty) (P2V 0x2000 + 4) = 92.
Proof. intros [-> | ->]; vm_compute; done. Qed.
Lemma demo_entries : entries (demo_bios 2) (P2V 0x2000 + 92) (P2V 0x2000 + 44) [(0, 0); (0, 1); (2, 3)].
Proof.
  refine (entries_next _ _ _ 20 [(0, 1); (2, 3)] _ _ _); [done|done|].
  refine (entries_next _ _ _ 20 [(2, 3)] _ _ _); [done|done|].
  refine (entries_next _ _ _ 8 [] _ _ _); [done|done|]. by constructor.
Qed.

Lemma mpinit_reads_table_witness :
  ∃ d' s', mpinit (demo_bios 2) 4 (mkPio (λ _ _, []) (λ _, 0) 0 None, demo_mpst) = Ok tt (d', s') ∧ found s' = [0; 1] ∧ ioapicid s' = 3 ∧ lapic s' = 0xfee00000.
Proof.
  destruct (demo_mpconfig 2) as [H1 H2]; [by left|].
  destruct (mpinit_reads_table (demo_bios 2) (mkPio (λ _ _, []) (λ _, 0) 0 None) demo_mpst _ _ H1 eq_refl) as [Hgo _]; [unfold NCPU; cbn; lia|].
  rewrite H2 in Hgo. destruct (Hgo _ demo_entries) as (d' & s' & E & F1 & F2 & F3). exists d', s'. split; [apply E; cbn; lia|].
  rewrite F1, F2, F3. split_and!; reflexivity.
Defined.

(** The same table with an entry of type 9 in the place of the controller. *)
Lemma demo_unknown_entry fuel : mpinit_loop (demo_bios 9) fuel (P2V 0x2000 + 44) (P2V 0x2000 + 92) true demo_mpst = Err NoFuel.
Proof.
  destruct fuel as [|[|fuel]]; [done|vm_compute; done|].
  rewrite (mpinit_loop_entry _ _ _ _ _ _ 20) by (vm_compute; done). rewrite (mpinit_loop_entry _ _ _ _ _ _ 20) by (vm_compute; done).
  apply mpinit_loop_unknown; vm_compute; done.
Qed.
