(* ===== verification/Lapic.v ===== *)
(** * Lapic: interrupt controllers, the clock and the serial port

    [lapic.c], [ioapic.c], [picirq.c] and [uart.c] over the ports and registers of [Hw].
    A controller's registers are at their physical addresses, which the kernel's
    page table maps to themselves. *)

From S2P Require Import Prelude Mmu Phys Hw.

Section Dev.
Context {D : Type} `{Machine D}.

(** ** [lapic.c] *)

(** Indices of registers. *)
Definition ID := 0x20 / 4.
Definition VER := 0x30 / 4.
Definition TPR := 0x80 / 4.
Definition EOI := 0xb0 / 4.
Definition SVR := 0xf0 / 4.
Definition ESR := 0x280 / 4.
Definition ICRLO := 0x300 / 4.
Definition ICRHI := 0x310 / 4.
Definition TIMER := 0x320 / 4.
Definition PCINT := 0x340 / 4.
Definition LINT0 := 0x350 / 4.
Definition LINT1 := 0x360 / 4.
Definition ERROR := 0x370 / 4.
Definition TICR := 0x380 / 4.
Definition TDCR := 0x3e0 / 4.
Definition ENABLE := 0x100.
Definition INIT := 0x500.
Definition STARTUP := 0x600.
Definition DELIVS := 0x1000.
Definition ASSERT := 0x4000.
Definition LEVEL := 0x8000.
Definition BCAST := 0x80000.
Definition X1 := 0xb.
Definition PERIODIC := 0x20000.
Definition MASKED := 0x10000.

Section Local.
(** The address of the registers, 0 before [mpinit]. *)
Context (lapic : Z).

Definition lapic_read (index : Z) : M D Z := mmio_read (lapic + 4 * index).
Definition lapicw (index value : Z) : M D unit := mmio_write (lapic + 4 * index) value ;; lapic_read ID ;; mret tt.

(** [while(lapic[ICRLO] & DELIVS)] *)
Fixpoint wait_delivery (fuel : nat) : M D unit :=
  match fuel with
  | O => fail NoFuel
  | S fuel' => v ← lapic_read ICRLO; if nz (Z.land v DELIVS) then wait_delivery fuel' else mret tt
  end.

Definition lapicinit (fuel : nat) : M D unit :=
  if lapic =? 0 then mret tt
  else
    lapicw SVR (Z.lor ENABLE (T_IRQ0 + IRQ_SPURIOUS)) ;;
    lapicw TDCR X1 ;;
    lapicw TIMER (Z.lor PERIODIC (T_IRQ0 + IRQ_TIMER)) ;;
    lapicw TICR 10000000 ;;
    lapicw LINT0 MASKED ;;
    lapicw LINT1 MASKED ;;
    v ← lapic_read VER;
    when (4 <=? Z.land (Z.shiftr v 16) 0xff) (lapicw PCINT MASKED) ;;
    lapicw ERROR (T_IRQ0 + IRQ_ERROR) ;;
    lapicw ESR 0 ;;
    lapicw ESR 0 ;;
    lapicw EOI 0 ;;
    lapicw ICRHI 0 ;;
    lapicw ICRLO (Z.lor (Z.lor BCAST INIT) LEVEL) ;;
    wait_delivery fuel ;;
    lapicw TPR 0.

Definition lapicid : M D Z :=
  if lapic =? 0 then mret 0 else v ← lapic_read ID; mret (Z.shiftr v 24).

Definition lapiceoi : M D unit := when (negb (lapic =? 0)) (lapicw EOI 0).

(** The warm reset vector is in memory; the result has the new memory.  [microdelay]
    does nothing. *)
Definition lapicstartap (m : memory) (apicid addr : Z) : M D memory :=
  outb 0x70 0xf ;;
  outb 0x71 0xa ;;
  let wrv := P2V (Z.lor (Z.shiftl 0x40 4) 0x67) in
  let m := st8 (st8 m wrv 0) (wrv + 1) 0 in
  let seg := Z.shiftr addr 4 in
  let m := st8 (st8 m (wrv + 2) seg) (wrv + 3) (seg / 256) in
  lapicw ICRHI (Z.shiftl apicid 24) ;;
  lapicw ICRLO (Z.lor (Z.lor INIT LEVEL) ASSERT) ;;
  lapicw ICRLO (Z.lor INIT LEVEL) ;;
  forM [0; 1] (λ _, lapicw ICRHI (Z.shiftl apicid 24) ;; lapicw ICRLO (Z.lor STARTUP (Z.shiftr addr 12))) ;;
  mret m.
End Local.

(** *** The clock *)

Record rtcdate := mkDate { second : Z; minute : Z; hour : Z; day : Z; month : Z; year : Z }.
#[global] Instance rtcdate_eq_dec : EqDecision rtcdate.
Proof. solve_decision. Defined.

Definition cmos_read (reg : Z) : M D Z := outb 0x70 reg ;; inb 0x71.

Definition fill_rtcdate : M D rtcdate :=
  s ← cmos_read 0;
  mi ← cmos_read 2;
  h ← cmos_read 4;
  d ← cmos_read 7;
  mo ← cmos_read 8;
  y ← cmos_read 9;
  mret (mkDate s mi h d mo y).

(** [for(;;)]: two readings that agree. *)
Fixpoint read_twice (fuel : nat) : M D rtcdate :=
  match fuel with
  | O => fail NoFuel
  | S fuel' =>
      t1 ← fill_rtcdate;
      a ← cmos_read 0xa;
      if nz (Z.land a 0x80) then read_twice fuel'
      else
        t2 ← fill_rtcdate;
        if bool_decide (t1 = t2) then mret t1 else read_twice fuel'
  end.

Definition CONV (x : Z) : Z := u32 (Z.shiftr x 4 * 10 + Z.land x 0xf).

Definition cmostime (fuel : nat) : M D rtcdate :=
  sb ← cmos_read 0xb;
  let bcd := Z.land sb 4 =? 0 in
  t1 ← read_twice fuel;
  let t1 := if bcd then mkDate (CONV (second t1)) (CONV (minute t1)) (CONV (hour t1)) (CONV (day t1)) (CONV (month t1)) (CONV (year t1)) else t1 in
  mret (mkDate (second t1) (minute t1) (hour t1) (day t1) (month t1) (year t1 + 2000)).

(** ** [ioapic.c] *)

Definition IOAPIC := 0xfec00000.
Definition REG_ID := 0.
Definition REG_VER := 1.
Definition REG_TABLE := 0x10.
Definition INT_DISABLED := 0x10000.

Definition ioapicread (reg : Z) : M D Z := mmio_write IOAPIC reg ;; mmio_read (IOAPIC + 16).
Definition ioapicwrite (reg data : Z) : M D unit := mmio_write IOAPIC reg ;; mmio_write (IOAPIC + 16) data.

Definition ioapicinit : M D unit :=
  v ← ioapicread REG_VER;
  let maxintr := Z.land (Z.shiftr v 16) 0xff in
  ioapicread REG_ID ;;
  forM (seqZ 0 (maxintr + 1)) (λ i,
    ioapicwrite (REG_TABLE + 2 * i) (Z.lor INT_DISABLED (T_IRQ0 + i)) ;;
    ioapicwrite (REG_TABLE + 2 * i + 1) 0).

Definition ioapicenable (irq cpunum : Z) : M D unit :=
  ioapicwrite (REG_TABLE + 2 * irq) (T_IRQ0 + irq) ;;
  ioapicwrite (REG_TABLE + 2 * irq + 1) (Z.shiftl cpunum 24).

(** ** [picirq.c] *)

Definition picinit : M D unit := outb 0x21 0xff ;; outb 0xa1 0xff.
End Dev.

(** ** The input-output controller routes what is enabled *)

(** The selected register and the registers. *)
Record ioa := mkIoa { io_sel : Z; io_tab : Z → Z }.
#[export] Instance ioa_machine : Machine ioa := {
  m_inb := λ _ d, (0, d);
  m_outb := λ _ _ d, d;
  m_insl := λ _ _ d, ([], d);
  m_outsl := λ _ _ d, d;
  m_rd := λ a d, (if a =? IOAPIC + 16 then io_tab d (io_sel d) else 0, d);
  m_wr := λ a v d,
    if a =? IOAPIC then mkIoa v (io_tab d)
    else if a =? IOAPIC + 16 then mkIoa (io_sel d) (λ r, if r =? io_sel d then v else io_tab d r)
    else d
}.

(** An entry of the redirection table: its two registers. *)
Definition entry (d : ioa) (irq : Z) : Z * Z := (io_tab d (REG_TABLE + 2 * irq), io_tab d (REG_TABLE + 2 * irq + 1)).

Lemma ioapicwrite_run reg v d : is_u32 reg → is_u32 v → ioapicwrite reg v d = Ok tt (mkIoa reg (λ r, if r =? reg then v else io_tab d r)).
Proof. intros Hr Hv. unfold ioapicwrite, mmio_write, mbind, M_bind, modify. cbn. by rewrite !u32_small. Qed.

Lemma write_entry irq lo hi d : 0 ≤ irq < 256 → is_u32 lo → is_u32 hi →
  ∃ d', (ioapicwrite (REG_TABLE + 2 * irq) lo ;; ioapicwrite (REG_TABLE + 2 * irq + 1) hi) d = Ok tt d' ∧
    entry d' irq = (lo, hi) ∧ (∀ j, j ≠ irq → entry d' j = entry d j) ∧ (∀ r, r < REG_TABLE → io_tab d' r = io_tab d r).
Proof.
  intros Hi Hl Hh. assert (Hr : is_u32 (REG_TABLE + 2 * irq) ∧ is_u32 (REG_TABLE + 2 * irq + 1)) by (unfold is_u32, REG_TABLE; lia). destruct Hr as [R1 R2].
  eexists. rewrite (bind_ok _ _ _ _ _ (ioapicwrite_run _ _ _ R1 Hl)). split; [by apply ioapicwrite_run|]. unfold entry, REG_TABLE. cbn [io_tab]. split_and!.
  - rewrite (proj2 (Z.eqb_neq _ _)), !Z.eqb_refl by lia. done.
  - intros j Hj. by rewrite !(proj2 (Z.eqb_neq _ _)) by lia.
  - intros r Hr. by rewrite !(proj2 (Z.eqb_neq _ _)) by lia.
Qed.

Definition masked (irq : Z) : Z * Z := (Z.lor INT_DISABLED (T_IRQ0 + irq), 0).

Lemma init_entries n : ∀ a d, 0 ≤ a → a + Z.of_nat n ≤ 256 →
  ∃ d', forM (seqZ a (Z.of_nat n)) (λ i, ioapicwrite (REG_TABLE + 2 * i) (Z.lor INT_DISABLED (T_IRQ0 + i)) ;; ioapicwrite (REG_TABLE + 2 * i + 1) 0) d = Ok tt d' ∧
    ∀ j, entry d' j = if decide (a ≤ j < a + Z.of_nat n) then masked j else entry d j.
Proof.
  induction n as [|n IH]; intros a d Ha Hn.
  - exists d. split; [done|]. intros j. case_decide; [lia|done].
  - rewrite seqZ_cons by lia. cbn [forM].
    destruct (write_entry a (Z.lor INT_DISABLED (T_IRQ0 + a)) 0 d) as (d1 & E1 & H1 & H2 & _); [lia|apply is_u32_lor; unfold is_u32, INT_DISABLED, T_IRQ0; lia|done|].
    rewrite (bind_ok _ _ _ _ _ E1). replace (Z.pred (Z.of_nat (S n))) with (Z.of_nat n) by lia.
    destruct (IH (Z.succ a) d1) as (d2 & E2 & H3); [lia|lia|]. exists d2. split; [done|]. intros j. rewrite H3.
    repeat case_decide; try lia; try done; [|by apply H2; lia]. replace j with a by lia. by rewrite H1.
Qed.

(** After [ioapicinit] no interrupt is routed anywhere; [ioapicenable] routes its
    interrupt, as the vector that the trap table expects, to one processor and leaves
    the others alone. *)
Theorem ioapic_routes d maxintr irq cpu :
  io_tab d REG_VER = Z.shiftl maxintr 16 → 0 ≤ maxintr < 240 → 0 ≤ irq ≤ maxintr → 0 ≤ cpu < 256 →
  ∃ d1 d2, ioapicinit d = Ok tt d1 ∧ (∀ j, 0 ≤ j ≤ maxintr → entry d1 j = masked j) ∧
    ioapicenable irq cpu d1 = Ok tt d2 ∧ entry d2 irq = (T_IRQ0 + irq, Z.shiftl cpu 24) ∧ ∀ j, j ≠ irq → entry d2 j = entry d1 j.
Proof.
  intros Hv Hm Hi Hc. assert (Hmax : Z.land (Z.shiftr (u32 (io_tab d REG_VER)) 16) 0xff = maxintr).
  { rewrite Hv. rewrite u32_small by (unfold is_u32; rewrite Z.shiftl_mul_pow2 by lia; lia). rewrite Z.shiftr_shiftl_l by lia.
    cbn [Z.sub Z.add Z.opp Z.pos_sub]. rewrite Z.shiftl_0_r. change 0xff with (Z.ones 8). rewrite Z.land_ones by lia. apply Z.mod_small. lia. }
  unfold ioapicinit. rewrite (bind_ok _ _ _ (u32 (io_tab d REG_VER)) (mkIoa REG_VER (io_tab d))) by done. cbv zeta. rewrite Hmax.
  rewrite (bind_ok _ _ _ (u32 (io_tab d REG_ID)) (mkIoa REG_ID (io_tab d))) by done.
  destruct (init_entries (Z.to_nat (maxintr + 1)) 0 (mkIoa REG_ID (io_tab d))) as (d1 & E1 & H1); [lia|lia|].
  rewrite Z2Nat.id in E1, H1 by lia. unfold ioapicenable.
  destruct (write_entry irq (T_IRQ0 + irq) (Z.shiftl cpu 24) d1) as (d2 & E2 & H2 & H3 & _);
    [lia|unfold is_u32, T_IRQ0; lia|unfold is_u32; rewrite Z.shiftl_mul_pow2 by lia; lia|].
  exists d1, d2. split; [done|]. split; [|done]. intros j Hj. rewrite H1. by rewrite decide_True by lia.
Qed.

(** ** The clock *)

Lemma CONV_bcd v : 0 ≤ v < 100 → CONV (v / 10 * 16 + v mod 10) = v.
Proof.
  intros Hv. assert (Hall : forallb (λ k, let v := Z.of_nat k in CONV (v / 10 * 16 + v mod 10) =? v) (seq 0 100) = true) by reflexivity.
  rewrite forallb_forall in Hall. specialize (Hall (Z.to_nat v)). rewrite Z2Nat.id in Hall by lia. apply Z.eqb_eq, Hall, in_seq. lia.
Qed.

(** A clock: its mode, what it shows and whether it is being updated at each read. *)
Record clock := mkClock { ck_bcd : bool; ck_time : nat → rtcdate; ck_uip : nat → bool; ck_sel : Z; ck_now : nat }.
Definition ck_enc (d : clock) (v : Z) : Z := if ck_bcd d then v / 10 * 16 + v mod 10 else v.
Definition ck_value (d : clock) : Z :=
  let t := ck_time d (ck_now d) in
  let r := ck_sel d in
  if r =? 0 then ck_enc d (second t) else if r =? 2 then ck_enc d (minute t) else if r =? 4 then ck_enc d (hour t)
  else if r =? 7 then ck_enc d (day t) else if r =? 8 then ck_enc d (month t) else if r =? 9 then ck_enc d (year t)
  else if r =? 0xa then (if ck_uip d (ck_now d) then 0x80 else 0)
  else if r =? 0xb then (if ck_bcd d then 0 else 4)
  else 0.
#[export] Instance clock_machine : Machine clock := {
  m_inb := λ p d, (ck_value d, mkClock (ck_bcd d) (ck_time d) (ck_uip d) (ck_sel d) (S (ck_now d)));
  m_outb := λ p v d, if p =? 0x70 then mkClock (ck_bcd d) (ck_time d) (ck_uip d) v (ck_now d) else d;
  m_insl := λ _ _ d, ([], d);
  m_outsl := λ _ _ d, d;
  m_rd := λ _ d, (0, d);
  m_wr := λ _ _ d, d
}.

Section Clock.
Context (bcd : bool) (T : nat → rtcdate) (uip : nat → bool).
Notation dev := (mkClock bcd T uip).
Notation enc := (λ v : Z, if bcd then v / 10 * 16 + v mod 10 else v).

(** Fields of two digits; and the clock does not tick so fast that it shows the same
    second again within eight reads. *)
Definition two_digits (t : rtcdate) : Prop :=
  0 ≤ second t < 100 ∧ 0 ≤ minute t < 100 ∧ 0 ≤ hour t < 100 ∧ 0 ≤ day t < 100 ∧ 0 ≤ month t < 100 ∧ 0 ≤ year t < 100.
Hypothesis Hdigits : ∀ k, two_digits (T k).
Hypothesis Hslow : ∀ i j l, (i ≤ l ≤ j)%nat → (j ≤ i + 7)%nat → second (T i) = second (T j) → T l = T i.

Definition enc_date (t : rtcdate) : rtcdate := mkDate (enc (second t)) (enc (minute t)) (enc (hour t)) (enc (day t)) (enc (month t)) (enc (year t)).

Lemma enc_u8 v : 0 ≤ v < 100 → u8 (enc v) = enc v.
Proof using. clear Hdigits Hslow. intros Hv. unfold u8. destruct bcd; apply Z.mod_small; dlia. Qed.
Lemma enc_inj v w : 0 ≤ v < 100 → 0 ≤ w < 100 → enc v = enc w → v = w.
Proof using. clear Hdigits Hslow. destruct bcd; dlia. Qed.

Lemma cmos_read_run reg s k : is_u8 reg → cmos_read reg (dev s k) = Ok (u8 (ck_value (dev reg k))) (dev reg (S k)).
Proof using.
  clear Hdigits Hslow. intros Hr. assert (Er : u8 reg = reg) by (unfold u8; by apply Z.mod_small).
  unfold cmos_read, inb, outb, mbind, M_bind, modify. cbn. by rewrite Er.
Qed.
Lemma read_status s k : cmos_read 0xa (dev s k) = Ok (if uip k then 0x80 else 0) (dev 0xa (S k)).
Proof using. clear Hdigits Hslow. rewrite cmos_read_run by (unfold is_u8; lia). unfold ck_value. cbn. by destruct (uip k). Qed.
Lemma read_mode s k : cmos_read 0xb (dev s k) = Ok (if bcd then 0 else 4) (dev 0xb (S k)).
Proof using. clear Hdigits Hslow. rewrite cmos_read_run by (unfold is_u8; lia). unfold ck_value. cbn. by destruct bcd. Qed.

Lemma fill_run s k : fill_rtcdate (dev s k) =
  Ok (mkDate (enc (second (T k))) (enc (minute (T (k + 1)%nat))) (enc (hour (T (k + 2)%nat))) (enc (day (T (k + 3)%nat)))
        (enc (month (T (k + 4)%nat))) (enc (year (T (k + 5)%nat)))) (dev 9 (k + 6)).
Proof using Hdigits.
  clear Hslow. assert (H0 := Hdigits k). assert (H1 := Hdigits (k + 1)). assert (H2 := Hdigits (k + 2)). assert (H3 := Hdigits (k + 3)).
  assert (H4 := Hdigits (k + 4)). assert (H5 := Hdigits (k + 5)).
  assert (E : fill_rtcdate (dev s k) = Ok (mkDate (u8 (enc (second (T k)))) (u8 (enc (minute (T (S k))))) (u8 (enc (hour (T (S (S k))))))
    (u8 (enc (day (T (S (S (S k))))))) (u8 (enc (month (T (S (S (S (S k)))))))) (u8 (enc (year (T (S (S (S (S (S k)))))))))) (dev 9 (S (S (S (S (S (S k)))))))) by reflexivity.
  rewrite E. assert (N1 : (k + 1 = S k)%nat) by lia. assert (N2 : (k + 2 = S (S k))%nat) by lia. assert (N3 : (k + 3 = S (S (S k)))%nat) by lia.
  assert (N4 : (k + 4 = S (S (S (S k))))%nat) by lia. assert (N5 : (k + 5 = S (S (S (S (S k)))))%nat) by lia. assert (N6 : (k + 6 = S (S (S (S (S (S k))))))%nat) by lia.
  rewrite N1, N2, N3, N4, N5, N6 in *. f_equal. f_equal; apply enc_u8; (apply H0 || apply H1 || apply H2 || apply H3 || apply H4 || apply H5).
Qed.

(** One round. *)
Lemma read_twice_round fuel s k :
  let t1 := mkDate (enc (second (T k))) (enc (minute (T (k + 1)%nat))) (enc (hour (T (k + 2)%nat))) (enc (day (T (k + 3)%nat)))
    (enc (month (T (k + 4)%nat))) (enc (year (T (k + 5)%nat))) in
  let k' := (k + 7)%nat in
  let t2 := mkDate (enc (second (T k'))) (enc (minute (T (k' + 1)%nat))) (enc (hour (T (k' + 2)%nat))) (enc (day (T (k' + 3)%nat)))
    (enc (month (T (k' + 4)%nat))) (enc (year (T (k' + 5)%nat))) in
  read_twice (S fuel) (dev s k) =
    if uip (k + 6)%nat then read_twice fuel (dev 0xa k')
    else if bool_decide (t1 = t2) then Ok t1 (dev 9 (k' + 6)) else read_twice fuel (dev 9 (k' + 6)).
Proof using Hdigits.
  clear Hslow. intros t1 k' t2. cbn [read_twice]. rewrite (bind_ok _ _ _ _ _ (fill_run s k)). fold t1.
  rewrite (bind_ok _ _ _ _ _ (read_status _ _)), <- Nat.add_succ_r. fold k'. destruct (uip (k + 6)%nat); [done|]. cbv iota.
  change (nz (Z.land 0 0x80)) with false. cbv iota. rewrite (bind_ok _ _ _ _ _ (fill_run 0xa k')). fold t2. by destruct (bool_decide (t1 = t2)).
Qed.

Lemma read_twice_shows fuel : ∀ s k t d', read_twice fuel (dev s k) = Ok t d' → ∃ j, (k ≤ j)%nat ∧ t = enc_date (T j).
Proof using Hdigits Hslow.
  induction fuel as [|fuel IH]; intros s k t d' E; [done|]. rewrite read_twice_round in E.
  destruct (uip (k + 6)%nat); [destruct (IH _ _ _ _ E) as (j & Hj & Et); exists j; split; [lia|done]|].
  case_bool_decide as Eb; [|destruct (IH _ _ _ _ E) as (j & Hj & Et); exists j; split; [lia|done]].
  injection E as <- _. exists k. split; [lia|].
  assert (Es : second (T k) = second (T (k + 7)%nat)).
  { apply enc_inj; [apply Hdigits|apply Hdigits|]. exact (f_equal second Eb). }
  assert (Hl : ∀ l, (k ≤ l ≤ k + 7)%nat → T l = T k) by (intros l Hl; apply (Hslow k (k + 7) l); lia || done).
  unfold enc_date. rewrite (Hl (k + 1)%nat), (Hl (k + 2)%nat), (Hl (k + 3)%nat), (Hl (k + 4)%nat), (Hl (k + 5)%nat) by lia. done.
Qed.

(** [cmostime] gives a time that the clock has shown while it ran, whatever its mode
    and whenever it ticks. *)
Theorem cmostime_shows fuel s k t d' :
  cmostime fuel (dev s k) = Ok t d' → ∃ j, (k ≤ j)%nat ∧
    t = mkDate (second (T j)) (minute (T j)) (hour (T j)) (day (T j)) (month (T j)) (year (T j) + 2000).
Proof using Hdigits Hslow.
  unfold cmostime. rewrite (bind_ok _ _ _ _ _ (read_mode _ _)). intros (t1 & d1 & E1 & E2)%bind_inv. destruct (read_twice_shows _ _ _ _ _ E1) as (j & Hj & ->).
  exists j. split; [lia|]. destruct (Hdigits j) as (D1 & D2 & D3 & D4 & D5 & D6). injection E2 as <- _. unfold enc_date. destruct bcd; cbn.
  - by rewrite !CONV_bcd.
  - done.
Qed.

(** It returns as soon as two readings meet no tick and no update. *)
Lemma cmostime_returns s k : (∀ l, (k < l ≤ k + 13)%nat → T l = T (S k)) → uip (k + 7)%nat = false → ∃ t d', cmostime 1 (dev s k) = Ok t d'.
Proof using Hdigits.
  clear Hslow. intros Hl Hu. unfold cmostime. rewrite (bind_ok _ _ _ _ _ (read_mode _ _)).
  assert (E : ∃ t d', read_twice 1 (dev 0xb (S k)) = Ok t d').
  { rewrite read_twice_round. assert (N : (S k + 6 = k + 7)%nat) by lia. rewrite N, Hu. rewrite bool_decide_true; [by eexists _, _|].
    rewrite (Hl (S k + 1)%nat), (Hl (S k + 2)%nat), (Hl (S k + 3)%nat), (Hl (S k + 4)%nat), (Hl (S k + 5)%nat), (Hl (S k + 7)%nat) by lia.
    rewrite (Hl (S k + 7 + 1)%nat), (Hl (S k + 7 + 2)%nat), (Hl (S k + 7 + 3)%nat), (Hl (S k + 7 + 4)%nat), (Hl (S k + 7 + 5)%nat) by lia. done. }
  destruct E as (t & d' & E). rewrite (bind_ok _ _ _ _ _ E). by eexists _, _.
Qed.
End Clock.

(** ** The serial port, [uart.c]

    The argument [uart] says whether there is a port at all. *)

Definition COM1 := 0x3f8.

Section Uart.
Context {D : Type} `{Machine D}.

(** [for(i = 0; i < 128 && !(inb(COM1+5) & 0x20); i++)]; what [microdelay] does is empty. *)
Fixpoint uart_ready (n : nat) : M D unit :=
  match n with
  | O => mret tt
  | S n' => s ← inb (COM1 + 5); if nz (Z.land s 0x20) then mret tt else uart_ready n'
  end.
Definition uartputc (uart : bool) (c : Z) : M D unit :=
  if negb uart then mret tt else uart_ready 128 ;; outb (COM1 + 0) c.

Definition uartgetc (uart : bool) : M D Z :=
  if negb uart then mret (-1)
  else
    s ← inb (COM1 + 5);
    if negb (nz (Z.land s 1)) then mret (-1) else inb (COM1 + 0).

(** The new value of [uart]. *)
Definition uartinit : M D bool :=
  outb (COM1 + 2) 0 ;;
  outb (COM1 + 3) 0x80 ;;
  outb (COM1 + 0) (115200 / 9600) ;;
  outb (COM1 + 1) 0 ;;
  outb (COM1 + 3) 0x03 ;;
  outb (COM1 + 4) 0 ;;
  outb (COM1 + 1) 0x01 ;;
  s ← inb (COM1 + 5);
  if s =? 0xff then mret false
  else
    inb (COM1 + 2) ;;
    inb (COM1 + 0) ;;
    ioapicenable IRQ_COM1 0 ;;
    forM (bytes_of_string "xv6..." ++ [10]) (uartputc true) ;;
    mret true.
End Uart.



Section Facts.
Context {D : Type} `{Machine D}.

(** The machine after [n] looks at the status. *)
Fixpoint after_looks (n : nat) (d : D) : D :=
  match n with O => d | S n' => after_looks n' (snd (m_inb (COM1 + 5) d)) end.
Definition transmitter_empty (d : D) : Prop := Z.land (u8 (fst (m_inb (COM1 + 5) d))) 0x20 ≠ 0.

Lemma uart_ready_ends n d : ∃ k, (k ≤ n)%nat ∧ uart_ready n d = Ok tt (after_looks k d) ∧
  ∀ j, (S j < k)%nat → ¬ transmitter_empty (after_looks j d).
Proof.
  revert d. induction n as [|n IH]; intros d; [by exists 0%nat; split_and!; [lia|done|lia]|].
  cbn [uart_ready]. destruct (m_inb (COM1 + 5) d) as [v d'] eqn:E.
  rewrite (bind_ok _ _ _ (u8 v) d') by (unfold inb; by rewrite E).
  destruct (nz (Z.land (u8 v) 0x20)) eqn:Ez.
  { exists 1%nat. cbn. rewrite E. split_and!; [lia|done|lia]. }
  destruct (IH d') as (k & Hk & E1 & Hj). exists (S k). cbn [after_looks]. rewrite E. split_and!; [lia|done|].
  intros [|j] Hlt; cbn [after_looks].
  - unfold transmitter_empty. rewrite E. cbn [fst]. unfold nz in Ez. intros Hne. apply Hne.
    by apply negb_false_iff, Z.eqb_eq in Ez.
  - rewrite E. apply Hj. lia.
Qed.

(** A byte is sent whatever the port does: after at most 128 looks at the status, none
    of them but the last one with an empty transmitter. *)
Theorem uartputc_sends c d : ∃ k, (k ≤ 128)%nat ∧
  uartputc true c d = Ok tt (m_outb COM1 (u8 c) (after_looks k d)) ∧
  ∀ j, (S j < k)%nat → ¬ transmitter_empty (after_looks j d).
Proof.
  destruct (uart_ready_ends 128 d) as (k & Hk & E & Hj). exists k. split; [done|]. split; [|done].
  unfold uartputc. cbn [negb]. by rewrite (bind_ok _ _ _ _ _ E).
Qed.
End Facts.
