(* ===== verification/CString.v ===== *)
(** * CString: the memory and string routines of the kernel, [string.c]

    The routines run on the flat memory of [Phys]; a pointer is an address and
    pointer arithmetic stays inside one object, so it does not wrap.  [memmove]
    and [memset] are shown equal to the one-step [copy] and [fill] that the
    model of the kernel uses in their place. *)

From S2P Require Import Prelude Mmu Phys.

(** ** Definitions *)

(** [rep stosb] and [rep stosl] of [x86.h]. *)
Fixpoint stosb (m : memory) (addr data : Z) (cnt : nat) : memory :=
  match cnt with
  | O => m
  | S cnt' => stosb (st8 m addr data) (addr + 1) data cnt'
  end.

Fixpoint stosl (m : memory) (addr data : Z) (cnt : nat) : memory :=
  match cnt with
  | O => m
  | S cnt' => stosl (st32 m addr data) (addr + 4) data cnt'
  end.

Definition memset (m : memory) (dst c n : Z) : memory :=
  if (Z.rem (s32 dst) 4 =? 0) && (n mod 4 =? 0) then
    let c := Z.land c 0xFF in
    stosl m dst (u32 (Z.lor (Z.lor (Z.lor (Z.shiftl c 24) (Z.shiftl c 16)) (Z.shiftl c 8)) c))
      (Z.to_nat (n / 4))
  else stosb m dst c (Z.to_nat n).

Fixpoint memcmp (m : memory) (s1 s2 : Z) (n : nat) : Z :=
  match n with
  | O => 0
  | S n' =>
      if negb (ld8 m s1 =? ld8 m s2) then ld8 m s1 - ld8 m s2
      else memcmp m (s1 + 1) (s2 + 1) n'
  end.

(** [while(n-- > 0) *--d = *--s;] and [while(n-- > 0) *d++ = *s++;] *)
Fixpoint copy_down (m : memory) (d s : Z) (n : nat) : memory :=
  match n with
  | O => m
  | S n' => copy_down (st8 m (d - 1) (ld8 m (s - 1))) (d - 1) (s - 1) n'
  end.

Fixpoint copy_up (m : memory) (d s : Z) (n : nat) : memory :=
  match n with
  | O => m
  | S n' => copy_up (st8 m d (ld8 m s)) (d + 1) (s + 1) n'
  end.

Definition memmove (m : memory) (dst src n : Z) : memory :=
  if (src <? dst) && (dst <? src + n) then copy_down m (dst + n) (src + n) (Z.to_nat n)
  else copy_up m dst src (Z.to_nat n).

Definition memcpy (m : memory) (dst src n : Z) : memory := memmove m dst src n.

Fixpoint strncmp (m : memory) (p q : Z) (n : nat) : Z :=
  match n with
  | O => 0
  | S n' =>
      if nz (ld8 m p) && (ld8 m p =? ld8 m q) then strncmp m (p + 1) (q + 1) n'
      else ld8 m p - ld8 m q
  end.

(** [while(n-- > 0) *s++ = 0;] *)
Fixpoint zero_up (m : memory) (s : Z) (n : nat) : memory :=
  match n with
  | O => m
  | S n' => zero_up (st8 m s 0) (s + 1) n'
  end.

(** The first loop; when it ends on a NUL the second loop runs with the
    remaining [n]. *)
Fixpoint strncpy_loop (m : memory) (s t : Z) (n : nat) : memory :=
  match n with
  | O => m
  | S n' =>
      let b := ld8 m t in
      let m' := st8 m s b in
      if nz b then strncpy_loop m' (s + 1) (t + 1) n' else zero_up m' (s + 1) n'
  end.

Definition strncpy (m : memory) (s t n : Z) : memory := strncpy_loop m s t (Z.to_nat n).

(** [while(--n > 0 && ( *s++ = *t++ ) != 0);] followed by [*s = 0]; [n] counts
    the iterations that [--n > 0] allows. *)
Fixpoint safestrcpy_loop (m : memory) (s t : Z) (n : nat) : memory :=
  match n with
  | O => st8 m s 0
  | S n' =>
      let b := ld8 m t in
      let m' := st8 m s b in
      if nz b then safestrcpy_loop m' (s + 1) (t + 1) n' else st8 m' (s + 1) 0
  end.

Definition safestrcpy (m : memory) (s t n : Z) : memory :=
  if n <=? 0 then m else safestrcpy_loop m s t (Z.to_nat (n - 1)).

(** [None]: no NUL within the fuel. *)
Fixpoint strlen (fuel : nat) (m : memory) (s n : Z) : option Z :=
  match fuel with
  | O => None
  | S fuel' => if nz (ld8 m (s + n)) then strlen fuel' m s (s32 (n + 1)) else Some n
  end.

(** ** Moving and filling *)

Lemma copy_up_spec n : ∀ m d s x,
  (d ≤ s ∨ s + Z.of_nat n ≤ d) →
  ld8 (copy_up m d s n) x = ld8 (copy m d s (Z.of_nat n)) x.
Proof.
  induction n as [|n IH]; intros m d s x Hd.
  { cbn [copy_up]. by rewrite ld8_copy_out by lia. }
  cbn [copy_up]. rewrite IH by lia. destruct (decide (d < x < d + Z.of_nat (S n))) as [Hx|Hx].
  - rewrite !ld8_copy_in by lia. rewrite ld8_st8_ne by lia. f_equal. lia.
  - rewrite ld8_copy_out by lia. destruct (decide (x = d)) as [->|].
    + rewrite ld8_st8, ld8_copy_in by lia. pose proof (ld8_range m s). unfold is_u8, u8 in *.
      rewrite Z.mod_small by lia. f_equal. lia.
    + by rewrite ld8_st8_ne, ld8_copy_out by lia.
Qed.

Lemma copy_down_spec n : ∀ m d s x,
  s < d → ld8 (copy_down m d s n) x = ld8 (copy m (d - Z.of_nat n) (s - Z.of_nat n) (Z.of_nat n)) x.
Proof.
  induction n as [|n IH]; intros m d s x Hd.
  { cbn [copy_down]. by rewrite ld8_copy_out by lia. }
  cbn [copy_down]. rewrite IH by lia. destruct (decide (d - Z.of_nat (S n) ≤ x < d - 1)) as [Hx|Hx].
  - rewrite !ld8_copy_in by lia. rewrite ld8_st8_ne by lia. f_equal. lia.
  - rewrite ld8_copy_out by lia. destruct (decide (x = d - 1)) as [->|].
    + rewrite ld8_st8, ld8_copy_in by lia. pose proof (ld8_range m (s - 1)). unfold is_u8, u8 in *.
      rewrite Z.mod_small by lia. f_equal. lia.
    + by rewrite ld8_st8_ne, ld8_copy_out by lia.
Qed.

Lemma stosb_spec n : ∀ m d c x, ld8 (stosb m d c n) x = ld8 (fill m d (Z.of_nat n) c) x.
Proof.
  induction n as [|n IH]; intros m d c x; cbn [stosb]; [by rewrite ld8_fill_out by lia|].
  rewrite IH. destruct (decide (d < x < d + Z.of_nat (S n))).
  - by rewrite !ld8_fill_in by lia.
  - rewrite ld8_fill_out by lia. destruct (decide (x = d)) as [->|].
    + by rewrite ld8_st8, ld8_fill_in by lia.
    + by rewrite ld8_st8_ne, ld8_fill_out by lia.
Qed.

(** The four bytes of a word that repeats one byte. *)
Lemma st32_repeat m a c x :
  is_u8 c →
  ld8 (st32 m a (u32 (Z.lor (Z.lor (Z.lor (Z.shiftl c 24) (Z.shiftl c 16)) (Z.shiftl c 8)) c))) x =
    ld8 (fill m a 4 c) x.
Proof.
  intros Hc. unfold is_u8 in Hc.
  assert (E : Z.lor (Z.lor (Z.lor (Z.shiftl c 24) (Z.shiftl c 16)) (Z.shiftl c 8)) c = c * 16843009).
  { rewrite !Z.shiftl_mul_pow2 by lia. rewrite (lor_low c (c * 2 ^ 16) 24) by lia.
    replace (c * 2 ^ 24 + c * 2 ^ 16) with ((c * 2 ^ 8 + c) * 2 ^ 16) by lia.
    rewrite (lor_low _ (c * 2 ^ 8) 16) by lia.
    replace ((c * 2 ^ 8 + c) * 2 ^ 16 + c * 2 ^ 8) with ((c * 2 ^ 16 + c * 2 ^ 8 + c) * 2 ^ 8) by lia.
    rewrite (lor_low _ c 8) by lia. lia. }
  rewrite E, u32_small by (unfold is_u32; lia). unfold st32.
  destruct (decide (a ≤ x < a + 4)) as [Hx|Hx].
  - rewrite ld8_fill_in by lia. assert (x = a ∨ x = a + 1 ∨ x = a + 2 ∨ x = a + 3) as Hc4 by lia.
    repeat destruct Hc4 as [->|Hc4]; rewrite ?Hc4; repeat (rewrite ld8_st8 || rewrite ld8_st8_ne by lia);
      unfold u8; dlia.
  - rewrite !ld8_st8_ne by lia. by rewrite ld8_fill_out by lia.
Qed.

Lemma stosl_spec c w n : (∀ m a x, ld8 (st32 m a w) x = ld8 (fill m a 4 c) x) →
  ∀ m d x, ld8 (stosl m d w n) x = ld8 (fill m d (4 * Z.of_nat n) c) x.
Proof.
  intros Hw. induction n as [|n IH]; intros m d x; cbn [stosl]; [by rewrite ld8_fill_out by lia|].
  rewrite IH. destruct (decide (d + 4 ≤ x < d + 4 * Z.of_nat (S n))).
  - by rewrite !ld8_fill_in by lia.
  - rewrite ld8_fill_out by lia. rewrite Hw. destruct (decide (d ≤ x < d + 4)).
    + by rewrite !ld8_fill_in by lia.
    + by rewrite !ld8_fill_out by lia.
Qed.

(** [memmove] moves as if through a copy of the source, however the two
    regions overlap: afterwards the destination holds what the source held
    before, and nothing else has changed. *)
Theorem memmove_is_copy m dst src n x :
  0 ≤ n → ld8 (memmove m dst src n) x = ld8 (copy m dst src n) x.
Proof.
  intros Hn. unfold memmove. destruct (Z.ltb_spec src dst), (Z.ltb_spec dst (src + n)); cbn [andb].
  - rewrite copy_down_spec by lia. rewrite Z2Nat.id by lia. do 2 f_equal; lia.
  - rewrite copy_up_spec by lia. by rewrite Z2Nat.id by lia.
  - rewrite copy_up_spec by lia. by rewrite Z2Nat.id by lia.
  - rewrite copy_up_spec by lia. by rewrite Z2Nat.id by lia.
Qed.

(** [memset] fills exactly the [n] bytes, whether it stores words or
    bytes. *)
Theorem memset_is_fill m dst c n x :
  0 ≤ n → ld8 (memset m dst c n) x = ld8 (fill m dst n c) x.
Proof.
  intros Hn. unfold memset. destruct (_ && _) eqn:E.
  - apply andb_true_iff in E as [_ E%Z.eqb_eq].
    assert (Ec : Z.land c 0xFF = u8 c) by (change 0xFF with (Z.ones 8); by rewrite Z.land_ones by lia).
    rewrite Ec. rewrite (stosl_spec (u8 c)).
    + replace (4 * Z.of_nat (Z.to_nat (n / 4))) with n by dlia.
      destruct (decide (dst ≤ x < dst + n)); [|by rewrite !ld8_fill_out by lia].
      rewrite !ld8_fill_in by lia. unfold u8. dlia.
    + intros m' a y. apply st32_repeat. unfold is_u8, u8. dlia.
  - rewrite stosb_spec. by rewrite Z2Nat.id by lia.
Qed.

(** ** Strings *)

(** The NUL-terminated string [l] lies at [a]. *)
Definition cstr (m : memory) (a : Z) (l : list Z) : Prop :=
  ld_bytes m a (length l) = l ∧ Forall (λ b, 0 < b < 256) l ∧ ld8 m (a + Z.of_nat (length l)) = 0.

Lemma ld_bytes_S m a n : ld_bytes m a (S n) = ld8 m a :: ld_bytes m (a + 1) n.
Proof.
  unfold ld_bytes. rewrite <- cons_seq. cbn [fmap list_fmap]. f_equal; [f_equal; lia|].
  rewrite <- fmap_S_seq, <- list_fmap_compose. apply list_fmap_ext. intros i k _. cbn. f_equal. lia.
Qed.

Lemma cstr_nil m a : cstr m a [] ↔ ld8 m a = 0.
Proof.
  unfold cstr. cbn. rewrite Z.add_0_r. split; [by intros (_&_&?)|]. intros. split_and!; [done|constructor|done].
Qed.

Lemma cstr_cons m a b l : cstr m a (b :: l) ↔ ld8 m a = b ∧ b ≠ 0 ∧ cstr m (a + 1) l.
Proof.
  unfold cstr. cbn [length]. rewrite ld_bytes_S. split.
  - intros ([= Hb Hl] & [? ?]%Forall_cons & Hz). split_and!; try done; [lia|]. rewrite <- Hz. f_equal. lia.
  - intros (Hb & Hnz & Hl & Hf & Hz). pose proof (ld8_range m a). unfold is_u8 in *. split_and!.
    + by rewrite Hb, Hl.
    + constructor; [lia|done].
    + rewrite <- Hz. f_equal. lia.
Qed.

(** The bytes from [a] agree in [m] and [m']. *)
Definition agree_from (m m' : memory) (a n : Z) : Prop := ∀ x, a ≤ x < a + n → ld8 m' x = ld8 m x.

Lemma cstr_agree m m' a l :
  cstr m a l → agree_from m m' a (Z.of_nat (length l) + 1) → cstr m' a l.
Proof.
  revert a. induction l as [|b l IH]; intros a; rewrite ?cstr_nil, ?cstr_cons; cbn [length]; intros Hc Ha.
  - rewrite Ha by lia. done.
  - destruct Hc as (<- & Hnz & Hc). split; [apply Ha; lia|]. split; [done|].
    apply IH; [done|]. intros x Hx. apply Ha. lia.
Qed.

(** ** Lengths and comparisons *)

Lemma strlen_loop l : ∀ fuel m a k,
  0 ≤ k → cstr m (a + k) l → k + Z.of_nat (length l) < 2147483648 → (length l < fuel)%nat →
  strlen fuel m a k = Some (k + Z.of_nat (length l)).
Proof.
  induction l as [|b l IH]; intros fuel m a k Hk; rewrite ?cstr_nil, ?cstr_cons; cbn [length]; intros Hc Hn Hf;
    (destruct fuel as [|fuel]; [lia|]); cbn [strlen].
  - rewrite Hc. cbn. f_equal. lia.
  - destruct Hc as (Hb & Hnz & Hc). rewrite Hb. rewrite (proj2 (nz_true b) Hnz).
    rewrite s32_small by lia. rewrite (IH fuel m a (k + 1)); [f_equal; lia|lia| |lia|lia].
    by replace (a + (k + 1)) with (a + k + 1) by lia.
Qed.

(** What a comparison of at most [n] characters sees. *)
Fixpoint field (m : memory) (a : Z) (n : nat) : list Z :=
  match n with
  | O => []
  | S n' => if nz (ld8 m a) then ld8 m a :: field m (a + 1) n' else []
  end.

(** [strncmp] decides whether two character fields of at most [n] bytes,
    terminated or not, hold the same text; when they differ, the sign of the
    result orders the first characters that differ, as unsigned bytes. *)
Theorem strncmp_decides m p q n :
  (strncmp m p q n = 0 ↔ field m p n = field m q n) ∧
  (∀ k, field m p n !! k ≠ field m q n !! k →
     (∀ j, (j < k)%nat → field m p n !! j = field m q n !! j) →
     strncmp m p q n = default 0 (field m p n !! k) - default 0 (field m q n !! k)).
Proof.
  revert p q. induction n as [|n IH]; intros p q; [by cbn|]. cbn [strncmp field].
  destruct (IH (p + 1) (q + 1)) as [IH1 IH2].
  destruct (nz (ld8 m p)) eqn:Ep; cbn [andb].
  - destruct (Z.eqb_spec (ld8 m p) (ld8 m q)) as [E|E].
    + rewrite <- E, Ep. split.
      * rewrite IH1. split; [by intros ->|by intros [= ?]].
      * intros [|k] Hk Hj; [done|]. cbn [lookup list_lookup] in *. apply IH2; [done|].
        intros j Hlt. apply (Hj (S j)). lia.
    + split.
      * split; [lia|]. destruct (nz (ld8 m q)) eqn:Eq; intros [= ?]; congruence.
      * intros k Hk Hj. assert (k = O) as ->.
        { destruct k as [|k]; [done|]. specialize (Hj O ltac:(lia)). exfalso. revert Hj.
          destruct (nz (ld8 m q)); intros [= ?]; congruence. }
        destruct (nz (ld8 m q)) eqn:Eq; cbn; [done|]. apply nz_false in Eq. lia.
  - apply nz_false in Ep. rewrite Ep. destruct (nz (ld8 m q)) eqn:Eq.
    + apply nz_true in Eq. split; [split; [lia|done]|]. intros k Hk Hj.
      assert (k = O) as ->; [|by cbn]. destruct k as [|k]; [done|]. by specialize (Hj O ltac:(lia)).
    + apply nz_false in Eq. rewrite Eq. split; [done|]. by intros k Hk.
Qed.

(** ** Copying strings *)

Lemma zero_up_spec n : ∀ m s x, ld8 (zero_up m s n) x = ld8 (fill m s (Z.of_nat n) 0) x.
Proof.
  intros m s x. rewrite <- stosb_spec. revert m s. induction n as [|n IH]; intros m s; [done|]. apply IH.
Qed.

Lemma safestrcpy_loop_spec n : ∀ m s t l,
  cstr m t l → (s + Z.of_nat n < t ∨ t + Z.of_nat (length l) < s) →
  cstr (safestrcpy_loop m s t n) s (take n l) ∧
  ∀ x, (x < s ∨ s + Z.of_nat n < x) → ld8 (safestrcpy_loop m s t n) x = ld8 m x.
Proof.
  induction n as [|n IH]; intros m s t l Hc Hd; cbn [safestrcpy_loop].
  - rewrite firstn_O, cstr_nil, ld8_st8. split; [done|]. intros x Hx. by rewrite ld8_st8_ne by lia.
  - destruct l as [|b l].
    + rewrite cstr_nil in Hc. rewrite Hc. cbn [nz Z.eqb negb]. rewrite firstn_nil, cstr_nil.
      split; [by rewrite ld8_st8_ne, ld8_st8 by lia|]. intros x Hx. by rewrite !ld8_st8_ne by lia.
    + rewrite cstr_cons in Hc. destruct Hc as (Hb & Hnz & Hc). rewrite Hb, (proj2 (nz_true b) Hnz).
      cbn [length] in Hd. pose proof (ld8_range m t) as Hr. unfold is_u8 in Hr.
      destruct (IH (st8 m s b) (s + 1) (t + 1) l) as [Hc' Ho].
      { eapply cstr_agree; [exact Hc|]. intros x Hx. apply ld8_st8_ne. lia. } { lia. }
      split.
      * cbn [firstn]. rewrite cstr_cons. split; [|done]. rewrite Ho by lia. rewrite ld8_st8. unfold u8.
        apply Z.mod_small. lia.
      * intros x Hx. rewrite Ho by lia. by rewrite ld8_st8_ne by lia.
Qed.

(** [safestrcpy] leaves a terminated string, the source cut to [n - 1]
    characters, and writes only the [n] bytes it was given. *)
Theorem safestrcpy_terminates m s t n l :
  0 < n → cstr m t l → (s + n ≤ t ∨ t + Z.of_nat (length l) < s) →
  cstr (safestrcpy m s t n) s (take (Z.to_nat (n - 1)) l) ∧
  ∀ x, (x < s ∨ s + n ≤ x) → ld8 (safestrcpy m s t n) x = ld8 m x.
Proof.
  intros Hn Hc Hd. unfold safestrcpy. rewrite (proj2 (Z.leb_gt n 0)) by lia.
  destruct (safestrcpy_loop_spec (Z.to_nat (n - 1)) m s t l Hc ltac:(lia)) as [H1 H2].
  split; [done|]. intros x Hx. apply H2. lia.
Qed.

Lemma ld_bytes_zero m s n : (∀ x, s ≤ x < s + Z.of_nat n → ld8 m x = 0) → ld_bytes m s n = replicate n 0.
Proof.
  revert s. induction n as [|n IH]; intros s Hz; [done|]. rewrite ld_bytes_S, Hz by lia.
  cbn [replicate]. f_equal. apply IH. intros x Hx. apply Hz. lia.
Qed.

(** [strncpy] fills a field of [n] bytes: the text, cut at [n] characters, and
    zeros after it. *)
Lemma strncpy_loop_spec n : ∀ m s t l,
  cstr m t l → (s + Z.of_nat n ≤ t ∨ t + Z.of_nat (length l) < s) →
  ld_bytes (strncpy_loop m s t n) s n = take n (l ++ replicate n 0) ∧
  ∀ x, (x < s ∨ s + Z.of_nat n ≤ x) → ld8 (strncpy_loop m s t n) x = ld8 m x.
Proof.
  induction n as [|n IH]; intros m s t l Hc Hd; [done|]. cbn [strncpy_loop]. destruct l as [|b l].
  - rewrite cstr_nil in Hc. rewrite Hc. cbn [nz Z.eqb negb]. split.
    + rewrite app_nil_l, take_ge by (by rewrite length_replicate). rewrite ld_bytes_zero; [done|].
      intros x Hx. rewrite zero_up_spec. destruct (decide (x = s)) as [->|].
      * by rewrite ld8_fill_out, ld8_st8 by lia.
      * by rewrite ld8_fill_in by lia.
    + intros x Hx. rewrite zero_up_spec, ld8_fill_out by lia. by rewrite ld8_st8_ne by lia.
  - rewrite cstr_cons in Hc. destruct Hc as (Hb & Hnz & Hc). rewrite Hb, (proj2 (nz_true b) Hnz).
    cbn [length] in Hd. pose proof (ld8_range m t) as Hr. unfold is_u8 in Hr.
    destruct (IH (st8 m s b) (s + 1) (t + 1) l) as [Hc' Ho].
    { eapply cstr_agree; [exact Hc|]. intros x Hx. apply ld8_st8_ne. lia. } { lia. }
    split.
    + rewrite ld_bytes_S, Hc'. cbn [app firstn]. f_equal.
      * rewrite Ho by lia. rewrite ld8_st8. unfold u8. apply Z.mod_small. lia.
      * rewrite !take_app, !take_replicate. do 2 f_equal. lia.
    + intros x Hx. rewrite Ho by lia. by rewrite ld8_st8_ne by lia.
Qed.

(** ** Concrete memory *)

(** The text [hi] at address 16. *)
Definition hi_mem : memory := st_bytes (λ _, 0) 16 [104; 105; 0].

Lemma hi_cstr : cstr hi_mem 16 [104; 105].
Proof. split_and!; [done|repeat constructor; lia|done]. Qed.

Lemma memmove_is_copy_witness :
  0 ≤ 3 ∧ ld8 (memmove hi_mem 17 16 3) 18 = ld8 (copy hi_mem 17 16 3) 18.
Proof. split; [lia|]. apply (memmove_is_copy hi_mem 17 16 3 18). lia. Defined.

Lemma memset_is_fill_witness :
  0 ≤ 8 ∧ ld8 (memset hi_mem 16 0x141 8) 18 = ld8 (fill hi_mem 16 8 0x141) 18.
Proof. split; [lia|]. apply (memset_is_fill hi_mem 16 0x141 8 18). lia. Defined.

Lemma safestrcpy_terminates_witness :
  cstr (safestrcpy hi_mem 64 16 2) 64 [104] ∧
  ∀ x, (x < 64 ∨ 64 + 2 ≤ x) → ld8 (safestrcpy hi_mem 64 16 2) x = ld8 hi_mem x.
Proof. apply (safestrcpy_terminates hi_mem 64 16 2 [104; 105]); [lia|apply hi_cstr|cbn; lia]. Defined.
