(* ===== verification/Kalloc.v ===== *)
(** * Kalloc: the physical page allocator of [kalloc.c]

    A free list threaded through the free pages themselves, and one
    reference counter per physical page for copy-on-write sharing. *)

From S2P Require Import Prelude Mmu Phys Config.

Section Kalloc.
Context `{Config}.

(** ** Operations *)

(** [acquire(&kmem.lock)] and [release(&kmem.lock)]: taking a lock the CPU
    already holds, or releasing one it does not hold, panics. *)
Definition kmemLock : M phys unit :=
  l ← gets kmem_locked;
  if l : bool then panic "acquire" else modify (set_kmem_locked true).
Definition kmemRelease : M phys unit :=
  l ← gets kmem_locked;
  if l : bool then modify (set_kmem_locked false) else panic "release".

(** [kmem.referenceCounters[i]], an array of [PHYSTOP/PGSIZE] counters. *)
Definition ref_ok (i : Z) : bool := (0 <=? i) && (i <? PHYSTOP / PGSIZE).
Definition ref_get (i : Z) : M phys Z :=
  assert_ok (ref_ok i) "referenceCounters index out of range" ;;
  gets (λ s, referenceCounters s i).
Definition ref_put (i v : Z) : M phys unit :=
  assert_ok (ref_ok i) "referenceCounters index out of range" ;;
  modify (λ s, set_referenceCounters (upd (referenceCounters s) i v) s).

Definition kfree (v : Z) : M phys unit :=
  (if nz (v mod PGSIZE) || (v <? kend) || (PHYSTOP <=? V2P v)
   then panic "kfree" else mret tt) ;;
  ul ← gets use_lock;
  when ul kmemLock ;;
  r ← ref_get (V2P v / PGSIZE);
  (if ul && (r =? 0) then panic "kfree: ref is 0 and tried to kfree v"
   else mret tt) ;;
  r ← ref_get (V2P v / PGSIZE);
  when (0 <? r) (ref_put (V2P v / PGSIZE) (u32 (r - 1))) ;;
  r ← ref_get (V2P v / PGSIZE);
  when (r =? 0) (
    kmemset v 1 PGSIZE ;;
    fl ← gets freelist;
    kstore32 v fl ;;
    modify (set_freelist v) ;;
    modify (λ s, set_system_free_pages (u32 (system_free_pages s + 1)) s)) ;;
  when ul kmemRelease.

Definition kalloc : M phys Z :=
  ul ← gets use_lock;
  when ul kmemLock ;;
  r ← gets freelist;
  when (nz r) (
    nx ← kload32 r;
    modify (set_freelist nx) ;;
    modify (λ s, set_system_free_pages (u32 (system_free_pages s - 1)) s) ;;
    ref_put (V2P r / PGSIZE) 1) ;;
  when ul kmemRelease ;;
  mret r.

Definition incrementRef (v : Z) : M phys unit :=
  (if (V2P v <? V2P kend) || (PHYSTOP <=? V2P v)
   then panic "incrementRef" else mret tt) ;;
  ul ← gets use_lock;
  when ul kmemLock ;;
  r ← ref_get (V2P v / PGSIZE);
  ref_put (V2P v / PGSIZE) (u32 (r + 1)) ;;
  when ul kmemRelease.

Definition decrementRef (v : Z) : M phys unit :=
  (if (V2P v <? V2P kend) || (PHYSTOP <=? V2P v)
   then panic "decrementRef" else mret tt) ;;
  ul ← gets use_lock;
  when ul kmemLock ;;
  r ← ref_get (V2P v / PGSIZE);
  ref_put (V2P v / PGSIZE) (u32 (r - 1)) ;;
  when ul kmemRelease.

Definition getRef (v : Z) : M phys Z :=
  ul ← gets use_lock;
  when ul kmemLock ;;
  res ← ref_get (V2P v / PGSIZE);
  when ul kmemRelease ;;
  mret res.

(** [for(; p + PGSIZE <= vend; p += PGSIZE) kfree(p);] *)
Fixpoint freerange_loop (fuel : nat) (p vend : Z) : M phys unit :=
  match fuel with
  | O => fail NoFuel
  | S fuel' =>
      if p + PGSIZE <=? vend
      then kfree p ;; freerange_loop fuel' (p + PGSIZE) vend
      else mret tt
  end.

(** The loop runs at most [(vend - p) / PGSIZE] times. *)
Definition freerange (vstart vend : Z) : M phys unit :=
  let p := PGROUNDUP vstart in
  freerange_loop (S (Z.to_nat ((vend - p) / PGSIZE))) p vend.

Definition kinit1 (vstart vend : Z) : M phys unit :=
  modify (set_kmem_locked false) ;;
  modify (set_use_lock false) ;;
  freerange vstart vend ;;
  modify (set_total_system_pages
    (u32 (PGROUNDDOWN vend - PGROUNDUP vstart) / PGSIZE)).

Definition kinit2 (vstart vend : Z) : M phys unit :=
  freerange vstart vend ;;
  modify (λ s, set_total_system_pages (u32 (total_system_pages s
    + u32 (PGROUNDDOWN vend - PGROUNDUP vstart) / PGSIZE)) s) ;;
  modify (set_use_lock true) ;;
  modify (λ s, set_system_free_pages (total_system_pages s) s).

(** ** The allocator invariant *)

(** A page [kfree] accepts. *)
Definition valid_page (v : Z) : Prop :=
  v mod PGSIZE = 0 ∧ kend ≤ v ∧ KERNBASE ≤ v < KERNBASE + PHYSTOP.

(** The physical frame number of a kernel address: its counter's index. *)
Definition pfn (v : Z) : Z := V2P v / PGSIZE.

(** The free list that starts at [head] and is linked through the first word
    of each page. *)
Fixpoint is_freelist (m : memory) (head : Z) (L : list Z) : Prop :=
  match L with
  | [] => head = 0
  | v :: L' => head = v ∧ is_freelist m (ld32 m (V2P v)) L'
  end.

(** [d] is the distance between [system_free_pages] and the real length of
    the list: [kinit2] overwrites the counter, so it need not be zero. *)
Record kmem_inv (d : Z) (s : phys) (L : list Z) : Prop := {
  ki_unlocked : kmem_locked s = false;
  ki_list : is_freelist (mem s) (freelist s) L;
  ki_nodup : NoDup L;
  ki_valid : Forall valid_page L;
  ki_ref0 : Forall (λ v, referenceCounters s (pfn v) = 0) L;
  ki_u32 : ∀ i, is_u32 (referenceCounters s i);
  ki_count : system_free_pages s = u32 (Z.of_nat (length L) + d)
}.

(** ** Pages and frames *)

Lemma valid_page_kaddr v n :
  valid_page v → 0 ≤ n ≤ 4096 → kaddr_ok v n = true.
Proof. intros (?&?&?) ?. apply kaddr_ok_true. klia. Qed.

Lemma valid_page_V2P v : valid_page v → V2P v = v - KERNBASE.
Proof. intros (?&?&?). apply V2P_direct. klia. Qed.

Lemma valid_page_pfn v :
  valid_page v → V2P v = 4096 * pfn v ∧ 0 ≤ pfn v < 57344 ∧ v ≠ 0.
Proof.
  intros Hv. unfold pfn. rewrite (valid_page_V2P v) by done.
  destruct Hv as (?&?&?). klia.
Qed.

Lemma valid_page_ref_ok v : valid_page v → ref_ok (V2P v / PGSIZE) = true.
Proof.
  intros Hv. destruct (valid_page_pfn v Hv) as (?&?&?).
  unfold ref_ok. fold (pfn v). rewrite andb_true_iff, Z.leb_le, Z.ltb_lt.
  change (PHYSTOP / PGSIZE) with 57344. lia.
Qed.

Lemma pfn_inj v w : valid_page v → valid_page w → pfn v = pfn w → v = w.
Proof.
  intros Hv Hw E. destruct (valid_page_pfn v Hv) as (E1&_), (valid_page_pfn w Hw) as (E2&_).
  rewrite valid_page_V2P in E1, E2 by done. lia.
Qed.

(** Distinct pages do not overlap. *)
Lemma pages_disjoint v w :
  valid_page v → valid_page w → v ≠ w →
  V2P v + 4096 ≤ V2P w ∨ V2P w + 4096 ≤ V2P v.
Proof.
  intros Hv Hw Hne. destruct (valid_page_pfn v Hv) as (E1&_), (valid_page_pfn w Hw) as (E2&_).
  assert (pfn v ≠ pfn w) by (intros E; by apply Hne, pfn_inj). lia.
Qed.

Lemma kfree_guard v :
  valid_page v →
  nz (v mod PGSIZE) || (v <? kend) || (PHYSTOP <=? V2P v) = false.
Proof.
  intros Hv. rewrite (valid_page_V2P v) by done. destruct Hv as (E&?&?).
  rewrite E. simpl. apply orb_false_iff. split; [apply Z.ltb_ge; lia|].
  apply Z.leb_gt. lia.
Qed.

(** Writing outside the free pages does not disturb the list. *)
Lemma is_freelist_frame m m' h L :
  (∀ v, v ∈ L → ld32 m' (V2P v) = ld32 m (V2P v)) →
  is_freelist m h L → is_freelist m' h L.
Proof.
  revert h. induction L as [|v L IH]; intros h Hf; simpl; [done|].
  intros [-> HL]. split; [done|]. rewrite Hf by set_solver.
  apply IH; [|done]. intros w Hw. apply Hf. set_solver.
Qed.

(** ** Functional behaviour *)

(** Taking and releasing the lock around [c] when nobody holds it. *)
Lemma phys_eta s : set_kmem_locked (kmem_locked s) s = s.
Proof. by destruct s. Qed.

Lemma kalloc_empty s :
  kmem_locked s = false → freelist s = 0 → kalloc s = Ok 0 s.
Proof.
  intros Hl Hf. unfold kalloc, kmemLock, kmemRelease, mbind, M_bind, gets.
  destruct (use_lock s); simpl; rewrite ?Hl; simpl; rewrite Hf; simpl; [|done].
  unfold modify. f_equal. destruct s; simpl in *; by subst.
Qed.

Definition kalloc_post (v : Z) (s : phys) : phys :=
  mkPhys (mem s) false (use_lock s) (ld32 (mem s) (V2P v))
    (upd (referenceCounters s) (pfn v) 1) (total_system_pages s)
    (u32 (system_free_pages s - 1)).

Lemma kalloc_cons s v :
  kmem_locked s = false → freelist s = v → valid_page v →
  kalloc s = Ok v (kalloc_post v s).
Proof.
  intros Hl Hf Hv. pose proof (valid_page_pfn v Hv) as (_&_&Hnz).
  unfold kalloc, kmemLock, kmemRelease, ref_put, mbind, M_bind, gets, modify.
  destruct (use_lock s) eqn:Hu; simpl; rewrite ?Hl; simpl; rewrite Hf;
  rewrite (proj2 (nz_true v) Hnz); simpl;
  (rewrite kload32_eq by (apply valid_page_kaddr; [done|lia]));
  rewrite valid_page_ref_ok by done; simpl; unfold kalloc_post, pfn;
  f_equal; destruct s; simpl in *; by subst.
Qed.

(** The two outcomes of [kfree] on a page: a shared page loses a reference,
    an exclusive (or never counted) page goes to the free list. *)
Definition kfree_shared (v : Z) (s : phys) : phys :=
  set_referenceCounters
    (upd (referenceCounters s) (pfn v) (u32 (referenceCounters s (pfn v) - 1))) s.

Definition kfree_last (v : Z) (s : phys) : phys :=
  mkPhys (st32 (fill (mem s) (V2P v) PGSIZE 1) (V2P v) (freelist s))
    false (use_lock s) v
    (if 0 <? referenceCounters s (pfn v)
     then upd (referenceCounters s) (pfn v) 0 else referenceCounters s)
    (total_system_pages s) (u32 (system_free_pages s + 1)).

Lemma kfree_eq s v :
  kmem_locked s = false → valid_page v →
  is_u32 (referenceCounters s (pfn v)) →
  (use_lock s = true → referenceCounters s (pfn v) ≠ 0) →
  kfree v s =
    Ok tt (if 1 <? referenceCounters s (pfn v) then kfree_shared v s
           else kfree_last v s).
Proof.
  intros Hl Hv Hr Hu. unfold kfree, kmemLock, kmemRelease, ref_get, ref_put.
  rewrite kfree_guard by done. rewrite valid_page_ref_ok by done.
  fold (pfn v). unfold mbind, M_bind, gets, modify, assert_ok.
  assert (Hk : kaddr_ok v PGSIZE = true) by (apply valid_page_kaddr; [done|klia]).
  assert (Hk4 : kaddr_ok v 4 = true) by (apply valid_page_kaddr; [done|klia]).
  unfold kfree_shared, kfree_last.
  destruct s as [m lk ul fl rc tot fr]; simpl in *. subst lk.
  destruct (decide (rc (pfn v) = 0)) as [E0|H0]; [|destruct (decide (rc (pfn v) = 1)) as [E1|H1]].
  - destruct ul; [by destruct Hu|]. repeat (rewrite E0; simpl).
    rewrite kmemset_eq by done. simpl. by rewrite kstore32_eq.
  - rewrite E1. destruct ul; simpl; repeat (rewrite E1; simpl); rewrite upd_eq;
      change (u32 0) with 0; simpl; rewrite kmemset_eq by done; simpl;
      by rewrite kstore32_eq.
  - assert (E : u32 (rc (pfn v) - 1) = rc (pfn v) - 1) by (apply u32_small; klia).
    assert (Hs : (0 <? rc (pfn v)) = true) by (apply Z.ltb_lt; klia).
    assert (Hs1 : (1 <? rc (pfn v)) = true) by (apply Z.ltb_lt; klia).
    assert (Hz : (rc (pfn v) =? 0) = false) by (apply Z.eqb_neq; klia).
    assert (Hz1 : (rc (pfn v) - 1 =? 0) = false) by (apply Z.eqb_neq; klia).
    rewrite Hs1. destruct ul; simpl; rewrite ?Hz; simpl; rewrite Hs; simpl;
      rewrite upd_eq, ?E, Hz1; done.
Qed.

(** ** Preservation of the invariant *)

Lemma kmem_inv_kalloc d s v L :
  kmem_inv d s (v :: L) →
  kalloc s = Ok v (kalloc_post v s) ∧ kmem_inv d (kalloc_post v s) L.
Proof.
  intros [Hl [Hfl Hlist] Hnd Hval H0 Hu Hc].
  apply NoDup_cons in Hnd as [Hnin Hnd].
  apply Forall_cons in Hval as [Hv Hval]. apply Forall_cons in H0 as [Hv0 H0].
  split; [by apply kalloc_cons|].
  split; simpl; [done|done|done|done| |..].
  - rewrite Forall_forall in *. intros w Hw. rewrite upd_ne; [by auto|].
    intros E. apply pfn_inj in E; [subst; done|done|by auto].
  - intros i. unfold upd. destruct (i =? pfn v); [klia|done].
  - rewrite Hc, u32_sub_l. f_equal. simpl. lia.
Qed.

Lemma fill_st32_out m v w x y :
  valid_page v → valid_page w → v ≠ w → 
  ld32 (st32 (fill m (V2P v) PGSIZE x) (V2P v) y) (V2P w) = ld32 m (V2P w).
Proof.
  intros Hv Hw Hne. pose proof (pages_disjoint v w Hv Hw Hne).
  by rewrite ld32_st32_ne, ld32_fill_out by klia.
Qed.

Lemma kmem_inv_kfree_last d s v L :
  kmem_inv d s L → valid_page v → v ∉ L → referenceCounters s (pfn v) ≤ 1 →
  kmem_inv d (kfree_last v s) (v :: L).
Proof.
  intros [Hl Hlist Hnd Hval H0 Hu Hc] Hv Hnin Hr.
  assert (Hfl : is_u32 (freelist s)).
  { destruct L as [|w L]; simpl in Hlist; [subst; klia|].
    destruct Hlist as [-> _]. apply Forall_cons in Hval as [(?&?&?) _]. klia. }
  assert (Href : ∀ i, (if 0 <? referenceCounters s (pfn v)
      then upd (referenceCounters s) (pfn v) 0 else referenceCounters s) i =
      if i =? pfn v then 0 else referenceCounters s i).
  { intros i. pose proof (Hu (pfn v)). destruct (Z.ltb_spec 0 (referenceCounters s (pfn v))).
    - done.
    - destruct (Z.eqb_spec i (pfn v)); [subst; klia|done]. }
  split; unfold kfree_last; simpl.
  - done.
  - split; [done|]. rewrite ld32_st32 by done.
    eapply is_freelist_frame; [|done]. intros w Hw. rewrite Forall_forall in Hval.
    apply fill_st32_out; [done|by auto|]. intros ->. done.
  - by constructor.
  - by constructor.
  - constructor; [rewrite Href, Z.eqb_refl; done|].
    rewrite Forall_forall in *. intros w Hw. rewrite Href.
    destruct (pfn w =? pfn v); auto.
  - intros i. rewrite Href. destruct (i =? pfn v); [klia|done].
  - rewrite Hc, u32_add_l. f_equal. lia.
Qed.

(** Changing the counter of a page that is not free. *)
Lemma kmem_inv_set_ref d s v L r :
  kmem_inv d s L → valid_page v → v ∉ L → is_u32 r →
  kmem_inv d (set_referenceCounters (upd (referenceCounters s) (pfn v) r) s) L.
Proof.
  intros [Hl Hlist Hnd Hval H0 Hu Hc] Hv Hnin Hr. split; simpl; auto.
  - rewrite Forall_forall in *. intros w Hw. rewrite upd_ne; [by auto|].
    intros E. apply pfn_inj in E; [subst; done|done|by auto].
  - intros i. unfold upd. by destruct (i =? pfn v).
Qed.

(** A page with references is not free. *)
Lemma kmem_inv_not_free d s L v :
  kmem_inv d s L → referenceCounters s (pfn v) ≠ 0 → v ∉ L.
Proof.
  intros Hi Hr Hv. apply Hr.
  by apply (proj1 (Forall_forall _ L) (ki_ref0 _ _ _ Hi) v).
Qed.

Lemma ref_guard v :
  ConfigOk → valid_page v →
  (V2P v <? V2P kend) || (PHYSTOP <=? V2P v) = false.
Proof.
  intros [] Hv. rewrite (valid_page_V2P v) by done. destruct Hv as (E&?&?).
  rewrite (V2P_direct kend) by klia.
  apply orb_false_iff. rewrite Z.ltb_ge, Z.leb_gt. lia.
Qed.

Lemma incrementRef_eq s v :
  ConfigOk → kmem_locked s = false → valid_page v →
  incrementRef v s = Ok tt (set_referenceCounters (upd (referenceCounters s)
    (pfn v) (u32 (referenceCounters s (pfn v) + 1))) s).
Proof.
  intros Hc Hl Hv. unfold incrementRef, ref_get, ref_put, kmemLock, kmemRelease.
  rewrite ref_guard, valid_page_ref_ok by done.
  unfold mbind, M_bind, gets, modify. fold (pfn v).
  destruct s as [m lk ul fl rc tot fr]; simpl in *; subst; by destruct ul.
Qed.

Lemma decrementRef_eq s v :
  ConfigOk → kmem_locked s = false → valid_page v →
  decrementRef v s = Ok tt (set_referenceCounters (upd (referenceCounters s)
    (pfn v) (u32 (referenceCounters s (pfn v) - 1))) s).
Proof.
  intros Hc Hl Hv. unfold decrementRef, ref_get, ref_put, kmemLock, kmemRelease.
  rewrite ref_guard, valid_page_ref_ok by done.
  unfold mbind, M_bind, gets, modify. fold (pfn v).
  destruct s as [m lk ul fl rc tot fr]; simpl in *; subst; by destruct ul.
Qed.

Lemma getRef_eq s v :
  kmem_locked s = false → ref_ok (pfn v) = true →
  getRef v s = Ok (referenceCounters s (pfn v)) s.
Proof.
  intros Hl Hv. unfold getRef, ref_get, kmemLock, kmemRelease. fold (pfn v).
  rewrite Hv. unfold mbind, M_bind, gets, modify.
  destruct s as [m lk ul fl rc tot fr]; simpl in *; subst; by destruct ul.
Qed.

(** ** The contract of the allocator

    What a client sees: a set of free pages and a reference count per page.
    [kalloc] hands out some free page; [kfree] gives one reference back and
    frees the page with the last one. *)

Inductive kop := OpAlloc | OpFree (v : Z) | OpInc (v : Z) | OpDec (v : Z).

Definition run_op (o : kop) : M phys Z :=
  match o with
  | OpAlloc => kalloc
  | OpFree v => kfree v ;; mret 0
  | OpInc v => incrementRef v ;; mret 0
  | OpDec v => decrementRef v ;; mret 0
  end.

Record astate := { a_free : gset Z; a_ref : Z → Z }.

(** What the client must respect. *)
Definition legal (a : astate) (o : kop) : Prop :=
  match o with
  | OpAlloc => True
  | OpFree v => valid_page v ∧ a_ref a (pfn v) ≠ 0
  | OpInc v | OpDec v => valid_page v ∧ a_ref a (pfn v) ≠ 0
  end.

Inductive spec_step (a : astate) : kop → Z → astate → Prop :=
  | spec_alloc v :
      v ∈ a_free a → a_ref a (pfn v) = 0 →
      spec_step a OpAlloc v
        {| a_free := a_free a ∖ {[v]}; a_ref := upd (a_ref a) (pfn v) 1 |}
  | spec_alloc_none : a_free a = ∅ → spec_step a OpAlloc 0 a
  | spec_free_shared v :
      1 < a_ref a (pfn v) →
      spec_step a (OpFree v) 0
        {| a_free := a_free a; a_ref := upd (a_ref a) (pfn v) (a_ref a (pfn v) - 1) |}
  | spec_free_last v :
      a_ref a (pfn v) = 1 → v ∉ a_free a →
      spec_step a (OpFree v) 0
        {| a_free := a_free a ∪ {[v]}; a_ref := upd (a_ref a) (pfn v) 0 |}
  | spec_inc v :
      spec_step a (OpInc v) 0
        {| a_free := a_free a; a_ref := upd (a_ref a) (pfn v) (u32 (a_ref a (pfn v) + 1)) |}
  | spec_dec v :
      spec_step a (OpDec v) 0
        {| a_free := a_free a; a_ref := upd (a_ref a) (pfn v) (a_ref a (pfn v) - 1) |}.

(** The concrete state [s] implements the abstract state [a]. *)
Definition implements (d : Z) (s : phys) (a : astate) : Prop :=
  use_lock s = true ∧ a_ref a = referenceCounters s ∧
  ∃ L, kmem_inv d s L ∧ a_free a = list_to_set L.

(** One operation of a legal client. *)
Lemma run_op_refines d s a o :
  ConfigOk → implements d s a → legal a o →
  ∃ r s' a', run_op o s = Ok r s' ∧ spec_step a o r a' ∧ implements d s' a'.
Proof.
  intros Hc (Hu & Hr & L & Hi & HL) Hleg. destruct a as [fs rf]; simpl in *; subst.
  destruct o as [|v|v|v]; simpl in Hleg.
  - destruct L as [|v L].
    + exists 0, s. eexists. split; [apply kalloc_empty; apply Hi|].
      split; [by apply spec_alloc_none|]. repeat split; eauto.
    + destruct (kmem_inv_kalloc d s v L Hi) as [E Hi'].
      exists v, (kalloc_post v s). eexists. split; [done|]. split.
      * apply spec_alloc; [set_solver|]. simpl. pose proof (ki_ref0 _ _ _ Hi) as H0.
        by apply Forall_cons in H0 as [? _].
      * split; [done|]. split; [done|]. exists L. split; [done|].
        pose proof (ki_nodup _ _ _ Hi) as Hnd. apply NoDup_cons in Hnd as [Hn _].
        simpl. set_solver.
  - destruct Hleg as [Hv Hne].
    pose proof (kmem_inv_not_free d s L v Hi Hne) as Hnin.
    pose proof (ki_u32 _ _ _ Hi (pfn v)) as Hru.
    assert (E : run_op (OpFree v) s = Ok 0 (if 1 <? referenceCounters s (pfn v)
      then kfree_shared v s else kfree_last v s)).
    { unfold run_op. erewrite bind_ok; [done|]. apply kfree_eq; auto. apply Hi. }
    destruct (Z.ltb_spec 1 (referenceCounters s (pfn v))) as [H1|H1].
    + exists 0, (kfree_shared v s). eexists. split; [done|].
      split; [by apply spec_free_shared|]. unfold kfree_shared.
      rewrite u32_small by klia. split; [done|]. split; [done|]. exists L.
      split; [|done]. apply kmem_inv_set_ref; auto. klia.
    + assert (referenceCounters s (pfn v) = 1) as E1 by klia.
      exists 0, (kfree_last v s). eexists. split; [done|].
      split; [apply spec_free_last; [done|set_solver]|].
      split; [done|]. split; [simpl; by rewrite E1|]. exists (v :: L).
      split; [apply kmem_inv_kfree_last; auto; lia|simpl; set_solver].
  - destruct Hleg as [Hv Hne].
    pose proof (kmem_inv_not_free d s L v Hi Hne) as Hnin.
    exists 0. do 2 eexists. split; [unfold run_op; erewrite bind_ok; [done|];
      apply incrementRef_eq; auto; apply Hi|].
    split; [apply spec_inc|]. repeat split; [done|]. exists L. split; [|done].
    apply kmem_inv_set_ref; auto with kern.
  - destruct Hleg as [Hv Hne].
    pose proof (kmem_inv_not_free d s L v Hi Hne) as Hnin.
    pose proof (ki_u32 _ _ _ Hi (pfn v)) as Hru.
    exists 0. do 2 eexists. split; [unfold run_op; erewrite bind_ok; [done|];
      apply decrementRef_eq; auto; apply Hi|].
    rewrite u32_small by klia.
    split; [apply spec_dec|]. repeat split; [done|]. exists L. split; [|done].
    apply kmem_inv_set_ref; auto. klia.
Qed.

(** Sequences of operations. *)
Fixpoint run_ops (ops : list kop) : M phys (list Z) :=
  match ops with
  | [] => mret []
  | o :: ops' => r ← run_op o; rs ← run_ops ops'; mret (r :: rs)
  end.

Inductive spec_run : astate → list (kop * Z) → astate → Prop :=
  | spec_run_nil a : spec_run a [] a
  | spec_run_cons a o r a' tr a'' :
      spec_step a o r a' → spec_run a' tr a'' → spec_run a ((o, r) :: tr) a''.

(** The client respects its obligations at every step of the run. *)
Fixpoint legal_ops (s : phys) (ops : list kop) : Prop :=
  match ops with
  | [] => True
  | o :: ops' =>
      legal {| a_free := ∅; a_ref := referenceCounters s |} o ∧
      ∀ r s', run_op o s = Ok r s' → legal_ops s' ops'
  end.


(** [kfree] of a page that nobody references panics once the kernel runs
    with locks: a double free cannot corrupt the free list. *)
Theorem kfree_unreferenced_panics s v :
  kmem_locked s = false → use_lock s = true → valid_page v →
  referenceCounters s (pfn v) = 0 →
  kfree v s = Err (Panic "kfree: ref is 0 and tried to kfree v").
Proof.
  intros Hl Hu Hv H0. unfold kfree, kmemLock, ref_get.
  rewrite kfree_guard, valid_page_ref_ok by done. fold (pfn v).
  unfold mbind, M_bind, gets, modify. destruct s as [m lk ul fl rc tot fr].
  simpl in *; subst; simpl. by rewrite H0.
Qed.

(** ** Boot *)

(** The [k] pages from [p] on. *)
Fixpoint page_run (p : Z) (k : nat) : list Z :=
  match k with
  | O => []
  | S k' => p :: page_run (p + PGSIZE) k'
  end.

Lemma page_run_elem p k v :
  v ∈ page_run p k ↔ ∃ i, 0 ≤ i < Z.of_nat k ∧ v = p + PGSIZE * i.
Proof.
  revert p. induction k as [|k IH]; intros p; simpl.
  - split; [set_solver|]. intros (?&?&?). lia.
  - rewrite elem_of_cons, IH. split.
    + intros [->|(i&?&->)]; [exists 0; klia|exists (i + 1); klia].
    + intros (i&?&->). destruct (decide (i = 0)) as [->|]; [left; klia|].
      right. exists (i - 1). klia.
Qed.

Lemma length_page_run p k : length (page_run p k) = k.
Proof. revert p. induction k; intros; simpl; auto. Qed.

(** Before the locks are on, [freerange] pushes every whole page of the range,
    the last one first. *)
Lemma freerange_loop_spec d k p vend s L :
  kmem_inv d s L → use_lock s = false →
  0 ≤ vend - p → Z.of_nat k = (vend - p) / PGSIZE →
  (∀ v, v ∈ page_run p k → valid_page v ∧ v ∉ L ∧ referenceCounters s (pfn v) = 0) →
  ∃ s', freerange_loop (S k) p vend s = Ok tt s' ∧
    kmem_inv d s' (reverse (page_run p k) ++ L) ∧ use_lock s' = false ∧
    total_system_pages s' = total_system_pages s ∧
    (∀ i, referenceCounters s' i = referenceCounters s i).
Proof.
  revert p s L. induction k as [|k IH]; intros p s L Hi Hu Hle Hk Hpg.
  - exists s. simpl. destruct (Z.leb_spec (p + PGSIZE) vend); [klia|done].
  - destruct (Hpg p) as (Hv & Hnin & H0); [simpl; set_solver|].
    cbn [freerange_loop]. destruct (Z.leb_spec (p + PGSIZE) vend); [|klia].
    erewrite bind_ok; [|apply kfree_eq; [apply Hi|done|by rewrite H0|congruence]].
    rewrite H0. simpl Z.ltb. cbv iota.
    assert (Hrc : referenceCounters (kfree_last p s) = referenceCounters s)
      by (unfold kfree_last; simpl; by rewrite H0).
    edestruct (IH (p + PGSIZE) (kfree_last p s) (p :: L)) as (s' & E & Hi' & Hu' & Ht & Hr).
    + apply kmem_inv_kfree_last; auto. lia.
    + done.
    + lia.
    + klia.
    + intros v Hv'. destruct (Hpg v) as (?&?&?); [simpl; set_solver|].
      split; [done|]. rewrite Hrc. split; [|done].
      apply page_run_elem in Hv' as (i&?&->). intros [E|?]%elem_of_cons; [klia|done].
    + exists s'. cbn [freerange_loop] in E. split; [done|].
      split; [|split; [done|split; [done|intros i; by rewrite Hr, Hrc]]].
      simpl. rewrite reverse_cons, <- app_assoc. done.
Qed.

Fixpoint kalloc_n (n : nat) : M phys unit :=
  match n with
  | O => mret tt
  | S n' => kalloc ;; kalloc_n n'
  end.

(** The order of [main]: the first 4 megabytes are given to the allocator,
    [n] pages are taken (by [kvmalloc] and [startothers]), then the rest of
    memory is given. *)
Definition boot (n : nat) : M phys unit :=
  kinit1 kend (P2V (4 * 1024 * 1024)) ;;
  kalloc_n n ;;
  kinit2 (P2V (4 * 1024 * 1024)) (P2V PHYSTOP).

Lemma kalloc_n_spec d n s L :
  kmem_inv d s L → (n ≤ length L)%nat →
  ∃ s', kalloc_n n s = Ok tt s' ∧ kmem_inv d s' (drop n L) ∧
    use_lock s' = use_lock s ∧ total_system_pages s' = total_system_pages s ∧
    (∀ i, referenceCounters s' i =
       if decide (i ∈ pfn <$> take n L) then 1 else referenceCounters s i).
Proof.
  revert s L. induction n as [|n IH]; intros s L Hi Hn.
  - exists s. repeat split; try apply Hi.
  - destruct L as [|v L]; simpl in Hn; [lia|].
    destruct (kmem_inv_kalloc d s v L Hi) as [E Hi'].
    destruct (IH _ _ Hi') as (s' & E' & Hi'' & Hu & Ht & Hr); [lia|].
    exists s'. split; [simpl; by erewrite bind_ok by done|].
    split; [done|]. split; [done|]. split; [done|]. intros i. rewrite Hr.
    unfold kalloc_post, upd. simpl.
    destruct (Z.eqb_spec i (pfn v)); repeat case_decide; set_solver.
Qed.

(** The pages of the pool: from the end of the kernel image to [PHYSTOP]. *)
Definition pool1 : list Z :=
  page_run (PGROUNDUP kend) (Z.to_nat ((P2V (4 * 1024 * 1024) - PGROUNDUP kend) / PGSIZE)).
Definition pool2 : list Z :=
  page_run (P2V (4 * 1024 * 1024)) (Z.to_nat ((P2V PHYSTOP - P2V (4 * 1024 * 1024)) / PGSIZE)).

Lemma PGROUNDUP_kend :
  ConfigOk →
  PGROUNDUP kend mod 4096 = 0 ∧ kend ≤ PGROUNDUP kend ≤ 0x80400000.
Proof.
  intros []. destruct (PGROUNDUP_least kend) as [? ?]; [klia|]. klia.
Qed.

Lemma pool1_elem v :
  ConfigOk → v ∈ pool1 → valid_page v ∧ v < 0x80400000.
Proof.
  intros Hc. pose proof (PGROUNDUP_kend Hc). destruct Hc.
  unfold pool1. change (P2V (4 * 1024 * 1024)) with 0x80400000.
  rewrite page_run_elem. intros (i & Hi & ->). unfold valid_page. klia.
Qed.

Lemma pool2_elem v :
  ConfigOk → v ∈ pool2 → valid_page v ∧ 0x80400000 ≤ v.
Proof.
  intros []. unfold pool2. change (P2V (4 * 1024 * 1024)) with 0x80400000.
  change (P2V PHYSTOP) with 0x8E000000. rewrite page_run_elem.
  intros (i & Hi & ->). unfold valid_page. klia.
Qed.

Lemma pool_total vstart vend :
  is_u32 vstart → is_u32 vend → vend mod 4096 = 0 → PGROUNDUP vstart ≤ vend →
  u32 (PGROUNDDOWN vend - PGROUNDUP vstart) / PGSIZE = (vend - PGROUNDUP vstart) / PGSIZE.
Proof.
  intros. assert (0 ≤ PGROUNDUP vstart).
  { rewrite PGROUNDUP_eq. pose proof (u32_range (vstart + 4095)). klia. }
  rewrite PGROUNDDOWN_eq, u32_small by klia. klia.
Qed.

Lemma kmem_inv_boot s :
  freelist s = 0 → system_free_pages s = 0 → (∀ i, referenceCounters s i = 0) →
  kmem_inv 0 (set_use_lock false (set_kmem_locked false s)) [].
Proof.
  intros Hf Hs Hr. split; simpl; try done.
  - constructor.
  - intros i. rewrite Hr. klia.
Qed.

Lemma kmem_inv_recount d d' s L tot c :
  kmem_inv d s L → c = u32 (Z.of_nat (length L) + d') →
  kmem_inv d' (set_system_free_pages c
    (set_use_lock true (set_total_system_pages tot s))) L.
Proof. intros [] ->. by split. Qed.

Lemma kinit1_spec s :
  ConfigOk → freelist s = 0 → system_free_pages s = 0 →
  (∀ i, referenceCounters s i = 0) →
  ∃ s', kinit1 kend (P2V (4 * 1024 * 1024)) s = Ok tt s' ∧
    kmem_inv 0 s' (reverse pool1) ∧ use_lock s' = false ∧
    total_system_pages s' = Z.of_nat (length pool1) ∧
    (∀ i, referenceCounters s' i = 0).
Proof.
  intros Hc Hf Hs Hr. pose proof (PGROUNDUP_kend Hc) as [Hal Hle].
  set (s1 := set_use_lock false (set_kmem_locked false s)).
  edestruct (freerange_loop_spec 0 (length pool1) (PGROUNDUP kend) 0x80400000 s1 [])
    as (s2 & E & Hi & Hu & Ht & Hrc).
  - by apply kmem_inv_boot.
  - done.
  - lia.
  - unfold pool1. rewrite length_page_run.
    change (P2V (4 * 1024 * 1024)) with 0x80400000. klia.
  - intros v Hv. unfold pool1 in Hv. rewrite length_page_run in Hv.
    destruct (pool1_elem v Hc Hv). split; [done|]. split; [set_solver|]. apply Hr.
  - rewrite app_nil_r in Hi.
    assert (Ep : page_run (PGROUNDUP kend) (length pool1) = pool1)
      by (unfold pool1 at 1; by rewrite length_page_run).
    rewrite Ep in Hi.
    unfold kinit1, freerange. change (P2V (4 * 1024 * 1024)) with 0x80400000.
    replace (Z.to_nat ((0x80400000 - PGROUNDUP kend) / PGSIZE)) with (length pool1)
      by (unfold pool1; rewrite length_page_run; done).
    eexists. split; [do 3 (erewrite bind_ok by done); done|].
    split; [destruct Hi; by split|]. split; [done|].
    split; [|intros i; simpl; rewrite Hrc; apply Hr].
    simpl. rewrite pool_total by (destruct Hc; klia).
    unfold pool1. rewrite length_page_run.
    change (P2V (4 * 1024 * 1024)) with 0x80400000. klia.
Qed.

Lemma length_pool2_eq :
  length pool2 = Z.to_nat ((P2V PHYSTOP - PGROUNDUP (P2V (4 * 1024 * 1024))) / PGSIZE).
Proof. unfold pool2. rewrite length_page_run. apply (f_equal Z.to_nat). reflexivity. Qed.

Lemma length_pool2 : Z.of_nat (length pool2) = 56320.
Proof. rewrite length_pool2_eq. rewrite Z2Nat.id; [reflexivity|discriminate]. Qed.

Lemma length_pool1 : ConfigOk → Z.of_nat (length pool1) < 2000.
Proof.
  intros Hc. unfold pool1. rewrite length_page_run.
  change (P2V (4 * 1024 * 1024)) with 0x80400000.
  pose proof (PGROUNDUP_kend Hc). destruct Hc. klia.
Qed.

Lemma page_run_pool2 : page_run 0x80400000 (length pool2) = pool2.
Proof. unfold pool2 at 1. by rewrite length_page_run. Qed.

Lemma pool2_total :
  u32 (PGROUNDDOWN (P2V PHYSTOP) - PGROUNDUP (P2V (4 * 1024 * 1024))) / PGSIZE = 56320.
Proof. done. Qed.

#[local] Opaque pool1 pool2.

(** After the boot sequence the free list holds exactly the pages of the
    pool that were not taken during it; but [kinit2] sets the free-page
    counter to the size of the whole pool, so it exceeds the real number of
    free pages by the [n] pages allocated before it ran. *)
Theorem boot_free_count n s :
  ConfigOk → (n ≤ length pool1)%nat →
  freelist s = 0 → system_free_pages s = 0 → (∀ i, referenceCounters s i = 0) →
  ∃ s' L, boot n s = Ok tt s' ∧ use_lock s' = true ∧
    L = reverse pool2 ++ drop n (reverse pool1) ∧ kmem_inv (Z.of_nat n) s' L ∧
    total_system_pages s' = Z.of_nat (length pool1 + length pool2) ∧
    system_free_pages s' = Z.of_nat (length L) + Z.of_nat n.
Proof.
  intros Hc Hn Hf Hs Hr.
  destruct (kinit1_spec s Hc Hf Hs Hr) as (s1 & E1 & Hi1 & Hu1 & Ht1 & Hr1).
  destruct (kalloc_n_spec 0 n s1 (reverse pool1) Hi1) as (s2 & E2 & Hi2 & Hu2 & Ht2 & Hr2).
  { by rewrite length_reverse. }
  edestruct (freerange_loop_spec 0 (length pool2) 0x80400000 0x8E000000 s2
    (drop n (reverse pool1))) as (s3 & E3 & Hi3 & Hu3 & Ht3 & Hr3).
  - done.
  - congruence.
  - lia.
  - by rewrite length_pool2.
  - intros v Hv. rewrite page_run_pool2 in Hv.
    destruct (pool2_elem v Hc Hv) as [Hv1 Hv2]. split; [done|]. split.
    + intros Hp%subseteq_drop. apply elem_of_reverse, pool1_elem in Hp as [_ ?]; [lia|done].
    + rewrite Hr2, decide_False; [apply Hr1|].
      rewrite list_elem_of_fmap. intros (w & Ew & Hw).
      apply elem_of_take in Hw as (j & Hw%list_elem_of_lookup_2 & _). rename Hw into Hp.
      apply elem_of_reverse, pool1_elem in Hp as [Hw1 ?]; [|done].
      apply pfn_inj in Ew; [lia|done|done].
  - rewrite page_run_pool2 in Hi3. unfold boot. erewrite bind_ok by exact E1.
    erewrite bind_ok by exact E2. unfold kinit2, freerange.
    erewrite bind_ok; [|rewrite length_pool2_eq in E3; exact E3].
    unfold mbind, M_bind, modify; simpl.
    rewrite Ht3, Ht2, Ht1. rewrite pool2_total.
    pose proof (length_pool2). pose proof (length_pool1 Hc).
    rewrite (u32_small (_ + 56320)) by klia.
    eexists _, _. split; [reflexivity|]. split; [reflexivity|]. split; [reflexivity|].
    split; [|split; simpl; [lia|]].
    + eapply kmem_inv_recount; [exact Hi3|].
      rewrite length_app, length_drop, !length_reverse.
      rewrite u32_small; klia.
    + rewrite length_app, length_drop, !length_reverse. lia.
Qed.

End Kalloc.

(** ** Concrete runs *)

(** Two free pages, locks on. *)
Definition demo_phys : phys :=
  mkPhys (st32 (λ _, 0) (V2P 0x80200000) 0x80201000) false true 0x80200000
    (λ _, 0) 2 2.

Lemma demo_phys_inv :
  @kmem_inv (demo_config SCFIFO) 0 demo_phys [0x80200000; 0x80201000].
Proof.
  split; simpl; try done.
  - repeat constructor; set_solver.
  - repeat constructor; done.
  - repeat constructor; done.
Qed.


Lemma kfree_unreferenced_panics_witness :
  @kfree (demo_config SCFIFO) 0x80300000 demo_phys
    = Err (Panic "kfree: ref is 0 and tried to kfree v").
Proof. apply (kfree_unreferenced_panics (H := demo_config SCFIFO)); done. Defined.

(** The state at power-on: zeroed data segment. *)
Definition zero_phys : phys := mkPhys (λ _, 0) false false 0 (λ _, 0) 0 0.

Lemma boot_free_count_witness :
  ∃ s' L, @boot (demo_config SCFIFO) 65 zero_phys = Ok tt s' ∧
    system_free_pages s' = Z.of_nat (length L) + 65 ∧
    @kmem_inv (demo_config SCFIFO) 65 s' L.
Proof.
  destruct (boot_free_count (H := demo_config SCFIFO) 65 zero_phys)
    as (s' & L & E & _ & _ & Hi & _ & Hc).
  - apply demo_config_ok.
  - unfold pool1. rewrite length_page_run. vm_compute. lia.
  - done.
  - done.
  - done.
  - exists s', L. split; [exact E|]. split; [exact Hc|exact Hi].
Defined.
