(* ===== verification/PageTable.v ===== *)
(** * PageTable: the two-level page tables of [vm.c]

    [walkpgdir], [mappages] and the routines that read or change a single
    entry.  A page directory is named by its kernel address; its tables and
    itself are pages of physical memory taken from the allocator. *)

From S2P Require Import Prelude Mmu Phys Config Kalloc.

Section PageTable.
Context `{Config}.

(** ** Operations *)

(** The result is the kernel address of the entry, or 0. *)
Definition walkpgdir (pgdir va : Z) (alloc : bool) : M phys Z :=
  let pde := pgdir + 4 * PDX va in
  e ← kload32 pde;
  if has e PTE_P then
    mret (P2V (PTE_ADDR e) + 4 * PTX va)
  else if negb alloc then mret 0
  else
    pgtab ← kalloc;
    if pgtab =? 0 then mret 0
    else
      kmemset pgtab 0 PGSIZE ;;
      kstore32 pde (Z.lor (Z.lor (Z.lor (V2P pgtab) PTE_P) PTE_W) PTE_U) ;;
      mret (pgtab + 4 * PTX va).

(** The [for(;;)] of [mappages]: leaves through [a == last] or out of memory. *)
Fixpoint mappages_loop (fuel : nat) (pgdir a last pa perm : Z) : M phys Z :=
  match fuel with
  | O => fail NoFuel
  | S fuel' =>
      pte ← walkpgdir pgdir a true;
      if pte =? 0 then mret (-1)
      else
        e ← kload32 pte;
        if has e PTE_P then panic "remap"
        else
          kstore32 pte (Z.lor (Z.lor pa perm) PTE_P) ;;
          if a =? last then mret 0
          else mappages_loop fuel' pgdir (u32 (a + PGSIZE)) last
                 (u32 (pa + PGSIZE)) perm
  end.

(** [last - a] is a multiple of the page size, so the loop meets [last] after
    that many pages. *)
Definition mappages (pgdir va size pa perm : Z) : M phys Z :=
  let a := PGROUNDDOWN va in
  let last := PGROUNDDOWN (u32 (va + size - 1)) in
  mappages_loop (S (Z.to_nat (u32 (last - a) / PGSIZE))) pgdir a last pa perm.

Definition walkpgdir_aux := walkpgdir.
Definition mappages_aux := mappages.

Definition clearpteu (pgdir uva : Z) : M phys unit :=
  pte ← walkpgdir pgdir uva false;
  if pte =? 0 then panic "clearpteu"
  else e ← kload32 pte; kstore32 pte (Z.land e (notu PTE_U)).

(** [uva2ka] does not test [pte] for 0 before it reads it. *)
Definition uva2ka (pgdir uva : Z) : M phys Z :=
  pte ← walkpgdir pgdir uva false;
  e ← kload32 pte;
  if Z.land e PTE_P =? 0 then mret 0
  else if Z.land e PTE_U =? 0 then mret 0
  else mret (P2V (PTE_ADDR e)).

(** The [while(len > 0)] of [copyout]; [buf] is what is left to copy. *)
Fixpoint copyout_loop (fuel : nat) (pgdir va : Z) (buf : list Z) : M phys Z :=
  match fuel with
  | O => fail NoFuel
  | S fuel' =>
      if (length buf =? 0)%nat then mret 0
      else
        let len := Z.of_nat (length buf) in
        let va0 := PGROUNDDOWN va in
        pa0 ← uva2ka pgdir va0;
        if pa0 =? 0 then mret (-1)
        else
          let n := PGSIZE - (va - va0) in
          let n := if len <? n then len else n in
          kstore_bytes (pa0 + (va - va0)) (take (Z.to_nat n) buf) ;;
          copyout_loop fuel' pgdir (u32 (va0 + PGSIZE)) (drop (Z.to_nat n) buf)
  end.

(** Each iteration but the last ends on a page boundary. *)
Definition copyout (pgdir va : Z) (p : list Z) : M phys Z :=
  copyout_loop (length p + 2) pgdir va p.

Definition inituvm (pgdir : Z) (init : list Z) : M phys unit :=
  if PGSIZE <=? Z.of_nat (length init) then panic "inituvm: more than a page"
  else
    mem ← kalloc;
    kmemset mem 0 PGSIZE ;;
    mappages pgdir 0 PGSIZE (V2P mem) (Z.lor PTE_W PTE_U) ;;
    kstore_bytes mem init.

Definition setFlagsOnSwap (pgdir virtAddr : Z) (swapIn : bool) : M phys unit :=
  pte ← walkpgdir pgdir virtAddr false;
  if pte =? 0 then panic "setFlagsOnSwap: pte == 0"
  else if swapIn then
    e ← kload32 pte; kstore32 pte (Z.land e (notu PTE_PG)) ;;
    e ← kload32 pte; kstore32 pte (Z.lor e PTE_P)
  else
    e ← kload32 pte; kstore32 pte (Z.land e (notu PTE_P)) ;;
    e ← kload32 pte; kstore32 pte (Z.lor e PTE_PG).

Definition is_PTE_A (pgdir virtualAddr : Z) : M phys bool :=
  pte ← walkpgdir pgdir virtualAddr false;
  if pte =? 0 then panic "is_PTE_A: fail"
  else e ← kload32 pte; mret (has e PTE_A).

Definition PTE_A_off (pgdir virtualAddr : Z) : M phys unit :=
  pte ← walkpgdir pgdir virtualAddr false;
  if pte =? 0 then panic "PTE_A_off: fail"
  else e ← kload32 pte; kstore32 pte (Z.land e (notu PTE_A)).

(** ** What the hardware reads

    [tab m pgdir i] is the kernel address of the table the [i]-th directory
    entry points to; [lookup_pte m pgdir va] the entry of [va], 0 where there
    is no table; [translate] the physical address a user access to [va]
    reaches. *)

Definition tab (m : memory) (pgdir i : Z) : option Z :=
  let e := ld32 m (V2P pgdir + 4 * i) in
  if has e PTE_P then Some (P2V (PTE_ADDR e)) else None.

Definition lookup_pte (m : memory) (pgdir va : Z) : Z :=
  match tab m pgdir (PDX va) with
  | Some t => ld32 m (V2P t + 4 * PTX va)
  | None => 0
  end.

Definition translate (m : memory) (pgdir va : Z) : option Z :=
  let e := lookup_pte m pgdir va in
  if has e PTE_P then Some (PTE_ADDR e + va mod PGSIZE) else None.

(** ** Well-formed families of page directories

    [pt_wf m PG L]: the directories [PG] and their tables are pages of the
    pool, none of them is free, and no page plays two roles. *)

Record pt_wf (m : memory) (PG L : list Z) : Prop := {
  pw_dirs : ∀ pg, pg ∈ PG → valid_page pg ∧ pg ∉ L;
  pw_tabs : ∀ pg i t, pg ∈ PG → 0 ≤ i < 1024 → tab m pg i = Some t →
    valid_page t ∧ t ∉ L ∧ t ∉ PG;
  pw_inj : ∀ pg pg' i j t, pg ∈ PG → pg' ∈ PG →
    0 ≤ i < 1024 → 0 ≤ j < 1024 →
    tab m pg i = Some t → tab m pg' j = Some t → pg = pg' ∧ i = j
}.

(** Two virtual addresses on the same page. *)
Definition same_page (va va' : Z) : Prop := PDX va = PDX va' ∧ PTX va = PTX va'.

(** ** Slots: the 1024 words of a page *)

Lemma slot_kaddr p k : valid_page p → 0 ≤ k < 1024 → kaddr_ok (p + 4 * k) 4 = true.
Proof. intros (?&?&?) ?. apply kaddr_ok_true. klia. Qed.

Lemma slot_V2P p k : valid_page p → 0 ≤ k < 1024 → V2P (p + 4 * k) = V2P p + 4 * k.
Proof. intros (?&?&?) ?. rewrite !V2P_direct by klia. lia. Qed.

Lemma slot_nonzero p k : valid_page p → 0 ≤ k → (p + 4 * k =? 0) = false.
Proof. intros (?&?&?) ?. apply Z.eqb_neq. klia. Qed.

Lemma slot_disjoint p k p' k' :
  valid_page p → valid_page p' → 0 ≤ k < 1024 → 0 ≤ k' < 1024 →
  p ≠ p' ∨ k ≠ k' →
  V2P p + 4 * k + 4 ≤ V2P p' + 4 * k' ∨ V2P p' + 4 * k' + 4 ≤ V2P p + 4 * k.
Proof.
  intros Hp Hp' Hk Hk' Hne. destruct (decide (p = p')) as [->|Hpp].
  - destruct Hne; [done|lia].
  - destruct (pages_disjoint p p' Hp Hp' Hpp); lia.
Qed.

(** [m'] has the same bytes as [m] in page [v]. *)
Definition agree_page (m m' : memory) (v : Z) : Prop :=
  ∀ x, V2P v ≤ x < V2P v + 4096 → ld8 m' x = ld8 m x.

Lemma agree_page_ld32 m m' v k :
  agree_page m m' v → 0 ≤ k < 1024 → ld32 m' (V2P v + 4 * k) = ld32 m (V2P v + 4 * k).
Proof. intros Ha Hk. apply ld32_ext. intros i Hi. apply Ha. lia. Qed.

Lemma agree_page_refl m v : agree_page m m v.
Proof. done. Qed.

Lemma agree_page_trans m1 m2 m3 v :
  agree_page m1 m2 v → agree_page m2 m3 v → agree_page m1 m3 v.
Proof. intros H1 H2 x Hx. by rewrite H2, H1. Qed.

Lemma agree_page_st32 m p k w v :
  valid_page p → valid_page v → 0 ≤ k < 1024 → p ≠ v →
  agree_page m (st32 m (V2P p + 4 * k) w) v.
Proof.
  intros Hp Hv Hk Hne x Hx. apply ld8_st32_ne.
  destruct (pages_disjoint p v Hp Hv Hne); lia.
Qed.

Lemma agree_page_fill m p c v :
  valid_page p → valid_page v → p ≠ v → agree_page m (fill m (V2P p) PGSIZE c) v.
Proof.
  intros Hp Hv Hne x Hx. apply ld8_fill_out.
  destruct (pages_disjoint p v Hp Hv Hne); klia.
Qed.

Lemma agree_page_copy m p src v :
  valid_page p → valid_page v → p ≠ v → agree_page m (copy m (V2P p) src PGSIZE) v.
Proof.
  intros Hp Hv Hne x Hx. apply ld8_copy_out.
  destruct (pages_disjoint p v Hp Hv Hne); klia.
Qed.

(** ** Framing *)

(** The pages that hold the page tables of the family. *)
Definition pt_page (m : memory) (PG : list Z) (v : Z) : Prop :=
  v ∈ PG ∨ ∃ pg i, pg ∈ PG ∧ 0 ≤ i < 1024 ∧ tab m pg i = Some v.

Lemma pt_page_valid m PG L v : pt_wf m PG L → pt_page m PG v → valid_page v ∧ v ∉ L.
Proof.
  intros Hw [Hv|(pg & i & Hpg & Hi & Ht)]; [by apply (pw_dirs _ _ _ Hw)|].
  by destruct (pw_tabs _ _ _ Hw pg i v Hpg Hi Ht) as (?&?&?).
Qed.

Lemma tab_frame m m' pg i :
  agree_page m m' pg → 0 ≤ i < 1024 → tab m' pg i = tab m pg i.
Proof. intros Ha Hi. unfold tab. by rewrite (agree_page_ld32 m m'). Qed.

Lemma lookup_pte_frame m m' PG pg va :
  (∀ v, pt_page m PG v → agree_page m m' v) → pg ∈ PG →
  lookup_pte m' pg va = lookup_pte m pg va.
Proof.
  intros Ha Hpg. unfold lookup_pte. pose proof (PDX_range va). pose proof (PTX_range va).
  rewrite (tab_frame m m') by (try apply Ha; auto; by left).
  destruct (tab m pg (PDX va)) as [t|] eqn:Et; [|done].
  apply agree_page_ld32; [|done]. apply Ha. right. eauto.
Qed.

Lemma pt_wf_frame m m' PG L :
  (∀ v, pt_page m PG v → agree_page m m' v) → pt_wf m PG L → pt_wf m' PG L.
Proof.
  intros Ha [Hd Ht Hi].
  assert (Hag : ∀ pg i, pg ∈ PG → 0 ≤ i < 1024 → tab m' pg i = tab m pg i)
    by (intros; apply tab_frame; [apply Ha; by left|done]).
  split; [done|..].
  - intros pg i t Hpg Hr Et. rewrite Hag in Et by done. eauto.
  - intros pg pg' i j t Hpg Hpg' Hr Hr' Et Et'. rewrite Hag in Et, Et' by done. eauto.
Qed.

(** The tables are found through the directories. *)
Lemma pt_page_frame m m' PG :
  (∀ pg, pg ∈ PG → agree_page m m' pg) → ∀ v, pt_page m' PG v ↔ pt_page m PG v.
Proof.
  intros Ha v. unfold pt_page. split; (intros [?|(pg & i & ? & ? & Et)]; [by left|right; exists pg, i]).
  - rewrite (tab_frame m m') in Et by auto. done.
  - rewrite (tab_frame m m') by auto. done.
Qed.

(** A page that is no page table may become free. *)
Lemma pt_wf_free_insert m PG L f : pt_wf m PG L → ¬ pt_page m PG f → pt_wf m PG (f :: L).
Proof.
  intros [Hd Ht Hi] Hf. split; [..|done].
  - intros pg Hpg. destruct (Hd pg Hpg). split; [done|].
    intros [->|?]%elem_of_cons; [|done]. apply Hf. by left.
  - intros pg i t Hpg Hr Et. destruct (Ht pg i t Hpg Hr Et) as (?&?&?).
    split; [done|]. split; [|done]. intros [->|?]%elem_of_cons; [|done].
    apply Hf. right. eauto.
Qed.

(** Free pages that were taken off the list are not needed. *)
Lemma pt_wf_free_subset m PG L L' : pt_wf m PG L → L' ⊆ L → pt_wf m PG L'.
Proof.
  intros [Hd Ht Hi] HL. split; [|..|done].
  - intros pg Hpg. destruct (Hd pg Hpg). split; [done|set_solver].
  - intros pg i t Hpg Hr Et. destruct (Ht pg i t Hpg Hr Et) as (?&?&?).
    split; [done|]. set_solver.
Qed.

(** ** One entry *)

Section Entry.
Context (m : memory) (PG L : list Z) (pg va t w : Z).
Hypothesis Hwf : pt_wf m PG L.
Hypothesis Hpg : pg ∈ PG.
Hypothesis Ht : tab m pg (PDX va) = Some t.
Let m' := st32 m (V2P t + 4 * PTX va) w.

Lemma entry_valid : valid_page t ∧ t ∉ L ∧ t ∉ PG.
Proof. eapply pw_tabs; eauto using PDX_range. Qed.

Lemma entry_tab pg' i : pg' ∈ PG → 0 ≤ i < 1024 → tab m' pg' i = tab m pg' i.
Proof.
  intros Hpg' Hi. destruct entry_valid as (Hv & _ & Hnp).
  apply tab_frame; [|done]. apply agree_page_st32; [done| |apply PTX_range|].
  - by apply (pw_dirs _ _ _ Hwf).
  - intros ->. done.
Qed.

Lemma entry_wf : pt_wf m' PG L.
Proof.
  destruct Hwf as [Hd Htb Hinj]. split; [done|..].
  - intros pg' i t' Hpg' Hr. rewrite entry_tab by done. eauto.
  - intros pg1 pg2 i j t' H1 H2 Hr1 Hr2. rewrite !entry_tab by done. eauto.
Qed.

Lemma entry_lookup_eq va' :
  is_u32 w → same_page va va' → lookup_pte m' pg va' = w.
Proof.
  intros Hw [Ed Et]. unfold lookup_pte. rewrite <- Ed, <- Et.
  rewrite entry_tab by (auto using PDX_range). rewrite Ht. by apply ld32_st32.
Qed.

Lemma entry_lookup_ne pg' va' :
  pg' ∈ PG → ¬ (pg' = pg ∧ same_page va va') →
  lookup_pte m' pg' va' = lookup_pte m pg' va'.
Proof.
  intros Hpg' Hne. unfold lookup_pte.
  rewrite entry_tab by (auto using PDX_range).
  destruct (tab m pg' (PDX va')) as [t'|] eqn:Et'; [|done].
  destruct entry_valid as (Hv & _ & _).
  destruct (pw_tabs _ _ _ Hwf pg' _ _ Hpg' (PDX_range va') Et') as (Hv' & _ & _).
  apply ld32_st32_ne. apply slot_disjoint; auto using PTX_range.
  destruct (decide (t = t')) as [->|]; [right|by left]. intros Ep. apply Hne.
  destruct (pw_inj _ _ _ Hwf pg' pg (PDX va') (PDX va) t'); auto using PDX_range.
  split; [done|]. by split.
Qed.
End Entry.

(** ** [walkpgdir] *)

Lemma walkpgdir_some s pg va alloc t :
  valid_page pg → tab (mem s) pg (PDX va) = Some t →
  walkpgdir pg va alloc s = Ok (t + 4 * PTX va) s.
Proof.
  intros Hv Ht. unfold walkpgdir. pose proof (PDX_range va).
  erewrite bind_ok; [|apply kload32_eq; by apply slot_kaddr].
  rewrite slot_V2P by done. unfold tab in Ht.
  destruct (has _ PTE_P); [|done]. by injection Ht as ->.
Qed.

Lemma walkpgdir_none s pg va :
  valid_page pg → tab (mem s) pg (PDX va) = None → walkpgdir pg va false s = Ok 0 s.
Proof.
  intros Hv Ht. unfold walkpgdir. pose proof (PDX_range va).
  erewrite bind_ok; [|apply kload32_eq; by apply slot_kaddr].
  rewrite slot_V2P by done. unfold tab in Ht. by destruct (has _ PTE_P).
Qed.

(** What an operation on the tables of the family [PG] leaves: [f] gives the
    entries afterwards; [L'] is what remains of the free list [L], the pages
    taken from it having become page tables; pages that are neither free nor
    page tables keep their contents, and pages that are not free keep their
    counters. *)
Record vm_post (d : Z) (PG : list Z) (s : phys) (L : list Z) (s' : phys)
    (L' : list Z) (f : Z → Z → Z) : Prop := {
  vp_inv : kmem_inv d s' L';
  vp_wf : pt_wf (mem s') PG L';
  vp_suffix : ∃ A, L = A ++ L';
  vp_lookup : ∀ pg va, pg ∈ PG → is_u32 va → lookup_pte (mem s') pg va = f pg va;
  vp_frame : ∀ v, valid_page v → v ∉ L → ¬ pt_page (mem s) PG v →
    agree_page (mem s) (mem s') v;
  vp_pt : ∀ v, pt_page (mem s') PG v ↔ pt_page (mem s) PG v ∨ (v ∈ L ∧ v ∉ L');
  vp_new : ∀ v, v ∈ L → v ∉ L' → referenceCounters s' (pfn v) = 1;
  vp_refs : ∀ v, valid_page v → v ∉ L →
    referenceCounters s' (pfn v) = referenceCounters s (pfn v);
  vp_use_lock : use_lock s' = use_lock s
}.

Lemma vm_post_refl d PG s L :
  kmem_inv d s L → pt_wf (mem s) PG L →
  vm_post d PG s L s L (lookup_pte (mem s)).
Proof.
  intros. split; auto; [by exists []|by intros; apply agree_page_refl| |done].
  intros v. split; [by left|]. by intros [?|[? ?]].
Qed.

Lemma vm_post_trans d PG s L s1 L1 f1 s2 L2 f2 :
  vm_post d PG s L s1 L1 f1 → vm_post d PG s1 L1 s2 L2 f2 →
  vm_post d PG s L s2 L2 f2.
Proof.
  intros [Hi1 Hw1 [A1 E1] Hl1 Hf1 Hp1 Hn1 Hr1 Hu1] [Hi2 Hw2 [A2 E2] Hl2 Hf2 Hp2 Hn2 Hr2 Hu2].
  assert (HL : ∀ v, v ∈ L1 → v ∈ L) by set_solver.
  assert (HL2 : ∀ v, v ∈ L2 → v ∈ L1) by set_solver.
  split; auto.
  - exists (A1 ++ A2). subst. by rewrite <- app_assoc.
  - intros v Hv Hn Hp. eapply agree_page_trans; [by apply Hf1|].
    apply Hf2; [done|by intros ?%HL|]. rewrite Hp1. by intros [?|[? ?]].
  - intros v. rewrite Hp2, Hp1. pose proof (HL v). pose proof (HL2 v).
    destruct (decide (v ∈ L1)); tauto.
  - intros v Hv Hn. destruct (decide (v ∈ L1)) as [|Hv1]; [by apply Hn2|].
    assert (Hpt : pt_page (mem s1) PG v) by (apply Hp1; by right).
    destruct (pt_page_valid _ _ _ _ Hw1 Hpt). rewrite Hr2 by done. by apply Hn1.
  - intros v Hv Hn. rewrite Hr2, Hr1; [done|done|done|done|set_solver].
  - congruence.
Qed.

Lemma vm_post_ext d PG s L s' L' f g :
  vm_post d PG s L s' L' f →
  (∀ pg va, pg ∈ PG → is_u32 va → f pg va = g pg va) →
  vm_post d PG s L s' L' g.
Proof. intros [] E. split; auto. intros. rewrite <- E; auto. Qed.

(** Memory changes outside the free pages keep the allocator's invariant. *)
Lemma kmem_inv_set_mem d s L m :
  kmem_inv d s L → (∀ v, v ∈ L → agree_page (mem s) m v) → kmem_inv d (set_mem m s) L.
Proof.
  intros [] Ha. split; simpl; try done. eapply is_freelist_frame; [|done].
  intros v Hv. rewrite <- (Z.add_0_r (V2P v)).
  by apply (agree_page_ld32 _ _ v 0 (Ha v Hv)).
Qed.

Lemma new_pde v : valid_page v →
  let e := Z.lor (Z.lor (Z.lor (V2P v) PTE_P) PTE_W) PTE_U in
  is_u32 e ∧ has e PTE_P = true ∧ P2V (PTE_ADDR e) = v.
Proof.
  intros Hv e. destruct (valid_page_pfn v Hv) as (E & Hr & _).
  assert (Hu : is_u32 (V2P v)) by apply u32_range.
  split; [repeat apply is_u32_lor; done|]. split; [subst e; by flags|].
  subst e. rewrite !PTE_ADDR_set by done. rewrite PTE_ADDR_eq by done.
  replace (V2P v - V2P v mod 4096) with (V2P v) by dlia.
  apply P2V_V2P. destruct Hv as (?&?&?). klia.
Qed.

(** Taking the first free page [v] as the table of directory entry [i]. *)
Definition grow_tab (pg i v : Z) (s : phys) : phys :=
  set_mem (st32 (fill (mem s) (V2P v) PGSIZE 0) (V2P pg + 4 * i)
    (Z.lor (Z.lor (Z.lor (V2P v) PTE_P) PTE_W) PTE_U)) (kalloc_post v s).

Section Grow.
Context (d : Z) (s : phys) (PG L : list Z) (pg i v : Z).
Hypothesis Hinv : kmem_inv d s (v :: L).
Hypothesis Hwf : pt_wf (mem s) PG (v :: L).
Hypothesis Hpg : pg ∈ PG.
Hypothesis Hi : 0 ≤ i < 1024.
Hypothesis Hnone : tab (mem s) pg i = None.

Lemma grow_fresh :
  valid_page v ∧ valid_page pg ∧ v ≠ pg ∧ v ∉ PG ∧ v ∉ L ∧
  ¬ pt_page (mem s) PG v.
Proof using Hinv Hwf Hpg.
  clear Hi Hnone. pose proof (ki_valid _ _ _ Hinv) as Hv. apply Forall_cons in Hv as [Hv _].
  pose proof (ki_nodup _ _ _ Hinv) as Hnd. apply NoDup_cons in Hnd as [Hn _].
  destruct (pw_dirs _ _ _ Hwf pg Hpg) as [Hvp Hnp].
  assert (Hp : ¬ pt_page (mem s) PG v).
  { intros Hp. destruct (pt_page_valid _ _ _ _ Hwf Hp). set_solver. }
  split; [done|]. split; [done|]. split; [set_solver|].
  split; [|split; [done|done]]. intros Hin. apply Hp. by left.
Qed.

(** Nothing but [v] and the directory [pg] is written. *)
Lemma grow_agree w :
  valid_page w → w ≠ v → w ≠ pg → agree_page (mem s) (mem (grow_tab pg i v s)) w.
Proof using Hinv Hwf Hpg Hi.
  intros Hw Hwv Hwp. destruct grow_fresh as (Hv & Hvp & _). simpl.
  eapply agree_page_trans; [apply (agree_page_fill _ v 0)|apply agree_page_st32]; auto.
Qed.

Lemma grow_tab_eq : tab (mem (grow_tab pg i v s)) pg i = Some v.
Proof using Hinv Hwf Hpg.
  destruct grow_fresh as (Hv & _). destruct (new_pde v Hv) as (Hu & Hp & Ha).
  unfold tab. simpl. rewrite ld32_st32 by done. by rewrite Hp, Ha.
Qed.

Lemma grow_tab_ne pg' j :
  pg' ∈ PG → 0 ≤ j < 1024 → ¬ (pg' = pg ∧ j = i) →
  tab (mem (grow_tab pg i v s)) pg' j = tab (mem s) pg' j.
Proof using Hinv Hwf Hpg Hi.
  clear Hnone. intros Hpg' Hj Hne. destruct grow_fresh as (Hv & Hvp & _ & HvPG & _).
  destruct (pw_dirs _ _ _ Hwf pg' Hpg') as [Hvp' _].
  unfold tab. simpl. rewrite ld32_st32_ne.
  - rewrite (agree_page_ld32 (mem s)); [done| |done].
    apply agree_page_fill; [done|done|]. intros ->. done.
  - apply slot_disjoint; auto. destruct (decide (pg = pg')) as [->|]; [right|by left].
    intros ->. by apply Hne.
Qed.

Lemma grow_lookup pg' va :
  pg' ∈ PG → lookup_pte (mem (grow_tab pg i v s)) pg' va = lookup_pte (mem s) pg' va.
Proof.
  intros Hpg'. pose proof (PDX_range va). pose proof (PTX_range va).
  destruct grow_fresh as (Hv & Hvp & Hne & HvPG & _ & Hnpt). unfold lookup_pte.
  destruct (decide (pg' = pg ∧ PDX va = i)) as [[-> E]|Hn].
  - rewrite E, grow_tab_eq, Hnone. simpl.
    rewrite ld32_st32_ne by (apply slot_disjoint; auto).
    apply ld32_fill_0; klia.
  - rewrite grow_tab_ne by done.
    destruct (tab (mem s) pg' (PDX va)) as [t|] eqn:Et; [|done].
    destruct (pw_tabs _ _ _ Hwf pg' _ t Hpg' (PDX_range va) Et) as (Hvt & _ & Htp).
    apply agree_page_ld32; [|done]. apply grow_agree; [done| |set_solver].
    intros ->. apply Hnpt. right. eauto.
Qed.
End Grow.

Lemma grow_pt_page d s PG L pg i v w :
  kmem_inv d s (v :: L) → pt_wf (mem s) PG (v :: L) → pg ∈ PG → 0 ≤ i < 1024 →
  tab (mem s) pg i = None →
  pt_page (mem (grow_tab pg i v s)) PG w ↔ w = v ∨ pt_page (mem s) PG w.
Proof.
  intros Hinv Hwf Hpg Hi Hn. split.
  - intros [Hw|(pg' & j & Hpg' & Hj & Ht)]; [right; by left|].
    destruct (decide (pg' = pg ∧ j = i)) as [[-> ->]|Hne].
    + rewrite (grow_tab_eq d s PG L) in Ht by done. left. congruence.
    + rewrite (grow_tab_ne d s PG L) in Ht by done. right. right. eauto.
  - intros [->|[Hw|(pg' & j & Hpg' & Hj & Ht)]]; [|by left|].
    + right. exists pg, i. rewrite (grow_tab_eq d s PG L); done.
    + right. exists pg', j. split; [done|]. split; [done|].
      rewrite (grow_tab_ne d s PG L); [done..|]. intros [-> ->]. congruence.
Qed.

Lemma grow_post d s PG L pg i v :
  kmem_inv d s (v :: L) → pt_wf (mem s) PG (v :: L) → pg ∈ PG → 0 ≤ i < 1024 →
  tab (mem s) pg i = None →
  vm_post d PG s (v :: L) (grow_tab pg i v s) L (lookup_pte (mem s)).
Proof.
  intros Hinv Hwf Hpg Hi Hn.
  destruct (grow_fresh d s PG L pg v Hinv Hwf Hpg) as (Hv & Hvp & Hne & HvPG & HvL & Hnpt).
  destruct (kmem_inv_kalloc d s v L Hinv) as [_ Hinv'].
  pose proof (grow_tab_ne d s PG L pg i v Hinv Hwf Hpg Hi) as Htn.
  pose proof (grow_tab_eq d s PG L pg i v Hinv Hwf Hpg) as Hte.
  split.
  - apply (kmem_inv_set_mem d (kalloc_post v s)); [done|]. intros w Hw.
    pose proof (proj1 (Forall_forall _ _) (ki_valid _ _ _ Hinv') w Hw) as Hvw.
    apply (grow_agree d s PG L pg i v); auto; [intros ->; done|].
    intros ->. destruct (pw_dirs _ _ _ Hwf pg Hpg). set_solver.
  - split.
    + intros pg' Hpg'. destruct (pw_dirs _ _ _ Hwf pg' Hpg'). set_solver.
    + intros pg' j t Hpg' Hj Ht. destruct (decide (pg' = pg ∧ j = i)) as [[-> ->]|Hd].
      * rewrite Hte in Ht. injection Ht as <-. done.
      * rewrite Htn in Ht by done.
        destruct (pw_tabs _ _ _ Hwf pg' j t Hpg' Hj Ht) as (?&?&?). set_solver.
    + assert (Hno : ∀ pg' j, pg' ∈ PG → 0 ≤ j < 1024 → tab (mem s) pg' j ≠ Some v).
      { intros pg' j ? ? Ht. apply Hnpt. right. eauto. }
      intros pg1 pg2 j1 j2 t H1 H2 Hj1 Hj2 Ht1 Ht2.
      destruct (decide (pg1 = pg ∧ j1 = i)) as [[-> ->]|Hd1],
        (decide (pg2 = pg ∧ j2 = i)) as [[-> ->]|Hd2];
        rewrite ?Hte, ?Htn in Ht1 by done; rewrite ?Hte, ?Htn in Ht2 by done.
      * done.
      * exfalso. apply (Hno pg2 j2); congruence.
      * exfalso. apply (Hno pg1 j1); congruence.
      * by apply (pw_inj _ _ _ Hwf pg1 pg2 j1 j2 t).
  - by exists [v].
  - intros pg' va Hpg' _. by apply (grow_lookup d s PG L).
  - intros w Hw HwL Hwp.
    apply (grow_agree d s PG L); auto; [set_solver|]. intros ->. apply Hwp. by left.
  - intros w. rewrite (grow_pt_page d s PG L) by done. split.
    + intros [->|?]; [right|by left]. split; [left|done].
    + intros [?|[[->|?]%elem_of_cons ?]]; [by right|by left|done].
  - intros w [->|?]%elem_of_cons Hn'; [|done]. simpl. by rewrite upd_eq.
  - intros w Hw HwL. simpl. apply upd_ne. intros E. apply pfn_inj in E; set_solver.
  - done.
Qed.

(** [walkpgdir] with [alloc]: it fails only when memory is exhausted, and
    otherwise leaves every entry of every address space as it was. *)
Lemma walkpgdir_alloc_spec d s PG L pg va :
  kmem_inv d s L → pt_wf (mem s) PG L → pg ∈ PG →
  (L = [] ∧ walkpgdir pg va true s = Ok 0 s) ∨
  ∃ t s' L', walkpgdir pg va true s = Ok (t + 4 * PTX va) s' ∧
    tab (mem s') pg (PDX va) = Some t ∧
    vm_post d PG s L s' L' (lookup_pte (mem s)).
Proof.
  intros Hinv Hwf Hpg. destruct (pw_dirs _ _ _ Hwf pg Hpg) as [Hv _].
  pose proof (PDX_range va) as Hr.
  destruct (tab (mem s) pg (PDX va)) as [t|] eqn:Et.
  - right. exists t, s, L. split; [by apply walkpgdir_some|].
    split; [done|]. by apply vm_post_refl.
  - unfold walkpgdir. erewrite bind_ok; [|apply kload32_eq; by apply slot_kaddr].
    rewrite slot_V2P by done. unfold tab in Et at 1.
    destruct (has _ PTE_P) eqn:Ep; [done|]. simpl.
    destruct L as [|v L].
    + left. split; [done|]. erewrite bind_ok; [|apply kalloc_empty; apply Hinv]. done.
    + right. destruct (kmem_inv_kalloc d s v L Hinv) as [Ek _].
      erewrite bind_ok by exact Ek.
      destruct (grow_fresh d s PG L pg v Hinv Hwf Hpg) as (Hvv & Hvp & _).
      destruct (valid_page_pfn v Hvv) as (_ & _ & Hnz).
      rewrite (proj2 (Z.eqb_neq v 0) Hnz).
      erewrite bind_ok; [|apply kmemset_eq, valid_page_kaddr; [done|klia]].
      erewrite bind_ok; [|apply kstore32_eq; by apply slot_kaddr].
      rewrite slot_V2P by done.
      assert (Etab : tab (mem s) pg (PDX va) = None) by (unfold tab; by rewrite Ep).
      exists v, (grow_tab pg (PDX va) v s), L. split; [done|].
      split; [by eapply grow_tab_eq|]. by apply grow_post.
Qed.

(** No page table moves. *)
Lemma walkpgdir_alloc_tab d s PG L pg va r s' pg' j t :
  kmem_inv d s L → pt_wf (mem s) PG L → pg ∈ PG → walkpgdir pg va true s = Ok r s' →
  pg' ∈ PG → 0 ≤ j < 1024 → tab (mem s) pg' j = Some t → tab (mem s') pg' j = Some t.
Proof.
  intros Hinv Hwf Hpg E Hpg' Hj Ht. destruct (pw_dirs _ _ _ Hwf pg Hpg) as [Hv _].
  pose proof (PDX_range va) as Hr.
  destruct (tab (mem s) pg (PDX va)) as [t0|] eqn:Et.
  { rewrite (walkpgdir_some s pg va true t0) in E by done. by simplify_eq. }
  revert E. unfold walkpgdir. erewrite bind_ok by (apply kload32_eq; by apply slot_kaddr).
  rewrite slot_V2P by done. unfold tab in Et at 1.
  destruct (has _ PTE_P) eqn:Ep; [done|]. simpl. destruct L as [|v L].
  { erewrite bind_ok by (apply kalloc_empty; apply Hinv). intros [= _ <-]. done. }
  destruct (kmem_inv_kalloc d s v L Hinv) as [Ek _]. erewrite bind_ok by exact Ek.
  destruct (grow_fresh d s PG L pg v Hinv Hwf Hpg) as (Hvv & Hvp & _).
  destruct (valid_page_pfn v Hvv) as (_ & _ & Hnz). rewrite (proj2 (Z.eqb_neq v 0) Hnz).
  erewrite bind_ok by (apply kmemset_eq, valid_page_kaddr; [done|klia]).
  erewrite bind_ok by (apply kstore32_eq; by apply slot_kaddr).
  rewrite slot_V2P by done. intros [= _ <-].
  rewrite <- Ht. apply (grow_tab_ne d s PG L); try done.
  intros [-> ->]. unfold tab in Ht. by rewrite Ep in Ht.
Qed.

(** Virtual page numbers. *)
Definition vpn (va : Z) : Z := va / 4096.

Lemma vpn_mul p : vpn (4096 * p) = p.
Proof. unfold vpn. dlia. Qed.

Lemma vpn_range va : is_u32 va → 0 ≤ vpn va < 1048576.
Proof. unfold vpn. klia. Qed.

Lemma same_page_iff va va' :
  is_u32 va → is_u32 va' →
  (PDX va' = PDX va ∧ PTX va' = PTX va) ↔ vpn va' = vpn va.
Proof. intros. unfold vpn. rewrite !PDX_eq, !PTX_eq by done. klia. Qed.

(** Writing the entry that [walkpgdir] found. *)
Definition pte_put (t va w : Z) (s : phys) : phys :=
  set_mem (st32 (mem s) (V2P t + 4 * PTX va) w) s.

Lemma pte_put_post d s PG L pg va t w :
  kmem_inv d s L → pt_wf (mem s) PG L → pg ∈ PG → is_u32 va → is_u32 w →
  tab (mem s) pg (PDX va) = Some t →
  vm_post d PG s L (pte_put t va w s) L (λ pg' va',
    if decide (pg' = pg ∧ vpn va' = vpn va) then w
    else lookup_pte (mem s) pg' va').
Proof.
  intros Hinv Hwf Hpg Hva Hw Ht. destruct (entry_valid _ _ _ _ _ _ Hwf Hpg Ht) as (Hv & HL & HP).
  pose proof (PTX_range va) as Hr. unfold pte_put.
  split; cbn [mem set_mem referenceCounters use_lock].
  - apply kmem_inv_set_mem; [done|]. intros v Hv'.
    pose proof (proj1 (Forall_forall _ _) (ki_valid _ _ _ Hinv) v Hv').
    apply agree_page_st32; auto. intros ->. done.
  - by eapply entry_wf.
  - by exists [].
  - intros pg' va' Hpg' Hva'. case_decide as Hd.
    + destruct Hd as (-> & [? ?]%same_page_iff); [|done..].
      apply (entry_lookup_eq _ PG L pg va t w); auto. by split.
    + apply (entry_lookup_ne _ PG L pg va t w); auto. intros (-> & [? ?]).
      apply Hd. split; [done|]. by apply same_page_iff.
  - intros v Hv' HvL Hnp. assert (v ≠ t) by (intros ->; apply Hnp; right; eauto using PDX_range).
    apply agree_page_st32; auto.
  - intros v. assert (E : pt_page (st32 (mem s) (V2P t + 4 * PTX va) w) PG v ↔ pt_page (mem s) PG v);
      [|rewrite E; tauto].
    unfold pt_page. split; (intros [?|(pg' & i & ? & ? & Et)]; [by left|right; exists pg', i]).
    + by rewrite (entry_tab _ _ _ _ _ _ _ Hwf Hpg Ht) in Et.
    + by rewrite (entry_tab _ _ _ _ _ _ _ Hwf Hpg Ht).
  - done.
  - done.
  - done.
Qed.

(** Reading the entry [walkpgdir] returned. *)
Lemma kload_pte s PG L pg va t :
  pt_wf (mem s) PG L → pg ∈ PG → tab (mem s) pg (PDX va) = Some t →
  kload32 (t + 4 * PTX va) s = Ok (lookup_pte (mem s) pg va) s.
Proof.
  intros Hwf Hpg Ht. destruct (entry_valid _ _ _ _ _ _ Hwf Hpg Ht) as (Hv & _).
  pose proof (PTX_range va). rewrite kload32_eq by (by apply slot_kaddr).
  rewrite slot_V2P by done. unfold lookup_pte. by rewrite Ht.
Qed.

Lemma kstore_pte s PG L pg va t w :
  pt_wf (mem s) PG L → pg ∈ PG → tab (mem s) pg (PDX va) = Some t →
  kstore32 (t + 4 * PTX va) w s = Ok tt (pte_put t va w s).
Proof.
  intros Hwf Hpg Ht. destruct (entry_valid _ _ _ _ _ _ Hwf Hpg Ht) as (Hv & _).
  pose proof (PTX_range va). rewrite kstore32_eq by (by apply slot_kaddr).
  by rewrite slot_V2P.
Qed.

Lemma pte_nonzero s PG L pg va t :
  pt_wf (mem s) PG L → pg ∈ PG → tab (mem s) pg (PDX va) = Some t →
  (t + 4 * PTX va =? 0) = false.
Proof.
  intros Hwf Hpg Ht. destruct (entry_valid _ _ _ _ _ _ Hwf Hpg Ht) as (Hv & _).
  pose proof (PTX_range va). apply slot_nonzero; [done|lia].
Qed.

(** Entries after mapping the [n] pages from page number [p] on in [pg] to the
    frames from [pa] on. *)
Definition map_entry (pg p n pa perm : Z) (f : Z → Z → Z) (pg' va' : Z) : Z :=
  if decide (pg' = pg ∧ p ≤ vpn va' < p + n)
  then Z.lor (Z.lor (pa + 4096 * (vpn va' - p)) perm) PTE_P
  else f pg' va'.

Lemma map_entry_0 pg p pa perm f pg' va' : map_entry pg p 0 pa perm f pg' va' = f pg' va'.
Proof. unfold map_entry. rewrite decide_False; [done|lia]. Qed.

Lemma map_entry_1 pg p pa perm f pg' va' :
  map_entry pg p 1 pa perm f pg' va' =
  if decide (pg' = pg ∧ vpn va' = p) then Z.lor (Z.lor pa perm) PTE_P else f pg' va'.
Proof.
  unfold map_entry. destruct (decide (pg' = pg ∧ vpn va' = p)) as [[-> ->]|].
  - rewrite decide_True by lia. do 2 f_equal. lia.
  - by rewrite decide_False by lia.
Qed.

(** Mapping the first page, then the rest. *)
Lemma map_entry_S pg p n pa perm f pg' va' :
  0 ≤ n →
  map_entry pg (p + 1) n (pa + 4096) perm (map_entry pg p 1 pa perm f) pg' va' =
  map_entry pg p (n + 1) pa perm f pg' va'.
Proof.
  intros Hn. unfold map_entry.
  destruct (decide (pg' = pg ∧ p + 1 ≤ vpn va' < p + 1 + n)).
  - rewrite decide_True by lia. do 2 f_equal. lia.
  - destruct (decide (pg' = pg ∧ p ≤ vpn va' < p + 1)).
    + by rewrite decide_True by lia.
    + by rewrite decide_False by lia.
Qed.

(** One round of [mappages]: out of memory, or one more page mapped. *)
Lemma mappages_round d PG pg p pa perm s L :
  kmem_inv d s L → pt_wf (mem s) PG L → pg ∈ PG →
  0 ≤ perm < 4096 → 0 ≤ p < 1048576 → is_u32 pa →
  (∀ va, is_u32 va → vpn va = p → has (lookup_pte (mem s) pg va) PTE_P = false) →
  (L = [] ∧ walkpgdir pg (4096 * p) true s = Ok 0 s) ∨
  ∃ pte e s1 s2 L1, walkpgdir pg (4096 * p) true s = Ok pte s1 ∧ (pte =? 0) = false ∧
    kload32 pte s1 = Ok e s1 ∧ has e PTE_P = false ∧
    kstore32 pte (Z.lor (Z.lor pa perm) PTE_P) s1 = Ok tt s2 ∧
    vm_post d PG s L s2 L1 (map_entry pg p 1 pa perm (lookup_pte (mem s))).
Proof.
  intros Hinv Hwf Hpg Hperm Hp Hpa Hfree. set (va := 4096 * p).
  assert (Hva : is_u32 va) by (unfold is_u32; lia).
  destruct (walkpgdir_alloc_spec d s PG L pg va Hinv Hwf Hpg)
    as [[-> E]|(t & s1 & L1 & E & Ht & Hp1)]; [by left|right].
  pose proof (vp_wf _ _ _ _ _ _ _ Hp1) as Hwf1.
  assert (Hw : is_u32 (Z.lor (Z.lor pa perm) PTE_P))
    by (repeat apply is_u32_lor; unfold is_u32; [apply Hpa|lia|done]).
  eexists _, _, s1, _, L1. split; [exact E|]. split; [by eapply pte_nonzero|].
  split; [by eapply kload_pte|].
  rewrite (vp_lookup _ _ _ _ _ _ _ Hp1) by done.
  split; [apply Hfree; [done|apply vpn_mul]|].
  split; [by eapply kstore_pte|].
  eapply vm_post_ext; [eapply vm_post_trans; [exact Hp1|];
    by apply (pte_put_post d s1 PG L1 pg va t); [apply Hp1|..]|].
  intros pg' va' Hpg' Hva'. cbv beta. rewrite map_entry_1.
  subst va. rewrite vpn_mul. case_decide; [done|].
  by apply (vp_lookup _ _ _ _ _ _ _ Hp1).
Qed.

Lemma mappages_loop_S fuel pgdir a last pa perm :
  mappages_loop (S fuel) pgdir a last pa perm =
    (pte ← walkpgdir pgdir a true;
     if pte =? 0 then mret (-1)
     else
       e ← kload32 pte;
       if has e PTE_P then panic "remap"
       else
         kstore32 pte (Z.lor (Z.lor pa perm) PTE_P) ;;
         if a =? last then mret 0
         else mappages_loop fuel pgdir (u32 (a + PGSIZE)) last (u32 (pa + PGSIZE)) perm).
Proof. done. Qed.

Lemma mappages_loop_spec d PG pg perm k p pa s L :
  kmem_inv d s L → pt_wf (mem s) PG L → pg ∈ PG →
  0 ≤ perm < 4096 → 0 ≤ p → p + Z.of_nat k < 1048576 →
  0 ≤ pa → pa + 4096 * Z.of_nat k < 4294967296 →
  (∀ va, is_u32 va → p ≤ vpn va ≤ p + Z.of_nat k →
     has (lookup_pte (mem s) pg va) PTE_P = false) →
  ∃ r s' L' n,
    mappages_loop (S k) pg (4096 * p) (4096 * (p + Z.of_nat k)) pa perm s = Ok r s' ∧
    vm_post d PG s L s' L' (map_entry pg p n pa perm (lookup_pte (mem s))) ∧
    ((r = 0 ∧ n = Z.of_nat k + 1) ∨ (r = -1 ∧ 0 ≤ n ≤ Z.of_nat k ∧ L' = [])).
Proof.
  intros Hinv Hwf Hpg Hperm. revert p pa s L Hinv Hwf.
  induction k as [|k IH]; intros p pa s L Hinv Hwf Hp Hpk Hpa Hpak Hfree;
    rewrite mappages_loop_S;
    (destruct (mappages_round d PG pg p pa perm s L Hinv Hwf Hpg Hperm)
      as [[-> E]|(pte & e & s1 & s2 & L1 & E & Hnz & El & Hnp & Es & Hp2)];
      [lia|unfold is_u32; lia|intros; apply Hfree; [done|lia]|
       erewrite bind_ok by exact E; exists (-1), s, [], 0; split; [done|];
       split; [eapply vm_post_ext; [by apply vm_post_refl|];
         intros; by rewrite map_entry_0|right; split; [done|split; [lia|done]]]|
       erewrite bind_ok by exact E; rewrite Hnz;
       erewrite bind_ok by exact El; rewrite Hnp; erewrite bind_ok by exact Es]).
  - replace (4096 * p =? 4096 * (p + Z.of_nat 0)) with true
      by (symmetry; apply Z.eqb_eq; lia).
    exists 0, s2, L1, 1. split; [done|]. split; [done|]. left. lia.
  - replace (4096 * p =? 4096 * (p + Z.of_nat (S k))) with false
      by (symmetry; apply Z.eqb_neq; lia).
    rewrite (u32_small (4096 * p + PGSIZE)), (u32_small (pa + PGSIZE))
      by (unfold is_u32, PGSIZE; lia).
    replace (4096 * p + PGSIZE) with (4096 * (p + 1)) by (unfold PGSIZE; lia).
    replace (4096 * (p + Z.of_nat (S k))) with (4096 * (p + 1 + Z.of_nat k)) by lia.
    destruct (IH (p + 1) (pa + PGSIZE) s2 L1) as (r & s' & L' & n & E' & Hp' & Hr);
      [apply Hp2|apply Hp2|lia|lia|unfold PGSIZE; lia|unfold PGSIZE; lia| |].
    + intros va Hva Hin. rewrite (vp_lookup _ _ _ _ _ _ _ Hp2) by done.
      rewrite map_entry_1, decide_False by lia. apply Hfree; [done|lia].
    + exists r, s', L', (n + 1). split; [exact E'|].
      split; [|destruct Hr as [?|(?&?&?)]; [left; lia|right; split; [done|split; [lia|done]]]].
      eapply vm_post_ext; [eapply vm_post_trans; [exact Hp2|exact Hp']|].
      intros pg' va' Hpg' Hva'.
      rewrite <- map_entry_S by (destruct Hr as [?|(?&?&?)]; lia). unfold PGSIZE.
      unfold map_entry at 1 2. case_decide; [done|].
      by apply (vp_lookup _ _ _ _ _ _ _ Hp2).
Qed.

(** One page whose table exists. *)
Lemma mappages_one s PG L pg va t pa perm :
  pt_wf (mem s) PG L → pg ∈ PG → 0 ≤ va < 4294963200 → va mod 4096 = 0 →
  tab (mem s) pg (PDX va) = Some t → has (lookup_pte (mem s) pg va) PTE_P = false →
  mappages pg va PGSIZE pa perm s = Ok 0 (pte_put t va (Z.lor (Z.lor pa perm) PTE_P) s).
Proof.
  intros Hwf Hpg Hva Hal Ht HP. destruct (pw_dirs _ _ _ Hwf pg Hpg) as [Hv _].
  unfold mappages. rewrite (u32_small (va + PGSIZE - 1)) by klia.
  assert (E1 : PGROUNDDOWN va = va) by (rewrite PGROUNDDOWN_eq by klia; dlia).
  assert (E2 : PGROUNDDOWN (va + PGSIZE - 1) = va) by (rewrite PGROUNDDOWN_eq by klia; consts; dlia).
  rewrite E1, E2, Z.sub_diag. change (S (Z.to_nat (u32 0 / PGSIZE))) with 1%nat.
  rewrite mappages_loop_S. erewrite bind_ok by by apply walkpgdir_some.
  erewrite pte_nonzero by done. erewrite bind_ok by by eapply kload_pte. rewrite HP.
  erewrite bind_ok by by eapply kstore_pte. by rewrite Z.eqb_refl.
Qed.

Lemma mappages_ok d PG pg va size pa perm s L :
  kmem_inv d s L → pt_wf (mem s) PG L → pg ∈ PG →
  0 ≤ perm < 4096 → 0 ≤ va → 0 < size → va + size ≤ 4294967296 →
  0 ≤ pa → pa + 4096 * (vpn (va + size - 1) - vpn va) < 4294967296 →
  (∀ va', is_u32 va' → vpn va ≤ vpn va' ≤ vpn (va + size - 1) →
     has (lookup_pte (mem s) pg va') PTE_P = false) →
  let n := vpn (va + size - 1) - vpn va + 1 in
  ∃ r s' L' k, mappages pg va size pa perm s = Ok r s' ∧
    vm_post d PG s L s' L' (map_entry pg (vpn va) k pa perm (lookup_pte (mem s))) ∧
    ((r = 0 ∧ k = n) ∨ (r = -1 ∧ 0 ≤ k < n ∧ L' = [])).
Proof.
  intros Hinv Hwf Hpg Hperm Hva Hsz Hend Hpa Hpend Hfree n. unfold mappages.
  rewrite (u32_small (va + size - 1)) by (unfold is_u32; lia).
  rewrite !PGROUNDDOWN_eq by (unfold is_u32; lia).
  set (k := Z.to_nat (vpn (va + size - 1) - vpn va)).
  assert (Hv : vpn va ≤ vpn (va + size - 1)) by (apply Z.div_le_mono; lia).
  assert (E1 : va - va mod 4096 = 4096 * vpn va) by (unfold vpn; dlia).
  assert (E2 : va + size - 1 - (va + size - 1) mod 4096 = 4096 * (vpn va + Z.of_nat k)).
  { subst k. rewrite Z2Nat.id by lia. clear. unfold vpn. dlia. }
  assert (Hr : 0 ≤ vpn va ∧ vpn (va + size - 1) < 1048576 ∧
    4096 * (vpn (va + size - 1) - vpn va) ≤ size + 4095) by (unfold vpn; clear Hfree; dlia).
  rewrite E1, E2.
  replace (S (Z.to_nat (u32 (4096 * (vpn va + Z.of_nat k) - 4096 * vpn va) / PGSIZE)))
    with (S k).
  2: { f_equal. rewrite u32_small by (unfold is_u32; lia). unfold PGSIZE.
    replace (4096 * (vpn va + Z.of_nat k) - 4096 * vpn va) with (Z.of_nat k * 4096) by lia.
    rewrite Z.div_mul by lia. lia. }
  destruct (mappages_loop_spec d PG pg perm k (vpn va) pa s L)
    as (r & s' & L' & j & E & Hp & Hd); [done|done|done|done|lia|lia|done|lia| |].
  - intros va' Hva' Hin. apply Hfree; [done|]. lia.
  - exists r, s', L', j. split; [exact E|]. split; [done|].
    subst n. destruct Hd as [?|(?&?&?)]; [left; lia|right; split; [done|split; [lia|done]]].
Qed.

(** C8. [mappages] on a range that is not yet mapped: with enough memory it
    returns 0 and maps exactly the pages of the range, page by page to
    consecutive frames with the given permissions; it returns -1 only when
    the allocator is empty; and in all cases every other entry of every
    address space is unchanged. *)
Theorem mappages_spec d PG pg va size pa perm s L :
  kmem_inv d s L → pt_wf (mem s) PG L → pg ∈ PG →
  0 ≤ perm < 4096 → 0 ≤ va → 0 < size → va + size ≤ 4294967296 →
  0 ≤ pa → pa + 4096 * (vpn (va + size - 1) - vpn va) < 4294967296 →
  (∀ va', is_u32 va' → vpn va ≤ vpn va' ≤ vpn (va + size - 1) →
     has (lookup_pte (mem s) pg va') PTE_P = false) →
  let n := vpn (va + size - 1) - vpn va + 1 in
  ∃ r s' L' k, mappages pg va size pa perm s = Ok r s' ∧
    vm_post d PG s L s' L' (map_entry pg (vpn va) k pa perm (lookup_pte (mem s))) ∧
    ((r = 0 ∧ k = n) ∨ (r = -1 ∧ 0 ≤ k < n ∧ L' = [])).
Proof. intros. by apply mappages_ok. Qed.

End PageTable.

(** A zeroed page directory beside the two free pages of [demo_phys]. *)
Lemma demo_dir_empty i :
  0 ≤ i < 1024 → tab (mem demo_phys) 0x80300000 i = None.
Proof.
  intros Hi. unfold tab. replace (V2P 0x80300000) with 0x300000 by done.
  cbn [demo_phys mem]. replace (V2P 0x80200000) with 0x200000 by done.
  by rewrite ld32_st32_ne by lia.
Qed.

Lemma demo_dir_wf :
  @pt_wf (demo_config SCFIFO) (mem demo_phys) [0x80300000] [0x80200000; 0x80201000].
Proof.
  split.
  - intros pg ->%list_elem_of_singleton. split; [done|set_solver].
  - intros pg i t ->%list_elem_of_singleton Hi. by rewrite demo_dir_empty.
  - intros pg pg' i j t ->%list_elem_of_singleton _ Hi _. by rewrite demo_dir_empty.
Qed.

Lemma mappages_spec_witness :
  ∃ r s' L' k, mappages 0x80300000 0x1ff0 32 0x5000 6 demo_phys
      = Ok r s' ∧
    @vm_post (demo_config SCFIFO) 0 [0x80300000] demo_phys [0x80200000; 0x80201000] s' L'
      (map_entry 0x80300000 1 k 0x5000 6 (lookup_pte (mem demo_phys))) ∧
    ((r = 0 ∧ k = 2) ∨ (r = -1 ∧ 0 ≤ k < 2 ∧ L' = [])).
Proof.
  apply (mappages_spec (H := demo_config SCFIFO)) with (size := 32);
    try (unfold is_u32; lia); try done.
  - apply demo_phys_inv.
  - apply demo_dir_wf.
  - set_solver.
  - intros va' Hva' _. unfold lookup_pte.
    rewrite demo_dir_empty by (apply PDX_range). done.
Defined.
