(* ===== verification/Vmspace.v ===== *)
(** * Vmspace: address spaces and the accounting of pages

    The invariant that ties the page tables of all address spaces to the
    reference counters of the allocator.  [vm_inv d PG s L O X]: [PG] are the
    page directories in use, [L] the free list, [O f] the set of (directory,
    page number) pairs of user mappings of the page [f], and [X f] the number
    of references to [f] that are not mappings: 1 for a page the kernel has
    just allocated, 0 for a page that belongs to user memory.  It contains the
    rule of copy-on-write: a page with a writable mapping has no other
    mapping. *)

From S2P Require Import Prelude Mmu Phys Config Kalloc PageTable.

Section Vmspace.
Context `{Config}.

(** ** User memory

    What an access to [va] in the address space [pgdir] reads: byte by byte,
    through the page table. *)

Definition user_byte (m : memory) (pgdir va : Z) : option Z :=
  ld8 m <$> translate m pgdir va.

Definition user_bytes (m : memory) (pgdir va : Z) (n : nat) : option (list Z) :=
  mapM (λ k, user_byte m pgdir (va + Z.of_nat k)) (seq 0 n).

Definition user_vpn (v : Z) : Prop := 0 ≤ v < 524288.
#[global] Instance user_vpn_dec v : Decision (user_vpn v).
Proof. unfold user_vpn. apply _. Defined.

(** The entry of page number [v], and the kernel address of its frame. *)
Definition pte_of (m : memory) (pg v : Z) : Z := lookup_pte m pg (4096 * v).
Definition frame_of (e : Z) : Z := P2V (PTE_ADDR e).

Definition maps (m : memory) (pg v f : Z) : Prop :=
  has (pte_of m pg v) PTE_P = true ∧ frame_of (pte_of m pg v) = f.

Definition fupd {A} (f : Z → A) (i : Z) (a : A) : Z → A :=
  λ j, if decide (j = i) then a else f j.

Notation owners := (Z → gset (Z * Z)).

Record vm_inv (d : Z) (PG : list Z) (s : phys) (L : list Z) (O : owners) (X : Z → Z)
    : Prop := {
  vi_kmem : kmem_inv d s L;
  vi_wf : pt_wf (mem s) PG L;
  vi_own : ∀ f pg v, (pg, v) ∈ O f ↔ pg ∈ PG ∧ user_vpn v ∧ maps (mem s) pg v f;
  vi_page : ∀ f pg v, (pg, v) ∈ O f →
    valid_page f ∧ f ∉ L ∧ ¬ pt_page (mem s) PG f;
  vi_ref : ∀ f, valid_page f → f ∉ L → ¬ pt_page (mem s) PG f →
    referenceCounters s (pfn f) = Z.of_nat (size (O f)) + X f;
  vi_pt : ∀ f, pt_page (mem s) PG f → referenceCounters s (pfn f) = 1;
  vi_write : ∀ f pg v, (pg, v) ∈ O f → has (pte_of (mem s) pg v) PTE_W = true →
    O f = {[(pg, v)]};
  vi_zero : ∀ f, f ∈ L ∨ pt_page (mem s) PG f → X f = 0
}.

(** ** Changing one entry *)

(** The owners after the entry of [(pg, v)] became [e]. *)
Definition put_owner (O : owners) (pg v e : Z) : owners := λ f,
  (O f ∖ {[(pg, v)]}) ∪
  (if decide (has e PTE_P = true ∧ frame_of e = f) then {[(pg, v)]} else ∅).

(** The counters do not change, so the change in mappings shows up in [X]. *)
Definition put_extra (O : owners) (X : Z → Z) (pg v e : Z) : Z → Z := λ f,
  X f + Z.of_nat (size (O f)) - Z.of_nat (size (put_owner O pg v e f)).

Definition put_entry (pg v e : Z) (f : Z → Z → Z) (pg' va' : Z) : Z :=
  if decide (pg' = pg ∧ vpn va' = v) then e else f pg' va'.

(** What [e] must satisfy to be the entry of [(pg, v)]. *)
Record entry_ok (PG : list Z) (s : phys) (L : list Z) (O : owners) (pg v e : Z) : Prop := {
  eo_page : has e PTE_P = true →
    valid_page (frame_of e) ∧ frame_of e ∉ L ∧ ¬ pt_page (mem s) PG (frame_of e);
  eo_write : has e PTE_P = true → has e PTE_W = true → O (frame_of e) ⊆ {[(pg, v)]};
  eo_other : has e PTE_P = true → ∀ pg' v', (pg', v') ∈ O (frame_of e) →
    (pg', v') ≠ (pg, v) → has (pte_of (mem s) pg' v') PTE_W = false
}.

Lemma user_va v : user_vpn v → is_u32 (4096 * v) ∧ vpn (4096 * v) = v.
Proof. unfold user_vpn, is_u32. rewrite vpn_mul. lia. Qed.

Lemma elem_put_owner O pg v e f pg' v' :
  (pg', v') ∈ put_owner O pg v e f ↔
    if decide ((pg', v') = (pg, v)) then has e PTE_P = true ∧ frame_of e = f
    else (pg', v') ∈ O f.
Proof.
  unfold put_owner. destruct (decide ((pg', v') = (pg, v))) as [->|Hne].
  - case_decide; set_solver.
  - case_decide; set_solver.
Qed.

(** A mapping has one frame. *)
Lemma owner_unique d PG s L O X pg v f g :
  vm_inv d PG s L O X → (pg, v) ∈ O f → (pg, v) ∈ O g → f = g.
Proof.
  intros Hinv Hf Hg. apply (vi_own _ _ _ _ _ _ Hinv) in Hf as (_ & _ & _ & <-).
  by apply (vi_own _ _ _ _ _ _ Hinv) in Hg as (_ & _ & _ & <-).
Qed.

(** The sizes after one entry changed from frame [f] to frame [n]. *)
Lemma put_owner_old O pg v e f :
  (pg, v) ∈ O f → (has e PTE_P = true → frame_of e ≠ f) →
  Z.of_nat (size (put_owner O pg v e f)) = Z.of_nat (size (O f)) - 1.
Proof.
  intros Hin Hne. unfold put_owner. rewrite decide_False by tauto.
  rewrite union_empty_r_L, size_difference, size_singleton by set_solver.
  assert (size (O f) ≠ 0)%nat; [|lia]. intros E%size_empty_iff. set_solver.
Qed.

Lemma put_owner_new O pg v e :
  has e PTE_P = true → (pg, v) ∉ O (frame_of e) →
  Z.of_nat (size (put_owner O pg v e (frame_of e))) = Z.of_nat (size (O (frame_of e))) + 1.
Proof.
  intros HP Hn. unfold put_owner. rewrite decide_True by done.
  rewrite size_union by set_solver. rewrite size_singleton.
  replace (O (frame_of e) ∖ {[(pg, v)]}) with (O (frame_of e)); [lia|].
  apply set_eq. set_solver.
Qed.

Lemma put_owner_ne O pg v e g :
  (pg, v) ∉ O g → (has e PTE_P = true → frame_of e ≠ g) → put_owner O pg v e g = O g.
Proof.
  intros Hn Hne. unfold put_owner. rewrite decide_False by tauto. apply set_eq. set_solver.
Qed.

Lemma empty_owner (M : gset (Z * Z)) : (∀ pg v, (pg, v) ∉ M) → M = ∅.
Proof. intros Hn. apply set_eq. intros [pg v]. set_solver. Qed.

Lemma vm_inv_put d PG s L O X s' L' pg v e :
  vm_inv d PG s L O X → pg ∈ PG → user_vpn v →
  vm_post d PG s L s' L' (put_entry pg v e (lookup_pte (mem s))) →
  entry_ok PG s L O pg v e →
  vm_inv d PG s' L' (put_owner O pg v e) (put_extra O X pg v e).
Proof.
  intros [Hk Hw Ho Hp Hr Ht Hwr Hz] Hpg Hv [Hk' Hw' [A HL] Hl Hfr Hpt Hnew Hrefs _] [He1 He2 He3].
  assert (HL' : ∀ x, x ∈ L' → x ∈ L) by (intros; subst L; set_solver).
  assert (Hpte : ∀ pg' v', pg' ∈ PG → user_vpn v' → pte_of (mem s') pg' v' =
    if decide ((pg', v') = (pg, v)) then e else pte_of (mem s) pg' v').
  { intros pg' v' Hpg' Hv'. destruct (user_va v' Hv') as [? E].
    unfold pte_of. rewrite Hl by done. unfold put_entry. rewrite E.
    destruct (decide ((pg', v') = (pg, v))) as [[= -> ->]|Hne].
    - by rewrite decide_True.
    - rewrite decide_False; [done|]. intros [-> ->]. done. }
  assert (Hpage : ∀ f pg' v', (pg', v') ∈ put_owner O pg v e f →
    valid_page f ∧ f ∉ L ∧ ¬ pt_page (mem s) PG f).
  { intros f pg' v' Hin%elem_put_owner. case_decide.
    - destruct Hin as [Hin <-]. auto.
    - eauto. }
  split; [done|done|..].
  - intros f pg' v'. rewrite elem_put_owner. unfold maps.
    destruct (decide ((pg', v') = (pg, v))) as [[= -> ->]|Hne].
    + rewrite Hpte, decide_True by done. naive_solver.
    + rewrite Ho. unfold maps. split; intros (H1 & H2 & H3); rewrite Hpte, decide_False in * by done; eauto.
  - intros f pg' v' Hin. destruct (Hpage _ _ _ Hin) as (? & ? & ?). split; [done|].
    split; [auto|]. rewrite Hpt. naive_solver.
  - intros f Hf HfL Hfp. rewrite Hpt in Hfp. unfold put_extra.
    assert (f ∉ L) by (intros ?; apply Hfp; by right).
    rewrite Hrefs, Hr by tauto. lia.
  - intros f [Hf|[Hf1 Hf2]]%Hpt; [|by apply Hnew].
    destruct (pt_page_valid _ _ _ _ Hw Hf). rewrite Hrefs by done. by apply Ht.
  - intros f pg' v' Hin. pose proof (elem_put_owner O pg v e f pg' v') as E.
    rewrite E in Hin. destruct (decide ((pg', v') = (pg, v))) as [[= -> ->]|Hne].
    + rewrite Hpte, decide_True by done. intros HW. destruct Hin as [HP <-].
      pose proof (He2 HP HW). unfold put_owner. rewrite decide_True by done. set_solver.
    + apply Ho in Hin as Hin'. destruct Hin' as (? & ? & _).
      rewrite Hpte, decide_False by done. intros HW. pose proof (Hwr _ _ _ Hin HW) as EO.
      unfold put_owner. rewrite EO. case_decide as Hd; [|set_solver].
      destruct Hd as [HP <-]. exfalso. rewrite (He3 HP pg' v' Hin Hne) in HW. done.
  - intros f Hf. assert (Hf' : f ∈ L ∨ pt_page (mem s) PG f) by (rewrite Hpt in Hf; naive_solver).
    unfold put_extra. rewrite (Hz f Hf').
    assert (HO : O f = ∅) by (apply empty_owner; intros pg' v' Hin; apply Hp in Hin; tauto).
    assert (HO' : put_owner O pg v e f = ∅)
      by (apply empty_owner; intros pg' v' Hin; apply Hpage in Hin; tauto).
    by rewrite HO, HO'.
Qed.

Lemma vm_inv_ext d PG s L O O' X X' :
  vm_inv d PG s L O X → (∀ f, O f = O' f) → (∀ f, X f = X' f) → vm_inv d PG s L O' X'.
Proof.
  intros [Hk Hw Ho Hp Hr Ht Hwr Hz] EO EX.
  split; intros; rewrite <- ?EO, <- ?EX in *; eauto.
Qed.

(** Changing the flags of a mapping; it may become writable if it is the only
    one. *)
Lemma vm_inv_reflag d PG s L O X s' L' pg v e f :
  vm_inv d PG s L O X → (pg, v) ∈ O f →
  vm_post d PG s L s' L' (put_entry pg v e (lookup_pte (mem s))) →
  has e PTE_P = true → frame_of e = f →
  (has e PTE_W = true → O f ⊆ {[(pg, v)]}) →
  vm_inv d PG s' L' O X.
Proof.
  intros Hinv Hin Hpost HP <- HW. pose proof Hinv as [Hk Hw Ho Hp Hr Ht Hwr Hz].
  apply Ho in Hin as Hin'. destruct Hin' as (Hpg & Hv & _).
  assert (EO : ∀ g, put_owner O pg v e g = O g).
  { intros g. apply set_eq. intros [pg' v']. rewrite elem_put_owner.
    case_decide as Hd; [|done]. injection Hd as -> ->. split; [by intros [_ <-]|].
    intros Hg. apply Ho in Hg as (_ & _ & _ & <-). apply Ho in Hin as (_ & _ & _ & ->). done. }
  eapply vm_inv_ext; [eapply vm_inv_put; try done|apply EO|].
  - split; [by intros; eapply Hp|by intros; apply HW|]. intros _ pg' v' Hin' Hne.
    destruct (has (pte_of (mem s) pg' v') PTE_W) eqn:E; [|done].
    rewrite (Hwr _ _ _ Hin' E) in Hin. apply elem_of_singleton in Hin. congruence.
  - intros g. unfold put_extra. rewrite EO. lia.
Qed.

(** An operation that changes no user mapping. *)
Lemma vm_inv_same d PG s L O X s' L' f :
  vm_inv d PG s L O X → vm_post d PG s L s' L' f →
  (∀ pg v, pg ∈ PG → user_vpn v → f pg (4096 * v) = pte_of (mem s) pg v) →
  vm_inv d PG s' L' O X.
Proof.
  intros [Hk Hw Ho Hp Hr Ht Hwr Hz] [Hk' Hw' [A HL] Hl Hfr Hpt Hnew Hrefs _] Hf.
  assert (HL' : ∀ x, x ∈ L' → x ∈ L) by (intros; subst L; set_solver).
  assert (Hpte : ∀ pg v, pg ∈ PG → user_vpn v → pte_of (mem s') pg v = pte_of (mem s) pg v).
  { intros pg v Hpg Hv. destruct (user_va v Hv). unfold pte_of at 1. rewrite Hl by done. auto. }
  split; [done|done|..].
  - intros g pg v. rewrite Ho. unfold maps.
    split; intros (H1 & H2 & H3); rewrite Hpte in * by done; done.
  - intros g pg v Hin. destruct (Hp _ _ _ Hin) as (? & ? & ?). split; [done|].
    split; [auto|]. rewrite Hpt. naive_solver.
  - intros g Hg HgL Hgp. rewrite Hpt in Hgp.
    assert (g ∉ L) by (intros ?; apply Hgp; by right). rewrite Hrefs, Hr by tauto. lia.
  - intros g [Hg|[Hg1 Hg2]]%Hpt; [|by apply Hnew].
    destruct (pt_page_valid _ _ _ _ Hw Hg). rewrite Hrefs by done. by apply Ht.
  - intros g pg v Hin. apply Ho in Hin as Hin'. destruct Hin' as (? & ? & _).
    rewrite Hpte by done. by apply Hwr.
  - intros g Hg. apply Hz. rewrite Hpt in Hg. naive_solver.
Qed.

(** ** Counters *)

Lemma size_owner (O : owners) f pg v : (pg, v) ∈ O f → 1 ≤ Z.of_nat (size (O f)).
Proof.
  intros Hin. assert (size (O f) ≠ 0)%nat; [|lia].
  intros E%size_empty_iff. set_solver.
Qed.

(** Setting the counter of a page that is neither free nor a page table. *)
Lemma vm_inv_set_ref d PG s L O X f r :
  vm_inv d PG s L O X → valid_page f → f ∉ L → ¬ pt_page (mem s) PG f → is_u32 r →
  vm_inv d PG (set_referenceCounters (upd (referenceCounters s) (pfn f) r) s) L O
    (fupd X f (r - Z.of_nat (size (O f)))).
Proof.
  intros [Hk Hw Ho Hp Hr Ht Hwr Hz] Hf HfL Hfp Hu.
  split; cbn [mem set_referenceCounters referenceCounters]; try done.
  - by apply kmem_inv_set_ref.
  - intros g Hg HgL Hgp. unfold fupd. case_decide as E.
    + subst. rewrite upd_eq. lia.
    + rewrite upd_ne; [by apply Hr|]. intros E'. by apply E, pfn_inj.
  - intros g Hg. rewrite upd_ne; [by apply Ht|]. intros E.
    destruct (pt_page_valid _ _ _ _ Hw Hg). apply pfn_inj in E; [|done..]. by subst.
  - intros g Hg. unfold fupd. rewrite decide_False by (intros ->; tauto). auto.
Qed.

(** A page from the free list, held by the kernel. *)
Lemma vm_inv_kalloc d PG s v L O X :
  vm_inv d PG s (v :: L) O X →
  kalloc s = Ok v (kalloc_post v s) ∧
  vm_inv d PG (kalloc_post v s) L O (fupd X v 1) ∧
  O v = ∅ ∧ valid_page v ∧ v ∉ L ∧ ¬ pt_page (mem s) PG v.
Proof.
  intros [Hk Hw Ho Hp Hr Ht Hwr Hz]. destruct (kmem_inv_kalloc d s v L Hk) as [E Hk'].
  pose proof (ki_valid _ _ _ Hk) as Hval. apply Forall_cons in Hval as [Hv Hval].
  pose proof (ki_nodup _ _ _ Hk) as Hnd. apply NoDup_cons in Hnd as [HvL _].
  assert (Hnpt : ¬ pt_page (mem s) PG v).
  { intros Hpt. destruct (pt_page_valid _ _ _ _ Hw Hpt). set_solver. }
  assert (HO : O v = ∅).
  { apply set_eq. intros [pg w]. split; [|set_solver]. intros Hin.
    destruct (Hp _ _ _ Hin) as (_ & Hn & _). set_solver. }
  split; [done|]. split; [|done].
  split; cbn [mem kalloc_post referenceCounters]; try done.
  - eapply pt_wf_free_subset; [done|set_solver].
  - intros f pg w Hin. destruct (Hp _ _ _ Hin) as (? & ? & ?). set_solver.
  - intros f Hf HfL Hfp. unfold fupd. case_decide as Ef.
    + subst. by rewrite upd_eq, HO, size_empty.
    + rewrite upd_ne by (intros E'; by apply Ef, pfn_inj). apply Hr; [done|set_solver|done].
  - intros f Hf. destruct (pt_page_valid _ _ _ _ Hw Hf).
    rewrite upd_ne; [by apply Ht|]. intros E'. apply pfn_inj in E'; [|done..]. set_solver.
  - intros f Hf. unfold fupd. rewrite decide_False by (intros ->; tauto).
    apply Hz. set_solver.
Qed.

(** Giving up a reference: the page is freed with the last one. *)
Definition kfree_free (f : Z) (s : phys) (L : list Z) : list Z :=
  if 1 <? referenceCounters s (pfn f) then L else f :: L.

Lemma kfree_agree s f w :
  valid_page f → valid_page w → w ≠ f →
  agree_page (mem s) (mem (kfree_last f s)) w.
Proof.
  intros Hf Hw Hne. eapply agree_page_trans; [by apply (agree_page_fill _ f 1)|].
  pose proof (agree_page_st32 (fill (mem s) (V2P f) PGSIZE 1) f 0 (freelist s) w) as Ha.
  rewrite Z.mul_0_r, Z.add_0_r in Ha. apply Ha; auto. lia.
Qed.

Lemma vm_inv_kfree d PG s L O X f :
  vm_inv d PG s L O X → valid_page f → f ∉ L → ¬ pt_page (mem s) PG f → 1 ≤ X f →
  ∃ s', kfree f s = Ok tt s' ∧
    vm_inv d PG s' (kfree_free f s L) O (fupd X f (X f - 1)) ∧
    (∀ w, valid_page w → w ≠ f ∨ O f ≠ ∅ → agree_page (mem s) (mem s') w) ∧
    use_lock s' = use_lock s.
Proof.
  intros Hinv Hf HfL Hfp HX. pose proof Hinv as [Hk Hw Ho Hp Hr Ht Hwr Hz].
  pose proof (Hr f Hf HfL Hfp) as Href. pose proof (ki_u32 _ _ _ Hk (pfn f)) as Hu.
  rewrite kfree_eq by (try done; first [apply (ki_unlocked _ _ _ Hk)|lia]). unfold kfree_free.
  destruct (Z.ltb_spec 1 (referenceCounters s (pfn f))) as [Hgt|Hle].
  - exists (kfree_shared f s). split; [done|]. split; [|split; [|done]].
    + unfold kfree_shared. rewrite u32_small by (unfold is_u32 in *; lia).
      eapply vm_inv_ext; [apply vm_inv_set_ref; try done; unfold is_u32 in *; lia|done|].
      intros g. unfold fupd. case_decide; [subst; lia|done].
    + intros w _ _. apply agree_page_refl.
  - assert (HO : O f = ∅) by (apply leibniz_equiv, size_empty_inv; lia).
    exists (kfree_last f s). split; [done|].
    assert (Hag : ∀ w, valid_page w → w ≠ f → agree_page (mem s) (mem (kfree_last f s)) w)
      by (intros; by apply kfree_agree).
    assert (Hptf : ∀ w, pt_page (mem s) PG w → agree_page (mem s) (mem (kfree_last f s)) w).
    { intros w Hpt. destruct (pt_page_valid _ _ _ _ Hw Hpt). apply Hag; [done|]. by intros ->. }
    assert (Hpt : ∀ w, pt_page (mem (kfree_last f s)) PG w ↔ pt_page (mem s) PG w).
    { apply pt_page_frame. intros pg Hpg. apply Hptf. by left. }
    assert (Hlk : ∀ pg v, pg ∈ PG → pte_of (mem (kfree_last f s)) pg v = pte_of (mem s) pg v).
    { intros pg v Hpg. by apply (lookup_pte_frame _ _ PG). }
    split; [split|split; [intros w Hw' [?|?]; [by apply Hag|done]|done]].
    + apply kmem_inv_kfree_last; auto; lia.
    + eapply pt_wf_free_insert; [by eapply pt_wf_frame|by rewrite Hpt].
    + intros g pg v. rewrite Ho. unfold maps.
      split; intros (H1 & H2 & H3); rewrite Hlk in * by done; done.
    + intros g pg v Hin. destruct (Hp _ _ _ Hin) as (? & ? & ?). rewrite Hpt.
      split; [done|]. split; [|done]. intros [->|?]%elem_of_cons; [|done]. set_solver.
    + intros g Hg HgL Hgp. rewrite Hpt in Hgp. apply not_elem_of_cons in HgL as [Hne HgL].
      unfold fupd. rewrite decide_False by done. simpl. rewrite <- Hr by done.
      case_match; [|done]. apply upd_ne. intros E. by apply Hne, pfn_inj.
    + intros g Hg%Hpt. destruct (pt_page_valid _ _ _ _ Hw Hg). rewrite <- (Ht g Hg). simpl.
      case_match; [|done]. apply upd_ne. intros E. apply pfn_inj in E; [|done..]. by subst.
    + intros g pg v Hin. apply Ho in Hin as Hin'. destruct Hin' as (? & _).
      rewrite Hlk by done. by apply Hwr.
    + intros g Hg. rewrite Hpt, elem_of_cons in Hg. unfold fupd.
      case_decide; [subst; rewrite HO, size_empty in Href; lia|]. apply Hz. tauto.
Qed.

(** Changing the contents of a data page. *)
Lemma vm_inv_data d PG s L O X n m' :
  vm_inv d PG s L O X → n ∉ L → ¬ pt_page (mem s) PG n →
  (∀ w, valid_page w → w ≠ n → agree_page (mem s) m' w) →
  vm_inv d PG (set_mem m' s) L O X.
Proof.
  intros [Hk Hw Ho Hp Hr Ht Hwr Hz] HnL Hnp Hag.
  assert (Hptf : ∀ w, pt_page (mem s) PG w → agree_page (mem s) m' w).
  { intros w Hpt. destruct (pt_page_valid _ _ _ _ Hw Hpt). apply Hag; [done|]. by intros ->. }
  assert (Hpt : ∀ w, pt_page m' PG w ↔ pt_page (mem s) PG w).
  { apply pt_page_frame. intros pg Hpg. apply Hptf. by left. }
  assert (Hlk : ∀ pg v, pg ∈ PG → pte_of m' pg v = pte_of (mem s) pg v).
  { intros pg v Hpg. by apply (lookup_pte_frame _ _ PG). }
  split; cbn [mem set_mem referenceCounters].
  - apply kmem_inv_set_mem; [done|]. intros w HwL. apply Hag; [|by intros ->].
    by apply (proj1 (Forall_forall _ _) (ki_valid _ _ _ Hk)).
  - by eapply pt_wf_frame.
  - intros g pg v. rewrite Ho. unfold maps.
    split; intros (H1 & H2 & H3); rewrite Hlk in * by done; done.
  - intros g pg v Hin. rewrite Hpt. eauto.
  - intros g. rewrite Hpt. auto.
  - intros g. rewrite Hpt. auto.
  - intros g pg v Hin. apply Ho in Hin as Hin'. destruct Hin' as (? & _).
    rewrite Hlk by done. by apply Hwr.
  - intros g. rewrite Hpt. auto.
Qed.

(** ** What the processes see *)

Definition user_va_ok (va : Z) : Prop := 0 ≤ va < KERNBASE.

Lemma user_va_vpn va : user_va_ok va → is_u32 va ∧ user_vpn (vpn va).
Proof. unfold user_va_ok, user_vpn, vpn. klia. Qed.

Lemma lookup_pte_vpn m pg va : is_u32 va → lookup_pte m pg va = pte_of m pg (vpn va).
Proof.
  intros Hva. pose proof (vpn_range va Hva).
  assert (Hv : is_u32 (4096 * vpn va)) by (unfold is_u32; lia).
  destruct (proj2 (same_page_iff va (4096 * vpn va) Hva Hv)) as [Ed Et]; [apply vpn_mul|].
  unfold pte_of, lookup_pte. by rewrite Ed, Et.
Qed.

(** Same presence, same frame. *)
Definition same_trans (e e' : Z) : Prop :=
  has e' PTE_P = has e PTE_P ∧ (has e PTE_P = true → PTE_ADDR e' = PTE_ADDR e).

Lemma frame_of_V2P e : valid_page (frame_of e) → is_u32 e → V2P (frame_of e) = PTE_ADDR e.
Proof.
  intros _ He. unfold frame_of. apply V2P_P2V. pose proof (PTE_ADDR_range e He). unfold is_u32 in *. lia.
Qed.

Lemma pte_of_u32 m pg v : is_u32 (pte_of m pg v).
Proof. unfold pte_of, lookup_pte. case_match; [apply ld32_range|done]. Qed.

Lemma user_byte_same d PG s L O X m' pg va :
  vm_inv d PG s L O X → pg ∈ PG → user_va_ok va →
  same_trans (pte_of (mem s) pg (vpn va)) (pte_of m' pg (vpn va)) →
  (∀ f, (pg, vpn va) ∈ O f → agree_page (mem s) m' f) →
  user_byte m' pg va = user_byte (mem s) pg va.
Proof.
  intros Hinv Hpg Hva [HP HA] Hag. destruct (user_va_vpn va Hva) as [Hu Hv].
  unfold user_byte, translate. rewrite !lookup_pte_vpn, HP by done.
  destruct (has (pte_of (mem s) pg (vpn va)) PTE_P) eqn:EP; [|done]. simpl. f_equal.
  rewrite HA by done. set (e := pte_of (mem s) pg (vpn va)) in *.
  assert (Hin : (pg, vpn va) ∈ O (frame_of e)) by (by apply (vi_own _ _ _ _ _ _ Hinv)).
  destruct (vi_page _ _ _ _ _ _ Hinv _ _ _ Hin) as (Hf & _).
  rewrite <- (frame_of_V2P e) by (done || apply pte_of_u32). apply (Hag _ Hin).
  unfold PGSIZE. pose proof (Z.mod_pos_bound va 4096). lia.
Qed.

(** An operation on the page tables changes what a process reads only at the
    entries it changes. *)
Lemma user_byte_post d PG s L O X s' L' f pg va :
  vm_inv d PG s L O X → vm_post d PG s L s' L' f → pg ∈ PG → user_va_ok va →
  same_trans (pte_of (mem s) pg (vpn va)) (f pg (4096 * vpn va)) →
  user_byte (mem s') pg va = user_byte (mem s) pg va.
Proof.
  intros Hinv Hpost Hpg Hva Hs. destruct (user_va_vpn va Hva) as [Hu Hv].
  destruct (user_va (vpn va) Hv) as [Hu' _].
  apply (user_byte_same d PG s L O X); try done.
  - unfold pte_of at 2. by rewrite (vp_lookup _ _ _ _ _ _ _ Hpost).
  - intros g Hin. destruct (vi_page _ _ _ _ _ _ Hinv _ _ _ Hin) as (? & ? & ?).
    by apply (vp_frame _ _ _ _ _ _ _ Hpost).
Qed.

(** A whole page, as the kernel copies it. *)
Lemma user_byte_page d PG s L O X pg v f (k : nat) :
  vm_inv d PG s L O X → (pg, v) ∈ O f → Z.of_nat k < 4096 →
  user_byte (mem s) pg (4096 * v + Z.of_nat k) = Some (ld8 (mem s) (V2P f + Z.of_nat k)).
Proof.
  intros Hinv Hin Hk. destruct (vi_page _ _ _ _ _ _ Hinv _ _ _ Hin) as (Hf & _).
  apply (vi_own _ _ _ _ _ _ Hinv) in Hin as (Hpg & Hv & HP & Hfr).
  assert (Hva : is_u32 (4096 * v + Z.of_nat k)) by (unfold user_vpn, is_u32 in *; lia).
  assert (Ev : vpn (4096 * v + Z.of_nat k) = v) by (unfold vpn; dlia).
  unfold user_byte, translate. rewrite lookup_pte_vpn, Ev, HP by done. simpl.
  rewrite <- Hfr, frame_of_V2P by (rewrite ?Hfr; done || apply pte_of_u32).
  do 2 f_equal. f_equal. unfold PGSIZE. dlia.
Qed.

Lemma user_bytes_page d PG s L O X pg v f (n : nat) :
  vm_inv d PG s L O X → (pg, v) ∈ O f → Z.of_nat n ≤ 4096 →
  user_bytes (mem s) pg (4096 * v) n = Some (ld_bytes (mem s) (V2P f) n).
Proof.
  intros Hinv Hin Hn. apply mapM_Some_fmap. intros k Hk%elem_of_seq.
  eapply user_byte_page; [done|done|lia].
Qed.

(** An entry made of a page and flags. *)
Lemma mk_pte n fl :
  valid_page n → 0 ≤ fl < 4096 →
  is_u32 (Z.lor (V2P n) fl) ∧ frame_of (Z.lor (V2P n) fl) = n ∧
  PTE_FLAGS (Z.lor (V2P n) fl) = fl.
Proof.
  intros Hn Hfl. destruct (valid_page_pfn n Hn) as (E & Hr & _).
  assert (Hu : is_u32 (V2P n)) by apply u32_range.
  destruct (PTE_ADDR_lor (V2P n) fl) as (_ & Ea & Ef); [done|dlia|done|].
  split; [apply is_u32_lor; unfold is_u32 in *; lia|]. split; [|done].
  unfold frame_of. rewrite Ea. apply P2V_V2P. destruct Hn as (?&?&?). klia.
Qed.

(** A mapped page has a page table. *)
Lemma pte_tab m pg va :
  is_u32 va → pte_of m pg (vpn va) ≠ 0 → ∃ t, tab m pg (PDX va) = Some t.
Proof.
  intros Hva. rewrite <- lookup_pte_vpn by done. unfold lookup_pte.
  destruct (tab m pg (PDX va)); [eauto|done].
Qed.

Lemma owner_tab d PG s L O X pg va f :
  vm_inv d PG s L O X → user_va_ok va → (pg, vpn va) ∈ O f →
  ∃ t, tab (mem s) pg (PDX va) = Some t.
Proof.
  intros Hinv Hva Hin. apply pte_tab; [by apply user_va_vpn|].
  apply (vi_own _ _ _ _ _ _ Hinv) in Hin as (_ & _ & HP & _). intros E. by rewrite E in HP.
Qed.

(** ** Stores to the entry of a user page *)

(** Two memories that give all processes the same user memory. *)
Definition same_user (PG : list Z) (m m' : memory) : Prop :=
  ∀ pg va, pg ∈ PG → user_va_ok va → user_byte m' pg va = user_byte m pg va.

Lemma same_user_trans PG m1 m2 m3 :
  same_user PG m1 m2 → same_user PG m2 m3 → same_user PG m1 m3.
Proof. intros H1 H2 pg va Hpg Hva. by rewrite H2, H1. Qed.

Section Store.
Context (d : Z) (PG : list Z) (s : phys) (L : list Z) (O : owners) (X : Z → Z).
Context (pg va t : Z).
Hypothesis Hinv : vm_inv d PG s L O X.
Hypothesis Hpg : pg ∈ PG.
Hypothesis Hva : user_va_ok va.
Hypothesis Ht : tab (mem s) pg (PDX va) = Some t.

Lemma put_post e :
  is_u32 e →
  vm_post d PG s L (pte_put t va e s) L (put_entry pg (vpn va) e (lookup_pte (mem s))).
Proof using Hinv Hpg Hva Ht.
  intros He. destruct (user_va_vpn va Hva) as [Hu _].
  apply pte_put_post; try done; apply Hinv.
Qed.

Lemma put_pte_of e v :
  is_u32 e → user_vpn v → ∀ pg', pg' ∈ PG →
  pte_of (mem (pte_put t va e s)) pg' v =
    if decide (pg' = pg ∧ v = vpn va) then e else pte_of (mem s) pg' v.
Proof using Hinv Hpg Hva Ht.
  intros He Hv pg' Hpg'. destruct (user_va v Hv) as [Hu Ev]. unfold pte_of at 1.
  rewrite (vp_lookup _ _ _ _ _ _ _ (put_post e He)) by done.
  unfold put_entry. by rewrite Ev.
Qed.

Lemma put_tab e : is_u32 e → tab (mem (pte_put t va e s)) pg (PDX va) = Some t.
Proof using Hinv Hpg Ht.
  intros He. unfold pte_put. cbn [mem set_mem].
  rewrite (entry_tab _ _ _ _ _ _ _ (vi_wf _ _ _ _ _ _ Hinv) Hpg Ht); auto using PDX_range.
Qed.

(** New flags for a mapped page. *)
Lemma put_flags f e :
  (pg, vpn va) ∈ O f → is_u32 e → has e PTE_P = true → frame_of e = f →
  (has e PTE_W = true → O f ⊆ {[(pg, vpn va)]}) →
  vm_inv d PG (pte_put t va e s) L O X ∧ same_user PG (mem s) (mem (pte_put t va e s)).
Proof using Hinv Hpg Hva Ht.
  intros Hin He HP Hf HW. pose proof (put_post e He) as Hpost. split.
  - by eapply vm_inv_reflag.
  - intros pg' va' Hpg' Hva'. destruct (user_va_vpn va' Hva') as [Hu' Hv'].
    destruct (user_va _ Hv') as [Hu2 E2].
    eapply user_byte_post; try done. unfold put_entry. rewrite E2.
    destruct (decide (pg' = pg ∧ vpn va' = vpn va)) as [[-> E]|]; [|done].
    rewrite E. apply (vi_own _ _ _ _ _ _ Hinv) in Hin as (_ & _ & HPe & Hfe).
    split; [by rewrite HP, HPe|]. intros _.
    assert (Hi : ∀ a, is_u32 a → V2P (P2V a) = a) by apply V2P_P2V.
    rewrite <- (Hi (PTE_ADDR e)), <- (Hi (PTE_ADDR (pte_of (mem s) pg (vpn va))))
      by (apply PTE_ADDR_range; done || apply pte_of_u32).
    unfold frame_of in *. congruence.
Qed.

(** Mapping a page the kernel holds at an address that is not mapped. *)
Lemma put_fresh n e :
  has (pte_of (mem s) pg (vpn va)) PTE_P = false →
  valid_page n → n ∉ L → ¬ pt_page (mem s) PG n → O n = ∅ → X n = 1 →
  is_u32 e → has e PTE_P = true → frame_of e = n →
  vm_inv d PG (pte_put t va e s) L (put_owner O pg (vpn va) e) (fupd X n 0) ∧
  (∀ w, valid_page w → w ∉ L → ¬ pt_page (mem s) PG w →
     agree_page (mem s) (mem (pte_put t va e s)) w ∧
     ¬ pt_page (mem (pte_put t va e s)) PG w) ∧
  (∀ pg' va', pg' ∈ PG → user_va_ok va' → ¬ (pg' = pg ∧ vpn va' = vpn va) →
     user_byte (mem (pte_put t va e s)) pg' va' = user_byte (mem s) pg' va').
Proof using Hinv Hpg Hva Ht.
  intros HP0 Hn HnL Hnp HO HX He HP Hf. destruct (user_va_vpn va Hva) as [Hu Hv].
  pose proof (put_post e He) as Hpost.
  assert (Hnone : ∀ h, (pg, vpn va) ∉ O h).
  { intros h (_ & _ & HP' & _)%(vi_own _ _ _ _ _ _ Hinv). congruence. }
  split; [|split].
  - eapply vm_inv_ext; [eapply vm_inv_put; [exact Hinv|exact Hpg|exact Hv|exact Hpost|]|done|].
    + split; rewrite Hf, ?HO; [done|intros; set_solver|intros; set_solver].
    + intros h. unfold put_extra, fupd. case_decide as Hh.
      * subst h. rewrite <- Hf at 3. rewrite put_owner_new by (done || by rewrite Hf, HO).
        rewrite Hf, HX. lia.
      * rewrite put_owner_ne; [lia|done|by rewrite Hf].
  - intros w Hw HwL Hwp. split; [by apply (vp_frame _ _ _ _ _ _ _ Hpost)|].
    rewrite (vp_pt _ _ _ _ _ _ _ Hpost). tauto.
  - intros pg' va' Hpg' Hva' Hne. destruct (user_va_vpn va' Hva') as [Hu' Hv'].
    destruct (user_va _ Hv') as [_ E2]. eapply user_byte_post; try done.
    unfold put_entry. rewrite E2, decide_False by done. done.
Qed.
End Store.

(** ** Stores by user code

    The processor stores a byte to [va] if the page is present, writable and a
    user page. *)

Definition user_store (m : memory) (pg va b : Z) : option memory :=
  let e := lookup_pte m pg va in
  if has e PTE_P && has e PTE_W && has e PTE_U
  then Some (st8 m (PTE_ADDR e + va mod PGSIZE) b) else None.

(** A store reaches no address space but the one it is made in, and there
    only its own address. *)
Lemma user_store_private d PG s L O X pg va b m' :
  vm_inv d PG s L O X → pg ∈ PG → user_va_ok va →
  user_store (mem s) pg va b = Some m' →
  vm_inv d PG (set_mem m' s) L O X ∧
  ∀ pg' va', pg' ∈ PG → user_va_ok va' → user_byte m' pg' va' =
    if decide (pg' = pg ∧ va' = va) then Some (u8 b) else user_byte (mem s) pg' va'.
Proof.
  intros Hinv Hpg Hva. destruct (user_va_vpn va Hva) as [Hu Hv].
  unfold user_store. rewrite lookup_pte_vpn by done. set (e := pte_of (mem s) pg (vpn va)).
  destruct (has e PTE_P) eqn:HP, (has e PTE_W) eqn:HW, (has e PTE_U) eqn:HU; try done.
  intros [= <-]. set (f := frame_of e).
  assert (Hin : (pg, vpn va) ∈ O f) by (by apply (vi_own _ _ _ _ _ _ Hinv)).
  pose proof (vi_write _ _ _ _ _ _ Hinv _ _ _ Hin HW) as HO.
  destruct (vi_page _ _ _ _ _ _ Hinv _ _ _ Hin) as (Hf & HfL & Hfp).
  assert (Ea : PTE_ADDR e = V2P f) by (symmetry; apply frame_of_V2P; [done|apply pte_of_u32]).
  rewrite Ea. set (a := V2P f + va mod PGSIZE).
  assert (Ha : V2P f ≤ a < V2P f + 4096) by (subst a; unfold PGSIZE; dlia).
  assert (Hag : ∀ w, valid_page w → w ≠ f → agree_page (mem s) (st8 (mem s) a b) w).
  { intros w Hw Hne y Hy. apply ld8_st8_ne. destruct (pages_disjoint w f Hw Hf Hne); lia. }
  assert (Hinv' : vm_inv d PG (set_mem (st8 (mem s) a b) s) L O X) by (by eapply vm_inv_data).
  split; [done|]. intros pg' va' Hpg' Hva'. destruct (user_va_vpn va' Hva') as [Hu' Hv'].
  destruct (decide (pg' = pg ∧ vpn va' = vpn va)) as [[-> Ev]|Hd].
  - assert (Eva : va' = 4096 * vpn va + Z.of_nat (Z.to_nat (va' mod 4096))) by (rewrite <- Ev; unfold vpn; dlia).
    assert (Hk : Z.of_nat (Z.to_nat (va' mod 4096)) < 4096) by dlia.
    assert (Eva0 : va = 4096 * vpn va + va mod 4096) by (unfold vpn; dlia).
    set (k := Z.to_nat (va' mod 4096)) in *.
    assert (E1 : user_byte (st8 (mem s) a b) pg va' = Some (ld8 (st8 (mem s) a b) (V2P f + Z.of_nat k)))
      by (rewrite Eva; by apply (user_byte_page _ _ _ _ _ _ _ _ _ k Hinv')).
    assert (E2 : user_byte (mem s) pg va' = Some (ld8 (mem s) (V2P f + Z.of_nat k)))
      by (rewrite Eva; by apply (user_byte_page _ _ _ _ _ _ _ _ _ k Hinv)).
    rewrite E1, E2. subst a. destruct (decide (va' = va)) as [->|Hne].
    + rewrite decide_True by done. replace (Z.of_nat k) with (va mod PGSIZE) by (unfold PGSIZE; lia).
      by rewrite ld8_st8.
    + rewrite decide_False by tauto. rewrite ld8_st8_ne; [done|]. unfold PGSIZE. lia.
  - rewrite decide_False by (intros [-> ->]; by apply Hd).
    apply (user_byte_same _ _ _ _ _ _ _ _ _ Hinv); try done.
    + replace (pte_of (st8 (mem s) a b) pg' (vpn va')) with (pte_of (mem s) pg' (vpn va')); [done|].
      symmetry. apply (lookup_pte_frame _ _ PG); [|done]. intros w Hw.
      destruct (pt_page_valid _ _ _ _ (vi_wf _ _ _ _ _ _ Hinv) Hw). apply Hag; [done|]. by intros ->.
    + intros h Hh. destruct (vi_page _ _ _ _ _ _ Hinv _ _ _ Hh) as (? & ? & _). apply Hag; [done|].
      intros ->. rewrite HO in Hh. apply elem_of_singleton in Hh. injection Hh. intros. by apply Hd.
Qed.

End Vmspace.
