(* ===== verification/UvmInv.v ===== *)
(** * UvmInv: the accounting of pages while address spaces come and go

    Steps on physical memory that [vm.c] is made of, and what they do to
    [vm_inv]: unmapping a page, adding a page directory, sharing a page
    between two directories, and taking a directory out. *)

From S2P Require Import Prelude Mmu Phys Config Kalloc PageTable Vmspace.

Section UvmInv.
Context `{Config}.

Notation owners := (Z → gset (Z * Z)).

(** ** Memory that looks the same *)

Lemma vm_inv_agree d PG s L O X m' :
  vm_inv d PG s L O X → (∀ w, w ∈ L ∨ pt_page (mem s) PG w → agree_page (mem s) m' w) →
  vm_inv d PG (set_mem m' s) L O X.
Proof.
  intros [Hk Hw Ho Hp Hr Ht Hwr Hz] Hag.
  assert (Hpt : ∀ w, pt_page m' PG w ↔ pt_page (mem s) PG w).
  { apply pt_page_frame. intros pg Hpg. apply Hag. right. by left. }
  assert (Hlk : ∀ pg v, pg ∈ PG → pte_of m' pg v = pte_of (mem s) pg v).
  { intros pg v Hpg. apply (lookup_pte_frame _ _ PG); [auto|done]. }
  split; cbn [mem set_mem referenceCounters].
  - apply kmem_inv_set_mem; [done|]. auto.
  - eapply pt_wf_frame; [|done]. auto.
  - intros g pg v. rewrite Ho. unfold maps.
    split; intros (H1 & H2 & H3); rewrite Hlk in * by done; done.
  - intros g pg v Hin. rewrite Hpt. eauto.
  - intros g. rewrite Hpt. auto.
  - intros g. rewrite Hpt. auto.
  - intros g pg v Hin. apply Ho in Hin as Hin'. destruct Hin' as (? & _).
    rewrite Hlk by done. by apply Hwr.
  - intros g. rewrite Hpt. auto.
Qed.

(** ** Unmapping a page *)

(** No page is lost: a page that is neither free nor a page table nor mapped
    is referenced by the kernel. *)
Definition tight (PG : list Z) (s : phys) (L : list Z) (O : owners) (X : Z → Z) : Prop :=
  ∀ f, valid_page f → f ∉ L → ¬ pt_page (mem s) PG f → O f = ∅ → 1 ≤ X f.

(** The pages [v] of [pg] with [R v] have been unmapped: [s'], [L'] and [O'] are
    what [s], [L] and [O] became. *)
Record unmapped (d : Z) (PG : list Z) (s : phys) (L : list Z) (O : owners) (X : Z → Z)
    (pg : Z) (R : Z → Prop) (s' : phys) (L' : list Z) (O' : owners) : Prop := {
  um_inv : vm_inv d PG s' L' O' X;
  um_own : ∀ f pg' v, (pg', v) ∈ O' f ↔ (pg', v) ∈ O f ∧ ¬ (pg' = pg ∧ R v);
  um_user : ∀ pg' va, pg' ∈ PG → user_va_ok va → ¬ (pg' = pg ∧ R (vpn va)) →
    user_byte (mem s') pg' va = user_byte (mem s) pg' va;
  um_tab : ∀ pg' i, pg' ∈ PG → 0 ≤ i < 1024 → tab (mem s') pg' i = tab (mem s) pg' i;
  um_pte : ∀ pg' v, pg' ∈ PG → user_vpn v → ¬ (pg' = pg ∧ R v) →
    pte_of (mem s') pg' v = pte_of (mem s) pg' v;
  um_free : ∃ A, L' = A ++ L;
  um_tight : tight PG s L O X → tight PG s' L' O' X;
  um_lock : use_lock s' = use_lock s
}.

Lemma unmapped_refl d PG s L O X pg :
  vm_inv d PG s L O X → unmapped d PG s L O X pg (λ _, False) s L O.
Proof. intros. split; try done; [tauto|by exists []]. Qed.

Lemma unmapped_trans d PG s L O X pg R1 R2 s1 L1 O1 s2 L2 O2 :
  unmapped d PG s L O X pg R1 s1 L1 O1 → unmapped d PG s1 L1 O1 X pg R2 s2 L2 O2 →
  unmapped d PG s L O X pg (λ v, R1 v ∨ R2 v) s2 L2 O2.
Proof.
  intros [I1 Ow1 U1 T1 P1 [A1 ->] Ti1 Lk1] [I2 Ow2 U2 T2 P2 [A2 ->] Ti2 Lk2]. split; [done|..].
  - intros f pg' v. rewrite Ow2, Ow1. tauto.
  - intros pg' va Hpg Hva Hn. rewrite U2, U1; tauto.
  - intros pg' i Hpg Hi. by rewrite T2, T1.
  - intros pg' v Hpg Hv Hn. rewrite P2, P1; tauto.
  - exists (A2 ++ A1). by rewrite app_assoc.
  - auto.
  - congruence.
Qed.

Lemma unmapped_ext d PG s L O X pg (R R' : Z → Prop) s' L' O' :
  vm_inv d PG s L O X →
  unmapped d PG s L O X pg R s' L' O' → (∀ v, user_vpn v → R v ↔ R' v) →
  unmapped d PG s L O X pg R' s' L' O'.
Proof.
  intros Hinv [I1 Ow1 U1 T1 P1 A1 Ti1 Lk1] HR. split; try done.
  - intros f pg' v. rewrite Ow1. split; intros [Hin Hn]; (split; [done|]); intros [-> Hr]; apply Hn;
      apply (vi_own _ _ _ _ _ _ Hinv) in Hin as (_ & Hv & _); (split; [done|by apply HR]).
  - intros pg' va Hpg Hva Hn. apply U1; [done|done|]. rewrite HR by (by apply user_va_vpn). done.
  - intros pg' v Hpg Hv Hn. apply P1; [done|done|]. by rewrite HR.
Qed.

Section Unmap.
Context (d : Z) (PG : list Z) (s : phys) (L : list Z) (O : owners) (X : Z → Z).
Context (pg va t f : Z).
Hypothesis Hinv : vm_inv d PG s L O X.
Hypothesis Hva : user_va_ok va.
Hypothesis Ht : tab (mem s) pg (PDX va) = Some t.
Hypothesis Hin : (pg, vpn va) ∈ O f.
Hypothesis HX : X f = 0.

Let O' := put_owner O pg (vpn va) 0.

Lemma unmap_put : vm_inv d PG (pte_put t va 0 s) L O' (fupd X f 1) ∧ ¬ pt_page (mem (pte_put t va 0 s)) PG f.
Proof.
  pose proof Hin as (Hpg & Hv & HP & Hf)%(vi_own _ _ _ _ _ _ Hinv).
  pose proof (put_post d PG s L O X pg va t Hinv Hpg Hva Ht 0 ltac:(unfold is_u32; lia)) as Hpost.
  destruct (vi_page _ _ _ _ _ _ Hinv _ _ _ Hin) as (Hfv & HfL & Hfp). split.
  - eapply vm_inv_ext; [eapply vm_inv_put; [done|done|done|exact Hpost|by split]|done|].
    intros g. unfold put_extra, fupd. destruct (decide (g = f)) as [->|Hne].
    + rewrite put_owner_old by done. lia.
    + rewrite put_owner_ne; [lia| |done]. intros Hg. by apply Hne, (owner_unique _ _ _ _ _ _ _ _ _ _ Hinv Hg).
  - rewrite (vp_pt _ _ _ _ _ _ _ Hpost). tauto.
Qed.

Lemma agree_st32_cong m m' a w v : agree_page m m' v → agree_page (st32 m a w) (st32 m' a w) v.
Proof.
  intros Ha x Hx. specialize (Ha x Hx). unfold ld8, st32, st8 in *. repeat case_match; done.
Qed.

Lemma unmap_tab_ne : t ≠ f ∧ valid_page t ∧ valid_page f ∧ f ∉ L ∧ ¬ pt_page (mem s) PG f ∧ pg ∈ PG.
Proof.
  pose proof Hin as (Hpg & _)%(vi_own _ _ _ _ _ _ Hinv).
  destruct (vi_page _ _ _ _ _ _ Hinv _ _ _ Hin) as (Hfv & HfL & Hfp).
  destruct (pw_tabs _ _ _ (vi_wf _ _ _ _ _ _ Hinv) pg _ t Hpg (PDX_range va) Ht) as (Htv & _).
  split; [|done]. intros ->. apply Hfp. right. exists pg, (PDX va). auto using PDX_range.
Qed.

(** The memory after [kfree] and after the entry is cleared. *)
Lemma unmap_order :
  ∃ s1 s2, kfree f s = Ok tt s1 ∧ kstore32 (t + 4 * PTX va) 0 s1 = Ok tt s2 ∧
    vm_inv d PG s2 (kfree_free f s L) O' X ∧
    ∀ w, valid_page w → w ≠ f ∨ O' f ≠ ∅ → agree_page (mem (pte_put t va 0 s)) (mem s2) w.
Proof.
  destruct unmap_put as [HinvA HptA]. destruct unmap_tab_ne as (Htf & Htv & Hfv & HfL & Hfp & Hpg).
  destruct (vm_inv_kfree _ _ _ _ _ _ f HinvA Hfv HfL HptA) as (sB & EB & HinvB & HagB & _);
    [unfold fupd; rewrite decide_True by done; lia|].
  assert (HXe : ∀ g, fupd (fupd X f 1) f (fupd X f 1 f - 1) g = X g).
  { intros g. unfold fupd. destruct (decide (g = f)) as [->|]; [|done]. rewrite decide_True by done. lia. }
  assert (HB : vm_inv d PG sB (kfree_free f s L) O' X) by (eapply vm_inv_ext; [exact HinvB|done|exact HXe]).
  pose proof (vi_kmem _ _ _ _ _ _ Hinv) as Hk.
  assert (Href : referenceCounters s (pfn f) ≠ 0).
  { rewrite (vi_ref _ _ _ _ _ _ Hinv f Hfv HfL Hfp). pose proof (size_owner O f _ _ Hin). lia. }
  assert (HkA : kmem_locked (pte_put t va 0 s) = false) by apply (ki_unlocked _ _ _ Hk).
  rewrite kfree_eq in EB by (try done; apply (ki_u32 _ _ _ Hk)).
  rewrite kfree_eq by (done || apply (ki_unlocked _ _ _ Hk) || apply (ki_u32 _ _ _ Hk)).
  cbn [pte_put set_mem referenceCounters] in EB. pose proof (PTX_range va).
  assert (Hst : ∀ s0, kstore32 (t + 4 * PTX va) 0 s0 = Ok tt (pte_put t va 0 s0)).
  { intros s0. rewrite kstore32_eq by (by apply slot_kaddr). by rewrite slot_V2P. }
  destruct (1 <? referenceCounters s (pfn f)) eqn:Hr; injection EB as <-.
  - eexists _, _. split; [done|]. split; [apply Hst|]. split; [exact HB|]. intros w Hw _. apply agree_page_refl.
  - eexists _, _. split; [done|]. split; [apply Hst|].
    assert (Hall : ∀ w, valid_page w →
      agree_page (mem (kfree_last f (pte_put t va 0 s))) (mem (pte_put t va 0 (kfree_last f s))) w).
    { intros w Hw. destruct (decide (w = f)) as [->|Hne].
      - eapply agree_page_trans; [|by apply agree_page_st32]. cbn [kfree_last mem pte_put set_mem].
        apply agree_st32_cong. intros x Hx. rewrite !ld8_fill_in by (unfold PGSIZE; lia). done.
      - intros x Hx. rewrite (kfree_agree _ f w Hfv Hw Hne x Hx).
        apply (agree_st32_cong (mem s) (mem (kfree_last f s)) (V2P t + 4 * PTX va) 0 w); [|done].
        by apply kfree_agree. }
    assert (HO0 : O' f = ∅).
    { pose proof (vi_ref _ _ _ _ _ _ HinvA f Hfv HfL HptA) as E. apply leibniz_equiv, size_empty_inv.
      unfold fupd in E. rewrite decide_True in E by done. apply Z.ltb_ge in Hr. cbn [pte_put set_mem referenceCounters] in E. lia. }
    split.
    + change (pte_put t va 0 (kfree_last f s)) with
        (set_mem (mem (pte_put t va 0 (kfree_last f s))) (kfree_last f (pte_put t va 0 s))).
      eapply vm_inv_agree; [exact HB|]. intros w [Hw|Hw]; apply Hall.
      * by apply (proj1 (Forall_forall _ _) (ki_valid _ _ _ (vi_kmem _ _ _ _ _ _ HB))).
      * by apply (pt_page_valid _ _ _ _ (vi_wf _ _ _ _ _ _ HB) Hw).
    + intros w Hw [Hne|?]; [|done]. apply (agree_page_trans _ (mem (kfree_last f (pte_put t va 0 s)))); [by apply kfree_agree|by apply Hall].
Qed.

Lemma unmap_page :
  ∃ s1 s2 L', kfree f s = Ok tt s1 ∧ kstore32 (t + 4 * PTX va) 0 s1 = Ok tt s2 ∧
    unmapped d PG s L O X pg (λ v, v = vpn va) s2 L' O' ∧ pte_of (mem s2) pg (vpn va) = 0 ∧
    (L' = L ∧ 2 ≤ Z.of_nat (size (O f)) ∨ L' = f :: L ∧ Z.of_nat (size (O f)) = 1).
Proof.
  destruct unmap_order as (s1 & s2 & E1 & E2 & Hinv2 & Hag). exists s1, s2, (kfree_free f s L).
  destruct unmap_tab_ne as (Htf & Htv & Hfv & HfL & Hfp & Hpg). destruct (user_va_vpn va Hva) as [Hu Hv].
  pose proof (put_post d PG s L O X pg va t Hinv Hpg Hva Ht 0 ltac:(unfold is_u32; lia)) as Hpost.
  destruct unmap_put as [HinvA HptA].
  assert (Href : referenceCounters s (pfn f) = Z.of_nat (size (O f)))
    by (rewrite (vi_ref _ _ _ _ _ _ Hinv f Hfv HfL Hfp); lia).
  assert (Hsz : Z.of_nat (size (O' f)) = Z.of_nat (size (O f)) - 1) by (by apply put_owner_old).
  pose proof (size_owner O f _ _ Hin) as Hpos.
  assert (Hne : ∀ g, g ≠ f → O' g = O g).
  { intros g Hg. apply put_owner_ne; [|done]. intros Hin'. by apply Hg, (owner_unique _ _ _ _ _ _ _ _ _ _ Hinv Hin'). }
  assert (Hagpt : ∀ w, pt_page (mem (pte_put t va 0 s)) PG w → agree_page (mem (pte_put t va 0 s)) (mem s2) w).
  { intros w Hw. apply Hag; [|left; by intros ->].
    by apply (pt_page_valid _ _ _ _ (vi_wf _ _ _ _ _ _ HinvA) Hw). }
  assert (Hpte : ∀ pg' v, pg' ∈ PG → user_vpn v → pte_of (mem s2) pg' v =
    if decide (pg' = pg ∧ v = vpn va) then 0 else pte_of (mem s) pg' v).
  { intros pg' v Hpg' Hv'. unfold pte_of at 1. rewrite (lookup_pte_frame _ _ PG _ _ Hagpt Hpg').
    apply (put_pte_of d PG s L O X pg va t Hinv Hpg Hva Ht 0 v); [unfold is_u32; lia|done|done]. }
  split; [done|]. split; [done|]. split; [split|split].
  - done.
  - intros g pg' v. unfold O'. rewrite elem_put_owner. case_decide as Hd.
    + injection Hd as -> ->. split; [by intros [? _]|]. intros [_ Hn]. exfalso. by apply Hn.
    + split; [intros Hg; split; [done|]; intros [-> ->]; by apply Hd|by intros [? _]].
  - intros pg' va' Hpg' Hva' Hn. destruct (user_va_vpn va' Hva') as [_ Hv'].
    eapply user_byte_same; [exact Hinv|done|done| |].
    + rewrite Hpte by done. by rewrite decide_False.
    + intros g Hg. destruct (vi_page _ _ _ _ _ _ Hinv _ _ _ Hg) as (Hgv & HgL & Hgp).
      eapply agree_page_trans; [by apply (vp_frame _ _ _ _ _ _ _ Hpost)|]. apply Hag; [done|].
      destruct (decide (g = f)) as [->|]; [right|by left]. intros E.
      assert (Hin2 : (pg', vpn va') ∈ O' f).
      { unfold O'. apply elem_put_owner. rewrite decide_False; [done|]. intros [= -> Hx]. by apply Hn. }
      rewrite E in Hin2. by apply elem_of_empty in Hin2.
  - intros pg' i Hpg' Hi. rewrite (tab_frame (mem (pte_put t va 0 s))); [|apply Hagpt; by left|done].
    cbn [pte_put set_mem mem]. by rewrite (entry_tab _ _ _ _ _ _ _ (vi_wf _ _ _ _ _ _ Hinv) Hpg Ht).
  - intros pg' v Hpg' Hv' Hn. rewrite Hpte by done. by rewrite decide_False.
  - unfold kfree_free. case_match; [by exists []|by exists [f]].
  - intros Hti g Hg HgL Hgp HO. rewrite (pt_page_frame (mem (pte_put t va 0 s))), (vp_pt _ _ _ _ _ _ _ Hpost) in Hgp
      by (intros pg' Hpg'; apply Hagpt; by left).
    unfold kfree_free in HgL. rewrite Href in HgL. destruct (decide (g = f)) as [->|Hgf].
    + exfalso. rewrite HO in Hsz. rewrite size_empty in Hsz. rewrite (proj2 (Z.ltb_ge 1 _)) in HgL by lia.
      apply HgL. by left.
    + apply Hti; [done| |tauto|by rewrite <- Hne]. intros HL. apply HgL. case_match; [done|by right].
  - assert (Hlk : use_lock s1 = use_lock s).
    { revert E1. rewrite kfree_eq; [|apply (ki_unlocked _ _ _ (vi_kmem _ _ _ _ _ _ Hinv))|done|
        apply (ki_u32 _ _ _ (vi_kmem _ _ _ _ _ _ Hinv))|lia]. case_match; by intros [= <-]. }
    rewrite kstore32_eq in E2 by (apply slot_kaddr; auto using PTX_range). by injection E2 as <-.
  - rewrite Hpte by done. by rewrite decide_True.
  - unfold kfree_free. rewrite Href. destruct (Z.ltb_spec 1 (Z.of_nat (size (O f)))); [left|right]; (split; [done|lia]).
Qed.
End Unmap.

(** ** A new page directory *)

Lemma tab_zero m n i :
  ld32 m (V2P n + 4 * i) = 0 → tab m n i = None.
Proof. intros E. unfold tab. by rewrite E. Qed.

Lemma new_dir_pt m m' PG n :
  (∀ pg, pg ∈ PG → agree_page m m' pg) → (∀ i, 0 ≤ i < 1024 → ld32 m' (V2P n + 4 * i) = 0) →
  ∀ f, pt_page m' (n :: PG) f ↔ f = n ∨ pt_page m PG f.
Proof.
  intros Hag Hz f. unfold pt_page. split.
  - intros [[->|Hf]%elem_of_cons|(pg & i & [->|Hpg]%elem_of_cons & Hi & Ht)]; [by left|right; by left| |].
    + by rewrite tab_zero in Ht by auto.
    + right. right. exists pg, i. by rewrite (tab_frame m m') in Ht by auto.
  - intros [->|[Hf|(pg & i & Hpg & Hi & Ht)]]; [left; by left|left; by right|].
    right. exists pg, i. rewrite (tab_frame m m') by auto. split; [by right|done].
Qed.

Lemma vm_inv_new_dir d PG s L O X n m' :
  vm_inv d PG s L O X → valid_page n → n ∉ L → ¬ pt_page (mem s) PG n → O n = ∅ → X n = 1 →
  (∀ w, valid_page w → w ≠ n → agree_page (mem s) m' w) →
  (∀ i, 0 ≤ i < 1024 → ld32 m' (V2P n + 4 * i) = 0) →
  vm_inv d (n :: PG) (set_mem m' s) L O (fupd X n 0) ∧ (∀ v, pte_of m' n v = 0).
Proof.
  intros Hinv Hn HnL Hnp HO HX Hag Hz. pose proof Hinv as [Hk Hw Ho Hp Hr Ht Hwr Hz0].
  assert (Hagpt : ∀ w, pt_page (mem s) PG w → agree_page (mem s) m' w).
  { intros w Hpt. destruct (pt_page_valid _ _ _ _ Hw Hpt). apply Hag; [done|]. by intros ->. }
  pose proof (new_dir_pt (mem s) m' PG n (λ pg Hpg, Hagpt pg (or_introl Hpg)) Hz) as Hpt.
  assert (Htab : ∀ pg i, pg ∈ PG → 0 ≤ i < 1024 → tab m' pg i = tab (mem s) pg i).
  { intros pg i Hpg Hi. apply tab_frame; [apply Hagpt; by left|done]. }
  assert (Hpte : ∀ v, pte_of m' n v = 0).
  { intros v. unfold pte_of, lookup_pte. by rewrite tab_zero by (apply Hz, PDX_range). }
  assert (Hlk : ∀ pg v, pg ∈ PG → pte_of m' pg v = pte_of (mem s) pg v).
  { intros pg v Hpg. by apply (lookup_pte_frame _ _ PG). }
  split; [|done]. split; cbn [mem set_mem referenceCounters].
  - apply kmem_inv_set_mem; [done|]. intros w HwL. apply Hag; [|by intros ->].
    by apply (proj1 (Forall_forall _ _) (ki_valid _ _ _ Hk)).
  - destruct Hw as [Hd Htb Hinj]. split.
    + intros pg [->|Hpg]%elem_of_cons; [done|by apply Hd].
    + intros pg i t [->|Hpg]%elem_of_cons Hi; [by rewrite tab_zero by auto|]. rewrite Htab by done. intros Et.
      destruct (Htb pg i t Hpg Hi Et) as (?&?&?). split; [done|]. split; [done|].
      intros [->|?]%elem_of_cons; [|done]. apply Hnp. right. eauto.
    + intros pg pg' i j t [->|Hpg]%elem_of_cons [->|Hpg']%elem_of_cons Hi Hj;
        rewrite ?(tab_zero m' n) by auto; try done. rewrite !Htab by done. by apply Hinj.
  - intros f pg v. rewrite Ho, elem_of_cons. unfold maps. split.
    + intros (Hpg & Hv & Hm). rewrite Hlk by done. auto.
    + intros ([->|Hpg] & Hv & Hm); [rewrite Hpte in Hm; by destruct Hm|]. by rewrite Hlk in Hm.
  - intros f pg v Hin. destruct (Hp _ _ _ Hin) as (? & ? & ?). rewrite Hpt. split; [done|]. split; [done|].
    intros [->|?]; [|done]. rewrite HO in Hin. by apply elem_of_empty in Hin.
  - intros f Hf HfL Hfp. rewrite Hpt in Hfp. unfold fupd. rewrite decide_False by tauto. apply Hr; tauto.
  - intros f [->|Hf]%Hpt; [|by apply Ht]. rewrite (Hr n) by done. rewrite HO, HX, size_empty. done.
  - intros f pg v Hin HW. apply Ho in Hin as Hin'. destruct Hin' as (? & _). rewrite Hlk in HW by done. by apply Hwr.
  - intros f Hf. unfold fupd. case_decide; [done|]. apply Hz0. rewrite Hpt in Hf. tauto.
Qed.

(** ** Taking a page directory out *)

Definition dir_tabs (m : memory) (pg : Z) (l : list Z) : list Z := omap (tab m pg) l.

Lemma elem_dir_tabs m pg l f : f ∈ dir_tabs m pg l ↔ ∃ i, i ∈ l ∧ tab m pg i = Some f.
Proof. apply list_elem_of_omap. Qed.

Definition with_tabs (X : Z → Z) (P : list Z) : Z → Z := λ f, if decide (f ∈ P) then 1 else X f.

Lemma vm_inv_drop_dir d PG s L O X pg :
  vm_inv d (pg :: PG) s L O X → pg ∉ PG → (∀ f v, (pg, v) ∉ O f) →
  vm_inv d PG s L O (with_tabs X (pg :: dir_tabs (mem s) pg (seqZ 0 NPDENTRIES))) ∧
  (∀ f, pt_page (mem s) (pg :: PG) f ↔
     f ∈ pg :: dir_tabs (mem s) pg (seqZ 0 NPDENTRIES) ∨ pt_page (mem s) PG f) ∧
  ∀ f, f ∈ pg :: dir_tabs (mem s) pg (seqZ 0 NPDENTRIES) → ¬ pt_page (mem s) PG f.
Proof.
  intros [Hk Hw Ho Hp Hr Ht Hwr Hz] Hpg Hno. set (P := pg :: dir_tabs (mem s) pg (seqZ 0 NPDENTRIES)).
  assert (HP : ∀ f, f ∈ P ↔ f = pg ∨ ∃ i, 0 ≤ i < 1024 ∧ tab (mem s) pg i = Some f).
  { intros f. unfold P. rewrite elem_of_cons, elem_dir_tabs. setoid_rewrite elem_of_seqZ. unfold NPDENTRIES.
    split; (intros [?|(i & ? & ?)]; [by left|right; exists i; split; [lia|done]]). }
  assert (Hpt : ∀ f, pt_page (mem s) (pg :: PG) f ↔ f ∈ P ∨ pt_page (mem s) PG f).
  { intros f. rewrite HP. unfold pt_page. split.
    - intros [[->|?]%elem_of_cons|(pg' & i & [->|?]%elem_of_cons & ? & ?)]; eauto 10.
    - intros [[->|(i & ? & ?)]|[?|(pg' & i & ? & ? & ?)]].
      + left. by left.
      + right. exists pg, i. split; [by left|done].
      + left. by right.
      + right. exists pg', i. split; [by right|done]. }
  destruct Hw as [Hd Htb Hinj].
  assert (Hdis : ∀ f, f ∈ P → ¬ pt_page (mem s) PG f).
  { intros f Hf. apply HP in Hf as [->|(i & Hi & Hti)].
    - intros [?|(pg' & i & Hpg' & Hi & Hti)]; [done|].
      destruct (Htb pg' i pg) as (_ & _ & Hn); [by right|done|done|]. apply Hn. by left.
    - intros [Hf|(pg' & j & Hpg' & Hj & Htj)].
      + destruct (Htb pg i f) as (_ & _ & Hn); [by left|done|done|]. apply Hn. by right.
      + destruct (Hinj pg pg' i j f) as [-> _]; [by left|by right|done..]. }
  split; [|split; [exact Hpt|exact Hdis]].
  assert (HOP : ∀ f pg' v, (pg', v) ∈ O f → pg' ∈ PG ∧ f ∉ P).
  { intros f pg' v Hin. destruct (Hp f pg' v Hin) as (_ & _ & Hnp). rewrite Hpt in Hnp.
    apply Ho in Hin as Hin'. destruct Hin' as ([->|?]%elem_of_cons & _); [by apply Hno in Hin|]. tauto. }
  split; [done|..].
  - split; [intros; apply Hd; by right| |].
    + intros pg' i t Hpg' Hi Et. destruct (Htb pg' i t) as (?&?&Hn); [by right|done|done|].
      split; [done|]. split; [done|]. intros ?. apply Hn. by right.
    + intros pg1 pg2 i j t H1 H2. apply Hinj; by right.
  - intros f pg' v. split.
    + intros Hin. destruct (HOP _ _ _ Hin). by apply Ho in Hin as (_ & ?).
    + intros (? & ?). apply Ho. split; [by right|done].
  - intros f pg' v Hin. destruct (Hp f pg' v Hin) as (? & ? & Hnp). rewrite Hpt in Hnp. tauto.
  - intros f Hf HfL Hfp. unfold with_tabs. case_decide as HfP.
    + rewrite Ht by (apply Hpt; by left). assert (O f = ∅) as ->; [|rewrite size_empty; done].
      apply empty_owner. intros pg' v Hin. by destruct (HOP _ _ _ Hin).
    + apply Hr; [done|done|]. rewrite Hpt. tauto.
  - intros f Hf. apply Ht, Hpt. by right.
  - done.
  - intros f Hf. unfold with_tabs. rewrite decide_False.
    + apply Hz. destruct Hf; [by left|right; apply Hpt; by right].
    + intros HfP. destruct Hf as [HfL|Hf]; [|by apply (Hdis f)].
      apply HP in HfP as [->|(i & Hi & Hti)].
      * by destruct (Hd pg ltac:(by left)).
      * by destruct (Htb pg i f ltac:(by left) Hi Hti) as (_ & ? & _).
Qed.

(** The loop of [freevm] over the entries [l] of the directory [pd]. *)
Definition free_tabs (pd : Z) (l : list Z) : M phys unit :=
  forM l (λ i, e ← kload32 (pd + 4 * i); when (has e PTE_P) (kfree (P2V (PTE_ADDR e)))).

Lemma kfree_exclusive d PG s L O X f :
  vm_inv d PG s L O X → valid_page f → X f = 1 → O f = ∅ →
  ∃ s', kfree f s = Ok tt s' ∧ vm_inv d PG s' (f :: L) O (fupd X f 0) ∧
    (∀ w, valid_page w → w ≠ f → agree_page (mem s) (mem s') w) ∧ use_lock s' = use_lock s.
Proof.
  intros Hinv Hf HX HO.
  assert (HfL : f ∉ L) by (intros ?; rewrite (vi_zero _ _ _ _ _ _ Hinv f) in HX by (by left); done).
  assert (Hfp : ¬ pt_page (mem s) PG f) by (intros ?; rewrite (vi_zero _ _ _ _ _ _ Hinv f) in HX by (by right); done).
  destruct (vm_inv_kfree _ _ _ _ _ _ f Hinv Hf HfL Hfp) as (s' & E & Hinv' & Hag & Hlk); [lia|].
  exists s'. split; [done|]. split; [|split; [auto|done]].
  unfold kfree_free in Hinv'. rewrite (vi_ref _ _ _ _ _ _ Hinv f Hf HfL Hfp), HO, HX, size_empty in Hinv'.
  rewrite (proj2 (Z.ltb_ge 1 _)) in Hinv' by lia. exact Hinv'.
Qed.

Lemma free_tabs_spec d PG O X pd m0 l s L :
  NoDup l → (∀ i, i ∈ l → 0 ≤ i < 1024) →
  (∀ i j t, i ∈ l → j ∈ l → tab m0 pd i = Some t → tab m0 pd j = Some t → i = j) →
  valid_page pd → pd ∉ dir_tabs m0 pd l → Forall valid_page (dir_tabs m0 pd l) →
  (∀ f, f ∈ dir_tabs m0 pd l → O f = ∅ ∧ X f = 0) →
  agree_page m0 (mem s) pd → vm_inv d PG s L O (with_tabs X (pd :: dir_tabs m0 pd l)) →
  ∃ s' A, free_tabs pd l s = Ok tt s' ∧ vm_inv d PG s' (A ++ L) O (with_tabs X [pd]) ∧
    (∀ w, valid_page w → w ∉ dir_tabs m0 pd l → agree_page (mem s) (mem s') w) ∧
    (∀ f, f ∈ A ↔ f ∈ dir_tabs m0 pd l) ∧ use_lock s' = use_lock s.
Proof.
  intros Hnd Hl Hinj Hpd Hpdn Hval HO. revert s L. induction l as [|i l IH]; intros s L Hag Hinv.
  { exists s, []. split; [done|]. split; [done|]. split; [intros; apply agree_page_refl|done]. }
  apply NoDup_cons in Hnd as [Hil Hnd]. pose proof (Hl i ltac:(by left)) as Hi.
  assert (Hload : kload32 (pd + 4 * i) s = Ok (ld32 m0 (V2P pd + 4 * i)) s).
  { rewrite kload32_eq by (by apply slot_kaddr). rewrite slot_V2P by done. by rewrite (agree_page_ld32 m0 (mem s)). }
  assert (Hl' : ∀ j, j ∈ l → 0 ≤ j < 1024) by (intros; apply Hl; by right).
  assert (Hinj' : ∀ a b t, a ∈ l → b ∈ l → tab m0 pd a = Some t → tab m0 pd b = Some t → a = b)
    by (intros a b t Ha Hb; apply Hinj; by right).
  unfold free_tabs. cbn [forM]. unfold dir_tabs in *. cbn [omap list_omap] in *.
  destruct (tab m0 pd i) as [t|] eqn:Et; unfold tab in Et; destruct (has (ld32 m0 _) PTE_P) eqn:EP; try done.
  - injection Et as Et. apply Forall_cons in Hval as [Htv Hval].
    destruct (HO t ltac:(by left)) as [HOt HXt]. apply not_elem_of_cons in Hpdn as [Hpdt Hpdn].
    assert (Htn : t ∉ omap (tab m0 pd) l).
    { intros (j & Hj & Etj)%list_elem_of_omap. apply Hil.
      rewrite (Hinj i j t); [done|by left|by right| |done]. unfold tab. by rewrite EP, Et. }
    destruct (kfree_exclusive _ _ _ _ _ _ t Hinv Htv) as (s1 & E1 & Hinv1 & Hag1 & Hlk1); [|done|].
    { unfold with_tabs. rewrite decide_True by (right; by left). done. }
    destruct (IH Hnd Hl' Hinj' Hpdn Hval (λ f Hf, HO f ltac:(by right)) s1 (t :: L))
      as (s' & A & E & Hinv' & Hag' & HA & Hlk').
    + eapply agree_page_trans; [exact Hag|by apply Hag1].
    + eapply vm_inv_ext; [exact Hinv1|done|]. intros f. unfold fupd, with_tabs. destruct (decide (f = t)) as [->|Hft].
      * rewrite decide_False; [done|]. intros [?|?]%elem_of_cons; [congruence|done].
      * rewrite (decide_ext (f ∈ pd :: t :: omap (tab m0 pd) l) (f ∈ pd :: omap (tab m0 pd) l)); [done|].
        rewrite !elem_of_cons. tauto.
    + exists s', (A ++ [t]). split; [|split; [|split; [|split]]].
      * erewrite bind_ok; [exact E|]. erewrite bind_ok by exact Hload. rewrite EP. cbn [when]. by rewrite Et.
      * by rewrite <- app_assoc.
      * intros w Hw [Hwt Hwn]%not_elem_of_cons. eapply agree_page_trans; [by apply Hag1|by apply Hag'].
      * intros f. rewrite elem_of_app, HA, list_elem_of_singleton, elem_of_cons. tauto.
      * congruence.
  - destruct (IH Hnd Hl' Hinj' Hpdn Hval HO s L Hag Hinv) as (s' & A & E & Hinv' & Hag' & HA & Hlk').
    exists s', A. split; [|done]. erewrite bind_ok; [exact E|]. erewrite bind_ok by exact Hload. by rewrite EP.
Qed.

(** A directory without user mappings is given back, with its tables. *)
Lemma free_dir d PG s L O X pd :
  vm_inv d (pd :: PG) s L O X → pd ∉ PG → (∀ f v, (pd, v) ∉ O f) →
  ∃ s1 s2 A, free_tabs pd (seqZ 0 NPDENTRIES) s = Ok tt s1 ∧ kfree pd s1 = Ok tt s2 ∧
    vm_inv d PG s2 (A ++ L) O X ∧ same_user PG (mem s) (mem s2) ∧
    (∀ pg v, pg ∈ PG → pte_of (mem s2) pg v = pte_of (mem s) pg v) ∧
    (∀ f, f ∈ A ↔ pt_page (mem s) (pd :: PG) f ∧ ¬ pt_page (mem s) PG f) ∧
    (tight (pd :: PG) s L O X → tight PG s2 (A ++ L) O X) ∧ use_lock s2 = use_lock s.
Proof.
  intros Hinv Hpd Hno. pose proof (vi_wf _ _ _ _ _ _ Hinv) as Hw.
  destruct (vm_inv_drop_dir d PG s L O X pd Hinv Hpd Hno) as (Hinv0 & Hpt & Hdis).
  set (T := dir_tabs (mem s) pd (seqZ 0 NPDENTRIES)) in *.
  assert (HT : ∀ t, t ∈ T → ∃ i, 0 ≤ i < 1024 ∧ tab (mem s) pd i = Some t).
  { intros t (i & Hi & Et)%elem_dir_tabs. apply elem_of_seqZ in Hi. exists i. split; [unfold NPDENTRIES in Hi; lia|done]. }
  assert (HPX : ∀ f, f ∈ pd :: T → O f = ∅ ∧ X f = 0 ∧ valid_page f ∧ f ∉ L).
  { intros f Hf. assert (Hp : pt_page (mem s) (pd :: PG) f) by (apply Hpt; by left).
    destruct (pt_page_valid _ _ _ _ Hw Hp). split; [|split; [apply (vi_zero _ _ _ _ _ _ Hinv); by right|done]].
    apply empty_owner. intros pg v Hin. by destruct (vi_page _ _ _ _ _ _ Hinv _ _ _ Hin) as (_ & _ & ?). }
  destruct (HPX pd ltac:(by left)) as (HOpd & HXpd & Hvpd & HpdL).
  destruct (free_tabs_spec d PG O X pd (mem s) (seqZ 0 NPDENTRIES) s L) as (s1 & A & E1 & Hinv1 & Hag1 & HA & Hlk1).
  { apply NoDup_seqZ. }
  { intros i Hi%elem_of_seqZ. unfold NPDENTRIES in Hi. lia. }
  { intros i j t Hi%elem_of_seqZ Hj%elem_of_seqZ Hti Htj. unfold NPDENTRIES in *.
    by destruct (pw_inj _ _ _ Hw pd pd i j t ltac:(by left) ltac:(by left) ltac:(lia) ltac:(lia) Hti Htj). }
  { done. }
  { intros (i & Hi & Et)%HT. destruct (pw_tabs _ _ _ Hw pd i pd ltac:(by left) Hi Et) as (_ & _ & Hn). apply Hn. by left. }
  { apply Forall_forall. intros t Ht. by apply HPX; right. }
  { intros f Hf. destruct (HPX f ltac:(by right)) as (? & ? & _). done. }
  { apply agree_page_refl. }
  { exact Hinv0. }
  destruct (kfree_exclusive _ _ _ _ _ _ pd Hinv1 Hvpd) as (s2 & E2 & Hinv2 & Hag2 & Hlk2); [|done|].
  { unfold with_tabs. by rewrite decide_True by by left. }
  assert (Hagw : ∀ w, valid_page w → w ∉ pd :: T → agree_page (mem s) (mem s2) w).
  { intros w Hwv [? ?]%not_elem_of_cons. eapply agree_page_trans; [by apply Hag1|by apply Hag2]. }
  assert (Hagp : ∀ w, pt_page (mem s) PG w → agree_page (mem s) (mem s2) w).
  { intros w Hp. apply Hagw; [|intros HwT; by apply (Hdis w)]. by apply (pt_page_valid _ _ _ _ (vi_wf _ _ _ _ _ _ Hinv0) Hp). }
  assert (Hpte : ∀ pg v, pg ∈ PG → pte_of (mem s2) pg v = pte_of (mem s) pg v).
  { intros pg v Hpg. by apply (lookup_pte_frame _ _ PG). }
  exists s1, s2, (pd :: A). split; [done|]. split; [done|]. split; [|split; [|split; [done|split; [|split]]]].
  - eapply vm_inv_ext; [exact Hinv2|done|]. intros f. unfold fupd, with_tabs. destruct (decide (f = pd)) as [->|]; [done|].
    rewrite decide_False; [done|]. by rewrite list_elem_of_singleton.
  - intros pg va Hpg Hva. eapply user_byte_same; [exact Hinv0|done|done|by rewrite Hpte|].
    intros f Hin. destruct (vi_page _ _ _ _ _ _ Hinv _ _ _ Hin) as (Hf & _ & Hnp). apply Hagw; [done|].
    intros HfT. apply Hnp, Hpt. by left.
  - intros f. rewrite elem_of_cons, HA. fold T. rewrite Hpt. rewrite elem_of_cons.
    split; [intros Hf; split; [by left|apply Hdis; by apply elem_of_cons]|tauto].
  - intros Hti f Hf HfL Hfp HOf. apply Hti; [done| | |done].
    + intros ?. apply HfL. right. apply elem_of_app. by right.
    + rewrite Hpt. rewrite (pt_page_frame (mem s)) in Hfp by (intros; apply Hagp; by left).
      intros [HfT|?]; [|done]. apply HfL. apply elem_of_cons in HfT as [->|HfT]; [by left|].
      right. apply elem_of_app. left. by apply HA.
  - congruence.
Qed.
End UvmInv.
