(* ===== verification/CopyInv.v ===== *)
(** * CopyInv: sharing a page copy-on-write

    What [copyuvm] does with one page of the parent: the parent's entry loses
    its write permission, the child gets an entry for the same frame, and the
    frame's reference count goes up by one. *)

From S2P Require Import Prelude Mmu Phys Config Kalloc PageTable Vmspace UvmInv.

Section CopyInv.
Context `{ConfigOk}.

Notation owners := (Z → gset (Z * Z)).

(** The parent's entry afterwards, and the child's. *)
Definition cow_of (e : Z) : Z :=
  if has e PTE_W then Z.lor (Z.land e (notu PTE_W)) PTE_COW else e.
Definition child_of (e : Z) : Z :=
  Z.lor (Z.lor (PTE_ADDR e) (PTE_FLAGS (cow_of e))) PTE_P.

Lemma cow_of_bits e :
  is_u32 e →
  is_u32 (cow_of e) ∧ has (cow_of e) PTE_P = has e PTE_P ∧ has (cow_of e) PTE_W = false ∧
  has (cow_of e) PTE_U = has e PTE_U ∧ has (cow_of e) PTE_PG = has e PTE_PG ∧
  PTE_ADDR (cow_of e) = PTE_ADDR e ∧
  (has (cow_of e) PTE_COW = has e PTE_W || has e PTE_COW).
Proof.
  intros He. unfold cow_of. destruct (has e PTE_W) eqn:EW; [|by split_and!].
  assert (is_u32 (Z.land e (notu PTE_W))) by (by apply is_u32_land).
  split_and!; try (by flags).
  - by apply is_u32_lor.
  - rewrite PTE_ADDR_set by done. by rewrite PTE_ADDR_clear by done.
Qed.

(** The child's entry is the parent's. *)
Lemma child_of_eq e : is_u32 e → has e PTE_P = true → child_of e = cow_of e.
Proof.
  intros He HP. destruct (cow_of_bits e He) as (Hu & HP' & HW & HU & _ & HA & _).
  unfold child_of. rewrite <- HA. unfold PTE_ADDR, PTE_FLAGS. apply Z.bits_inj'. intros k Hk.
  rewrite !Z.lor_spec, !Z.land_spec. destruct (decide (k < 32)) as [Hlt|Hge].
  - rewrite notu_spec by lia. destruct (decide (k = 0)) as [->|Hk0].
    + rewrite has_P in HP'. rewrite HP', HP. done.
    + change PTE_P with (2 ^ 0). rewrite Z.pow2_bits_false by lia.
      by destruct (Z.testbit (cow_of e) k), (Z.testbit 0xFFF k).
  - rewrite (testbit_u32_high (cow_of e)) by (done || lia). change PTE_P with (2 ^ 0).
    by rewrite Z.pow2_bits_false by lia.
Qed.

(** ** The parent's entry *)

Section Share.
Context (d : Z) (PG : list Z) (s : phys) (L : list Z) (O : owners) (X : Z → Z).
Context (pd va t f : Z).
Hypothesis Hinv : vm_inv d PG s L O X.
Hypothesis Hva : user_va_ok va.
Hypothesis Ht : tab (mem s) pd (PDX va) = Some t.
Hypothesis Hin : (pd, vpn va) ∈ O f.
Hypothesis HX : X f = 0.
Let e := pte_of (mem s) pd (vpn va).
Let e1 := Z.land e (notu PTE_W).
Let pte := t + 4 * PTX va.

Definition write_protect : phys :=
  if has e PTE_W then pte_put t va (cow_of e) (pte_put t va e1 s) else s.

Lemma share_facts : pd ∈ PG ∧ user_vpn (vpn va) ∧ is_u32 e ∧ has e PTE_P = true ∧ frame_of e = f ∧
  valid_page f ∧ f ∉ L ∧ ¬ pt_page (mem s) PG f.
Proof.
  pose proof Hin as (Hpg & Hv & HP & Hf)%(vi_own _ _ _ _ _ _ Hinv).
  pose proof (vi_page _ _ _ _ _ _ Hinv _ _ _ Hin) as (? & ? & ?).
  split_and!; try done. apply pte_of_u32.
Qed.

Lemma protect_e1 : is_u32 e1 ∧ has e1 PTE_P = true ∧ has e1 PTE_W = false ∧ frame_of e1 = f.
Proof.
  destruct share_facts as (_ & _ & Hu & HP & Hf & _). split; [by apply is_u32_land|].
  split; [rewrite <- HP; unfold e1; by flags|]. split; [unfold e1; by flags|].
  unfold frame_of, e1. by rewrite PTE_ADDR_clear.
Qed.

(** Storing an entry for the same frame without write permission. *)
Lemma protect_put s0 e0 :
  vm_inv d PG s0 L O X → tab (mem s0) pd (PDX va) = Some t →
  is_u32 e0 → has e0 PTE_P = true → has e0 PTE_W = false → frame_of e0 = f →
  kstore32 pte e0 s0 = Ok tt (pte_put t va e0 s0) ∧
  kload32 pte (pte_put t va e0 s0) = Ok e0 (pte_put t va e0 s0) ∧
  vm_inv d PG (pte_put t va e0 s0) L O X ∧ same_user PG (mem s0) (mem (pte_put t va e0 s0)) ∧
  tab (mem (pte_put t va e0 s0)) pd (PDX va) = Some t ∧
  (∀ pg v, pg ∈ PG → user_vpn v → pte_of (mem (pte_put t va e0 s0)) pg v =
     if decide (pg = pd ∧ v = vpn va) then e0 else pte_of (mem s0) pg v) ∧
  (∀ w, pt_page (mem (pte_put t va e0 s0)) PG w ↔ pt_page (mem s0) PG w).
Proof.
  intros Hi0 Ht0 Hu HP HW Hf. destruct share_facts as (Hpg & Hv & _).
  destruct (put_flags d PG s0 L O X pd va t Hi0 Hpg Hva Ht0 f e0 Hin Hu HP Hf) as [Hi1 Hs1]; [by rewrite HW|].
  pose proof (put_tab d PG s0 L O X pd va t Hi0 Hpg Ht0 e0 Hu) as Ht1.
  assert (Hpte : ∀ pg v, pg ∈ PG → user_vpn v → pte_of (mem (pte_put t va e0 s0)) pg v =
    if decide (pg = pd ∧ v = vpn va) then e0 else pte_of (mem s0) pg v)
    by (intros; by apply (put_pte_of d PG s0 L O X pd va t Hi0 Hpg Hva Ht0)).
  split_and!; try done.
  - unfold pte. by eapply kstore_pte; [apply Hi0|..].
  - unfold pte. erewrite kload_pte; [|apply Hi1|exact Hpg|exact Ht1]. rewrite lookup_pte_vpn by (by apply user_va_vpn).
    rewrite Hpte by done. by rewrite decide_True.
  - intros w. rewrite (vp_pt _ _ _ _ _ _ _ (put_post d PG s0 L O X pd va t Hi0 Hpg Hva Ht0 e0 Hu)).
    split; [intros [?|[? ?]]; done|by left].
Qed.

Record protected (s1 : phys) : Prop := {
  pr_inv : vm_inv d PG s1 L O X;
  pr_user : same_user PG (mem s) (mem s1);
  pr_tab : tab (mem s1) pd (PDX va) = Some t;
  pr_load : kload32 pte s1 = Ok (cow_of e) s1;
  pr_pte : ∀ pg v, pg ∈ PG → user_vpn v → pte_of (mem s1) pg v =
    if decide (pg = pd ∧ v = vpn va) then cow_of e else pte_of (mem s) pg v;
  pr_pt : ∀ w, pt_page (mem s1) PG w ↔ pt_page (mem s) PG w;
  pr_lock : use_lock s1 = use_lock s
}.

Lemma share_protect :
  (has e PTE_W = true → kstore32 pte e1 s = Ok tt (pte_put t va e1 s) ∧
     kload32 pte (pte_put t va e1 s) = Ok e1 (pte_put t va e1 s) ∧
     kstore32 pte (Z.lor e1 PTE_COW) (pte_put t va e1 s) = Ok tt write_protect) ∧
  protected write_protect.
Proof.
  destruct share_facts as (Hpg & Hv & Hu & HP & Hf & _). destruct protect_e1 as (Hu1 & HP1 & HW1 & Hf1).
  destruct (cow_of_bits e Hu) as (Huc & HPc & HWc & _ & _ & HAc & _).
  assert (Hfc : frame_of (cow_of e) = f) by (unfold frame_of; by rewrite HAc).
  unfold write_protect. destruct (has e PTE_W) eqn:EW.
  - destruct (protect_put s e1 Hinv Ht Hu1 HP1 HW1 Hf1) as (Es & El & Hi1 & Hs1 & Ht1 & Hp1 & Hpt1).
    destruct (protect_put _ (cow_of e) Hi1 Ht1 Huc ltac:(congruence) HWc Hfc)
      as (Es2 & El2 & Hi2 & Hs2 & Ht2 & Hp2 & Hpt2).
    split; [intros _; split; [done|split; [done|]]|].
    { rewrite <- Es2. unfold cow_of. by rewrite EW. }
    split; try done.
    + by eapply same_user_trans.
    + intros pg v Hpg' Hv'. rewrite Hp2 by done. case_decide; [done|]. rewrite Hp1 by done. by rewrite decide_False.
    + intros w. by rewrite Hpt2, Hpt1.
  - split; [done|]. assert (Ec : cow_of e = e) by (unfold cow_of; by rewrite EW).
    split; try done; rewrite ?Ec.
    + unfold pte. erewrite kload_pte; [|apply Hinv|exact Hpg|exact Ht]. by rewrite lookup_pte_vpn by (by apply user_va_vpn).
    + intros pg v Hpg' Hv'. case_decide as Hd; [|done]. by destruct Hd as [-> ->].
Qed.

(** ** The child's entry *)

Context (ch : Z).
Hypothesis Hch : ch ∈ PG.
Hypothesis Hne : ch ≠ pd.
Hypothesis Hal : va mod 4096 = 0.
Hypothesis Habs : has (pte_of (mem s) ch (vpn va)) PTE_P = false.
Hypothesis Hmax : Z.of_nat (size (O f)) + 1 < 4294967296.
Let O' := put_owner O ch (vpn va) (cow_of e).

Record shared (s' : phys) (L' : list Z) : Prop := {
  sh_inv : vm_inv d PG s' L' O' X;
  sh_pte : ∀ pg v, pg ∈ PG → user_vpn v → pte_of (mem s') pg v =
    if decide ((pg = ch ∨ pg = pd) ∧ v = vpn va) then cow_of e else pte_of (mem s) pg v;
  sh_user : ∀ pg va', pg ∈ PG → user_va_ok va' → ¬ (pg = ch ∧ vpn va' = vpn va) →
    user_byte (mem s') pg va' = user_byte (mem s) pg va';
  sh_child : ∀ va', user_va_ok va' → vpn va' = vpn va →
    user_byte (mem s') ch va' = user_byte (mem s) pd va';
  sh_tight : tight PG s L O X → tight PG s' L' O' X;
  sh_free : ∃ A, L = A ++ L';
  sh_lock : use_lock s' = use_lock s
}.

Lemma share_entry_ok s1 : protected s1 → entry_ok PG s1 L O ch (vpn va) (cow_of e).
Proof.
  intros [Hi Hs Htb _ Hp Hpt _]. destruct share_facts as (Hpg & Hv & Hu & HP & Hf & Hfv & HfL & Hfp).
  destruct (cow_of_bits e Hu) as (Huc & HPc & HWc & _ & _ & HAc & _).
  assert (Hfc : frame_of (cow_of e) = f) by (unfold frame_of; by rewrite HAc).
  split; rewrite ?Hfc.
  - intros _. by rewrite Hpt.
  - intros _ HW. congruence.
  - intros _ pg' v' Hin' _. destruct (has (pte_of (mem s1) pg' v') PTE_W) eqn:EW; [|done].
    pose proof (vi_write _ _ _ _ _ _ Hi f pg' v' Hin' EW) as E. rewrite E in Hin.
    apply elem_of_singleton in Hin as [= <- <-]. rewrite Hp in EW by done. rewrite decide_True in EW by done. congruence.
Qed.

Lemma share_owner : f = frame_of (cow_of e) ∧ (ch, vpn va) ∉ O f ∧
  (∀ g, g ≠ f → O' g = O g) ∧ Z.of_nat (size (O' f)) = Z.of_nat (size (O f)) + 1.
Proof.
  destruct share_facts as (Hpg & Hv & Hu & HP & Hf & _). destruct (cow_of_bits e Hu) as (Huc & HPc & _ & _ & _ & HAc & _).
  assert (Hfc : frame_of (cow_of e) = f) by (unfold frame_of; by rewrite HAc).
  assert (Hnin : ∀ g, (ch, vpn va) ∉ O g).
  { intros g (_ & _ & HPch & _)%(vi_own _ _ _ _ _ _ Hinv). congruence. }
  split; [done|]. split; [auto|]. split.
  - intros g Hg. apply put_owner_ne; [auto|]. intros _. by rewrite Hfc.
  - unfold O'. rewrite <- Hfc at 1. rewrite put_owner_new; [by rewrite Hfc|congruence|auto].
Qed.

(** [mappages] into the child. *)
Lemma share_map s1 :
  protected s1 →
  ∃ r s2 L2, mappages ch va PGSIZE (PTE_ADDR e) (PTE_FLAGS (cow_of e)) s1 = Ok r s2 ∧
    ((r = 0 ∧ vm_post d PG s1 L s2 L2 (put_entry ch (vpn va) (cow_of e) (lookup_pte (mem s1)))) ∨
     (r = -1 ∧ vm_post d PG s1 L s2 L2 (lookup_pte (mem s1)))).
Proof.
  intros [Hi Hs Htb _ Hp Hpt _]. destruct share_facts as (Hpg & Hv & Hu & HP & _).
  assert (Hva' : 0 ≤ va < 2147483648) by (unfold user_va_ok in Hva; klia).
  assert (Hvv : vpn (va + PGSIZE - 1) = vpn va) by (unfold vpn, PGSIZE; dlia).
  pose proof (PTE_ADDR_range e Hu) as Har.
  destruct (mappages_ok d PG ch va PGSIZE (PTE_ADDR e) (PTE_FLAGS (cow_of e)) s1 L)
    as (r & s2 & L2 & k & E & Hpost & Hr).
  { apply Hi. } { apply Hi. } { done. } { apply PTE_FLAGS_low. } { lia. } { done. } { unfold PGSIZE; lia. }
  { unfold is_u32 in Har. lia. } { rewrite Hvv. unfold is_u32 in Har. lia. }
  { intros va' Hva2 Hin'. rewrite Hvv in Hin'. rewrite lookup_pte_vpn by done.
    replace (vpn va') with (vpn va) by lia. rewrite Hp by done. rewrite decide_False; [done|]. by intros [-> _]. }
  exists r, s2, L2. split; [done|]. rewrite Hvv in Hr. destruct Hr as [[-> ->]|(-> & Hk & _)]; [left|right].
  - split; [done|]. eapply vm_post_ext; [exact Hpost|]. intros pg va2 _ _.
    replace (vpn va - vpn va + 1) with 1 by lia. rewrite map_entry_1. unfold put_entry.
    fold (child_of e). by rewrite child_of_eq.
  - split; [done|]. eapply vm_post_ext; [exact Hpost|]. intros pg va2 _ _.
    replace k with 0 by lia. apply map_entry_0.
Qed.

Lemma share_done s1 s2 L2 :
  protected s1 → vm_post d PG s1 L s2 L2 (put_entry ch (vpn va) (cow_of e) (lookup_pte (mem s1))) →
  ∃ s3, incrementRef f s2 = Ok tt s3 ∧ shared s3 L2.
Proof.
  intros Hpr Hpost. pose proof Hpr as [Hi Hs Htb _ Hp Hpt Hlk].
  destruct share_facts as (Hpg & Hv & Hu & HP & Hf & Hfv & HfL & Hfp).
  destruct share_owner as (Hfc & Hnin & HOne & HOf).
  pose proof (vm_inv_put d PG s1 L O X s2 L2 ch (vpn va) (cow_of e) Hi Hch Hv Hpost (share_entry_ok s1 Hpr)) as Hi2.
  assert (HfL2 : f ∉ L2). { destruct (vp_suffix _ _ _ _ _ _ _ Hpost) as [A ->]. intros ?. apply HfL, elem_of_app. by right. }
  assert (Hfp2 : ¬ pt_page (mem s2) PG f) by (rewrite (vp_pt _ _ _ _ _ _ _ Hpost), Hpt; tauto).
  assert (Href : referenceCounters s2 (pfn f) = Z.of_nat (size (O f))).
  { rewrite (vp_refs _ _ _ _ _ _ _ Hpost) by done. rewrite (vi_ref _ _ _ _ _ _ Hi) by (done || by rewrite Hpt). lia. }
  eexists. split.
  { apply incrementRef_eq; [done|apply (ki_unlocked _ _ _ (vi_kmem _ _ _ _ _ _ Hi2))|done]. }
  rewrite Href, u32_small by (unfold is_u32; lia). set (s3 := set_referenceCounters _ s2).
  assert (Hi3 : vm_inv d PG s3 L2 O' X).
  { eapply vm_inv_ext; [apply (vm_inv_set_ref _ _ _ _ _ _ f (Z.of_nat (size (O f)) + 1) Hi2)|done|];
      [done|done|done|unfold is_u32; lia|].
    intros g. unfold fupd, put_extra. fold O'. destruct (decide (g = f)) as [->|Hg]; [lia|]. rewrite HOne by done. lia. }
  assert (Hptes : ∀ pg v, pg ∈ PG → user_vpn v → pte_of (mem s3) pg v =
    if decide ((pg = ch ∨ pg = pd) ∧ v = vpn va) then cow_of e else pte_of (mem s) pg v).
  { intros pg v Hpg' Hv'. destruct (user_va v Hv') as [Hua Evp]. unfold pte_of at 1. cbn [s3 mem set_referenceCounters].
    rewrite (vp_lookup _ _ _ _ _ _ _ Hpost) by done. unfold put_entry. rewrite Evp.
    destruct (decide (pg = ch ∧ v = vpn va)) as [[-> ->]|Hn]; [by rewrite decide_True by tauto|].
    change (lookup_pte (mem s1) pg (4096 * v)) with (pte_of (mem s1) pg v). rewrite Hp by done.
    destruct (decide (pg = pd ∧ v = vpn va)) as [[-> ->]|Hn2]; [by rewrite decide_True by tauto|].
    rewrite decide_False by tauto. done. }
  assert (Hus : ∀ pg va', pg ∈ PG → user_va_ok va' → ¬ (pg = ch ∧ vpn va' = vpn va) →
    user_byte (mem s3) pg va' = user_byte (mem s) pg va').
  { intros pg va' Hpg' Hva' Hn. rewrite <- Hs by done. cbn [s3 mem set_referenceCounters].
    eapply user_byte_post; [exact Hi|exact Hpost|done|done|]. unfold put_entry. rewrite vpn_mul.
    rewrite decide_False by done. done. }
  exists; try done.
  - intros va' Hva' Ev. rewrite <- Hus by (done || intros [E _]; congruence).
    assert (Hch3 : (ch, vpn va) ∈ O' f) by (unfold O'; apply elem_put_owner; rewrite decide_True by done;
      split; [by destruct (cow_of_bits e Hu) as (_ & -> & _)|done]).
    assert (Hpd3 : (pd, vpn va) ∈ O' f) by (unfold O'; apply elem_put_owner; rewrite decide_False; [done|congruence]).
    assert (Ek : va' = 4096 * vpn va + Z.of_nat (Z.to_nat (va' mod 4096))).
    { rewrite <- Ev. unfold vpn. rewrite Z2Nat.id by dlia. dlia. }
    rewrite Ek. rewrite !(user_byte_page _ _ _ _ _ _ _ _ f _ Hi3) by (done || dlia). done.
  - intros Hti g Hg HgL Hgp HOg. cbn [s3 mem set_referenceCounters] in Hgp.
    rewrite (vp_pt _ _ _ _ _ _ _ Hpost), Hpt in Hgp. destruct (decide (g = f)) as [->|Hgf].
    { exfalso. rewrite HOg, size_empty in HOf. lia. }
    apply Hti; [done| |tauto|by rewrite <- HOne]. intros ?. tauto.
  - apply Hpost.
  - cbn. rewrite (vp_use_lock _ _ _ _ _ _ _ Hpost). done.
Qed.
End Share.

(** ** A page of the parent in the swap file *)

(** The child's entry for the parent's entry [e], and what becomes of [e]. *)
Definition child_pte (e : Z) : Z := if has e PTE_P then cow_of e else Z.land e 0xfff.
Definition parent_pte (e : Z) : Z := if has e PTE_P then cow_of e else e.

Section Swapped.
Context (d : Z) (PG : list Z) (s : phys) (L : list Z) (O : owners) (X : Z → Z).
Context (ch va e : Z).
Hypothesis Hinv : vm_inv d PG s L O X.
Hypothesis Hva : user_va_ok va.
Hypothesis Hch : ch ∈ PG.
Hypothesis Habs : has (pte_of (mem s) ch (vpn va)) PTE_P = false.
Hypothesis He : is_u32 e.
Hypothesis HP : has e PTE_P = false.

(** An entry without [PTE_P] in the place of another one. *)
Lemma put_swapped t :
  tab (mem s) ch (PDX va) = Some t →
  vm_inv d PG (pte_put t va e s) L O X ∧ same_user PG (mem s) (mem (pte_put t va e s)) ∧
  (tight PG s L O X → tight PG (pte_put t va e s) L O X).
Proof.
  intros Ht. destruct (user_va_vpn va Hva) as [_ Hv].
  pose proof (put_post d PG s L O X ch va t Hinv Hch Hva Ht e He) as Hpost.
  assert (Hnin : ∀ g, (ch, vpn va) ∉ O g).
  { intros g (_ & _ & HPch & _)%(vi_own _ _ _ _ _ _ Hinv). congruence. }
  assert (EO : ∀ g, put_owner O ch (vpn va) e g = O g)
    by (intros g; apply put_owner_ne; [done|congruence]).
  split; [|split].
  - eapply vm_inv_ext; [eapply vm_inv_put; [exact Hinv|exact Hch|exact Hv|exact Hpost|]|exact EO|].
    + split; congruence.
    + intros g. unfold put_extra. rewrite EO. lia.
  - intros pg va' Hpg Hva'. eapply user_byte_post; [exact Hinv|exact Hpost|done|done|].
    unfold put_entry. rewrite vpn_mul. case_decide as Hd; [|done].
    destruct Hd as [-> ->]. split; congruence.
  - intros Hti g Hg HgL Hgp HO. rewrite (vp_pt _ _ _ _ _ _ _ Hpost) in Hgp.
    apply Hti; [done|done|tauto|done].
Qed.
End Swapped.

(** ** How many mappings a frame can have *)

Lemma owners_bound d PG s L O X f :
  vm_inv d PG s L O X → Z.of_nat (size (O f)) ≤ 524288 * Z.of_nat (length PG).
Proof.
  intros Hinv. set (l := PG ≫= λ pg, (λ v, (pg, v)) <$> seqZ 0 524288).
  assert (Hl : Z.of_nat (length l) = 524288 * Z.of_nat (length PG)).
  { subst l. clear. induction PG as [|pg PG IH]; [done|].
    rewrite bind_cons, length_app, length_fmap, length_seqZ. cbn [length]. lia. }
  rewrite <- Hl. apply inj_le. unfold size, set_size. cbn.
  apply submseteq_length, NoDup_submseteq; [apply NoDup_elements|].
  intros [pg v] (Hpg & Hv & _)%elem_of_elements%(vi_own _ _ _ _ _ _ Hinv).
  apply list_elem_of_bind. exists pg. split; [|done].
  apply list_elem_of_fmap. exists v. split; [done|]. apply elem_of_seqZ. unfold user_vpn in Hv. lia.
Qed.
End CopyInv.
