(* ===== verification/UserMem.v ===== *)
(** * UserMem: what the kernel stores into user memory

    [copyout] and [loaduvm] write to the frames of an address space.  When the
    pages are writable, nobody else sees the change. *)

From S2P Require Import Prelude Mmu Phys Config Kalloc PageTable Vmspace UvmInv.

Section UserMem.
Context `{ConfigOk}.

Notation owners := (Z → gset (Z * Z)).

(** The bytes [b] have been stored at [va] of [pg], and nothing else changed. *)
Record stored (d : Z) (PG : list Z) (s : phys) (L : list Z) (O : owners) (X : Z → Z)
    (pg va : Z) (b : list Z) (s' : phys) : Prop := {
  so_inv : vm_inv d PG s' L O X;
  so_in : ∀ (k : nat) y, b !! k = Some y → user_byte (mem s') pg (va + Z.of_nat k) = Some (u8 y);
  so_out : ∀ pg' va', pg' ∈ PG → user_va_ok va' → ¬ (pg' = pg ∧ va ≤ va' < va + Z.of_nat (length b)) →
    user_byte (mem s') pg' va' = user_byte (mem s) pg' va';
  so_lookup : ∀ pg' va', pg' ∈ PG → lookup_pte (mem s') pg' va' = lookup_pte (mem s) pg' va';
  so_tab : ∀ pg' i, pg' ∈ PG → 0 ≤ i < 1024 → tab (mem s') pg' i = tab (mem s) pg' i;
  so_tight : tight PG s L O X → tight PG s' L O X;
  so_lock : use_lock s' = use_lock s
}.

Lemma stored_nil d PG s L O X pg va : vm_inv d PG s L O X → stored d PG s L O X pg va [] s.
Proof. intros. by split. Qed.

Lemma stored_app d PG s L O X pg va b1 b2 s1 s2 :
  pg ∈ PG → 0 ≤ va → va + Z.of_nat (length b1 + length b2) ≤ KERNBASE →
  stored d PG s L O X pg va b1 s1 → stored d PG s1 L O X pg (va + Z.of_nat (length b1)) b2 s2 →
  stored d PG s L O X pg va (b1 ++ b2) s2.
Proof.
  intros Hpg Hva Hend [I1 N1 U1 P1 T1 Ti1 K1] [I2 N2 U2 P2 T2 Ti2 K2]. split; [done|..].
  - intros k y [Hy|[Hk Hy]]%lookup_app_Some.
    + pose proof (lookup_lt_Some _ _ _ Hy). rewrite U2; [by apply N1|done|unfold user_va_ok; lia|lia].
    + specialize (N2 _ _ Hy). by replace (va + Z.of_nat (length b1) + Z.of_nat (k - length b1)) with (va + Z.of_nat k) in N2 by lia.
  - intros pg' va' Hpg' Hva' Hn. rewrite length_app in Hn. rewrite U2, U1; try done; lia.
  - intros pg' va' Hpg'. by rewrite P2, P1.
  - intros pg' i Hpg' Hi. by rewrite T2, T1.
  - auto.
  - congruence.
Qed.

(** Within one page that has a single owner. *)
Lemma store_page d PG s L O X pg v f off b :
  vm_inv d PG s L O X → (pg, v) ∈ O f → O f = {[(pg, v)]} → 0 ≤ off → off + Z.of_nat (length b) ≤ 4096 →
  kstore_bytes (f + off) b s = Ok tt (set_mem (st_bytes (mem s) (V2P f + off) b) s) ∧
  stored d PG s L O X pg (4096 * v + off) b (set_mem (st_bytes (mem s) (V2P f + off) b) s).
Proof.
  intros Hinv Hin HO Hoff Hlen. destruct (vi_page _ _ _ _ _ _ Hinv _ _ _ Hin) as (Hf & HfL & Hfp).
  pose proof (vi_own _ _ _ _ _ _ Hinv f pg v) as [(Hpg & Hv & _) _]; [done|]. set (m' := st_bytes (mem s) (V2P f + off) b).
  assert (Hag : ∀ w, valid_page w → w ≠ f → agree_page (mem s) m' w).
  { intros w Hw Hne y Hy. apply ld8_st_bytes_out. destruct (pages_disjoint w f Hw Hf Hne); lia. }
  assert (Hagpt : ∀ w, pt_page (mem s) PG w → agree_page (mem s) m' w).
  { intros w Hw. apply Hag; [by apply (pt_page_valid _ _ _ _ (vi_wf _ _ _ _ _ _ Hinv) Hw)|by intros ->]. }
  assert (Hlk : ∀ pg' va', pg' ∈ PG → lookup_pte m' pg' va' = lookup_pte (mem s) pg' va') by (intros pg' va' Hpg'; by apply (lookup_pte_frame _ _ PG)).
  assert (Hi' : vm_inv d PG (set_mem m' s) L O X) by (by eapply vm_inv_data).
  split.
  - unfold m'. rewrite kstore_bytes_eq.
    + do 2 f_equal. f_equal. destruct Hf as (?&?&?). rewrite !V2P_direct by klia. klia.
    + destruct Hf as (?&?&?). apply kaddr_ok_true. klia.
  - split; [done|..]; cbn [mem set_mem].
    + intros k y Hy. pose proof (lookup_lt_Some _ _ _ Hy).
      pose proof (user_byte_page d PG (set_mem m' s) L O X pg v f (Z.to_nat (off + Z.of_nat k)) Hi' Hin) as Hb.
      rewrite Z2Nat.id in Hb by lia. replace (4096 * v + off + Z.of_nat k) with (4096 * v + (off + Z.of_nat k)) by lia.
      cbn [mem set_mem] in Hb. rewrite Hb by lia. unfold m'. replace (V2P f + (off + Z.of_nat k)) with (V2P f + off + Z.of_nat k) by lia. by rewrite (ld8_st_bytes_in _ _ _ _ y).
    + intros pg' va' Hpg' Hva' Hn. destruct (user_va_vpn va' Hva') as [Hu' Hv'].
      destruct (decide (pg' = pg ∧ vpn va' = v)) as [[-> <-]|Hd].
      * assert (Eva : va' = 4096 * vpn va' + Z.of_nat (Z.to_nat (va' mod 4096))) by (unfold vpn; dlia).
        assert (Hk : Z.of_nat (Z.to_nat (va' mod 4096)) < 4096) by dlia. rewrite Eva at 1 2.
        change (user_byte m') with (user_byte (mem (set_mem m' s))).
        rewrite (user_byte_page _ _ _ _ _ _ _ _ _ _ Hi' Hin Hk), (user_byte_page _ _ _ _ _ _ _ _ _ _ Hinv Hin Hk). f_equal.
        cbn [mem set_mem]. apply ld8_st_bytes_out. lia.
      * eapply user_byte_same; [exact Hinv|done|done| |].
        -- replace (pte_of m' pg' (vpn va')) with (pte_of (mem s) pg' (vpn va')); [done|]. symmetry. by apply Hlk.
        -- intros h Hh. destruct (vi_page _ _ _ _ _ _ Hinv _ _ _ Hh) as (? & ? & _). apply Hag; [done|].
           intros ->. rewrite HO in Hh. apply elem_of_singleton in Hh. injection Hh. intros. by apply Hd.
    + done.
    + intros pg' i Hpg' Hi. apply tab_frame; [|done]. apply Hagpt. by left.
    + intros Hti w Hw HwL Hwp. apply Hti; [done|done|]. rewrite (pt_page_frame (mem s)) in Hwp; [done|]. intros pg' Hpg'. apply Hagpt. by left.
    + done.
Qed.

(** ** [copyout] *)

Definition user_writable (m : memory) (pg v : Z) : Prop :=
  has (pte_of m pg v) PTE_P = true ∧ has (pte_of m pg v) PTE_W = true ∧ has (pte_of m pg v) PTE_U = true.

Lemma stored_writable d PG s L O X pg va b s' v :
  pg ∈ PG → stored d PG s L O X pg va b s' → user_writable (mem s) pg v → user_writable (mem s') pg v.
Proof. intros Hpg Hs. unfold user_writable, pte_of. by rewrite (so_lookup _ _ _ _ _ _ _ _ _ _ Hs). Qed.

(** The entry and the frame of a writable page. *)
Lemma writable_walk d PG s L O X pg va :
  vm_inv d PG s L O X → pg ∈ PG → user_va_ok va → user_writable (mem s) pg (vpn va) →
  ∃ t e, walkpgdir pg va false s = Ok t s ∧ t ≠ 0 ∧ kload32 t s = Ok e s ∧ has e PTE_P = true ∧ has e PTE_U = true ∧
    frame_of e ≠ 0 ∧ (pg, vpn va) ∈ O (frame_of e) ∧ O (frame_of e) = {[(pg, vpn va)]}.
Proof.
  intros Hinv Hpg Hva (HP & HW & HU). destruct (user_va_vpn va Hva) as [Hu Hv]. set (e := pte_of (mem s) pg (vpn va)) in *.
  assert (Hin : (pg, vpn va) ∈ O (frame_of e)) by (by apply (vi_own _ _ _ _ _ _ Hinv)).
  destruct (owner_tab d PG s L O X pg va (frame_of e) Hinv Hva Hin) as [t Ht].
  destruct (pw_dirs _ _ _ (vi_wf _ _ _ _ _ _ Hinv) pg Hpg) as [Hpv _].
  exists (t + 4 * PTX va), e. split_and!; try done.
  - by apply walkpgdir_some.
  - apply Z.eqb_neq. by eapply pte_nonzero; [apply Hinv|..].
  - erewrite kload_pte; [|apply Hinv|exact Hpg|exact Ht]. by rewrite lookup_pte_vpn by done.
  - destruct (vi_page _ _ _ _ _ _ Hinv _ _ _ Hin) as ((?&?&?) & _). klia.
  - by apply (vi_write _ _ _ _ _ _ Hinv).
Qed.

Lemma writable_frame d PG s L O X pg va :
  vm_inv d PG s L O X → pg ∈ PG → user_va_ok va → user_writable (mem s) pg (vpn va) →
  ∃ f, uva2ka pg (PGROUNDDOWN va) s = Ok f s ∧ f ≠ 0 ∧ (pg, vpn va) ∈ O f ∧ O f = {[(pg, vpn va)]}.
Proof.
  intros Hinv Hpg Hva Hw. destruct (user_va_vpn va Hva) as [Hu Hv]. set (va0 := PGROUNDDOWN va).
  assert (E0 : va0 = 4096 * vpn va) by (unfold va0; rewrite PGROUNDDOWN_eq by done; unfold vpn; dlia).
  assert (Hva0 : user_va_ok va0) by (rewrite E0; unfold user_va_ok, user_vpn in *; klia).
  assert (Ev0 : vpn va0 = vpn va) by (rewrite E0; apply vpn_mul). rewrite <- Ev0 in Hw |- *.
  destruct (writable_walk d PG s L O X pg va0 Hinv Hpg Hva0 Hw) as (t & e & E1 & _ & E2 & HP & HU & Hf & Hin & HO).
  exists (frame_of e). split; [|done]. unfold uva2ka. rewrite (bind_ok _ _ _ _ _ E1), (bind_ok _ _ _ _ _ E2).
  unfold has in HP, HU. apply negb_true_iff in HP, HU. by rewrite HP, HU.
Qed.

Lemma copyout_loop_ok d PG L O X pg fuel : ∀ va b s,
  vm_inv d PG s L O X → pg ∈ PG → 0 ≤ va → va + Z.of_nat (length b) ≤ KERNBASE →
  (∀ v, va < 4096 * (v + 1) → 4096 * v < va + Z.of_nat (length b) → user_writable (mem s) pg v) → (length b < fuel)%nat →
  ∃ s', copyout_loop fuel pg va b s = Ok 0 s' ∧ stored d PG s L O X pg va b s'.
Proof.
  induction fuel as [|fuel IH]; intros va b s Hinv Hpg Hva Hend Hw Hf; [lia|]. cbn [copyout_loop].
  destruct b as [|y b'] eqn:Eb; [exists s; split; [done|by apply stored_nil]|]. rewrite <- Eb in *. 
  assert (Hlen : (length b ≠ 0)%nat) by (by rewrite Eb). rewrite (proj2 (Nat.eqb_neq _ _) Hlen). clear Eb.
  assert (Hvo : user_va_ok va) by (unfold user_va_ok; lia). destruct (user_va_vpn va Hvo) as [Hu Hv].
  destruct (writable_frame d PG s L O X pg va Hinv Hpg Hvo) as (f & Ef & Hf0 & Hin & HO); [apply Hw; unfold vpn; dlia|].
  rewrite (bind_ok _ _ _ _ _ Ef), (proj2 (Z.eqb_neq _ _) Hf0). set (va0 := PGROUNDDOWN va).
  assert (E0 : va0 = 4096 * vpn va) by (unfold va0; rewrite PGROUNDDOWN_eq by done; unfold vpn; dlia).
  set (n := if Z.of_nat (length b) <? PGSIZE - (va - va0) then Z.of_nat (length b) else PGSIZE - (va - va0)).
  assert (Hn : 0 < n ∧ n ≤ Z.of_nat (length b) ∧ va - va0 + n ≤ 4096 ∧ (n = Z.of_nat (length b) ∨ va + n = va0 + 4096)).
  { assert (0 ≤ va - va0 < 4096) by (rewrite E0; unfold vpn; dlia). unfold n, PGSIZE.
    destruct (Z.ltb_spec (Z.of_nat (length b)) (4096 - (va - va0))); lia. }
  assert (Ln : length (take (Z.to_nat n) b) = Z.to_nat n) by (rewrite length_take; lia).
  destruct (store_page d PG s L O X pg (vpn va) f (va - va0) (take (Z.to_nat n) b) Hinv Hin HO) as [Est Hst];
    [rewrite E0; unfold vpn; dlia|rewrite Ln; lia|].
  rewrite (bind_ok _ _ _ _ _ Est). set (s1 := set_mem _ s) in *. replace (4096 * vpn va + (va - va0)) with va in Hst by lia.
  assert (Hd : length (drop (Z.to_nat n) b) = (length b - Z.to_nat n)%nat) by apply length_drop.
  assert (Enext : n = Z.of_nat (length b) ∨ u32 (va0 + PGSIZE) = va + n).
  { destruct Hn as (? & ? & _ & [?|E]); [by left|right]. rewrite u32_small by klia. unfold PGSIZE. lia. }
  destruct (decide (n = Z.of_nat (length b))) as [En|En].
  - rewrite (drop_ge b) by lia. rewrite take_ge in Hst by lia. exists s1. split; [|done]. destruct fuel; [lia|done].
  - destruct Enext as [?| ->]; [done|]. destruct (IH (va + n) (drop (Z.to_nat n) b) s1) as (s' & E & Hst2); [apply Hst|done|lia|lia| |lia|].
    + intros v H1 H2. eapply stored_writable; [done|exact Hst|]. apply Hw; lia.
    + exists s'. split; [done|]. rewrite <- (take_drop (Z.to_nat n) b). eapply stored_app; [done|done| |exact Hst|].
      * rewrite Ln, Hd. lia.
      * by replace (va + Z.of_nat (length (take (Z.to_nat n) b))) with (va + n) by lia.
Qed.

Lemma copyout_ok d PG L O X pg va b s :
  vm_inv d PG s L O X → pg ∈ PG → 0 ≤ va → va + Z.of_nat (length b) ≤ KERNBASE →
  (∀ v, va < 4096 * (v + 1) → 4096 * v < va + Z.of_nat (length b) → user_writable (mem s) pg v) →
  ∃ s', copyout pg va b s = Ok 0 s' ∧ stored d PG s L O X pg va b s'.
Proof. intros. unfold copyout. apply copyout_loop_ok; try done. lia. Qed.
End UserMem.
