(* ===== verification/State.v ===== *)
(** * State: processes and the kernel state

    The structures of [proc.h] and [x86.h], the state of the kernel, and the
    way the monads of the components embed into the kernel's.  The file
    system is reached only through the interface [FileSystem]. *)

From S2P Require Import Prelude Mmu Phys Config.

(** ** Processes *)

Definition MAX_PSYC_PAGES := 16.
Definition MAX_TOTAL_PAGES := 32%nat.

Inductive procstate := UNUSED | EMBRYO | SLEEPING | RUNNABLE | RUNNING | ZOMBIE.
Inductive pagestate := NOT_USED | IN_MEMORY | IN_DISK.

#[global] Instance procstate_eq_dec : EqDecision procstate.
Proof. solve_decision. Defined.
#[global] Instance pagestate_eq_dec : EqDecision pagestate.
Proof. solve_decision. Defined.

Record page_meta_data := mkPage {
  page_id : Z;          (* virtual address of the start of the page *)
  pg_state : pagestate;
  offset_in_file : Z;   (* a uint: -1 is 0xFFFFFFFF *)
  shiftCounter : Z;
  pg_index : Z
}.

(** A [struct page_link *] into [pages_meta_data] is the index of the element
    it points to, [None] is the null pointer. *)
Record page_link := mkLink {
  page : page_meta_data;
  pl_next : option nat;
  pl_prev : option nat
}.

Record trapframe := mkTf {
  tf_edi : Z; tf_esi : Z; tf_ebp : Z; tf_oesp : Z; tf_ebx : Z; tf_edx : Z;
  tf_ecx : Z; tf_eax : Z; tf_gs : Z; tf_fs : Z; tf_es : Z; tf_ds : Z;
  tf_trapno : Z; tf_err : Z; tf_eip : Z; tf_cs : Z; tf_eflags : Z;
  tf_esp : Z; tf_ss : Z
}.

(** The fields of [struct proc] that the paging framework added: the state of
    the page-list component. *)
Record paging := mkPaging {
  pages_meta_data : list page_link;    (* MAX_TOTAL_PAGES entries *)
  page_list_head_ram : option nat;
  num_pages_ram : Z;
  num_pages_disk : Z;
  available_Offsets : list Z;          (* 17 chars, 0 is free *)
  num_of_page_faults : Z;
  num_of_page_outs : Z
}.

(** [struct proc].  [parent] and the slots of the process table are named by
    their index in [ptable.proc]; open files and inodes by the handles of the
    file system.  The trap frame lies at a fixed place of the kernel stack; it
    is kept in the record, as is the saved [eip] of the context. *)
Record proc := mkProc {
  sz : Z;
  pgdir : Z;
  kstack : Z;
  state : procstate;
  pid : Z;
  parent : option nat;
  tf : trapframe;
  context_eip : Z;
  chan : Z;
  killed : bool;
  ofile : list (option Z);
  cwd : option Z;
  pname : string;
  swapFile : option Z;
  paging_ : paging
}.

Definition set_pages_meta_data (v : list page_link) (s : paging) : paging :=
  mkPaging v (page_list_head_ram s) (num_pages_ram s) (num_pages_disk s)
    (available_Offsets s) (num_of_page_faults s) (num_of_page_outs s).
Definition set_page_list_head_ram (v : option nat) (s : paging) : paging :=
  mkPaging (pages_meta_data s) v (num_pages_ram s) (num_pages_disk s)
    (available_Offsets s) (num_of_page_faults s) (num_of_page_outs s).
Definition set_num_pages_ram (v : Z) (s : paging) : paging :=
  mkPaging (pages_meta_data s) (page_list_head_ram s) v (num_pages_disk s)
    (available_Offsets s) (num_of_page_faults s) (num_of_page_outs s).
Definition set_num_pages_disk (v : Z) (s : paging) : paging :=
  mkPaging (pages_meta_data s) (page_list_head_ram s) (num_pages_ram s) v
    (available_Offsets s) (num_of_page_faults s) (num_of_page_outs s).
Definition set_available_Offsets (v : list Z) (s : paging) : paging :=
  mkPaging (pages_meta_data s) (page_list_head_ram s) (num_pages_ram s)
    (num_pages_disk s) v (num_of_page_faults s) (num_of_page_outs s).
Definition set_num_of_page_faults (v : Z) (s : paging) : paging :=
  mkPaging (pages_meta_data s) (page_list_head_ram s) (num_pages_ram s)
    (num_pages_disk s) (available_Offsets s) v (num_of_page_outs s).
Definition set_num_of_page_outs (v : Z) (s : paging) : paging :=
  mkPaging (pages_meta_data s) (page_list_head_ram s) (num_pages_ram s)
    (num_pages_disk s) (available_Offsets s) (num_of_page_faults s) v.

Definition set_sz (v : Z) (s : proc) : proc :=
  mkProc v (pgdir s) (kstack s) (state s) (pid s) (parent s) (tf s)
    (context_eip s) (chan s) (killed s) (ofile s) (cwd s) (pname s)
    (swapFile s) (paging_ s).
Definition set_pgdir (v : Z) (s : proc) : proc :=
  mkProc (sz s) v (kstack s) (state s) (pid s) (parent s) (tf s)
    (context_eip s) (chan s) (killed s) (ofile s) (cwd s) (pname s)
    (swapFile s) (paging_ s).
Definition set_kstack (v : Z) (s : proc) : proc :=
  mkProc (sz s) (pgdir s) v (state s) (pid s) (parent s) (tf s) (context_eip
    s) (chan s) (killed s) (ofile s) (cwd s) (pname s) (swapFile s) (paging_
    s).
Definition set_state (v : procstate) (s : proc) : proc :=
  mkProc (sz s) (pgdir s) (kstack s) v (pid s) (parent s) (tf s)
    (context_eip s) (chan s) (killed s) (ofile s) (cwd s) (pname s)
    (swapFile s) (paging_ s).
Definition set_pid (v : Z) (s : proc) : proc :=
  mkProc (sz s) (pgdir s) (kstack s) (state s) v (parent s) (tf s)
    (context_eip s) (chan s) (killed s) (ofile s) (cwd s) (pname s)
    (swapFile s) (paging_ s).
Definition set_parent (v : option nat) (s : proc) : proc :=
  mkProc (sz s) (pgdir s) (kstack s) (state s) (pid s) v (tf s) (context_eip
    s) (chan s) (killed s) (ofile s) (cwd s) (pname s) (swapFile s) (paging_
    s).
Definition set_tf (v : trapframe) (s : proc) : proc :=
  mkProc (sz s) (pgdir s) (kstack s) (state s) (pid s) (parent s) v
    (context_eip s) (chan s) (killed s) (ofile s) (cwd s) (pname s)
    (swapFile s) (paging_ s).
Definition set_context_eip (v : Z) (s : proc) : proc :=
  mkProc (sz s) (pgdir s) (kstack s) (state s) (pid s) (parent s) (tf s) v
    (chan s) (killed s) (ofile s) (cwd s) (pname s) (swapFile s) (paging_
    s).
Definition set_chan (v : Z) (s : proc) : proc :=
  mkProc (sz s) (pgdir s) (kstack s) (state s) (pid s) (parent s) (tf s)
    (context_eip s) v (killed s) (ofile s) (cwd s) (pname s) (swapFile s)
    (paging_ s).
Definition set_killed (v : bool) (s : proc) : proc :=
  mkProc (sz s) (pgdir s) (kstack s) (state s) (pid s) (parent s) (tf s)
    (context_eip s) (chan s) v (ofile s) (cwd s) (pname s) (swapFile s)
    (paging_ s).
Definition set_ofile (v : list (option Z)) (s : proc) : proc :=
  mkProc (sz s) (pgdir s) (kstack s) (state s) (pid s) (parent s) (tf s)
    (context_eip s) (chan s) (killed s) v (cwd s) (pname s) (swapFile s)
    (paging_ s).
Definition set_cwd (v : option Z) (s : proc) : proc :=
  mkProc (sz s) (pgdir s) (kstack s) (state s) (pid s) (parent s) (tf s)
    (context_eip s) (chan s) (killed s) (ofile s) v (pname s) (swapFile s)
    (paging_ s).
Definition set_pname (v : string) (s : proc) : proc :=
  mkProc (sz s) (pgdir s) (kstack s) (state s) (pid s) (parent s) (tf s)
    (context_eip s) (chan s) (killed s) (ofile s) (cwd s) v (swapFile s)
    (paging_ s).
Definition set_swapFile (v : option Z) (s : proc) : proc :=
  mkProc (sz s) (pgdir s) (kstack s) (state s) (pid s) (parent s) (tf s)
    (context_eip s) (chan s) (killed s) (ofile s) (cwd s) (pname s) v
    (paging_ s).
Definition set_paging_ (v : paging) (s : proc) : proc :=
  mkProc (sz s) (pgdir s) (kstack s) (state s) (pid s) (parent s) (tf s)
    (context_eip s) (chan s) (killed s) (ofile s) (cwd s) (pname s)
    (swapFile s) v.

(** ** The file system as the memory subsystem sees it

    The operations of [fs.c], [file.c] and [log.c] that the process and paging
    code calls, on a state [F] of their own.  Files and inodes are handles. *)
Class FileSystem (F : Type) := {
  fs_begin_op : M F unit;
  fs_end_op : M F unit;
  fs_create_swap : Z → M F Z;               (* createSwapFile: pid to file *)
  fs_remove_swap : Z → Z → M F Z;           (* removeSwapFile: pid, file *)
  fs_write_at : Z → Z → list Z → M F Z;     (* f->off = o; filewrite(f, b, n) *)
  fs_read_at : Z → Z → Z → M F (Z * list Z);(* f->off = o; fileread(f, b, n) *)
  fs_filedup : Z → M F unit;
  fs_fileclose : Z → M (phys * F) (list Z); (* a pipe gives its page back; the channels woken *)
  fs_idup : Z → M F unit;
  fs_iput : Z → M F unit;
  fs_namei : string → M F (option Z);
  fs_ilock : Z → M F unit;
  fs_iunlockput : Z → M F unit;
  fs_readi : Z → Z → Z → M F (Z * list Z)   (* inode, offset, count *)
}.

(** ** The processor

    The fields of [struct cpu] that the kernel writes, with the task register
    and the interrupt flag; [ts_addr] is the address of its task state. *)
Record cpu := mkCpu {
  gdt : list segdesc;             (* NSEGS descriptors *)
  ts_addr : Z;
  ts_ss0 : Z;
  ts_esp0 : Z;
  ts_iomb : Z;
  tr : Z;
  ncli : Z;
  intena : bool;
  intr_flag : bool                (* FL_IF of eflags *)
}.

(** ** The kernel *)

Record kernel (F : Type) := mkKernel {
  phys_ : phys;
  cr3 : Z;
  kpgdir : Z;
  global_pgdir_flag : Z;
  global_pgdir : Z;
  procs : list proc;              (* ptable.proc *)
  cpu_proc : option nat;          (* mycpu()->proc *)
  initproc : option nat;
  nextpid : Z;
  ticks : Z;
  cpu0 : cpu;                     (* *mycpu() *)
  fsys : F
}.
Arguments mkKernel {F}.
Arguments phys_ {F}.
Arguments cr3 {F}.
Arguments kpgdir {F}.
Arguments global_pgdir_flag {F}.
Arguments global_pgdir {F}.
Arguments procs {F}.
Arguments cpu_proc {F}.
Arguments initproc {F}.
Arguments nextpid {F}.
Arguments ticks {F}.
Arguments cpu0 {F}.
Arguments fsys {F}.

Section Kernel.
Context {F : Type}.

Definition set_phys_ (v : phys) (s : kernel F) : kernel F :=
  mkKernel v (cr3 s) (kpgdir s) (global_pgdir_flag s) (global_pgdir s) (procs s)
    (cpu_proc s) (initproc s) (nextpid s) (ticks s) (cpu0 s) (fsys s).
Definition set_cr3 (v : Z) (s : kernel F) : kernel F :=
  mkKernel (phys_ s) v (kpgdir s) (global_pgdir_flag s) (global_pgdir s)
    (procs s) (cpu_proc s) (initproc s) (nextpid s) (ticks s) (cpu0 s) (fsys s).
Definition set_kpgdir (v : Z) (s : kernel F) : kernel F :=
  mkKernel (phys_ s) (cr3 s) v (global_pgdir_flag s) (global_pgdir s) (procs s)
    (cpu_proc s) (initproc s) (nextpid s) (ticks s) (cpu0 s) (fsys s).
Definition set_global_pgdir_flag (v : Z) (s : kernel F) : kernel F :=
  mkKernel (phys_ s) (cr3 s) (kpgdir s) v (global_pgdir s) (procs s)
    (cpu_proc s) (initproc s) (nextpid s) (ticks s) (cpu0 s) (fsys s).
Definition set_global_pgdir (v : Z) (s : kernel F) : kernel F :=
  mkKernel (phys_ s) (cr3 s) (kpgdir s) (global_pgdir_flag s) v (procs s)
    (cpu_proc s) (initproc s) (nextpid s) (ticks s) (cpu0 s) (fsys s).
Definition set_procs (v : list proc) (s : kernel F) : kernel F :=
  mkKernel (phys_ s) (cr3 s) (kpgdir s) (global_pgdir_flag s) (global_pgdir s) v
    (cpu_proc s) (initproc s) (nextpid s) (ticks s) (cpu0 s) (fsys s).
Definition set_cpu_proc (v : option nat) (s : kernel F) : kernel F :=
  mkKernel (phys_ s) (cr3 s) (kpgdir s) (global_pgdir_flag s) (global_pgdir s)
    (procs s) v (initproc s) (nextpid s) (ticks s) (cpu0 s) (fsys s).
Definition set_initproc (v : option nat) (s : kernel F) : kernel F :=
  mkKernel (phys_ s) (cr3 s) (kpgdir s) (global_pgdir_flag s) (global_pgdir s)
    (procs s) (cpu_proc s) v (nextpid s) (ticks s) (cpu0 s) (fsys s).
Definition set_nextpid (v : Z) (s : kernel F) : kernel F :=
  mkKernel (phys_ s) (cr3 s) (kpgdir s) (global_pgdir_flag s) (global_pgdir s)
    (procs s) (cpu_proc s) (initproc s) v (ticks s) (cpu0 s) (fsys s).
Definition set_ticks (v : Z) (s : kernel F) : kernel F :=
  mkKernel (phys_ s) (cr3 s) (kpgdir s) (global_pgdir_flag s) (global_pgdir s)
    (procs s) (cpu_proc s) (initproc s) (nextpid s) v (cpu0 s) (fsys s).
Definition set_cpu0 (v : cpu) (s : kernel F) : kernel F :=
  mkKernel (phys_ s) (cr3 s) (kpgdir s) (global_pgdir_flag s) (global_pgdir s)
    (procs s) (cpu_proc s) (initproc s) (nextpid s) (ticks s) v (fsys s).
Definition set_fsys (v : F) (s : kernel F) : kernel F :=
  mkKernel (phys_ s) (cr3 s) (kpgdir s) (global_pgdir_flag s) (global_pgdir s)
    (procs s) (cpu_proc s) (initproc s) (nextpid s) (ticks s) (cpu0 s) v.

#[local] Notation K := (M (kernel F)).

(** Running a component's operation on its part of the state. *)
Definition on_phys {A} (c : M phys A) : K A := λ s,
  match c (phys_ s) with
  | Ok a p => Ok a (set_phys_ p s)
  | Err e => Err e
  end.

Definition on_fs {A} (c : M F A) : K A := λ s,
  match c (fsys s) with
  | Ok a x => Ok a (set_fsys x s)
  | Err e => Err e
  end.

(** The file layer, where it gives memory back. *)
Definition on_files {A} (c : M (phys * F) A) : K A := λ s,
  match c (phys_ s, fsys s) with
  | Ok a (p, x) => Ok a (set_phys_ p (set_fsys x s))
  | Err e => Err e
  end.

(** [ptable.proc[i]]. *)
Definition on_proc {A} (i : nat) (c : M proc A) : K A := λ s,
  match procs s !! i with
  | Some p =>
      match c p with
      | Ok a p' => Ok a (set_procs (<[i:=p']> (procs s)) s)
      | Err e => Err e
      end
  | None => Err (UB "process table index")
  end.

(** [myproc()->...]: undefined when no process runs. *)
Definition on_myproc {A} (c : M proc A) : K A := λ s,
  match cpu_proc s with
  | Some i => on_proc i c s
  | None => Err (UB "myproc() is null")
  end.

Definition on_paging {A} (c : M paging A) : K A :=
  on_myproc (λ p,
    match c (paging_ p) with
    | Ok a g => Ok a (set_paging_ g p)
    | Err e => Err e
    end).

Definition myproc {A} (f : proc → A) : K A := on_myproc (gets f).
Definition lcr3 (pa : Z) : K unit := modify (set_cr3 pa).

(** The running process. *)
Definition cur_is (s : kernel F) (i : nat) (p : proc) : Prop :=
  cpu_proc s = Some i ∧ procs s !! i = Some p.

Definition put_cur (i : nat) (p : proc) (s : kernel F) : kernel F :=
  set_procs (<[i:=p]> (procs s)) s.

Lemma on_myproc_eq {A} (c : M proc A) s i p :
  cur_is s i p →
  on_myproc c s = match c p with
                  | Ok a p' => Ok a (put_cur i p' s)
                  | Err e => Err e
                  end.
Proof. intros [E1 E2]. unfold on_myproc, on_proc. by rewrite E1, E2. Qed.

Lemma put_cur_id s i p : cur_is s i p → put_cur i p s = s.
Proof.
  intros [E1 E2]. unfold put_cur, set_procs. rewrite list_insert_id by done.
  by destruct s.
Qed.

Lemma myproc_eq {A} (f : proc → A) s i p : cur_is s i p → myproc f s = Ok (f p) s.
Proof.
  intros Hc. unfold myproc. rewrite (on_myproc_eq _ s i p) by done. simpl.
  by rewrite put_cur_id.
Qed.

Lemma cur_is_put s i p p' : cur_is s i p → cur_is (put_cur i p' s) i p'.
Proof.
  intros [E1 E2]. split; [done|]. simpl. apply list_lookup_insert_eq.
  by eapply lookup_lt_Some.
Qed.

Lemma put_cur_put s i p p' : put_cur i p' (put_cur i p s) = put_cur i p' s.
Proof. unfold put_cur, set_procs. simpl. by rewrite list_insert_insert_eq. Qed.

Lemma on_paging_eq {A} (c : M paging A) s i p :
  cur_is s i p →
  on_paging c s = match c (paging_ p) with
                  | Ok a g => Ok a (put_cur i (set_paging_ g p) s)
                  | Err e => Err e
                  end.
Proof.
  intros Hc. unfold on_paging. rewrite (on_myproc_eq _ s i p) by done.
  by destruct (c (paging_ p)).
Qed.

(** ** Framing

    [frame s i p ph g x c] is the kernel state [s] with the process [p] in
    slot [i], its paging metadata [g], physical memory [ph], file system [x]
    and page-table base [c]: the parts the memory subsystem changes. *)

Definition frame (s : kernel F) (i : nat) (p : proc) (ph : phys) (g : paging) (x : F)
    (c : Z) : kernel F :=
  mkKernel ph c (kpgdir s) (global_pgdir_flag s) (global_pgdir s)
    (<[i:=set_paging_ g p]> (procs s)) (cpu_proc s) (initproc s) (nextpid s) (ticks s)
    (cpu0 s) x.

(** The running process has the index [i]. *)
Definition runs (s : kernel F) (i : nat) : Prop :=
  cpu_proc s = Some i ∧ (i < length (procs s))%nat.

Lemma cur_is_runs s i p : cur_is s i p → runs s i.
Proof. intros [? ?]. split; [done|]. by eapply lookup_lt_Some. Qed.

Lemma frame_id s i p :
  cur_is s i p → frame s i p (phys_ s) (paging_ p) (fsys s) (cr3 s) = s.
Proof.
  intros [? Hp]. unfold frame. rewrite list_insert_id; [by destruct s|].
  rewrite Hp. by destruct p.
Qed.

Lemma frame_cur s i p ph g x c : runs s i → cur_is (frame s i p ph g x c) i (set_paging_ g p).
Proof. intros [? ?]. split; [done|]. simpl. by apply list_lookup_insert_eq. Qed.

Lemma on_phys_frame {A} (c : M phys A) s i p ph ph' g x c3 a :
  c ph = Ok a ph' → on_phys c (frame s i p ph g x c3) = Ok a (frame s i p ph' g x c3).
Proof. intros E. unfold on_phys. simpl. by rewrite E. Qed.

Lemma on_phys_frame_err {A} (c : M phys A) s i p ph g x c3 e :
  c ph = Err e → on_phys c (frame s i p ph g x c3) = Err e.
Proof. intros E. unfold on_phys. simpl. by rewrite E. Qed.

Lemma on_fs_frame {A} (c : M F A) s i p ph g x x' c3 a :
  c x = Ok a x' → on_fs c (frame s i p ph g x c3) = Ok a (frame s i p ph g x' c3).
Proof. intros E. unfold on_fs. simpl. by rewrite E. Qed.

Lemma on_myproc_frame {A} (c : M proc A) s i p p' ph g g' x c3 a :
  runs s i → c (set_paging_ g p) = Ok a (set_paging_ g' p') →
  on_myproc c (frame s i p ph g x c3) = Ok a (frame s i p' ph g' x c3).
Proof.
  intros Hr E. rewrite (on_myproc_eq _ _ i (set_paging_ g p)) by by apply frame_cur.
  rewrite E. unfold put_cur, frame, set_procs. simpl. by rewrite list_insert_insert_eq.
Qed.

Lemma on_paging_frame {A} (c : M paging A) s i p ph g g' x c3 a :
  runs s i → c g = Ok a g' →
  on_paging c (frame s i p ph g x c3) = Ok a (frame s i p ph g' x c3).
Proof.
  intros Hr E. unfold on_paging. apply on_myproc_frame; [done|].
  cbn [paging_ set_paging_]. by rewrite E.
Qed.

Lemma myproc_frame {A} (f : proc → A) s i p ph g x c3 :
  runs s i → myproc f (frame s i p ph g x c3) = Ok (f (set_paging_ g p)) (frame s i p ph g x c3).
Proof. intros Hr. by apply on_myproc_frame. Qed.

Lemma lcr3_frame s i p ph g x c c' :
  lcr3 c' (frame s i p ph g x c) = Ok tt (frame s i p ph g x c').
Proof. done. Qed.

End Kernel.

(** Computations on the kernel state. *)
Notation K F := (M (kernel F)).
