(* ===== verification/Spinlock.v ===== *)
(** * Spinlock: interrupt nesting and mutual exclusion

    [spinlock.c].  [pushcli] and [popcli] are operations on the processor;
    [acquire] and [release] are given twice: as operations of one processor on
    a lock, and as a machine of several processors whose steps are the single
    accesses to the shared lock, on which mutual exclusion is proved. *)

From S2P Require Import Prelude Mmu State.

(** ** Interrupt nesting *)

Definition set_intr_flag (b : bool) (c : cpu) : cpu :=
  mkCpu (gdt c) (ts_addr c) (ts_ss0 c) (ts_esp0 c) (ts_iomb c) (tr c) (ncli c) (intena c) b.
Definition set_intena (b : bool) (c : cpu) : cpu :=
  mkCpu (gdt c) (ts_addr c) (ts_ss0 c) (ts_esp0 c) (ts_iomb c) (tr c) (ncli c) b (intr_flag c).
Definition set_ncli (n : Z) (c : cpu) : cpu :=
  mkCpu (gdt c) (ts_addr c) (ts_ss0 c) (ts_esp0 c) (ts_iomb c) (tr c) n (intena c) (intr_flag c).

Definition pushcli : M cpu unit :=
  eflags ← gets intr_flag;
  modify (set_intr_flag false) ;;
  n ← gets ncli;
  when (n =? 0) (modify (set_intena eflags)) ;;
  modify (λ c, set_ncli (ncli c + 1) c).

Definition popcli : M cpu unit :=
  eflags ← gets intr_flag;
  if (eflags : bool) then panic "popcli - interruptible"
  else
    modify (λ c, set_ncli (ncli c - 1) c) ;;
    n ← gets ncli;
    if n <? 0 then panic "popcli"
    else
      ena ← gets intena;
      when ((n =? 0) && ena) (modify (set_intr_flag true)).

(** A sequence of calls, [true] for [pushcli]. *)
Fixpoint run_cli (w : list bool) : M cpu unit :=
  match w with
  | [] => mret tt
  | b :: w' => (if b : bool then pushcli else popcli) ;; run_cli w'
  end.

(** Properly nested sequences. *)
Inductive nested : list bool → Prop :=
  | nested_nil : nested []
  | nested_app u w : nested u → nested w → nested (true :: u ++ false :: w).

(** Interrupts are off while the nesting depth is positive. *)
Definition cli_ok (c : cpu) : Prop := 0 ≤ ncli c ∧ (0 < ncli c → intr_flag c = false).

Lemma run_cli_app u w c : run_cli (u ++ w) c = (run_cli u ;; run_cli w) c.
Proof.
  revert c. induction u as [|b u IH]; intros c; [done|]. simpl.
  unfold mbind, M_bind. destruct ((if b then pushcli else popcli) c); [|done]. apply IH.
Qed.

Definition after_push (c : cpu) : cpu :=
  set_ncli (ncli c + 1) (set_intena (if ncli c =? 0 then intr_flag c else intena c) (set_intr_flag false c)).

Lemma pushcli_eq c : pushcli c = Ok tt (after_push c).
Proof. destruct c as [? ? ? ? ? ? n ? ?]. unfold pushcli, after_push, gets, modify, mbind, M_bind. cbn. by destruct (n =? 0). Qed.

Lemma popcli_eq c :
  intr_flag c = false → 0 < ncli c →
  popcli c = Ok tt (set_intr_flag ((ncli c - 1 =? 0) && intena c) (set_ncli (ncli c - 1) c)).
Proof.
  destruct c as [? ? ? ? ? ? n ena fl]; cbn. intros -> Hn.
  unfold popcli, gets, modify, mbind, M_bind. cbn. rewrite (proj2 (Z.ltb_ge (n - 1) 0)) by lia.
  by destruct (_ && _).
Qed.

Lemma nested_inner w c : cli_ok c → 0 < ncli c → nested w → run_cli w c = Ok tt c.
Proof.
  intros Hok Hpos Hw. revert c Hok Hpos. induction Hw as [|u w Hu IHu Hw IHw]; intros c Hok Hpos; [done|].
  cbn [run_cli]. erewrite bind_ok by apply pushcli_eq. rewrite run_cli_app.
  destruct Hok as [Hn Hi]. specialize (Hi Hpos).
  erewrite bind_ok by (apply IHu; [split; cbn; [lia|done]|cbn; lia]).
  cbn [run_cli]. erewrite bind_ok by (apply popcli_eq; [done|cbn; lia]).
  unfold after_push. destruct c as [? ? ? ? ? ? n ena fl]; cbn in *; subst.
  rewrite Z.add_simpl_r, (proj2 (Z.eqb_neq n 0)) by lia. by apply IHw.
Qed.

(** Whatever the interrupt flag was, a nested sequence restores it. *)
Lemma nested_restores w c :
  cli_ok c → nested w →
  ∃ b, run_cli w c = Ok tt (set_intena b c) ∧ (0 < ncli c → b = intena c).
Proof.
  intros Hok Hw. destruct (decide (0 < ncli c)) as [Hpos|Hz].
  { exists (intena c). rewrite nested_inner by done. by destruct c. }
  assert (Hn : ncli c = 0) by (destruct Hok; lia). clear Hok Hz.
  revert c Hn. induction Hw as [|u w Hu IHu Hw IHw]; intros c Hn.
  { exists (intena c). by destruct c. }
  cbn [run_cli]. erewrite bind_ok by apply pushcli_eq. rewrite run_cli_app.
  erewrite bind_ok by (apply nested_inner; [split; cbn; [lia|done]|cbn; lia|done]).
  cbn [run_cli]. erewrite bind_ok by (apply popcli_eq; [done|cbn; lia]).
  destruct (IHw (set_intena (intr_flag c) c)) as (b & E & _); [done|]. exists b. split; [|lia].
  unfold after_push. destruct c as [? ? ? ? ? ? n ena fl]; cbn in *; subst. exact E.
Qed.

(** ** One processor and a lock *)

Record spinlock := mkSpin {
  locked : bool;
  lk_name : string;
  lk_cpu : option nat;            (* the processor that holds the lock *)
  pcs : list Z                    (* 10 program counters *)
}.

Definition initlock (name : string) (lk : spinlock) : spinlock :=
  mkSpin false name None (pcs lk).

(** The [%ebp] chain from [ebp] on; [ld] reads a word of memory. *)
Fixpoint callerpcs (n : nat) (ld : Z → Z) (ebp : Z) : list Z :=
  match n with
  | O => []
  | S n' =>
      if (ebp =? 0) || (ebp <? KERNBASE) || (ebp =? 0xffffffff) then replicate (S n') 0
      else ld (u32 (ebp + 4)) :: callerpcs n' ld (ld ebp)
  end.

Definition getcallerpcs (ld : Z → Z) (v : Z) : list Z := callerpcs 10 ld (u32 (v - 8)).

Lemma length_getcallerpcs ld v : length (getcallerpcs ld v) = 10%nat.
Proof.
  unfold getcallerpcs. generalize (u32 (v - 8)). generalize 10%nat. intros n.
  induction n as [|n IH]; intros e; [done|]. cbn [callerpcs].
  case_match; [by rewrite length_replicate|]. simpl. by rewrite IH.
Qed.

(** The state one processor works on. *)
Definition lockst : Type := spinlock * cpu.
Definition on_lcpu {A} (f : M cpu A) : M lockst A := λ s,
  match f s.2 with Ok a c => Ok a (s.1, c) | Err e => Err e end.
Definition set_locked (b : bool) (lk : spinlock) : spinlock :=
  mkSpin b (lk_name lk) (lk_cpu lk) (pcs lk).
Definition set_lk_cpu (o : option nat) (lk : spinlock) : spinlock :=
  mkSpin (locked lk) (lk_name lk) o (pcs lk).
Definition set_pcs (l : list Z) (lk : spinlock) : spinlock :=
  mkSpin (locked lk) (lk_name lk) (lk_cpu lk) l.
Definition on_lock (f : spinlock → spinlock) : M lockst unit := modify (λ s, (f s.1, s.2)).

Definition holding (mycpu : nat) : M lockst bool :=
  on_lcpu pushcli ;;
  r ← gets (λ s, locked s.1 && bool_decide (lk_cpu s.1 = Some mycpu));
  on_lcpu popcli ;;
  mret r.

(** [Blocked]: the [xchg] loop spins as long as no other processor releases
    the lock. *)
Definition acquire (mycpu : nat) (ld : Z → Z) (lk : Z) : M lockst unit :=
  on_lcpu pushcli ;;
  h ← holding mycpu;
  if (h : bool) then panic "acquire"
  else
    l ← gets (λ s, locked s.1);
    if (l : bool) then fail (Blocked "acquire")
    else
      on_lock (set_locked true) ;;
      on_lock (set_lk_cpu (Some mycpu)) ;;
      on_lock (set_pcs (getcallerpcs ld lk)).

Definition release (mycpu : nat) : M lockst unit :=
  h ← holding mycpu;
  if negb h then panic "release"
  else
    on_lock (λ l, set_pcs (<[0%nat:=0]> (pcs l)) l) ;;
    on_lock (set_lk_cpu None) ;;
    on_lock (set_locked false) ;;
    on_lcpu popcli.

Lemma push_pop c :
  cli_ok c → 0 < ncli c → popcli (after_push c) = Ok tt c.
Proof.
  intros [Hn Hi] Hpos. rewrite popcli_eq by (cbn; lia || done). specialize (Hi Hpos).
  destruct c as [? ? ? ? ? ? n ena fl]. cbn in *. subst.
  unfold after_push. cbn. rewrite Z.add_simpl_r, (proj2 (Z.eqb_neq n 0)) by lia. done.
Qed.

Lemma holding_eq me lk c :
  cli_ok c → 0 < ncli c →
  holding me (lk, c) = Ok (locked lk && bool_decide (lk_cpu lk = Some me)) (lk, c).
Proof.
  intros Hok Hpos. unfold holding. erewrite bind_ok by (unfold on_lcpu; cbn; by rewrite pushcli_eq).
  erewrite bind_ok by done. erewrite bind_ok by (unfold on_lcpu; cbn; by rewrite push_pop). done.
Qed.

Lemma after_push_ok c : cli_ok c → cli_ok (after_push c) ∧ 0 < ncli (after_push c).
Proof. intros [Hn _]. split; [split; cbn; [lia|done]|cbn; lia]. Qed.

(** ** Several processors

    One step of a processor: the interrupt nesting is its own, the reads and
    writes of the lock are separate steps. *)

Inductive lpc :=
  | Idle                           (* before [acquire] *)
  | AcqPush | AcqRead | AcqCpu (l : bool) | AcqPop (r : bool)   (* [holding] *)
  | Spin | Got | GotPcs
  | Crit                           (* between [acquire] and [release] *)
  | RelRead | RelCpu (l : bool) | RelPop (r : bool)             (* [holding] *)
  | RelPcs | RelOwner | RelFree | RelDone
  | Dead.                          (* panicked *)

Section Machine.
Context (ld : Z → Z) (addr : nat → Z).

(** [run c f pc]: continue at [pc] after the operation [f] of the processor. *)
Definition run (c : cpu) (f : M cpu unit) (k : lpc) : cpu * lpc :=
  match f c with Ok _ c' => (c', k) | Err _ => (c, Dead) end.

Definition lock_step (me : nat) (lk : spinlock) (c : cpu) (k : lpc) : spinlock * (cpu * lpc) :=
  match k with
  | Idle => (lk, run c pushcli AcqPush)
  | AcqPush => (lk, run c pushcli AcqRead)
  | AcqRead => (lk, (c, AcqCpu (locked lk)))
  | AcqCpu l => (lk, (c, AcqPop (l && bool_decide (lk_cpu lk = Some me))))
  | AcqPop r => (lk, run c popcli (if r then Dead else Spin))
  | Spin => (set_locked true lk, (c, if locked lk then Spin else Got))
  | Got => (set_lk_cpu (Some me) lk, (c, GotPcs))
  | GotPcs => (set_pcs (getcallerpcs ld (addr me)) lk, (c, Crit))
  | Crit => (lk, run c pushcli RelRead)
  | RelRead => (lk, (c, RelCpu (locked lk)))
  | RelCpu l => (lk, (c, RelPop (l && bool_decide (lk_cpu lk = Some me))))
  | RelPop r => (lk, run c popcli (if r then RelPcs else Dead))
  | RelPcs => (set_pcs (<[0%nat:=0]> (pcs lk)) lk, (c, RelOwner))
  | RelOwner => (set_lk_cpu None lk, (c, RelFree))
  | RelFree => (set_locked false lk, (c, RelDone))
  | RelDone => (lk, run c popcli Idle)
  | Dead => (lk, (c, Dead))
  end.

Record machine := mkMachine { m_lock : spinlock; m_cpus : list (cpu * lpc) }.

Inductive mstep : machine → machine → Prop :=
  | mstep_cpu m i c k lk' ck' :
      m_cpus m !! i = Some (c, k) → lock_step i (m_lock m) c k = (lk', ck') →
      mstep m (mkMachine lk' (<[i:=ck']> (m_cpus m))).

Inductive mreach (m0 : machine) : machine → Prop :=
  | mreach_init : mreach m0 m0
  | mreach_step m m' : mreach m0 m → mstep m m' → mreach m0 m'.

Definition minit (m : machine) : Prop :=
  locked (m_lock m) = false ∧ lk_cpu (m_lock m) = None ∧
  ∀ i c k, m_cpus m !! i = Some (c, k) → k = Idle ∧ cli_ok c.

(** The processor has won the [xchg] and not yet stored 0. *)
Definition owns (k : lpc) : bool :=
  match k with
  | Got | GotPcs | Crit | RelRead | RelCpu _ | RelPop _ | RelPcs | RelOwner | RelFree => true
  | _ => false
  end.

(** [lk->cpu] names the processor. *)
Definition named (k : lpc) : bool :=
  match k with
  | GotPcs | Crit | RelRead | RelCpu _ | RelPop _ | RelPcs | RelOwner => true
  | _ => false
  end.

(** The nesting depth that [acquire] and [release] account for. *)
Definition depth (k : lpc) : Z :=
  match k with
  | Idle | Dead => 0
  | AcqRead | AcqCpu _ | AcqPop _ | RelRead | RelCpu _ | RelPop _ => 2
  | _ => 1
  end.

(** What the local results of [holding] must be. *)
Definition sound (k : lpc) : Prop :=
  match k with
  | AcqPop r => r = false
  | RelCpu l => l = true
  | RelPop r => r = true
  | Dead => False
  | _ => True
  end.

Record minv (m : machine) : Prop := {
  mi_local : ∀ i c k, m_cpus m !! i = Some (c, k) → cli_ok c ∧ depth k ≤ ncli c ∧ sound k;
  mi_locked : locked (m_lock m) = true ↔ ∃ i c k, m_cpus m !! i = Some (c, k) ∧ owns k = true;
  mi_one : ∀ i j c c' k k', m_cpus m !! i = Some (c, k) → m_cpus m !! j = Some (c', k') →
    owns k = true → owns k' = true → i = j;
  mi_cpu : ∀ i, lk_cpu (m_lock m) = Some i ↔ ∃ c k, m_cpus m !! i = Some (c, k) ∧ named k = true
}.

Lemma named_owns k : named k = true → owns k = true.
Proof. by destruct k. Qed.

(** How one processor's step may change the lock. *)
Definition lock_change (i : nat) (lk lk' : spinlock) (k k' : lpc) : Prop :=
  ((owns k' = owns k ∧ locked lk' = locked lk) ∨
   (locked lk = false ∧ owns k' = true ∧ locked lk' = true) ∨
   (owns k = true ∧ owns k' = false ∧ locked lk' = false)) ∧
  ((named k' = named k ∧ lk_cpu lk' = lk_cpu lk) ∨
   (owns k = true ∧ named k' = true ∧ lk_cpu lk' = Some i) ∨
   (named k = true ∧ named k' = false ∧ lk_cpu lk' = None)).

Lemma minv_change m i c k lk' c' k' :
  minv m → m_cpus m !! i = Some (c, k) → lock_change i (m_lock m) lk' k k' →
  cli_ok c' ∧ depth k' ≤ ncli c' ∧ sound k' →
  minv (mkMachine lk' (<[i:=(c', k')]> (m_cpus m))).
Proof.
  intros [Hloc Hlk Hone Hcpu] Hi [HL HC] Hl.
  assert (Hup : ∀ j cj kj, <[i:=(c', k')]> (m_cpus m) !! j = Some (cj, kj) ↔
    (j = i ∧ cj = c' ∧ kj = k') ∨ (j ≠ i ∧ m_cpus m !! j = Some (cj, kj))).
  { intros j cj kj. rewrite (lookup_insert_dec _ _ _ _ _ Hi). destruct (decide (i = j)); naive_solver. }
  assert (Hown : ∀ j cj kj, m_cpus m !! j = Some (cj, kj) → owns kj = true → locked (m_lock m) = true)
    by (intros; apply Hlk; eauto).
  split; cbn [m_lock m_cpus].
  - intros j cj kj [(-> & -> & ->)|[_ Hj]]%Hup; [done|by eapply Hloc].
  - destruct HL as [[Eo El]|[(El & Eo & El')|(Eo & Eo' & El')]]; rewrite ?El'.
    + rewrite El, Hlk. split.
      * intros (j & cj & kj & Hj & Ho). destruct (decide (j = i)) as [->|Hne].
        -- exists i, c', k'. split; [apply Hup; by left|congruence].
        -- exists j, cj, kj. split; [apply Hup; by right|done].
      * intros (j & cj & kj & [(-> & -> & ->)|[_ Hj]]%Hup & Ho); [exists i, c, k; split; congruence|eauto].
    + split; [|done]. intros _. exists i, c', k'. split; [apply Hup; by left|done].
    + split; [done|]. intros (j & cj & kj & [(-> & -> & ->)|[Hne Hj]]%Hup & Ho); [congruence|].
      exfalso. apply Hne. by eapply Hone.
  - intros a b ca cb ka kb Ha Hb Hoa Hob.
    apply Hup in Ha as [(-> & -> & ->)|[Ha' Ha]]; apply Hup in Hb as [(-> & -> & ->)|[Hb' Hb]]; [done| | |by eapply Hone].
    + destruct HL as [[Eo _]|[(El & _)|(_ & Eo & _)]]; [|by rewrite (Hown _ _ _ Hb Hob) in El|congruence].
      eapply (Hone i b); [done|done|congruence|done].
    + destruct HL as [[Eo _]|[(El & _)|(_ & Eo & _)]]; [|by rewrite (Hown _ _ _ Ha Hoa) in El|congruence].
      eapply (Hone a i); [done|done|done|congruence].
  - intros j. assert (Hup' : (∃ cj kj, <[i:=(c', k')]> (m_cpus m) !! j = Some (cj, kj) ∧ named kj = true) ↔
      (j = i ∧ named k' = true) ∨ (j ≠ i ∧ lk_cpu (m_lock m) = Some j)).
    { split.
      - intros (cj & kj & [(-> & -> & ->)|[Hne Hj]]%Hup & Hn); [by left|]. right. split; [done|]. apply Hcpu. eauto.
      - intros [[-> Hn]|[Hne (cj & kj & Hj & Hn)%Hcpu]].
        + exists c', k'. split; [apply Hup; by left|done].
        + exists cj, kj. split; [apply Hup; by right|done]. }
    rewrite Hup'. clear Hup'.
    assert (Hci : lk_cpu (m_lock m) = Some i ↔ named k = true).
    { rewrite Hcpu. split; [intros (cj & kj & Hj & Hn); congruence|]. intros Hn. exists c, k. done. }
    destruct HC as [[En Ec]|[(Eo & En & Ec)|(En & En' & Ec)]]; rewrite Ec.
    + destruct (decide (j = i)) as [->|]; [rewrite Hci, En; tauto|tauto].
    + split; [intros [= <-]; by left|]. intros [[-> _]|[Hne Hj]]; [done|].
      exfalso. apply Hne. apply Hcpu in Hj as (cj & kj & Hj & Hn). by eapply Hone; [..|apply named_owns|].
    + split; [done|]. apply Hci in En. intros [[_ ?]|[Hne Hj]]; congruence.
Qed.

Lemma run_push c k k' :
  cli_ok c → depth k ≤ ncli c → depth k' = depth k + 1 → 0 ≤ depth k →
  ∃ c', run c pushcli k' = (c', k') ∧ cli_ok c' ∧ depth k' ≤ ncli c'.
Proof.
  intros Hok Hd Hk Hk'. unfold run. rewrite pushcli_eq. eexists. split; [done|].
  split; [by apply after_push_ok|]. cbn. lia.
Qed.

Lemma run_pop c k k' :
  cli_ok c → depth k ≤ ncli c → depth k = depth k' + 1 → 0 ≤ depth k' →
  ∃ c', run c popcli k' = (c', k') ∧ cli_ok c' ∧ depth k' ≤ ncli c'.
Proof.
  intros [Hn Hi] Hd Hk Hk'. unfold run. rewrite popcli_eq by (try apply Hi; lia). eexists. split; [done|].
  split; [|cbn; lia]. split; cbn; [lia|]. intros Hpos. by rewrite (proj2 (Z.eqb_neq _ 0)) by lia.
Qed.

Lemma minv_named m i c k :
  minv m → m_cpus m !! i = Some (c, k) →
  bool_decide (lk_cpu (m_lock m) = Some i) = named k ∧ (named k = true → locked (m_lock m) = true).
Proof.
  intros [_ Hlk _ Hcpu] Hi. split.
  - destruct (named k) eqn:Hn; [apply bool_decide_true, Hcpu; eauto|apply bool_decide_false].
    intros (c' & k' & E & Hn')%Hcpu. congruence.
  - intros Hn. apply Hlk. exists i, c, k. by split; [|apply named_owns].
Qed.

(** The processor's own part of a step. *)
Ltac run_local Hok Hd E :=
  let Er := fresh in
  lazymatch type of E with
  | context [run ?c pushcli ?k] => destruct (run_push c _ k Hok Hd) as (? & Er & ? & ?); [done..|]
  | context [run ?c popcli ?k] => destruct (run_pop c _ k Hok Hd) as (? & Er & ? & ?); [done..|]
  end; rewrite Er in E; clear Er.

Lemma minv_step m m' : minv m → mstep m m' → minv m'.
Proof.
  intros Hm Hs. destruct Hs as [m i c k lk' [c' k'] Hi E].
  destruct (minv_named _ _ _ _ Hm Hi) as [Hnm Hnl].
  pose proof (mi_local _ Hm i c k Hi) as (Hok & Hd & Hso).
  assert (Hown : owns k = true → locked (m_lock m) = true).
  { intros Ho. apply (mi_locked _ Hm). by exists i, c, k. }
  apply (minv_change m i c k); [done|done|..]; unfold lock_change; destruct k; cbn [lock_step sound] in *;
    subst; rewrite ?Hnm in E; try run_local Hok Hd E; try done; injection E as <- <- <-; cbn in *;
    rewrite ?andb_false_r, ?andb_true_r; auto 10.
  - destruct (locked (m_lock m)); cbn; auto 10.
  - destruct (locked (m_lock m)); cbn; auto 10.
Qed.

Lemma minit_inv m : minit m → minv m.
Proof.
  intros (Hl & Hc & Hi).
  assert (Hno : ∀ i c k, m_cpus m !! i = Some (c, k) → owns k = false ∧ named k = false)
    by (intros i c k Hk; by destruct (Hi i c k Hk) as [-> _]).
  split.
  - intros i c k Hk. destruct (Hi i c k Hk) as [-> [Hn ?]]. by split_and!.
  - rewrite Hl. split; [done|]. intros (i & c & k & Hk & Ho). destruct (Hno i c k Hk). congruence.
  - intros i j c c' k k' Hk _ Ho. destruct (Hno i c k Hk). congruence.
  - intros i. rewrite Hc. split; [done|]. intros (c & k & Hk & Ho). destruct (Hno i c k Hk). congruence.
Qed.

Lemma mreach_inv m0 m : minit m0 → mreach m0 m → minv m.
Proof. intros H0 Hr. induction Hr; [by apply minit_inv|by eapply minv_step]. Qed.

End Machine.

(** [pushcli] and [popcli] are matched: any properly nested sequence of
    calls, started at any depth, does not panic, comes back to that depth and
    leaves the interrupt flag as it was. *)
Theorem cli_nested_restores w c :
  cli_ok c → nested w →
  ∃ c', run_cli w c = Ok tt c' ∧ ncli c' = ncli c ∧ intr_flag c' = intr_flag c.
Proof. intros Hok Hw. destruct (nested_restores w c Hok Hw) as (b & E & _). eauto. Qed.

(** A processor that acquires a lock it already holds panics instead of
    spinning for ever; releasing the lock it holds makes the lock free and
    brings the interrupt nesting back to where it was. *)
Theorem acquire_release_spec me ld a lk c :
  cli_ok c → locked lk = false →
  ∃ s, acquire me ld a (lk, c) = Ok tt s ∧ intr_flag s.2 = false ∧
    acquire me ld a s = Err (Panic "acquire") ∧
    ∃ s', release me s = Ok tt s' ∧ locked s'.1 = false ∧
      ncli s'.2 = ncli c ∧ intr_flag s'.2 = intr_flag c.
Proof.
  intros Hok Hl. destruct (after_push_ok c Hok) as [Hok1 Hpos1]. destruct (after_push_ok _ Hok1) as [Hok2 Hpos2].
  set (lk' := set_pcs (getcallerpcs ld a) (set_lk_cpu (Some me) (set_locked true lk))).
  exists (lk', after_push c). split; [|split; [done|split]].
  - unfold acquire. erewrite bind_ok by (unfold on_lcpu; cbn; by rewrite pushcli_eq).
    erewrite bind_ok by (by apply holding_eq). rewrite Hl. cbn [andb].
    erewrite bind_ok by done. cbn. by rewrite Hl.
  - unfold acquire. erewrite bind_ok by (unfold on_lcpu; cbn; by rewrite pushcli_eq).
    erewrite bind_ok by (by apply holding_eq). cbn. by rewrite bool_decide_true.
  - eexists. split; [|split; [|split]].
    + unfold release. erewrite bind_ok by (by apply holding_eq). cbn. rewrite bool_decide_true by done. cbn.
      do 3 (erewrite bind_ok by done). unfold on_lcpu. cbn. rewrite popcli_eq by done. done.
    + done.
    + cbn. lia.
    + cbn. destruct Hok as [Hn Hi]. rewrite Z.add_simpl_r.
      destruct (Z.eqb_spec (ncli c) 0); [done|]. cbn. symmetry. apply Hi. lia.
Qed.

Definition cli_demo : cpu := mkCpu [] 0 0 0 0 0 0 false true.
Definition lock_demo : spinlock := initlock "demo" (mkSpin true "" (Some 3%nat) (replicate 10 0)).
Definition machine_demo : machine := mkMachine lock_demo [(cli_demo, Idle); (cli_demo, Idle)].

Lemma cli_nested_restores_witness :
  ∃ c', run_cli [true; true; false; false] cli_demo = Ok tt c' ∧ ncli c' = 0 ∧ intr_flag c' = true.
Proof.
  apply (cli_nested_restores [true; true; false; false] cli_demo).
  - split; done.
  - apply (nested_app [true; false] []); [apply (nested_app [] []); constructor|constructor].
Defined.

Lemma acquire_release_spec_witness :
  ∃ s, acquire 0 (λ _, 0) 0x80001000 (lock_demo, cli_demo) = Ok tt s ∧ intr_flag s.2 = false ∧
    acquire 0 (λ _, 0) 0x80001000 s = Err (Panic "acquire") ∧
    ∃ s', release 0 s = Ok tt s' ∧ locked s'.1 = false ∧ ncli s'.2 = 0 ∧ intr_flag s'.2 = true.
Proof. apply (acquire_release_spec 0 (λ _, 0) 0x80001000 lock_demo cli_demo); [split; done|done]. Defined.

