(* ===== verification/Demo.v ===== *)
(** * Demo: concrete machines

    Small states that satisfy the invariants, on which the witnesses of the
    theorems evaluate the kernel: two address spaces with one page table each,
    filled with given entries, and at most one free page. *)

From S2P Require Import Prelude Mmu Phys Config Kalloc PageTable Vmspace State.

Definition pd1 : Z := 0x80300000.
Definition tb1 : Z := 0x80301000.
Definition pd2 : Z := 0x80302000.
Definition tb2 : Z := 0x80303000.
Definition spare : Z := 0x80200000.

Definition demo_dirs : list Z := [pd1; pd2].

(** Page-table contents as association lists from page numbers to entries. *)
Notation ptes := (list (Z * Z)).

Fixpoint assoc (v : Z) (es : ptes) : Z :=
  match es with
  | [] => 0
  | (w, e) :: es' => if v =? w then e else assoc v es'
  end.

Fixpoint put_ptes (tb : Z) (es : ptes) (m : memory) : memory :=
  match es with
  | [] => m
  | (w, e) :: es' => st32 (put_ptes tb es' m) (V2P tb + 4 * w) e
  end.

Definition demo_mem (es1 es2 : ptes) : memory :=
  put_ptes tb1 es1 (put_ptes tb2 es2
    (st32 (st32 (λ _, 0) 0x300000 0x301007) 0x302000 0x303007)).

Definition es_of (es1 es2 : ptes) (pg : Z) : ptes := if pg =? pd1 then es1 else es2.

Definition demo_owners (es1 es2 : ptes) : Z → gset (Z * Z) := λ f,
  list_to_set (((λ ve : Z * Z, (pd1, ve.1)) <$>
      filter (λ ve : Z * Z, has ve.2 PTE_P = true ∧ frame_of ve.2 = f) es1) ++
    ((λ ve : Z * Z, (pd2, ve.1)) <$>
      filter (λ ve : Z * Z, has ve.2 PTE_P = true ∧ frame_of ve.2 = f) es2)).

Definition demo_refs (es1 es2 : ptes) : Z → Z := λ i,
  if decide (i ∈ [0x300; 0x301; 0x302; 0x303]) then 1
  else Z.of_nat (size (demo_owners es1 es2 (P2V (4096 * i)))).

Definition demo_free (room : bool) : list Z := if room then [spare] else [].
Definition demo_phys2 (es1 es2 : ptes) (room : bool) : phys :=
  mkPhys (demo_mem es1 es2) false true (if room then spare else 0)
    (demo_refs es1 es2) 1 (if room then 1 else 0).

(** ** Reading the tables *)

Record ptes_ok (es : ptes) : Prop := {
  pe_keys : Forall (λ ve : Z * Z, 0 ≤ ve.1 < 1024 ∧ is_u32 ve.2) es;
  pe_nodup : NoDup es.*1
}.

Lemma assoc_elem es v e :
  ptes_ok es → (v, e) ∈ es → assoc v es = e.
Proof.
  intros [_ Hnd]. induction es as [|[w e'] es IH]; [by intros ?%not_elem_of_nil|].
  apply NoDup_cons in Hnd as [Hw Hnd]. simpl in *. intros [[= -> ->]|Hin]%elem_of_cons.
  - by rewrite Z.eqb_refl.
  - rewrite (proj2 (Z.eqb_neq v w)); [auto|]. intros ->. apply Hw.
    by apply (list_elem_of_fmap_2 fst _ (w, e)).
Qed.

Lemma assoc_inv es v : assoc v es ≠ 0 → (v, assoc v es) ∈ es.
Proof.
  induction es as [|[w e'] es IH]; [done|]. simpl.
  destruct (Z.eqb_spec v w) as [->|]; [left|right; auto].
Qed.

Lemma put_ptes_in tb es m v :
  Forall (λ ve : Z * Z, 0 ≤ ve.1 < 1024 ∧ is_u32 ve.2) es → 0 ≤ v < 1024 →
  ld32 (put_ptes tb es m) (V2P tb + 4 * v) =
    if decide (v ∈ es.*1) then assoc v es else ld32 m (V2P tb + 4 * v).
Proof.
  induction 1 as [|[w e] es [Hw He] _ IH]; intros Hv; [done|]. simpl.
  destruct (Z.eqb_spec v w) as [->|Hne].
  - rewrite ld32_st32 by done. rewrite decide_True; [done|left].
  - rewrite ld32_st32_ne by lia. rewrite IH by done.
    destruct (decide (v ∈ es.*1)); [rewrite decide_True; [done|by right]|].
    rewrite decide_False; [done|]. by intros [?|?]%elem_of_cons.
Qed.

Lemma put_ptes_out tb es m a :
  Forall (λ ve : Z * Z, 0 ≤ ve.1 < 1024 ∧ is_u32 ve.2) es →
  (a + 4 ≤ V2P tb ∨ V2P tb + 4096 ≤ a) → ld32 (put_ptes tb es m) a = ld32 m a.
Proof.
  induction 1 as [|[w e] es [Hw He] _ IH]; intros Ha; [done|]. simpl in *.
  rewrite ld32_st32_ne by lia. auto.
Qed.

Section Demo.
Context (es1 es2 : ptes).
Hypothesis Hok1 : ptes_ok es1.
Hypothesis Hok2 : ptes_ok es2.

Lemma es_of_ok pg : ptes_ok (es_of es1 es2 pg).
Proof. unfold es_of. by case_match. Qed.

Lemma demo_tab pg i :
  pg ∈ demo_dirs → 0 ≤ i < 1024 →
  tab (demo_mem es1 es2) pg i =
    if i =? 0 then Some (if pg =? pd1 then tb1 else tb2) else None.
Proof.
  intros Hpg Hi. unfold tab.
  assert (E : ld32 (demo_mem es1 es2) (V2P pg + 4 * i) =
    if i =? 0 then (if pg =? pd1 then 0x301007 else 0x303007) else 0).
  { unfold demo_mem. pose proof (pe_keys _ Hok1). pose proof (pe_keys _ Hok2).
    repeat (apply elem_of_cons in Hpg as [->|Hpg]); [..|by apply not_elem_of_nil in Hpg].
    - replace (V2P pd1) with 0x300000 by done.
      rewrite !put_ptes_out by (done || (change (V2P tb1) with 0x301000; change (V2P tb2) with 0x303000; lia)).
      rewrite ld32_st32_ne by lia. destruct (Z.eqb_spec i 0) as [->|]; [by rewrite ld32_st32|].
      by rewrite ld32_st32_ne by lia.
    - replace (V2P pd2) with 0x302000 by done.
      rewrite !put_ptes_out by (done || (change (V2P tb1) with 0x301000; change (V2P tb2) with 0x303000; lia)).
      destruct (Z.eqb_spec i 0) as [->|]; [by rewrite ld32_st32|].
      by rewrite !ld32_st32_ne by lia. }
  rewrite E. destruct (i =? 0); [|done].
  repeat (apply elem_of_cons in Hpg as [->|Hpg]); [done|done|by apply not_elem_of_nil in Hpg].
Qed.

Lemma demo_pte pg v :
  pg ∈ demo_dirs → user_vpn v → pte_of (demo_mem es1 es2) pg v = assoc v (es_of es1 es2 pg).
Proof.
  intros Hpg Hv. destruct (user_va v Hv) as [Hu _]. unfold pte_of, lookup_pte.
  rewrite demo_tab by (done || apply PDX_range). pose proof (PTX_range (4096 * v)) as Hr.
  rewrite PDX_eq, PTX_eq in * by done. change (2 ^ 22) with 4194304. unfold user_vpn in Hv.
  pose proof (pe_keys _ Hok1) as Hk1. pose proof (pe_keys _ Hok2) as Hk2.
  assert (Hout : ∀ es, ptes_ok es → v ∉ es.*1 → assoc v es = 0).
  { intros es Hes Hn. destruct (decide (assoc v es = 0)) as [|Hz]; [done|]. exfalso. apply Hn.
    by apply (list_elem_of_fmap_2 fst _ (v, assoc v es)), assoc_inv. }
  destruct (Z.eqb_spec (4096 * v / 4194304) 0) as [E|E].
  - assert (Hv' : 4096 * v / 4096 mod 1024 = v) by dlia. cbv iota. rewrite Hv'.
    unfold demo_mem, es_of. destruct (pg =? pd1).
    + rewrite put_ptes_in by (done || dlia). case_decide; [done|]. rewrite (Hout es1) by done.
      rewrite put_ptes_out by (done || (change (V2P tb1) with 0x301000; change (V2P tb2) with 0x303000; dlia)).
      change (V2P tb1) with 0x301000. by rewrite !ld32_st32_ne by dlia.
    + rewrite put_ptes_out by (done || (change (V2P tb1) with 0x301000; change (V2P tb2) with 0x303000; dlia)).
      rewrite put_ptes_in by (done || dlia). case_decide; [done|]. rewrite (Hout es2) by done.
      change (V2P tb2) with 0x303000. by rewrite !ld32_st32_ne by dlia.
  - symmetry. apply Hout; [apply es_of_ok|]. intros ([w e] & -> & Hin)%list_elem_of_fmap.
    pose proof (proj1 (Forall_forall _ _) (pe_keys _ (es_of_ok pg)) _ Hin) as [Hw _].
    simpl in *. apply E. dlia.
Qed.

Lemma demo_pt_page f :
  pt_page (demo_mem es1 es2) demo_dirs f ↔ f ∈ [pd1; pd2; tb1; tb2].
Proof.
  unfold pt_page. split.
  - intros [Hf|(pg & i & Hpg & Hi & Ht)]; [unfold demo_dirs in Hf; set_solver|].
    rewrite demo_tab in Ht by done.
    destruct (i =? 0); [|done]. injection Ht as <-. destruct (pg =? pd1); set_solver.
  - intros Hf. repeat (apply elem_of_cons in Hf as [->|Hf]);
      [left; unfold demo_dirs; set_solver..| | |by apply not_elem_of_nil in Hf].
    + right. exists pd1, 0. rewrite demo_tab by (unfold demo_dirs; set_solver || lia).
      split; [unfold demo_dirs; set_solver|]. split; [lia|done].
    + right. exists pd2, 0. rewrite demo_tab by (unfold demo_dirs; set_solver || lia).
      split; [unfold demo_dirs; set_solver|]. split; [lia|done].
Qed.

Lemma demo_owner f pg v :
  (pg, v) ∈ demo_owners es1 es2 f ↔
  pg ∈ demo_dirs ∧ has (assoc v (es_of es1 es2 pg)) PTE_P = true ∧
  frame_of (assoc v (es_of es1 es2 pg)) = f.
Proof.
  unfold demo_owners. rewrite elem_of_list_to_set, elem_of_app, !list_elem_of_fmap.
  assert (Hes : ∀ es, ptes_ok es → (∃ e, (v, e) ∈ filter (λ ve : Z * Z, has ve.2 PTE_P = true ∧ frame_of ve.2 = f) es) ↔
    has (assoc v es) PTE_P = true ∧ frame_of (assoc v es) = f).
  { intros es Hes. split.
    - intros (e & [[HP Hf] Hin]%list_elem_of_filter). simpl in *. by rewrite (assoc_elem es v e).
    - intros [HP Hf]. exists (assoc v es). apply list_elem_of_filter. split; [done|]. apply assoc_inv.
      intros E. by rewrite E in HP. }
  split.
  - intros [([w e] & [= -> ->] & Hin)|([w e] & [= -> ->] & Hin)].
    + split; [unfold demo_dirs; set_solver|]. change (es_of es1 es2 pd1) with es1. apply Hes; eauto.
    + split; [unfold demo_dirs; set_solver|]. change (es_of es1 es2 pd2) with es2. apply Hes; eauto.
  - intros (Hpg & Hrest).
    repeat (apply elem_of_cons in Hpg as [->|Hpg]); [..|by apply not_elem_of_nil in Hpg].
    + left. change (es_of es1 es2 pd1) with es1 in Hrest. apply Hes in Hrest as (e & Hin); [|done]. by exists (v, e).
    + right. change (es_of es1 es2 pd2) with es2 in Hrest. apply Hes in Hrest as (e & Hin); [|done]. by exists (v, e).
Qed.
End Demo.

(** What the entries must satisfy for the state to be consistent. *)
Definition entry_fine `{Config} (es1 es2 : ptes) (pg : Z) (ve : Z * Z) : Prop :=
  has ve.2 PTE_P = true →
  valid_page (frame_of ve.2) ∧ frame_of ve.2 ∉ [spare; pd1; pd2; tb1; tb2] ∧
  (has ve.2 PTE_W = true → demo_owners es1 es2 (frame_of ve.2) = {[(pg, ve.1)]}).

Section DemoInv.
Context (sel : selection) (es1 es2 : ptes) (room : bool).
#[local] Instance demo_cfg : Config := demo_config sel.
Hypothesis Hok1 : ptes_ok es1.
Hypothesis Hok2 : ptes_ok es2.
Hypothesis Hfine1 : Forall (entry_fine es1 es2 pd1) es1.
Hypothesis Hfine2 : Forall (entry_fine es1 es2 pd2) es2.

Lemma demo_valid f : f ∈ [spare; pd1; pd2; tb1; tb2] → valid_page f.
Proof.
  intros Hf. repeat (apply elem_of_cons in Hf as [->|Hf]); [..|by apply not_elem_of_nil in Hf]; done.
Qed.

Lemma demo_fine f pg v :
  (pg, v) ∈ demo_owners es1 es2 f →
  pg ∈ demo_dirs ∧ (v, assoc v (es_of es1 es2 pg)) ∈ es_of es1 es2 pg ∧
  valid_page f ∧ f ∉ [spare; pd1; pd2; tb1; tb2] ∧
  (has (assoc v (es_of es1 es2 pg)) PTE_W = true → demo_owners es1 es2 f = {[(pg, v)]}).
Proof.
  intros Hin. apply demo_owner in Hin as (Hpg & HP & Hf); [|done..].
  assert (Hin : (v, assoc v (es_of es1 es2 pg)) ∈ es_of es1 es2 pg).
  { apply assoc_inv. intros E. by rewrite E in HP. }
  split; [done|]. split; [done|].
  assert (Hfine : entry_fine es1 es2 pg (v, assoc v (es_of es1 es2 pg))).
  { repeat (apply elem_of_cons in Hpg as [->|Hpg]); [..|by apply not_elem_of_nil in Hpg].
    - by apply (proj1 (Forall_forall _ _) Hfine1).
    - by apply (proj1 (Forall_forall _ _) Hfine2). }
  destruct (Hfine HP) as (Hv & Hn & HW). simpl in *. by rewrite Hf in *.
Qed.

Lemma demo_spare_unowned : demo_owners es1 es2 spare = ∅.
Proof.
  apply empty_owner. intros pg v Hin. destruct (demo_fine _ _ _ Hin) as (_ & _ & _ & Hn & _). set_solver.
Qed.

Lemma demo_size f : Z.of_nat (size (demo_owners es1 es2 f)) ≤ Z.of_nat (length es1 + length es2).
Proof.
  apply inj_le. unfold demo_owners.
  assert (Hs : ∀ l : list (Z * Z), (size (list_to_set l : gset (Z * Z)) ≤ length l)%nat).
  { induction l as [|y l IH]; [rewrite list_to_set_nil; by rewrite size_empty|].
    rewrite list_to_set_cons. cbn [length]. rewrite size_union_alt, size_singleton.
    pose proof (subseteq_size (list_to_set l ∖ {[y]} : gset (Z * Z)) (list_to_set l)) as Hle.
    assert (list_to_set l ∖ {[y]} ⊆ (list_to_set l : gset (Z * Z))) as Hsub by set_solver.
    specialize (Hle Hsub). lia. }
  etransitivity; [apply Hs|]. rewrite length_app, !length_fmap.
  pose proof (length_filter (λ ve : Z * Z, has ve.2 PTE_P = true ∧ frame_of ve.2 = f) es1).
  pose proof (length_filter (λ ve : Z * Z, has ve.2 PTE_P = true ∧ frame_of ve.2 = f) es2). lia.
Qed.

Lemma demo_kmem :
  Z.of_nat (length es1 + length es2) < 4294967296 →
  kmem_inv 0 (demo_phys2 es1 es2 room) (demo_free room).
Proof.
  intros Hlen. split; cbn [demo_phys2 kmem_locked mem freelist referenceCounters system_free_pages].
  - done.
  - destruct room; [|done]. split; [done|]. simpl. unfold demo_mem.
    rewrite !put_ptes_out; [|apply Hok2|by left|apply Hok1|by left].
    by rewrite !ld32_st32_ne by (right; done).
  - destruct room; repeat constructor; set_solver.
  - destruct room; repeat constructor; done.
  - destruct room; constructor; [|constructor]. unfold demo_refs.
    change (P2V (4096 * pfn spare)) with spare. rewrite demo_spare_unowned, size_empty.
    rewrite decide_False; [done|]. change (pfn spare) with 0x200. set_solver.
  - intros n. unfold demo_refs. case_decide; [done|].
    pose proof (demo_size (P2V (4096 * n))). unfold is_u32. lia.
  - by destruct room.
Qed.

Lemma demo_wf : pt_wf (demo_mem es1 es2) demo_dirs (demo_free room).
Proof.
  assert (Hfree : ∀ f, f ∈ [pd1; pd2; tb1; tb2] → f ∉ demo_free room).
  { intros f Hf Hin. destruct room; [|by apply not_elem_of_nil in Hin].
    apply list_elem_of_singleton in Hin as ->. set_solver. }
  split.
  - intros pg Hpg. unfold demo_dirs in Hpg. split; [apply demo_valid; set_solver|apply Hfree; set_solver].
  - intros pg n t Hpg Hn Ht. rewrite demo_tab in Ht by done. destruct (n =? 0); [|done].
    injection Ht as <-. unfold demo_dirs.
    destruct (pg =? pd1); (split; [done|split; [apply Hfree; set_solver|set_solver]]).
  - intros pg pg' n m t Hpg Hpg' Hn Hm Ht Ht'. rewrite demo_tab in Ht, Ht' by done.
    destruct (Z.eqb_spec n 0), (Z.eqb_spec m 0); try done. subst.
    repeat (apply elem_of_cons in Hpg as [->|Hpg]); [..|by apply not_elem_of_nil in Hpg];
      repeat (apply elem_of_cons in Hpg' as [->|Hpg']); try (by apply not_elem_of_nil in Hpg');
      first [done|exfalso; vm_compute in Ht, Ht'; congruence].
Qed.

Lemma demo_inv :
  Z.of_nat (length es1 + length es2) < 4294967296 →
  vm_inv 0 demo_dirs (demo_phys2 es1 es2 room) (demo_free room) (demo_owners es1 es2) (λ _, 0).
Proof.
  intros Hlen.
  assert (Hpts : ∀ f, valid_page f → pfn f ∈ [0x300; 0x301; 0x302; 0x303] → f ∈ [pd1; pd2; tb1; tb2]).
  { intros f Hf Hin.
    repeat (apply elem_of_cons in Hin as [Hin|Hin]); [..|by apply not_elem_of_nil in Hin].
    - rewrite (pfn_inj f pd1 Hf ltac:(done) Hin). set_solver.
    - rewrite (pfn_inj f tb1 Hf ltac:(done) Hin). set_solver.
    - rewrite (pfn_inj f pd2 Hf ltac:(done) Hin). set_solver.
    - rewrite (pfn_inj f tb2 Hf ltac:(done) Hin). set_solver. }
  split; cbn [demo_phys2 mem referenceCounters].
  - by apply demo_kmem.
  - apply demo_wf.
  - intros f pg v. rewrite demo_owner by done. unfold maps. split.
    + intros (Hpg & HP & Hf).
      assert (Hin : (v, assoc v (es_of es1 es2 pg)) ∈ es_of es1 es2 pg).
      { apply assoc_inv. intros E. by rewrite E in HP. }
      pose proof (proj1 (Forall_forall _ _) (pe_keys _ (es_of_ok es1 es2 Hok1 Hok2 pg)) _ Hin) as [Hv _].
      assert (user_vpn v) by (unfold user_vpn; simpl in Hv; lia).
      rewrite demo_pte by done. done.
    + intros (Hpg & Hv & HP & Hf). rewrite demo_pte in HP, Hf by done. done.
  - intros f pg v Hin. destruct (demo_fine _ _ _ Hin) as (_ & _ & Hv & Hn & _).
    split; [done|]. rewrite demo_pt_page by done. split; [|set_solver].
    destruct room; [|apply not_elem_of_nil]. set_solver.
  - intros f Hf HfL Hfp. rewrite demo_pt_page in Hfp by done. unfold demo_refs.
    rewrite decide_False by (intros ?; by apply Hfp, Hpts).
    destruct (valid_page_pfn f Hf) as (E & _). rewrite <- E.
    rewrite P2V_V2P by (destruct Hf as (?&?&?); klia). lia.
  - intros f Hf. rewrite demo_pt_page in Hf by done. unfold demo_refs. rewrite decide_True; [done|].
    repeat (apply elem_of_cons in Hf as [->|Hf]); [..|by apply not_elem_of_nil in Hf];
      apply (bool_decide_unpack _); vm_compute; done.
  - intros f pg v Hin. destruct (demo_fine _ _ _ Hin) as (Hpg & Hin' & _ & _ & HW).
    pose proof (proj1 (Forall_forall _ _) (pe_keys _ (es_of_ok es1 es2 Hok1 Hok2 pg)) _ Hin') as [Hv _].
    assert (user_vpn v) by (unfold user_vpn; simpl in Hv; lia). rewrite demo_pte by done. exact HW.
  - done.
Qed.
End DemoInv.

(** ** Two processes that share a page copy-on-write

    The page at virtual address 0x1000, with P, U and COW. *)
Definition shared : Z := 0x80304000.
Definition cow_ptes : ptes := [(1, 0x304405)].
Definition cow_phys (room : bool) : phys := demo_phys2 cow_ptes cow_ptes room.

Lemma cow_ptes_ok : ptes_ok cow_ptes.
Proof.
  split; [|apply NoDup_singleton]. constructor; [|constructor]. unfold is_u32. simpl. lia.
Qed.

Lemma cow_phys_inv sel room :
  @vm_inv (demo_config sel) 0 demo_dirs (cow_phys room) (demo_free room)
    (demo_owners cow_ptes cow_ptes) (λ _, 0).
Proof.
  assert (Hfine : ∀ pg, Forall (@entry_fine (demo_config sel) cow_ptes cow_ptes pg) cow_ptes).
  { intros pg. constructor; [|constructor]. intros _. split; [done|]. split; [|done].
    change (frame_of (1, 0x304405).2) with shared. set_solver. }
  apply demo_inv; try apply cow_ptes_ok; try apply Hfine. done.
Qed.

(** ** A kernel with one process, which runs in the first address space *)
Definition demo_tf : trapframe := mkTf 0 0 0 0 0 0 0 0 0 0 0 0 0 0 0 0 0 0 0.
Definition demo_paging : paging :=
  mkPaging (replicate 32 (mkLink (mkPage 0xFFFFFFFF NOT_USED 0xFFFFFFFF 0 0) None None))
    None 0 0 (replicate 17 0) 0 0.
Definition demo_proc (pd : Z) (swap : option Z) : proc :=
  mkProc 0x2000 pd 0 RUNNING 3 None demo_tf 0 0 false (replicate 16 None) None "demo" swap
    demo_paging.
Definition demo_cpu : cpu := mkCpu [] 0x80112000 0 0 0 0 0 true true.
Definition demo_kernel {F} (ph : phys) (x : F) : kernel F :=
  mkKernel ph (V2P pd1) 0 0 0 [demo_proc pd1 (Some 0)] (Some O) None 4 0 demo_cpu x.
