(* ===== verification/PageList.v ===== *)
(** * PageList: the list of resident pages of a process

    The paging metadata of [struct proc] and the routines of [vm.c] and
    [proc.c] that keep it: an array of 32 page descriptors, the resident ones
    linked into a doubly linked list, and the table of swap-file slots. *)

From S2P Require Import Prelude Mmu Phys Config State.

Section PageList.
Context `{Config}.

(** ** Access to the descriptors *)

Definition pl_get (i : nat) : M paging page_link := λ g,
  match pages_meta_data g !! i with
  | Some l => Ok l g
  | None => Err (UB "pages_meta_data index out of range")
  end.

Definition pl_upd (i : nat) (f : page_link → page_link) : M paging unit := λ g,
  match pages_meta_data g !! i with
  | Some l => Ok tt (set_pages_meta_data (<[i:=f l]> (pages_meta_data g)) g)
  | None => Err (UB "pages_meta_data index out of range")
  end.

Definition with_next (n : option nat) (l : page_link) : page_link :=
  mkLink (page l) n (pl_prev l).
Definition with_prev (p : option nat) (l : page_link) : page_link :=
  mkLink (page l) (pl_next l) p.
Definition with_page (p : page_meta_data) (l : page_link) : page_link :=
  mkLink p (pl_next l) (pl_prev l).
Definition with_state (st : pagestate) (l : page_link) : page_link :=
  with_page (mkPage (page_id (page l)) st (offset_in_file (page l))
    (shiftCounter (page l)) (pg_index (page l))) l.
Definition with_offset (o : Z) (l : page_link) : page_link :=
  with_page (mkPage (page_id (page l)) (pg_state (page l)) o
    (shiftCounter (page l)) (pg_index (page l))) l.
Definition with_id (v : Z) (l : page_link) : page_link :=
  with_page (mkPage v (pg_state (page l)) (offset_in_file (page l))
    (shiftCounter (page l)) (pg_index (page l))) l.
Definition with_counter (c : Z) (l : page_link) : page_link :=
  with_page (mkPage (page_id (page l)) (pg_state (page l))
    (offset_in_file (page l)) c (pg_index (page l))) l.

(** The index at which a scan of the array stops: the first element that
    satisfies [P], or one past the end. *)
Fixpoint scan (P : page_link → bool) (l : list page_link) : nat :=
  match l with
  | [] => O
  | x :: l' => if P x then O else S (scan P l')
  end.

(** ** Operations *)

(** [while(lastPage->next != 0) lastPage = lastPage->next;] An acyclic list
    has at most 32 links, so 33 rounds are enough. *)
Fixpoint find_last (fuel : nat) (i : nat) : M paging nat :=
  match fuel with
  | O => fail NoFuel
  | S fuel' =>
      l ← pl_get i;
      match pl_next l with
      | None => mret i
      | Some j => find_last fuel' j
      end
  end.

Definition list_fuel : nat := S MAX_TOTAL_PAGES.

Definition addPageToRam (addr : Z) : M paging unit :=
  lastPage ← gets page_list_head_ram;
  '(newPageLink, index) ←
    (match lastPage with
     | None => modify (set_page_list_head_ram (Some O)) ;; mret (O, 0)
     | Some h =>
         last ← find_last list_fuel h;
         arr ← gets pages_meta_data;
         let i := scan (λ l, page_id (page l) =? PTE_ADDR addr) arr in
         let i := if (i <? length arr)%nat then i
                  else scan (λ l, bool_decide (pg_state (page l) = NOT_USED)) arr in
         pl_upd last (with_next (Some i)) ;;
         pl_upd i (with_prev (Some last)) ;;
         mret (i, Z.of_nat i)
     end);
  pl_upd newPageLink (with_next None) ;;
  pl_upd newPageLink (with_page (mkPage (PTE_ADDR addr) IN_MEMORY 0xFFFFFFFF
    (if decide (SELECTION = LAPA) then 0xFFFFFFFF else 0) index)) ;;
  modify (λ g, set_num_pages_ram (u32 (num_pages_ram g + 1)) g).

Definition removePageFromList (pageToRemove : nat) : M paging unit :=
  l ← pl_get pageToRemove;
  (match pl_prev l with
   | None =>
       modify (set_page_list_head_ram (pl_next l)) ;;
       match pl_next l with
       | Some nextPage => pl_upd nextPage (with_prev None)
       | None => mret tt
       end
   | Some previousPage =>
       pl_upd previousPage (with_next (pl_next l)) ;;
       pp ← pl_get previousPage;
       match pl_next pp with
       | Some nextPage => pl_upd nextPage (with_prev (Some previousPage))
       | None => mret tt
       end
   end) ;;
  pl_upd pageToRemove (with_prev None) ;;
  pl_upd pageToRemove (with_next None).

(** There is no [else] after the empty case: the loop and the three
    assignments that follow run in both. *)
Definition addPageToList (pageToAdd : nat) : M paging unit :=
  h ← gets page_list_head_ram;
  when (bool_decide (h = None)) (
    modify (set_page_list_head_ram (Some pageToAdd)) ;;
    pl_upd pageToAdd (with_next None) ;;
    pl_upd pageToAdd (with_prev None)) ;;
  h ← gets page_list_head_ram;
  match h with
  | None => ub "page_list_head_ram is null"
  | Some h =>
      lastPage ← find_last list_fuel h;
      pl_upd lastPage (with_next (Some pageToAdd)) ;;
      pl_upd pageToAdd (with_prev (Some lastPage)) ;;
      pl_upd pageToAdd (with_next None)
  end.

(** [for (int i = 0; i < 17; i++)] over [available_Offsets]; -1 if none. *)
Definition nextAvOffset : M paging Z :=
  offs ← gets available_Offsets;
  match list_find (λ c, c = 0) (take 17 offs) with
  | Some (i, _) => mret (Z.of_nat i)
  | None => mret (-1)
  end.

(** [available_Offsets[i] = c]. *)
Definition set_offset (i c : Z) : M paging unit :=
  assert_ok ((0 <=? i) && (i <? 17)) "available_Offsets index out of range" ;;
  modify (λ g, set_available_Offsets
    (<[Z.to_nat i := c]> (available_Offsets g)) g).

(** The assignments of [movePageToFile] and [getPageFromFile]. *)
Definition meta_to_file (j : nat) (offset : Z) : M paging unit :=
  pl_upd j (with_offset (PGSIZE * offset)) ;;
  set_offset offset 1 ;;
  pl_upd j (with_state IN_DISK) ;;
  modify (λ g, set_num_pages_disk (u32 (num_pages_disk g + 1)) g).

Definition meta_from_file (j : nat) (off : Z) : M paging unit :=
  set_offset (off / PGSIZE) 0 ;;
  modify (λ g, set_num_pages_ram (u32 (num_pages_ram g + 1)) g) ;;
  modify (λ g, set_num_pages_disk (u32 (num_pages_disk g - 1)) g) ;;
  pl_upd j (with_offset 0xFFFFFFFF) ;;
  pl_upd j (with_state IN_MEMORY) ;;
  addPageToList j.

Definition numOfOnes_loop : nat → Z → Z → Z :=
  fix go fuel shiftCounter counter :=
    match fuel with
    | O => counter
    | S fuel' =>
        go fuel' (Z.shiftr shiftCounter 1)
          (if 0 <? Z.land shiftCounter 1 then counter + 1 else counter)
    end.
Definition numOfOnes (shiftCounter : Z) : Z := numOfOnes_loop 32 shiftCounter 0.

(** [init_meta_data], the part on the paging fields. *)
Definition init_link (i : nat) (l : page_link) : page_link :=
  mkLink (mkPage 0xFFFFFFFF NOT_USED 0xFFFFFFFF
    (if decide (SELECTION = NFUA) then 0
     else if decide (SELECTION = LAPA) then 0xFFFFFFFF
     else shiftCounter (page l)) (Z.of_nat i)) None None.
Definition init_paging (g : paging) : paging :=
  mkPaging (imap init_link (pages_meta_data g)) None 0 0 (replicate 17 0) 0 0.

(** ** The abstract list

    [dll g L]: the resident pages are the descriptors with the indices [L],
    in this order. *)

Record dll (g : paging) (L : list nat) : Prop := {
  dll_len : length (pages_meta_data g) = MAX_TOTAL_PAGES;
  dll_head : page_list_head_ram g = L !! O;
  dll_nodup : NoDup L;
  dll_links : ∀ k i, L !! k = Some i → ∃ l, pages_meta_data g !! i = Some l ∧
    pl_next l = L !! S k ∧
    pl_prev l = match k with O => None | S k' => L !! k' end
}.

(** ** The list operations *)

Lemma pl_get_eq g i l : pages_meta_data g !! i = Some l → pl_get i g = Ok l g.
Proof. unfold pl_get. by intros ->. Qed.

Lemma pl_upd_eq g i l f :
  pages_meta_data g !! i = Some l →
  pl_upd i f g = Ok tt (set_pages_meta_data (<[i:=f l]> (pages_meta_data g)) g).
Proof. unfold pl_upd. by intros ->. Qed.

Section Dll.
Context (g : paging) (L : list nat).
Hypothesis Hd : dll g L.

Lemma dll_lt k i : L !! k = Some i → (i < MAX_TOTAL_PAGES)%nat.
Proof.
  intros Hk. destruct (dll_links _ _ Hd k i Hk) as (l & Hl & _).
  rewrite <- (dll_len _ _ Hd). by eapply lookup_lt_Some.
Qed.

Lemma dll_length : (length L ≤ MAX_TOTAL_PAGES)%nat.
Proof.
  rewrite <- (length_seq MAX_TOTAL_PAGES 0).
  apply submseteq_length, NoDup_submseteq; [apply Hd|].
  intros i [k Hk]%list_elem_of_lookup. apply elem_of_seq.
  pose proof (dll_lt k i Hk). lia.
Qed.

Lemma find_last_eq fuel k i j :
  L !! k = Some i → last L = Some j → (length L ≤ k + fuel)%nat →
  find_last fuel i g = Ok j g.
Proof.
  intros Hk Hl. revert k i Hk. induction fuel as [|fuel IH]; intros k i Hk Hf.
  { apply lookup_lt_Some in Hk. lia. }
  simpl. destruct (dll_links _ _ Hd k i Hk) as (l & El & En & _).
  erewrite bind_ok by by apply pl_get_eq. rewrite En.
  destruct (L !! S k) as [i'|] eqn:Ek.
  - apply (IH (S k)); [done|lia].
  - rewrite last_lookup in Hl. apply lookup_ge_None in Ek.
    apply lookup_lt_Some in Hk as Hk'.
    replace (pred (length L)) with k in Hl by lia.
    assert (i = j) as -> by congruence. done.
Qed.

Lemma find_last_head h j :
  L !! O = Some h → last L = Some j → find_last list_fuel h g = Ok j g.
Proof.
  intros Hh Hl. eapply find_last_eq; [done|done|].
  pose proof dll_length. unfold list_fuel. lia.
Qed.
End Dll.

(** Reading the array after an update. *)
(** Appending: the descriptor [i] that is not in the list becomes its last
    element.  The links of the array [arr] are all that matters. *)
Definition linked (arr : list page_link) (L : list nat) : Prop :=
  NoDup L ∧ ∀ k i, L !! k = Some i → ∃ l, arr !! i = Some l ∧
    pl_next l = L !! S k ∧ pl_prev l = match k with O => None | S k' => L !! k' end.

Lemma dll_linked g L :
  dll g L ↔ length (pages_meta_data g) = MAX_TOTAL_PAGES ∧
    page_list_head_ram g = L !! O ∧ linked (pages_meta_data g) L.
Proof. split; [intros []; by repeat split|intros (?&?&?&?); by split]. Qed.

Lemma linked_snoc arr L i j li lj q :
  linked arr L → last L = Some j → i ∉ L →
  arr !! i = Some li → arr !! j = Some lj →
  linked (<[i := mkLink q None (Some j)]> (<[j := with_next (Some i) lj]> arr))
    (L ++ [i]).
Proof.
  intros [Hnd Hl] Hj Hi Ei Ej. rewrite last_lookup in Hj.
  assert (Hij : j ≠ i) by (intros ->; by apply Hi, list_elem_of_lookup_2 with (1 := Hj)).
  assert (Ei' : <[j:=with_next (Some i) lj]> arr !! i = Some li)
    by (by rewrite list_lookup_insert_ne).
  split.
  { apply NoDup_app. split; [done|]. split; [set_solver|apply NoDup_singleton]. }
  intros k i' Hk. rewrite (lookup_insert_dec _ _ _ _ _ Ei').
  destruct (decide (i = i')) as [<-|Hne].
  - assert (k = length L) as ->.
    { destruct (decide (k < length L)%nat).
      - rewrite lookup_app_l in Hk by done. by apply list_elem_of_lookup_2 in Hk.
      - apply lookup_lt_Some in Hk. rewrite length_app in Hk. simpl in Hk. lia. }
    eexists. split; [done|]. simpl.
    rewrite lookup_ge_None_2 by (rewrite length_app; simpl; lia). split; [done|].
    destruct L as [|x L]; [done|]. simpl in Hj |- *.
    destruct (length L) eqn:E; simpl in *; [done|].
    apply lookup_lt_Some in Hj as Hlt.
    rewrite lookup_app_l by (rewrite E; lia). done.
  - assert (Hk' : L !! k = Some i').
    { apply lookup_app_Some in Hk as [?|[? Hk]]; [done|].
      apply list_lookup_singleton_Some in Hk as [_ ?]. congruence. }
    apply lookup_lt_Some in Hk' as Hlt.
    destruct (Hl k i' Hk') as (l & El & En & Ep).
    assert (Hp : match k with O => None | S k' => (L ++ [i]) !! k' end =
      match k with O => None | S k' => L !! k' end).
    { destruct k; [done|]. by rewrite lookup_app_l by lia. }
    rewrite Hp, (lookup_insert_dec _ _ _ _ _ Ej).
    destruct (decide (j = i')) as [<-|Hne'].
    + eexists. split; [done|]. simpl.
      assert (k = pred (length L)) as -> by (by eapply NoDup_lookup).
      rewrite El in Ej. injection Ej as <-. split; [|done].
      replace (S (pred (length L))) with (length L) by lia.
      by rewrite lookup_app_r, Nat.sub_diag by lia.
    + exists l. split; [done|]. split; [|done]. rewrite En.
      destruct (decide (S k < length L)%nat).
      * by rewrite lookup_app_l.
      * replace (pred (length L)) with k in Hj by lia. congruence.
Qed.

(** Taking [i] out: its neighbours are linked to each other. *)
Lemma linked_remove arr arr' A i B :
  linked arr (A ++ i :: B) →
  (∀ j l, j ∈ A ++ B → arr !! j = Some l → ∃ l', arr' !! j = Some l' ∧
     pl_next l' = (if decide (last A = Some j) then head B else pl_next l) ∧
     pl_prev l' = (if decide (head B = Some j) then last A else pl_prev l)) →
  linked arr' (A ++ B).
Proof.
  intros [Hnd Hl] Hupd.
  assert (HndAB : NoDup (A ++ B)).
  { rewrite Permutation_app_comm in Hnd. simpl in Hnd. apply NoDup_cons in Hnd as [_ Hnd].
    by rewrite Permutation_app_comm. }
  split; [done|]. intros k j Hk. pose proof (list_elem_of_lookup_2 _ _ _ Hk) as Hj.
  destruct (decide (k < length A)%nat) as [HkA|HkA].
  - assert (Hk0 : A !! k = Some j) by (by rewrite lookup_app_l in Hk).
    assert (Hk' : (A ++ i :: B) !! k = Some j) by (by rewrite lookup_app_l).
    destruct (Hl k j Hk') as (l & El & En & Ep).
    destruct (Hupd j l Hj El) as (l' & El' & En' & Ep').
    exists l'. split; [done|]. rewrite En', Ep'. split.
    + destruct (decide (last A = Some j)) as [Hlast|Hlast]; rewrite last_lookup in Hlast.
      * assert (k = pred (length A)) as -> by (eapply (NoDup_lookup A);
          [by apply NoDup_app in HndAB as [? _]|done|done]).
        replace (S (pred (length A))) with (length A) by lia.
        rewrite lookup_app_r, Nat.sub_diag by lia. by rewrite head_lookup.
      * rewrite En. destruct (decide (S k < length A)%nat).
        { by rewrite !lookup_app_l. }
        exfalso. apply Hlast. replace (pred (length A)) with k by lia. done.
    + rewrite decide_False.
      * rewrite Ep. destruct k; [done|]. by rewrite !lookup_app_l by lia.
      * rewrite head_lookup. intros HB. apply list_elem_of_lookup_2 in HB, Hk0.
        apply NoDup_app in HndAB as (_ & Hdis & _). by apply (Hdis j).
  - rewrite lookup_app_r in Hk by lia.
    assert (Hk' : (A ++ i :: B) !! S k = Some j).
    { rewrite lookup_app_r by lia. replace (S k - length A)%nat with (S (k - length A)) by lia.
      done. }
    destruct (Hl (S k) j Hk') as (l & El & En & Ep).
    destruct (Hupd j l Hj El) as (l' & El' & En' & Ep').
    exists l'. split; [done|]. rewrite En', Ep'. split.
    + rewrite decide_False.
      * rewrite En, !lookup_app_r by lia.
        by replace (S (S k) - length A)%nat with (S (S k - length A)) by lia.
      * rewrite last_lookup. intros HA. apply list_elem_of_lookup_2 in HA, Hk.
        apply NoDup_app in HndAB as (_ & Hdis & _). by apply (Hdis j).
    + destruct (decide (head B = Some j)) as [HB|HB].
      * rewrite head_lookup in HB.
        assert (k - length A = 0)%nat by (eapply (NoDup_lookup B);
          [by apply NoDup_app in HndAB as (_ & _ & ?)|done|done]).
        destruct k as [|k]; [destruct A; [done|simpl in HkA; lia]|]. rewrite lookup_app_l by lia.
        rewrite last_lookup. by replace (pred (length A)) with k by lia.
      * rewrite Ep. destruct (decide (k = length A)) as [->|].
        { exfalso. apply HB. rewrite head_lookup. by rewrite Nat.sub_diag in Hk. }
        destruct k as [|k]; [lia|]. rewrite !lookup_app_r by lia.
        by replace (S k - length A)%nat with (S (k - length A)) by lia.
Qed.

(** [links g L] adds to [dll] that descriptors outside the list have null
    links. *)
Definition links (g : paging) (L : list nat) : Prop :=
  dll g L ∧ ∀ i l, pages_meta_data g !! i = Some l → i ∉ L →
    pl_next l = None ∧ pl_prev l = None.

(** Everything but the links is as before. *)
Record same_meta (g g' : paging) : Prop := {
  sm_pages : ∀ j, page <$> pages_meta_data g' !! j = page <$> pages_meta_data g !! j;
  sm_ram : num_pages_ram g' = num_pages_ram g;
  sm_disk : num_pages_disk g' = num_pages_disk g;
  sm_offsets : available_Offsets g' = available_Offsets g;
  sm_faults : num_of_page_faults g' = num_of_page_faults g;
  sm_outs : num_of_page_outs g' = num_of_page_outs g
}.

Lemma same_meta_trans g1 g2 g3 : same_meta g1 g2 → same_meta g2 g3 → same_meta g1 g3.
Proof.
  intros [A1 ? ? ? ? ?] [A2 ? ? ? ? ?]. split; congruence.
Qed.

Lemma insert_page_same (arr : list page_link) i l l' j :
  arr !! i = Some l → page l' = page l →
  page <$> <[i:=l']> arr !! j = page <$> arr !! j.
Proof.
  intros Hi Hp. rewrite (lookup_insert_dec _ _ _ _ _ Hi).
  case_decide; [subst; by rewrite Hi; simpl; rewrite Hp|done].
Qed.

Lemma addPageToList_spec g L i :
  links g L → L ≠ [] → i ∉ L → (i < MAX_TOTAL_PAGES)%nat →
  ∃ g', addPageToList i g = Ok tt g' ∧ links g' (L ++ [i]) ∧ same_meta g g'.
Proof.
  intros [Hd Hnull] HL Hi Hlt. pose proof Hd as (Hlen & Hh & Hlk)%dll_linked.
  destruct L as [|h L]; [done|]. destruct (last_is_Some (h :: L)) as [_ [j Hj]]; [done|].
  destruct (lookup_lt_is_Some_2 (pages_meta_data g) i) as [li Eli]; [lia|].
  assert (Hj' := Hj). rewrite last_lookup in Hj'.
  destruct (proj2 Hlk _ j Hj') as (lj & Elj & _).
  assert (Hij : j ≠ i) by (intros ->; by apply Hi, list_elem_of_lookup_2 with (1 := Hj')).
  set (arr1 := <[j:=with_next (Some i) lj]> (pages_meta_data g)).
  assert (E1 : arr1 !! i = Some li) by (subst arr1; by rewrite list_lookup_insert_ne).
  set (l2 := mkLink (page li) None (Some j)).
  exists (set_pages_meta_data (<[i:=l2]> arr1) g). split; [|split].
  - unfold addPageToList. erewrite bind_ok by done. rewrite Hh. simpl.
    unfold gets at 1. unfold mbind at 1, M_bind at 1. unfold mbind at 1, M_bind at 1. simpl.
    rewrite Hh. simpl.
    erewrite bind_ok by by eapply find_last_head.
    erewrite bind_ok by by apply pl_upd_eq. fold arr1.
    erewrite bind_ok by by apply pl_upd_eq.
    erewrite pl_upd_eq; [|simpl; apply list_lookup_insert_eq; subst arr1;
      rewrite length_insert; lia].
    simpl. unfold set_pages_meta_data. simpl. by rewrite list_insert_insert_eq.
  - split.
    + apply dll_linked. simpl. subst arr1. rewrite !length_insert.
      split; [done|]. split; [done|]. by apply (linked_snoc _ (h :: L) _ _ li).
    + simpl. intros k l Hk Hnk. apply list_elem_of_lookup_2 in Hj'. subst arr1.
      rewrite !list_lookup_insert_ne in Hk by set_solver. eapply Hnull; [done|set_solver].
  - split; try done. intros k. simpl. subst arr1. rewrite (insert_page_same _ _ li), (insert_page_same _ _ lj); done.
Qed.

Lemma pl_upd_alter g i f :
  (i < length (pages_meta_data g))%nat →
  pl_upd i f g = Ok tt (set_pages_meta_data (alter f i (pages_meta_data g)) g).
Proof.
  intros [l E]%lookup_lt_is_Some_2. rewrite (pl_upd_eq _ _ l) by done.
  do 2 f_equal. rewrite list_insert_alter.
  apply list_alter_ext; [|done]. intros x Hx. by simplify_eq.
Qed.

Lemma lookup_alter_dec (arr : list page_link) f i j :
  alter f i arr !! j = if decide (i = j) then f <$> arr !! j else arr !! j.
Proof.
  case_decide; subst; [apply list_lookup_alter_eq|by apply list_lookup_alter_ne].
Qed.

Lemma alter_page_same (arr : list page_link) i f j :
  (∀ l, page (f l) = page l) → page <$> alter f i arr !! j = page <$> arr !! j.
Proof.
  intros Hf. rewrite lookup_alter_dec. case_decide; [|done].
  destruct (arr !! j); [|done]. simpl. by rewrite Hf.
Qed.

(** The array after [removePageFromList]: [p] and [n] are the neighbours. *)
Definition unlink (p : option nat) (i : nat) (n : option nat) (arr : list page_link)
    : list page_link :=
  let arr1 := match p with Some p => alter (with_next n) p arr | None => arr end in
  let arr2 := match n with Some n => alter (with_prev p) n arr1 | None => arr1 end in
  alter (with_next None) i (alter (with_prev None) i arr2).

Lemma length_unlink p i n arr : length (unlink p i n arr) = length arr.
Proof. unfold unlink. destruct p, n; by rewrite !length_alter. Qed.

Lemma unlink_page p i n arr j : page <$> unlink p i n arr !! j = page <$> arr !! j.
Proof. unfold unlink. destruct p, n; by rewrite !alter_page_same. Qed.

Lemma unlink_other p i n arr j l :
  j ≠ i → arr !! j = Some l → ∃ l', unlink p i n arr !! j = Some l' ∧
    pl_next l' = (if decide (p = Some j) then n else pl_next l) ∧
    pl_prev l' = (if decide (n = Some j) then p else pl_prev l).
Proof.
  intros Hj E. unfold unlink. rewrite !list_lookup_alter_ne by done.
  destruct p as [p|], n as [n|]; rewrite ?lookup_alter_dec, E;
    repeat case_decide; simplify_eq/=; eauto.
Qed.

Lemma removePageFromList_eq g L A i B :
  dll g L → L = A ++ i :: B →
  removePageFromList i g =
    Ok tt (mkPaging (unlink (last A) i (head B) (pages_meta_data g)) ((A ++ B) !! O)
      (num_pages_ram g) (num_pages_disk g) (available_Offsets g)
      (num_of_page_faults g) (num_of_page_outs g)).
Proof.
  intros Hd HL. pose proof Hd as (Hlen & Hh & Hnd & Hl)%dll_linked.
  assert (Hk : L !! length A = Some i) by (subst L; by apply list_lookup_middle).
  destruct (Hl _ _ Hk) as (l & El & En & Ep).
  assert (En' : pl_next l = head B).
  { rewrite En, HL, lookup_app_r by lia.
    replace (S (length A) - length A)%nat with 1%nat by lia. simpl. by rewrite head_lookup. }
  assert (Ep' : pl_prev l = last A).
  { rewrite Ep, last_lookup. destruct A; [done|]. simpl. subst L. apply lookup_app_l. simpl; lia. }
  assert (Hlt : ∀ j, j ∈ L → (j < length (pages_meta_data g))%nat).
  { intros j [k Hj]%list_elem_of_lookup. rewrite Hlen. by eapply dll_lt. }
  assert (Hi : (i < length (pages_meta_data g))%nat) by (apply Hlt; subst L; set_solver).
  assert (Hn : ∀ n, head B = Some n → (n < length (pages_meta_data g))%nat).
  { intros n E. apply Hlt. subst L. destruct B; simplify_eq/=. set_solver. }
  unfold removePageFromList. erewrite bind_ok by by apply pl_get_eq.
  rewrite En', Ep'. destruct (last A) as [p|] eqn:EA.
  - apply last_Some in EA as [A' ->].
    assert (Hp : (p < length (pages_meta_data g))%nat) by (apply Hlt; subst L; set_solver).
    destruct (lookup_lt_is_Some_2 _ _ Hp) as [lp Elp].
    assert (E0 : ((A' ++ [p]) ++ B) !! O = page_list_head_ram g).
    { rewrite Hh, HL. by destruct A'. }
    rewrite E0. destruct (head B) as [n|] eqn:EB.
    + erewrite bind_ok.
      2: { erewrite bind_ok by by apply pl_upd_alter.
        erewrite bind_ok by (apply pl_get_eq; simpl; by rewrite list_lookup_alter_eq, Elp).
        apply pl_upd_alter. simpl. rewrite length_alter. by apply Hn. }
      erewrite bind_ok by (apply pl_upd_alter; simpl; by rewrite ?length_alter).
      by rewrite pl_upd_alter by (simpl; by rewrite ?length_alter).
    + erewrite bind_ok.
      2: { erewrite bind_ok by by apply pl_upd_alter.
        by erewrite bind_ok by (apply pl_get_eq; simpl; by rewrite list_lookup_alter_eq, Elp). }
      erewrite bind_ok by (apply pl_upd_alter; simpl; by rewrite ?length_alter).
      by rewrite pl_upd_alter by (simpl; by rewrite ?length_alter).
  - apply last_None in EA as ->. simpl. rewrite <- head_lookup.
    destruct (head B) as [n|] eqn:EB; simpl.
    + erewrite bind_ok by (erewrite bind_ok by done; apply pl_upd_alter; simpl; by apply Hn).
      erewrite bind_ok by (apply pl_upd_alter; simpl; by rewrite ?length_alter).
      by rewrite pl_upd_alter by (simpl; by rewrite ?length_alter).
    + erewrite bind_ok by done.
      erewrite bind_ok by (apply pl_upd_alter; simpl; by rewrite ?length_alter).
      by rewrite pl_upd_alter by (simpl; by rewrite ?length_alter).
Qed.

Lemma unlink_self p i n arr l :
  unlink p i n arr !! i = Some l → pl_next l = None ∧ pl_prev l = None.
Proof.
  unfold unlink. rewrite !list_lookup_alter_eq. cbv zeta.
  set (o := (_ !! i)). destruct o; intros E; simplify_eq/=. done.
Qed.

Lemma removePageFromList_spec g A i B :
  links g (A ++ i :: B) →
  ∃ g', removePageFromList i g = Ok tt g' ∧ links g' (A ++ B) ∧ same_meta g g'.
Proof.
  intros [Hd Hnull]. eexists. split; [by eapply removePageFromList_eq|].
  pose proof Hd as (Hlen & Hh & Hlk)%dll_linked.
  assert (Hni : i ∉ A ++ B).
  { destruct Hlk as [Hnd _]. rewrite Permutation_app_comm in Hnd.
    apply NoDup_cons in Hnd as [Hni _]. set_solver. }
  split; [split|split; try done; intros j; apply unlink_page].
  - apply dll_linked. simpl. rewrite length_unlink. split; [done|]. split; [done|].
    eapply linked_remove; [exact Hlk|]. intros j l Hj E.
    apply unlink_other; [|done]. by intros ->.
  - simpl. intros j l Hj Hnj. destruct (decide (j = i)) as [->|Hji].
    { by eapply unlink_self. }
    destruct (lookup_lt_is_Some_2 (pages_meta_data g) j) as [l0 E0].
    { apply lookup_lt_Some in Hj. by rewrite length_unlink in Hj. }
    destruct (unlink_other (last A) i (head B) _ j l0 Hji E0) as (l' & E' & En & Ep).
    simplify_eq. rewrite En, Ep, !decide_False; [eapply Hnull; [done|set_solver]| |].
    + intros HB. apply Hnj. destruct B; simplify_eq/=. set_solver.
    + intros HA. apply Hnj. apply last_Some in HA as [A' ->]. set_solver.
Qed.

(** ** The paging metadata of a process

    [meta_ok] is about the descriptors' contents: exactly the listed
    ones are in memory, the ones on disk own distinct slots of the swap file,
    and the slots marked in use are the owned ones. *)

Definition pages (g : paging) : list page_meta_data := page <$> pages_meta_data g.

Definition on_disk (p : page_meta_data) : Prop := pg_state p = IN_DISK.
#[global] Instance on_disk_dec p : Decision (on_disk p).
Proof. apply _. Defined.

Record meta_ok (P : list page_meta_data) (L : list nat) (offs : list Z) (disk : Z)
    : Prop := {
  mo_mem : ∀ i p, P !! i = Some p → (pg_state p = IN_MEMORY ↔ i ∈ L);
  mo_disk : disk = Z.of_nat (length (filter on_disk P));
  mo_len : length offs = 17%nat;
  mo_slot : ∀ i p, P !! i = Some p → on_disk p →
    ∃ k c, offset_in_file p = 4096 * Z.of_nat k ∧ offs !! k = Some c ∧ c ≠ 0;
  mo_used : ∀ k c, offs !! k = Some c → c ≠ 0 →
    ∃ i p, P !! i = Some p ∧ on_disk p ∧ offset_in_file p = 4096 * Z.of_nat k;
  mo_inj : ∀ i j p q, P !! i = Some p → P !! j = Some q → on_disk p → on_disk q →
    offset_in_file p = offset_in_file q → i = j;
  mo_ids : ∀ i j p q, P !! i = Some p → P !! j = Some q →
    pg_state p ≠ NOT_USED → pg_state q ≠ NOT_USED → page_id p = page_id q → i = j;
  mo_user : ∀ i p, P !! i = Some p → pg_state p ≠ NOT_USED →
    page_id p mod 4096 = 0 ∧ 0 ≤ page_id p < KERNBASE;
  mo_unused : ∀ i p, P !! i = Some p → pg_state p = NOT_USED → page_id p = 0xFFFFFFFF
}.

Record paging_ok (g : paging) (L : list nat) : Prop := {
  po_links : links g L;
  po_meta : meta_ok (pages g) L (available_Offsets g) (num_pages_disk g);
  po_ram : num_pages_ram g = Z.of_nat (length L)
}.

Definition page_out (k : nat) (p : page_meta_data) : page_meta_data :=
  mkPage (page_id p) IN_DISK (4096 * Z.of_nat k) (shiftCounter p) (pg_index p).
Definition page_in (p : page_meta_data) : page_meta_data :=
  mkPage (page_id p) IN_MEMORY 0xFFFFFFFF (shiftCounter p) (pg_index p).

Lemma meta_out P A i B offs disk p k :
  NoDup (A ++ i :: B) →
  meta_ok P (A ++ i :: B) offs disk → P !! i = Some p → offs !! k = Some 0 →
  meta_ok (<[i:=page_out k p]> P) (A ++ B) (<[k:=1]> offs) (disk + 1).
Proof.
  intros Hnd [Hm Hd Hl Hs Hu Hinj Hids Hus Hun] Hi Hk.
  assert (Hip : pg_state p = IN_MEMORY) by (apply (Hm i p Hi); set_solver).
  assert (Hni : i ∉ A ++ B).
  { rewrite Permutation_app_comm in Hnd. apply NoDup_cons in Hnd as [Hni _]. set_solver. }
  assert (Hlk : ∀ j q, <[i:=page_out k p]> P !! j = Some q →
    (j = i ∧ q = page_out k p) ∨ (j ≠ i ∧ P !! j = Some q)).
  { intros j q. rewrite (lookup_insert_dec _ _ _ _ _ Hi). case_decide; naive_solver. }
  assert (Hkl : (k < length offs)%nat) by (by eapply lookup_lt_Some).
  split.
  - intros j q [[-> ->]|[Hj E]]%Hlk; [simpl; split; [done|set_solver]|].
    rewrite (Hm j q E). set_solver.
  - rewrite (length_filter_insert on_disk P i p (page_out k p)) by done.
    rewrite (decide_False (P := on_disk p)) by (unfold on_disk; by rewrite Hip).
    rewrite (decide_True (P := on_disk (page_out k p))) by done. lia.
  - by rewrite length_insert.
  - intros j q [[-> ->]|[Hj E]]%Hlk Hq.
    + exists k, 1. split; [done|]. by rewrite list_lookup_insert_eq.
    + destruct (Hs j q E Hq) as (k' & c & ? & ? & ?). exists k', c. split; [done|].
      rewrite list_lookup_insert_ne; [done|]. intros ->. congruence.
  - intros k' c. destruct (decide (k = k')) as [<-|].
    + intros _ _. exists i, (page_out k p). split; [|done].
      apply list_lookup_insert_eq. by eapply lookup_lt_Some.
    + rewrite list_lookup_insert_ne by done. intros E Hc.
      destruct (Hu k' c E Hc) as (j & q & Ej & Hq & ?). exists j, q.
      rewrite list_lookup_insert_ne; [done|]. intros ->. unfold on_disk in Hq. congruence.
  - assert (Hfresh : ∀ j q, P !! j = Some q → on_disk q →
      offset_in_file q ≠ 4096 * Z.of_nat k).
    { intros j q E Hq Ho. destruct (Hs j q E Hq) as (k' & c & ? & ? & ?).
      assert (k' = k) as -> by lia. congruence. }
    intros j j' q q' [[-> ->]|[Hj E]]%Hlk [[-> ->]|[Hj' E']]%Hlk Hq Hq' Ho; [done| | |].
    + exfalso. by apply (Hfresh j' q').
    + exfalso. by apply (Hfresh j q).
    + by eapply Hinj.
  - intros j j' q q' [[-> ->]|[Hj E]]%Hlk [[-> ->]|[Hj' E']]%Hlk Hq Hq' Ho;
      [done|eapply Hids with (q := q'); eauto; congruence
      |eapply Hids; eauto; congruence|by eapply Hids].
  - intros j q [[-> ->]|[Hj E]]%Hlk Hq; [|by eapply Hus].
    simpl. apply (Hus i p Hi). congruence.
  - intros j q [[-> ->]|[Hj E]]%Hlk Hq; [done|by eapply Hun].
Qed.

Lemma meta_in P L i offs disk p k :
  meta_ok P L offs disk → P !! i = Some p → on_disk p →
  offset_in_file p = 4096 * Z.of_nat k →
  meta_ok (<[i:=page_in p]> P) (L ++ [i]) (<[k:=0]> offs) (disk - 1).
Proof.
  intros [Hm Hd Hl Hs Hu Hinj Hids Hus Hun] Hi Hp Hk.
  assert (Hlk : ∀ j q, <[i:=page_in p]> P !! j = Some q →
    (j = i ∧ q = page_in p) ∨ (j ≠ i ∧ P !! j = Some q)).
  { intros j q. rewrite (lookup_insert_dec _ _ _ _ _ Hi). case_decide; naive_solver. }
  assert (Hpu : pg_state p ≠ NOT_USED) by (unfold on_disk in Hp; congruence).
  split.
  - intros j q [[-> ->]|[Hj E]]%Hlk; [simpl; split; [set_solver|done]|].
    rewrite (Hm j q E). set_solver.
  - rewrite (length_filter_insert on_disk P i p (page_in p)) by done.
    rewrite (decide_True (P := on_disk p)) by done.
    rewrite (decide_False (P := on_disk (page_in p))) by done. lia.
  - by rewrite length_insert.
  - intros j q [[-> ->]|[Hj E]]%Hlk Hq; [done|].
    destruct (Hs j q E Hq) as (k' & c & ? & ? & ?). exists k', c. split; [done|].
    rewrite list_lookup_insert_ne; [done|]. intros <-. apply Hj.
    eapply Hinj; eauto. congruence.
  - intros k' c E Hc. assert (k' ≠ k).
    { intros ->. destruct (decide (k < length offs)%nat).
      - rewrite list_lookup_insert_eq in E by done. congruence.
      - rewrite list_insert_ge in E by lia. apply lookup_lt_Some in E. lia. }
    rewrite list_lookup_insert_ne in E by done.
    destruct (Hu k' c E Hc) as (j & q & Ej & Hq & ?). exists j, q.
    rewrite list_lookup_insert_ne; [done|]. intros ->. simplify_eq. lia.
  - intros j j' q q' [[-> ->]|[Hj E]]%Hlk [[-> ->]|[Hj' E']]%Hlk Hq Hq' Ho; try done.
    by eapply Hinj.
  - intros j j' q q' [[-> ->]|[Hj E]]%Hlk [[-> ->]|[Hj' E']]%Hlk Hq Hq' Ho;
      [done|eapply Hids with (q := q'); eauto
      |eapply Hids; eauto|by eapply Hids].
  - intros j q [[-> ->]|[Hj E]]%Hlk Hq; [|by eapply Hus]. by apply (Hus i p Hi).
  - intros j q [[-> ->]|[Hj E]]%Hlk Hq; [done|by eapply Hun].
Qed.

Definition new_page (a : Z) (i : nat) : page_meta_data :=
  mkPage a IN_MEMORY 0xFFFFFFFF
    (if decide (SELECTION = LAPA) then 0xFFFFFFFF else 0) (Z.of_nat i).

(** [a] is the address of no page in use. *)
Definition fresh_id (P : list page_meta_data) (a : Z) : Prop :=
  a mod 4096 = 0 ∧ 0 ≤ a < KERNBASE ∧
  ∀ i p, P !! i = Some p → pg_state p ≠ NOT_USED → page_id p ≠ a.

Lemma meta_new P L i offs disk p a :
  meta_ok P L offs disk → P !! i = Some p → pg_state p = NOT_USED → fresh_id P a →
  meta_ok (<[i:=new_page a i]> P) (L ++ [i]) offs disk.
Proof.
  intros [Hm Hd Hl Hs Hu Hinj Hids Hus Hun] Hi Hp (Ha1 & Ha2 & Ha).
  assert (Hlk : ∀ j q, <[i:=new_page a i]> P !! j = Some q →
    (j = i ∧ q = new_page a i) ∨ (j ≠ i ∧ P !! j = Some q)).
  { intros j q. rewrite (lookup_insert_dec _ _ _ _ _ Hi). case_decide; naive_solver. }
  split; [| |done| | | | | |].
  - intros j q [[-> ->]|[Hj E]]%Hlk; [simpl; split; [set_solver|done]|].
    rewrite (Hm j q E). set_solver.
  - rewrite (length_filter_insert on_disk P i p (new_page a i)) by done.
    rewrite (decide_False (P := on_disk p)) by (unfold on_disk; by rewrite Hp).
    rewrite (decide_False (P := on_disk (new_page a i))) by done. lia.
  - intros j q [[-> ->]|[Hj E]]%Hlk Hq; [done|]. by eapply Hs.
  - intros k c E Hc. destruct (Hu k c E Hc) as (j & q & Ej & Hq & ?). exists j, q.
    rewrite list_lookup_insert_ne; [done|]. intros ->. unfold on_disk in Hq. congruence.
  - intros j j' q q' [[-> ->]|[Hj E]]%Hlk [[-> ->]|[Hj' E']]%Hlk Hq Hq' Ho; try done.
    by eapply Hinj.
  - intros j j' q q' [[-> ->]|[Hj E]]%Hlk [[-> ->]|[Hj' E']]%Hlk Hq Hq' Ho.
    + done.
    + by exfalso; eapply (Ha j' q').
    + by exfalso; eapply (Ha j q).
    + by eapply Hids.
  - intros j q [[-> ->]|[Hj E]]%Hlk Hq; [done|by eapply Hus].
  - intros j q [[-> ->]|[Hj E]]%Hlk Hq; [done|by eapply Hun].
Qed.

(** With at most 16 pages on disk one of the 17 slots is free, and the slots
    before the first free one are all in use. *)
Lemma used_pages P L offs disk n :
  meta_ok P L offs disk →
  (∀ k, (k < n)%nat → ∃ c, offs !! k = Some c ∧ c ≠ 0) →
  ∃ K, length K = n ∧ NoDup K ∧ ∀ q, q ∈ K →
    q ∈ filter on_disk P ∧ offset_in_file q < 4096 * Z.of_nat n.
Proof.
  intros Hm. induction n as [|n IH]; intros Hall.
  { exists []. split; [done|]. split; [constructor|]. by intros q ?%not_elem_of_nil. }
  destruct IH as (K & Hlen & Hnd & HK); [intros; apply Hall; lia|].
  destruct (Hall n) as (c & Ec & Hc); [lia|].
  destruct (mo_used _ _ _ _ Hm n c Ec Hc) as (i & p & Ep & Hp & Ho).
  exists (p :: K). split; [simpl; lia|]. split.
  - constructor; [|done]. intros Hin. destruct (HK p Hin). lia.
  - intros q [->|Hq]%elem_of_cons.
    + split; [|lia]. apply list_elem_of_filter. split; [done|]. by eapply list_elem_of_lookup_2.
    + destruct (HK q Hq). split; [done|lia].
Qed.

Lemma meta_offs_full P L offs disk n :
  meta_ok P L offs disk →
  (∀ k, (k < n)%nat → ∃ c, offs !! k = Some c ∧ c ≠ 0) → Z.of_nat n ≤ disk.
Proof.
  intros Hm Hall. destruct (used_pages _ _ _ _ _ Hm Hall) as (K & <- & Hnd & HK).
  rewrite (mo_disk _ _ _ _ Hm). apply inj_le, submseteq_length, NoDup_submseteq; [done|].
  intros q Hq. by apply HK.
Qed.

Lemma nextAvOffset_spec g L :
  meta_ok (pages g) L (available_Offsets g) (num_pages_disk g) → num_pages_disk g ≤ 16 →
  ∃ k, nextAvOffset g = Ok (Z.of_nat k) g ∧ (k < 17)%nat ∧
    available_Offsets g !! k = Some 0 ∧
    ∀ j, (j < k)%nat → ∃ c, available_Offsets g !! j = Some c ∧ c ≠ 0.
Proof.
  intros Hm Hd. pose proof (mo_len _ _ _ _ Hm) as Hlen. unfold nextAvOffset, gets.
  unfold mbind at 1, M_bind at 1. rewrite take_ge by lia.
  destruct (list_find (λ c : Z, c = 0) (available_Offsets g)) as [[k c]|] eqn:E.
  - apply list_find_Some in E as (Ek & -> & Hlt). exists k. split; [done|].
    split; [rewrite <- Hlen; by eapply lookup_lt_Some|]. split; [done|].
    intros j Hj. destruct (lookup_lt_is_Some_2 (available_Offsets g) j) as [c Ec].
    { apply lookup_lt_Some in Ek. lia. }
    exists c. split; [done|]. by eapply Hlt.
  - exfalso. rewrite list_find_None, Forall_lookup in E.
    assert (Z.of_nat 17 ≤ num_pages_disk g); [|lia].
    eapply meta_offs_full; [done|]. intros k Hk.
    destruct (lookup_lt_is_Some_2 (available_Offsets g) k) as [c Ec]; [lia|]. eauto.
Qed.

Lemma scan_none P l : Forall (λ x, P x = false) l → scan P l = length l.
Proof. induction 1 as [|x l Hx _ IH]; [done|]. simpl. by rewrite Hx, IH. Qed.

Lemma scan_some P l :
  Exists (λ x, P x = true) l → ∃ x, l !! scan P l = Some x ∧ P x = true.
Proof.
  induction 1 as [x l Hx|x l _ IH]; simpl; [rewrite Hx; by exists x|].
  destruct (P x) eqn:E; [by exists x|done].
Qed.

Lemma pages_lookup g i p :
  pages g !! i = Some p ↔ ∃ l, pages_meta_data g !! i = Some l ∧ p = page l.
Proof.
  unfold pages. rewrite list_lookup_fmap.
  destruct (pages_meta_data g !! i); simpl; naive_solver.
Qed.

Lemma fresh_id_addr P a : fresh_id P a → PTE_ADDR a = a.
Proof. intros (? & ? & _). rewrite PTE_ADDR_eq by klia. lia. Qed.

Definition set_list (arr : list page_link) (h : nat) (g : paging) : paging :=
  mkPaging arr (Some h) (num_pages_ram g + 1) (num_pages_disk g) (available_Offsets g)
    (num_of_page_faults g) (num_of_page_outs g).

(** The empty list: descriptor 0 is taken. *)
Lemma addPageToRam_nil g a l0 :
  paging_ok g [] → fresh_id (pages g) a → pages_meta_data g !! O = Some l0 →
  addPageToRam a g =
    Ok tt (set_list (<[O:=mkLink (new_page a 0) None None]> (pages_meta_data g)) O g).
Proof.
  intros [[Hd Hnull] Hm Hram] Hfresh El0. pose proof Hd as (Hlen & Hh & Hlk)%dll_linked.
  unfold addPageToRam. erewrite bind_ok by done. rewrite Hh, (fresh_id_addr _ _ Hfresh).
  destruct (Hnull O l0 El0) as [Hn0 Hp0]; [set_solver|].
  erewrite bind_ok by done. cbv beta iota.
  erewrite bind_ok by by apply pl_upd_eq.
  erewrite bind_ok by (apply pl_upd_eq; simpl; apply list_lookup_insert_eq;
    by eapply lookup_lt_Some).
  unfold modify, set_num_pages_ram, set_list. cbn. rewrite Hram. unfold with_page, with_next.
  cbn. by rewrite list_insert_insert_eq, Hp0.
Qed.

(** Otherwise the first unused descriptor is appended. *)
Lemma addPageToRam_cons g h L a j lj i li :
  paging_ok g (h :: L) → fresh_id (pages g) a →
  last (h :: L) = Some j → pages_meta_data g !! j = Some lj →
  i = scan (λ l, bool_decide (pg_state (page l) = NOT_USED)) (pages_meta_data g) →
  pages_meta_data g !! i = Some li → i ≠ j →
  addPageToRam a g =
    Ok tt (set_list (<[i:=mkLink (new_page a i) None (Some j)]>
      (<[j:=with_next (Some i) lj]> (pages_meta_data g))) h g).
Proof.
  intros [[Hd Hnull] Hm Hram] Hfresh Hj Elj Hi Eli Hij.
  pose proof Hd as (Hlen & Hh & Hlk)%dll_linked. pose proof (dll_length _ _ Hd) as HL.
  assert (Hil : (i < length (pages_meta_data g))%nat) by (by eapply lookup_lt_Some).
  assert (Hscan : scan (λ l, page_id (page l) =? a) (pages_meta_data g) = length (pages_meta_data g)).
  { apply scan_none, Forall_lookup. intros k l El. apply Z.eqb_neq.
    assert (Ek : pages g !! k = Some (page l)) by (apply pages_lookup; eauto).
    destruct Hfresh as (_ & Hr & Hf). destruct (decide (pg_state (page l) = NOT_USED)) as [Hu|Hu].
    - rewrite (mo_unused _ _ _ _ Hm k _ Ek Hu). consts. lia.
    - by eapply Hf. }
  unfold addPageToRam. erewrite bind_ok by done. rewrite Hh, (fresh_id_addr _ _ Hfresh).
  change ((h :: L) !! O) with (Some h). erewrite bind_ok.
  2: { erewrite bind_ok by by eapply find_last_head.
    erewrite bind_ok by done. rewrite Hscan, Nat.ltb_irrefl, <- Hi.
    erewrite bind_ok by by apply pl_upd_eq.
    erewrite bind_ok by (apply pl_upd_eq; simpl; by rewrite list_lookup_insert_ne).
    done. }
  cbv beta iota.
  erewrite bind_ok by (apply pl_upd_eq; cbn; apply list_lookup_insert_eq; by rewrite length_insert).
  erewrite bind_ok by (apply pl_upd_eq; cbn; apply list_lookup_insert_eq; by rewrite !length_insert).
  unfold modify, set_num_pages_ram, set_list. cbn. rewrite !list_insert_insert_eq, Hh.
  by rewrite u32_small by (rewrite Hram; unfold is_u32, MAX_TOTAL_PAGES in *; lia).
Qed.

Lemma pages_snoc g j lj i q :
  pages_meta_data g !! j = Some lj →
  page <$> <[i:=mkLink q None (Some j)]> (<[j:=with_next (Some i) lj]> (pages_meta_data g))
    = <[i:=q]> (pages g).
Proof.
  intros Elj. unfold pages. rewrite !list_fmap_insert. simpl. f_equal.
  apply list_insert_id. by rewrite list_lookup_fmap, Elj.
Qed.

(** Recording a new page takes an unused descriptor and appends it. *)
Lemma addPageToRam_spec g L a :
  paging_ok g L → fresh_id (pages g) a →
  (∃ i p, pages g !! i = Some p ∧ pg_state p = NOT_USED ∧ (L = [] → i = O)) →
  ∃ g' i p, addPageToRam a g = Ok tt g' ∧ paging_ok g' (L ++ [i]) ∧
    pages g !! i = Some p ∧ pg_state p = NOT_USED ∧
    pages g' = <[i:=new_page a i]> (pages g) ∧
    available_Offsets g' = available_Offsets g ∧ num_pages_disk g' = num_pages_disk g.
Proof.
  intros Hok Hfresh (i0 & p0 & Ei0 & Hp0 & Hi0). pose proof Hok as [[Hd Hnull] Hm Hram].
  pose proof Hd as (Hlen & Hh & Hlk)%dll_linked.
  destruct L as [|h L].
  - rewrite (Hi0 eq_refl) in *. apply pages_lookup in Ei0 as Hl0. destruct Hl0 as (l0 & El0 & ->).
    do 3 eexists. split; [by eapply addPageToRam_nil|].
    assert (Hpp : page <$> <[O:=mkLink (new_page a 0) None None]> (pages_meta_data g)
      = <[O:=new_page a 0]> (pages g)) by (unfold pages; by rewrite list_fmap_insert).
    split; [split; [split| |]|done].
    + apply dll_linked. simpl. rewrite length_insert. split; [done|]. split; [done|].
      split; [apply NoDup_singleton|]. intros [|k] i Hk; [|done]. simplify_eq/=.
      rewrite list_lookup_insert_eq by (by eapply lookup_lt_Some). eauto.
    + simpl. intros i l El Hni. rewrite list_lookup_insert_ne in El by set_solver.
      eapply Hnull; [done|set_solver].
    + unfold pages at 1. cbn [set_list pages_meta_data]. rewrite Hpp.
      by apply (meta_new _ [] _ _ _ (page l0)).
    + cbn [num_pages_ram set_list]. by rewrite Hram.
  - destruct (last_is_Some (h :: L)) as [_ [j Hj]]; [done|].
    assert (Hj' := Hj). rewrite last_lookup in Hj'.
    destruct (proj2 Hlk _ j Hj') as (lj & Elj & _). apply list_elem_of_lookup_2 in Hj'.
    set (free := λ l : page_link, bool_decide (pg_state (page l) = NOT_USED)).
    destruct (scan_some free (pages_meta_data g)) as (li & Eli & Hli%bool_decide_eq_true).
    { apply pages_lookup in Ei0 as (l0 & El0 & ->). apply Exists_exists. exists l0.
      split; [by eapply list_elem_of_lookup_2|]. subst free. cbv beta. by apply bool_decide_eq_true. }
    set (i := scan free (pages_meta_data g)) in *.
    assert (Hi : pages g !! i = Some (page li)) by (apply pages_lookup; eauto).
    assert (Hni : i ∉ h :: L) by (rewrite <- (mo_mem _ _ _ _ Hm i _ Hi); congruence).
    do 3 eexists. split; [eapply (addPageToRam_cons _ _ _ _ j lj i li); try done; by intros ->|].
    split; [split; [split| |]|split; [done|split; [done|split; [|done]]]].
    + apply dll_linked. simpl. rewrite !length_insert. split; [done|]. split; [done|].
      by apply (linked_snoc _ (h :: L) _ _ li).
    + simpl. intros k l El Hnk.
      rewrite !list_lookup_insert_ne in El by set_solver. eapply Hnull; [done|set_solver].
    + unfold pages at 1. cbn [set_list pages_meta_data].
      rewrite (pages_snoc _ j lj) by done. by apply (meta_new _ _ _ _ _ (page li)).
    + cbn [set_list num_pages_ram]. rewrite Hram, length_app. simpl. lia.
    + by apply pages_snoc.
Qed.

(** ** A fresh process *)

Lemma init_paging_ok g :
  length (pages_meta_data g) = MAX_TOTAL_PAGES → paging_ok (init_paging g) [].
Proof.
  intros Hlen.
  assert (Hlk : ∀ i l, imap init_link (pages_meta_data g) !! i = Some l →
    ∃ l0, l = init_link i l0).
  { intros i l. rewrite list_lookup_imap. destruct (_ !! i) as [l0|]; simpl; naive_solver. }
  assert (Hpg : ∀ i p, pages (init_paging g) !! i = Some p →
    pg_state p = NOT_USED ∧ page_id p = 0xFFFFFFFF).
  { intros i p (l & El & ->)%pages_lookup. by apply Hlk in El as (l0 & ->). }
  split; [split| |done].
  - apply dll_linked. simpl. rewrite length_imap. split; [done|]. split; [done|].
    split; [constructor|done].
  - simpl. intros i l El _. by apply Hlk in El as (l0 & ->).
  - unfold on_disk in *. split.
    + intros i p [-> _]%Hpg. split; [done|]. by intros ?%not_elem_of_nil.
    + rewrite filter_none; [done|]. intros i p [E _]%Hpg. unfold on_disk. congruence.
    + done.
    + intros i p [E _]%Hpg Hd. unfold on_disk in Hd. congruence.
    + intros k c [-> _]%lookup_replicate_1 Hc. done.
    + intros i j p q [E _]%Hpg _ Hd. unfold on_disk in Hd. congruence.
    + intros i j p q [E _]%Hpg _ Hd. congruence.
    + intros i p [E _]%Hpg Hd. congruence.
    + by intros i p [_ ?]%Hpg _.
Qed.

(** ** Counting bits *)

Definition popcount (n : nat) (x : Z) : nat :=
  sum_list_with (λ i, Nat.b2n (Z.testbit x (Z.of_nat i))) (seq 0 n).

Lemma popcount_S n x :
  popcount (S n) x = (Nat.b2n (Z.odd x) + popcount n (Z.shiftr x 1))%nat.
Proof.
  unfold popcount. cbn [seq sum_list_with]. rewrite Z.bit0_odd. f_equal.
  rewrite <- fmap_S_seq. induction (seq 0 n) as [|i l IH]; [done|].
  cbn [fmap list_fmap sum_list_with]. rewrite IH, Z.shiftr_spec by lia.
  by replace (Z.of_nat i + 1) with (Z.of_nat (S i)) by lia.
Qed.

Lemma numOfOnes_loop_spec n x c :
  numOfOnes_loop n x c = c + Z.of_nat (popcount n x).
Proof.
  revert x c. induction n as [|n IH]; intros x c; [unfold popcount; simpl; lia|].
  assert (E : numOfOnes_loop (S n) x c = numOfOnes_loop n (Z.shiftr x 1)
    (if 0 <? Z.land x 1 then c + 1 else c)) by done.
  rewrite E, IH, popcount_S. pose proof (Z.land_ones x 1 ltac:(lia)) as Hx.
  change (Z.ones 1) with 1 in Hx. rewrite Hx. change (2 ^ 1) with 2.
  rewrite Zmod_odd. destruct (Z.odd x); simpl; lia.
Qed.

(** ** The empty list

    The branch for the empty list in [addPageToList] does not return: the
    rest of the body makes the page its own predecessor, and removing it
    afterwards does not empty the list. *)
Lemma addPageToList_empty g i :
  page_list_head_ram g = None → (i < length (pages_meta_data g))%nat →
  ∃ g1 l1, addPageToList i g = Ok tt g1 ∧ page_list_head_ram g1 = Some i ∧
    pages_meta_data g1 !! i = Some l1 ∧ pl_next l1 = None ∧ pl_prev l1 = Some i ∧
    ∃ g2, removePageFromList i g1 = Ok tt g2 ∧ page_list_head_ram g2 = Some i.
Proof.
  intros Hh [l Hl]%lookup_lt_is_Some_2.
  assert (Hi : (i < length (pages_meta_data g))%nat) by (by eapply lookup_lt_Some).
  set (l1 := mkLink (page l) None (Some i)).
  exists (set_page_list_head_ram (Some i)
    (set_pages_meta_data (<[i:=l1]> (pages_meta_data g)) g)), l1.
  split; [|split; [done|split; [by apply list_lookup_insert_eq|split; [done|split; [done|]]]]].
  - unfold addPageToList. erewrite bind_ok by done. rewrite Hh. erewrite bind_ok.
    2: { simpl. erewrite bind_ok by done. erewrite bind_ok by by apply pl_upd_eq.
      apply pl_upd_eq. cbn. by apply list_lookup_insert_eq. }
    erewrite bind_ok by done. cbn. rewrite list_insert_insert_eq.
    erewrite bind_ok.
    2: { unfold find_last, list_fuel. erewrite bind_ok by (apply pl_get_eq; cbn; by apply list_lookup_insert_eq).
      reflexivity. }
    erewrite bind_ok by (apply pl_upd_eq; cbn; by apply list_lookup_insert_eq). cbn.
    rewrite list_insert_insert_eq.
    erewrite bind_ok by (apply pl_upd_eq; cbn; by apply list_lookup_insert_eq). cbn.
    rewrite list_insert_insert_eq.
    rewrite (pl_upd_eq _ _ (mkLink (page l) (Some i) (Some i))) by (cbn; by apply list_lookup_insert_eq).
    cbn. by rewrite list_insert_insert_eq.
  - eexists. split; [|shelve]. unfold removePageFromList.
    erewrite bind_ok by (apply pl_get_eq; cbn; by apply list_lookup_insert_eq).
    cbn [l1 pl_prev pl_next]. erewrite bind_ok.
    2: { erewrite bind_ok by (apply pl_upd_eq; cbn; by apply list_lookup_insert_eq). cbn.
      erewrite bind_ok by (apply pl_get_eq; cbn; rewrite list_insert_insert_eq; by apply list_lookup_insert_eq).
      reflexivity. }
    erewrite bind_ok by (apply pl_upd_eq; cbn; rewrite list_insert_insert_eq; by apply list_lookup_insert_eq).
    apply pl_upd_eq. cbn. rewrite !list_insert_insert_eq. by apply list_lookup_insert_eq.
    Unshelve. done.
Qed.

(** ** Moving a page between memory and disk, in the metadata *)

(** The links do not depend on the contents of the descriptors. *)
Lemma links_upd g g' L j l q :
  links g L → pages_meta_data g !! j = Some l →
  pages_meta_data g' = <[j:=with_page q l]> (pages_meta_data g) →
  page_list_head_ram g' = page_list_head_ram g → links g' L.
Proof.
  intros [[Hlen Hh Hnd Hl] Hnull] Ej E Eh.
  assert (Hup : ∀ k l', pages_meta_data g' !! k = Some l' → ∃ l0, pages_meta_data g !! k = Some l0 ∧
    pl_next l' = pl_next l0 ∧ pl_prev l' = pl_prev l0).
  { intros k l'. rewrite E, (lookup_insert_dec _ _ _ _ _ Ej). case_decide; [|eauto].
    intros [= <-]. subst. eauto. }
  split; [split|].
  - by rewrite E, length_insert.
  - by rewrite Eh.
  - done.
  - intros k i Hk. destruct (Hl k i Hk) as (l0 & E0 & En & Ep).
    destruct (lookup_lt_is_Some_2 (pages_meta_data g') i) as [l' E'].
    { rewrite E, length_insert. by eapply lookup_lt_Some. }
    destruct (Hup _ _ E') as (l1 & E1 & En1 & Ep1). exists l'.
    assert (l0 = l1) as <- by congruence. split; [done|]. split; congruence.
  - intros i l' E' Hi. destruct (Hup _ _ E') as (l0 & E0 & -> & ->). by eapply Hnull.
Qed.

Lemma links_meta g g' L :
  links g L → pages_meta_data g' = pages_meta_data g →
  page_list_head_ram g' = page_list_head_ram g → links g' L.
Proof.
  intros [Hd Hn] E Eh. split; [|by rewrite E]. apply dll_linked in Hd. apply dll_linked. by rewrite E, Eh.
Qed.

Lemma pages_upd g g' j l q :
  pages_meta_data g' = <[j:=with_page q l]> (pages_meta_data g) →
  pages g' = <[j:=q]> (pages g).
Proof. intros E. unfold pages. rewrite E. apply list_fmap_insert. Qed.

Lemma same_meta_pages g g' : same_meta g g' → pages g' = pages g.
Proof.
  intros Hm. apply list_eq. intros j. unfold pages. rewrite !list_lookup_fmap.
  apply (sm_pages _ _ Hm).
Qed.

Lemma set_offset_eq g k c :
  (k < 17)%nat →
  set_offset (Z.of_nat k) c g =
    Ok tt (set_available_Offsets (<[k:=c]> (available_Offsets g)) g).
Proof.
  intros Hk. unfold set_offset. rewrite (proj2 (Z.leb_le 0 _)), (proj2 (Z.ltb_lt _ 17)) by lia.
  erewrite bind_ok by done. unfold modify. by rewrite Nat2Z.id.
Qed.

Lemma meta_to_file_eq g j l k :
  pages_meta_data g !! j = Some l → (k < 17)%nat →
  meta_to_file j (Z.of_nat k) g =
    Ok tt (mkPaging (<[j:=with_page (page_out k (page l)) l]> (pages_meta_data g))
      (page_list_head_ram g) (num_pages_ram g) (u32 (num_pages_disk g + 1))
      (<[k:=1]> (available_Offsets g)) (num_of_page_faults g) (num_of_page_outs g)).
Proof.
  intros Ej Hk. assert (Hlt : (j < length (pages_meta_data g))%nat) by (by eapply lookup_lt_Some).
  unfold meta_to_file. erewrite bind_ok by by apply pl_upd_eq.
  erewrite bind_ok by by apply set_offset_eq.
  erewrite bind_ok by (apply pl_upd_eq; cbn; by apply list_lookup_insert_eq).
  unfold modify. cbn. by rewrite list_insert_insert_eq.
Qed.

Lemma paging_to_file g A j B l k :
  paging_ok g (A ++ j :: B) → pages_meta_data g !! j = Some l →
  available_Offsets g !! k = Some 0 → num_pages_disk g ≤ 16 →
  ∃ g1 g2, meta_to_file j (Z.of_nat k) g = Ok tt g1 ∧
    removePageFromList j (set_num_of_page_outs (u32 (num_of_page_outs g1 + 1)) g1) = Ok tt g2 ∧
    let g3 := set_num_pages_ram (u32 (num_pages_ram g2 - 1)) g2 in
    paging_ok g3 (A ++ B) ∧ pages g3 = <[j:=page_out k (page l)]> (pages g) ∧
    available_Offsets g3 = <[k:=1]> (available_Offsets g) ∧
    num_pages_disk g3 = num_pages_disk g + 1.
Proof.
  intros [Hl Hm Hr] Ej Hk Hd. pose proof (mo_len _ _ _ _ Hm) as Hlen.
  assert (Hk17 : (k < 17)%nat) by (rewrite <- Hlen; by eapply lookup_lt_Some).
  assert (Hd0 : 0 ≤ num_pages_disk g) by (rewrite (mo_disk _ _ _ _ Hm); lia).
  assert (EL : (length (A ++ j :: B) ≤ MAX_TOTAL_PAGES)%nat) by (eapply dll_length, (proj1 Hl)).
  assert (Ep : pages g !! j = Some (page l)) by (apply pages_lookup; eauto).
  pose proof (meta_to_file_eq g j l k Ej Hk17) as E1.
  set (g1 := mkPaging _ _ _ _ _ _ _) in E1.
  set (g1' := set_num_of_page_outs (u32 (num_of_page_outs g1 + 1)) g1).
  assert (Hl1 : links g1' (A ++ j :: B)) by (by apply (links_upd g _ _ j l (page_out k (page l)))).
  destruct (removePageFromList_spec g1' A j B Hl1) as (g2 & E2 & Hl2 & Hm2).
  exists g1, g2. split; [done|]. split; [done|]. cbv zeta.
  assert (Hp3 : pages g2 = <[j:=page_out k (page l)]> (pages g)).
  { rewrite (same_meta_pages _ _ Hm2). by apply (pages_upd g g1' j l). }
  assert (Hd2 : num_pages_disk g2 = num_pages_disk g + 1).
  { rewrite (sm_disk _ _ Hm2). cbn. apply u32_small. unfold is_u32. lia. }
  split; [split|split; [exact Hp3|split; [exact (sm_offsets _ _ Hm2)|exact Hd2]]].
  - by apply (links_meta g2).
  - change (pages (set_num_pages_ram (u32 (num_pages_ram g2 - 1)) g2)) with (pages g2).
    cbn [set_num_pages_ram available_Offsets num_pages_disk].
    rewrite Hp3, (sm_offsets _ _ Hm2), Hd2. apply meta_out; auto. apply (dll_nodup _ _ (proj1 Hl)).
  - cbn [set_num_pages_ram num_pages_ram]. rewrite (sm_ram _ _ Hm2). cbn. rewrite Hr.
    rewrite !length_app in *. simpl in *. unfold MAX_TOTAL_PAGES in *.
    rewrite u32_small; unfold is_u32; lia.
Qed.

Lemma paging_from_file g L j l k :
  paging_ok g L → L ≠ [] → pages_meta_data g !! j = Some l → on_disk (page l) →
  offset_in_file (page l) = 4096 * Z.of_nat k →
  ∃ g', meta_from_file j (offset_in_file (page l)) g = Ok tt g' ∧
    paging_ok g' (L ++ [j]) ∧ pages g' = <[j:=page_in (page l)]> (pages g) ∧
    available_Offsets g' = <[k:=0]> (available_Offsets g) ∧
    num_pages_disk g' = num_pages_disk g - 1.
Proof.
  intros [Hl Hm Hr] HL Ej Hod Hk.
  assert (Ep : pages g !! j = Some (page l)) by (apply pages_lookup; eauto).
  assert (Hk17 : (k < 17)%nat).
  { destruct (mo_slot _ _ _ _ Hm j (page l) Ep Hod) as (k' & c & Ek & Ec & _).
    assert (k = k') as -> by lia. rewrite <- (mo_len _ _ _ _ Hm). by eapply lookup_lt_Some. }
  assert (Hlt : (j < length (pages_meta_data g))%nat) by (by eapply lookup_lt_Some).
  assert (Hjn : j ∉ L).
  { rewrite <- (mo_mem _ _ _ _ Hm j _ Ep). unfold on_disk in Hod. congruence. }
  assert (EL : (length L ≤ MAX_TOTAL_PAGES)%nat) by (eapply dll_length, (proj1 Hl)).
  assert (Hd1 : 1 ≤ num_pages_disk g ≤ 32).
  { pose proof (length_filter_pos on_disk (pages g) j (page l) Ep Hod).
    pose proof (length_filter on_disk (pages g)) as Hle. unfold pages in Hle at 2.
    rewrite length_fmap, (dll_len _ _ (proj1 Hl)) in Hle. unfold MAX_TOTAL_PAGES in Hle.
    rewrite (mo_disk _ _ _ _ Hm). lia. }
  set (g1 := mkPaging (<[j:=with_page (page_in (page l)) l]> (pages_meta_data g))
      (page_list_head_ram g) (u32 (num_pages_ram g + 1)) (u32 (num_pages_disk g - 1))
      (<[k:=0]> (available_Offsets g)) (num_of_page_faults g) (num_of_page_outs g)).
  assert (Hl1 : links g1 L) by (by apply (links_upd g _ _ j l (page_in (page l)))).
  destruct (addPageToList_spec g1 L j Hl1 HL Hjn) as (g' & E' & Hl' & Hm').
  { by rewrite <- (dll_len _ _ (proj1 Hl)). }
  assert (Hp' : pages g' = <[j:=page_in (page l)]> (pages g)).
  { rewrite (same_meta_pages _ _ Hm'). by apply (pages_upd g g1 j l). }
  assert (Hd' : num_pages_disk g' = num_pages_disk g - 1).
  { rewrite (sm_disk _ _ Hm'). cbn. apply u32_small. unfold is_u32. lia. }
  exists g'. split; [|split; [split|split; [done|split; [exact (sm_offsets _ _ Hm')|done]]]].
  - unfold meta_from_file. rewrite Hk.
    replace (4096 * Z.of_nat k / PGSIZE) with (Z.of_nat k) by (unfold PGSIZE; dlia).
    erewrite bind_ok by by apply set_offset_eq.
    erewrite bind_ok by done. erewrite bind_ok by done.
    erewrite bind_ok by by apply pl_upd_eq.
    erewrite bind_ok by (apply pl_upd_eq; cbn; by apply list_lookup_insert_eq).
    rewrite <- E'. f_equal. unfold g1. cbn. by rewrite list_insert_insert_eq.
  - done.
  - rewrite Hp', (sm_offsets _ _ Hm'), Hd'. by apply meta_in.
  - rewrite (sm_ram _ _ Hm'). cbn. rewrite Hr, length_app. simpl. unfold MAX_TOTAL_PAGES in *.
    rewrite u32_small; unfold is_u32; lia.
Qed.

(** Reordering the list. *)
(** The counters do not matter to the well-formedness of the metadata. *)
Definition same_id (q q' : page_meta_data) : Prop :=
  page_id q' = page_id q ∧ pg_state q' = pg_state q ∧ offset_in_file q' = offset_in_file q.

Lemma meta_ok_counters P P' L offs disk :
  Forall2 same_id P P' → meta_ok P L offs disk → meta_ok P' L offs disk.
Proof.
  intros HF [Hm Hd Hl Hs Hu Hinj Hids Hus Hun].
  assert (Hr : ∀ i q', P' !! i = Some q' → ∃ q, P !! i = Some q ∧ same_id q q')
    by (intros i q' E; apply (Forall2_lookup_r _ _ _ _ _ HF E)).
  assert (Hlr : ∀ i q, P !! i = Some q → ∃ q', P' !! i = Some q' ∧ same_id q q')
    by (intros i q E; apply (Forall2_lookup_l _ _ _ _ _ HF E)).
  assert (Hlen : length (filter on_disk P') = length (filter on_disk P)).
  { clear -HF. induction HF as [|q q' P P' (_ & Hst & _) HF IH]; [done|].
    rewrite !filter_cons. destruct (decide (on_disk q')), (decide (on_disk q)); unfold on_disk in *;
      solve [congruence|simpl; by rewrite IH|done]. }
  split; [|by rewrite Hlen|done|..]; unfold on_disk in *.
  - intros i q' E. destruct (Hr i q' E) as (q & Eq & _ & -> & _). by eapply Hm.
  - intros i q' E. destruct (Hr i q' E) as (q & Eq & _ & -> & ->). by eapply Hs.
  - intros k c Ek Hc. destruct (Hu k c Ek Hc) as (i & q & Eq & Hst & Ho).
    destruct (Hlr i q Eq) as (q' & Eq' & _ & Hst' & Ho'). exists i, q'. by rewrite Hst', Ho'.
  - intros i j q q' E E'. destruct (Hr i q E) as (q0 & Eq & _ & -> & ->).
    destruct (Hr j q' E') as (q1 & Eq1 & _ & -> & ->). by eapply Hinj.
  - intros i j q q' E E'. destruct (Hr i q E) as (q0 & Eq & -> & -> & _).
    destruct (Hr j q' E') as (q1 & Eq1 & -> & -> & _). by eapply Hids.
  - intros i q' E. destruct (Hr i q' E) as (q & Eq & -> & -> & _). by eapply Hus.
  - intros i q' E. destruct (Hr i q' E) as (q & Eq & -> & -> & _). by eapply Hun.
Qed.

Lemma paging_ok_perm g g' L L' :
  paging_ok g L → links g' L' → same_meta g g' → L' ≡ₚ L → paging_ok g' L'.
Proof.
  intros [Hl [? ? ? ? ? ? ? ? ?] Hr] Hl' Hm Hp. split; [done| |].
  - rewrite (same_meta_pages _ _ Hm), (sm_offsets _ _ Hm), (sm_disk _ _ Hm). split; auto.
    intros i p E. rewrite Hp. auto.
  - by rewrite (sm_ram _ _ Hm), Hr, Hp.
Qed.

End PageList.
