(* ===== verification/Swap.v ===== *)
(** * Swap: moving pages between memory and the swap file

    The routines of [vm.c] that evict a page, bring one back and choose the
    victim under each replacement policy, and [update_meta_data] of [trap.c],
    which ages the pages.  They run on the kernel state: the page list of the
    running process, physical memory and the file system. *)

From S2P Require Import Prelude Mmu Phys Config Kalloc PageTable Vmspace State PageList.

Section Swap.
Context `{Config} {F : Type} `{FileSystem F}.

(** The kernel reads a user buffer through the page table in [cr3]; an access
    to a page that is not present is a fault. *)
Definition read_user (va : Z) (n : nat) : K F (list Z) := λ s,
  match user_bytes (mem (phys_ s)) (P2V (cr3 s)) va n with
  | Some l => Ok l s
  | None => Err (UB "page fault in the kernel")
  end.

(** [(global_pgdir_flag == 1) ? global_pgdir : myproc()->pgdir] *)
Definition swap_pgdir : K F Z :=
  flag ← gets global_pgdir_flag;
  if flag =? 1 then gets global_pgdir else myproc pgdir.

(** ** Swapping out *)

Definition writeToSwapFile (buffer : list Z) (placeOnFile : Z) : K F Z :=
  f ← myproc swapFile;
  match f with
  | None => ub "swapFile is null"
  | Some f => on_fs (fs_write_at f placeOnFile buffer)
  end.

Definition readFromSwapFile (buffer placeOnFile size : Z) : K F Z :=
  f ← myproc swapFile;
  match f with
  | None => ub "swapFile is null"
  | Some f =>
      '(r, bytes) ← on_fs (fs_read_at f placeOnFile size);
      on_phys (kstore_bytes buffer bytes) ;;
      mret r
  end.

Definition movePageToFile (pageToWrite : nat) : K F Z :=
  pgdir ← swap_pgdir;
  l ← on_paging (pl_get pageToWrite);
  pte ← on_phys (walkpgdir pgdir (page_id (page l)) false);
  if pte =? 0 then panic "movePageToFile: page doesn't exist"
  else
    e ← on_phys (kload32 pte);
    if negb (has e PTE_P) then panic "movePageToFile: page isn't present(2)"
    else
      offset ← on_paging nextAvOffset;
      if offset =? -1 then panic "movePageToFile: swapFile is full!"
      else
        buffer ← read_user (page_id (page l)) (Z.to_nat PGSIZE);
        r ← writeToSwapFile buffer (PGSIZE * offset);
        if r =? -1 then mret (-1)
        else
          on_paging (meta_to_file pageToWrite offset) ;;
          mret 0.

(** [toSwap] is null when [choosePageToSwap] found no page. *)
Definition moveToDisk (toSwap : option nat) : K F Z :=
  match toSwap with
  | None => ub "toSwap is null"
  | Some i =>
      pgdir ← swap_pgdir;
      l ← on_paging (pl_get i);
      pte ← on_phys (walkpgdir pgdir (page_id (page l)) false);
      r ← movePageToFile i;
      if r =? -1 then mret (-1)
      else
        on_paging (modify (λ g, set_num_of_page_outs (u32 (num_of_page_outs g + 1)) g)) ;;
        on_paging (removePageFromList i) ;;
        on_phys (setFlagsOnSwap pgdir (page_id (page l)) false) ;;
        e ← on_phys (kload32 pte);
        on_phys (kfree (P2V (PTE_ADDR e))) ;;
        lcr3 (V2P pgdir) ;;
        on_paging (modify (λ g, set_num_pages_ram (u32 (num_pages_ram g - 1)) g)) ;;
        mret 0
  end.

(** ** Swapping in *)

(** The first test, [offset_in_file < 0], is on a [uint].  The result of
    [mappages] is not looked at. *)
Definition getPageFromFile (i : nat) : K F Z :=
  l ← on_paging (pl_get i);
  if offset_in_file (page l) <? 0 then mret (-1)
  else
    pgdir ← swap_pgdir;
    addr ← on_phys kalloc;
    if addr =? 0 then panic "getPageFromFile: kalloc out of memory"
    else
      on_phys (mappages pgdir (page_id (page l)) PGSIZE (V2P addr) (Z.lor PTE_W PTE_U)) ;;
      r ← readFromSwapFile addr (offset_in_file (page l)) PGSIZE;
      if r =? -1 then mret (-1)
      else
        on_phys (setFlagsOnSwap pgdir (page_id (page l)) true) ;;
        on_paging (meta_from_file i (offset_in_file (page l))) ;;
        mret 0.

(** [deletePage] clears the descriptor, but leaves it in the list of resident
    pages if it was there. *)
Definition deletePage (pageToRemove : nat) : K F unit :=
  on_paging (
    ram ← gets num_pages_ram;
    when (0 <? ram) (modify (set_num_pages_ram (u32 (ram - 1)))) ;;
    pl_upd pageToRemove (with_id 0xFFFFFFFF) ;;
    pl_upd pageToRemove (with_state NOT_USED) ;;
    pl_upd pageToRemove (with_offset 0xFFFFFFFF)) ;;
  g ← myproc paging_;
  if 0 <? num_pages_disk g then
    let i := scan (λ l, bool_decide (pg_state (page l) = IN_DISK)) (pages_meta_data g) in
    if (i <? length (pages_meta_data g))%nat then getPageFromFile i ;; mret tt else mret tt
  else mret tt.

(** ** Choosing a victim *)

(** [PTE_U] of the page at [va] in the running process's page table. *)
Definition is_user_page (va : Z) : K F bool :=
  pd ← myproc pgdir;
  pte ← on_phys (walkpgdir pd va false);
  e ← on_phys (kload32 pte);
  mret (has e PTE_U).

Fixpoint NFUA_loop (fuel tmp page_link : nat) : K F nat :=
  match fuel with
  | O => fail NoFuel
  | S fuel' =>
      t ← on_paging (pl_get tmp);
      match pl_next t with
      | None => mret page_link
      | Some tmp =>
          t ← on_paging (pl_get tmp);
          u ← is_user_page (page_id (page t));
          if negb u then NFUA_loop fuel' tmp page_link
          else
            b ← on_paging (pl_get page_link);
            if shiftCounter (page t) <? shiftCounter (page b)
            then NFUA_loop fuel' tmp tmp
            else NFUA_loop fuel' tmp page_link
      end
  end.

(** The test [page_id >= 0 || page_id <= 0x2000] is as the source has it. *)
Fixpoint LAPA_loop (fuel tmp page_link : nat) (min_number_of_ones : Z) : K F nat :=
  match fuel with
  | O => fail NoFuel
  | S fuel' =>
      t ← on_paging (pl_get tmp);
      match pl_next t with
      | None => mret page_link
      | Some tmp =>
          t ← on_paging (pl_get tmp);
          if (0 <=? page_id (page t)) || (page_id (page t) <=? 0x2000)
          then LAPA_loop fuel' tmp page_link min_number_of_ones
          else
            let current_numOfOnes := numOfOnes (shiftCounter (page t)) in
            u ← is_user_page (page_id (page t));
            if negb u then LAPA_loop fuel' tmp page_link min_number_of_ones
            else
              b ← on_paging (pl_get page_link);
              if current_numOfOnes <? min_number_of_ones
              then LAPA_loop fuel' tmp tmp current_numOfOnes
              else if (current_numOfOnes =? min_number_of_ones)
                      && (shiftCounter (page t) <? shiftCounter (page b))
              then LAPA_loop fuel' tmp tmp current_numOfOnes
              else LAPA_loop fuel' tmp page_link min_number_of_ones
      end
  end.

Definition list_head : K F nat :=
  h ← on_paging (gets page_list_head_ram);
  match h with
  | None => ub "page_list_head_ram is null"
  | Some h => mret h
  end.

Definition move_to_end (page_link : nat) : K F nat :=
  on_paging (removePageFromList page_link) ;;
  on_paging (addPageToList page_link) ;;
  list_head.

Fixpoint SCFIFO_loop (fuel : nat) (pgdir : Z) (page_link : nat) : K F nat :=
  match fuel with
  | O => fail NoFuel
  | S fuel' =>
      l ← on_paging (pl_get page_link);
      u ← is_user_page (page_id (page l));
      if negb u then
        page_link ← move_to_end page_link;
        SCFIFO_loop fuel' pgdir page_link
      else
        a ← on_phys (is_PTE_A pgdir (page_id (page l)));
        if (a : bool) then
          on_phys (PTE_A_off pgdir (page_id (page l))) ;;
          page_link ← move_to_end page_link;
          SCFIFO_loop fuel' pgdir page_link
        else mret page_link
  end.

(** Two rounds over the list are enough when it has a user page: the first
    clears the accessed bits. *)
Definition SCFIFO_fuel : nat := S (MAX_TOTAL_PAGES + MAX_TOTAL_PAGES).

Definition choosePageToSwap : K F (option nat) :=
  h ← on_paging (gets page_list_head_ram);
  pgdir ← swap_pgdir;
  match h with
  | None => mret None
  | Some page_link =>
      match SELECTION with
      | LIFO => j ← on_paging (find_last list_fuel page_link); mret (Some j)
      | NFUA => j ← NFUA_loop list_fuel page_link page_link; mret (Some j)
      | LAPA =>
          l ← on_paging (pl_get page_link);
          j ← LAPA_loop list_fuel page_link page_link (numOfOnes (shiftCounter (page l)));
          mret (Some j)
      | SCFIFO => j ← SCFIFO_loop SCFIFO_fuel pgdir page_link; mret (Some j)
      | AQ => j ← list_head; mret (Some j)
      | NONE => mret (Some page_link)
      end
  end.

Definition swapPages (addr : Z) : K F Z :=
  page_link_out ← choosePageToSwap;
  arr ← on_paging (gets pages_meta_data);
  let page_link_in := scan (λ l, page_id (page l) =? addr) arr in
  if (page_link_in <? length arr)%nat then
    (match page_link_out with
     | Some _ => moveToDisk page_link_out ;; mret tt
     | None => mret tt
     end) ;;
    getPageFromFile page_link_in ;;
    mret 0
  else mret (-1).

(** ** Ageing *)

(** The exchange of [page_link] with the link after it; [l] and [n] are the
    two links before the exchange. *)
Definition swap_neighbours (p nextLink : nat) (l n : page_link) : M paging unit :=
  when (bool_decide (pl_prev l = None))
    (modify (set_page_list_head_ram (Some nextLink))) ;;
  pl_upd p (with_prev (Some nextLink)) ;;
  pl_upd p (with_next (pl_next n)) ;;
  pl_upd nextLink (with_prev (pl_prev l)) ;;
  pl_upd nextLink (with_next (Some p)) ;;
  (match pl_prev l with
   | Some tmp => pl_upd tmp (with_next (Some nextLink))
   | None => mret tt
   end) ;;
  (match pl_next n with
   | Some tmp2 => pl_upd tmp2 (with_prev (Some p))
   | None => mret tt
   end).

Fixpoint switchQueueAQ_loop (fuel : nat) (pgdir : Z) (page_link : option nat) : K F (option nat) :=
  match fuel with
  | O => fail NoFuel
  | S fuel' =>
      match page_link with
      | None => mret None
      | Some p =>
          l ← on_paging (pl_get p);
          match pl_next l with
          | None => mret (Some p)
          | Some nextLink =>
              a ← on_phys (is_PTE_A pgdir (page_id (page l)));
              if (a : bool) then
                on_phys (PTE_A_off pgdir (page_id (page l))) ;;
                n ← on_paging (pl_get nextLink);
                an ← on_phys (is_PTE_A pgdir (page_id (page n)));
                when (negb an) (on_paging (swap_neighbours p nextLink l n)) ;;
                switchQueueAQ_loop fuel' pgdir (Some p)
              else switchQueueAQ_loop fuel' pgdir (Some nextLink)
          end
      end
  end.

(** Every page is met at most twice: with its accessed bit set and clear. *)
Definition switchQueueAQ (pgdir : Z) : K F unit :=
  h ← on_paging (gets page_list_head_ram);
  last ← switchQueueAQ_loop SCFIFO_fuel pgdir h;
  match last with
  | Some p =>
      l ← on_paging (pl_get p);
      on_phys (PTE_A_off pgdir (page_id (page l)))
  | None => mret tt
  end.

Fixpoint age_loop (fuel : nat) (tmp : option nat) : K F unit :=
  match fuel with
  | O => fail NoFuel
  | S fuel' =>
      match tmp with
      | None => mret tt
      | Some i =>
          l ← on_paging (pl_get i);
          on_paging (pl_upd i (with_counter (Z.shiftr (shiftCounter (page l)) 1))) ;;
          pd ← myproc pgdir;
          a ← on_phys (is_PTE_A pd (page_id (page l)));
          when a (
            on_phys (PTE_A_off pd (page_id (page l))) ;;
            on_paging (pl_upd i (λ l,
              with_counter (Z.lor (shiftCounter (page l)) 0x80000000) l))) ;;
          age_loop fuel' (pl_next l)
      end
  end.

Definition update_meta_data : K F unit :=
  when (bool_decide (SELECTION = LAPA) || bool_decide (SELECTION = NFUA)) (
    h ← on_paging (gets page_list_head_ram);
    age_loop list_fuel h) ;;
  when (bool_decide (SELECTION = AQ)) (
    pd ← myproc pgdir;
    switchQueueAQ pd).

(** ** Reading a mapped page *)

Lemma read_user_page d PG (s : kernel F) i p ph g x L O X pg v f :
  vm_inv d PG ph L O X → (pg, v) ∈ O f →
  read_user (4096 * v) (Z.to_nat PGSIZE) (frame s i p ph g x (V2P pg)) =
    Ok (ld_bytes (mem ph) (V2P f) (Z.to_nat PGSIZE)) (frame s i p ph g x (V2P pg)).
Proof.
  intros Hinv Hin. unfold read_user. cbn [frame phys_ cr3].
  assert (Hpg : valid_page pg).
  { apply (vi_own _ _ _ _ _ _ Hinv) in Hin as (Hpg & _).
    by apply (pw_dirs _ _ _ (vi_wf _ _ _ _ _ _ Hinv)). }
  rewrite P2V_V2P by (destruct Hpg as (?&?&?); klia).
  erewrite user_bytes_page; [done|done|done|]. unfold PGSIZE. lia.
Qed.

End Swap.
