(* ===== verification/Policy.v ===== *)
(** * Policy: the page replacement policies

    What [choosePageToSwap] and [update_meta_data] of [vm.c] and [trap.c] do
    to the list of resident pages under each policy. *)

From S2P Require Import Prelude Mmu Phys Config Kalloc PageTable Vmspace State PageList Swap.

Section Policy.
Context `{Config} {F : Type}.

(** The descriptors listed in [L] are mapped user pages of [pg]. *)
Definition resident (O : Z → gset (Z * Z)) (pg : Z) (g : paging) (L : list nat) : Prop :=
  ∀ j l, j ∈ L → pages_meta_data g !! j = Some l →
    user_va_ok (page_id (page l)) ∧ ∃ f, (pg, vpn (page_id (page l))) ∈ O f.

Lemma get_link (s : kernel F) i p ph g x c j l :
  runs s i → pages_meta_data g !! j = Some l →
  on_paging (pl_get j) (frame s i p ph g x c) = Ok l (frame s i p ph g x c).
Proof. intros Hr E. apply on_paging_frame; [done|]. by apply pl_get_eq. Qed.

(** The entry of a resident page, and tests on it. *)
Section Entry.
Context (d : Z) (PG : list Z) (ph : phys) (Lf : list Z) (O : Z → gset (Z * Z)) (X : Z → Z).
Hypothesis Hinv : vm_inv d PG ph Lf O X.
Context (pg va f : Z).
Hypothesis Hva : user_va_ok va.
Hypothesis Hin : (pg, vpn va) ∈ O f.

Lemma walk_mapped :
  ∃ t, tab (mem ph) pg (PDX va) = Some t ∧
    walkpgdir pg va false ph = Ok (t + 4 * PTX va) ph ∧ (t + 4 * PTX va =? 0) = false ∧
    kload32 (t + 4 * PTX va) ph = Ok (pte_of (mem ph) pg (vpn va)) ph.
Proof.
  destruct (owner_tab _ _ _ _ _ _ _ _ _ Hinv Hva Hin) as [t Ht].
  assert (Hpg : pg ∈ PG) by (by apply (vi_own _ _ _ _ _ _ Hinv) in Hin as (? & _)).
  pose proof (vi_wf _ _ _ _ _ _ Hinv) as Hw. destruct (pw_dirs _ _ _ Hw pg Hpg) as [Hv _].
  exists t. split; [done|]. split; [by apply walkpgdir_some|].
  split; [by eapply pte_nonzero|]. erewrite kload_pte by done.
  by rewrite lookup_pte_vpn by (by apply user_va_vpn).
Qed.

Lemma is_PTE_A_eq : is_PTE_A pg va ph = Ok (has (pte_of (mem ph) pg (vpn va)) PTE_A) ph.
Proof.
  destruct walk_mapped as (t & _ & Ew & Enz & El). unfold is_PTE_A.
  erewrite bind_ok by exact Ew. rewrite Enz. by erewrite bind_ok by exact El.
Qed.

Lemma is_user_page_eq (s : kernel F) i p g x c :
  runs s i → pgdir p = pg →
  is_user_page va (frame s i p ph g x c) =
    Ok (has (pte_of (mem ph) pg (vpn va)) PTE_U) (frame s i p ph g x c).
Proof.
  intros Hr Hp. destruct walk_mapped as (t & _ & Ew & Enz & El). unfold is_user_page.
  erewrite bind_ok by (by apply myproc_frame). cbn [pgdir set_paging_]. rewrite Hp.
  erewrite bind_ok by (apply on_phys_frame, Ew). by erewrite bind_ok by (apply on_phys_frame, El).
Qed.

(** [PTE_A_off] clears one bit of one entry. *)
Lemma PTE_A_off_eq :
  ∃ ph', PTE_A_off pg va ph = Ok tt ph' ∧ vm_inv d PG ph' Lf O X ∧
    same_user PG (mem ph) (mem ph') ∧
    ∀ pg' v', pg' ∈ PG → user_vpn v' → pte_of (mem ph') pg' v' =
      if decide (pg' = pg ∧ v' = vpn va)
      then Z.land (pte_of (mem ph) pg (vpn va)) (notu PTE_A) else pte_of (mem ph) pg' v'.
Proof.
  destruct walk_mapped as (t & Ht & Ew & Enz & El).
  assert (Hpg : pg ∈ PG) by (by apply (vi_own _ _ _ _ _ _ Hinv) in Hin as (? & _)).
  set (e := pte_of (mem ph) pg (vpn va)) in *. set (e' := Z.land e (notu PTE_A)).
  assert (Hu : is_u32 e') by (apply is_u32_land; [apply pte_of_u32|done]).
  apply (vi_own _ _ _ _ _ _ Hinv) in Hin as Hin'. destruct Hin' as (_ & _ & HP & Hf).
  destruct (put_flags d PG ph Lf O X pg va t Hinv Hpg Hva Ht f e') as [Hinv' Hs]; try done.
  - rewrite has_P in HP |- *. unfold e'. flags. done.
  - unfold frame_of, e'. by rewrite PTE_ADDR_clear.
  - intros HW. rewrite (vi_write _ _ _ _ _ _ Hinv f pg (vpn va)); [done|done|].
    rewrite has_W in HW |- *. unfold e' in HW. revert HW. flags. done.
  - exists (pte_put t va e' ph). split; [|split; [done|split; [done|]]].
    + unfold PTE_A_off. erewrite bind_ok by exact Ew. rewrite Enz.
      erewrite bind_ok by exact El. eapply kstore_pte; [apply Hinv|done..].
    + intros pg' v' Hpg' Hv'. by apply (put_pte_of d PG ph Lf O X pg va t).
Qed.
End Entry.

Lemma last_cons_default (h : nat) R : last (h :: R) = Some (default h (last R)).
Proof. rewrite last_cons. by destruct (last R). Qed.

(** ** The choice of a victim *)

(** NFUA as a function on the list: a later page replaces the best so far if
    it is a user page with a smaller counter. *)
Definition nfua_pick (user : nat → bool) (counter : nat → Z) (best : nat) (rest : list nat) : nat :=
  foldl (λ b t, if user t && (counter t <? counter b) then t else b) best rest.

Lemma nfua_pick_min user counter best rest :
  nfua_pick user counter best rest ∈ best :: rest ∧
  counter (nfua_pick user counter best rest) ≤ counter best ∧
  ∀ t, t ∈ rest → user t = true → counter (nfua_pick user counter best rest) ≤ counter t.
Proof.
  unfold nfua_pick. revert best. induction rest as [|t rest IH]; intros best; simpl.
  - split; [set_solver|]. split; [lia|]. by intros t ?%not_elem_of_nil.
  - set (b := if user t && (counter t <? counter best) then t else best).
    destruct (IH b) as (Hin & Hle & Hall).
    assert (Hb : counter b ≤ counter best ∧ (user t = true → counter b ≤ counter t)).
    { subst b. destruct (user t); simpl; [|split; [lia|done]].
      destruct (Z.ltb_spec (counter t) (counter best)); lia. }
    split; [|split; [lia|]].
    + apply elem_of_cons in Hin as [Hin|Hin]; [|set_solver]. rewrite Hin.
      subst b. case_match; set_solver.
    + intros t' [->|Ht']%elem_of_cons Hu; [destruct Hb as [_ Hb]; specialize (Hb Hu); lia|by apply Hall].
Qed.

Section Choose.
Context (d : Z) (PG : list Z) (ph : phys) (Lf : list Z) (O : Z → gset (Z * Z)) (X : Z → Z).
Context (s : kernel F) (i : nat) (p : proc) (g : paging) (x : F) (c : Z) (L : list nat).
Hypothesis Hruns : runs s i.
Hypothesis Hflag : global_pgdir_flag s ≠ 1.
Hypothesis Hinv : vm_inv d PG ph Lf O X.
Hypothesis Hdll : dll g L.
Hypothesis Hres : resident O (pgdir p) g L.
Let st := frame s i p ph g x c.

Definition page_at (j : nat) : page_meta_data :=
  match pages_meta_data g !! j with
  | Some l => page l
  | None => mkPage 0 NOT_USED 0 0 0
  end.
Definition user_at (j : nat) : bool :=
  has (pte_of (mem ph) (pgdir p) (vpn (page_id (page_at j)))) PTE_U.
Definition counter_at (j : nat) : Z := shiftCounter (page_at j).

Lemma swap_pgdir_eq : swap_pgdir st = Ok (pgdir p) st.
Proof.
  unfold swap_pgdir, st. erewrite bind_ok by done. cbn [frame global_pgdir_flag].
  rewrite (proj2 (Z.eqb_neq _ _) Hflag). apply myproc_frame. apply Hruns.
Qed.

(** The descriptor at a position of the list. *)
Lemma listed A j B :
  L = A ++ j :: B →
  ∃ l, pages_meta_data g !! j = Some l ∧ pl_next l = head B ∧ page_at j = page l ∧
    user_va_ok (page_id (page l)) ∧ ∃ f, (pgdir p, vpn (page_id (page l))) ∈ O f.
Proof.
  intros HL. assert (Hk : L !! length A = Some j) by (subst L; by apply list_lookup_middle).
  destruct (dll_links _ _ Hdll _ _ Hk) as (l & El & En & _). exists l.
  split; [done|]. split; [|split; [unfold page_at; by rewrite El|]].
  - rewrite En, HL, lookup_app_r by lia.
    replace (S (length A) - length A)%nat with 1%nat by lia. simpl. by rewrite head_lookup.
  - apply (Hres j); [|done]. by eapply list_elem_of_lookup_2.
Qed.

Lemma NFUA_loop_spec fuel A tmp B best :
  L = A ++ tmp :: B → best ∈ L → (length B < fuel)%nat →
  NFUA_loop fuel tmp best st = Ok (nfua_pick user_at counter_at best B) st.
Proof.
  revert A tmp B best. induction fuel as [|fuel IH]; intros A tmp B best HL Hb Hf; [lia|].
  destruct (listed A tmp B HL) as (l & El & En & _). cbn [NFUA_loop].
  erewrite bind_ok by (by apply get_link). rewrite En.
  destruct B as [|t B]; [done|]. cbn [head].
  assert (HL' : L = (A ++ [tmp]) ++ t :: B) by (by rewrite <- app_assoc).
  destruct (listed _ t B HL') as (lt & Elt & Ent & Ept & Hva & f & Hin).
  erewrite bind_ok by (by apply get_link).
  erewrite bind_ok by (by eapply is_user_page_eq).
  assert (Hu : has (pte_of (mem ph) (pgdir p) (vpn (page_id (page lt)))) PTE_U = user_at t)
    by (unfold user_at; by rewrite Ept).
  rewrite Hu. unfold nfua_pick. cbn [foldl].
  destruct (user_at t); [|by eapply IH; [done|done|simpl in Hf; lia]]. cbn [negb andb].
  apply list_elem_of_split in Hb as Hb'. destruct Hb' as (A' & B' & Hb').
  destruct (listed A' best B' Hb') as (lb & Elb & _ & Epb & _).
  erewrite bind_ok by (by apply get_link).
  assert (Hc : shiftCounter (page lt) <? shiftCounter (page lb) = (counter_at t <? counter_at best))
    by (unfold counter_at; by rewrite Ept, Epb).
  rewrite Hc. destruct (counter_at t <? counter_at best).
  - eapply IH; [done| |simpl in Hf; lia]. rewrite HL'. set_solver.
  - eapply IH; [done|done|simpl in Hf; lia].
Qed.

(** LAPA: the guard meant for code and stack pages skips every page. *)
Lemma LAPA_loop_spec fuel A tmp B best m :
  L = A ++ tmp :: B → (length B < fuel)%nat → LAPA_loop fuel tmp best m st = Ok best st.
Proof.
  revert A tmp B. induction fuel as [|fuel IH]; intros A tmp B HL Hf; [lia|].
  destruct (listed A tmp B HL) as (l & El & En & _). cbn [LAPA_loop].
  erewrite bind_ok by (by apply get_link). rewrite En.
  destruct B as [|t B]; [done|]. cbn [head].
  assert (HL' : L = (A ++ [tmp]) ++ t :: B) by (by rewrite <- app_assoc).
  destruct (listed _ t B HL') as (lt & Elt & Ent & Ept & Hva & _).
  erewrite bind_ok by (by apply get_link).
  rewrite (proj2 (Z.leb_le 0 _)) by apply Hva. cbn [orb].
  eapply IH; [done|simpl in Hf; lia].
Qed.

(** The victim under the policies that only look. *)
Definition victim (h : nat) (R : list nat) : nat :=
  match SELECTION with
  | LIFO => default h (last R)
  | NFUA => nfua_pick user_at counter_at h R
  | _ => h
  end.

Lemma choose_victim h R :
  L = h :: R → SELECTION ≠ SCFIFO →
  choosePageToSwap st = Ok (Some (victim h R)) st.
Proof.
  intros HL Hsel. pose proof (dll_length _ _ Hdll) as Hlen.
  assert (HB : (length R < list_fuel)%nat) by (rewrite HL in Hlen; unfold list_fuel; simpl in *; lia).
  assert (Hh : page_list_head_ram g = Some h) by (rewrite (dll_head _ _ Hdll), HL; done).
  unfold choosePageToSwap. erewrite bind_ok by (by apply on_paging_frame).
  erewrite bind_ok by apply swap_pgdir_eq. rewrite Hh. unfold victim.
  destruct SELECTION eqn:Es; [..|done|].
  - erewrite bind_ok by (apply (NFUA_loop_spec _ [] _ R); [done|rewrite HL; set_solver|done]). done.
  - destruct (listed [] h R HL) as (l & El & _). erewrite bind_ok by (by apply get_link).
    erewrite bind_ok by (by apply (LAPA_loop_spec _ [] _ R)). done.
  - done.
  - unfold list_head. erewrite bind_ok; [done|]. erewrite bind_ok by (by apply on_paging_frame).
    by rewrite Hh.
  - erewrite bind_ok; [|apply on_paging_frame; [done|]; eapply find_last_head; [done|by rewrite HL|]].
    2: { rewrite HL. apply (last_cons_default h R). }
    done.
Qed.

End Choose.

(** ** Second chance

    The victim is the first user page of the queue that was not accessed, or
    the first user page if all were. *)

Definition scfifo_victim (user acc : nat → bool) (L : list nat) : option nat :=
  match list_find (λ j, user j && negb (acc j) = true) L with
  | Some (_, j) => Some j
  | None => snd <$> list_find (λ j, user j = true) L
  end.

Section SecondChance.
Context (d : Z) (PG : list Z) (Lf : list Z) (O : Z → gset (Z * Z)) (X : Z → Z).
Context (s : kernel F) (i : nat) (p : proc) (ph0 : phys) (g0 : paging) (x : F) (c : Z) (L : list nat).
Hypothesis Hruns : runs s i.
Hypothesis Hres : resident O (pgdir p) g0 L.
Let pd := pgdir p.
Let id j := page_id (page_at g0 j).
Hypothesis Hid : ∀ j k, j ∈ L → k ∈ L → vpn (id j) = vpn (id k) → j = k.
Let ent ph j := pte_of (mem ph) pd (vpn (id j)).
Let user j := has (ent ph0 j) PTE_U.
Let acc ph j := has (ent ph j) PTE_A.
Let st ph g := frame s i p ph g x c.

(** The state while the queue is [Q], a rotation of [L]. *)
Record sc_state (ph : phys) (g : paging) (Q : list nat) : Prop := {
  sc_inv : vm_inv d PG ph Lf O X;
  sc_user : same_user PG (mem ph0) (mem ph);
  sc_links : links g Q;
  sc_meta : same_meta g0 g;
  sc_perm : Q ≡ₚ L;
  sc_U : ∀ j, j ∈ L → has (ent ph j) PTE_U = user j;
  sc_bits : ∀ pg v, pg ∈ PG → user_vpn v →
    has (pte_of (mem ph) pg v) PTE_P = has (pte_of (mem ph0) pg v) PTE_P ∧
    has (pte_of (mem ph) pg v) PTE_PG = has (pte_of (mem ph0) pg v) PTE_PG
}.

Lemma page_at_same g j : same_meta g0 g → page_at g j = page_at g0 j.
Proof.
  intros Hm. pose proof (sm_pages _ _ Hm j) as E. unfold page_at.
  destruct (pages_meta_data g !! j), (pages_meta_data g0 !! j); simplify_eq/=; congruence.
Qed.

Lemma sc_at ph g Q j :
  sc_state ph g Q → j ∈ Q →
  ∃ l f, pages_meta_data g !! j = Some l ∧ page_id (page l) = id j ∧ j ∈ L ∧
    user_va_ok (id j) ∧ (pd, vpn (id j)) ∈ O f.
Proof.
  intros [Hinv _ [Hd _] Hm Hp _ _] [k Hk]%list_elem_of_lookup.
  assert (HjL : j ∈ L) by (rewrite <- Hp; by eapply list_elem_of_lookup_2).
  destruct (dll_links _ _ Hd k j Hk) as (l & El & _).
  assert (Epg : page l = page_at g0 j) by (rewrite <- (page_at_same g j Hm); unfold page_at; by rewrite El).
  assert (El0 : ∃ l0, pages_meta_data g0 !! j = Some l0 ∧ page l0 = page_at g0 j).
  { pose proof (sm_pages _ _ Hm j) as E. rewrite El in E. unfold page_at.
    destruct (pages_meta_data g0 !! j); simplify_eq/=. eauto. }
  destruct El0 as (l0 & El0 & Ep0). destruct (Hres j l0 HjL El0) as (Hva & f & Hin).
  exists l, f. unfold id. by rewrite Epg, <- Ep0.
Qed.

Lemma id_user k : k ∈ L → user_va_ok (id k).
Proof.
  intros Hk. unfold id, page_at. destruct (pages_meta_data g0 !! k) as [l|] eqn:E; [|done].
  by destruct (Hres k l Hk E).
Qed.

Lemma sc_clear ph g Q j :
  sc_state ph g Q → j ∈ Q →
  ∃ ph', PTE_A_off pd (id j) ph = Ok tt ph' ∧ sc_state ph' g Q ∧ acc ph' j = false ∧
    ∀ k, k ∈ L → k ≠ j → acc ph' k = acc ph k.
Proof.
  intros Hs Hj. destruct (sc_at ph g Q j Hs Hj) as (l & f & El & Eid & HjL & Hva & Hin).
  destruct Hs as [Hinv Hu Hl Hm Hp HU Hbits].
  destruct (PTE_A_off_eq d PG ph Lf O X Hinv pd (id j) f Hva Hin) as (ph' & Eo & Hinv' & Hs' & Hpte).
  assert (Hpd : pd ∈ PG) by (by apply (vi_own _ _ _ _ _ _ Hinv) in Hin as (? & _)).
  assert (Hent : ∀ k, k ∈ L → ent ph' k = if decide (k = j) then Z.land (ent ph j) (notu PTE_A) else ent ph k).
  { intros k Hk. unfold ent at 1. rewrite Hpte; [|done|].
    - destruct (decide (k = j)) as [->|Hne]; [by rewrite decide_True|].
      rewrite decide_False; [done|]. intros [_ E]. by apply Hne, Hid.
    - by apply user_va_vpn, id_user. }
  exists ph'. split; [done|]. split; [|split].
  - split; auto; [by eapply same_user_trans|..].
    + intros k Hk. rewrite Hent by done. rewrite <- (HU k Hk). case_decide; [subst; by flags|done].
    + intros pg v Hpg Hv. rewrite <- !(proj1 (Hbits pg v Hpg Hv)), <- !(proj2 (Hbits pg v Hpg Hv)).
      rewrite Hpte by done. case_decide as Hd; [|done]. destruct Hd as [-> ->]. split; by flags.
  - unfold acc. rewrite Hent, decide_True by done. by flags.
  - intros k Hk Hne. unfold acc. by rewrite Hent, decide_False.
Qed.

Lemma move_to_end_spec ph g j R :
  sc_state ph g (j :: R) → R ≠ [] →
  ∃ g' h, move_to_end j (st ph g) = Ok h (st ph g') ∧ head (R ++ [j]) = Some h ∧
    sc_state ph g' (R ++ [j]).
Proof.
  intros Hs HR. destruct (sc_at ph g (j :: R) j Hs) as (l & f & El & _); [by left|]. destruct Hs as [Hinv Hu Hl Hm Hp HU Hbits].
  destruct (removePageFromList_spec g [] j R Hl) as (g1 & E1 & Hl1 & Hm1).
  assert (Hj : j ∉ R) by (apply (NoDup_cons j R), (dll_nodup _ _ (proj1 Hl))).
  assert (Hlt : (j < MAX_TOTAL_PAGES)%nat) by (eapply (dll_lt g (j :: R) (proj1 Hl) 0%nat); done).
  destruct (addPageToList_spec g1 R j Hl1 HR Hj Hlt) as (g2 & E2 & Hl2 & Hm2).
  destruct R as [|h R]; [done|]. exists g2, h. split; [|split; [done|]].
  - unfold move_to_end. erewrite bind_ok by (by apply on_paging_frame).
    erewrite bind_ok by (by apply on_paging_frame). unfold list_head.
    erewrite bind_ok by (by apply on_paging_frame).
    by rewrite (dll_head _ _ (proj1 Hl2)).
  - split; auto.
    + eapply same_meta_trans; [done|]. by eapply same_meta_trans.
    + rewrite <- Hp. by rewrite Permutation_app_comm.
Qed.

(** One round of the loop at the head [j] of the queue. *)
Lemma sc_round ph g j R fuel :
  sc_state ph g (j :: R) → R ≠ [] →
  (user j && negb (acc ph j) = true ∧ SCFIFO_loop (S fuel) pd j (st ph g) = Ok j (st ph g)) ∨
  (user j && negb (acc ph j) = false ∧ ∃ ph' g' h, head (R ++ [j]) = Some h ∧
     SCFIFO_loop (S fuel) pd j (st ph g) = SCFIFO_loop fuel pd h (st ph' g') ∧
     sc_state ph' g' (R ++ [j]) ∧ (user j = true → acc ph' j = false) ∧
     ∀ k, k ∈ L → k ≠ j → acc ph' k = acc ph k).
Proof.
  intros Hs HR.
  destruct (sc_at ph g (j :: R) j Hs) as (l & f & El & Eid & HjL & Hva & Hin); [by left|].
  pose proof Hs as [Hinv Hu Hl Hm Hp HU Hbits]. cbn [SCFIFO_loop].
  erewrite bind_ok by (by apply get_link). rewrite Eid.
  erewrite bind_ok by (by eapply is_user_page_eq). fold (ent ph j). rewrite HU by done.
  destruct (user j) eqn:EU; cbn [negb andb].
  - erewrite bind_ok by (apply on_phys_frame; by eapply is_PTE_A_eq). fold (ent ph j). fold (acc ph j).
    destruct (acc ph j) eqn:EA; [right|left; done]. split; [done|].
    destruct (sc_clear ph g (j :: R) j Hs) as (ph' & Eo & Hs2 & Hj & Hk); [by left|].
    destruct (move_to_end_spec ph' g j R Hs2 HR) as (g' & h & Em & Hh & Hs3).
    exists ph', g', h. split; [done|]. split; [|split; [done|split]].
    + erewrite bind_ok by (by apply on_phys_frame). by erewrite bind_ok by exact Em.
    + done.
    + done.
  - right. split; [done|]. destruct (move_to_end_spec ph g j R Hs HR) as (g' & h & Em & Hh & Hs3).
    exists ph, g', h. split; [done|]. split; [by erewrite bind_ok by exact Em|]. done.
Qed.

Hypothesis Htwo : (2 ≤ length L)%nat.

Lemma sc_more ph g j R : sc_state ph g (j :: R) → R ≠ [].
Proof.
  intros Hs ->. pose proof (Permutation_length (sc_perm _ _ _ Hs)) as E. simpl in E. lia.
Qed.

(** The second round: no accessed bit is left. *)
Lemma sc_second R P ph g h fuel :
  sc_state ph g (R ++ P) → (∀ j, j ∈ L → user j = true → acc ph j = false) →
  Exists (λ j, user j = true) R → head (R ++ P) = Some h → (length R ≤ fuel)%nat →
  ∃ ph' g' v A B, SCFIFO_loop fuel pd h (st ph g) = Ok v (st ph' g') ∧
    R = A ++ v :: B ∧ (∀ j, j ∈ A → user j ≠ true) ∧ user v = true ∧
    sc_state ph' g' (v :: B ++ P ++ A).
Proof.
  revert P ph g h fuel. induction R as [|j R IH]; intros P ph g h fuel Hs Hacc Hex Hh Hf;
    [by apply Exists_nil in Hex|].
  simpl in Hh, Hf. injection Hh as <-. destruct fuel as [|fuel]; [lia|].
  assert (HjL : j ∈ L) by (rewrite <- (sc_perm _ _ _ Hs); set_solver).
  destruct (sc_round ph g j (R ++ P) fuel Hs (sc_more _ _ _ _ Hs))
    as [[Hv E]|(Hv & ph' & g' & h' & Hh' & E & Hs' & Hj & Hk)].
  - apply andb_true_iff in Hv as [Hv _]. exists ph, g, j, [], R.
    split; [done|]. split; [done|]. split; [by intros ? ?%not_elem_of_nil|]. split; [done|].
    by rewrite app_nil_r.
  - assert (Hnu : user j ≠ true).
    { intros Hu. rewrite Hu, (Hacc j HjL Hu) in Hv. done. }
    apply Exists_cons in Hex as [?|Hex]; [done|].
    rewrite <- app_assoc in Hs', Hh'.
    destruct (IH (P ++ [j]) ph' g' h' fuel) as (ph2 & g2 & v & A & B & E2 & -> & HA & Hv2 & Hs2); auto; [|lia|].
    { intros k Hk' Hu. destruct (decide (k = j)) as [->|]; [done|]. rewrite Hk by done. auto. }
    exists ph2, g2, v, (j :: A), B. split; [by rewrite E|]. split; [done|].
    split; [|split; [done|by rewrite <- app_assoc in Hs2]].
    intros k [->|?]%elem_of_cons; auto.
Qed.

(** The first round: the part [P] of the queue has been passed. *)
Lemma sc_first R P ph g h fuel :
  sc_state ph g (R ++ P) → L = P ++ R →
  (∀ j, j ∈ R → acc ph j = acc ph0 j) →
  (∀ j, j ∈ P → user j = true → acc ph j = false ∧ acc ph0 j = true) →
  Exists (λ j, user j = true) L → head (R ++ P) = Some h →
  (length R + length L ≤ fuel)%nat →
  ∃ ph' g' v A B, SCFIFO_loop fuel pd h (st ph g) = Ok v (st ph' g') ∧
    scfifo_victim user (acc ph0) L = Some v ∧ L = A ++ v :: B ∧ sc_state ph' g' (v :: B ++ A).
Proof.
  revert P ph g h fuel. induction R as [|j R IH]; intros P ph g h fuel Hs HL HR HP Hex Hh Hf.
  - rewrite app_nil_r in HL. simpl in Hs, Hh.
    destruct (sc_second P [] ph g h fuel) as (ph' & g' & v & A & B & E & HP' & HA & Hv & Hs').
    { by rewrite app_nil_r. }
    { intros k Hk Hu. apply HP; [by rewrite <- HL|done]. }
    { by rewrite <- HL. }
    { by rewrite app_nil_r. }
    { rewrite HL in Hf. lia. }
    exists ph', g', v, A, B. split; [done|]. split; [|split; [by rewrite HL|done]].
    unfold scfifo_victim. rewrite list_find_absent.
    + rewrite HL, HP'. by rewrite list_find_middle.
    + rewrite HL. intros k Hk [Hu Ha]%andb_true_iff. destruct (HP k Hk Hu) as [_ Ha0].
      by rewrite Ha0 in Ha.
  - simpl in Hh, Hf. injection Hh as <-. destruct fuel as [|fuel]; [lia|].
    pose proof (dll_nodup _ _ (proj1 (sc_links _ _ _ Hs))) as Hnd1. simpl in Hnd1.
    apply NoDup_cons in Hnd1 as [Hj1 _].
    destruct (sc_round ph g j (R ++ P) fuel Hs (sc_more _ _ _ _ Hs))
      as [[Hv E]|(Hv & ph' & g' & h' & Hh' & E & Hs' & Hj & Hk)].
    + exists ph, g, j, P, R. split; [done|]. split; [|split; [done|done]].
      rewrite HR in Hv by set_solver. unfold scfifo_victim. rewrite HL, list_find_middle; [done|done|].
      intros k Hk [Hu Ha]%andb_true_iff. destruct (HP k Hk Hu) as [_ Ha0]. by rewrite Ha0 in Ha.
    + rewrite <- app_assoc in Hs', Hh'.
      destruct (IH (P ++ [j]) ph' g' h' fuel) as (ph2 & g2 & v & A & B & E2 & Hvic & HL2 & Hs2); auto.
      { by rewrite <- app_assoc. }
      { intros k Hk'. rewrite Hk; [apply HR; set_solver|rewrite HL; set_solver|set_solver]. }
      { intros k Hk' Hu. destruct (decide (k = j)) as [->|Hne].
        - split; [by apply Hj|]. rewrite Hu, HR in Hv by set_solver.
          by destruct (acc ph0 j).
        - assert (k ∈ P) by set_solver. rewrite Hk by (rewrite ?HL; set_solver). by apply HP. }
      { lia. }
      exists ph2, g2, v, A, B. by rewrite E.
Qed.
End SecondChance.

(** [choosePageToSwap] under SCFIFO. *)
Lemma choose_scfifo d PG Lf O X (s : kernel F) i p ph g x c L :
  SELECTION = SCFIFO → runs s i → global_pgdir_flag s ≠ 1 →
  vm_inv d PG ph Lf O X → links g L → resident O (pgdir p) g L →
  (∀ j k, j ∈ L → k ∈ L →
     vpn (page_id (page_at g j)) = vpn (page_id (page_at g k)) → j = k) →
  (2 ≤ length L)%nat → Exists (λ j, user_at ph p g j = true) L →
  ∃ ph' g' v A B,
    choosePageToSwap (frame s i p ph g x c) = Ok (Some v) (frame s i p ph' g' x c) ∧
    scfifo_victim (user_at ph p g)
      (λ j, has (pte_of (mem ph) (pgdir p) (vpn (page_id (page_at g j)))) PTE_A) L = Some v ∧
    L = A ++ v :: B ∧ sc_state d PG Lf O X p ph g L ph' g' (v :: B ++ A).
Proof.
  intros Hsel Hr Hflag Hinv Hl Hres Hid Htwo Hex.
  pose proof (dll_length _ _ (proj1 Hl)) as Hlen.
  destruct L as [|h R]; [simpl in Htwo; lia|].
  assert (Hs : sc_state d PG Lf O X p ph g (h :: R) ph g ((h :: R) ++ [])).
  { rewrite app_nil_r. split; try done; by split. }
  destruct (sc_first d PG Lf O X s i p ph g x c (h :: R) Hr Hres Hid Htwo (h :: R) [] ph g h SCFIFO_fuel Hs)
    as (ph' & g' & v & A & B & E & Hv & HL & Hs'); try done.
  { intros ? ?%not_elem_of_nil; done. }
  { unfold SCFIFO_fuel. lia. }
  exists ph', g', v, A, B. split; [|done].
  unfold choosePageToSwap. erewrite bind_ok by (by apply on_paging_frame).
  erewrite bind_ok by (by apply swap_pgdir_eq).
  rewrite (dll_head _ _ (proj1 Hl)). cbn [lookup list_lookup]. rewrite Hsel.
  by erewrite bind_ok by exact E.
Qed.

End Policy.
