(* ===== verification/Uvm.v ===== *)
(** * Uvm: address spaces, from [vm.c]

    Building, growing, shrinking, copying and freeing a process's page table,
    and switching to it. *)

From S2P Require Import Prelude Mmu Phys Config Kalloc PageTable State Spinlock PageList Swap.

Section Uvm.
Context `{Config} {F : Type} `{FileSystem F}.

(** ** Segments and switching *)

Definition on_cpu {A} (c : M cpu A) : K F A := λ s,
  match c (cpu0 s) with
  | Ok a x => Ok a (set_cpu0 x s)
  | Err e => Err e
  end.

Definition set_gdt (i : nat) (d : segdesc) : M cpu unit := modify (λ c,
  mkCpu (<[i:=d]> (gdt c)) (ts_addr c) (ts_ss0 c) (ts_esp0 c) (ts_iomb c) (tr c) (ncli c)
    (intena c) (intr_flag c)).
Definition set_ts (ss0 esp0 iomb : Z) : M cpu unit := modify (λ c,
  mkCpu (gdt c) (ts_addr c) ss0 esp0 iomb (tr c) (ncli c) (intena c) (intr_flag c)).
Definition ltr (sel : Z) : M cpu unit := modify (λ c,
  mkCpu (gdt c) (ts_addr c) (ts_ss0 c) (ts_esp0 c) (ts_iomb c) sel (ncli c) (intena c) (intr_flag c)).

(** [cpuid()], called first, panics if interrupts are on. *)
Definition seginit : M cpu unit :=
  fl ← gets intr_flag;
  if (fl : bool) then panic "mycpu called with interrupts enabled"
  else
    set_gdt (Z.to_nat SEG_KCODE) (SEG (Z.lor STA_X STA_R) 0 0xffffffff 0) ;;
    set_gdt (Z.to_nat SEG_KDATA) (SEG STA_W 0 0xffffffff 0) ;;
    set_gdt (Z.to_nat SEG_UCODE) (SEG (Z.lor STA_X STA_R) 0 0xffffffff DPL_USER) ;;
    set_gdt (Z.to_nat SEG_UDATA) (SEG STA_W 0 0xffffffff DPL_USER).

Definition switchkvm : K F unit :=
  pg ← gets kpgdir;
  lcr3 (V2P pg).

(** [sizeof(struct taskstate)] is 104. *)
Definition switchuvm (p : option nat) : K F unit :=
  match p with
  | None => panic "switchuvm: no process"
  | Some i =>
      ks ← on_proc i (gets kstack);
      pd ← on_proc i (gets pgdir);
      if ks =? 0 then panic "switchuvm: no kstack"
      else if pd =? 0 then panic "switchuvm: no pgdir"
      else
        on_cpu pushcli ;;
        ts ← on_cpu (gets ts_addr);
        let d := SEG16 STS_T32A ts (104 - 1) 0 in
        on_cpu (set_gdt (Z.to_nat SEG_TSS) {|
          sd_lim_15_0 := sd_lim_15_0 d; sd_base_15_0 := sd_base_15_0 d;
          sd_base_23_16 := sd_base_23_16 d; sd_type := sd_type d; sd_s := 0;
          sd_dpl := sd_dpl d; sd_p := sd_p d; sd_lim_19_16 := sd_lim_19_16 d;
          sd_avl := sd_avl d; sd_rsv1 := sd_rsv1 d; sd_db := sd_db d; sd_g := sd_g d;
          sd_base_31_24 := sd_base_31_24 d |}) ;;
        on_cpu (set_ts (Z.shiftl SEG_KDATA 3) (u32 (ks + KSTACKSIZE)) 0xFFFF) ;;
        on_cpu (ltr (Z.shiftl SEG_TSS 3)) ;;
        lcr3 (V2P pd) ;;
        on_cpu popcli
  end.

(** ** Shrinking *)

(** The search for a page in [pages_meta_data], and what follows it.
    [pageFound] is the C local: [None] while it is uninitialised, and never
    reset between two rounds of the loop. *)
Definition find_page (a : Z) (pageFound : option bool) : K F (nat * option bool) :=
  arr ← on_paging (gets pages_meta_data);
  let i := scan (λ l, page_id (page l) =? a) arr in
  mret (i, if (i <? length arr)%nat then Some true else pageFound).

Definition when_found (pageFound : option bool) (c : K F unit) : K F unit :=
  match pageFound with
  | None => ub "pageFound is uninitialised"
  | Some b => when b c
  end.

(** A page of the swap file is forgotten. *)
Definition drop_disk_page (i : nat) : M paging unit :=
  modify (λ g, set_num_pages_disk (u32 (num_pages_disk g - 1)) g) ;;
  l ← pl_get i;
  set_offset (offset_in_file (page l) / PGSIZE) 0 ;;
  pl_upd i (with_id 0xFFFFFFFF) ;;
  pl_upd i (with_offset 0xFFFFFFFF) ;;
  pl_upd i (with_state NOT_USED).

Definition paging_on : bool := negb (bool_decide (SELECTION = NONE)).

(** [SELECTION != NONE && myproc()->pgdir == pgdir]. *)
Definition own_pgdir (pd : Z) : K F bool :=
  if paging_on then p ← myproc pgdir; mret (p =? pd) else mret false.

(** One round of the loop of [deallocuvm] on the entry at [pte]. *)
Definition dealloc_page (pd a pte : Z) (pageFound : option bool) : K F (option bool) :=
  e ← on_phys (kload32 pte);
  if has e PTE_P then
    let pa := PTE_ADDR e in
    if pa =? 0 then panic "kfree (deallocuvm)"
    else
      on_phys (kfree (P2V pa)) ;;
      on_phys (kstore32 pte 0) ;;
      own ← own_pgdir pd;
      if (own : bool) then
        '(i, found) ← find_page a pageFound;
        when_found found (deletePage i) ;;
        mret found
      else mret pageFound
  else if paging_on && has e PTE_PG then
    own ← own_pgdir pd;
    if (own : bool) then
      '(i, found) ← find_page (PTE_ADDR a) pageFound;
      when_found found (on_paging (drop_disk_page i)) ;;
      on_phys (kstore32 pte 0) ;;
      mret found
    else mret pageFound
  else mret pageFound.

Fixpoint deallocuvm_loop (fuel : nat) (pd a oldsz : Z) (pageFound : option bool) : K F unit :=
  match fuel with
  | O => fail NoFuel
  | S fuel' =>
      if a <? oldsz then
        pte ← on_phys (walkpgdir pd a false);
        if pte =? 0 then
          let a := u32 (PGADDR (PDX a + 1) 0 0 - PGSIZE) in
          deallocuvm_loop fuel' pd (u32 (a + PGSIZE)) oldsz pageFound
        else
          found ← dealloc_page pd a pte pageFound;
          deallocuvm_loop fuel' pd (u32 (a + PGSIZE)) oldsz found
      else mret tt
  end.

(** Every round moves at least one page up: as many rounds as there are pages
    in [oldsz] are enough. *)
Definition deallocuvm (pd oldsz newsz : Z) : K F Z :=
  if oldsz <=? newsz then mret oldsz
  else
    deallocuvm_loop (S (S (Z.to_nat (oldsz / PGSIZE)))) pd (PGROUNDUP newsz) oldsz None ;;
    mret newsz.

(** ** Freeing *)

Definition freevm (pd : Z) : K F unit :=
  if pd =? 0 then panic "freevm: no pgdir"
  else
    modify (set_global_pgdir_flag 1) ;;
    modify (set_global_pgdir pd) ;;
    deallocuvm pd KERNBASE 0 ;;
    on_phys (forM (seqZ 0 NPDENTRIES) (λ i,
      e ← kload32 (pd + 4 * i);
      when (has e PTE_P) (kfree (P2V (PTE_ADDR e))))) ;;
    modify (set_global_pgdir 0) ;;
    modify (set_global_pgdir_flag 0) ;;
    on_phys (kfree pd).

(** ** Building *)

(** The table [kmap]: virtual address, physical start and end, permissions. *)
Definition kmap : list (Z * Z * Z * Z) :=
  [(KERNBASE, 0, EXTMEM, PTE_W);
   (KERNLINK, V2P KERNLINK, V2P kdata, 0);
   (kdata, V2P kdata, PHYSTOP, PTE_W);
   (DEVSPACE, DEVSPACE, 0, PTE_W)].

Fixpoint setupkvm_loop (ks : list (Z * Z * Z * Z)) (pd : Z) : K F Z :=
  match ks with
  | [] => mret pd
  | (virt, phys_start, phys_end, perm) :: ks' =>
      r ← on_phys (mappages pd virt (u32 (phys_end - phys_start)) phys_start perm);
      if r <? 0 then freevm pd ;; mret 0
      else setupkvm_loop ks' pd
  end.

Definition setupkvm : K F Z :=
  pd ← on_phys kalloc;
  if pd =? 0 then mret 0
  else
    on_phys (kmemset pd 0 PGSIZE) ;;
    if DEVSPACE <? P2V PHYSTOP then panic "PHYSTOP too high"
    else setupkvm_loop kmap pd.

Definition kvmalloc : K F unit :=
  pd ← setupkvm;
  modify (set_kpgdir pd) ;;
  switchkvm.

(** ** Growing *)

(** [createSwapFile(myproc())]. *)
Definition create_my_swap : K F unit :=
  pid ← myproc pid;
  f ← on_fs (fs_create_swap pid);
  on_myproc (modify (set_swapFile (Some f))).

(** [SELECTION != NONE && myproc()->pid > 2]. *)
Definition paged_proc : K F bool :=
  if paging_on then p ← myproc pid; mret (2 <? p) else mret false.

(** Makes room for one page: [false] when [allocuvm] has to return 0. *)
Definition make_room : K F bool :=
  g ← myproc paging_;
  if num_pages_ram g =? MAX_PSYC_PAGES then
    if u32 (num_pages_disk g + MAX_PSYC_PAGES) =? Z.of_nat MAX_TOTAL_PAGES then mret false
    else
      f ← myproc swapFile;
      (match f with None => create_my_swap | Some _ => mret tt end) ;;
      v ← choosePageToSwap;
      r ← moveToDisk v;
      mret (negb (r =? -1))
  else mret true.

Fixpoint allocuvm_loop (fuel : nat) (pd a oldsz newsz : Z) : K F Z :=
  match fuel with
  | O => fail NoFuel
  | S fuel' =>
      if a <? newsz then
        paged ← paged_proc;
        room ← (if (paged : bool) then make_room else mret true);
        if negb room then mret 0
        else
          mem ← on_phys kalloc;
          if mem =? 0 then deallocuvm pd newsz oldsz ;; mret 0
          else
            on_phys (kmemset mem 0 PGSIZE) ;;
            r ← on_phys (mappages pd a PGSIZE (V2P mem) (Z.lor PTE_W PTE_U));
            if r <? 0 then
              deallocuvm pd newsz oldsz ;;
              on_phys (kfree mem) ;;
              mret 0
            else
              paged ← paged_proc;
              when paged (on_paging (addPageToRam a)) ;;
              allocuvm_loop fuel' pd (u32 (a + PGSIZE)) oldsz newsz
      else mret newsz
  end.

Definition allocuvm (pd oldsz newsz : Z) : K F Z :=
  if KERNBASE <=? newsz then mret 0
  else if newsz <? oldsz then mret oldsz
  else allocuvm_loop (S (S (Z.to_nat ((newsz - oldsz) / PGSIZE)))) pd (PGROUNDUP oldsz) oldsz newsz.

(** ** Loading a program segment *)

Fixpoint loaduvm_loop (fuel : nat) (pd addr ip offset sz i : Z) : K F Z :=
  match fuel with
  | O => fail NoFuel
  | S fuel' =>
      if i <? sz then
        pte ← on_phys (walkpgdir pd (u32 (addr + i)) false);
        if pte =? 0 then panic "loaduvm: address should exist"
        else
          e ← on_phys (kload32 pte);
          let pa := PTE_ADDR e in
          let n := if sz - i <? PGSIZE then sz - i else PGSIZE in
          '(r, b) ← on_fs (fs_readi ip (u32 (offset + i)) n);
          on_phys (kstore_bytes (P2V pa) b) ;;
          if negb (r =? n) then mret (-1)
          else loaduvm_loop fuel' pd addr ip offset sz (u32 (i + PGSIZE))
      else mret 0
  end.

Definition loaduvm (pd addr ip offset sz : Z) : K F Z :=
  if negb (addr mod PGSIZE =? 0) then panic "loaduvm: addr must be page aligned"
  else loaduvm_loop (S (S (Z.to_nat (sz / PGSIZE)))) pd addr ip offset sz 0.

(** ** Copying *)

(** The page at [i] for [copyuvm]: [false] when [mappages] fails. *)
Definition share_page (d i pte : Z) : K F bool :=
  e ← on_phys (kload32 pte);
  let pa := PTE_ADDR e in
  (if has e PTE_W then
     on_phys (kstore32 pte (Z.land e (notu PTE_W))) ;;
     e ← on_phys (kload32 pte);
     on_phys (kstore32 pte (Z.lor e PTE_COW))
   else mret tt) ;;
  e ← on_phys (kload32 pte);
  r ← on_phys (mappages d i PGSIZE pa (PTE_FLAGS e));
  if r <? 0 then mret false
  else on_phys (incrementRef (P2V pa)) ;; mret true.

(** A page that is in the swap file: the child's entry gets the flags. *)
Definition enter_page (d i pte : Z) : K F bool :=
  pte2 ← on_phys (walkpgdir d i true);
  e ← on_phys (kload32 pte);
  on_phys (kstore32 pte2 (Z.land e 0xfff)) ;;
  mret true.

Definition copy_page (pd d i : Z) : K F bool :=
  pte ← on_phys (walkpgdir pd i false);
  if pte =? 0 then panic "copyuvm: pte should exist"
  else
    e ← on_phys (kload32 pte);
    if negb (has e PTE_P || has e PTE_PG) then
      panic "copyuvm COW: page not present in RAM or swap file"
    else if has e PTE_P then share_page d i pte
    else enter_page d i pte.

Fixpoint copy_loop (body : Z → K F bool) (fuel : nat) (d sz i : Z) : K F bool :=
  match fuel with
  | O => fail NoFuel
  | S fuel' =>
      if i <? sz then
        ok ← body i;
        if (ok : bool) then copy_loop body fuel' d sz (u32 (i + PGSIZE))
        else mret false
      else mret true
  end.

Definition copyuvm (pd sz : Z) : K F Z :=
  d ← setupkvm;
  if d =? 0 then mret 0
  else
    ok ← copy_loop (copy_page pd d) (S (S (Z.to_nat (sz / PGSIZE)))) d sz 0;
    if (ok : bool) then lcr3 (V2P pd) ;; mret d
    else freevm d ;; mret 0.

(** The page at [i] for [copyuvm_no_COW]. *)
Definition copy_page_no_COW (pd d i : Z) : K F bool :=
  pte ← on_phys (walkpgdir pd i false);
  if pte =? 0 then panic "copyuvm: pte should exist"
  else
    e ← on_phys (kload32 pte);
    if negb (has e PTE_P || has e PTE_PG) then
      panic "copyuvm: page not present in RAM or swap file"
    else if has e PTE_P then
      mem ← on_phys kalloc;
      if mem =? 0 then mret false
      else
        on_phys (kmemmove mem (P2V (PTE_ADDR e)) PGSIZE) ;;
        r ← on_phys (mappages d i PGSIZE (V2P mem) (PTE_FLAGS e));
        if r <? 0 then on_phys (kfree mem) ;; mret false
        else mret true
    else enter_page d i pte.

Definition copyuvm_no_COW (pd sz : Z) : K F Z :=
  d ← setupkvm;
  if d =? 0 then mret 0
  else
    ok ← copy_loop (copy_page_no_COW pd d) (S (S (Z.to_nat (sz / PGSIZE)))) d sz 0;
    if (ok : bool) then mret d
    else freevm d ;; mret 0.

End Uvm.
