(* ===== verification/UvmSpec.v ===== *)
(** * UvmSpec: what the routines of [vm.c] do to address spaces

    Freeing and shrinking an address space that is not the running process's,
    building one, and copying one for [fork]. *)

From S2P Require Import Prelude Mmu Phys Config Kalloc PageTable Vmspace UvmInv State Spinlock.
From S2P Require Import PageList Swap Uvm.

Section UvmSpec.
Context `{ConfigOk} {F : Type} `{FileSystem F}.

Notation owners := (Z → gset (Z * Z)).

(** ** Absent pages *)

Lemma unmapped_absent d PG s L O X pg (R : Z → Prop) :
  vm_inv d PG s L O X →
  (∀ v, user_vpn v → R v → has (pte_of (mem s) pg v) PTE_P = false) →
  unmapped d PG s L O X pg R s L O.
Proof.
  intros Hinv Hab. split; try done; [|by exists []].
  intros f pg' v. split; [|by intros [? _]]. intros Hin. split; [done|]. intros [-> HR].
  apply (vi_own _ _ _ _ _ _ Hinv) in Hin as (_ & Hv & HP & _). by rewrite Hab in HP.
Qed.

Lemma no_table_absent m pg v :
  user_vpn v → tab m pg (PDX (4096 * v)) = None → has (pte_of m pg v) PTE_P = false.
Proof. intros Hv Ht. unfold pte_of, lookup_pte. by rewrite Ht. Qed.

Lemma PDX_page v : user_vpn v → PDX (4096 * v) = v / 1024.
Proof. intros Hv. unfold user_vpn in Hv. rewrite PDX_eq by (unfold is_u32; lia). klia. Qed.

Lemma next_dir a :
  user_va_ok a → u32 (u32 (PGADDR (PDX a + 1) 0 0 - PGSIZE) + PGSIZE) = 4096 * (1024 * (vpn a / 1024 + 1)).
Proof.
  intros Ha. unfold user_va_ok in Ha. unfold vpn. rewrite PDX_eq by klia.
  rewrite PGADDR_eq by klia. rewrite u32_add_l. rewrite u32_small by klia. klia.
Qed.

Lemma PGROUNDUP_page a : 0 ≤ a ≤ KERNBASE → PGROUNDUP a = 4096 * ((a + 4095) / 4096).
Proof. intros Ha. rewrite PGROUNDUP_eq, u32_small by klia. dlia. Qed.

(** ** Shrinking an address space that is not the running one's *)

Section Foreign.
Context (d : Z) (PG : list Z) (X : Z → Z) (pd : Z).
Context (s : kernel F) (i : nat) (p : proc) (g : paging) (x : F) (c : Z).
Hypothesis Hruns : runs s i.
Hypothesis Hpd : pd ∈ PG.
Hypothesis Hown : paging_on = false ∨ pgdir p ≠ pd.

Lemma own_false ph : own_pgdir pd (frame s i p ph g x c) = Ok false (frame s i p ph g x c).
Proof.
  unfold own_pgdir. destruct paging_on; [|done]. destruct Hown as [?|Hne]; [done|].
  erewrite bind_ok by (by apply myproc_frame). cbn [pgdir set_paging_].
  by rewrite (proj2 (Z.eqb_neq _ _)).
Qed.

Lemma dealloc_page_foreign ph L O a t found :
  vm_inv d PG ph L O X → user_va_ok a → tab (mem ph) pd (PDX a) = Some t →
  (∀ f, (pd, vpn a) ∈ O f → X f = 0) →
  ∃ ph' L' O', dealloc_page pd a (t + 4 * PTX a) found (frame s i p ph g x c) =
      Ok found (frame s i p ph' g x c) ∧
    unmapped d PG ph L O X pd (λ v, v = vpn a) ph' L' O'.
Proof.
  intros Hinv Ha Ht HX. destruct (user_va_vpn a Ha) as [Hu Hv]. unfold dealloc_page.
  erewrite bind_ok by (apply on_phys_frame; by eapply kload_pte, Ht; [apply Hinv|]).
  rewrite lookup_pte_vpn by done. set (e := pte_of (mem ph) pd (vpn a)).
  destruct (has e PTE_P) eqn:HP.
  - assert (Hin : (pd, vpn a) ∈ O (frame_of e)) by (by apply (vi_own _ _ _ _ _ _ Hinv)).
    destruct (vi_page _ _ _ _ _ _ Hinv _ _ _ Hin) as (Hf & _).
    assert (Hpa : PTE_ADDR e ≠ 0).
    { rewrite <- (frame_of_V2P e) by (done || apply pte_of_u32). destruct Hf as (?&?&?).
      rewrite V2P_direct by klia. destruct H0 as [? ? ? ?]. klia. }
    rewrite (proj2 (Z.eqb_neq _ _) Hpa).
    destruct (unmap_page d PG ph L O X pd a t (frame_of e) Hinv Ha Ht Hin (HX _ Hin))
      as (ph1 & ph2 & L' & E1 & E2 & Hum & _).
    exists ph2, L', (put_owner O pd (vpn a) 0). split; [|done].
    erewrite bind_ok by (apply on_phys_frame; exact E1).
    erewrite bind_ok by (apply on_phys_frame; exact E2).
    by erewrite bind_ok by apply own_false.
  - exists ph, L, O. split.
    + destruct (paging_on && has e PTE_PG); [|done]. by erewrite bind_ok by apply own_false.
    + apply unmapped_absent; [done|]. by intros v _ ->.
Qed.

Lemma dealloc_foreign_loop fuel n v found ph L O oldsz :
  vm_inv d PG ph L O X → (∀ f w, (pd, w) ∈ O f → X f = 0) →
  0 ≤ v → 0 ≤ oldsz ≤ KERNBASE → oldsz - 4096 * v ≤ 4096 * Z.of_nat n → (n < fuel)%nat →
  ∃ ph' L' O', deallocuvm_loop fuel pd (4096 * v) oldsz found (frame s i p ph g x c) =
      Ok tt (frame s i p ph' g x c) ∧
    unmapped d PG ph L O X pd (λ w, v ≤ w ∧ 4096 * w < oldsz) ph' L' O'.
Proof.
  revert n v found ph L O. induction fuel as [|fuel IH]; intros n v found ph L O Hinv HX Hv Hold Hn Hf; [lia|].
  cbn [deallocuvm_loop]. destruct (Z.ltb_spec (4096 * v) oldsz) as [Hlt|Hge].
  2: { exists ph, L, O. split; [done|]. apply unmapped_absent; [done|]. intros w _ ?. lia. }
  destruct n as [|n]; [lia|].
  assert (Ha : user_va_ok (4096 * v)) by (unfold user_va_ok; klia).
  assert (Huv : user_vpn v) by (rewrite <- (vpn_mul v); by apply user_va_vpn).
  destruct (pw_dirs _ _ _ (vi_wf _ _ _ _ _ _ Hinv) pd Hpd) as [Hpv _].
  destruct (tab (mem ph) pd (PDX (4096 * v))) as [t|] eqn:Et.
  - erewrite bind_ok by (apply on_phys_frame; by apply walkpgdir_some).
    erewrite pte_nonzero by (try apply Hinv; done).
    destruct (dealloc_page_foreign ph L O (4096 * v) t found Hinv Ha Et) as (ph1 & L1 & O1 & E1 & Hum1).
    { intros f Hin. by eapply HX. }
    erewrite bind_ok by exact E1. rewrite u32_small by klia.
    replace (4096 * v + PGSIZE) with (4096 * (v + 1)) by (unfold PGSIZE; lia).
    destruct (IH n (v + 1) found ph1 L1 O1) as (ph2 & L2 & O2 & E2 & Hum2); [apply Hum1| |lia|done|lia|lia|].
    { intros f w Hin. apply (um_own _ _ _ _ _ _ _ _ _ _ _ Hum1) in Hin as [Hin _]. by eapply HX. }
    exists ph2, L2, O2. split; [done|]. eapply unmapped_ext; [done|by eapply unmapped_trans|].
    intros w Hw. cbn beta. rewrite vpn_mul. lia.
  - erewrite bind_ok by (apply on_phys_frame; by apply walkpgdir_none). cbn [Z.eqb].
    rewrite next_dir by done. rewrite vpn_mul.
    destruct (IH n (1024 * (v / 1024 + 1)) found ph L O) as (ph2 & L2 & O2 & E2 & Hum2);
      [done|done|dlia|done|dlia|lia|].
    exists ph2, L2, O2. split; [done|]. eapply unmapped_ext; [done|..].
    + eapply (unmapped_trans _ _ _ _ _ _ _ (λ w, v ≤ w < 1024 * (v / 1024 + 1) ∧ 4096 * w < oldsz)); [|exact Hum2].
      apply unmapped_absent; [done|]. intros w Hw Hr. apply no_table_absent; [done|].
      rewrite PDX_page in * by done. by replace (w / 1024) with (v / 1024) by dlia.
    + intros w Hw. cbn beta. split; [|dlia]. intros [[? ?]|[? ?]]; dlia.
Qed.

Lemma deallocuvm_foreign ph L O oldsz newsz :
  vm_inv d PG ph L O X → (∀ f w, (pd, w) ∈ O f → X f = 0) →
  0 ≤ newsz < oldsz → oldsz ≤ KERNBASE →
  ∃ ph' L' O', deallocuvm pd oldsz newsz (frame s i p ph g x c) = Ok newsz (frame s i p ph' g x c) ∧
    unmapped d PG ph L O X pd (λ w, newsz ≤ 4096 * w < oldsz) ph' L' O'.
Proof.
  intros Hinv HX Hsz Hold. unfold deallocuvm. rewrite (proj2 (Z.leb_gt oldsz newsz)) by lia.
  rewrite PGROUNDUP_page by lia. set (v := (newsz + 4095) / 4096).
  destruct (dealloc_foreign_loop (S (S (Z.to_nat (oldsz / PGSIZE)))) (S (Z.to_nat (oldsz / PGSIZE))) v None ph L O oldsz)
    as (ph' & L' & O' & E & Hum); [done|done|subst v; dlia|lia|subst v; klia|lia|].
  exists ph', L', O'. split.
  - by erewrite bind_ok by exact E.
  - eapply unmapped_ext; [done|exact Hum|]. intros w Hw. cbn beta. subst v. dlia.
Qed.
End Foreign.

(** ** Freeing an address space *)

Section Freevm.
Context (d : Z) (PG : list Z) (ph : phys) (L : list Z) (O : owners) (X : Z → Z) (pd : Z).
Context (s : kernel F) (i : nat) (p : proc) (g : paging) (x : F) (c : Z).
Hypothesis Hruns : runs s i.
Hypothesis Hown : paging_on = false ∨ pgdir p ≠ pd.
Hypothesis Hinv : vm_inv d (pd :: PG) ph L O X.
Hypothesis Hpd : pd ∉ PG.
Hypothesis HX : ∀ f w, (pd, w) ∈ O f → X f = 0.
Hypothesis Hflag : global_pgdir_flag s = 0 ∧ global_pgdir s = 0.

Lemma freevm_foreign :
  ∃ ph' L' O', freevm pd (frame s i p ph g x c) = Ok tt (frame s i p ph' g x c) ∧
    vm_inv d PG ph' L' O' X ∧ (∀ f pg v, (pg, v) ∈ O' f ↔ (pg, v) ∈ O f ∧ pg ≠ pd) ∧
    same_user PG (mem ph) (mem ph') ∧ (∃ A, L' = A ++ L) ∧
    (tight (pd :: PG) ph L O X → tight PG ph' L' O' X) ∧ use_lock ph' = use_lock ph ∧
    (∀ pg v, pg ∈ PG → user_vpn v → pte_of (mem ph') pg v = pte_of (mem ph) pg v).
Proof.
  set (s1 := set_global_pgdir pd (set_global_pgdir_flag 1 s)).
  assert (Hr1 : runs s1 i) by exact Hruns.
  destruct (deallocuvm_foreign d (pd :: PG) X pd s1 i p g x c Hr1 ltac:(by left) Hown ph L O KERNBASE 0 Hinv HX)
    as (ph1 & L1 & O1 & E1 & [Hinv1 Ow1 U1 T1 P1 [A1 EL1] Ti1 Lk1]); [klia|lia|].
  assert (HO1 : ∀ f pg v, (pg, v) ∈ O1 f ↔ (pg, v) ∈ O f ∧ pg ≠ pd).
  { intros f pg v. rewrite Ow1. split; intros [Hin Hn]; (split; [done|]).
    - intros ->. apply Hn. split; [done|]. apply (vi_own _ _ _ _ _ _ Hinv) in Hin as (_ & Hv & _).
      unfold user_vpn in Hv. klia.
    - tauto. }
  destruct (free_dir d PG ph1 L1 O1 X pd Hinv1 Hpd) as (ph2 & ph3 & A & E2 & E3 & Hinv3 & Hs3 & Hp3 & HA & Ht3 & Hlk3).
  { intros f v Hin. by apply HO1 in Hin as [_ ?]. }
  exists ph3, (A ++ L1), O1. split; [|split; [done|split; [done|split; [|split; [|split; [auto|split]]]]]].
  - unfold freevm. rewrite (proj2 (Z.eqb_neq pd 0)).
    2: { destruct (pw_dirs _ _ _ (vi_wf _ _ _ _ _ _ Hinv) pd ltac:(by left)) as [(?&?&?) _]. klia. }
    erewrite bind_ok by done. erewrite bind_ok by done. erewrite bind_ok by exact E1.
    erewrite bind_ok by (apply on_phys_frame; exact E2). erewrite bind_ok by done. erewrite bind_ok by done.
    transitivity (on_phys (kfree pd) (frame s i p ph2 g x c)); [|by apply on_phys_frame].
    f_equal. unfold frame, s1. cbn. by destruct Hflag as [-> ->].
  - intros pg va Hpg Hva. rewrite Hs3 by done. apply U1; [by right|done|]. intros [-> _]. done.
  - exists (A ++ A1). by rewrite EL1, app_assoc.
  - congruence.
  - intros pg v Hpg Hv. rewrite Hp3 by done. apply P1; [by right|done|]. by intros [-> _].
Qed.

(** C25. Freeing an address space that is not the running process's succeeds:
    the directory is gone and nothing maps through it, every other address
    space keeps its entries and its contents, the frames that only it used are
    back on the free list ([tight]: no page is lost), and the accounting holds
    for the directories that are left. *)
Theorem freevm_gives_back :
  ∃ ph' L' O', freevm pd (frame s i p ph g x c) = Ok tt (frame s i p ph' g x c) ∧
    vm_inv d PG ph' L' O' X ∧ (∀ f pg v, (pg, v) ∈ O' f ↔ (pg, v) ∈ O f ∧ pg ≠ pd) ∧
    same_user PG (mem ph) (mem ph') ∧ (∃ A, L' = A ++ L) ∧
    (tight (pd :: PG) ph L O X → tight PG ph' L' O' X).
Proof. destruct freevm_foreign as (ph' & L' & O' & E & Hi & HO & Hs & HA & Ht & _). by exists ph', L', O'. Qed.
End Freevm.

(** ** Building an address space *)

(** The entry that the ranges [ks] of [kmap] give the page of [va]. *)
Definition kmap_in (k : Z * Z * Z * Z) (va : Z) : Prop :=
  let '(virt, ps, pe, _) := k in vpn virt ≤ vpn va < vpn virt + u32 (pe - ps) / PGSIZE.
#[global] Instance kmap_in_dec k va : Decision (kmap_in k va).
Proof. destruct k as [[[? ?] ?] ?]. unfold kmap_in. apply _. Defined.

Definition kmap_entry (k : Z * Z * Z * Z) (va : Z) : Z :=
  let '(virt, ps, _, perm) := k in Z.lor (Z.lor (ps + 4096 * (vpn va - vpn virt)) perm) PTE_P.

Definition kpte (ks : list (Z * Z * Z * Z)) (va : Z) : Z :=
  foldl (λ e k, if decide (kmap_in k va) then kmap_entry k va else e) 0 ks.

Lemma kpte_snoc ks k va :
  kpte (ks ++ [k]) va = if decide (kmap_in k va) then kmap_entry k va else kpte ks va.
Proof. unfold kpte. by rewrite foldl_app. Qed.

(** What a range of [kmap] satisfies: it lies in the kernel half, and is made
    of whole pages. *)
Definition krange (k : Z * Z * Z * Z) : Prop :=
  let '(virt, ps, pe, perm) := k in
  virt mod 4096 = 0 ∧ KERNBASE ≤ virt ∧ 0 < u32 (pe - ps) ∧ u32 (pe - ps) mod 4096 = 0 ∧
  virt + u32 (pe - ps) ≤ 4294967296 ∧ 0 ≤ ps ∧ ps + u32 (pe - ps) ≤ 4294967296 ∧ 0 ≤ perm < 4096.

Lemma kmap_ranges :
  Forall krange kmap ∧
  ∀ ks k ks', kmap = ks ++ k :: ks' → ∀ va, kmap_in k va → kpte ks va = 0.
Proof.
  assert (Hd : V2P kdata = kdata - KERNBASE ∧ KERNLINK < kdata < KERNBASE + 4194304 ∧ kdata mod 4096 = 0).
  { destruct H0 as [Ha Hl He Hh]. rewrite V2P_direct by klia. klia. }
  destruct Hd as (Ed & Hd & Hal). unfold kmap. rewrite Ed.
  change (V2P KERNLINK) with 0x100000. assert (Hx : KERNLINK = 0x80100000) by done. rewrite Hx in *. clear Hx H0.
  assert (E1 : u32 (EXTMEM - 0) = 0x100000) by done.
  assert (E2 : u32 (kdata - KERNBASE - 0x100000) = kdata - 0x80100000) by (rewrite u32_small; klia).
  assert (E3 : u32 (PHYSTOP - (kdata - KERNBASE)) = 0x8E000000 - kdata) by (rewrite u32_small; klia).
  assert (E4 : u32 (0 - DEVSPACE) = 0x2000000) by done.
  split.
  - repeat constructor; rewrite ?E1, ?E2, ?E3, ?E4; consts; cbn; try done; try lia; dlia.
  - intros ks k ks' E va.
    destruct ks as [|k1 [|k2 [|k3 [|k4 [|k5 ks]]]]]; simplify_eq/=; [done| | |]; unfold kpte; cbn [foldl];
      unfold kmap_in; rewrite ?E1, ?E2, ?E3, ?E4; unfold PGSIZE, KERNBASE, DEVSPACE; intros Hin;
      rewrite ?decide_False; try done; unfold vpn, KERNBASE, PHYSTOP in *; rewrite ?E2, ?E3; dlia.
Qed.

(** User memory and its accounting are as before; page tables may have been
    added. *)
Record kept (d : Z) (PG : list Z) (O : owners) (X : Z → Z) (ph : phys) (L : list Z)
    (ph' : phys) (L' : list Z) : Prop := {
  kp_inv : vm_inv d PG ph' L' O X;
  kp_user : same_user PG (mem ph) (mem ph');
  kp_pte : ∀ pg v, pg ∈ PG → user_vpn v → pte_of (mem ph') pg v = pte_of (mem ph) pg v;
  kp_free : ∃ A, L = A ++ L';
  kp_tight : tight PG ph L O X → tight PG ph' L' O X;
  kp_lock : use_lock ph' = use_lock ph
}.

Lemma kept_refl d PG O X ph L : vm_inv d PG ph L O X → kept d PG O X ph L ph L.
Proof. intros. split; try done. by exists []. Qed.

Lemma kept_trans d PG O X ph L ph1 L1 ph2 L2 :
  kept d PG O X ph L ph1 L1 → kept d PG O X ph1 L1 ph2 L2 → kept d PG O X ph L ph2 L2.
Proof.
  intros [I1 U1 P1 [A1 ->] T1 K1] [I2 U2 P2 [A2 ->] T2 K2]. split; [done|..].
  - by eapply same_user_trans.
  - intros pg v Hpg Hv. by rewrite P2, P1.
  - exists (A1 ++ A2). by rewrite app_assoc.
  - auto.
  - congruence.
Qed.

Lemma kept_post d PG O X ph L ph' L' f :
  vm_inv d PG ph L O X → vm_post d PG ph L ph' L' f →
  (∀ pg v, pg ∈ PG → user_vpn v → f pg (4096 * v) = pte_of (mem ph) pg v) →
  kept d PG O X ph L ph' L'.
Proof.
  intros Hinv Hpost Hf. split.
  - by eapply vm_inv_same.
  - intros pg va Hpg Hva. destruct (user_va_vpn va Hva) as [_ Hv].
    eapply user_byte_post; [done|done|done|done|]. by rewrite Hf.
  - intros pg v Hpg Hv. destruct (user_va v Hv) as [Hu _]. unfold pte_of at 1.
    rewrite (vp_lookup _ _ _ _ _ _ _ Hpost) by done. by apply Hf.
  - apply Hpost.
  - intros Hti g Hg HgL Hgp HO. rewrite (vp_pt _ _ _ _ _ _ _ Hpost) in Hgp.
    apply Hti; [done| |tauto|done]. intros ?. tauto.
  - apply Hpost.
Qed.

Section Setup.
Context (d : Z) (PG : list Z) (O : owners) (X : Z → Z) (pd : Z).

Lemma kmap_step ph L ks virt ps pe perm :
  vm_inv d (pd :: PG) ph L O X → krange (virt, ps, pe, perm) →
  (∀ va, is_u32 va → lookup_pte (mem ph) pd va = kpte ks va) →
  (∀ va, kmap_in (virt, ps, pe, perm) va → kpte ks va = 0) →
  ∃ r ph' L', mappages pd virt (u32 (pe - ps)) ps perm ph = Ok r ph' ∧
    kept d (pd :: PG) O X ph L ph' L' ∧
    ((r = 0 ∧ ∀ va, is_u32 va → lookup_pte (mem ph') pd va = kpte (ks ++ [(virt, ps, pe, perm)]) va) ∨
     r = -1).
Proof.
  intros Hinv (Hal & Hk & Hsz & Hsal & Hend & Hps & Hpend & Hperm) Hlk Hfree.
  set (size := u32 (pe - ps)) in *.
  assert (En : vpn (virt + size - 1) - vpn virt = size / 4096 - 1) by (unfold vpn; dlia).
  destruct (mappages_ok d (pd :: PG) pd virt size ps perm ph L) as (r & ph' & L' & k & E & Hpost & Hr).
  { apply Hinv. } { apply Hinv. } { by left. } { done. } { klia. } { done. } { done. } { done. }
  { rewrite En. dlia. }
  { intros va Hva Hin. rewrite Hlk by done. rewrite Hfree; [done|]. unfold kmap_in. fold size. unfold PGSIZE. lia. }
  exists r, ph', L'. split; [done|]. split.
  - eapply kept_post; [done|exact Hpost|]. intros pg v Hpg Hv. unfold map_entry.
    rewrite decide_False; [done|]. intros [_ Hin]. rewrite vpn_mul in Hin. unfold user_vpn in Hv.
    assert (524288 ≤ vpn virt) by (unfold vpn; klia). lia.
  - destruct Hr as [[-> ->]|(-> & _)]; [left|by right]. split; [done|]. intros va Hva.
    rewrite (vp_lookup _ _ _ _ _ _ _ Hpost) by (done || by left). unfold map_entry. rewrite kpte_snoc.
    rewrite Hlk by done. unfold kmap_in, kmap_entry. fold size.
    destruct (decide (vpn virt ≤ vpn va < vpn virt + size / PGSIZE)) as [Hin|Hn].
    + rewrite decide_True; [done|]. split; [done|]. unfold PGSIZE in Hin. lia.
    + rewrite decide_False; [done|]. intros [_ Hin]. apply Hn. unfold PGSIZE. lia.
Qed.

Context (s : kernel F) (i : nat) (p : proc) (g : paging) (x : F) (c : Z).
Hypothesis Hruns : runs s i.
Hypothesis Hown : paging_on = false ∨ pgdir p ≠ pd.
Hypothesis Hflag : global_pgdir_flag s = 0 ∧ global_pgdir s = 0.
Hypothesis Hpd : pd ∉ PG.
Hypothesis Hno : ∀ f v, (pd, v) ∉ O f.

(** After a failure the new directory has been given back. *)
Lemma setup_loop_spec ks ks' ph L :
  kmap = ks ++ ks' → vm_inv d (pd :: PG) ph L O X →
  (∀ va, is_u32 va → lookup_pte (mem ph) pd va = kpte ks va) →
  (∃ ph' L', setupkvm_loop ks' pd (frame s i p ph g x c) = Ok pd (frame s i p ph' g x c) ∧
     kept d (pd :: PG) O X ph L ph' L' ∧
     ∀ va, is_u32 va → lookup_pte (mem ph') pd va = kpte kmap va) ∨
  (∃ ph' L', setupkvm_loop ks' pd (frame s i p ph g x c) = Ok 0 (frame s i p ph' g x c) ∧
     vm_inv d PG ph' L' O X ∧ same_user PG (mem ph) (mem ph') ∧
     (∀ pg v, pg ∈ PG → user_vpn v → pte_of (mem ph') pg v = pte_of (mem ph) pg v) ∧
     (tight (pd :: PG) ph L O X → tight PG ph' L' O X) ∧ use_lock ph' = use_lock ph).
Proof.
  revert ks ph L. induction ks' as [|[[[virt ps] pe] perm] ks' IH]; intros ks ph L Eks Hinv Hlk.
  { left. exists ph, L. split; [done|]. split; [by apply kept_refl|]. by rewrite app_nil_r in Eks; subst. }
  destruct kmap_ranges as [Hrng Hdis].
  assert (Hkr : krange (virt, ps, pe, perm)).
  { rewrite Eks in Hrng. by apply Forall_app in Hrng as [_ [? _]%Forall_cons]. }
  destruct (kmap_step ph L ks virt ps pe perm Hinv Hkr Hlk (Hdis _ _ _ Eks)) as (r & ph1 & L1 & E1 & Hk1 & Hr).
  cbn [setupkvm_loop]. erewrite bind_ok by (apply on_phys_frame; exact E1).
  destruct Hr as [[-> Hlk1]| ->]; cbn [Z.ltb].
  - change (0 <? 0) with false. cbv iota.
    destruct (IH (ks ++ [(virt, ps, pe, perm)]) ph1 L1) as [(ph' & L' & E & Hk & Hl)|(ph' & L' & E & Hi & Hs & Hp & Ht & Hu)];
      [by rewrite <- app_assoc|apply Hk1|done|left|right].
    + exists ph', L'. split; [done|]. split; [by eapply kept_trans|done].
    + exists ph', L'. split; [done|]. split; [done|]. split; [|split; [|split]].
      * intros pg va Hpg Hva. rewrite Hs by done. apply Hk1; [by right|done].
      * intros pg v Hpg Hv. rewrite Hp by done. apply Hk1; [by right|done].
      * intros. apply Ht. by apply Hk1.
      * rewrite Hu. apply Hk1.
  - right. change (-1 <? 0) with true. cbv iota.
    destruct (freevm_foreign d PG ph1 L1 O X pd s i p g x c Hruns Hown (kp_inv _ _ _ _ _ _ _ _ Hk1) Hpd)
      as (ph2 & L2 & O2 & E2 & Hinv2 & HO2 & Hs2 & _ & Ht2 & Hu2 & Hp2); [|done|].
    { intros f w Hin. by apply Hno in Hin. }
    assert (HOe : ∀ f, O2 f = O f).
    { intros f. apply set_eq. intros [pg v]. rewrite HO2. split; [by intros [? _]|].
      intros Hin. split; [done|]. intros ->. by apply Hno in Hin. }
    exists ph2, L2. split; [by erewrite bind_ok by exact E2|]. split; [by eapply vm_inv_ext|].
    split; [|split; [|split]].
    + intros pg va Hpg Hva. rewrite Hs2 by done. apply Hk1; [by right|done].
    + intros pg v Hpg Hv. rewrite Hp2 by done. apply Hk1; [by right|done].
    + intros Ht f Hf HfL Hfp HOf. apply (Ht2 (kp_tight _ _ _ _ _ _ _ _ Hk1 Ht)); [done|done|done|by rewrite HOe].
    + rewrite Hu2. apply Hk1.
Qed.
End Setup.

(** The outcome of building a directory: it is new, holds the kernel's
    mappings and no user page; all address spaces are as they were. *)
Record new_space (d : Z) (PG : list Z) (O : owners) (X : Z → Z) (ph : phys) (L : list Z)
    (pd : Z) (ph' : phys) (L' : list Z) : Prop := {
  ns_fresh : pd ∈ L ∧ pd ∉ PG ∧ pd ≠ 0;
  ns_inv : vm_inv d (pd :: PG) ph' L' O X;
  ns_none : ∀ f v, (pd, v) ∉ O f;
  ns_kernel : ∀ va, is_u32 va → lookup_pte (mem ph') pd va = kpte kmap va;
  ns_user : same_user PG (mem ph) (mem ph');
  ns_pte : ∀ pg v, pg ∈ PG → user_vpn v → pte_of (mem ph') pg v = pte_of (mem ph) pg v;
  ns_tight : tight PG ph L O X → tight (pd :: PG) ph' L' O X;
  ns_lock : use_lock ph' = use_lock ph
}.

(** Nothing was built, and nothing is lost. *)
Record no_space (d : Z) (PG : list Z) (O : owners) (X : Z → Z) (ph : phys) (L : list Z)
    (ph' : phys) (L' : list Z) : Prop := {
  nos_inv : vm_inv d PG ph' L' O X;
  nos_user : same_user PG (mem ph) (mem ph');
  nos_pte : ∀ pg v, pg ∈ PG → user_vpn v → pte_of (mem ph') pg v = pte_of (mem ph) pg v;
  nos_tight : tight PG ph L O X → tight PG ph' L' O X;
  nos_lock : use_lock ph' = use_lock ph
}.

Section Setupkvm.
Context (d : Z) (PG : list Z) (O : owners) (X : Z → Z) (ph : phys).
Context (s : kernel F) (i : nat) (p : proc) (g : paging) (x : F) (c : Z).
Hypothesis Hruns : runs s i.
Hypothesis Hflag : global_pgdir_flag s = 0 ∧ global_pgdir s = 0.

Lemma setupkvm_ok L :
  vm_inv d PG ph L O X → paging_on = false ∨ pgdir p ∈ PG →
  (∃ pd ph' L', setupkvm (frame s i p ph g x c) = Ok pd (frame s i p ph' g x c) ∧
     new_space d PG O X ph L pd ph' L') ∨
  (∃ ph' L', setupkvm (frame s i p ph g x c) = Ok 0 (frame s i p ph' g x c) ∧
     no_space d PG O X ph L ph' L').
Proof.
  intros Hinv Hown. destruct L as [|n L].
  { right. exists ph, []. split; [|by split].
    assert (Ek : kalloc ph = Ok 0 ph).
    { apply kalloc_empty; [apply (ki_unlocked _ _ _ (vi_kmem _ _ _ _ _ _ Hinv))|
        apply (ki_list _ _ _ (vi_kmem _ _ _ _ _ _ Hinv))]. }
    unfold setupkvm. by erewrite bind_ok by (apply on_phys_frame; exact Ek). }
  destruct (vm_inv_kalloc d PG ph n L O X Hinv) as (Ek & Hinv1 & HOn & Hnv & HnL & Hnp).
  assert (HXn : X n = 0) by (apply (vi_zero _ _ _ _ _ _ Hinv); left; by left).
  assert (HnPG : n ∉ PG) by (intros ?; apply Hnp; by left).
  set (m1 := fill (mem ph) (V2P n) PGSIZE 0).
  assert (Hag : ∀ w, valid_page w → w ≠ n → agree_page (mem ph) m1 w) by (intros; by apply agree_page_fill).
  destruct (vm_inv_new_dir d PG (kalloc_post n ph) L O (fupd X n 1) n m1 Hinv1 Hnv HnL Hnp HOn) as [Hinv2 Hpte2].
  { unfold fupd. by rewrite decide_True. } { exact Hag. }
  { intros j Hj. unfold m1. apply ld32_fill_0; unfold PGSIZE; lia. }
  set (ph2 := set_mem m1 (kalloc_post n ph)) in *.
  assert (Hinv3 : vm_inv d (n :: PG) ph2 L O X).
  { eapply vm_inv_ext; [exact Hinv2|done|]. intros f. unfold fupd. case_decide; [congruence|done]. }
  assert (Hno : ∀ f v, (n, v) ∉ O f).
  { intros f v (Hx & _)%(vi_own _ _ _ _ _ _ Hinv). done. }
  assert (Hagpt : ∀ w, pt_page (mem ph) PG w → agree_page (mem ph) m1 w).
  { intros w Hw. apply Hag; [by apply (pt_page_valid _ _ _ _ (vi_wf _ _ _ _ _ _ Hinv) Hw)|by intros ->]. }
  assert (Hpt2 : ∀ pg v, pg ∈ PG → pte_of (mem ph2) pg v = pte_of (mem ph) pg v)
    by (intros pg v Hpg; by apply (lookup_pte_frame _ _ PG)).
  assert (Hus2 : same_user PG (mem ph) (mem ph2)).
  { intros pg va Hpg Hva. eapply user_byte_same; [exact Hinv|done|done|by rewrite Hpt2|].
    intros f Hin. destruct (vi_page _ _ _ _ _ _ Hinv _ _ _ Hin) as (? & HfL & _). apply Hag; [done|].
    intros ->. apply HfL. by left. }
  assert (Hti2 : tight PG ph (n :: L) O X → tight (n :: PG) ph2 L O X).
  { intros Hti f Hf HfL Hfp HOf.
    change (mem ph2) with m1 in Hfp. rewrite (new_dir_pt (mem ph) m1 PG n) in Hfp
      by (intros; (apply Hagpt; by left) || (unfold m1; apply ld32_fill_0; unfold PGSIZE; lia)).
    apply Hti; [done| |tauto|done]. intros [->|?]%elem_of_cons; tauto. }
  assert (Hown' : paging_on = false ∨ pgdir p ≠ n) by (destruct Hown as [?|?]; [by left|right; congruence]).
  assert (Hlk0 : ∀ va, is_u32 va → lookup_pte (mem ph2) n va = kpte [] va).
  { intros va Hva. rewrite lookup_pte_vpn by done. apply Hpte2. }
  assert (Eset : setupkvm (frame s i p ph g x c) = setupkvm_loop kmap n (frame s i p ph2 g x c)).
  { unfold setupkvm. erewrite bind_ok by (apply on_phys_frame; exact Ek).
    rewrite (proj2 (Z.eqb_neq n 0)) by (destruct Hnv as (?&?&?); klia).
    erewrite bind_ok; [done|]. apply on_phys_frame. apply kmemset_eq. apply valid_page_kaddr; [done|klia]. }
  rewrite Eset.
  destruct (setup_loop_spec d PG O X n s i p g x c Hruns Hown' Hflag HnPG Hno [] kmap ph2 L eq_refl Hinv3 Hlk0)
    as [(ph' & L' & E & [Hi Hu Hp _ Ht Hl] & Hk)|(ph' & L' & E & Hi & Hs & Hp & Ht & Hl)]; [left|right].
  - exists n, ph', L'. split; [done|]. split; try done.
    + split; [by left|]. split; [done|]. destruct Hnv as (?&?&?). klia.
    + intros pg va Hpg Hva. rewrite Hu by (done || by right). by apply Hus2.
    + intros pg v Hpg Hv. rewrite Hp by (done || by right). by apply Hpt2.
    + auto.
  - exists ph', L'. split; [done|]. split; try done.
    + by eapply same_user_trans.
    + intros pg v Hpg Hv. rewrite Hp by done. by apply Hpt2.
    + auto.
Qed.

End Setupkvm.
End UvmSpec.
