(* ===== verification/GrowSpec.v ===== *)
(** * GrowSpec: growing an address space

    [allocuvm] for a process that is not subject to paging: without a
    replacement policy, or [init] and the shell.  The new pages are fresh, empty
    and writable; when memory runs out, everything is given back. *)

From S2P Require Import Prelude Mmu Phys Config Kalloc PageTable Vmspace UvmInv State Spinlock.
From S2P Require Import PageList Swap Uvm UvmSpec.

Section GrowSpec.
Context `{ConfigOk} {F : Type} `{FileSystem F}.

Notation owners := (Z → gset (Z * Z)).

(** The pages [v] of [pd] with [R v] have been added. *)
Record grown (d : Z) (PG : list Z) (ph : phys) (L : list Z) (O : owners) (X : Z → Z)
    (pd : Z) (R : Z → Prop) (ph' : phys) (L' : list Z) (O' : owners) : Prop := {
  gr_inv : vm_inv d PG ph' L' O' X;
  gr_own : ∀ f pg v, ¬ (pg = pd ∧ R v) → (pg, v) ∈ O' f ↔ (pg, v) ∈ O f;
  gr_new : ∀ v, user_vpn v → R v → has (pte_of (mem ph') pd v) PTE_P = true ∧
    has (pte_of (mem ph') pd v) PTE_W = true ∧ has (pte_of (mem ph') pd v) PTE_U = true;
  gr_zero : ∀ va, user_va_ok va → R (vpn va) → user_byte (mem ph') pd va = Some 0;
  gr_user : ∀ pg va, pg ∈ PG → user_va_ok va → ¬ (pg = pd ∧ R (vpn va)) →
    user_byte (mem ph') pg va = user_byte (mem ph) pg va;
  gr_pte : ∀ pg v, pg ∈ PG → user_vpn v → ¬ (pg = pd ∧ R v) → pte_of (mem ph') pg v = pte_of (mem ph) pg v;
  gr_kern : ∀ pg va, pg ∈ PG → is_u32 va → KERNBASE ≤ va → lookup_pte (mem ph') pg va = lookup_pte (mem ph) pg va;
  gr_free : ∃ A, L = A ++ L';
  gr_tight : tight PG ph L O X → tight PG ph' L' O' X;
  gr_held : (∀ f w, (pd, w) ∈ O f → X f = 0) → ∀ f w, (pd, w) ∈ O' f → X f = 0;
  gr_lock : use_lock ph' = use_lock ph
}.

Lemma grown_refl d PG ph L O X pd : vm_inv d PG ph L O X → grown d PG ph L O X pd (λ _, False) ph L O.
Proof. intros. split; try done. by exists []. Qed.

Lemma grown_trans d PG ph L O X pd R1 R2 ph1 L1 O1 ph2 L2 O2 :
  pd ∈ PG → grown d PG ph L O X pd R1 ph1 L1 O1 → grown d PG ph1 L1 O1 X pd R2 ph2 L2 O2 → (∀ v, R1 v → ¬ R2 v) →
  grown d PG ph L O X pd (λ v, R1 v ∨ R2 v) ph2 L2 O2.
Proof.
  intros Hpd [I1 Ow1 N1 Z1 U1 P1 Kn1 [A1 ->] T1 D1 K1] [I2 Ow2 N2 Z2 U2 P2 Kn2 [A2 ->] T2 D2 K2] Hdis. split; [done|..].
  - intros f pg v Hn. rewrite Ow2 by tauto. apply Ow1. tauto.
  - intros v Hv [HR|HR]; [|by apply N2]. rewrite P2; [by apply N1|done|done|]. intros [_ ?]. by apply (Hdis v).
  - intros va Hva [HR|HR]; [|by apply Z2]. rewrite U2; [by apply Z1|done|done|]. intros [_ ?]. by apply (Hdis (vpn va)).
  - intros pg va Hpg Hva Hn. rewrite U2, U1; tauto.
  - intros pg v Hpg Hv Hn. rewrite P2, P1; tauto.
  - intros pg va Hpg Hva Hk. by rewrite Kn2, Kn1.
  - exists (A1 ++ A2). by rewrite app_assoc.
  - auto.
  - intros HX0. by apply D2, D1.
  - congruence.
Qed.

Lemma grown_ext d PG ph L O X pd (R R' : Z → Prop) ph' L' O' :
  vm_inv d PG ph L O X → (∀ v, user_vpn v → R v ↔ R' v) → grown d PG ph L O X pd R ph' L' O' → grown d PG ph L O X pd R' ph' L' O'.
Proof.
  intros I0 HR [I Ow N Zr U P Kn Fr T Hd K].
  assert (Hva : ∀ va, user_va_ok va → R (vpn va) ↔ R' (vpn va)) by (intros va Hv; apply HR; by apply user_va_vpn).
  split; try done.
  - intros f pg v Hn. destruct (decide (user_vpn v)) as [Hv|Hv]; [apply Ow; rewrite HR; done|].
    rewrite (vi_own _ _ _ _ _ _ I), (vi_own _ _ _ _ _ _ I0). tauto.
  - intros v Hv. rewrite <- HR by done. by apply N.
  - intros va Hv. rewrite <- Hva by done. by apply Zr.
  - intros pg va Hpg Hv Hn. apply U; [done|done|]. by rewrite Hva.
  - intros pg v Hpg Hv Hn. apply P; [done|done|]. by rewrite HR.
Qed.

(** ** One page *)

Definition new_perm : Z := Z.lor PTE_W PTE_U.

Section Page.
Context (d : Z) (PG : list Z) (ph : phys) (n : Z) (L : list Z) (O : owners) (X : Z → Z) (pd v : Z).
Hypothesis Hinv : vm_inv d PG ph (n :: L) O X.
Hypothesis Hpd : pd ∈ PG.
Hypothesis Hv : user_vpn v.
Hypothesis Habs : has (pte_of (mem ph) pd v) PTE_P = false.

Let m1 := fill (mem ph) (V2P n) PGSIZE 0.
Let ph1 := set_mem m1 (kalloc_post n ph).
Let e := Z.lor (Z.lor (V2P n) new_perm) PTE_P.

(** The page as [kalloc] and [memset] leave it. *)
Lemma page_ready :
  kalloc ph = Ok n (kalloc_post n ph) ∧ kmemset n 0 PGSIZE (kalloc_post n ph) = Ok tt ph1 ∧ n ≠ 0 ∧
  valid_page n ∧ n ∉ L ∧ ¬ pt_page m1 PG n ∧ O n = ∅ ∧ X n = 0 ∧ vm_inv d PG ph1 L O (fupd X n 1) ∧
  (∀ pg w, pg ∈ PG → pte_of m1 pg w = pte_of (mem ph) pg w) ∧ same_user PG (mem ph) m1 ∧
  (∀ f, pt_page m1 PG f ↔ pt_page (mem ph) PG f).
Proof.
  destruct (vm_inv_kalloc d PG ph n L O X Hinv) as (Ek & Hinv1 & HOn & Hnv & HnL & Hnp).
  assert (Hag : ∀ w, valid_page w → w ≠ n → agree_page (mem ph) m1 w) by (intros; by apply agree_page_fill).
  assert (Hagpt : ∀ w, pt_page (mem ph) PG w → agree_page (mem ph) m1 w).
  { intros w Hw. apply Hag; [by apply (pt_page_valid _ _ _ _ (vi_wf _ _ _ _ _ _ Hinv) Hw)|by intros ->]. }
  assert (Hptw : ∀ f, pt_page m1 PG f ↔ pt_page (mem ph) PG f) by (apply pt_page_frame; intros pg Hpg; apply Hagpt; by left).
  assert (Hpte : ∀ pg w, pg ∈ PG → pte_of m1 pg w = pte_of (mem ph) pg w) by (intros pg w Hpg; by apply (lookup_pte_frame _ _ PG)).
  split_and!; try done.
  - apply kmemset_eq. apply valid_page_kaddr; [done|klia].
  - destruct Hnv as (?&?&?). klia.
  - by rewrite Hptw.
  - apply (vi_zero _ _ _ _ _ _ Hinv). left. by left.
  - apply (vm_inv_data d PG (kalloc_post n ph) L O (fupd X n 1) n m1); done.
  - intros pg va Hpg Hva. eapply user_byte_same; [exact Hinv|done|done|by rewrite Hpte|].
    intros f Hin. destruct (vi_page _ _ _ _ _ _ Hinv _ _ _ Hin) as (? & HfL & _). apply Hag; [done|].
    intros ->. apply HfL. by left.
Qed.

Lemma new_entry : is_u32 e ∧ has e PTE_P = true ∧ has e PTE_W = true ∧ has e PTE_U = true ∧ frame_of e = n.
Proof.
  destruct page_ready as (_ & _ & _ & Hnv & _). unfold e, new_perm.
  destruct (mk_pte n (Z.lor (Z.lor PTE_W PTE_U) PTE_P) Hnv ltac:(done)) as (Hu & Hf & _).
  rewrite <- Z.lor_assoc. split_and!; try done; by flags.
Qed.

(** The page in its place. *)
Lemma page_grown ph2 L2 :
  vm_post d PG ph1 L ph2 L2 (put_entry pd v e (lookup_pte m1)) →
  grown d PG ph (n :: L) O X pd (λ w, w = v) ph2 L2 (put_owner O pd v e).
Proof.
  intros Hpost. destruct page_ready as (_ & _ & _ & Hnv & HnL & Hnp & HO & HXn & Hi1 & Hpte & Hus & Hptw).
  destruct new_entry as (Hu & HP & HW & HU & Hf).
  assert (Hnone : ∀ h, (pd, v) ∉ O h) by (intros h (_ & _ & HP' & _)%(vi_own _ _ _ _ _ _ Hinv); congruence).
  assert (Hp2 : ∀ pg w, pg ∈ PG → user_vpn w → pte_of (mem ph2) pg w = if decide (pg = pd ∧ w = v) then e else pte_of (mem ph) pg w).
  { intros pg w Hpg Hw. destruct (user_va w Hw) as [Hua Ew]. unfold pte_of at 1. rewrite (vp_lookup _ _ _ _ _ _ _ Hpost) by done.
    unfold put_entry. rewrite Ew. case_decide; [done|]. by apply Hpte. }
  assert (Hi2 : vm_inv d PG ph2 L2 (put_owner O pd v e) X).
  { eapply vm_inv_ext; [eapply (vm_inv_put d PG ph1 L O (fupd X n 1)); [exact Hi1|exact Hpd|exact Hv|exact Hpost|]|done|].
    - split; rewrite Hf, ?HO; [done|intros; set_solver|intros; set_solver].
    - intros h. unfold put_extra, fupd. case_decide as Hh.
      + subst h. pose proof (put_owner_new O pd v e HP ltac:(by rewrite Hf, HO)) as Hnw. rewrite Hf in Hnw. lia.
      + rewrite put_owner_ne; [lia|done|by rewrite Hf]. }
  split; try done.
  - intros f pg w Hn. rewrite elem_put_owner, decide_False; [done|]. intros [= -> ->]. tauto.
  - intros w _ ->. rewrite Hp2 by done. by rewrite decide_True.
  - intros va Hva Ev. destruct (user_va_vpn va Hva) as [Hua _].
    assert (Hin : (pd, v) ∈ put_owner O pd v e n) by (apply elem_put_owner; by rewrite decide_True).
    pose proof (user_byte_page d PG ph2 L2 _ X pd v n (Z.to_nat (va - 4096 * v)) Hi2 Hin) as Hb.
    rewrite Z2Nat.id in Hb by (unfold vpn in Ev; dlia). replace (4096 * v + (va - 4096 * v)) with va in Hb by lia.
    rewrite Hb by (unfold vpn in Ev; dlia). f_equal.
    rewrite (vp_frame _ _ _ _ _ _ _ Hpost n Hnv HnL Hnp) by (unfold PGSIZE, vpn in *; dlia).
    change (mem ph1) with m1. unfold m1. rewrite ld8_fill_in by (unfold PGSIZE, vpn in *; dlia). done.
  - intros pg va Hpg Hva Hn. destruct (user_va_vpn va Hva) as [Hua Hw]. destruct (user_va _ Hw) as [_ Ew]. rewrite <- Hus by done.
    eapply (user_byte_post d PG ph1); [exact Hi1|exact Hpost|done|done|]. unfold put_entry. rewrite Ew. by rewrite decide_False.
  - intros pg w Hpg Hw Hn. rewrite Hp2 by done. by rewrite decide_False.
  - intros pg va Hpg Hva Hk. rewrite (vp_lookup _ _ _ _ _ _ _ Hpost) by done. unfold put_entry. rewrite decide_False.
    + apply (lookup_pte_frame _ _ PG); [|done]. intros w Hw. apply agree_page_fill; [done| |].
      * by apply (pt_page_valid _ _ _ _ (vi_wf _ _ _ _ _ _ Hinv) Hw).
      * intros ->. by apply Hnp, Hptw.
    + intros [_ E]. unfold user_vpn in Hv. unfold vpn in E. klia.
  - destruct (vp_suffix _ _ _ _ _ _ _ Hpost) as [A ->]. by exists (n :: A).
  - intros Hti f Hfv HfL Hfp HOf. rewrite (vp_pt _ _ _ _ _ _ _ Hpost) in Hfp. change (mem ph1) with m1 in Hfp. rewrite Hptw in Hfp.
    assert (f ≠ n).
    { intros ->. assert (Hin : (pd, v) ∈ put_owner O pd v e n) by (apply elem_put_owner; by rewrite decide_True). set_solver. }
    apply Hti; [done| |tauto|]; [intros [?|?]%elem_of_cons; tauto|]. rewrite <- HOf. symmetry. apply put_owner_ne; [done|by rewrite Hf].
  - intros HX f w Hin. apply elem_put_owner in Hin. case_decide; [by destruct Hin as [_ <-]; rewrite Hf|by eapply HX].
  - by rewrite (vp_use_lock _ _ _ _ _ _ _ Hpost).
Qed.

(** Mapping it succeeds, or fails with all memory used up. *)
Lemma page_mapped :
  ∃ r ph2 L2, mappages pd (4096 * v) PGSIZE (V2P n) new_perm ph1 = Ok r ph2 ∧
    ((r = 0 ∧ ∃ O2, grown d PG ph (n :: L) O X pd (λ w, w = v) ph2 L2 O2) ∨
     (r = -1 ∧ kept d PG O (fupd X n 1) ph1 L ph2 L2 ∧ ¬ pt_page (mem ph2) PG n ∧ n ∉ L2)).
Proof.
  destruct page_ready as (_ & _ & _ & Hnv & HnL & Hnp & HO & HXn & Hi1 & Hpte & Hus & Hptw).
  destruct new_entry as (Hu & HP & HW & HU & Hf). destruct (user_va v Hv) as [Hua Ev].
  assert (En : vpn (4096 * v + PGSIZE - 1) = v) by (unfold vpn, PGSIZE; dlia).
  destruct (mappages_ok d PG pd (4096 * v) PGSIZE (V2P n) new_perm ph1 L) as (r & ph2 & L2 & k & E & Hpost & Hr);
    [apply Hi1|apply Hi1|done|done|unfold user_vpn in Hv; lia|done|unfold user_vpn in Hv; unfold PGSIZE; lia|apply u32_range| | |].
  { rewrite En, Ev. pose proof (u32_range (n - KERNBASE)). unfold V2P, is_u32 in *. lia. }
  { intros va' Hva' Hin. rewrite En, Ev in Hin. rewrite lookup_pte_vpn by done. replace (vpn va') with v by lia.
    change (mem ph1) with m1. by rewrite Hpte. }
  rewrite En, Ev in *. exists r, ph2, L2. split; [done|]. destruct Hr as [[-> ->]|(-> & Hk & ->)]; [left|right].
  - split; [done|]. exists (put_owner O pd v e). apply page_grown. eapply vm_post_ext; [exact Hpost|].
    intros pg va Hpg Hva. unfold map_entry, put_entry. change (mem ph1) with m1.
    destruct (decide (pg = pd ∧ vpn va = v)) as [[-> <-]|Hn].
    + rewrite decide_True by lia. unfold e. do 2 f_equal. lia.
    + rewrite decide_False; [done|]. intros [? ?]. apply Hn. split; [done|lia].
  - split; [done|]. split_and!.
    + eapply kept_post; [exact Hi1|exact Hpost|]. intros pg w Hpg Hw. unfold map_entry. rewrite decide_False by lia. done.
    + rewrite (vp_pt _ _ _ _ _ _ _ Hpost). change (mem ph1) with m1. tauto.
    + set_solver.
Qed.
End Page.

(** ** Giving back *)

(** Nothing was added, and nothing is lost: at most page tables are left. *)
Record given_back (d : Z) (PG : list Z) (O : owners) (X : Z → Z) (ph : phys) (L : list Z) (pd : Z) (R : Z → Prop)
    (ph' : phys) (L' : list Z) : Prop := {
  gb_inv : vm_inv d PG ph' L' O X;
  gb_user : same_user PG (mem ph) (mem ph');
  gb_pte : ∀ pg v, pg ∈ PG → user_vpn v → ¬ (pg = pd ∧ R v) → pte_of (mem ph') pg v = pte_of (mem ph) pg v;
  gb_tight : tight PG ph L O X → tight PG ph' L' O X;
  gb_lock : use_lock ph' = use_lock ph
}.

Lemma absent_byte m pg va : is_u32 va → has (pte_of m pg (vpn va)) PTE_P = false → user_byte m pg va = None.
Proof. intros Hva HP. unfold user_byte, translate. by rewrite lookup_pte_vpn, HP. Qed.

(** Pages have been taken out, as in [unmapped], while page tables may have been
    added. *)
Record shrunk (d : Z) (PG : list Z) (ph : phys) (L : list Z) (O : owners) (X : Z → Z)
    (pd : Z) (R : Z → Prop) (ph' : phys) (L' : list Z) (O' : owners) : Prop := {
  sh_inv : vm_inv d PG ph' L' O' X;
  sh_own : ∀ f pg v, (pg, v) ∈ O' f ↔ (pg, v) ∈ O f ∧ ¬ (pg = pd ∧ R v);
  sh_user : ∀ pg va, pg ∈ PG → user_va_ok va → ¬ (pg = pd ∧ R (vpn va)) → user_byte (mem ph') pg va = user_byte (mem ph) pg va;
  sh_pte : ∀ pg v, pg ∈ PG → user_vpn v → ¬ (pg = pd ∧ R v) → pte_of (mem ph') pg v = pte_of (mem ph) pg v;
  sh_tight : tight PG ph L O X → tight PG ph' L' O' X;
  sh_lock : use_lock ph' = use_lock ph
}.

Lemma unmapped_shrunk d PG ph L O X pd R ph' L' O' :
  unmapped d PG ph L O X pd R ph' L' O' → shrunk d PG ph L O X pd R ph' L' O'.
Proof. by intros [I Ow U _ P _ T K]. Qed.

Lemma unmap_grown d PG ph L O X pd R R' ph1 L1 O1 ph2 L2 O2 :
  pd ∈ PG → vm_inv d PG ph L O X → (∀ v, R v → R' v) → (∀ v, user_vpn v → R' v → has (pte_of (mem ph) pd v) PTE_P = false) →
  grown d PG ph L O X pd R ph1 L1 O1 → shrunk d PG ph1 L1 O1 X pd R' ph2 L2 O2 →
  given_back d PG O X ph L pd R' ph2 L2 ∧ ∀ f, O2 f = O f.
Proof.
  intros Hpd I0 HR Habs [I1 Ow1 N1 Z1 U1 P1 _ _ T1 D1 K1] [I2 Ow2 U2 P2 T2 K2].
  assert (HO : ∀ f, O2 f = O f).
  { intros f. apply set_eq. intros [pg v]. rewrite Ow2. split.
    - intros [Hin Hn]. apply Ow1 in Hin; [done|]. intros [-> ?]. apply Hn. auto.
    - intros Hin. assert (Hn : ¬ (pg = pd ∧ R' v)).
      { intros [-> Hr]. apply (vi_own _ _ _ _ _ _ I0) in Hin as (_ & Hv & HP & _). by rewrite Habs in HP. }
      split; [|done]. apply Ow1; [|done]. intros [-> ?]. apply Hn. auto. }
  split; [|done]. split.
  - by eapply vm_inv_ext.
  - intros pg va Hpg Hva. destruct (user_va_vpn va Hva) as [Hu Hv].
    destruct (decide (has (pte_of (mem ph2) pg (vpn va)) PTE_P = true)) as [HP|HP].
    + assert (Hin : (pg, vpn va) ∈ O2 (frame_of (pte_of (mem ph2) pg (vpn va)))) by (by apply (vi_own _ _ _ _ _ _ I2)).
      apply Ow2 in Hin as [_ Hn]. rewrite U2, U1; try done. intros [-> ?]. apply Hn. auto.
    + apply not_true_is_false in HP. rewrite absent_byte by done.
      destruct (has (pte_of (mem ph) pg (vpn va)) PTE_P) eqn:HP0; [|by rewrite absent_byte].
      exfalso. assert (Hin : (pg, vpn va) ∈ O2 (frame_of (pte_of (mem ph) pg (vpn va)))) by (rewrite HO; by apply (vi_own _ _ _ _ _ _ I0)).
      apply (vi_own _ _ _ _ _ _ I2) in Hin as (_ & _ & HP' & _). congruence.
  - intros pg v Hpg Hv Hn. rewrite P2, P1; try done. intros [-> ?]. apply Hn. auto.
  - intros Hti f Hf HfL Hfp HOf. apply (T2 (T1 Hti)); try done. by rewrite HO.
  - congruence.
Qed.
(** The page that could not be mapped is freed after the pages before it. *)
Section Held.
Context (d : Z) (PG : list Z) (ph : phys) (n : Z) (L : list Z) (O : owners) (X : Z → Z) (pd : Z) (R : Z → Prop).
Hypothesis Hinv : vm_inv d PG ph (n :: L) O X.
Let ph1 := set_mem (fill (mem ph) (V2P n) PGSIZE 0) (kalloc_post n ph).
Context (ph2 : phys) (L2 : list Z) (ph3 : phys) (L3 : list Z) (O3 : owners).
Hypothesis Hkept : kept d PG O (fupd X n 1) ph1 L ph2 L2.
Hypothesis Hum : unmapped d PG ph2 L2 O (fupd X n 1) pd R ph3 L3 O3.

Lemma held_freed :
  ∃ ph4, kfree n ph3 = Ok tt ph4 ∧ shrunk d PG ph (n :: L) O X pd R ph4 (n :: L3) O3.
Proof.
  destruct (page_ready d PG ph n L O X Hinv) as (_ & _ & _ & Hnv & HnL & Hnp & HO & HXn & Hi1 & Hpte & Hus & Hptw).
  destruct Hkept as [I2 U2 P2 _ T2 K2]. destruct Hum as [I3 Ow3 U3 _ P3 _ T3 K3].
  assert (HX1 : fupd X n 1 n = 1) by (unfold fupd; by rewrite decide_True).
  assert (Hn3 : n ∉ L3) by (intros Hin; pose proof (vi_zero _ _ _ _ _ _ I3 n ltac:(by left)); lia).
  assert (Hnp3 : ¬ pt_page (mem ph3) PG n) by (intros Hin; pose proof (vi_zero _ _ _ _ _ _ I3 n ltac:(by right)); lia).
  assert (HO3 : O3 n = ∅) by (apply empty_owner; intros pg v (Hin & _)%Ow3; rewrite HO in Hin; by apply elem_of_empty in Hin).
  destruct (vm_inv_kfree d PG ph3 L3 O3 (fupd X n 1) n I3 Hnv Hn3 Hnp3) as (ph4 & E4 & I4 & Hag & K4); [lia|].
  exists ph4. split; [done|].
  assert (EL : kfree_free n ph3 L3 = n :: L3).
  { unfold kfree_free. rewrite (vi_ref _ _ _ _ _ _ I3 n Hnv Hn3 Hnp3), HO3, size_empty, HX1. done. }
  rewrite EL in I4.
  assert (Hagpt : ∀ w, pt_page (mem ph3) PG w → agree_page (mem ph3) (mem ph4) w).
  { intros w Hw. apply Hag; [by apply (pt_page_valid _ _ _ _ (vi_wf _ _ _ _ _ _ I3) Hw)|left; by intros ->]. }
  assert (Hp4 : ∀ pg v, pg ∈ PG → pte_of (mem ph4) pg v = pte_of (mem ph3) pg v) by (intros pg v Hpg; by apply (lookup_pte_frame _ _ PG)).
  assert (Hpt4 : ∀ f, pt_page (mem ph4) PG f ↔ pt_page (mem ph3) PG f) by (apply pt_page_frame; intros pg Hpg; apply Hagpt; by left).
  split; [| | | | |by rewrite K4, K3, K2].
  - eapply vm_inv_ext; [exact I4|done|]. intros f. unfold fupd. repeat case_decide; subst; lia || done.
  - done.
  - intros pg va Hpg Hva Hn. rewrite <- Hus, <- U2, <- U3 by done. eapply user_byte_same; [exact I3|done|done|by rewrite Hp4|].
    intros f Hin. destruct (vi_page _ _ _ _ _ _ I3 _ _ _ Hin) as (Hfv & _). apply Hag; [done|left]. intros ->. rewrite HO3 in Hin. by apply elem_of_empty in Hin.
  - intros pg v Hpg Hv Hn. rewrite Hp4, P3, P2 by done. by apply Hpte.
  - intros Hti f Hf HfL Hfp HOf. rewrite Hpt4 in Hfp. apply not_elem_of_cons in HfL as [Hne HfL].
    assert (Hti1 : tight PG ph1 L O (fupd X n 1)).
    { intros w Hw HwL Hwp HOw. unfold fupd. case_decide as E; [lia|]. apply Hti; [done| |by rewrite <- Hptw|done].
      intros [?|?]%elem_of_cons; done. }
    pose proof (T3 (T2 Hti1) f Hf HfL Hfp HOf) as HX. unfold fupd in HX. by rewrite decide_False in HX.
Qed.
End Held.
(** ** The loop of [allocuvm] *)

Section Grow.
Context (d : Z) (PG : list Z) (X : Z → Z) (pd : Z).
Context (s : kernel F) (i : nat) (p : proc) (g : paging) (x : F) (c : Z).
Hypothesis Hruns : runs s i.
Hypothesis Hpd : pd ∈ PG.
Hypothesis Hown : paging_on = false ∨ pgdir p ≠ pd.
Hypothesis Hunp : paging_on = false ∨ pid p ≤ 2.

Lemma unpaged ph : paged_proc (frame s i p ph g x c) = Ok false (frame s i p ph g x c).
Proof.
  unfold paged_proc. destruct paging_on; [|done]. destruct Hunp as [?|Hp]; [done|].
  erewrite bind_ok by (by apply myproc_frame). cbn [pid set_paging_]. by rewrite (proj2 (Z.ltb_ge 2 _)).
Qed.

Context (ph0 : phys) (L0 : list Z) (O0 : owners) (oldsz newsz : Z).
Hypothesis Hinv : vm_inv d PG ph0 L0 O0 X.
Hypothesis HX : ∀ f w, (pd, w) ∈ O0 f → X f = 0.
Hypothesis Hsz : 0 ≤ oldsz ≤ newsz.
Hypothesis Hnew : newsz < KERNBASE.
Definition added (v : Z) : Prop := oldsz ≤ 4096 * v < newsz.
Hypothesis Habs : ∀ v, added v → has (pte_of (mem ph0) pd v) PTE_P = false.

Definition before (v w : Z) : Prop := oldsz ≤ 4096 * w ∧ w < v.

Lemma before_added v w : 4096 * v < newsz + 4096 → before v w → added w.
Proof. unfold before, added. lia. Qed.

(** No page left. *)
Lemma grow_fail v ph O :
  4096 * v < newsz → oldsz < newsz → grown d PG ph0 L0 O0 X pd (before v) ph [] O →
  ∃ ph' L', deallocuvm pd newsz oldsz (frame s i p ph g x c) = Ok oldsz (frame s i p ph' g x c) ∧
    given_back d PG O0 X ph0 L0 pd added ph' L'.
Proof.
  intros Hv Hlt Hg. destruct (deallocuvm_foreign d PG X pd s i p g x c Hruns Hpd Hown ph [] O newsz oldsz) as (ph' & L' & O' & E & Hum);
    [apply Hg|apply Hg, HX|lia|lia|].
  exists ph', L'. split; [done|]. eapply (unmap_grown _ _ _ _ _ _ _ (before v)); [done|done| |by intros w _; apply Habs|exact Hg|by apply unmapped_shrunk].
  intros w. apply before_added. lia.
Qed.

(** A page but no page table for it. *)
Lemma grow_fail_held v ph n L O ph2 L2 :
  4096 * v < newsz → oldsz < newsz → grown d PG ph0 L0 O0 X pd (before v) ph (n :: L) O →
  kept d PG O (fupd X n 1) (set_mem (fill (mem ph) (V2P n) PGSIZE 0) (kalloc_post n ph)) L ph2 L2 →
  ∃ ph3 ph4 L', deallocuvm pd newsz oldsz (frame s i p ph2 g x c) = Ok oldsz (frame s i p ph3 g x c) ∧
    kfree n ph3 = Ok tt ph4 ∧ given_back d PG O0 X ph0 L0 pd added ph4 L'.
Proof.
  intros Hv Hlt Hg Hk.
  destruct (page_ready d PG ph n L O X (gr_inv _ _ _ _ _ _ _ _ _ _ _ Hg)) as (_ & _ & _ & _ & _ & _ & HO & _).
  destruct (deallocuvm_foreign d PG (fupd X n 1) pd s i p g x c Hruns Hpd Hown ph2 L2 O newsz oldsz) as (ph3 & L3 & O3 & E & Hum);
    [apply Hk| |lia|lia|].
  { intros f w Hin. unfold fupd. case_decide as Ef; [subst; rewrite HO in Hin; by apply elem_of_empty in Hin|].
    by apply (gr_held _ _ _ _ _ _ _ _ _ _ _ Hg HX f w). }
  destruct (held_freed d PG ph n L O X pd _ (gr_inv _ _ _ _ _ _ _ _ _ _ _ Hg) ph2 L2 ph3 L3 O3 Hk Hum) as (ph4 & E4 & Hsh).
  exists ph3, ph4, (n :: L3). split; [done|]. split; [done|].
  eapply (unmap_grown _ _ _ _ _ _ _ (before v)); [done|done| |by intros w _; apply Habs|exact Hg|exact Hsh].
  intros w. apply before_added. lia.
Qed.

Lemma grow_loop fuel : ∀ v ph L O,
  (newsz - 4096 * v ≤ 4096 * Z.of_nat fuel) → oldsz ≤ 4096 * v → 0 ≤ v → 4096 * v < newsz + 4096 →
  grown d PG ph0 L0 O0 X pd (before v) ph L O →
  (∃ ph' L' O', allocuvm_loop (S fuel) pd (4096 * v) oldsz newsz (frame s i p ph g x c) = Ok newsz (frame s i p ph' g x c) ∧
     grown d PG ph0 L0 O0 X pd added ph' L' O') ∨
  (∃ ph' L', allocuvm_loop (S fuel) pd (4096 * v) oldsz newsz (frame s i p ph g x c) = Ok 0 (frame s i p ph' g x c) ∧
     given_back d PG O0 X ph0 L0 pd added ph' L').
Proof.
  induction fuel as [|fuel IH]; intros v ph L O Hf Hv Hv0 Hve Hg; cbn [allocuvm_loop];
    (destruct (Z.ltb_spec (4096 * v) newsz) as [Hlt|Hge]; [|left; exists ph, L, O; split; [done|]]).
  { lia. }
  { eapply grown_ext; [exact Hinv| |exact Hg]. intros w Hw. unfold before, added. lia. }
  2: { eapply grown_ext; [exact Hinv| |exact Hg]. intros w Hw. unfold before, added. lia. }
  rewrite (bind_ok _ _ _ _ _ (unpaged ph)). erewrite bind_ok by done. cbn [negb].
  assert (Huv : user_vpn v) by (unfold user_vpn; klia).
  assert (Hab : has (pte_of (mem ph) pd v) PTE_P = false).
  { rewrite (gr_pte _ _ _ _ _ _ _ _ _ _ _ Hg); [apply Habs; unfold added; lia|done|done|]. unfold before. lia. }
  pose proof (gr_inv _ _ _ _ _ _ _ _ _ _ _ Hg) as Hi. destruct L as [|n L].
  - right. rewrite (bind_ok _ _ _ 0 (frame s i p ph g x c)).
    2: { apply on_phys_frame. apply kalloc_empty; [apply (ki_unlocked _ _ _ (vi_kmem _ _ _ _ _ _ Hi))|apply (ki_list _ _ _ (vi_kmem _ _ _ _ _ _ Hi))]. }
    destruct (grow_fail v ph O Hlt ltac:(lia) Hg) as (ph' & L' & E & Hb). exists ph', L'. split; [|done].
    cbn [Z.eqb]. by rewrite (bind_ok _ _ _ _ _ E).
  - destruct (page_ready d PG ph n L O X Hi) as (Ek & Em & Hn0 & _).
    rewrite (bind_ok _ _ _ _ _ (on_phys_frame _ s i p ph _ g x c n Ek)), (proj2 (Z.eqb_neq n 0) Hn0).
    rewrite (bind_ok _ _ _ _ _ (on_phys_frame _ s i p _ _ g x c tt Em)).
    destruct (page_mapped d PG ph n L O X pd v Hi Hpd Huv Hab) as (r & ph2 & L2 & E2 & Hr).
    rewrite (bind_ok _ _ _ _ _ (on_phys_frame _ s i p _ _ g x c r E2)).
    destruct Hr as [[-> [O2 Hg2]]|(-> & Hk & _)].
    + change (0 <? 0) with false. cbv iota. rewrite (bind_ok _ _ _ _ _ (unpaged ph2)). erewrite bind_ok by done.
      rewrite u32_small by klia. replace (4096 * v + PGSIZE) with (4096 * (v + 1)) by (unfold PGSIZE; lia).
      apply (IH (v + 1) ph2 L2 O2); [lia|lia|lia|lia|].
      eapply grown_ext; [exact Hinv| |eapply grown_trans; [exact Hpd|exact Hg|exact Hg2|unfold before; lia]]. intros w Hw. unfold before. lia.
    + right. change (-1 <? 0) with true. cbv iota.
      destruct (grow_fail_held v ph n L O ph2 L2 Hlt ltac:(lia) Hg Hk) as (ph3 & ph4 & L' & E3 & E4 & Hb).
      exists ph4, L'. split; [|done]. rewrite (bind_ok _ _ _ _ _ E3). by rewrite (bind_ok _ _ _ _ _ (on_phys_frame _ s i p ph3 ph4 g x c tt E4)).
Qed.

Lemma allocuvm_ok :
  (∃ ph' L' O', allocuvm pd oldsz newsz (frame s i p ph0 g x c) = Ok newsz (frame s i p ph' g x c) ∧
     grown d PG ph0 L0 O0 X pd added ph' L' O') ∨
  (∃ ph' L', allocuvm pd oldsz newsz (frame s i p ph0 g x c) = Ok 0 (frame s i p ph' g x c) ∧
     given_back d PG O0 X ph0 L0 pd added ph' L').
Proof.
  unfold allocuvm. rewrite (proj2 (Z.leb_gt KERNBASE newsz)), (proj2 (Z.ltb_ge newsz oldsz)) by lia.
  rewrite PGROUNDUP_page by klia.
  apply (grow_loop (S (Z.to_nat ((newsz - oldsz) / PGSIZE))) ((oldsz + 4095) / 4096) ph0 L0 O0).
  - klia.
  - dlia.
  - dlia.
  - dlia.
  - eapply grown_ext; [exact Hinv| |by apply grown_refl]. intros w _. unfold before. split; [done|]. dlia.
Qed.

End Grow.
End GrowSpec.
