(* ===== verification/LoadSpec.v ===== *)
(** * LoadSpec: reading a program file into an address space

    The interface of the file system as [exec] uses it, and [loaduvm]. *)

From S2P Require Import Prelude Mmu Phys Config Kalloc PageTable Vmspace UvmInv UserMem State Spinlock.
From S2P Require Import PageList Swap Uvm.

(** ** Program files *)

(** What [readi] returns for [n] bytes at [off] of a file: the number of bytes
    and the bytes. *)
Definition readi_result (file : list Z) (off n : Z) : Z * list Z :=
  if Z.of_nat (length file) <? off then (-1, [])
  else let b := take (Z.to_nat n) (drop (Z.to_nat off) file) in (Z.of_nat (length b), b).

(** The file [path] holds [file]: it can be opened in a transaction, read while it
    is locked, and closed. *)
Class ProgFile (F : Type) `{FileSystem F} (path : string) (file : list Z) := {
  pf_idle : F → Prop;
  pf_open : Z → F → Prop;
  pf_start : ∀ x, pf_idle x → ∃ ip x1 x2 x3,
    fs_begin_op x = Ok tt x1 ∧ fs_namei path x1 = Ok (Some ip) x2 ∧ fs_ilock ip x2 = Ok tt x3 ∧ pf_open ip x3;
  pf_read : ∀ ip x off n, pf_open ip x → is_u32 off → 0 ≤ n < 2147483648 →
    ∃ x', fs_readi ip off n x = Ok (readi_result file off n) x' ∧ pf_open ip x';
  pf_close : ∀ ip x, pf_open ip x → ∃ x1 x2,
    fs_iunlockput ip x = Ok tt x1 ∧ fs_end_op x1 = Ok tt x2 ∧ pf_idle x2;
  pf_size : Z.of_nat (length file) < 2147483648
}.
Arguments pf_idle {F _ path file _} _.
Arguments pf_open {F _ path file _} _ _.

Section Load.
Context `{ConfigOk} {F : Type} `{FileSystem F} (path : string) (file : list Z) `{!ProgFile F path file}.

Notation owners := (Z → gset (Z * Z)).
Notation opened := (pf_open (path := path) (file := file)).

Context (d : Z) (PG : list Z) (L : list Z) (O : owners) (X : Z → Z) (pd : Z).
Context (s : kernel F) (i : nat) (p : proc) (g : paging) (c : Z).
Hypothesis Hpd : pd ∈ PG.
Context (addr offset fsz : Z).
Hypothesis Haddr : 0 ≤ addr ∧ addr mod 4096 = 0 ∧ addr + fsz ≤ KERNBASE.
Hypothesis Hoff : is_u32 offset.
Hypothesis Hfsz : 0 ≤ fsz.

Definition segment : list Z := take (Z.to_nat fsz) (drop (Z.to_nat offset) file).

(** The segment lies in the file. *)
Definition segment_there : Prop := fsz = 0 ∨ offset + fsz ≤ Z.of_nat (length file).

Lemma segment_slice j n :
  0 ≤ j → 0 ≤ n → j + n ≤ fsz →
  take (Z.to_nat n) (drop (Z.to_nat (offset + j)) file) = take (Z.to_nat n) (drop (Z.to_nat j) segment).
Proof.
  intros Hj Hn Hle. unfold segment. rewrite skipn_firstn_comm, drop_drop, take_take.
  replace (Z.to_nat offset + Z.to_nat j)%nat with (Z.to_nat (offset + j)) by (unfold is_u32 in Hoff; lia).
  by replace (Z.to_nat n `min` (Z.to_nat fsz - Z.to_nat j))%nat with (Z.to_nat n) by lia.
Qed.

Lemma segment_next k n :
  0 ≤ k → 0 ≤ n → (n = 4096 ∨ 4096 * k + n = fsz ∧ n ≤ 4096) →
  take (Z.to_nat (4096 * k)) segment ++ take (Z.to_nat n) (drop (Z.to_nat (4096 * k)) segment) = take (Z.to_nat (4096 * (k + 1))) segment.
Proof.
  intros Hk Hn Hcase. replace (Z.to_nat (4096 * (k + 1))) with (Z.to_nat (4096 * k) + 4096)%nat by lia.
  rewrite <- take_take_drop. f_equal. destruct Hcase as [->|[E ?]]; [done|].
  assert (length (drop (Z.to_nat (4096 * k)) segment) ≤ Z.to_nat n)%nat by (rewrite length_drop; unfold segment; rewrite length_take; lia).
  rewrite !take_ge by lia. done.
Qed.

(** One page of it. *)
Lemma chunk (ip : Z) k n :
  0 ≤ k → 0 < n → 4096 * k + n ≤ fsz →
  ∃ r b, readi_result file (offset + 4096 * k) n = (r, b) ∧ Z.of_nat (length b) ≤ n ∧
    ((r = n ∧ b = take (Z.to_nat n) (drop (Z.to_nat (4096 * k)) segment) ∧ Z.of_nat (length b) = n) ∨
     (r ≠ n ∧ ¬ segment_there)).
Proof.
  intros Hk Hn Hle. pose proof Hoff as Ho'. unfold is_u32 in Ho'. unfold readi_result, segment_there. destruct (Z.ltb_spec (Z.of_nat (length file)) (offset + 4096 * k)) as [Hlt|Hge].
  - exists (-1), []. split; [done|]. split; [cbn; lia|right; lia].
  - rewrite segment_slice by lia. eexists _, _. split; [done|].
    rewrite length_take, length_drop. unfold segment. rewrite length_take, length_drop. split; [lia|].
    destruct (decide (offset + fsz ≤ Z.of_nat (length file))); [left; split_and!; [lia|done|lia]|].
    destruct (decide (offset + 4096 * k + n ≤ Z.of_nat (length file))); [left; split_and!; [lia|done|lia]|right; lia].
Qed.

Lemma loaduvm_loop_ok ph0 ip fuel : ∀ k ph x,
  (∀ v, addr < 4096 * (v + 1) → 4096 * v < addr + fsz → user_writable (mem ph0) pd v) →
  stored d PG ph0 L O X pd addr (take (Z.to_nat (4096 * k)) segment) ph → opened ip x →
  0 ≤ k → 4096 * (k - 1) < fsz ∨ k = 0 → Z.min (4096 * k) fsz ≤ Z.of_nat (length segment) → fsz - 4096 * k ≤ 4096 * Z.of_nat fuel →
  ∃ r b ph' x', loaduvm_loop (S fuel) pd addr ip offset fsz (4096 * k) (frame s i p ph g x c) = Ok r (frame s i p ph' g x' c) ∧
    opened ip x' ∧ stored d PG ph0 L O X pd addr b ph' ∧
    ((r = 0 ∧ b = segment ∧ segment_there) ∨ (r = -1 ∧ ¬ segment_there ∧ Z.of_nat (length b) ≤ fsz)).
Proof.
  induction fuel as [|fuel IH]; intros k ph x Hw Hst Hx Hk Hk1 Hlen Hf; cbn [loaduvm_loop];
    (destruct (Z.ltb_spec (4096 * k) fsz) as [Hlt|Hge]; [|exists 0, segment, ph, x]).
  { lia. }
  1,3: (split; [done|]; split; [done|]; rewrite take_ge in Hst by (unfold segment; rewrite length_take; lia);
    split; [done|left; split; [done|]; split; [done|]]; unfold segment_there; unfold segment in Hlen;
    rewrite length_take, length_drop in Hlen; lia).
  set (a := addr + 4096 * k). set (n := if fsz - 4096 * k <? PGSIZE then fsz - 4096 * k else PGSIZE).
  assert (Hn : 0 < n ∧ n ≤ 4096 ∧ 4096 * k + n ≤ fsz ∧ (n = 4096 ∨ 4096 * k + n = fsz)).
  { unfold n, PGSIZE. destruct (Z.ltb_spec (fsz - 4096 * k) 4096); lia. }
  assert (Hva : user_va_ok a) by (unfold user_va_ok, a; lia).
  assert (Eo : u32 (offset + 4096 * k) = offset + 4096 * k).
  { apply u32_small. unfold segment in Hlen. rewrite length_take, length_drop in Hlen. pose proof pf_size. unfold is_u32 in *. lia. }
  rewrite (u32_small a) by (unfold is_u32, user_va_ok in *; klia).
  assert (Hav : 4096 * vpn a = a) by (unfold a, vpn; dlia).
  destruct (writable_walk d PG ph L O X pd a (so_inv _ _ _ _ _ _ _ _ _ _ Hst) Hpd Hva) as (t & e & E1 & Ht & E2 & _ & _ & _ & Hin & HO).
  { eapply stored_writable; [done|exact Hst|]. apply Hw; lia. }
  rewrite (bind_ok _ _ _ _ _ (on_phys_frame _ s i p ph ph g x c t E1)), (proj2 (Z.eqb_neq _ _) Ht).
  rewrite (bind_ok _ _ _ _ _ (on_phys_frame _ s i p ph ph g x c e E2)). rewrite Eo.
  destruct (pf_read ip x (offset + 4096 * k) n Hx) as (x1 & Er & Hx1); [rewrite <- Eo; apply u32_range|lia|].
  rewrite (bind_ok _ _ _ _ _ (on_fs_frame _ s i p ph g x x1 c _ Er)). fold (frame_of e).
  destruct (chunk ip k n Hk ltac:(lia) ltac:(lia)) as (r & b & -> & Hb & Hchunk).
  destruct (store_page d PG ph L O X pd (vpn a) (frame_of e) 0 b (so_inv _ _ _ _ _ _ _ _ _ _ Hst) Hin HO) as [Est Hst2]; [done|lia|].
  rewrite !Z.add_0_r in Est. rewrite (bind_ok _ _ _ _ _ (on_phys_frame _ s i p ph _ g x1 c _ Est)).
  assert (L1 : length (take (Z.to_nat (4096 * k)) segment) = Z.to_nat (4096 * k)) by (rewrite length_take; lia).
  rewrite Hav in Hst2. cbn [Z.add] in Hst2.
  assert (Hst3 : stored d PG ph0 L O X pd addr (take (Z.to_nat (4096 * k)) segment ++ b) (set_mem (st_bytes (mem ph) (V2P (frame_of e)) b) ph)).
  { eapply stored_app; [done|lia|rewrite L1; lia|exact Hst|]. rewrite L1. replace (addr + Z.of_nat (Z.to_nat (4096 * k))) with a by (unfold a; lia).
    by rewrite !Z.add_0_r in Hst2. }
  destruct Hchunk as [(-> & Eb & Lb)|[Hne Hno]].
  - rewrite Z.eqb_refl. cbn [negb]. rewrite u32_small by klia. replace (4096 * k + PGSIZE) with (4096 * (k + 1)) by (unfold PGSIZE; lia).
    apply IH; try done; try lia.
    + replace (take (Z.to_nat (4096 * (k + 1))) segment) with (take (Z.to_nat (4096 * k)) segment ++ b); [done|].
      rewrite Eb. apply segment_next; lia.
    + rewrite Eb, length_take, length_drop in Lb. lia.
  - rewrite (proj2 (Z.eqb_neq _ _) Hne). exists (-1), (take (Z.to_nat (4096 * k)) segment ++ b). eexists _, x1. split; [done|]. split; [done|].
    split; [done|]. right. split; [done|]. split; [done|]. rewrite length_app, L1. lia.
Qed.

Lemma loaduvm_ok ph ip x :
  vm_inv d PG ph L O X → opened ip x →
  (∀ v, addr < 4096 * (v + 1) → 4096 * v < addr + fsz → user_writable (mem ph) pd v) →
  ∃ r b ph' x', loaduvm pd addr ip offset fsz (frame s i p ph g x c) = Ok r (frame s i p ph' g x' c) ∧
    opened ip x' ∧ stored d PG ph L O X pd addr b ph' ∧
    ((r = 0 ∧ b = segment ∧ segment_there) ∨ (r = -1 ∧ ¬ segment_there ∧ Z.of_nat (length b) ≤ fsz)).
Proof.
  intros Hinv Hx Hw. unfold loaduvm. destruct Haddr as (_ & Hal & _). unfold PGSIZE at 1. rewrite Hal. cbn [Z.eqb negb].
  apply (loaduvm_loop_ok ph ip _ 0 ph x); try done; try lia.
  unfold PGSIZE. dlia.
Qed.
End Load.
