(* ===== verification/CopySpec.v ===== *)
(** * CopySpec: [copyuvm] copies an address space for [fork]

    The parent's pages are shared copy-on-write, pages in the swap file are
    entered in the child's page table; without memory the copy is undone. *)

From S2P Require Import Prelude Mmu Phys Config Kalloc PageTable Vmspace UvmInv CopyInv State.
From S2P Require Import PageList Swap Uvm UvmSpec.

Section CopySpec.
Context `{ConfigOk} {F : Type} `{FileSystem F}.

Notation owners := (Z → gset (Z * Z)).

Section Copying.
Context (d : Z) (PG : list Z) (X : Z → Z) (pd ch : Z).
Context (ph0 : phys) (L0 : list Z) (O0 : owners).
Hypothesis Hpd : pd ∈ PG.
Hypothesis Hch : ch ∈ PG.
Hypothesis Hne : ch ≠ pd.
Hypothesis HX : ∀ f v, (pd, v) ∈ O0 f → X f = 0.
Hypothesis Hlen : Z.of_nat (length PG) < 8192.

(** While copying: all other address spaces are as in [ph0], and the child's
    pages are pages of the parent. *)
Record copying (ph : phys) (L : list Z) (O : owners) : Prop := {
  cg_inv : vm_inv d PG ph L O X;
  cg_other : ∀ f pg w, pg ≠ ch → (pg, w) ∈ O f ↔ (pg, w) ∈ O0 f;
  cg_child : ∀ f w, (ch, w) ∈ O f → (pd, w) ∈ O0 f;
  cg_user : ∀ pg va, pg ∈ PG → user_va_ok va → pg ≠ ch →
    user_byte (mem ph) pg va = user_byte (mem ph0) pg va;
  cg_tight : tight PG ph0 L0 O0 X → tight PG ph L O X;
  cg_free : ∃ A, L0 = A ++ L;
  cg_lock : use_lock ph = use_lock ph0
}.

(** The pages below [v] have been copied. *)
Record copied (v : Z) (ph : phys) (L : list Z) (O : owners) : Prop := {
  cd_ing : copying ph L O;
  cd_pte : ∀ pg w, pg ∈ PG → user_vpn w → pte_of (mem ph) pg w =
    if decide (pg = ch) then (if decide (w < v) then child_pte (pte_of (mem ph0) pd w) else 0)
    else if decide (pg = pd ∧ w < v) then parent_pte (pte_of (mem ph0) pd w)
    else pte_of (mem ph0) pg w;
  cd_child : ∀ va, user_va_ok va → vpn va < v →
    user_byte (mem ph) ch va = user_byte (mem ph0) pd va
}.

Section Page.
Context (v : Z) (ph : phys) (L : list Z) (O : owners).
Hypothesis Hc : copied v ph L O.
Hypothesis Hv : user_vpn v.
Let va := 4096 * v.
Let e := pte_of (mem ph0) pd v.
Hypothesis Hpres : has e PTE_P = true ∨ has e PTE_PG = true.

Lemma page_facts : user_va_ok va ∧ va mod 4096 = 0 ∧ vpn va = v ∧ pte_of (mem ph) pd v = e ∧
  pte_of (mem ph) ch v = 0 ∧ ∃ t, tab (mem ph) pd (PDX va) = Some t.
Proof.
  assert (Hva : user_va_ok va) by (unfold user_va_ok, va; unfold user_vpn in Hv; klia).
  assert (Ev : vpn va = v) by apply vpn_mul.
  assert (Ep : pte_of (mem ph) pd v = e).
  { rewrite (cd_pte _ _ _ _ Hc) by done. rewrite decide_False by congruence. by rewrite decide_False by lia. }
  split; [done|]. split; [unfold va; dlia|]. split; [done|]. split; [done|]. split.
  - rewrite (cd_pte _ _ _ _ Hc) by done. rewrite decide_True by done. by rewrite decide_False by lia.
  - apply pte_tab; [by apply user_va_vpn|]. rewrite Ev, Ep. intros E. rewrite E in Hpres. by destruct Hpres.
Qed.

Lemma page_shared ph' L' :
  has e PTE_P = true → shared d PG ph L O X pd va ch ph' L' →
  copied (v + 1) ph' L' (put_owner O ch v (cow_of e)).
Proof.
  intros HP. destruct page_facts as (Hva & Hal & Ev & Ep & Ec & _). intros [Hi Hp Hu Hcu Ht [A HL] Hl].
  pose proof Hc as [[Hi0 Ho Hcc Hus Hti [A0 HL0] Hlk] Hpt Hcb]. rewrite Ev, Ep in *.
  pose proof (pte_of_u32 (mem ph0) pd v : is_u32 e) as Hue.
  destruct (cow_of_bits e Hue) as (_ & HPc & _ & _ & _ & HAc & _).
  split; [split|..].
  - done.
  - intros f pg w Hpg. rewrite elem_put_owner, decide_False by congruence. by apply Ho.
  - intros f w. rewrite elem_put_owner. case_decide as Hd; [|apply Hcc]. injection Hd as ->.
    unfold frame_of. rewrite HAc. intros [_ <-]. apply Ho; [done|]. apply (vi_own _ _ _ _ _ _ Hi0).
    unfold maps. by rewrite Ep.
  - intros pg va' Hpg Hva' Hpc. rewrite Hu by (done || tauto). by apply Hus.
  - auto.
  - exists (A0 ++ A). by rewrite HL0, HL, app_assoc.
  - congruence.
  - intros pg w Hpg Hw. rewrite Hp by done.
    destruct (decide (w = v)) as [->|Hwv].
    + unfold child_pte, parent_pte. fold e. rewrite HP.
      destruct (decide (pg = ch)) as [->|Hpc]; [rewrite !decide_True by (lia || tauto); done|].
      destruct (decide (pg = pd)) as [->|Hpp].
      * rewrite !decide_True by (lia || tauto). done.
      * rewrite !decide_False by tauto. rewrite Hpt by done. rewrite !decide_False by tauto. done.
    + rewrite (decide_False (P := _ ∧ w = v)) by tauto. rewrite Hpt by done.
      destruct (decide (w < v)), (decide (w < v + 1)); try lia; repeat case_decide; tauto || done.
  - intros va' Hva' Hlt. destruct (decide (vpn va' = v)) as [E|E].
    + rewrite Hcu by done. by apply Hus.
    + rewrite Hu by (done || tauto). apply Hcb; [done|lia].
Qed.

Lemma page_kept ph' L' :
  kept d PG O X ph L ph' L' → copied v ph' L' O.
Proof.
  intros [Hi Hu Hp [A HL] Ht Hl]. pose proof Hc as [[Hi0 Ho Hcc Hus Hti [A0 HL0] Hlk] Hpt Hcb].
  split; [split|..]; try done.
  - intros pg va' Hpg Hva' Hpc. rewrite Hu by done. by apply Hus.
  - auto.
  - exists (A0 ++ A). by rewrite HL0, HL, app_assoc.
  - congruence.
  - intros pg w Hpg Hw. rewrite Hp by done. by apply Hpt.
  - intros va' Hva' Hlt. rewrite Hu by done. by apply Hcb.
Qed.

(** An entry for a page that is in the swap file. *)
Lemma page_entered t :
  has e PTE_P = false → tab (mem ph) ch (PDX va) = Some t →
  copied (v + 1) (pte_put t va (Z.land e 0xfff) ph) L O.
Proof.
  intros HP Ht. destruct page_facts as (Hva & Hal & Ev & Ep & Ec & _).
  pose proof Hc as [[Hi0 Ho Hcc Hus Hti [A0 HL0] Hlk] Hpt Hcb].
  assert (Hu : is_u32 (Z.land e 0xfff)) by (by apply is_u32_land; [apply pte_of_u32|]).
  assert (HP' : has (Z.land e 0xfff) PTE_P = false) by (rewrite <- HP; by flags).
  assert (Ha : has (pte_of (mem ph) ch (vpn va)) PTE_P = false) by (by rewrite Ev, Ec).
  destruct (put_swapped d PG ph L O X ch va _ Hi0 Hva Hch Ha Hu HP' t Ht) as (Hi & Hs & Hti').
  assert (Hp : ∀ pg w, pg ∈ PG → user_vpn w → pte_of (mem (pte_put t va (Z.land e 0xfff) ph)) pg w =
    if decide (pg = ch ∧ w = v) then Z.land e 0xfff else pte_of (mem ph) pg w).
  { intros pg w Hpg Hw. rewrite (put_pte_of d PG ph L O X ch va t Hi0 Hch Hva Ht) by done. by rewrite Ev. }
  split; [split|..]; try done.
  - intros pg va' Hpg Hva' Hpc. rewrite Hs by done. by apply Hus.
  - auto.
  - by exists A0.
  - intros pg w Hpg Hw. rewrite Hp by done. destruct (decide (w = v)) as [->|Hwv].
    + unfold child_pte, parent_pte. fold e. rewrite HP. destruct (decide (pg = ch)) as [->|Hpc].
      * by rewrite !decide_True by (lia || tauto).
      * rewrite decide_False by tauto. rewrite Hpt by done. rewrite decide_False by done.
        rewrite (decide_False (P := pg = pd ∧ v < v)) by lia.
        destruct (decide (pg = pd ∧ v < v + 1)) as [[-> _]|]; done.
    + rewrite decide_False by tauto. rewrite Hpt by done.
      destruct (decide (w < v)), (decide (w < v + 1)); try lia; repeat case_decide; tauto || done.
  - intros va' Hva' Hlt. rewrite Hs by done. destruct (decide (vpn va' = v)) as [E|E].
    + destruct (user_va_vpn va' Hva') as [Hu' _]. unfold user_byte, translate.
      rewrite !lookup_pte_vpn, E, Ec by done. fold e. by rewrite HP.
    + apply Hcb; [done|lia].
Qed.

End Page.

Section Step.
Context (v : Z) (ph : phys) (L : list Z) (O : owners).
Hypothesis Hc : copied v ph L O.
Hypothesis Hv : user_vpn v.
Let va := 4096 * v.
Let e := pte_of (mem ph0) pd v.
Hypothesis Hpres : has e PTE_P = true ∨ has e PTE_PG = true.

Lemma page_swapped t :
  has e PTE_P = false → tab (mem ph) pd (PDX va) = Some t →
  (L = [] ∧ walkpgdir ch va true ph = Ok 0 ph) ∨
  ∃ t2 ph1 ph2 L2, walkpgdir ch va true ph = Ok (t2 + 4 * PTX va) ph1 ∧
    kload32 (t + 4 * PTX va) ph1 = Ok e ph1 ∧
    kstore32 (t2 + 4 * PTX va) (Z.land e 0xfff) ph1 = Ok tt ph2 ∧ copied (v + 1) ph2 L2 O.
Proof.
  intros HP Ht. destruct (page_facts v ph L O Hc Hv Hpres) as (Hva & Hal & Ev & Ep & Ec & _).
  fold va in Hva, Hal, Ev. fold e in Ep. pose proof (cg_inv _ _ _ (cd_ing _ _ _ _ Hc)) as Hi.
  destruct (walkpgdir_alloc_spec d ph PG L ch va) as [?|(t2 & ph1 & L2 & E & Ht2 & Hpost)];
    [apply Hi|apply Hi|done|by left|right].
  assert (Hk : kept d PG O X ph L ph1 L2) by (by eapply kept_post).
  assert (Ht1 : tab (mem ph1) pd (PDX va) = Some t).
  { eapply walkpgdir_alloc_tab; [apply Hi|apply Hi|exact Hch|exact E|done|apply PDX_range|done]. }
  exists t2, ph1, (pte_put t2 va (Z.land e 0xfff) ph1), L2. split; [done|]. split; [|split].
  - erewrite kload_pte; [|apply Hk|exact Hpd|exact Ht1].
    rewrite lookup_pte_vpn by (by apply user_va_vpn). by rewrite Ev, (kp_pte _ _ _ _ _ _ _ _ Hk), Ep.
  - by eapply kstore_pte; [apply Hk|..].
  - apply page_entered; try done. by eapply page_kept.
Qed.

(** When [mappages] fails only the parent's entry has changed. *)
Lemma page_failed t ph1 ph2 L2 :
  protected d PG ph L O X pd va t ph1 → vm_post d PG ph1 L ph2 L2 (lookup_pte (mem ph1)) →
  copying ph2 L2 O.
Proof.
  intros [Hi1 Hs1 _ _ Hp1 Hpt1 Hl1] Hpost. pose proof (kept_post d PG O X ph1 L ph2 L2 _ Hi1 Hpost) as Hk.
  destruct Hk as [Hi2 Hu2 _ [A HL] Ht2 Hl2]; [done|].
  destruct (cd_ing _ _ _ _ Hc) as [Hi0 Ho Hcc Hus Hti [A0 HL0] Hlk]. split; try done.
  - intros pg va' Hpg Hva' Hpc. rewrite Hu2, Hs1 by done. by apply Hus.
  - intros Ht. apply Ht2. intros f Hf HfL Hfp HOf. apply (Hti Ht); try done. by rewrite <- Hpt1.
  - exists (A0 ++ A). by rewrite HL0, HL, app_assoc.
  - congruence.
Qed.

(** A page that is in memory is shared, unless the child's page table needs
    memory and there is none. *)
Lemma share_page_spec t (s : kernel F) i p g x c :
  has e PTE_P = true → tab (mem ph) pd (PDX va) = Some t →
  (∃ ph' L' O', share_page ch va (t + 4 * PTX va) (frame s i p ph g x c) =
     Ok true (frame s i p ph' g x c) ∧ copied (v + 1) ph' L' O') ∨
  (∃ ph' L' O', share_page ch va (t + 4 * PTX va) (frame s i p ph g x c) =
     Ok false (frame s i p ph' g x c) ∧ copying ph' L' O').
Proof.
  intros HP Ht. destruct (page_facts v ph L O Hc Hv Hpres) as (Hva & Hal & Ev & Ep & Ec & _).
  fold va in Hva, Hal, Ev. fold e in Ep. pose proof (cg_inv _ _ _ (cd_ing _ _ _ _ Hc)) as Hi.
  assert (Hin : (pd, vpn va) ∈ O (frame_of e)).
  { apply (vi_own _ _ _ _ _ _ Hi). rewrite Ev. split; [done|]. split; [done|]. unfold maps. by rewrite Ep. }
  assert (HXf : X (frame_of e) = 0).
  { eapply HX. apply (cg_other _ _ _ (cd_ing _ _ _ _ Hc)) in Hin; [exact Hin|done]. }
  assert (Ha : has (pte_of (mem ph) ch (vpn va)) PTE_P = false) by (by rewrite Ev, Ec).
  assert (Hmax : Z.of_nat (size (O (frame_of e))) + 1 < 4294967296).
  { pose proof (owners_bound d PG ph L O X (frame_of e) Hi). lia. }
  destruct (share_protect d PG ph L O X pd va t (frame_of e) Hi Hva Ht Hin) as [Hst Hpr].
  destruct (share_map d PG ph L O X pd va t (frame_of e) Hi Hva Hin ch Hch Hne Hal Ha _ Hpr)
    as (r & ph2 & L2 & E2 & Hr).
  pose proof (pr_load _ _ _ _ _ _ _ _ _ _ Hpr) as El1.
  pose proof (λ ph2 L2, share_done d PG ph L O X pd va t (frame_of e) Hi Hin HXf ch Hch Hne Ha Hmax _ ph2 L2 Hpr) as Hsd.
  set (ph1 := write_protect ph pd va t) in *. rewrite Ev, Ep in *.
  unfold share_page. erewrite bind_ok.
  2: { apply on_phys_frame. erewrite kload_pte; [|apply Hi|exact Hpd|exact Ht]. by rewrite lookup_pte_vpn by (by apply user_va_vpn). }
  rewrite Ev, Ep. rewrite (bind_ok _ _ _ tt (frame s i p ph1 g x c)).
  2: { destruct (has e PTE_W) eqn:EW; [|by unfold ph1, write_protect; rewrite Ev, Ep, EW].
    destruct (Hst eq_refl) as (S1 & S2 & S3). erewrite bind_ok by (apply on_phys_frame; exact S1).
    erewrite bind_ok by (apply on_phys_frame; exact S2). apply on_phys_frame. exact S3. }
  erewrite bind_ok by (apply on_phys_frame; exact El1).
  erewrite bind_ok by (apply on_phys_frame; exact E2).
  destruct Hr as [[-> Hpost]|[-> Hpost]]; [left|right].
  - destruct (Hsd _ _ Hpost) as (ph3 & E3 & Hsh3).
    exists ph3, L2, (put_owner O ch v (cow_of e)). change (0 <? 0) with false. cbv iota. split.
    + by erewrite bind_ok by (apply on_phys_frame; exact E3).
    + by apply (page_shared v ph L O).
  - exists ph2, L2, O. split; [done|]. by apply (page_failed t ph1).
Qed.

(** The three outcomes of a page: copied, no memory, and a page in the swap
    file without memory for the child's page table. *)
Lemma copy_page_spec (s : kernel F) i p g x c :
  (∃ ph' L' O', copy_page pd ch va (frame s i p ph g x c) = Ok true (frame s i p ph' g x c) ∧
     copied (v + 1) ph' L' O') ∨
  (∃ ph' L' O', copy_page pd ch va (frame s i p ph g x c) = Ok false (frame s i p ph' g x c) ∧
     copying ph' L' O') ∨
  (has e PTE_P = false ∧ L = [] ∧
   copy_page pd ch va (frame s i p ph g x c) = Err (UB "store outside the direct map")).
Proof.
  destruct (page_facts v ph L O Hc Hv Hpres) as (Hva & Hal & Ev & Ep & Ec & t & Ht).
  fold va in Hva, Hal, Ev, Ht. fold e in Ep. pose proof (cg_inv _ _ _ (cd_ing _ _ _ _ Hc)) as Hi.
  destruct (pw_dirs _ _ _ (vi_wf _ _ _ _ _ _ Hi) pd Hpd) as [Hpv _].
  assert (El : kload32 (t + 4 * PTX va) ph = Ok e ph).
  { erewrite kload_pte; [|apply Hi|exact Hpd|exact Ht]. rewrite lookup_pte_vpn by (by apply user_va_vpn). by rewrite Ev, Ep. }
  pose proof (page_swapped t) as Hsw. pose proof (λ HP, share_page_spec t s i p g x c HP Ht) as Hsh.
  unfold copy_page. erewrite bind_ok by (apply on_phys_frame; by apply walkpgdir_some).
  rewrite (pte_nonzero ph PG L pd va t) by (done || apply Hi). erewrite bind_ok by (apply on_phys_frame; exact El).
  assert (Eor : has e PTE_P || has e PTE_PG = true) by (by apply orb_true_iff). rewrite Eor. cbn [negb].
  destruct (has e PTE_P) eqn:HP; [destruct (Hsh eq_refl) as [?|?]; auto|].
  destruct (Hsw eq_refl Ht) as [[-> E]|(t2 & ph1 & ph2 & L2 & E1 & E2 & E3 & Hc')]; unfold enter_page.
  - right. right. split; [done|]. split; [done|].
    erewrite bind_ok by (apply on_phys_frame; exact E).
    by erewrite bind_ok by (apply on_phys_frame; exact El).
  - left. exists ph2, L2, O. split; [|done].
    erewrite bind_ok by (apply on_phys_frame; exact E1).
    erewrite bind_ok by (apply on_phys_frame; exact E2).
    by erewrite bind_ok by (apply on_phys_frame; exact E3).
Qed.
End Step.

(** ** The loop *)

Context (sz : Z).
Hypothesis Hsz : 0 ≤ sz ≤ KERNBASE.
Hypothesis Hpages : ∀ w, 0 ≤ w → 4096 * w < sz →
  has (pte_of (mem ph0) pd w) PTE_P = true ∨ has (pte_of (mem ph0) pd w) PTE_PG = true.
Let N := (sz + 4095) / 4096.

Lemma copy_loop_spec fuel v ph L O (s : kernel F) i p g x c :
  copied v ph L O → 0 ≤ v ≤ N → N - v < Z.of_nat fuel →
  (∃ ph' L' O', copy_loop (copy_page pd ch) fuel ch sz (4096 * v) (frame s i p ph g x c) =
     Ok true (frame s i p ph' g x c) ∧ copied N ph' L' O') ∨
  (∃ ph' L' O', copy_loop (copy_page pd ch) fuel ch sz (4096 * v) (frame s i p ph g x c) =
     Ok false (frame s i p ph' g x c) ∧ copying ph' L' O') ∨
  ((∃ w, 0 ≤ w ∧ 4096 * w < sz ∧ has (pte_of (mem ph0) pd w) PTE_P = false) ∧
   copy_loop (copy_page pd ch) fuel ch sz (4096 * v) (frame s i p ph g x c) =
     Err (UB "store outside the direct map")).
Proof.
  revert v ph L O. induction fuel as [|fuel IH]; intros v ph L O Hc Hv Hf; [lia|]. cbn [copy_loop].
  destruct (Z.ltb_spec (4096 * v) sz) as [Hlt|Hge].
  2: { left. exists ph, L, O. split; [done|]. replace N with v by (unfold N in *; dlia). done. }
  assert (Huv : user_vpn v) by (unfold user_vpn; klia).
  destruct (copy_page_spec v ph L O Hc Huv (Hpages v ltac:(lia) Hlt) s i p g x c)
    as [(ph1 & L1 & O1 & E & Hc1)|[(ph1 & L1 & O1 & E & Hc1)|(HP & _ & E)]].
  - erewrite bind_ok by exact E. cbv iota. rewrite u32_small by klia.
    replace (4096 * v + PGSIZE) with (4096 * (v + 1)) by (unfold PGSIZE; lia).
    apply (IH (v + 1) ph1 L1 O1); [done| |lia]. unfold N. dlia.
  - right. left. exists ph1, L1, O1. by erewrite bind_ok by exact E.
  - right. right. split; [by exists v; split; [lia|]|]. by apply bind_err.
Qed.
End Copying.

(** ** The whole copy *)

Lemma kpte_user v : user_vpn v → kpte kmap (4096 * v) = 0.
Proof.
  intros Hv. destruct kmap_ranges as [Hr _]. unfold kpte.
  assert (Hz : ∀ ks e, Forall krange ks →
    foldl (λ e k, if decide (kmap_in k (4096 * v)) then kmap_entry k (4096 * v) else e) e ks = e);
    [|by apply Hz].
  induction ks as [|[[[virt ps] pe] perm] ks IH]; intros e; [done|].
  intros [(Hal & Hk & _) Hks]%Forall_cons. cbn [foldl]. rewrite decide_False; [auto|].
  unfold kmap_in. rewrite vpn_mul. unfold user_vpn in Hv. intros [? _].
  assert (524288 ≤ vpn virt) by (unfold vpn; klia). lia.
Qed.

(** The child [ch] has a copy of the pages of [pd] below [sz], and everything
    else is as it was. *)
Record space_copy (d : Z) (PG : list Z) (X : Z → Z) (pd sz : Z) (ph : phys) (L : list Z) (O : owners)
    (ch : Z) (ph' : phys) (L' : list Z) (O' : owners) : Prop := {
  sc_fresh : ch ∉ PG ∧ ch ≠ 0;
  sc_inv : vm_inv d (ch :: PG) ph' L' O' X;
  sc_user : same_user PG (mem ph) (mem ph');
  sc_child : ∀ va, user_va_ok va → user_byte (mem ph') ch va =
    if decide (va < 4096 * ((sz + 4095) / 4096)) then user_byte (mem ph) pd va else None;
  sc_pte : ∀ v, user_vpn v → pte_of (mem ph') ch v =
    if decide (v < (sz + 4095) / 4096) then child_pte (pte_of (mem ph) pd v) else 0;
  sc_tight : tight PG ph L O X → tight (ch :: PG) ph' L' O' X
}.

Section Copyuvm.
Context (d : Z) (PG : list Z) (X : Z → Z) (pd sz : Z) (ph : phys) (L : list Z) (O : owners).
Context (s : kernel F) (i : nat) (p : proc) (g : paging) (x : F) (c : Z).
Hypothesis Hruns : runs s i.
Hypothesis Hflag : global_pgdir_flag s = 0 ∧ global_pgdir s = 0.
Hypothesis Hinv : vm_inv d PG ph L O X.
Hypothesis Hpd : pd ∈ PG.
Hypothesis Hown : paging_on = false ∨ pgdir p ∈ PG.
Hypothesis HX : ∀ f v, (pd, v) ∈ O f → X f = 0.
Hypothesis Hlen : Z.of_nat (length PG) < 8191.
Hypothesis Hsz : 0 ≤ sz ≤ KERNBASE.
Hypothesis Hpages : ∀ w, 0 ≤ w → 4096 * w < sz →
  has (pte_of (mem ph) pd w) PTE_P = true ∨ has (pte_of (mem ph) pd w) PTE_PG = true.

Section Child.
Context (ch : Z) (ph1 : phys) (L1 : list Z).
Hypothesis Hns : new_space d PG O X ph L ch ph1 L1.

Lemma copied_start : copied d (ch :: PG) X pd ch ph1 L1 O 0 ph1 L1 O.
Proof.
  destruct Hns as [(HnL & HnPG & Hnz) Hi Hno Hk Hu Hp Ht Hl]. split; [split|..]; try done.
  - intros f w Hin. by apply Hno in Hin.
  - by exists [].
  - intros pg w Hpg Hw. destruct (user_va w Hw) as [Hw' _]. destruct (decide (pg = ch)) as [->|Hpc].
    + unfold user_vpn in Hw. rewrite decide_False by lia. unfold pte_of. rewrite Hk by done. by apply kpte_user.
    + unfold user_vpn in Hw. by rewrite decide_False by lia.
  - intros va Hva Hlt. exfalso. unfold user_va_ok in Hva. unfold vpn in Hlt. dlia.
Qed.

Lemma copied_end ph2 L2 O2 :
  copied d (ch :: PG) X pd ch ph1 L1 O ((sz + 4095) / 4096) ph2 L2 O2 →
  space_copy d PG X pd sz ph L O ch ph2 L2 O2.
Proof.
  destruct Hns as [(HnL & HnPG & Hnz) Hi Hno Hk Hu Hp Ht Hl].
  intros [[Hi2 Ho2 Hc2 Hu2 Ht2 _ _] Hp2 Hb2]. split; [done|done|..].
  - intros pg va Hpg Hva. rewrite Hu2; [by apply Hu|by right|done|congruence].
  - intros va Hva. case_decide as Hd.
    + rewrite Hb2 by (done || unfold vpn; dlia). by apply Hu.
    + destruct (user_va_vpn va Hva) as [Hu' Hv]. unfold user_byte, translate. rewrite lookup_pte_vpn by done.
      rewrite Hp2 by (done || by left). rewrite decide_True by done. rewrite decide_False; [done|].
      unfold vpn. dlia.
  - intros v Hv. rewrite Hp2 by (done || by left). rewrite decide_True by done.
    case_decide; [|done]. by rewrite Hp.
  - auto.
Qed.

(** The half-made child is taken apart again. *)
Lemma copying_undo ph2 L2 O2 :
  copying d (ch :: PG) X pd ch ph1 L1 O ph2 L2 O2 →
  ∃ ph3 L3, freevm ch (frame s i p ph2 g x c) = Ok tt (frame s i p ph3 g x c) ∧
    vm_inv d PG ph3 L3 O X ∧ same_user PG (mem ph) (mem ph3) ∧
    (tight PG ph L O X → tight PG ph3 L3 O X).
Proof.
  destruct Hns as [(HnL & HnPG & Hnz) Hi Hno Hk Hu Hp Ht Hl].
  intros [Hi2 Ho2 Hc2 Hu2 Ht2 _ _].
  destruct (freevm_foreign d PG ph2 L2 O2 X ch s i p g x c Hruns) as (ph3 & L3 & O3 & E & Hi3 & HO3 & Hs3 & _ & Ht3 & _).
  { destruct Hown as [?|?]; [by left|right; congruence]. } { done. } { done. }
  { intros f w Hin. by eapply HX, Hc2. } { done. }
  assert (EO : ∀ f, O3 f = O f).
  { intros f. apply set_eq. intros [pg v]. rewrite HO3. destruct (decide (pg = ch)) as [->|Hpc].
    - split; [by intros [_ ?]|]. intros Hin. by apply Hno in Hin.
    - rewrite Ho2 by done. tauto. }
  exists ph3, L3. split; [done|]. split; [by eapply vm_inv_ext|]. split.
  - intros pg va Hpg Hva. rewrite Hs3, Hu2; [by apply Hu|by right|done|congruence|done|done].
  - intros Hti f Hf HfL Hfp HOf. apply (Ht3 (Ht2 (Ht Hti))); try done. by rewrite EO.
Qed.
End Child.

End Copyuvm.
End CopySpec.
