(* ===== verification/SwapInv.v ===== *)
(** * SwapInv: paging keeps the contents of memory

    The invariant of a process whose pages are partly in memory and partly in
    its swap file, and the theorems that evicting a page and bringing one back
    keep the contents of every page, of this process and of all others. *)

From S2P Require Import Prelude Mmu Phys Config Kalloc PageTable Vmspace State PageList.
From S2P Require Import Swap Policy.

(** ** The swap file

    What paging expects of the file system: a swap file is a sequence of
    bytes; a write that begins within it or at its end succeeds and extends it
    as needed, as long as it stays within 17 pages; a read within it returns
    the bytes. *)

Definition splice (off : nat) (b c : list Z) : list Z :=
  take off c ++ b ++ drop (off + length b) c.

Class SwapFile (F : Type) `{FileSystem F} := {
  sf_holds : F → Z → list Z → Prop;
  sf_write : ∀ x f c off b, sf_holds x f c →
    (off ≤ length c)%nat → Z.of_nat (off + length b) ≤ 17 * PGSIZE →
    ∃ x', fs_write_at f (Z.of_nat off) b x = Ok (Z.of_nat (length b)) x' ∧
      sf_holds x' f (splice off b c);
  sf_read : ∀ x f c off n, sf_holds x f c → (off + n ≤ length c)%nat →
    ∃ x', fs_read_at f (Z.of_nat off) (Z.of_nat n) x =
        Ok (Z.of_nat n, take n (drop off c)) x' ∧ sf_holds x' f c
}.

Lemma length_splice off b c :
  (off ≤ length c)%nat → length (splice off b c) = (length c `max` (off + length b))%nat.
Proof. intros. unfold splice. rewrite !length_app, length_take, length_drop. lia. Qed.

Lemma lookup_splice off b c k :
  (off ≤ length c)%nat →
  splice off b c !! k =
    if decide (off ≤ k < off + length b)%nat then b !! (k - off)%nat else c !! k.
Proof.
  intros Ho. unfold splice. destruct (decide (k < off)%nat).
  - rewrite lookup_app_l by (rewrite length_take; lia). rewrite lookup_take_lt by done.
    by rewrite decide_False by lia.
  - rewrite lookup_app_r by (rewrite length_take; lia). rewrite length_take.
    replace (off `min` length c)%nat with off by lia. case_decide.
    + by rewrite lookup_app_l by lia.
    + rewrite lookup_app_r by lia. rewrite lookup_drop. f_equal. lia.
Qed.

Section SwapInv.
Context `{Config} {F : Type} `{SwapFile F}.

(** ** Page-table entries of evicted pages *)

Definition out_entry (e : Z) : Z := Z.lor (Z.land e (notu PTE_P)) PTE_PG.

Lemma out_entry_bits e :
  is_u32 e → is_u32 (out_entry e) ∧ has (out_entry e) PTE_P = false ∧
  has (out_entry e) PTE_PG = true ∧ PTE_ADDR (out_entry e) = PTE_ADDR e.
Proof.
  intros He. unfold out_entry. split; [apply is_u32_lor; [by apply is_u32_land|done]|].
  split; [by flags|]. split; [by flags|]. by rewrite PTE_ADDR_set, PTE_ADDR_clear.
Qed.

(** Owners without one mapping. *)
Definition drop_owner (O : Z → gset (Z * Z)) (pg v : Z) : Z → gset (Z * Z) :=
  λ f, O f ∖ {[(pg, v)]}.

Section Unmap.
Context (d : Z) (PG : list Z) (ph : phys) (L : list Z) (O : Z → gset (Z * Z)) (X : Z → Z).
Context (pg va t f : Z).
Hypothesis Hinv : vm_inv d PG ph L O X.
Hypothesis Hpg : pg ∈ PG.
Hypothesis Hva : user_va_ok va.
Hypothesis Ht : tab (mem ph) pg (PDX va) = Some t.
Hypothesis Hin : (pg, vpn va) ∈ O f.

(** Storing an entry that is not present. *)
Lemma put_absent e :
  is_u32 e → has e PTE_P = false →
  vm_inv d PG (pte_put t va e ph) L (drop_owner O pg (vpn va)) (fupd X f (X f + 1)).
Proof.
  intros He HP. destruct (user_va_vpn va Hva) as [Hu Hv].
  eapply vm_inv_ext; [eapply vm_inv_put;
    [exact Hinv|exact Hpg|exact Hv|by apply (put_post d PG ph L O X)|split; by rewrite HP]|..].
  - intros h. unfold put_owner, drop_owner. rewrite HP. rewrite decide_False by naive_solver.
    by rewrite union_empty_r_L.
  - intros h. unfold put_extra, fupd. case_decide as Hh.
    + subst h. rewrite put_owner_old; [lia|done|by rewrite HP].
    + rewrite put_owner_ne; [lia| |by rewrite HP]. intros Hin'. apply Hh.
      eapply owner_unique; [apply Hinv|exact Hin'|exact Hin].
Qed.

Lemma setFlags_out :
  let e := pte_of (mem ph) pg (vpn va) in
  ∃ ph', setFlagsOnSwap pg va false ph = Ok tt ph' ∧
    vm_inv d PG ph' L (drop_owner O pg (vpn va)) (fupd X f (X f + 1)) ∧
    kload32 (t + 4 * PTX va) ph' = Ok (out_entry e) ph' ∧
    (∀ pg' v', pg' ∈ PG → user_vpn v' → pte_of (mem ph') pg' v' =
      if decide (pg' = pg ∧ v' = vpn va) then out_entry e else pte_of (mem ph) pg' v') ∧
    (∀ w, valid_page w → w ∉ L → ¬ pt_page (mem ph) PG w →
       agree_page (mem ph) (mem ph') w ∧ ¬ pt_page (mem ph') PG w).
Proof.
  intros e. destruct (user_va_vpn va Hva) as [Hu Hv].
  destruct (walk_mapped d PG ph L O X Hinv pg va f Hva Hin) as (t' & Ht' & Ew & Enz & El).
  rewrite Ht in Ht'. injection Ht' as <-. fold e in El.
  assert (He : is_u32 e) by apply pte_of_u32. set (e1 := Z.land e (notu PTE_P)).
  assert (He1 : is_u32 e1) by (by apply is_u32_land).
  assert (HP1 : has e1 PTE_P = false) by (unfold e1; by flags).
  destruct (out_entry_bits e He) as (Heo & HPo & _).
  pose proof (put_absent e1 He1 HP1) as Hinv1.
  pose proof (put_post d PG ph L O X pg va t Hinv Hpg Hva Ht e1 He1) as Hpost1.
  pose proof (put_tab d PG ph L O X pg va t Hinv Hpg Ht e1 He1) as Ht1.
  pose proof (put_pte_of d PG ph L O X pg va t Hinv Hpg Hva Ht e1) as Hpte1.
  set (ph1 := pte_put t va e1 ph) in *.
  pose proof (put_post d PG ph1 L _ _ pg va t Hinv1 Hpg Hva Ht1 (out_entry e) Heo) as Hpost2.
  pose proof (put_tab d PG ph1 L _ _ pg va t Hinv1 Hpg Ht1 (out_entry e) Heo) as Ht2.
  pose proof (put_pte_of d PG ph1 L _ _ pg va t Hinv1 Hpg Hva Ht1 (out_entry e)) as Hpte2.
  set (ph2 := pte_put t va (out_entry e) ph1) in *.
  assert (Hinv2 : vm_inv d PG ph2 L (drop_owner O pg (vpn va)) (fupd X f (X f + 1))).
  { eapply vm_inv_ext; [eapply vm_inv_put; [exact Hinv1|exact Hpg|exact Hv|exact Hpost2|split; by rewrite HPo]|..].
    - intros h. apply put_owner_ne; [unfold drop_owner; set_solver|by rewrite HPo].
    - intros h. unfold put_extra. rewrite put_owner_ne; [lia|unfold drop_owner; set_solver|by rewrite HPo]. }
  exists ph2. split; [|split; [done|split; [|split]]].
  - unfold setFlagsOnSwap. erewrite bind_ok by exact Ew. rewrite Enz.
    erewrite bind_ok by exact El. fold e1.
    erewrite bind_ok by (eapply kstore_pte; [apply Hinv|done..]).
    erewrite bind_ok by (eapply kload_pte; [apply Hinv1|apply Hpg|done]).
    rewrite lookup_pte_vpn, Hpte1, decide_True by done.
    eapply kstore_pte; [apply Hinv1|done..].
  - erewrite kload_pte; [|apply Hinv2|apply Hpg|done]. by rewrite lookup_pte_vpn, Hpte2, decide_True.
  - intros pg' v' Hpg' Hv'. rewrite Hpte2 by done. case_decide as Hd; [done|].
    by rewrite Hpte1, decide_False.
  - intros w Hw HwL Hwp.
    assert (Hwp1 : ¬ pt_page (mem ph1) PG w) by (rewrite (vp_pt _ _ _ _ _ _ _ Hpost1); tauto).
    split; [eapply agree_page_trans; [by apply (vp_frame _ _ _ _ _ _ _ Hpost1)|by apply (vp_frame _ _ _ _ _ _ _ Hpost2)]|].
    rewrite (vp_pt _ _ _ _ _ _ _ Hpost2). tauto.
Qed.

(** Taking a page away: the entry is marked paged out and the frame given
    back.  Everything else the processes see stays. *)
Lemma evict_phys :
  X f = 0 →
  let e := pte_of (mem ph) pg (vpn va) in
  ∃ ph1 ph2 L', setFlagsOnSwap pg va false ph = Ok tt ph1 ∧
    kload32 (t + 4 * PTX va) ph1 = Ok (out_entry e) ph1 ∧ kfree f ph1 = Ok tt ph2 ∧
    vm_inv d PG ph2 L' (drop_owner O pg (vpn va)) X ∧ (length L ≤ length L')%nat ∧
    (∀ pg' v', pg' ∈ PG → user_vpn v' → pte_of (mem ph2) pg' v' =
      if decide (pg' = pg ∧ v' = vpn va) then out_entry e else pte_of (mem ph) pg' v') ∧
    (∀ pg' va', pg' ∈ PG → user_va_ok va' → ¬ (pg' = pg ∧ vpn va' = vpn va) →
       user_byte (mem ph2) pg' va' = user_byte (mem ph) pg' va').
Proof.
  intros HX e. destruct setFlags_out as (ph1 & E1 & Hinv1 & El & Hpte1 & Hag1). fold e in El, Hpte1.
  destruct (vi_page _ _ _ _ _ _ Hinv _ _ _ Hin) as (Hf & HfL & Hfp).
  destruct (Hag1 f Hf HfL Hfp) as [_ Hfp1].
  destruct (vm_inv_kfree d PG ph1 L _ _ f Hinv1 Hf HfL Hfp1) as (ph2 & E2 & Hinv2 & Hag2 & _).
  { unfold fupd. rewrite decide_True by done. lia. }
  assert (Hpte2 : ∀ pg' v', pg' ∈ PG → pte_of (mem ph2) pg' v' = pte_of (mem ph1) pg' v').
  { intros pg' v' Hpg'. apply (lookup_pte_frame _ _ PG); [|done]. intros w Hw.
    destruct (pt_page_valid _ _ _ _ (vi_wf _ _ _ _ _ _ Hinv1) Hw). apply Hag2; [done|].
    left. by intros ->. }
  exists ph1, ph2, (kfree_free f ph1 L). split; [done|]. split; [done|]. split; [done|].
  split; [|split; [unfold kfree_free; case_match; simpl; lia|split]].
  - eapply vm_inv_ext; [exact Hinv2|done|]. intros h. unfold fupd.
    case_decide; [|done]. subst h. rewrite decide_True by done. lia.
  - intros pg' v' Hpg' Hv'. by rewrite Hpte2, Hpte1.
  - intros pg' va' Hpg' Hva' Hne. destruct (user_va_vpn va' Hva') as [_ Hv'].
    apply (user_byte_same d PG ph L O X); try done.
    + rewrite Hpte2, Hpte1, decide_False by done. done.
    + intros h Hh. destruct (vi_page _ _ _ _ _ _ Hinv _ _ _ Hh) as (Hhv & HhL & Hhp).
      eapply agree_page_trans; [by apply Hag1|]. apply Hag2; [done|].
      destruct (decide (h = f)) as [->|]; [right|by left]. intros E.
      assert (Hd : (pg', vpn va') ∈ drop_owner O pg (vpn va) f).
      { unfold drop_owner. apply elem_of_difference. split; [done|].
        intros [= -> Ev]%elem_of_singleton. by apply Hne. }
      rewrite E in Hd. by apply not_elem_of_empty in Hd.
Qed.
End Unmap.

(** ** The invariant *)

(** Byte [k] of a page of the process with the directory [pd]: in memory, or
    in the swap file with the contents [c]. *)
Definition page_byte (pd : Z) (m : memory) (c : list Z) (q : page_meta_data) (k : nat) : option Z :=
  match pg_state q with
  | IN_MEMORY => user_byte m pd (page_id q + Z.of_nat k)
  | IN_DISK => c !! (Z.to_nat (offset_in_file q) + k)%nat
  | NOT_USED => None
  end.

Record swap_ok (p : proc) (ph : phys) (g : paging) (x : F) (O : Z → gset (Z * Z)) (X : Z → Z)
    (L : list nat) (c : list Z) : Prop := {
  so_paging : paging_ok g L;
  so_file : ∃ f, swapFile p = Some f ∧ sf_holds x f c;
  so_bytes : Forall is_u8 c;
  so_max : Z.of_nat (length c) ≤ 17 * PGSIZE;
  so_slots : ∀ k b, available_Offsets g !! k = Some b → b ≠ 0 →
    4096 * (Z.of_nat k + 1) ≤ Z.of_nat (length c);
  so_mem : ∀ j q, pages g !! j = Some q → pg_state q = IN_MEMORY →
    ∃ f, (pgdir p, vpn (page_id q)) ∈ O f ∧ X f = 0;
  so_disk : ∀ j q, pages g !! j = Some q → on_disk q →
    has (pte_of (mem ph) (pgdir p) (vpn (page_id q))) PTE_P = false ∧
    has (pte_of (mem ph) (pgdir p) (vpn (page_id q))) PTE_PG = true
}.

(** The pages of the process and their contents are the same. *)
Definition same_pages (pd : Z) (m : memory) (c : list Z) (g : paging)
    (m' : memory) (c' : list Z) (g' : paging) : Prop :=
  length (pages g') = length (pages g) ∧
  ∀ j q q', pages g !! j = Some q → pages g' !! j = Some q' →
    page_id q' = page_id q ∧ (pg_state q' = NOT_USED ↔ pg_state q = NOT_USED) ∧
    ∀ k, Z.of_nat k < 4096 → page_byte pd m' c' q' k = page_byte pd m c q k.

Lemma aligned_vpn a : a mod 4096 = 0 → 4096 * vpn a = a.
Proof. intros. unfold vpn. dlia. Qed.

Lemma vpn_off a k : a mod 4096 = 0 → Z.of_nat k < 4096 → vpn (a + Z.of_nat k) = vpn a.
Proof. intros. unfold vpn. dlia. Qed.

Lemma user_off a k : 0 ≤ a < KERNBASE → a mod 4096 = 0 → Z.of_nat k < 4096 → user_va_ok (a + Z.of_nat k).
Proof. intros. unfold user_va_ok. klia. Qed.

Section Evict.
Context (d : Z) (PG : list Z) (ph : phys) (Lf : list Z) (O : Z → gset (Z * Z)) (X : Z → Z).
Context (s : kernel F) (i : nat) (p : proc) (g : paging) (x : F) (c : list Z).
Context (A : list nat) (j : nat) (B : list nat).
Let pd := pgdir p.
Hypothesis Hruns : runs s i.
Hypothesis Hflag : global_pgdir_flag s ≠ 1.
Hypothesis Hinv : vm_inv d PG ph Lf O X.
Hypothesis Hok : swap_ok p ph g x O X (A ++ j :: B) c.
Hypothesis Hdisk : num_pages_disk g ≤ 16.

(** The evicted page, its frame and its slot. *)
Lemma evict_page :
  ∃ l f k, pages_meta_data g !! j = Some l ∧ pages g !! j = Some (page l) ∧
    pg_state (page l) = IN_MEMORY ∧ user_va_ok (page_id (page l)) ∧
    page_id (page l) mod 4096 = 0 ∧ (pd, vpn (page_id (page l))) ∈ O f ∧ X f = 0 ∧
    nextAvOffset g = Ok (Z.of_nat k) g ∧ (k < 17)%nat ∧ available_Offsets g !! k = Some 0 ∧
    4096 * Z.of_nat k ≤ Z.of_nat (length c).
Proof.
  destruct Hok as [[[Hd Hnull] Hm Hr] _ _ _ Hs Hmem _].
  destruct (dll_links _ _ Hd (length A) j) as (l & El & _); [by apply list_lookup_middle|].
  assert (Ep : pages g !! j = Some (page l)) by (apply pages_lookup; eauto).
  assert (Hst : pg_state (page l) = IN_MEMORY) by (apply (mo_mem _ _ _ _ Hm j _ Ep); set_solver).
  destruct (Hmem j _ Ep Hst) as (f & Hin & HX).
  destruct (mo_user _ _ _ _ Hm j _ Ep) as [Hal Hu]; [congruence|].
  destruct (nextAvOffset_spec _ _ Hm Hdisk) as (k & Ek & Hk & Hk0 & Hbelow).
  exists l, f, k. do 10 (split; [done|]).
  destruct k as [|k]; [lia|]. destruct (Hbelow k) as (b & Eb & Hb); [lia|].
  pose proof (Hs k b Eb Hb). lia.
Qed.


Definition slot (k : nat) : nat := Z.to_nat (4096 * Z.of_nat k).

Lemma movePageToFile_spec l f k :
  pages_meta_data g !! j = Some l → user_va_ok (page_id (page l)) →
  page_id (page l) mod 4096 = 0 → (pd, vpn (page_id (page l))) ∈ O f →
  nextAvOffset g = Ok (Z.of_nat k) g → (k < 17)%nat →
  4096 * Z.of_nat k ≤ Z.of_nat (length c) →
  ∃ sf x' g1, swapFile p = Some sf ∧
    movePageToFile j (frame s i p ph g x (V2P pd)) = Ok 0 (frame s i p ph g1 x' (V2P pd)) ∧
    meta_to_file j (Z.of_nat k) g = Ok tt g1 ∧
    sf_holds x' sf (splice (slot k) (ld_bytes (mem ph) (V2P f) (Z.to_nat PGSIZE)) c).
Proof.
  intros El Hu Hal Hin Ek Hk Hlen. destruct (so_file _ _ _ _ _ _ _ _ Hok) as (sf & Esf & Hc).
  set (b := ld_bytes (mem ph) (V2P f) (Z.to_nat PGSIZE)).
  assert (Hb : length b = Z.to_nat PGSIZE) by apply length_ld_bytes.
  assert (Eslot : Z.of_nat (slot k) = PGSIZE * Z.of_nat k) by (unfold slot, PGSIZE; lia).
  destruct (sf_write x sf c (slot k) b Hc) as (x' & Ew & Hc').
  { unfold slot. lia. }
  { unfold slot. rewrite Hb. unfold PGSIZE. lia. }
  destruct (walk_mapped d PG ph Lf O X Hinv pd _ f Hu Hin) as (t & Ht & Ewk & Enz & Eld).
  assert (HP : has (pte_of (mem ph) pd (vpn (page_id (page l)))) PTE_P = true)
    by (by apply (vi_own _ _ _ _ _ _ Hinv) in Hin as (_ & _ & ? & _)).
  eexists sf, x', _. split; [done|]. split; [|split; [by apply meta_to_file_eq|done]].
  unfold movePageToFile. erewrite bind_ok by (by apply swap_pgdir_eq).
  erewrite bind_ok by (by apply get_link).
  erewrite bind_ok by (apply on_phys_frame, Ewk). rewrite Enz.
  erewrite bind_ok by (apply on_phys_frame, Eld). rewrite HP. cbn [negb].
  erewrite bind_ok by (apply on_paging_frame; [done|exact Ek]).
  rewrite (proj2 (Z.eqb_neq (Z.of_nat k) (-1))) by lia.
  rewrite <- (aligned_vpn _ Hal) at 1.
  erewrite bind_ok by (by eapply read_user_page). fold b.
  erewrite bind_ok.
  2: { unfold writeToSwapFile. erewrite bind_ok by (by apply myproc_frame).
    cbn [swapFile set_paging_]. rewrite Esf, <- Eslot. by apply on_fs_frame. }
  rewrite Hb, (proj2 (Z.eqb_neq _ (-1))) by (unfold PGSIZE; lia).
  erewrite bind_ok by (apply on_paging_frame; [done|by apply meta_to_file_eq]). done.
Qed.

(** The invariant once the page [j] has moved to slot [k]. *)
Section Evicted.
Context (ph2 : phys) (g2 : paging) (x2 : F) (l : page_link) (f : Z) (k : nat).
Hypothesis Ep : pages g !! j = Some (page l).
Hypothesis Hst : pg_state (page l) = IN_MEMORY.
Hypothesis Hin : (pd, vpn (page_id (page l))) ∈ O f.
Hypothesis Hk : (k < 17)%nat.
Hypothesis Hk0 : available_Offsets g !! k = Some 0.
Hypothesis Hklen : 4096 * Z.of_nat k ≤ Z.of_nat (length c).
Let b := ld_bytes (mem ph) (V2P f) (Z.to_nat PGSIZE).
Let c2 := splice (slot k) b c.
Let O2 := drop_owner O pd (vpn (page_id (page l))).
Hypothesis Hg2 : paging_ok g2 (A ++ B).
Hypothesis Hp2 : pages g2 = <[j:=page_out k (page l)]> (pages g).
Hypothesis Ho2 : available_Offsets g2 = <[k:=1]> (available_Offsets g).
Hypothesis Hf2 : ∃ sf, swapFile p = Some sf ∧ sf_holds x2 sf c2.
Hypothesis Hpte2 : ∀ pg' v', pg' ∈ PG → user_vpn v' → pte_of (mem ph2) pg' v' =
  if decide (pg' = pd ∧ v' = vpn (page_id (page l)))
  then out_entry (pte_of (mem ph) pd (vpn (page_id (page l)))) else pte_of (mem ph) pg' v'.
Hypothesis Hub2 : ∀ pg' va', pg' ∈ PG → user_va_ok va' →
  ¬ (pg' = pd ∧ vpn va' = vpn (page_id (page l))) →
  user_byte (mem ph2) pg' va' = user_byte (mem ph) pg' va'.

Lemma ev_len : length b = Z.to_nat PGSIZE ∧ length c2 = (length c `max` (slot k + Z.to_nat PGSIZE))%nat.
Proof.
  assert (E : length b = Z.to_nat PGSIZE) by apply length_ld_bytes. split; [done|].
  unfold c2. rewrite length_splice by (unfold slot; lia). by rewrite E.
Qed.

(** Another page in use has another page number. *)
Lemma ev_other j' q :
  j' ≠ j → pages g !! j' = Some q → pg_state q ≠ NOT_USED →
  vpn (page_id q) ≠ vpn (page_id (page l)).
Proof.
  intros Hne Eq Hq Ev. pose proof (po_meta _ _ (so_paging _ _ _ _ _ _ _ _ Hok)) as Hm.
  destruct (mo_user _ _ _ _ Hm _ _ Eq Hq) as [Ha _].
  destruct (mo_user _ _ _ _ Hm _ _ Ep) as [Hb _]; [congruence|].
  apply Hne. eapply (mo_ids _ _ _ _ Hm); [exact Eq|exact Ep|done|congruence|].
  rewrite <- (aligned_vpn _ Ha), <- (aligned_vpn _ Hb). by f_equal.
Qed.

Lemma ev_lookup j' q :
  pages g2 !! j' = Some q →
  (j' = j ∧ q = page_out k (page l)) ∨ (j' ≠ j ∧ pages g !! j' = Some q).
Proof. rewrite Hp2, (lookup_insert_dec _ _ _ _ _ Ep). case_decide; naive_solver. Qed.

Lemma ev_user j' q :
  pages g !! j' = Some q → pg_state q ≠ NOT_USED →
  page_id q mod 4096 = 0 ∧ 0 ≤ page_id q < KERNBASE ∧ user_vpn (vpn (page_id q)).
Proof.
  intros Eq Hq. pose proof (po_meta _ _ (so_paging _ _ _ _ _ _ _ _ Hok)) as Hm.
  destruct (mo_user _ _ _ _ Hm _ _ Eq Hq) as [Ha Hb]. split; [done|]. split; [done|].
  by apply user_va_vpn.
Qed.

Lemma ev_pd : pd ∈ PG.
Proof. by apply (vi_own _ _ _ _ _ _ Hinv) in Hin as (? & _). Qed.

Lemma ev_ok : swap_ok p ph2 g2 x2 O2 X (A ++ B) c2.
Proof.
  pose proof Hok as [Hpg _ Hby Hmax Hsl Hmem Hdk]. destruct ev_len as [Hbl Hcl]. pose proof ev_pd as Hpd.
  split; [done|done| | | | |].
  - unfold c2, splice. apply Forall_app. split; [by apply Forall_take|]. apply Forall_app.
    split; [|by apply Forall_drop]. apply Forall_forall. intros y (n & -> & _)%list_elem_of_fmap. apply ld8_range.
  - rewrite Hcl. unfold slot, PGSIZE in *. lia.
  - intros k' b'. rewrite Ho2, Hcl. destruct (decide (k = k')) as [<-|Hne].
    + intros _ _. unfold slot, PGSIZE. lia.
    + rewrite list_lookup_insert_ne by done. intros E1 E2. pose proof (Hsl k' b' E1 E2). lia.
  - intros j' q [[-> ->]|[Hne Eq]]%ev_lookup Hq; [done|].
    destruct (Hmem j' q Eq Hq) as (f' & Hf' & HX'). exists f'. split; [|done].
    unfold O2, drop_owner. apply elem_of_difference. split; [done|].
    intros [= E]%elem_of_singleton. eapply ev_other; [exact Hne|exact Eq|congruence|exact E].
  - intros j' q [[-> ->]|[Hne Eq]]%ev_lookup Hq.
    + destruct (ev_user j _ Ep) as (_ & _ & Hv); [congruence|]. cbn [page_out page_id].
      rewrite Hpte2, decide_True by done.
      by destruct (out_entry_bits _ (pte_of_u32 (mem ph) pd (vpn (page_id (page l))))) as (_ & ? & ? & _).
    + assert (Hqu : pg_state q ≠ NOT_USED) by (unfold on_disk in Hq; congruence).
      destruct (ev_user j' q Eq Hqu) as (_ & _ & Hv). rewrite Hpte2 by done.
      rewrite decide_False; [by apply (Hdk j')|].
      intros [_ E]. by eapply ev_other.
Qed.

Lemma ev_same : same_pages pd (mem ph) c g (mem ph2) c2 g2.
Proof.
  pose proof Hok as [Hpg _ Hby Hmax Hsl Hmem Hdk]. destruct ev_len as [Hbl Hcl]. pose proof ev_pd as Hpd.
  split; [by rewrite Hp2, length_insert|].
  intros j' q q' Eq [[-> ->]|[Hne Eq']]%ev_lookup.
  - assert (q = page l) as -> by congruence. cbn [page_out page_id pg_state]. rewrite Hst.
    split; [done|]. split; [split; congruence|]. intros n Hn. unfold page_byte.
    cbn [page_out pg_state offset_in_file]. rewrite Hst.
    destruct (ev_user j _ Ep) as (Ha & Hu & Hv); [congruence|].
    rewrite <- (aligned_vpn _ Ha), (user_byte_page _ _ _ _ _ _ _ _ _ n Hinv Hin Hn).
    unfold c2. rewrite lookup_splice by (unfold slot; lia). fold (slot k).
    rewrite decide_True by (rewrite Hbl; unfold PGSIZE; lia).
    replace (slot k + n - slot k)%nat with n by lia. apply lookup_ld_bytes. unfold PGSIZE. lia.
  - assert (q' = q) as -> by congruence. split; [done|]. split; [done|]. intros n Hn. unfold page_byte.
    destruct (pg_state q) eqn:Eq2; [done|..].
    + destruct (ev_user j' q Eq) as (Ha & Hu & Hv); [congruence|].
      apply Hub2; [done|by apply user_off|]. rewrite vpn_off by done. intros [_ E].
      eapply ev_other; [exact Hne|exact Eq|congruence|exact E].
    + destruct (mo_slot _ _ _ _ (po_meta _ _ Hpg) j' q Eq Eq2) as (k' & c' & Eo & Ec & Hc').
      unfold c2. rewrite lookup_splice by (unfold slot; lia).
      rewrite decide_False; [done|]. assert (k ≠ k') by (intros ->; congruence).
      rewrite Hbl, Eo. unfold slot, PGSIZE. lia.
Qed.
End Evicted.

Lemma moveToDisk_spec :
  ∃ ph' g' x' c' Lf' O',
    moveToDisk (Some j) (frame s i p ph g x (V2P pd)) = Ok 0 (frame s i p ph' g' x' (V2P pd)) ∧
    vm_inv d PG ph' Lf' O' X ∧ swap_ok p ph' g' x' O' X (A ++ B) c' ∧
    same_pages pd (mem ph) c g (mem ph') c' g' ∧
    (∀ pg va, pg ∈ PG → pg ≠ pd → user_va_ok va →
       user_byte (mem ph') pg va = user_byte (mem ph) pg va) ∧
    (length Lf ≤ length Lf')%nat ∧ num_pages_disk g' = num_pages_disk g + 1 ∧
    (∀ j', j' ≠ j → pages g' !! j' = pages g !! j').
Proof.
  destruct evict_page as (l & f & k & El & Ep & Hst & Hu & Hal & Hin & HX & Ek & Hk & Hk0 & Hklen).
  destruct (movePageToFile_spec l f k El Hu Hal Hin Ek Hk Hklen) as (sf & x' & g1 & Esf & Em & Eg1 & Hc').
  destruct (paging_to_file g A j B l k (so_paging _ _ _ _ _ _ _ _ Hok) El Hk0 Hdisk)
    as (g1' & g2 & Eg1' & Eg2 & Hg3 & Hp3 & Ho3 & Hd3).
  assert (g1' = g1) as -> by congruence.
  destruct (walk_mapped d PG ph Lf O X Hinv pd _ f Hu Hin) as (t & Ht & Ewk & Enz & Eld).
  pose proof (ev_pd l f Hin) as Hpd.
  destruct (evict_phys d PG ph Lf O X pd (page_id (page l)) t f Hinv Hpd Hu Ht Hin HX)
    as (ph1 & ph2 & Lf' & E1 & El1 & E2 & Hinv2 & Hlen & Hpte2 & Hub2).
  set (g3 := set_num_pages_ram (u32 (num_pages_ram g2 - 1)) g2) in *.
  eexists ph2, g3, x', _, Lf', _. split; [|split; [exact Hinv2|split; [|split; [|split; [|split; [done|split; [done|]]]]]]].
  - unfold moveToDisk. erewrite bind_ok by (by apply swap_pgdir_eq).
    erewrite bind_ok by (by apply get_link).
    erewrite bind_ok by (apply on_phys_frame, Ewk).
    erewrite bind_ok by exact Em. change (0 =? -1) with false. cbv iota.
    erewrite bind_ok by (by apply on_paging_frame).
    erewrite bind_ok by (apply on_paging_frame; [done|exact Eg2]).
    erewrite bind_ok by (apply on_phys_frame, E1).
    erewrite bind_ok by (apply on_phys_frame, El1).
    destruct (out_entry_bits _ (pte_of_u32 (mem ph) pd (vpn (page_id (page l))))) as (_ & _ & _ & ->).
    erewrite bind_ok.
    2: { apply on_phys_frame. fold (frame_of (pte_of (mem ph) pd (vpn (page_id (page l))))).
      apply (vi_own _ _ _ _ _ _ Hinv) in Hin as (_ & _ & _ & ->). exact E2. }
    erewrite bind_ok by apply lcr3_frame.
    by erewrite bind_ok by (by apply on_paging_frame).
  - eapply ev_ok; eauto.
  - eapply ev_same; eauto.
  - intros pg va Hpg Hne Hva. apply Hub2; [done|done|]. intros [-> _]. done.
  - intros j' Hne. rewrite Hp3. by apply list_lookup_insert_ne.
Qed.

End Evict.

(** ** Bringing a page back *)

Definition in_entry (n : Z) : Z := Z.lor (Z.lor (V2P n) (Z.lor PTE_W PTE_U)) PTE_P.

Lemma in_entry_bits n :
  valid_page n → is_u32 (in_entry n) ∧ has (in_entry n) PTE_P = true ∧ frame_of (in_entry n) = n.
Proof.
  intros Hn. unfold in_entry. rewrite <- Z.lor_assoc.
  destruct (mk_pte n (Z.lor (Z.lor PTE_W PTE_U) PTE_P) Hn) as (Hu & Hf & _); [done|].
  split; [done|]. split; [|done]. rewrite Z.lor_assoc. by flags.
Qed.

Section Remap.
Context (d : Z) (PG : list Z) (ph : phys) (n : Z) (L : list Z) (O : Z → gset (Z * Z)) (X : Z → Z).
Context (pg va t : Z) (b : list Z).
Hypothesis Hinv : vm_inv d PG ph (n :: L) O X.
Hypothesis Hpg : pg ∈ PG.
Hypothesis Hva : user_va_ok va.
Hypothesis Hal : va mod 4096 = 0.
Hypothesis Ht : tab (mem ph) pg (PDX va) = Some t.
Hypothesis HP0 : has (pte_of (mem ph) pg (vpn va)) PTE_P = false.
Hypothesis Hlen : length b = Z.to_nat PGSIZE.
Hypothesis Hby : Forall is_u8 b.
Let ph0 := kalloc_post n ph.
Let ph1 := pte_put t va (in_entry n) ph0.
Let O1 := put_owner O pg (vpn va) (in_entry n).
Let ph2 := set_mem (st_bytes (mem ph1) (V2P n) b) ph1.

Lemma remap_fresh :
  vm_inv d PG ph0 L O (fupd X n 1) ∧ O n = ∅ ∧ valid_page n ∧ n ∉ L ∧
  ¬ pt_page (mem ph) PG n ∧ X n = 0 ∧ kalloc ph = Ok n ph0.
Proof.
  destruct (vm_inv_kalloc _ _ _ _ _ _ _ Hinv) as (E & Hi' & HO & Hv & Hn & Hp).
  split; [done|]. split; [done|]. split; [done|]. split; [done|]. split; [done|].
  split; [|done]. apply (vi_zero _ _ _ _ _ _ Hinv). left. left.
Qed.

Lemma remap_map :
  vm_inv d PG ph1 L O1 X ∧ ¬ pt_page (mem ph1) PG n ∧ (pg, vpn va) ∈ O1 n ∧
  tab (mem ph1) pg (PDX va) = Some t ∧
  mappages pg va PGSIZE (V2P n) (Z.lor PTE_W PTE_U) ph0 = Ok 0 ph1 ∧
  (∀ pg' va', pg' ∈ PG → user_va_ok va' → ¬ (pg' = pg ∧ vpn va' = vpn va) →
     user_byte (mem ph1) pg' va' = user_byte (mem ph) pg' va').
Proof.
  destruct remap_fresh as (Hi0 & HO & Hn & HnL & Hnp & HXn & _).
  destruct (in_entry_bits n Hn) as (Hu & HP & Hf). destruct (user_va_vpn va Hva) as [Huv _].
  destruct (put_fresh d PG ph0 L O (fupd X n 1) pg va t Hi0 Hpg Hva Ht n (in_entry n))
    as (Hi1 & Hag & Hub); try done.
  { unfold fupd. by rewrite decide_True. }
  split; [|split; [by apply Hag|split; [|split; [|split; [|done]]]]].
  - eapply vm_inv_ext; [exact Hi1|done|]. intros h. unfold fupd. repeat case_decide; congruence.
  - apply elem_put_owner. by rewrite decide_True.
  - by apply (put_tab d PG ph0 L O (fupd X n 1)).
  - eapply mappages_one; [apply Hi0|done| |done|done|].
    + unfold user_va_ok in Hva. klia.
    + by rewrite lookup_pte_vpn.
Qed.

Lemma remap_data :
  vm_inv d PG ph2 L O1 X ∧ kstore_bytes n b ph1 = Ok tt ph2 ∧
  tab (mem ph2) pg (PDX va) = Some t ∧ pte_of (mem ph2) pg (vpn va) = in_entry n ∧
  (∀ pg' va', pg' ∈ PG → user_va_ok va' → ¬ (pg' = pg ∧ vpn va' = vpn va) →
     user_byte (mem ph2) pg' va' = user_byte (mem ph) pg' va').
Proof.
  destruct remap_fresh as (Hi0 & HO & Hn & HnL & Hnp & HXn & _).
  destruct remap_map as (Hi1 & Hnp1 & Hin1 & Ht1 & _ & Hub1).
  destruct (in_entry_bits n Hn) as (Hu & HP & Hf). destruct (user_va_vpn va Hva) as [Huv Hv].
  assert (Hag : ∀ w, valid_page w → w ≠ n → agree_page (mem ph1) (mem ph2) w).
  { intros w Hw Hne y Hy. apply ld8_st_bytes_out. rewrite Hlen.
    destruct (pages_disjoint n w Hn Hw (not_eq_sym Hne)); klia. }
  assert (Hptf : ∀ w, pt_page (mem ph1) PG w → agree_page (mem ph1) (mem ph2) w).
  { intros w Hw. destruct (pt_page_valid _ _ _ _ (vi_wf _ _ _ _ _ _ Hi1) Hw). apply Hag; [done|].
    by intros ->. }
  split; [by apply (vm_inv_data _ _ _ _ _ _ n)|]. split; [|split; [|split]].
  - apply kstore_bytes_eq, valid_page_kaddr; [done|]. rewrite Hlen. klia.
  - rewrite <- Ht1. apply tab_frame; [apply Hptf; by left|apply PDX_range].
  - unfold pte_of. rewrite (lookup_pte_frame (mem ph1) (mem ph2) PG) by done.
    fold (pte_of (mem ph1) pg (vpn va)). unfold ph1.
    rewrite (put_pte_of d PG ph0 L O (fupd X n 1) pg va t) by done. by rewrite decide_True.
  - intros pg' va' Hpg' Hva' Hne. rewrite <- Hub1 by done.
    apply (user_byte_same d PG ph1 L O1 X); try done.
    + replace (pte_of (mem ph2) pg' (vpn va')) with (pte_of (mem ph1) pg' (vpn va')); [done|].
      symmetry. by apply (lookup_pte_frame _ _ PG).
    + intros h Hh. destruct (vi_page _ _ _ _ _ _ Hi1 _ _ _ Hh) as (Hhv & _). apply Hag; [done|].
      intros ->. apply elem_put_owner in Hh. rewrite decide_False, HO in Hh; [set_solver|].
      intros [= -> E]. by apply Hne.
Qed.

(** [setFlagsOnSwap] with [swapIn] set keeps the entry. *)
Lemma remap_flags :
  ∃ ph3, setFlagsOnSwap pg va true ph2 = Ok tt ph3 ∧ vm_inv d PG ph3 L O1 X ∧
    same_user PG (mem ph2) (mem ph3) ∧
    ∀ pg' v', pg' ∈ PG → user_vpn v' → ¬ (pg' = pg ∧ v' = vpn va) →
      pte_of (mem ph3) pg' v' = pte_of (mem ph2) pg' v'.
Proof.
  destruct remap_fresh as (_ & HO & Hn & _). destruct remap_map as (_ & _ & Hin1 & _).
  destruct remap_data as (Hi2 & _ & Ht2 & He2 & _). destruct (in_entry_bits n Hn) as (Hu & HP & Hf).
  destruct (user_va_vpn va Hva) as [Huv Hv].
  assert (Hsub : O1 n ⊆ {[(pg, vpn va)]}) by (unfold O1, put_owner; rewrite HO; case_decide; set_solver).
  set (e2 := Z.land (in_entry n) (notu PTE_PG)). set (e3 := Z.lor e2 PTE_P).
  assert (Hu2 : is_u32 e2) by (by apply is_u32_land).
  assert (Hu3 : is_u32 e3) by (by apply is_u32_lor).
  assert (Hf2 : frame_of e2 = n) by (unfold frame_of, e2; by rewrite PTE_ADDR_clear).
  assert (Hf3 : frame_of e3 = n) by (unfold frame_of, e3; by rewrite PTE_ADDR_set).
  assert (HP2 : has e2 PTE_P = true) by (rewrite has_P in HP |- *; unfold e2; flags; done).
  assert (HP3 : has e3 PTE_P = true) by (unfold e3; by flags).
  destruct (put_flags d PG ph2 L O1 X pg va t Hi2 Hpg Hva Ht2 n e2) as [Hi3 Hs3]; [done..|].
  pose proof (put_tab d PG ph2 L O1 X pg va t Hi2 Hpg Ht2 e2 Hu2) as Ht3.
  pose proof (put_pte_of d PG ph2 L O1 X pg va t Hi2 Hpg Hva Ht2 e2) as Hpte3.
  destruct (put_flags d PG _ L O1 X pg va t Hi3 Hpg Hva Ht3 n e3) as [Hi4 Hs4]; [done..|].
  pose proof (put_pte_of d PG _ L O1 X pg va t Hi3 Hpg Hva Ht3 e3) as Hpte4.
  destruct (walk_mapped d PG ph2 L O1 X Hi2 pg va n Hva Hin1) as (t' & Ht' & Ew & Enz & El).
  assert (t' = t) as -> by congruence. rewrite He2 in El.
  eexists. split; [|split; [exact Hi4|split; [by eapply same_user_trans|]]].
  - unfold setFlagsOnSwap. erewrite bind_ok by exact Ew. rewrite Enz.
    erewrite bind_ok by exact El. fold e2.
    erewrite bind_ok by (eapply kstore_pte; [apply Hi2|done..]).
    erewrite bind_ok by (eapply kload_pte; [apply Hi3|apply Hpg|done]).
    rewrite lookup_pte_vpn, Hpte3, decide_True by done.
    eapply kstore_pte; [apply Hi3|done..].
  - intros pg' v' Hpg' Hv' Hne. by rewrite Hpte4, decide_False, Hpte3, decide_False.
Qed.

Lemma remap_byte k :
  Z.of_nat k < 4096 → user_byte (mem ph2) pg (va + Z.of_nat k) = b !! k.
Proof.
  intros Hk. destruct remap_map as (_ & _ & Hin1 & _). destruct remap_data as (Hi2 & _).
  rewrite <- (aligned_vpn va Hal), (user_byte_page _ _ _ _ _ _ _ _ _ k Hi2 Hin1 Hk).
  destruct (lookup_lt_is_Some_2 b k) as [y Ey]; [rewrite Hlen; unfold PGSIZE; lia|].
  unfold ph2. cbn [mem set_mem]. rewrite (ld8_st_bytes_in _ _ _ _ y Ey), Ey. f_equal.
  pose proof (proj1 (Forall_lookup _ _) Hby k y Ey) as Hy. unfold u8, is_u8 in *. dlia.
Qed.

Lemma remap_pte pg' v' :
  pg' ∈ PG → user_vpn v' → ¬ (pg' = pg ∧ v' = vpn va) →
  pte_of (mem ph2) pg' v' = pte_of (mem ph) pg' v'.
Proof.
  intros Hpg' Hv' Hne. destruct remap_fresh as (Hi0 & _ & Hn & _).
  destruct remap_map as (Hi1 & Hnp1 & _). destruct (in_entry_bits n Hn) as (Hu & _).
  transitivity (pte_of (mem ph1) pg' v').
  - apply (lookup_pte_frame _ _ PG); [|done]. intros w Hw y Hy. apply ld8_st_bytes_out. rewrite Hlen.
    destruct (pt_page_valid _ _ _ _ (vi_wf _ _ _ _ _ _ Hi1) Hw) as [Hwv _].
    destruct (pages_disjoint n w Hn Hwv); [by intros ->|klia|klia].
  - unfold ph1. rewrite (put_pte_of d PG ph0 L O (fupd X n 1) pg va t) by done.
    by rewrite decide_False.
Qed.
End Remap.

Section Restore.
Context (d : Z) (PG : list Z) (ph : phys) (n : Z) (Lf : list Z) (O : Z → gset (Z * Z)) (X : Z → Z).
Context (s : kernel F) (i : nat) (p : proc) (g : paging) (x : F) (c : list Z).
Context (L : list nat) (j : nat) (q : page_meta_data).
Let pd := pgdir p.
Hypothesis Hruns : runs s i.
Hypothesis Hflag : global_pgdir_flag s ≠ 1.
Hypothesis Hpd : pd ∈ PG.
Hypothesis Hinv : vm_inv d PG ph (n :: Lf) O X.
Hypothesis Hok : swap_ok p ph g x O X L c.
Hypothesis HL : L ≠ [].
Hypothesis Hj : pages g !! j = Some q.
Hypothesis Hq : on_disk q.

Lemma rs_page :
  ∃ l k, pages_meta_data g !! j = Some l ∧ page l = q ∧ offset_in_file q = 4096 * Z.of_nat k ∧
    (slot k + Z.to_nat PGSIZE ≤ length c)%nat ∧ Z.to_nat (offset_in_file q) = slot k ∧
    page_id q mod 4096 = 0 ∧ user_va_ok (page_id q) ∧
    ∃ t, tab (mem ph) pd (PDX (page_id q)) = Some t.
Proof.
  pose proof Hok as [Hpg _ _ _ Hsl _ Hdk]. pose proof (po_meta _ _ Hpg) as Hm.
  destruct (proj1 (pages_lookup g j q) Hj) as (l & El & Ep).
  destruct (mo_slot _ _ _ _ Hm j q Hj Hq) as (k & b & Eo & Eb & Hb).
  destruct (mo_user _ _ _ _ Hm j q Hj) as [Ha Hu]; [unfold on_disk in Hq; congruence|].
  pose proof (Hsl k b Eb Hb) as Hs. destruct (Hdk j q Hj Hq) as [_ HPG].
  exists l, k. split; [done|]. split; [done|]. split; [done|]. split; [unfold slot, PGSIZE; lia|].
  split; [unfold slot; by rewrite Eo|]. split; [done|]. split; [done|].
  apply pte_tab; [by apply user_va_vpn|]. intros E. fold pd in HPG. by rewrite E in HPG.
Qed.

Lemma rs_lookup g2 j' q' :
  pages g2 = <[j:=page_in q]> (pages g) → pages g2 !! j' = Some q' →
  (j' = j ∧ q' = page_in q) ∨ (j' ≠ j ∧ pages g !! j' = Some q').
Proof. intros ->. rewrite (lookup_insert_dec _ _ _ _ _ Hj). case_decide; naive_solver. Qed.

Lemma rs_other j' q' :
  j' ≠ j → pages g !! j' = Some q' → pg_state q' ≠ NOT_USED →
  vpn (page_id q') ≠ vpn (page_id q) ∧ page_id q' mod 4096 = 0 ∧ 0 ≤ page_id q' < KERNBASE ∧
  user_vpn (vpn (page_id q')).
Proof.
  intros Hne Eq Hq' . pose proof (po_meta _ _ (so_paging _ _ _ _ _ _ _ _ Hok)) as Hm.
  destruct (mo_user _ _ _ _ Hm _ _ Eq Hq') as [Ha Hua].
  destruct (mo_user _ _ _ _ Hm _ _ Hj) as [Hb _]; [unfold on_disk in Hq; congruence|].
  split; [|split; [done|split; [done|by apply user_va_vpn]]]. intros Ev. apply Hne.
  eapply (mo_ids _ _ _ _ Hm); [exact Eq|exact Hj|done|unfold on_disk in Hq; congruence|].
  rewrite <- (aligned_vpn _ Ha), <- (aligned_vpn _ Hb). by f_equal.
Qed.

(** The invariant once the page is back. *)
Section Restored.
Context (ph3 : phys) (g3 : paging) (x3 : F) (O3 : Z → gset (Z * Z)).
Let b := take (Z.to_nat PGSIZE) (drop (Z.to_nat (offset_in_file q)) c).
Hypothesis Hg3 : paging_ok g3 (L ++ [j]).
Hypothesis Hp3 : pages g3 = <[j:=page_in q]> (pages g).
Hypothesis Ho3 : ∃ k, available_Offsets g3 = <[k:=0]> (available_Offsets g).
Hypothesis Hf3 : ∃ sf, swapFile p = Some sf ∧ sf_holds x3 sf c.
Hypothesis HO3 : ∀ f pg v, (pg, v) ∈ O f → (pg, v) ∈ O3 f.
Hypothesis Hn3 : (pd, vpn (page_id q)) ∈ O3 n ∧ X n = 0.
Hypothesis Hpte3 : ∀ pg' v', pg' ∈ PG → user_vpn v' → ¬ (pg' = pd ∧ v' = vpn (page_id q)) →
  pte_of (mem ph3) pg' v' = pte_of (mem ph) pg' v'.
Hypothesis Hub3 : ∀ pg' va', pg' ∈ PG → user_va_ok va' →
  ¬ (pg' = pd ∧ vpn va' = vpn (page_id q)) →
  user_byte (mem ph3) pg' va' = user_byte (mem ph) pg' va'.
Hypothesis Hb3 : ∀ k, Z.of_nat k < 4096 → user_byte (mem ph3) pd (page_id q + Z.of_nat k) = b !! k.

Lemma rs_ok : swap_ok p ph3 g3 x3 O3 X (L ++ [j]) c.
Proof.
  pose proof Hok as [Hpg _ Hby Hmax Hsl Hmem Hdk]. split; [done|done|done|done|..].
  - destruct Ho3 as [k ->]. intros k' b' E Hb'. destruct (decide (k = k')) as [<-|Hne].
    + exfalso. apply Hb'. destruct (decide (k < length (available_Offsets g))%nat).
      * rewrite list_lookup_insert_eq in E by done. congruence.
      * rewrite list_insert_ge in E by lia. apply lookup_lt_Some in E. lia.
    + rewrite list_lookup_insert_ne in E by done. eauto.
  - intros j' q' [[-> ->]|[Hne Eq]]%(rs_lookup g3 _ _ Hp3) Hq'; [by exists n|].
    destruct (Hmem j' q' Eq Hq') as (f' & Hf' & HX'). eauto.
  - intros j' q' [[-> ->]|[Hne Eq]]%(rs_lookup g3 _ _ Hp3) Hq'; [done|].
    destruct (rs_other j' q' Hne Eq) as (Hv & _ & _ & Huv); [unfold on_disk in Hq'; congruence|].
    rewrite Hpte3; [by apply (Hdk j')|done|done|naive_solver].
Qed.

Lemma rs_same : same_pages pd (mem ph) c g (mem ph3) c g3.
Proof.
  split; [by rewrite Hp3, length_insert|].
  intros j' q0 q' Eq [[-> ->]|[Hne Eq']]%(rs_lookup g3 _ _ Hp3).
  - assert (q0 = q) as -> by congruence. unfold on_disk in Hq. cbn [page_in page_id pg_state].
    split; [done|]. split; [split; congruence|]. intros k Hk. unfold page_byte.
    cbn [page_in pg_state page_id]. rewrite Hq, Hb3 by done. unfold b.
    rewrite lookup_take_lt by (unfold PGSIZE; lia). by rewrite lookup_drop.
  - assert (q' = q0) as -> by congruence. split; [done|]. split; [done|]. intros k Hk.
    unfold page_byte. destruct (pg_state q0) eqn:E0; [done| |done].
    destruct (rs_other j' q0 Hne Eq) as (Hv & Ha & Hu & Huv); [congruence|].
    apply Hub3; [done|by apply user_off|]. rewrite vpn_off by done. naive_solver.
Qed.
End Restored.

Lemma getPageFromFile_spec :
  ∃ ph' g' x' O',
    getPageFromFile j (frame s i p ph g x (V2P pd)) = Ok 0 (frame s i p ph' g' x' (V2P pd)) ∧
    vm_inv d PG ph' Lf O' X ∧ swap_ok p ph' g' x' O' X (L ++ [j]) c ∧
    same_pages pd (mem ph) c g (mem ph') c g' ∧
    (∀ pg va, pg ∈ PG → pg ≠ pd → user_va_ok va →
       user_byte (mem ph') pg va = user_byte (mem ph) pg va) ∧
    num_pages_disk g' = num_pages_disk g - 1 ∧ pages g' !! j = Some (page_in q).
Proof.
  destruct rs_page as (l & k & El & Epl & Eo & Hsl & Eslot & Hal & Hu & t & Ht).
  pose proof Hok as [Hpg (sf & Esf & Hc) Hby Hmax _ _ Hdk].
  assert (Hjlt : (j < length (pages g))%nat) by (by eapply lookup_lt_Some).
  destruct (Hdk j q Hj Hq) as [HP0 _]. fold pd in HP0.
  destruct (sf_read x sf c (slot k) (Z.to_nat PGSIZE) Hc Hsl) as (x' & Er & Hc').
  rewrite <- Eslot in Er. set (b := take (Z.to_nat PGSIZE) (drop (Z.to_nat (offset_in_file q)) c)) in *.
  assert (Hlb : length b = Z.to_nat PGSIZE) by (unfold b; rewrite length_take, length_drop, Eslot; lia).
  assert (Hbb : Forall is_u8 b) by (by apply Forall_take, Forall_drop).
  destruct (remap_fresh d PG ph n Lf O X Hinv) as (_ & HO & Hn & _ & _ & HXn & Ek).
  destruct (remap_map d PG ph n Lf O X pd (page_id q) t b Hinv Hpd Hu Hal Ht HP0 Hlb) as (_ & _ & Hin1 & _ & Em & _).
  destruct (remap_data d PG ph n Lf O X pd (page_id q) t b Hinv Hpd Hu Hal Ht HP0 Hlb Hbb) as (_ & Est & _ & _ & Hub2).
  destruct (remap_flags d PG ph n Lf O X pd (page_id q) t b Hinv Hpd Hu Hal Ht HP0 Hlb Hbb) as (ph3 & Efl & Hi3 & Hs3 & Hpte3).
  pose proof (remap_byte d PG ph n Lf O X pd (page_id q) t b Hinv Hpd Hu Hal Ht HP0 Hlb Hbb) as Hb2.
  pose proof (remap_pte d PG ph n Lf O X pd (page_id q) t b Hinv Hpd Hu Hal Ht HP0 Hlb) as Hpte2.
  destruct (paging_from_file g L j l k Hpg HL El) as (g3 & Eg3 & Hg3 & Hp3 & Ho3 & Hd3); [by rewrite Epl..|].
  rewrite Epl in Eg3, Hp3. destruct (valid_page_pfn n Hn) as (_ & _ & Hnz).
  destruct (in_entry_bits n Hn) as (_ & HPe & Hfe).
  exists ph3, g3, x', (put_owner O pd (vpn (page_id q)) (in_entry n)).
  assert (Hother : ∀ pg' va', pg' ∈ PG → user_va_ok va' → ¬ (pg' = pd ∧ vpn va' = vpn (page_id q)) →
    user_byte (mem ph3) pg' va' = user_byte (mem ph) pg' va') by (intros; rewrite Hs3 by done; by apply Hub2).
  split; [|split; [exact Hi3|split; [|split; [|split; [|split; [done|by rewrite Hp3, list_lookup_insert_eq]]]]]].
  - unfold getPageFromFile. erewrite bind_ok by (by apply get_link). rewrite Epl, Eo.
    rewrite (proj2 (Z.ltb_ge _ 0)) by lia. rewrite <- Eo.
    erewrite bind_ok by (by apply swap_pgdir_eq).
    erewrite bind_ok by (apply on_phys_frame, Ek). rewrite (proj2 (Z.eqb_neq n 0) Hnz).
    erewrite bind_ok by (apply on_phys_frame, Em).
    erewrite bind_ok.
    2: { unfold readFromSwapFile. erewrite bind_ok by (by apply myproc_frame).
      cbn [swapFile set_paging_]. rewrite Esf.
      rewrite Z2Nat.id in Er by lia. erewrite bind_ok by (apply on_fs_frame; exact Er).
      cbv beta iota. by erewrite bind_ok by (apply on_phys_frame, Est). }
    rewrite (proj2 (Z.eqb_neq _ (-1))) by (unfold PGSIZE; lia).
    erewrite bind_ok by (apply on_phys_frame, Efl).
    by erewrite bind_ok by (apply on_paging_frame; [done|exact Eg3]).
  - eapply rs_ok; eauto.
    + intros f pg v Hf. apply elem_put_owner. case_decide as Hd; [|done]. injection Hd as -> ->.
      apply (vi_own _ _ _ _ _ _ Hinv) in Hf as (_ & _ & HP & _). congruence.
    + intros pg' v' Hpg' Hv' Hne. rewrite Hpte3 by done. by apply Hpte2.
  - eapply rs_same; eauto. intros k' Hk'. rewrite Hs3; [by apply Hb2|done|].
    apply user_off; [done|done|done].
  - intros pg va Hpg' Hne Hva. apply Hother; [done|done|naive_solver].
Qed.
End Restore.

(** ** Choosing a victim keeps the invariant *)

Lemma swap_resident p ph g x O X L c :
  swap_ok p ph g x O X L c → resident O (pgdir p) g L.
Proof.
  intros [Hpg _ _ _ _ Hmem _] j l Hj El.
  assert (Ep : pages g !! j = Some (page l)) by (apply pages_lookup; eauto).
  assert (Hst : pg_state (page l) = IN_MEMORY) by (by apply (mo_mem _ _ _ _ (po_meta _ _ Hpg) j)).
  destruct (mo_user _ _ _ _ (po_meta _ _ Hpg) j _ Ep) as [_ Hu]; [congruence|].
  split; [done|]. destruct (Hmem j _ Ep Hst) as (f & ? & _). eauto.
Qed.

Lemma swap_distinct p ph g x O X L c :
  swap_ok p ph g x O X L c → ∀ j k, j ∈ L → k ∈ L →
  vpn (page_id (page_at g j)) = vpn (page_id (page_at g k)) → j = k.
Proof.
  intros [[[Hd _] Hm _] _ _ _ _ _ _] j k Hj Hk E.
  assert (Hat : ∀ j, j ∈ L → pages g !! j = Some (page_at g j) ∧ pg_state (page_at g j) = IN_MEMORY).
  { intros j' [n Hn]%list_elem_of_lookup. destruct (dll_links _ _ Hd n j' Hn) as (l & El & _).
    assert (Ep : pages g !! j' = Some (page_at g j')) by (apply pages_lookup; unfold page_at; rewrite El; eauto).
    split; [done|]. apply (mo_mem _ _ _ _ Hm j' _ Ep). by eapply list_elem_of_lookup_2. }
  destruct (Hat j Hj) as [Ej Sj], (Hat k Hk) as [Ek Sk].
  destruct (mo_user _ _ _ _ Hm _ _ Ej) as [Aj _]; [congruence|].
  destruct (mo_user _ _ _ _ Hm _ _ Ek) as [Ak _]; [congruence|].
  eapply (mo_ids _ _ _ _ Hm); [exact Ej|exact Ek|congruence..|].
  rewrite <- (aligned_vpn _ Aj), <- (aligned_vpn _ Ak). by f_equal.
Qed.

Lemma same_pages_refl pd m c g : same_pages pd m c g m c g.
Proof.
  split; [done|]. intros j q q' E E'. assert (q' = q) as -> by congruence. done.
Qed.

Lemma same_pages_trans pd m c g m' c' g' m'' c'' g'' :
  same_pages pd m c g m' c' g' → same_pages pd m' c' g' m'' c'' g'' →
  same_pages pd m c g m'' c'' g''.
Proof.
  intros [El1 H1'] [El2 H2']. split; [congruence|]. intros j q q'' E E''.
  destruct (lookup_lt_is_Some_2 (pages g') j) as [q' E'].
  { rewrite El1. by eapply lookup_lt_Some. }
  destruct (H1' j q q' E E') as (A1 & B1 & C1), (H2' j q' q'' E' E'') as (A2 & B2 & C2).
  split; [congruence|]. split; [tauto|]. intros k Hk. by rewrite C2, C1.
Qed.

(** Accessed bits and the order of the list do not matter to the swap file. *)
Lemma swap_ok_sc d PG ph Lf O X p g x c L ph' g' Q :
  pgdir p ∈ PG → swap_ok p ph g x O X L c → sc_state d PG Lf O X p ph g L ph' g' Q →
  swap_ok p ph' g' x O X Q c.
Proof.
  intros Hpd [Hpg Hf Hby Hmax Hsl Hmem Hdk] [Hinv' Hu' Hl' Hm' Hp' _ Hbits].
  split; rewrite ?(same_meta_pages _ _ Hm'), ?(sm_offsets _ _ Hm'); auto.
  - by eapply paging_ok_perm.
  - intros j q Eq Hq. destruct (mo_user _ _ _ _ (po_meta _ _ Hpg) j q Eq) as [_ Hu];
      [unfold on_disk in Hq; congruence|].
    destruct (Hbits (pgdir p) (vpn (page_id q))) as [-> ->]; [done|by apply user_va_vpn|by apply (Hdk j)].
Qed.

Lemma choose_ok d PG ph Lf O X (s : kernel F) i p g x c L :
  runs s i → global_pgdir_flag s ≠ 1 → vm_inv d PG ph Lf O X → pgdir p ∈ PG →
  swap_ok p ph g x O X L c → (2 ≤ length L)%nat →
  (SELECTION = SCFIFO → Exists (λ j, user_at ph p g j = true) L) →
  ∃ ph' g' v A B,
    choosePageToSwap (frame s i p ph g x (V2P (pgdir p))) =
      Ok (Some v) (frame s i p ph' g' x (V2P (pgdir p))) ∧
    vm_inv d PG ph' Lf O X ∧ swap_ok p ph' g' x O X (A ++ v :: B) c ∧ A ++ v :: B ≡ₚ L ∧
    same_user PG (mem ph) (mem ph') ∧ same_meta g g'.
Proof.
  intros Hr Hflag Hinv Hpd Hok Htwo Hex. pose proof (swap_resident _ _ _ _ _ _ _ _ Hok) as Hres.
  destruct (decide (SELECTION = SCFIFO)) as [Hsel|Hsel].
  - destruct (choose_scfifo d PG Lf O X s i p ph g x (V2P (pgdir p)) L Hsel Hr Hflag Hinv
      (po_links _ _ (so_paging _ _ _ _ _ _ _ _ Hok)) Hres (swap_distinct _ _ _ _ _ _ _ _ Hok) Htwo (Hex Hsel))
      as (ph' & g' & v & A & B & E & _ & _ & Hs).
    exists ph', g', v, [], (B ++ A). split; [done|]. split; [apply Hs|]. split; [by eapply swap_ok_sc|].
    split; [apply Hs|]. split; apply Hs.
  - destruct L as [|h R] eqn:EL; [simpl in Htwo; lia|].
    pose proof (choose_victim d PG ph Lf O X s i p g x (V2P (pgdir p)) (h :: R) Hr Hflag Hinv
      (proj1 (po_links _ _ (so_paging _ _ _ _ _ _ _ _ Hok))) Hres h R eq_refl Hsel) as E.
    assert (Hv : victim ph p g h R ∈ h :: R).
    { unfold victim. destruct SELECTION; try (left; done).
      - apply nfua_pick_min.
      - destruct (last R) eqn:El; simpl; [right|left]. apply last_Some in El as [R' ->]. set_solver. }
    apply list_elem_of_split in Hv as (A & B & HAB).
    exists ph, g, (victim ph p g h R), A, B. rewrite <- HAB. split; [done|]. split; [done|].
    split; [done|]. split; [done|]. split; [by intros ? ?|by split].
Qed.

Lemma same_pages_meta PG p ph g x O X L c m' g' :
  swap_ok p ph g x O X L c → pgdir p ∈ PG → same_user PG (mem ph) m' → same_meta g g' →
  same_pages (pgdir p) (mem ph) c g m' c g'.
Proof.
  intros Hok Hpd Hu Hm. unfold same_pages. rewrite (same_meta_pages _ _ Hm). split; [done|].
  intros j q q' E E'. assert (q' = q) as -> by congruence. split; [done|]. split; [done|].
  intros k Hk. unfold page_byte. destruct (pg_state q) eqn:Es; [done| |done].
  destruct (mo_user _ _ _ _ (po_meta _ _ (so_paging _ _ _ _ _ _ _ _ Hok)) j q E) as [Ha Hb]; [congruence|].
  apply Hu; [done|by apply user_off].
Qed.

(** The scan of [swapPages] finds the page. *)
Lemma scan_page p ph g x O X L c j q :
  swap_ok p ph g x O X L c → pages g !! j = Some q → pg_state q ≠ NOT_USED →
  scan (λ l, page_id (page l) =? page_id q) (pages_meta_data g) = j ∧
  (j < length (pages_meta_data g))%nat.
Proof.
  intros Hok Ej Hq. pose proof (po_meta _ _ (so_paging _ _ _ _ _ _ _ _ Hok)) as Hm.
  apply pages_lookup in Ej as Hl. destruct Hl as (l & El & ->).
  destruct (scan_some (λ l0, page_id (page l0) =? page_id (page l)) (pages_meta_data g)) as (l' & El' & E%Z.eqb_eq).
  { apply Exists_exists. exists l. split; [by eapply list_elem_of_lookup_2|apply Z.eqb_refl]. }
  split; [|by eapply lookup_lt_Some]. set (j' := scan _ _) in *.
  assert (Ep' : pages g !! j' = Some (page l')) by (apply pages_lookup; eauto).
  eapply (mo_ids _ _ _ _ Hm); [exact Ep'|exact Ej| |done|done].
  intros Hn. rewrite (mo_unused _ _ _ _ Hm _ _ Ep' Hn) in E.
  destruct (mo_user _ _ _ _ Hm _ _ Ej Hq) as [_ Hu]. revert E Hu. consts. lia.
Qed.


End SwapInv.
