(* ===== verification/Ageing.v ===== *)
(** * Ageing: what the timer does to the paging metadata

    [update_meta_data] of [trap.c] runs at every timer tick: it ages the
    counters of the resident pages (NFUA and LAPA), or advances the queue
    (AQ).  The advancing queue is compared with a function on lists. *)

From S2P Require Import Prelude Mmu Phys Config Kalloc PageTable Vmspace State PageList.
From S2P Require Import Swap Policy SwapInv.

(** Membership in a list built with [++] and [::]. *)
Ltac mem := rewrite ?elem_of_app, ?elem_of_cons, ?elem_of_nil; tauto.

(** ** Exchanging two neighbours of a linked list *)

Lemma app_cons_split {A} (P Q P' : list A) i Q' :
  P ++ Q = P' ++ i :: Q' →
  (∃ R, P = P' ++ i :: R ∧ Q' = R ++ Q) ∨ (∃ R, P' = P ++ R ∧ Q = R ++ i :: Q').
Proof.
  revert P'. induction P as [|a P IH]; intros P' E; [right; by exists P'|].
  destruct P' as [|b P']; simplify_eq/=; [left; by exists P|].
  destruct (IH P') as [(R & -> & ->)|(R & -> & ->)]; [done|left; by exists R|right; by exists R].
Qed.

Lemma linked_split arr L :
  linked arr L ↔ NoDup L ∧ ∀ A i B, L = A ++ i :: B →
    ∃ l, arr !! i = Some l ∧ pl_next l = head B ∧ pl_prev l = last A.
Proof.
  assert (Hprev : ∀ A i B, match length A with O => None | S k => (A ++ i :: B : list nat) !! k end = last A).
  { intros A i B. rewrite last_lookup. destruct A as [|a A]; [done|].
    apply (lookup_app_l (a :: A)). simpl. lia. }
  assert (Hnext : ∀ A i B, (A ++ i :: B : list nat) !! S (length A) = head B).
  { intros A i B. rewrite lookup_app_r by lia.
    replace (S (length A) - length A)%nat with 1%nat by lia. simpl. by rewrite head_lookup. }
  split; intros [Hnd Hl]; (split; [done|]).
  - intros A i B ->. destruct (Hl (length A) i) as (l & El & En & Ep); [by apply list_lookup_middle|].
    exists l. by rewrite En, Ep, Hnext, Hprev.
  - intros k i Hk. apply list_elem_of_split_length in Hk as (A & B & -> & ->).
    destruct (Hl A i B) as (l & El & En & Ep); [done|]. exists l. by rewrite En, Ep, Hnext, Hprev.
Qed.

Lemma linked_swap arr arr' A j k B :
  linked arr (A ++ j :: k :: B) →
  (∀ i l, i ∈ A ++ j :: k :: B → arr !! i = Some l → ∃ l', arr' !! i = Some l' ∧
     pl_next l' = (if decide (i = j) then head B else if decide (i = k) then Some j
       else if decide (last A = Some i) then Some k else pl_next l) ∧
     pl_prev l' = (if decide (i = j) then Some k else if decide (i = k) then last A
       else if decide (head B = Some i) then Some j else pl_prev l)) →
  linked arr' (A ++ k :: j :: B).
Proof.
  rewrite !linked_split. intros [Hnd Hl] Hup.
  assert (Hdis := Hnd). apply NoDup_app in Hdis as (_ & HdA & HdB).
  apply NoDup_cons in HdB as [Hj HdB]. apply NoDup_cons in HdB as [Hk HdB].
  assert (HAj : j ∉ A) by (intros ?; by apply (HdA j); [|left]).
  assert (HAk : k ∉ A) by (intros ?; by apply (HdA k); [|right; left]).
  assert (HAB : ∀ i, i ∈ A → i ∉ B) by (intros i Hi HB; apply (HdA i Hi); by right; right).
  assert (Hjk : j ≠ k) by (intros ->; apply Hj; by left).
  assert (HjB : j ∉ B) by (intros ?; apply Hj; by right).
  split.
  { apply NoDup_app in Hnd as (HA & _ & _). apply NoDup_app. split; [done|]. split.
    - intros i Hi Hin. apply elem_of_cons in Hin as [->|Hin]; [done|].
      apply elem_of_cons in Hin as [->|Hin]; [done|by apply (HAB i)].
    - apply NoDup_cons. split; [intros [?|?]%elem_of_cons; [congruence|done]|].
      by apply NoDup_cons. }
  intros A' i B' E. apply app_cons_split in E as [(R & -> & ->)|(R & -> & E)].
  - assert (Hij : i ≠ j) by (intros ->; apply HAj; set_solver).
    assert (Hik : i ≠ k) by (intros ->; apply HAk; set_solver).
    destruct (Hl A' i (R ++ j :: k :: B)) as (l & El & En & Ep); [by rewrite <- app_assoc|].
    destruct (Hup i l) as (l' & El' & En' & Ep'); [set_solver|done|].
    exists l'. split; [done|]. rewrite En', Ep', En, Ep. rewrite !(decide_False (P := i = _)) by done. split.
    + destruct R as [|r R]; [by rewrite last_snoc, decide_True|]. rewrite decide_False; [done|].
      intros Hla. rewrite last_app_cons, last_cons_cons in Hla. apply last_Some_elem_of in Hla.
      apply NoDup_app in Hnd as (Hnd & _ & _). apply NoDup_app in Hnd as (_ & _ & [Hi _]%NoDup_cons).
      done.
    + rewrite decide_False; [done|]. intros Hh. apply (HAB i); [set_solver|].
      destruct B; simplify_eq/=. by left.
  - destruct R as [|a R]; [|destruct R as [|b R]]; simplify_eq/=.
    + destruct (Hl (A ++ [j]) i B) as (l & El & En & Ep); [by rewrite <- app_assoc|].
      destruct (Hup i l) as (l' & El' & En' & Ep'); [set_solver|done|].
      exists l'. rewrite En', Ep', app_nil_r. rewrite !(decide_False (P := i = j)), !(decide_True (P := i = i)) by done.
      done.
    + destruct (Hl A i (a :: B')) as (l & El & En & Ep); [done|].
      destruct (Hup i l) as (l' & El' & En' & Ep'); [set_solver|done|].
      exists l'. rewrite En', Ep', last_snoc. by rewrite !decide_True.
    + destruct (Hl (A ++ b :: a :: R) i B') as (l & El & En & Ep); [by rewrite <- app_assoc|].
      destruct (Hup i l) as (l' & El' & En' & Ep'); [set_solver|done|].
      exists l'. split; [done|]. rewrite En', Ep', En, Ep.
      assert (i ≠ b ∧ i ≠ a) as [Hib Hia] by (split; intros ->; set_solver).
      rewrite !(decide_False (P := i = b)), !(decide_False (P := i = a)) by done. split.
      * rewrite decide_False; [done|]. intros Hla. apply last_Some_elem_of in Hla. apply (HAB i Hla). set_solver.
      * destruct R as [|r R]; simpl.
        -- rewrite decide_True by done. by rewrite last_app.
        -- rewrite decide_False; [by rewrite !last_app|]. intros [= ->].
           apply NoDup_cons in HdB as [Hr _]. apply Hr. set_solver.
Qed.

(** The array after the exchange in [switchQueueAQ]: [pr] and [nx] are the
    neighbours of the pair [j], [k]. *)
Definition swap_links (pr : option nat) (j k : nat) (nx : option nat) (arr : list page_link)
    : list page_link :=
  let arr1 := alter (with_next nx) j (alter (with_prev (Some k)) j arr) in
  let arr2 := alter (with_next (Some j)) k (alter (with_prev pr) k arr1) in
  let arr3 := match pr with Some t => alter (with_next (Some k)) t arr2 | None => arr2 end in
  match nx with Some t => alter (with_prev (Some j)) t arr3 | None => arr3 end.

Lemma length_swap_links pr j k nx arr : length (swap_links pr j k nx arr) = length arr.
Proof. unfold swap_links. destruct pr, nx; by rewrite !length_alter. Qed.

Lemma swap_links_page pr j k nx arr i :
  page <$> swap_links pr j k nx arr !! i = page <$> arr !! i.
Proof. unfold swap_links. destruct pr, nx; by rewrite !alter_page_same. Qed.

Lemma swap_links_other pr j k nx arr i :
  i ≠ j → i ≠ k → pr ≠ Some i → nx ≠ Some i → swap_links pr j k nx arr !! i = arr !! i.
Proof.
  intros ? ? ? ?. unfold swap_links.
  destruct pr, nx; rewrite !list_lookup_alter_ne by congruence; done.
Qed.

Lemma swap_links_lookup pr j k nx arr i l :
  j ≠ k → pr ≠ Some j → pr ≠ Some k → nx ≠ Some j → nx ≠ Some k →
  arr !! i = Some l → ∃ l', swap_links pr j k nx arr !! i = Some l' ∧
    pl_next l' = (if decide (i = j) then nx else if decide (i = k) then Some j
       else if decide (pr = Some i) then Some k else pl_next l) ∧
    pl_prev l' = (if decide (i = j) then Some k else if decide (i = k) then pr
       else if decide (nx = Some i) then Some j else pl_prev l).
Proof.
  intros Hjk Hpj Hpk Hnj Hnk E. unfold swap_links.
  destruct (decide (i = j)) as [->|Hij]; [|destruct (decide (i = k)) as [->|Hik]].
  1,2: destruct pr, nx; rewrite ?list_lookup_alter_ne, !list_lookup_alter_eq,
    ?list_lookup_alter_ne, E by congruence; eexists; split_and!; reflexivity.
  destruct pr as [t|], nx as [u|]; rewrite ?lookup_alter_dec, E;
    repeat case_decide; simplify_eq/=; eauto.
Qed.

(** ** The advancing queue *)

(** An accessed page that is followed by a page that was not accessed changes
    places with it, once. *)
Fixpoint aq (acc : nat → bool) (L : list nat) : list nat :=
  match L with
  | j :: ((k :: R') as R) => if acc j && negb (acc k) then k :: j :: aq acc R' else j :: aq acc R
  | _ => L
  end.

Lemma aq_cons acc j k R :
  aq acc (j :: k :: R) = if acc j && negb (acc k) then k :: j :: aq acc R else j :: aq acc (k :: R).
Proof. done. Qed.

Lemma aq_perm acc L : aq acc L ≡ₚ L.
Proof.
  induction L as [L IH] using (induction_ltof1 _ length). unfold ltof in IH.
  destruct L as [|j [|k R]]; [done..|]. cbn [aq]. case_match.
  - rewrite (IH R) by (simpl; lia). apply perm_swap.
  - by rewrite (IH (k :: R)) by (simpl; lia).
Qed.

Lemma swap_neighbours_spec g A j k B :
  links g (A ++ j :: k :: B) →
  ∃ l n g', pages_meta_data g !! j = Some l ∧ pl_next l = Some k ∧
    pages_meta_data g !! k = Some n ∧
    swap_neighbours j k l n g = Ok tt g' ∧ links g' (A ++ k :: j :: B) ∧ same_meta g g'.
Proof.
  intros [Hd Hnull]. pose proof Hd as (Hlen & Hh & Hlk)%dll_linked.
  pose proof (proj1 (linked_split _ _) Hlk) as [Hnd Hl].
  destruct (Hl A j (k :: B)) as (l & El & Enl & Epl); [done|].
  destruct (Hl (A ++ [j]) k B) as (n & En & Enn & Epn); [by rewrite <- app_assoc|].
  simpl in Enl.
  assert (Hin : ∀ i, i ∈ A ++ j :: k :: B → (i < length (pages_meta_data g))%nat).
  { intros i [m Hm]%list_elem_of_lookup. rewrite Hlen. by eapply dll_lt. }
  set (arr' := swap_links (last A) j k (head B) (pages_meta_data g)).
  set (h' := if decide (last A = None) then Some k else page_list_head_ram g).
  exists l, n, (set_pages_meta_data arr' (set_page_list_head_ram h' g)).
  assert (HlA : ∀ t, last A = Some t → t ∈ A) by (intros t; apply last_Some_elem_of).
  assert (HhB : ∀ t, head B = Some t → t ∈ B) by (intros t Ht; destruct B; simplify_eq/=; by left).
  apply NoDup_app in Hnd as (_ & HdA & HdB).
  apply NoDup_cons in HdB as [Hj HdB]. apply NoDup_cons in HdB as [Hk _].
  do 3 (split; [done|]). split; [|split].
  - unfold swap_neighbours. rewrite Epl, Enn. subst arr' h'. unfold swap_links.
    assert (E0 : when (bool_decide (last A = None)) (modify (set_page_list_head_ram (Some k))) g =
      Ok tt (set_page_list_head_ram (if decide (last A = None) then Some k else page_list_head_ram g) g)).
    { case_bool_decide; case_decide; try done. by destruct g. }
    erewrite bind_ok by exact E0.
    do 4 (erewrite bind_ok by (apply pl_upd_alter; cbn; rewrite ?length_alter; apply Hin; set_solver)).
    destruct (last A) as [t|]; [|erewrite bind_ok by done];
      [erewrite bind_ok by (apply pl_upd_alter; cbn; rewrite ?length_alter; apply Hin; set_solver)|];
      (destruct (head B) as [u|]; [rewrite pl_upd_alter|]); try done;
      cbn; rewrite ?length_alter; apply Hin; set_solver.
  - assert (Hjk : j ≠ k) by (intros ->; apply Hj; by left).
    split.
    + apply dll_linked. cbn. subst arr'. rewrite length_swap_links. split; [done|]. split.
      * subst h'. destruct A as [|a A]; [done|]. cbn. rewrite decide_False; [by rewrite Hh|].
        intros E. by apply last_None in E.
      * eapply linked_swap; [done|]. intros i li Hi Ei. apply swap_links_lookup; try done.
        -- intros E. apply (HdA j); [by apply HlA|by left].
        -- intros E. apply (HdA k); [by apply HlA|by right; left].
        -- intros E. apply Hj. right. by apply HhB.
        -- intros E. by apply Hk, HhB.
    + cbn. intros i li Hi Hni. subst arr'. rewrite swap_links_other in Hi by set_solver.
      eapply Hnull; [done|]. set_solver.
  - split; try done. intros i. cbn. apply swap_links_page.
Qed.

Section Advance.
Context `{Config} {F : Type} `{FileSystem F}.
Context (d : Z) (PG : list Z) (Lf : list Z) (O : Z → gset (Z * Z)) (X : Z → Z).
Context (s : kernel F) (i : nat) (p : proc) (ph0 : phys) (g0 : paging) (x : F) (c : Z) (L : list nat).
Hypothesis Hruns : runs s i.
Hypothesis Hres : resident O (pgdir p) g0 L.
Let id j := page_id (page_at g0 j).
Hypothesis Hid : ∀ j k, j ∈ L → k ∈ L → vpn (id j) = vpn (id k) → j = k.
Let acc ph j := has (pte_of (mem ph) (pgdir p) (vpn (id j))) PTE_A.
Let st ph g := frame s i p ph g x c.
Let scs := sc_state d PG Lf O X p ph0 g0 L.

Lemma adv_acc ph g Q j :
  scs ph g Q → j ∈ Q →
  ∃ l, pages_meta_data g !! j = Some l ∧ page_id (page l) = id j ∧ j ∈ L ∧
    is_PTE_A (pgdir p) (id j) ph = Ok (acc ph j) ph.
Proof.
  intros Hs Hj. destruct (sc_at d PG Lf O X p ph0 g0 L Hres ph g Q j Hs Hj) as (l & f & El & Eid & HjL & Hva & Hin).
  exists l. do 3 (split; [done|]). by eapply is_PTE_A_eq; [apply (sc_inv _ _ _ _ _ _ _ _ _ _ _ _ Hs)|..].
Qed.

Lemma adv_swap ph g D j k R :
  scs ph g (D ++ j :: k :: R) →
  ∃ l n g', pages_meta_data g !! j = Some l ∧ pl_next l = Some k ∧
    pages_meta_data g !! k = Some n ∧
    swap_neighbours j k l n g = Ok tt g' ∧ scs ph g' (D ++ k :: j :: R).
Proof.
  intros [Hinv Hu Hl Hm Hp HU Hb].
  destruct (swap_neighbours_spec g D j k R Hl) as (l & n & g' & El & Enl & En & E & Hl' & Hm').
  exists l, n, g'. do 4 (split; [done|]). split; try done.
  - by eapply same_meta_trans.
  - rewrite <- Hp. apply Permutation_app_head, perm_swap.
Qed.

Lemma adv_next ph g D j R :
  scs ph g (D ++ j :: R) →
  ∃ l, pages_meta_data g !! j = Some l ∧ pl_next l = head R.
Proof.
  intros [_ _ [Hd _] _ _ _ _]. apply dll_linked in Hd as (_ & _ & Hlk).
  apply linked_split in Hlk as [_ Hl]. destruct (Hl D j R) as (l & El & En & _); eauto.
Qed.

(** One round of the loop at [j], which is followed by [k]. *)
Lemma adv_step fuel ph g D j k R :
  scs ph g (D ++ j :: k :: R) →
  (acc ph j = false ∧
     switchQueueAQ_loop (S fuel) (pgdir p) (Some j) (st ph g) =
       switchQueueAQ_loop fuel (pgdir p) (Some k) (st ph g)) ∨
  (acc ph j = true ∧ ∃ ph' g',
     switchQueueAQ_loop (S fuel) (pgdir p) (Some j) (st ph g) =
       switchQueueAQ_loop fuel (pgdir p) (Some j) (st ph' g') ∧
     scs ph' g' (D ++ if acc ph k then j :: k :: R else k :: j :: R) ∧
     acc ph' j = false ∧ ∀ j', j' ∈ L → j' ≠ j → acc ph' j' = acc ph j').
Proof.
  intros Hs.
  assert (Hjk : k ≠ j).
  { pose proof (dll_nodup _ _ (proj1 (sc_links _ _ _ _ _ _ _ _ _ _ _ _ Hs))) as Hnd.
    apply NoDup_app in Hnd as (_ & _ & [Hj _]%NoDup_cons). intros ->. apply Hj. by left. }
  destruct (adv_acc ph g _ j Hs) as (l & El & Eid & HL & Ea); [mem|].
  destruct (adv_next _ _ _ _ _ Hs) as (l' & El' & Enl). simplify_eq. cbn [head] in Enl.
  cbn [switchQueueAQ_loop]. erewrite bind_ok by (by apply get_link). rewrite Enl.
  erewrite bind_ok by (apply on_phys_frame; rewrite Eid; exact Ea).
  destruct (acc ph j) eqn:Haj; [right|by left]. split; [done|].
  destruct (sc_clear d PG Lf O X p ph0 g0 L Hres Hid ph g (D ++ j :: k :: R) j Hs)
    as (ph' & Ec & Hs' & Hj & Hk); [mem|].
  rewrite Eid. erewrite bind_ok by (apply on_phys_frame; exact Ec).
  destruct (adv_acc ph' g _ k Hs') as (n & En & Eidn & HkL & Ean); [mem|].
  erewrite bind_ok by (by apply get_link).
  erewrite bind_ok by (apply on_phys_frame; rewrite Eidn; exact Ean).
  assert (Hacck : acc ph' k = acc ph k) by (by apply Hk). rewrite Hacck.
  destruct (acc ph k); cbn [negb].
  - exists ph', g. by erewrite bind_ok by done.
  - destruct (adv_swap ph' g D j k R Hs') as (l1 & n1 & g' & El1 & _ & En1 & Esw & Hs2). simplify_eq.
    exists ph', g'. by erewrite bind_ok by (by apply on_paging_frame).
Qed.

(** The loop at the head of the rest [R] of the queue; the part [D] has been
    passed, and its pages are not accessed. *)
Lemma adv_loop n D R ph g fuel :
  (length R ≤ n)%nat → R ≠ [] → scs ph g (D ++ R) → (∀ j, j ∈ R → acc ph j = acc ph0 j) →
  (∀ j, j ∈ D → acc ph j = false) → (2 * length R ≤ fuel)%nat →
  ∃ ph' g' t, switchQueueAQ_loop fuel (pgdir p) (head R) (st ph g) = Ok (Some t) (st ph' g') ∧
    scs ph' g' (D ++ aq (acc ph0) R) ∧ t ∈ L ∧
    ∀ j, j ∈ L → j ≠ t → acc ph' j = false.
Proof.
  revert D R ph g fuel. induction n as [|n IH]; intros D R ph g fuel Hn HRn Hs HR HD Hf;
    (destruct R as [|j R]; [done|]); simpl in Hn; [lia|].
  pose proof (sc_perm _ _ _ _ _ _ _ _ _ _ _ _ Hs) as Hperm.
  pose proof (dll_nodup _ _ (proj1 (sc_links _ _ _ _ _ _ _ _ _ _ _ _ Hs))) as Hnd.
  destruct fuel as [|[|fuel]]; [simpl in Hf; lia..|]. destruct R as [|k R].
  { destruct (adv_next _ _ _ _ _ Hs) as (l & El & Enl). exists ph, g, j.
    cbn [head switchQueueAQ_loop]. erewrite bind_ok by (by apply get_link). rewrite Enl.
    split; [done|]. split; [done|]. split; [rewrite <- Hperm; mem|].
    intros j' Hj' Hne. apply HD. rewrite <- Hperm in Hj'.
    apply elem_of_app in Hj' as [?|Hx%list_elem_of_singleton]; done. }
  cbn [head]. rewrite aq_cons. rewrite <- !HR by mem.
  destruct (adv_step (S fuel) _ _ _ _ _ _ Hs) as [[Hj E]|(Hj & ph' & g' & E & Hs' & Hj' & Hother)];
    rewrite E, Hj; cbn [andb].
  - destruct (IH (D ++ [j]) (k :: R) ph g (S fuel)) as (ph' & g' & t & E' & Hs' & HtL & Hacc);
      [simpl in *; lia|done|by rewrite <- app_assoc|intros; apply HR; by right|
       intros j' [?|Hx%list_elem_of_singleton]%elem_of_app; [by apply HD|by subst]|simpl in *; lia|].
    rewrite <- app_assoc in Hs'. by exists ph', g', t.
  - assert (Hrest : ∀ j', j' ∈ k :: R → acc ph' j' = acc ph0 j').
    { intros j' Hj''. rewrite Hother; [apply HR; by right|rewrite <- Hperm; apply elem_of_app; right; by right|].
      intros ->. apply NoDup_app in Hnd as (_ & _ & [Hn' _]%NoDup_cons). done. }
    assert (Hdone : ∀ j', j' ∈ D → acc ph' j' = false).
    { intros j' Hj''. destruct (decide (j' = j)) as [->|]; [done|].
      rewrite Hother; [by apply HD|rewrite <- Hperm; mem|done]. }
    destruct (acc ph k) eqn:Hk; cbn [negb].
    + destruct (adv_step fuel _ _ _ _ _ _ Hs') as [[_ E2]|(Hc & _)]; [|congruence]. rewrite E2.
      destruct (IH (D ++ [j]) (k :: R) ph' g' fuel) as (ph2 & g2 & t & E' & Hs2 & HtL & Hacc);
        [simpl in *; lia|done|by rewrite <- app_assoc|done|
         intros j' [?|Hx%list_elem_of_singleton]%elem_of_app; [by apply Hdone|by subst]|simpl in *; lia|].
      rewrite <- app_assoc in Hs2. by exists ph2, g2, t.
    + destruct R as [|m R].
      { exists ph', g', j. assert (Hs3 : scs ph' g' ((D ++ [k]) ++ [j])) by (by rewrite <- app_assoc).
        destruct (adv_next _ _ _ _ _ Hs3) as (l & El & Enl).
        cbn [switchQueueAQ_loop]. erewrite bind_ok by (by apply get_link). rewrite Enl.
        split; [done|]. split; [done|]. split; [rewrite <- Hperm; mem|].
        intros j' Hj1 Hne. rewrite <- Hperm in Hj1. apply elem_of_app in Hj1 as [?|Hj1]; [by apply Hdone|].
        apply elem_of_cons in Hj1 as [?|Hx%list_elem_of_singleton]; [done|subst j'].
        rewrite Hrest, <- HR by mem. done. }
      assert (Hs3 : scs ph' g' ((D ++ [k]) ++ j :: m :: R)) by (by rewrite <- app_assoc).
      destruct (adv_step fuel _ _ _ _ _ _ Hs3) as [[_ E2]|(Hc & _)]; [|congruence]. rewrite E2.
      destruct (IH (D ++ [k; j]) (m :: R) ph' g' fuel) as (ph2 & g2 & t & E' & Hs2 & HtL & Hacc);
        [simpl in *; lia|done|by rewrite <- app_assoc|intros; apply Hrest; by right| |simpl in *; lia|].
      { intros j' [?|Hj1]%elem_of_app; [by apply Hdone|]. apply elem_of_cons in Hj1 as [->|Hj1].
        - rewrite Hrest, <- HR by mem. done.
        - by apply list_elem_of_singleton in Hj1 as ->. }
      rewrite <- app_assoc in Hs2. by exists ph2, g2, t.
Qed.

Lemma scs_start : vm_inv d PG ph0 Lf O X → links g0 L → scs ph0 g0 L.
Proof. by split. Qed.

(** ** Ageing the counters *)

(** A page of the list after a tick: the counter moves one bit to the right
    and the accessed bit comes in at the top. *)
Definition age (a : bool) (q : page_meta_data) : page_meta_data :=
  mkPage (page_id q) (pg_state q) (offset_in_file q)
    (let c := Z.shiftr (shiftCounter q) 1 in if a then Z.lor c 0x80000000 else c) (pg_index q).

Definition aged (D : list nat) (j : nat) (q : page_meta_data) : page_meta_data :=
  if decide (j ∈ D) then age (acc ph0 j) q else q.

Lemma aged_in D j q : j ∈ D → aged D j q = age (acc ph0 j) q.
Proof. intros. unfold aged. by rewrite decide_True. Qed.
Lemma aged_out D j q : j ∉ D → aged D j q = q.
Proof. intros. unfold aged. by rewrite decide_False. Qed.

Definition same_counts (g g' : paging) : Prop :=
  available_Offsets g' = available_Offsets g ∧ num_pages_disk g' = num_pages_disk g ∧
  num_pages_ram g' = num_pages_ram g.

(** The body of the loop at the page [j]. *)
Lemma age_step ph g D j R fuel :
  L = D ++ j :: R → scs ph g0 L → links g L →
  (∀ k, pages g !! k = aged D k <$> pages g0 !! k) → acc ph j = acc ph0 j →
  ∃ ph' g', age_loop (S fuel) (Some j) (st ph g) = age_loop fuel (head R) (st ph' g') ∧
    scs ph' g0 L ∧ links g' L ∧ (∀ k, pages g' !! k = aged (D ++ [j]) k <$> pages g0 !! k) ∧
    same_counts g g' ∧ acc ph' j = false ∧ ∀ k, k ∈ L → k ≠ j → acc ph' k = acc ph k.
Proof.
  intros HL Hs Hl Hpg Hacc. assert (HjL : j ∈ L) by (rewrite HL; mem).
  destruct (adv_acc ph g0 L j Hs HjL) as (l0 & El0 & Eid & _ & Ea).
  pose proof (proj1 Hl) as (Hlen & _ & [Hnd Hlk]%linked_split)%dll_linked.
  destruct (Hlk D j R HL) as (l & El & En & _).
  assert (HjD : j ∉ D).
  { rewrite HL in Hnd. apply NoDup_app in Hnd as (_ & Hd & _). intros Hin. apply (Hd j Hin). by left. }
  assert (Epg : page l = page l0).
  { specialize (Hpg j). unfold pages in Hpg. rewrite !list_lookup_fmap, El, El0 in Hpg.
    cbn in Hpg. rewrite aged_out in Hpg by done. by injection Hpg. }
  set (g' := set_pages_meta_data (<[j:=with_page (age (acc ph0 j) (page l)) l]> (pages_meta_data g)) g).
  assert (Hg' : links g' L ∧ ∀ k, pages g' !! k = aged (D ++ [j]) k <$> pages g0 !! k).
  { split; [by eapply links_upd|]. intros k. erewrite pages_upd by done.
    assert (Epj : pages g !! j = Some (page l)) by (apply pages_lookup; eauto).
    rewrite (lookup_insert_dec _ _ _ _ _ Epj). destruct (decide (j = k)) as [<-|Hne].
    - unfold pages. rewrite list_lookup_fmap, El0. cbn. rewrite aged_in by mem. by rewrite Epg.
    - rewrite Hpg. destruct (pages g0 !! k) as [q|]; [|done]. cbn. f_equal.
      unfold aged at 2. case_decide as Hk; [|rewrite aged_out; [done|]].
      + apply elem_of_app in Hk as [Hk|Hk%list_elem_of_singleton]; [by rewrite aged_in|congruence].
      + intros ?. apply Hk. mem. }
  cbn [age_loop]. erewrite bind_ok by (by apply get_link).
  erewrite bind_ok by (apply on_paging_frame; [done|]; by apply pl_upd_eq).
  erewrite bind_ok by (by apply myproc_frame). cbn [pgdir set_paging_].
  rewrite Epg, Eid. erewrite bind_ok by (by apply on_phys_frame). rewrite Hacc.
  subst g'. rewrite Epg in *. unfold age in *. destruct (acc ph0 j) eqn:Ej; cbn [when].
  - destruct (sc_clear d PG Lf O X p ph0 g0 L Hres Hid ph g0 L j Hs HjL) as (ph' & Ec & Hs' & Hj & Hk).
    eexists ph', _. split; [|split; [done|split; [apply Hg'|split; [apply Hg'|done]]]].
    erewrite bind_ok; [by rewrite En|].
    erewrite bind_ok by (apply on_phys_frame; exact Ec).
    apply on_paging_frame; [done|]. erewrite pl_upd_eq by (apply list_lookup_insert_eq; by eapply lookup_lt_Some).
    cbn. rewrite list_insert_insert_eq. unfold with_counter, with_page, set_pages_meta_data. cbn. by rewrite Epg.
  - eexists ph, _. split; [|split; [done|split; [apply Hg'|split; [apply Hg'|done]]]].
    erewrite bind_ok by done. rewrite En. unfold with_counter, with_page, set_pages_meta_data. cbn. by rewrite Epg.
Qed.

Lemma age_loop_spec D R ph g fuel :
  L = D ++ R → scs ph g0 L → links g L →
  (∀ j, pages g !! j = aged D j <$> pages g0 !! j) →
  (∀ j, j ∈ R → acc ph j = acc ph0 j) → (∀ j, j ∈ D → acc ph j = false) →
  (length R < fuel)%nat →
  ∃ ph' g', age_loop fuel (head R) (st ph g) = Ok tt (st ph' g') ∧
    scs ph' g0 L ∧ links g' L ∧ (∀ j, pages g' !! j = aged L j <$> pages g0 !! j) ∧
    same_counts g g' ∧ ∀ j, j ∈ L → acc ph' j = false.
Proof.
  revert D ph g fuel. induction R as [|j R IH]; intros D ph g fuel HL Hs Hl Hpg HR HD Hf;
    (destruct fuel as [|fuel]; [lia|]).
  { rewrite app_nil_r in HL. exists ph, g. by rewrite HL in *. }
  pose proof (dll_nodup _ _ (proj1 Hl)) as Hnd. rewrite HL in Hnd.
  apply NoDup_app in Hnd as (_ & HdD & [HjR _]%NoDup_cons).
  destruct (age_step ph g D j R fuel HL Hs Hl Hpg) as (ph1 & g1 & E1 & Hs1 & Hl1 & Hpg1 & Hc1 & Hj & Hk);
    [apply HR; by left|]. cbn [head]. rewrite E1.
  destruct (IH (D ++ [j]) ph1 g1 fuel) as (ph2 & g2 & E2 & Hs2 & Hl2 & Hpg2 & Hc2 & Hacc2);
    [by rewrite <- app_assoc|done|done|done| | |simpl in Hf; lia|].
  - intros k HkR. rewrite Hk; [apply HR; by right|rewrite HL; apply elem_of_app; right; by right|].
    by intros ->.
  - intros k [HkD|Hx%list_elem_of_singleton]%elem_of_app; [|by subst]. rewrite Hk; [by apply HD|rewrite HL; mem|].
    intros ->. apply (HdD j HkD). by left.
  - exists ph2, g2. do 4 (split; [done|]). split; [|done]. unfold same_counts in *. intuition congruence.
Qed.
End Advance.
