(* ===== verification/SwapDemo.v ===== *)
(** * SwapDemo: a process with a page in its swap file

    An in-memory file system that satisfies the swap-file interface, and a
    process with two resident pages and one page on disk. *)

From S2P Require Import Prelude Mmu Phys Config Kalloc PageTable Vmspace State PageList.
From S2P Require Import Swap Policy SwapInv Demo.

(** ** Files in memory *)

Definition memfs : Type := Z → option (list Z).

Definition memfs_write (f off : Z) (b : list Z) : M memfs Z := λ x,
  match x f with
  | Some c =>
      if decide (0 ≤ off ∧ off ≤ Z.of_nat (length c) ∧ off + Z.of_nat (length b) ≤ 17 * PGSIZE)
      then Ok (Z.of_nat (length b))
             (λ f', if decide (f' = f) then Some (splice (Z.to_nat off) b c) else x f')
      else Ok (-1) x
  | None => Err (UB "no such file")
  end.

Definition memfs_read (f off n : Z) : M memfs (Z * list Z) := λ x,
  match x f with
  | Some c =>
      let b := take (Z.to_nat n) (drop (Z.to_nat off) c) in Ok (Z.of_nat (length b), b) x
  | None => Err (UB "no such file")
  end.

#[global] Instance memfs_fs : FileSystem memfs := {
  fs_begin_op := mret tt;
  fs_end_op := mret tt;
  fs_create_swap := λ pid x, Ok pid (λ f, if decide (f = pid) then Some [] else x f);
  fs_remove_swap := λ pid f x, Ok 0 (λ f', if decide (f' = f) then None else x f');
  fs_write_at := memfs_write;
  fs_read_at := memfs_read;
  fs_filedup := λ _, mret tt;
  fs_fileclose := λ _, mret [];
  fs_idup := λ _, mret tt;
  fs_iput := λ _, mret tt;
  fs_namei := λ _, mret None;
  fs_ilock := λ _, mret tt;
  fs_iunlockput := λ _, mret tt;
  fs_readi := λ _ _ _, mret (0, [])
}.

#[global, refine] Instance memfs_swap : SwapFile memfs := { sf_holds := λ x f c, x f = Some c }.
Proof.
  - intros x f c off b Hc Ho Hmax. eexists. split.
    + unfold fs_write_at. cbn [memfs_fs]. unfold memfs_write. rewrite Hc.
      rewrite decide_True by lia. reflexivity.
    + cbv beta. rewrite decide_True by done. by rewrite Nat2Z.id.
  - intros x f c off n Hc Hn. exists x. split; [|done].
    unfold fs_read_at. cbn [memfs_fs]. unfold memfs_read. rewrite Hc.
    rewrite !Nat2Z.id, length_take, length_drop. by replace (n `min` (length c - off))%nat with n by lia.
Defined.

(** ** The process *)

Definition swap_ptes : ptes := [(1, 0x304007); (2, 0x305007); (3, 0x306206)].
Definition swap_phys : phys := demo_phys2 swap_ptes [] true.
Definition swap_owners : Z → gset (Z * Z) := demo_owners swap_ptes [].

Definition unused : page_link := mkLink (mkPage 0xFFFFFFFF NOT_USED 0xFFFFFFFF 0 0) None None.
Definition swap_paging : paging :=
  mkPaging
    (mkLink (mkPage 0x1000 IN_MEMORY 0xFFFFFFFF 0 0) (Some 1%nat) None ::
     mkLink (mkPage 0x2000 IN_MEMORY 0xFFFFFFFF 0 1) None (Some 0%nat) ::
     mkLink (mkPage 0x3000 IN_DISK 0 0 2) None None :: replicate 29 unused)
    (Some 0%nat) 2 1 (1 :: replicate 16 0) 0 0.

Definition swap_bytes : list Z := replicate (Z.to_nat 4096) 9.
Definition swap_files : memfs := λ f, if decide (f = 0) then Some swap_bytes else None.

Lemma swap_ptes_ok : ptes_ok swap_ptes.
Proof.
  split; [repeat (constructor; [unfold is_u32; simpl; lia|]); constructor|].
  apply (bool_decide_unpack _). vm_compute. done.
Qed.

Lemma swap_phys_inv sel :
  @vm_inv (demo_config sel) 0 demo_dirs swap_phys [spare] swap_owners (λ _, 0).
Proof.
  apply (demo_inv sel swap_ptes [] true); [apply swap_ptes_ok|split; constructor| |constructor|done].
  assert (Hin : ∀ f, f = 0x80304000 ∨ f = 0x80305000 → f ∉ [spare; pd1; pd2; tb1; tb2])
    by (intros f [-> | ->]; apply (bool_decide_unpack _); vm_compute; done).
  constructor; [|constructor; [|constructor; [|constructor]]]; intros HP; simpl in *; [..|done].
  - split; [done|]. split; [by apply Hin; left|]. intros _.
    apply leibniz_equiv, (bool_decide_unpack _). vm_compute. done.
  - split; [done|]. split; [by apply Hin; right|]. intros _.
    apply leibniz_equiv, (bool_decide_unpack _). vm_compute. done.
Qed.

Lemma swap_paging_ok : paging_ok swap_paging [0; 1]%nat.
Proof.
  assert (Hlk : ∀ i p, pages swap_paging !! i = Some p →
    (i = 0%nat ∧ p = mkPage 0x1000 IN_MEMORY 0xFFFFFFFF 0 0) ∨
    (i = 1%nat ∧ p = mkPage 0x2000 IN_MEMORY 0xFFFFFFFF 0 1) ∨
    (i = 2%nat ∧ p = mkPage 0x3000 IN_DISK 0 0 2) ∨
    ((2 < i)%nat ∧ p = mkPage 0xFFFFFFFF NOT_USED 0xFFFFFFFF 0 0)).
  { intros [|[|[|i]]] p E; [naive_solver..|].
    apply pages_lookup in E as (l & E & ->). right. right. right. split; [lia|].
    by apply lookup_replicate_1 in E as [-> _]. }
  split; [split| |done].
  - split; [done|done|apply (bool_decide_unpack _); vm_compute; done|].
    intros [|[|k]] i Hk; [..|done]; injection Hk as <-; eexists; (split; [reflexivity|done]).
  - intros [|[|[|i]]] l E Hi; [exfalso; apply Hi; set_solver|exfalso; apply Hi; set_solver| |].
    + by injection E as <-.
    + by apply lookup_replicate_1 in E as [-> _].
  - split.
    + intros i p [[-> ->]|[[-> ->]|[[-> ->]|[Hi ->]]]]%Hlk; simpl; (split; intros Hi');
        try done; try (by apply (bool_decide_unpack _));
        apply list_elem_of_In in Hi'; simpl in Hi'; lia.
    + vm_compute. done.
    + done.
    + intros i p [[-> ->]|[[-> ->]|[[-> ->]|[Hi ->]]]]%Hlk Hd; try done. by exists 0%nat, 1.
    + intros [|k] c E Hc; [exists 2%nat; eexists; split; [reflexivity|done]|].
      by apply lookup_replicate_1 in E as [-> _].
    + intros i j p q [[-> ->]|[[-> ->]|[[-> ->]|[Hi ->]]]]%Hlk
        [[-> ->]|[[-> ->]|[[-> ->]|[Hj ->]]]]%Hlk Hp Hq; done.
    + intros i j p q [[-> ->]|[[-> ->]|[[-> ->]|[Hi ->]]]]%Hlk
        [[-> ->]|[[-> ->]|[[-> ->]|[Hj ->]]]]%Hlk Hp Hq; done.
    + intros i p [[-> ->]|[[-> ->]|[[-> ->]|[Hi ->]]]]%Hlk Hp; done.
    + intros i p [[-> ->]|[[-> ->]|[[-> ->]|[Hi ->]]]]%Hlk Hp; done.
Qed.

Definition swap_proc : proc := demo_proc pd1 (Some 0).
Definition swap_state : kernel memfs := demo_kernel swap_phys swap_files.

Lemma swap_pages_lookup i q :
  pages swap_paging !! i = Some q → pg_state q ≠ NOT_USED → (i < 3)%nat.
Proof.
  destruct i as [|[|[|i]]]; [lia..|]. intros (l & E & ->)%pages_lookup Hq.
  by apply lookup_replicate_1 in E as [-> _].
Qed.

Lemma swap_pte v :
  user_vpn v → pte_of (mem swap_phys) pd1 v = assoc v swap_ptes.
Proof.
  intros Hv. unfold swap_phys, demo_phys2. cbn [mem].
  rewrite demo_pte by (apply swap_ptes_ok || (by split; constructor) || done ||
    (unfold demo_dirs; set_solver)). done.
Qed.

Lemma swap_demo_ok :
  swap_ok swap_proc swap_phys swap_paging swap_files swap_owners (λ _, 0) [0; 1]%nat swap_bytes.
Proof.
  assert (Hlen : length swap_bytes = Z.to_nat 4096) by (unfold swap_bytes; apply length_replicate).
  split.
  - apply swap_paging_ok.
  - by exists 0.
  - unfold swap_bytes. apply Forall_replicate. unfold is_u8. lia.
  - rewrite Hlen. consts. lia.
  - intros [|k] b E Hb; [rewrite Hlen; lia|].
    change (replicate 16 0 !! k = Some b) in E. by apply lookup_replicate_1 in E as [-> _].
  - intros i q Hq Hst. pose proof (swap_pages_lookup i q Hq ltac:(congruence)).
    destruct i as [|[|[|i]]]; [..|lia]; injection Hq as <-; [| |done].
    + exists 0x80304000. split; [apply (bool_decide_unpack _); vm_compute|]; done.
    + exists 0x80305000. split; [apply (bool_decide_unpack _); vm_compute|]; done.
  - intros i q Hq Hst. pose proof (swap_pages_lookup i q Hq ltac:(unfold on_disk in Hst; congruence)).
    destruct i as [|[|[|i]]]; [..|lia]; injection Hq as <-; [done..|].
    cbn [pgdir swap_proc demo_proc page_id]. by rewrite swap_pte by done.
Qed.

