(* ===== verification/UvmDemo.v ===== *)
(** * UvmDemo: address spaces to build, copy and free

    A parent with two resident pages and an empty second address space, on
    which the theorems about [vm.c] are applied. *)

From S2P Require Import Prelude Mmu Phys Config Kalloc PageTable Vmspace UvmInv CopyInv State.
From S2P Require Import PageList Swap Uvm UvmSpec CopySpec Demo SwapInv SwapDemo.

Definition fork_ptes : ptes := [(0, 0x304007); (1, 0x305007)].
Definition fork_phys : phys := demo_phys2 fork_ptes [] true.
Definition fork_owners : Z → gset (Z * Z) := demo_owners fork_ptes [].
Definition fork_state : kernel memfs := demo_kernel fork_phys swap_files.
Definition fork_proc : proc := demo_proc pd1 (Some 0).

Lemma fork_ptes_ok : ptes_ok fork_ptes.
Proof.
  split; [|by apply (bool_decide_unpack _); vm_compute].
  repeat constructor; unfold is_u32; simpl; lia.
Qed.

Lemma fork_phys_inv sel :
  @vm_inv (demo_config sel) 0 demo_dirs fork_phys (demo_free true) fork_owners (λ _, 0).
Proof.
  assert (He : ptes_ok []) by (split; constructor).
  apply demo_inv; [apply fork_ptes_ok|done| |constructor|].
  - constructor; [|constructor; [|constructor]]; intros _; (split; [done|]); (split; [|done]);
      apply (bool_decide_unpack _); vm_compute; done.
  - done.
Qed.

Lemma fork_pte v : user_vpn v → pte_of (mem fork_phys) pd1 v = assoc v fork_ptes.
Proof.
  intros Hv. unfold fork_phys, demo_phys2. cbn [mem]. rewrite demo_pte; [done|apply fork_ptes_ok|by split; constructor| |done].
  by left.
Qed.


(** The second address space's process frees the first one. *)
Lemma freevm_gives_back_witness :
  let cfg := demo_config SCFIFO in
  let p := demo_proc pd2 (Some 0) in
  ∃ ph' L' O', @freevm cfg memfs _ pd1 (frame fork_state 0 p fork_phys demo_paging swap_files (V2P pd2)) =
      Ok tt (frame fork_state 0 p ph' demo_paging swap_files (V2P pd2)) ∧
    @vm_inv cfg 0 [pd2] ph' L' O' (λ _, 0) ∧
    (∀ f pg v, (pg, v) ∈ O' f ↔ (pg, v) ∈ fork_owners f ∧ pg ≠ pd1) ∧
    same_user [pd2] (mem fork_phys) (mem ph') ∧ (∃ A, L' = A ++ demo_free true) ∧
    (@tight cfg [pd1; pd2] fork_phys (demo_free true) fork_owners (λ _, 0) →
     @tight cfg [pd2] ph' L' O' (λ _, 0)).
Proof.
  intros cfg p.
  apply (@freevm_gives_back cfg (demo_config_ok SCFIFO) memfs memfs_fs 0 [pd2] fork_phys
    (demo_free true) fork_owners (λ _, 0) pd1 fork_state 0 p demo_paging swap_files (V2P pd2)).
  - split; [done|cbn; lia].
  - by right.
  - apply fork_phys_inv.
  - apply (bool_decide_unpack _). vm_compute. done.
  - done.
  - done.
Defined.

