(* ===== verification/Replacement.v ===== *)
(** * Replacement: what the page-replacement policies choose

    The theorems on [choosePageToSwap] and [update_meta_data], stated for a
    process whose paging metadata and swap file satisfy [swap_ok]. *)

From S2P Require Import Prelude Mmu Phys Config Kalloc PageTable Vmspace State PageList.
From S2P Require Import Swap Policy SwapInv Ageing Demo SwapDemo.

Section Replacement.
Context `{Config} {F : Type} `{SwapFile F}.

(** The accessed bit of the page [j]. *)
Definition accessed (ph : phys) (p : proc) (g : paging) (j : nat) : bool :=
  has (pte_of (mem ph) (pgdir p) (vpn (page_id (page_at g j)))) PTE_A.

Section Claims.
Context (d : Z) (PG : list Z) (ph : phys) (Lf : list Z) (O : Z → gset (Z * Z)) (X : Z → Z).
Context (s : kernel F) (i : nat) (p : proc) (g : paging) (x : F) (c : list Z) (L : list nat).
Hypothesis Hruns : runs s i.
Hypothesis Hflag : global_pgdir_flag s ≠ 1.
Hypothesis Hinv : vm_inv d PG ph Lf O X.
Hypothesis Hpd : pgdir p ∈ PG.
Hypothesis Hok : swap_ok p ph g x O X L c.

Lemma so_links : links g L.
Proof. apply (so_paging _ _ _ _ _ _ _ _ Hok). Qed.


(** LAPA does not look at the counters: whatever the counters of the
    resident pages are, the page at the head of the list is evicted, because
    the test that should skip the code and stack pages skips every page. *)
Theorem lapa_evicts_head h R :
  SELECTION = LAPA → L = h :: R →
  choosePageToSwap (frame s i p ph g x (V2P (pgdir p))) =
    Ok (Some h) (frame s i p ph g x (V2P (pgdir p))).
Proof.
  intros Hsel HL.
  pose proof (choose_victim d PG ph Lf O X s i p g x (V2P (pgdir p)) L Hruns Hflag Hinv
    (proj1 so_links) (swap_resident _ _ _ _ _ _ _ _ Hok) h R HL) as E.
  rewrite Hsel in E. rewrite E by done. unfold victim. by rewrite Hsel.
Qed.


(** With no user page in the queue the loop only rotates it. *)
Lemma scfifo_spins fuel ph' g' h R :
  (2 ≤ length L)%nat → ¬ Exists (λ j, user_at ph p g j = true) L →
  sc_state d PG Lf O X p ph g L ph' g' (h :: R) →
  SCFIFO_loop fuel (pgdir p) h (frame s i p ph' g' x (V2P (pgdir p))) = Err NoFuel.
Proof.
  intros Htwo Hno. revert ph' g' h R. induction fuel as [|fuel IH]; intros ph' g' h R Hs; [done|].
  pose proof (sc_perm _ _ _ _ _ _ _ _ _ _ _ _ Hs) as Hperm.
  assert (HR : R ≠ []) by (intros ->; apply Permutation_length in Hperm; simpl in *; lia).
  destruct (sc_round d PG Lf O X s i p ph g x (V2P (pgdir p)) L Hruns (swap_resident _ _ _ _ _ _ _ _ Hok)
    (swap_distinct _ _ _ _ _ _ _ _ Hok) ph' g' h R fuel Hs HR)
    as [[Hv _]|(_ & ph2 & g2 & h2 & Hh & E & Hs2 & _)].
  - exfalso. apply Hno, Exists_exists. exists h. split; [rewrite <- Hperm; by left|].
    by apply andb_true_iff in Hv as [? _].
  - rewrite E. destruct (R ++ [h]) as [|h' R'] eqn:ER; [by destruct R|]. injection Hh as ->. by eapply IH.
Qed.

(** C23. The second-chance loop terminates exactly when the queue holds a user
    page: without one it moves pages from the head to the tail for ever. *)
Theorem scfifo_loop_terminates_iff h R :
  SELECTION = SCFIFO → (2 ≤ length L)%nat → L = h :: R →
  (∃ fuel v st, SCFIFO_loop fuel (pgdir p) h (frame s i p ph g x (V2P (pgdir p))) = Ok v st) ↔
  Exists (λ j, user_at ph p g j = true) L.
Proof.
  intros Hsel Htwo HL. split.
  - intros (fuel & v & st & E). destruct (decide (Exists (λ j, user_at ph p g j = true) L)) as [|Hno]; [done|].
    rewrite (scfifo_spins fuel ph g h R Htwo Hno) in E; [done|].
    rewrite <- HL. apply scs_start; [done|apply so_links].
  - intros Hex.
    destruct (choose_scfifo d PG Lf O X s i p ph g x (V2P (pgdir p)) L Hsel Hruns Hflag Hinv so_links
      (swap_resident _ _ _ _ _ _ _ _ Hok) (swap_distinct _ _ _ _ _ _ _ _ Hok) Htwo Hex)
      as (ph' & g' & v & A & B & E & _).
    unfold choosePageToSwap in E. erewrite bind_ok in E by (by apply on_paging_frame).
    erewrite bind_ok in E by (by apply swap_pgdir_eq).
    rewrite (dll_head _ _ (proj1 so_links)), HL in E. cbn [lookup list_lookup] in E. rewrite Hsel in E.
    apply bind_inv in E as (v' & st & E & _). by exists SCFIFO_fuel, v', st.
Qed.

(** A timer tick under AQ: every accessed page changes places with the
    page after it, if that one was not accessed; all accessed bits are cleared,
    no memory changes, and the metadata stays well formed. *)
Theorem tick_advances_queue :
  SELECTION = AQ →
  ∃ ph' g', update_meta_data (frame s i p ph g x (V2P (pgdir p))) =
      Ok tt (frame s i p ph' g' x (V2P (pgdir p))) ∧
    vm_inv d PG ph' Lf O X ∧ same_user PG (mem ph) (mem ph') ∧
    swap_ok p ph' g' x O X (aq (accessed ph p g) L) c ∧
    ∀ j, j ∈ L → accessed ph' p g j = false.
Proof.
  intros Hsel. pose proof so_links as Hl.
  pose proof (swap_resident _ _ _ _ _ _ _ _ Hok) as Hres.
  pose proof (swap_distinct _ _ _ _ _ _ _ _ Hok) as Hdis.
  unfold update_meta_data. rewrite Hsel, (bool_decide_false (AQ = LAPA)), (bool_decide_false (AQ = NFUA)), (bool_decide_true (AQ = AQ)) by done. cbn [orb when].
  erewrite bind_ok by done. erewrite bind_ok by (by apply myproc_frame). cbn [pgdir set_paging_].
  unfold switchQueueAQ. erewrite bind_ok by (by apply on_paging_frame).
  rewrite (dll_head _ _ (proj1 Hl)), <- head_lookup.
  assert (Hs : sc_state d PG Lf O X p ph g L ph g ([] ++ L)) by (by apply scs_start).
  destruct (decide (L = [])) as [HL|HL].
  { exists ph, g. rewrite HL in *. split; [done|]. split; [done|]. split; [by intros ? ?|]. split; [done|].
    by intros j ?%not_elem_of_nil. }
  destruct (adv_loop d PG Lf O X s i p ph g x (V2P (pgdir p)) L Hruns Hres Hdis (length L) [] L ph g SCFIFO_fuel)
    as (ph1 & g1 & t & E & Hs1 & HtL & Hacc); try done.
  { by intros ? ?%not_elem_of_nil. }
  { pose proof (dll_length _ _ (proj1 Hl)). unfold SCFIFO_fuel. lia. }
  cbn [app] in Hs1. erewrite bind_ok by exact E.
  assert (Htin : t ∈ aq (accessed ph p g) L) by (by rewrite aq_perm).
  destruct (adv_acc d PG Lf O X p ph g L Hres ph1 g1 _ t Hs1 Htin) as (l & El & Eid & _ & _).
  destruct (sc_clear d PG Lf O X p ph g L Hres Hdis ph1 g1 _ t Hs1 Htin) as (ph2 & Ec & Hs2 & Ht & Hk).
  exists ph2, g1. split.
  { erewrite bind_ok by (by apply get_link). rewrite Eid. by apply on_phys_frame. }
  split; [apply Hs2|]. split; [apply Hs2|]. split; [by eapply swap_ok_sc|].
  intros j Hj. destruct (decide (j = t)) as [->|Hne]; [exact Ht|].
  transitivity (accessed ph1 p g j); [by apply Hk|by apply Hacc].
Qed.

Lemma aged_ok ph' g' :
  sc_state d PG Lf O X p ph g L ph' g L → links g' L →
  (∀ j, pages g' !! j = aged p ph g L j <$> pages g !! j) →
  available_Offsets g' = available_Offsets g → num_pages_disk g' = num_pages_disk g →
  num_pages_ram g' = num_pages_ram g → swap_ok p ph' g' x O X L c.
Proof.
  intros Hs Hl' Hpg Eo Ed Er. destruct (swap_ok_sc _ _ _ _ _ _ _ _ _ _ _ _ _ _ Hpd Hok Hs) as
    [[_ Hm Hr] Hf Hby Hmax Hsl Hmem Hdk].
  assert (Hat : ∀ j q', pages g' !! j = Some q' → ∃ q, pages g !! j = Some q ∧ same_id q q').
  { intros j q' E. rewrite Hpg in E. apply fmap_Some in E as (q & Eq & ->). exists q. split; [done|].
    unfold aged. by case_decide. }
  assert (HF : Forall2 same_id (pages g) (pages g')).
  { apply Forall2_lookup. intros j. specialize (Hat j). rewrite Hpg in *.
    destruct (pages g !! j) as [q|]; constructor. by destruct (Hat _ eq_refl) as (q0 & [= ->] & ?). }
  split; [|done|done|done| | |].
  - split; [done| |congruence]. rewrite Eo, Ed. by eapply meta_ok_counters.
  - by rewrite Eo.
  - intros j q' Eq' Hst. destruct (Hat j q' Eq') as (q & Eq & Hi & Hst' & _).
    rewrite Hi. apply (Hmem j); congruence.
  - intros j q' Eq' Hst. destruct (Hat j q' Eq') as (q & Eq & Hi & Hst' & _).
    rewrite Hi. apply (Hdk j); [done|]. unfold on_disk in *. congruence.
Qed.

(** A timer tick under NFUA and LAPA: the counter of every resident page is
    shifted right and gets the accessed bit as its new top bit; all accessed
    bits are cleared, no memory changes, and the metadata stays well formed. *)
Theorem tick_ages_counters :
  SELECTION = NFUA ∨ SELECTION = LAPA →
  ∃ ph' g', update_meta_data (frame s i p ph g x (V2P (pgdir p))) =
      Ok tt (frame s i p ph' g' x (V2P (pgdir p))) ∧
    vm_inv d PG ph' Lf O X ∧ same_user PG (mem ph) (mem ph') ∧ swap_ok p ph' g' x O X L c ∧
    ∀ j, j ∈ L → page_at g' j = age (accessed ph p g j) (page_at g j) ∧
      accessed ph' p g j = false.
Proof.
  intros Hsel. pose proof so_links as Hl.
  pose proof (swap_resident _ _ _ _ _ _ _ _ Hok) as Hres.
  pose proof (swap_distinct _ _ _ _ _ _ _ _ Hok) as Hdis.
  destruct (age_loop_spec d PG Lf O X s i p ph g x (V2P (pgdir p)) L Hruns Hres Hdis [] L ph g list_fuel)
    as (ph' & g' & E & Hs & Hl' & Hpg & (Eo & Ed & Er) & Hacc); try done.
  { intros j. unfold aged. cbn. destruct (pages g !! j); cbn; [|done]. by rewrite decide_False by apply not_elem_of_nil. }
  { by intros ? ?%not_elem_of_nil. }
  { pose proof (dll_length _ _ (proj1 Hl)). unfold list_fuel. lia. }
  exists ph', g'. split.
  - unfold update_meta_data. erewrite bind_ok; [by destruct Hsel as [-> | ->]|].
    replace (bool_decide (SELECTION = LAPA) || bool_decide (SELECTION = NFUA)) with true
      by (by destruct Hsel as [-> | ->]). cbn [when].
    erewrite bind_ok by (by apply on_paging_frame).
    rewrite (dll_head _ _ (proj1 Hl)), <- head_lookup. exact E.
  - split; [apply Hs|]. split; [apply Hs|]. split; [by apply aged_ok|]. intros j Hj.
    split; [|by apply Hacc]. specialize (Hpg j). apply list_elem_of_lookup in Hj as Hj'. destruct Hj' as [k Hk].
    destruct (dll_links _ _ (proj1 Hl) k j Hk) as (l & El & _).
    unfold pages in Hpg. rewrite !list_lookup_fmap, El in Hpg. cbn in Hpg. rewrite aged_in in Hpg by done.
    unfold page_at. rewrite El. destruct (pages_meta_data g' !! j); [|done]. cbn in Hpg. by injection Hpg.
Qed.
End Claims.
End Replacement.

(** ** The process of [SwapDemo] under each policy *)

Definition demo_frame (ph : phys) (g : paging) : kernel memfs :=
  frame swap_state 0 swap_proc ph g swap_files (V2P pd1).

Lemma demo_runs : runs swap_state 0.
Proof. split; [done|cbn; lia]. Qed.

Lemma demo_pd : pgdir swap_proc ∈ demo_dirs.
Proof. unfold demo_dirs. set_solver. Qed.

Lemma demo_user : Exists (λ j, user_at swap_phys swap_proc swap_paging j = true) [0; 1]%nat.
Proof.
  left. unfold user_at, page_at. cbn -[pte_of swap_phys has]. by rewrite swap_pte by done.
Qed.


Lemma lapa_evicts_head_witness :
  @choosePageToSwap (demo_config LAPA) memfs (demo_frame swap_phys swap_paging) =
    Ok (Some 0%nat) (demo_frame swap_phys swap_paging).
Proof.
  exact (lapa_evicts_head (H := demo_config LAPA) 0 demo_dirs swap_phys [spare] swap_owners (λ _, 0)
    swap_state 0 swap_proc swap_paging swap_files swap_bytes [0; 1]%nat demo_runs
    ltac:(discriminate) (swap_phys_inv LAPA) swap_demo_ok 0%nat [1%nat] eq_refl eq_refl).
Defined.


Lemma scfifo_loop_terminates_iff_witness :
  ∃ fuel v st, @SCFIFO_loop memfs fuel pd1 0 (demo_frame swap_phys swap_paging) = Ok v st.
Proof.
  apply (proj2 (scfifo_loop_terminates_iff (H := demo_config SCFIFO) 0 demo_dirs swap_phys [spare] swap_owners (λ _, 0)
    swap_state 0 swap_proc swap_paging swap_files swap_bytes [0; 1]%nat demo_runs
    ltac:(discriminate) (swap_phys_inv SCFIFO) swap_demo_ok 0%nat [1%nat] eq_refl ltac:(simpl; lia) eq_refl)
    demo_user).
Defined.

Lemma tick_advances_queue_witness :
  ∃ ph' g', @update_meta_data (demo_config AQ) memfs (demo_frame swap_phys swap_paging) =
    Ok tt (demo_frame ph' g') ∧ same_user demo_dirs (mem swap_phys) (mem ph').
Proof.
  destruct (tick_advances_queue (H := demo_config AQ) 0 demo_dirs swap_phys [spare] swap_owners (λ _, 0)
    swap_state 0 swap_proc swap_paging swap_files swap_bytes [0; 1]%nat demo_runs
    (swap_phys_inv AQ) demo_pd swap_demo_ok eq_refl) as (ph' & g' & E & _ & Hs & _).
  exists ph', g'. split; [exact E|exact Hs].
Defined.

Lemma tick_ages_counters_witness :
  ∃ ph' g', @update_meta_data (demo_config NFUA) memfs (demo_frame swap_phys swap_paging) =
    Ok tt (demo_frame ph' g') ∧ same_user demo_dirs (mem swap_phys) (mem ph').
Proof.
  destruct (tick_ages_counters (H := demo_config NFUA) 0 demo_dirs swap_phys [spare] swap_owners (λ _, 0)
    swap_state 0 swap_proc swap_paging swap_files swap_bytes [0; 1]%nat demo_runs
    (swap_phys_inv NFUA) demo_pd swap_demo_ok (or_introl eq_refl)) as (ph' & g' & E & _ & Hs & _).
  exists ph', g'. split; [exact E|exact Hs].
Defined.
