(* ===== verification/Pgfault.v ===== *)
(** * Pgfault: the page-fault case of [trap] in [trap.c]

    A fault on a present page is a write to a page that is shared
    copy-on-write; a fault on a page in the swap file brings it back; any
    other fault kills the process. *)

From S2P Require Import Prelude Mmu Phys Config Kalloc PageTable Vmspace State PageList Swap Demo.

Section Pgfault.
Context `{Config} {F : Type} `{FileSystem F}.

(** The branch [*pte & PTE_P].  The result tells whether the handler goes on
    to the label [pg_fault]. *)
Definition cow_fault (pg_fault_addr pte : Z) : K F bool :=
  e ← on_phys (kload32 pte);
  let pa := PTE_ADDR e in
  ref ← on_phys (getRef (P2V pa));
  if ref =? 1 then
    when (has e PTE_COW) (on_phys (
      kstore32 pte (Z.land e (notu PTE_COW)) ;;
      e ← kload32 pte; kstore32 pte (Z.lor e PTE_W))) ;;
    mret false
  else if 1 <? ref then
    mem ← on_phys kalloc;
    on_phys kmemLock ;;
    e ← on_phys (kload32 pte);
    let flags := PTE_FLAGS e in
    let flags := if has flags PTE_COW
                 then Z.lor (Z.land flags (notu PTE_COW)) PTE_W else flags in
    (if mem =? 0 then on_myproc (modify (set_killed true))
     else
       page ← read_user (PGROUNDDOWN pg_fault_addr) (Z.to_nat PGSIZE);
       on_phys (kstore_bytes mem page) ;;
       on_phys (kstore32 pte (Z.lor (V2P mem) flags)) ;;
       pd ← myproc pgdir;
       lcr3 (V2P pd)) ;;
    on_phys kmemRelease ;;
    on_phys (decrementRef (P2V pa)) ;;
    mret false
  else mret true.

(** The whole case; [addr] is the content of [cr2].  [*pte] is read without a
    test that [pte] is not 0. *)
Definition page_fault (pg_fault_addr : Z) : K F bool :=
  on_paging (modify (λ g, set_num_of_page_faults (u32 (num_of_page_faults g + 1)) g)) ;;
  pd ← myproc pgdir;
  pte ← on_phys (walkpgdir_aux pd pg_fault_addr false);
  e ← on_phys (kload32 pte);
  proc_pid ← myproc pid;
  if negb (has e PTE_P) && (bool_decide (SELECTION = NONE) || (proc_pid <=? 2)) then mret true
  else
    when (2 <? proc_pid) update_meta_data ;;
    e ← on_phys (kload32 pte);
    if has e PTE_P then cow_fault pg_fault_addr pte
    else if negb (has e PTE_PG) then mret true
    else
      r ← swapPages (PGROUNDDOWN pg_fault_addr);
      mret (r =? -1).

(** ** Copy-on-write *)

Lemma kmem_lock_unlock (s : phys) m :
  kmem_locked s = false →
  set_kmem_locked false (set_mem m (set_kmem_locked true s)) = set_mem m s.
Proof. intros E. destruct s. simpl in *. by subst. Qed.

(** The new flags of the copy. *)
Definition cow_flags (e : Z) : Z :=
  let flags := PTE_FLAGS e in
  if has flags PTE_COW then Z.lor (Z.land flags (notu PTE_COW)) PTE_W else flags.

Lemma cow_flags_low e : 0 ≤ cow_flags e < 4096.
Proof.
  pose proof (PTE_FLAGS_low e). unfold cow_flags. case_match; [|done].
  apply low_lor; [|done]. by apply low_land.
Qed.

Lemma cow_flags_has n e :
  valid_page n → has e PTE_P = true →
  let e' := Z.lor (V2P n) (cow_flags e) in
  has e' PTE_P = true ∧ has e' PTE_U = has e PTE_U ∧
  (has e PTE_COW = true → has e' PTE_W = true ∧ has e' PTE_COW = false) ∧
  (has e PTE_COW = false → has e' PTE_W = has e PTE_W).
Proof.
  intros Hn HP e'. destruct (valid_page_pfn n Hn) as (E & _).
  assert (Hlow : ∀ k, 0 ≤ k < 12 → Z.testbit e' k = Z.testbit (cow_flags e) k).
  { intros k Hk. subst e'. rewrite Z.lor_spec, (aligned_low_bits (V2P n) k); [done| |done].
    rewrite E. dlia. }
  assert (EC : has (PTE_FLAGS e) PTE_COW = has e PTE_COW) by (unfold PTE_FLAGS; by flags).
  rewrite !has_P, !has_U, !has_W, !has_COW, !Hlow by lia. unfold cow_flags. rewrite EC.
  rewrite <- has_P, <- !has_U, <- !has_W, <- !has_COW. rewrite has_P in HP. simpl in HP.
  destruct (has e PTE_COW) eqn:Ec; unfold PTE_FLAGS; (split; [by flags|split; [by flags|]]).
  - split; [|done]. intros _. split; by flags.
  - split; [done|]. intros _. by flags.
Qed.

Section Cow.
Context (d : Z) (PG : list Z) (ph : phys) (L : list Z) (O : Z → gset (Z * Z)) (X : Z → Z).
Context (s : kernel F) (i : nat) (p : proc) (g : paging) (x : F) (va t f : Z).
Hypothesis Hcfg : ConfigOk.
Hypothesis Hruns : runs s i.
Hypothesis Hinv : vm_inv d PG ph L O X.
Hypothesis Hva : user_va_ok va.
Hypothesis Ht : tab (mem ph) (pgdir p) (PDX va) = Some t.
Hypothesis Hin : (pgdir p, vpn va) ∈ O f.
Hypothesis HX : X f = 0.
Let pte := t + 4 * PTX va.
Let e := pte_of (mem ph) (pgdir p) (vpn va).
Let st ph' := frame s i p ph' g x (V2P (pgdir p)).

Lemma cow_pg : pgdir p ∈ PG.
Proof. by apply (vi_own _ _ _ _ _ _ Hinv) in Hin as (? & _). Qed.

Lemma cow_page : valid_page f ∧ f ∉ L ∧ ¬ pt_page (mem ph) PG f.
Proof. by apply (vi_page _ _ _ _ _ _ Hinv) in Hin. Qed.

Lemma cow_entry : is_u32 e ∧ has e PTE_P = true ∧ frame_of e = f.
Proof.
  split; [apply pte_of_u32|]. by apply (vi_own _ _ _ _ _ _ Hinv) in Hin as (_ & _ & ?).
Qed.

Lemma cow_load : kload32 pte ph = Ok e ph.
Proof.
  unfold pte. erewrite kload_pte; [|apply Hinv|apply cow_pg|done].
  by rewrite lookup_pte_vpn by (by apply user_va_vpn).
Qed.

(** Loads depend on the memory only. *)
Lemma cow_load_mem s' : mem s' = mem ph → kload32 pte s' = Ok e s'.
Proof.
  intros E. pose proof cow_load as Hl. unfold kload32, mbind, M_bind, assert_ok, gets in *.
  destruct (kaddr_ok pte 4); [|done]. simpl in *. rewrite E. by injection Hl as ->.
Qed.

Lemma cow_read_mem s' :
  mem s' = mem ph →
  read_user (PGROUNDDOWN va) (Z.to_nat PGSIZE) (st s') =
    Ok (ld_bytes (mem ph) (V2P f) (Z.to_nat PGSIZE)) (st s').
Proof.
  intros E. destruct (user_va_vpn va Hva) as [Hu _].
  replace (PGROUNDDOWN va) with (4096 * vpn va) by (rewrite PGROUNDDOWN_eq by done; unfold vpn; dlia).
  pose proof (read_user_page d PG s i p ph g x L O X (pgdir p) (vpn va) f Hinv Hin) as Hr.
  unfold read_user in *. unfold st. cbn [frame phys_ cr3] in *. rewrite E.
  destruct (user_bytes _ _ _ _); [|done]. by injection Hr as ->.
Qed.

Lemma cow_ref : getRef (P2V (PTE_ADDR e)) ph = Ok (Z.of_nat (size (O f))) ph.
Proof.
  destruct cow_entry as (_ & _ & Hf), cow_page as (Hv & HL & Hp).
  fold (frame_of e). rewrite Hf. rewrite getRef_eq.
  - by rewrite (vi_ref _ _ _ _ _ _ Hinv), HX, Z.add_0_r.
  - apply Hinv.
  - by apply valid_page_ref_ok.
Qed.

(** One mapping left: it becomes writable in place. *)
Lemma cow_fault_single :
  O f = {[(pgdir p, vpn va)]} →
  ∃ ph', cow_fault va pte (st ph) = Ok false (st ph') ∧ vm_inv d PG ph' L O X ∧
    same_user PG (mem ph) (mem ph') ∧
    (has e PTE_COW = true → let e' := pte_of (mem ph') (pgdir p) (vpn va) in
       has e' PTE_W = true ∧ has e' PTE_COW = false ∧ has e' PTE_U = has e PTE_U).
Proof.
  intros HO. unfold cow_fault.
  erewrite bind_ok by (apply on_phys_frame, cow_load).
  erewrite bind_ok by (apply on_phys_frame, cow_ref).
  rewrite HO, size_singleton. change (Z.of_nat 1 =? 1) with true. cbv iota.
  destruct cow_entry as (Hu & HP & Hf). pose proof cow_pg as Hpg.
  destruct (has e PTE_COW) eqn:EC.
  2: { exists ph. split; [done|]. split; [done|]. split; [by intros ? ?|done]. }
  set (e1 := Z.land e (notu PTE_COW)). set (e2 := Z.lor e1 PTE_W).
  assert (Hu1 : is_u32 e1) by (by apply is_u32_land).
  assert (Hu2 : is_u32 e2) by (by apply is_u32_lor).
  assert (Hsub : O f ⊆ {[(pgdir p, vpn va)]}) by (by rewrite HO).
  assert (Hf1 : frame_of e1 = f) by (unfold frame_of, e1; by rewrite PTE_ADDR_clear).
  assert (Hf2 : frame_of e2 = f) by (unfold frame_of, e2; by rewrite PTE_ADDR_set).
  assert (HP1 : has e1 PTE_P = true) by (rewrite has_P in HP |- *; unfold e1; flags; done).
  assert (HP2 : has e2 PTE_P = true) by (rewrite has_P in HP1 |- *; unfold e2; flags; done).
  destruct (put_flags d PG ph L O X (pgdir p) va t Hinv Hpg Hva Ht f e1)
    as [Hinv1 Hs1]; [done..|].
  pose proof (put_tab d PG ph L O X (pgdir p) va t Hinv Hpg Ht e1 Hu1) as Ht1.
  destruct (put_flags d PG _ L O X (pgdir p) va t Hinv1 Hpg Hva Ht1 f e2)
    as [Hinv2 Hs2]; [done..|].
  exists (pte_put t va e2 (pte_put t va e1 ph)). split; [|split; [done|split]].
  - erewrite bind_ok; [reflexivity|]. apply on_phys_frame.
    erewrite bind_ok by (eapply kstore_pte; [apply Hinv|done..]).
    erewrite bind_ok by (eapply kload_pte; [apply Hinv1|apply Hpg|done]).
    rewrite lookup_pte_vpn by (by apply user_va_vpn).
    rewrite (put_pte_of d PG ph L O X (pgdir p) va t Hinv) by (done || by apply user_va_vpn).
    rewrite decide_True by done. eapply kstore_pte; [apply Hinv1|done..].
  - by eapply same_user_trans.
  - intros _. cbv zeta. rewrite (put_pte_of d PG _ L O X (pgdir p) va t Hinv1) by (done || by apply user_va_vpn).
    rewrite decide_True by done. split; [|split]; unfold e2, e1; by flags.
Qed.

(** Several mappings: the page is copied.  The state after the copy, before
    the reference to the old page is given up. *)
Definition cow_copy (n : Z) : phys :=
  pte_put t va (Z.lor (V2P n) (cow_flags e))
    (set_mem (st_bytes (mem ph) (V2P n) (ld_bytes (mem ph) (V2P f) (Z.to_nat PGSIZE)))
      (kalloc_post n ph)).

Section Copy.
Context (n : Z) (L1 : list Z).
Hypothesis HL : L = n :: L1.
Let e' := Z.lor (V2P n) (cow_flags e).
Let m1 := st_bytes (mem ph) (V2P n) (ld_bytes (mem ph) (V2P f) (Z.to_nat PGSIZE)).
Let ph3 := set_mem m1 (kalloc_post n ph).

Lemma copy_fresh :
  vm_inv d PG (kalloc_post n ph) L1 O (fupd X n 1) ∧ O n = ∅ ∧ valid_page n ∧ n ∉ L1 ∧
  ¬ pt_page (mem ph) PG n ∧ X n = 0 ∧ kalloc ph = Ok n (kalloc_post n ph).
Proof.
  pose proof Hinv as Hi. rewrite HL in Hi.
  destruct (vm_inv_kalloc _ _ _ _ _ _ _ Hi) as (E & Hi' & HO & Hv & Hn & Hp).
  split; [done|]. split; [done|]. split; [done|]. split; [done|]. split; [done|].
  split; [|done]. apply (vi_zero _ _ _ _ _ _ Hi). left. left.
Qed.

Lemma copy_agree w : valid_page w → w ≠ n → agree_page (mem ph) m1 w.
Proof.
  destruct copy_fresh as (_ & _ & Hn & _). intros Hw Hne y Hy. apply ld8_st_bytes_out.
  rewrite length_ld_bytes. destruct (pages_disjoint n w Hn Hw (not_eq_sym Hne)); klia.
Qed.

Lemma copy_data_inv : vm_inv d PG ph3 L1 O (fupd X n 1).
Proof.
  destruct copy_fresh as (Hi & _ & _ & Hn & Hp & _).
  apply (vm_inv_data _ _ _ _ _ _ n); [done|done|done|]. intros w Hw Hne. by apply copy_agree.
Qed.

Lemma copy_tab : tab (mem ph3) (pgdir p) (PDX va) = Some t.
Proof.
  rewrite <- Ht. destruct copy_fresh as (_ & _ & _ & _ & Hp & _). pose proof cow_pg as Hpg.
  destruct (pw_dirs _ _ _ (vi_wf _ _ _ _ _ _ Hinv) _ Hpg) as [Hv _].
  apply tab_frame; [apply copy_agree; [done|]|apply PDX_range].
  intros E. apply Hp. left. by rewrite <- E.
Qed.

Lemma copy_entry : is_u32 e' ∧ has e' PTE_P = true ∧ frame_of e' = n.
Proof.
  destruct copy_fresh as (_ & _ & Hn & _), cow_entry as (_ & HP & _).
  destruct (mk_pte n (cow_flags e) Hn (cow_flags_low e)) as (Hu & Hf & _).
  by destruct (cow_flags_has n e Hn HP) as [HP' _].
Qed.

Lemma copy_pt_page w : pt_page (mem ph3) PG w ↔ pt_page (mem ph) PG w.
Proof.
  apply pt_page_frame. intros pg Hpg. destruct copy_fresh as (_ & _ & _ & _ & Hp & _).
  destruct (pw_dirs _ _ _ (vi_wf _ _ _ _ _ _ Hinv) _ Hpg) as [Hv _].
  apply copy_agree; [done|]. intros ->. apply Hp. by left.
Qed.

Lemma copy_inv :
  vm_inv d PG (cow_copy n) L1 (put_owner O (pgdir p) (vpn va) e')
    (put_extra O (fupd X n 1) (pgdir p) (vpn va) e').
Proof.
  destruct copy_fresh as (_ & HO & Hn & HnL & Hp & _), copy_entry as (Hu & HP & Hf).
  pose proof cow_pg as Hpg. destruct (user_va_vpn va Hva) as [_ Hv].
  apply (vm_inv_put _ _ ph3 L1); [apply copy_data_inv|done|done| |].
  - by apply (put_post d PG ph3 L1 O (fupd X n 1) _ _ _ copy_data_inv Hpg Hva copy_tab).
  - split; rewrite Hf, ?HO, ?copy_pt_page; [done|intros; set_solver|intros; set_solver].
Qed.

Lemma copy_ne : n ≠ f.
Proof.
  destruct copy_fresh as (_ & HO & _). intros ->. rewrite HO in Hin. set_solver.
Qed.

(** The counters balance again once the reference is given up. *)
Lemma copy_release :
  1 < Z.of_nat (size (O f)) →
  ∃ ph5, decrementRef f (cow_copy n) = Ok tt ph5 ∧ mem ph5 = mem (cow_copy n) ∧
    vm_inv d PG ph5 L1 (put_owner O (pgdir p) (vpn va) e') X.
Proof.
  intros Hsz. destruct cow_page as (Hv & HfL & Hfp), copy_entry as (Hu & HP & Hf).
  destruct copy_fresh as (_ & HO & Hn & HnL & Hp & HXn & _).
  pose proof copy_inv as Hi. pose proof copy_ne as Hne.
  assert (Hr : referenceCounters (cow_copy n) (pfn f) = Z.of_nat (size (O f))).
  { unfold cow_copy. cbn [pte_put set_mem referenceCounters kalloc_post].
    rewrite upd_ne by (intros E; by apply Hne, pfn_inj).
    rewrite (vi_ref _ _ _ _ _ _ Hinv) by done. lia. }
  assert (Hbound : is_u32 (referenceCounters ph (pfn f))) by (apply (ki_u32 _ _ _ (vi_kmem _ _ _ _ _ _ Hinv))).
  rewrite (vi_ref _ _ _ _ _ _ Hinv), HX in Hbound by done.
  rewrite decrementRef_eq by (try done; apply Hi).
  eexists. split; [done|]. split; [done|]. rewrite Hr.
  rewrite u32_small by (unfold is_u32 in *; lia).
  assert (Hfo : f ∉ L1 ∧ ¬ pt_page (mem (cow_copy n)) PG f).
  { split; [rewrite HL in HfL; set_solver|].
    assert (Hpost := put_post d PG ph3 L1 O (fupd X n 1) _ _ _ copy_data_inv cow_pg Hva copy_tab e' Hu).
    intros [Hpt|[? ?]]%(vp_pt _ _ _ _ _ _ _ Hpost); [|done]. by rewrite copy_pt_page in Hpt. }
  eapply vm_inv_ext; [eapply (vm_inv_set_ref _ _ _ _ _ _ f); [exact Hi|done|apply Hfo|apply Hfo|]|done|].
  { unfold is_u32 in *; lia. }
  intros h. unfold fupd. destruct (decide (h = f)) as [->|Hhf].
  - rewrite put_owner_old by (done || by rewrite Hf). lia.
  - unfold put_extra, fupd. destruct (decide (h = n)) as [->|Hhn].
    + rewrite <- Hf at 2. rewrite put_owner_new by (done || by rewrite Hf, HO).
      rewrite Hf, HO, size_empty, HXn. lia.
    + rewrite put_owner_ne; [lia| |by rewrite Hf]. intros Hh. apply Hhf.
      eapply owner_unique; [apply Hinv|exact Hh|exact Hin].
Qed.

(** Every process reads what it read before. *)
Lemma copy_same : same_user PG (mem ph) (mem (cow_copy n)).
Proof.
  destruct copy_fresh as (_ & HO & Hn & HnL & Hp & _), copy_entry as (Hu & HP & Hf).
  pose proof cow_pg as Hpg. pose proof copy_inv as Hi.
  assert (Hpost := put_post d PG ph3 L1 O (fupd X n 1) _ _ _ copy_data_inv Hpg Hva copy_tab e' Hu).
  assert (Hs3 : same_user PG (mem ph) m1).
  { intros pg va' Hpg' Hva'. destruct (user_va_vpn va' Hva') as [_ Hv'].
    apply (user_byte_same d PG ph L O X); try done.
    - change (pte_of m1) with (pte_of (mem ph3)).
      replace (pte_of (mem ph3) pg (vpn va')) with (pte_of (mem ph) pg (vpn va')); [done|].
      symmetry. apply (lookup_pte_frame _ _ PG); [|done]. intros w Hw.
      destruct (pt_page_valid _ _ _ _ (vi_wf _ _ _ _ _ _ Hinv) Hw).
      apply copy_agree; [done|]. by intros ->.
    - intros h Hh. destruct (vi_page _ _ _ _ _ _ Hinv _ _ _ Hh) as (? & ? & _).
      apply copy_agree; [done|]. intros ->. rewrite HL in H2. set_solver. }
  intros pg va' Hpg' Hva'. destruct (user_va_vpn va' Hva') as [Hu' Hv'].
  destruct (user_va _ Hv') as [_ E2].
  destruct (decide (pg = pgdir p ∧ vpn va' = vpn va)) as [[-> E]|Hd].
  - assert (Eva : va' = 4096 * vpn va + Z.of_nat (Z.to_nat (va' mod 4096))) by (rewrite <- E; unfold vpn; dlia).
    assert (Hk : Z.of_nat (Z.to_nat (va' mod 4096)) < 4096) by dlia.
    rewrite Eva. set (k := Z.to_nat (va' mod 4096)) in *.
    rewrite (user_byte_page _ _ _ _ _ _ _ _ _ k Hinv Hin Hk).
    rewrite (user_byte_page _ _ _ _ _ _ _ _ n k Hi); [|apply elem_put_owner; by rewrite decide_True|done].
    f_equal. rewrite (vp_frame _ _ _ _ _ _ _ Hpost n) by (rewrite ?copy_pt_page; done || lia).
    unfold ph3. cbn [mem set_mem]. unfold m1.
    rewrite (ld8_st_bytes_in _ _ _ k (ld8 (mem ph) (V2P f + Z.of_nat k))).
    + pose proof (ld8_range (mem ph) (V2P f + Z.of_nat k)). unfold u8, is_u8 in *. dlia.
    + apply lookup_ld_bytes. unfold PGSIZE. lia.
  - rewrite <- Hs3 by done. change m1 with (mem ph3).
    eapply (user_byte_post d PG ph3 L1 O); [apply copy_data_inv|apply Hpost|done|done|].
    unfold put_entry. rewrite E2, decide_False by done. split; [done|]. done.
Qed.

Lemma cow_fault_shared :
  1 < Z.of_nat (size (O f)) →
  ∃ ph', cow_fault va pte (st ph) = Ok false (st ph') ∧
    vm_inv d PG ph' L1 (put_owner O (pgdir p) (vpn va) e') X ∧
    same_user PG (mem ph) (mem ph') ∧ pte_of (mem ph') (pgdir p) (vpn va) = e'.
Proof.
  intros Hsz. destruct (copy_release Hsz) as (ph5 & E5 & Em & Hi5).
  destruct copy_fresh as (_ & HO & Hn & HnL & Hp & HXn & Ek), copy_entry as (Hu & HP & Hf).
  destruct cow_entry as (He & _ & Hfe). destruct (valid_page_pfn n Hn) as (_ & _ & Hnz).
  pose proof cow_pg as Hpg. destruct (user_va_vpn va Hva) as [Huv Hv].
  exists ph5. split; [|split; [done|split; [rewrite Em; apply copy_same|]]].
  - unfold cow_fault. erewrite bind_ok by (apply on_phys_frame, cow_load).
    erewrite bind_ok by (apply on_phys_frame, cow_ref).
    rewrite (proj2 (Z.eqb_neq _ 1)), (proj2 (Z.ltb_lt 1 _)) by lia.
    erewrite bind_ok by (apply on_phys_frame, Ek).
    erewrite bind_ok by (apply on_phys_frame; reflexivity).
    erewrite bind_ok by (apply on_phys_frame; apply cow_load_mem; reflexivity).
    fold (cow_flags e). rewrite (proj2 (Z.eqb_neq n 0) Hnz).
    erewrite bind_ok.
    2: { erewrite bind_ok by (apply cow_read_mem; reflexivity).
      erewrite bind_ok by (apply on_phys_frame, kstore_bytes_eq, valid_page_kaddr;
        [done|rewrite length_ld_bytes; klia]).
      erewrite bind_ok by (apply on_phys_frame, (kstore_pte _ PG L1 (pgdir p));
        [apply copy_data_inv|done|apply copy_tab]).
      erewrite bind_ok by (apply myproc_frame; apply Hruns). apply lcr3_frame. }
    erewrite bind_ok by (apply on_phys_frame; reflexivity).
    erewrite bind_ok.
    2: { apply on_phys_frame. fold (frame_of e). rewrite Hfe. apply E5. }
    done.
  - rewrite Em. unfold cow_copy.
    rewrite (put_pte_of d PG ph3 L1 O (fupd X n 1) _ _ _ copy_data_inv Hpg Hva copy_tab) by done.
    by rewrite decide_True.
Qed.
End Copy.

(** The fault is resolved: a page marked copy-on-write has become writable,
    and no process sees a change. *)
Lemma cow_fault_ok :
  L ≠ [] ∨ O f = {[(pgdir p, vpn va)]} →
  ∃ ph' L' O', cow_fault va pte (st ph) = Ok false (st ph') ∧ vm_inv d PG ph' L' O' X ∧
    same_user PG (mem ph) (mem ph') ∧
    (has e PTE_COW = true → let e' := pte_of (mem ph') (pgdir p) (vpn va) in
       has e' PTE_P = true ∧ has e' PTE_W = true ∧ has e' PTE_U = has e PTE_U).
Proof.
  intros Hcase. pose proof (size_owner O f _ _ Hin) as Hsz.
  destruct (decide (O f = {[(pgdir p, vpn va)]})) as [HO|HO].
  - destruct (cow_fault_single HO) as (ph' & E & Hi & Hs & Hfl). exists ph', L, O.
    split; [done|]. split; [done|]. split; [done|]. intros HC. destruct (Hfl HC) as (? & ? & ?).
    split; [|done]. by apply (vi_own _ _ _ _ _ _ Hi) in Hin as (_ & _ & ? & _).
  - assert (HL : ∃ n L1, L = n :: L1) by (destruct Hcase; [destruct L; eauto; done|done]).
    destruct HL as (n & L1 & HL).
    destruct (cow_fault_shared n L1 HL) as (ph' & E & Hi & Hs & He').
    { assert (size (O f) ≠ 1)%nat; [|lia]. intros [y Hy]%size_1_elem_of.
      pose proof Hin as Hy'. rewrite (leibniz_equiv _ _ Hy) in HO, Hy'.
      apply elem_of_singleton in Hy'. by rewrite Hy' in HO. }
    eexists ph', L1, _. split; [done|]. split; [exact Hi|]. split; [done|]. intros HC.
    destruct (copy_fresh n L1 HL) as (_ & _ & Hn & _), cow_entry as (_ & HP & _).
    destruct (cow_flags_has n e Hn HP) as (? & ? & Hcow & _). destruct (Hcow HC).
    cbv zeta. by rewrite He'.
Qed.

(** With no page left for the copy the process is marked killed, but the
    reference to the page is given up although the mapping stays. *)
Lemma cow_fault_full :
  L = [] → 1 < Z.of_nat (size (O f)) →
  ∃ ph', cow_fault va pte (st ph) =
      Ok false (frame s i (set_killed true p) ph' g x (V2P (pgdir p))) ∧
    mem ph' = mem ph ∧ referenceCounters ph' (pfn f) = Z.of_nat (size (O f)) - 1.
Proof.
  intros HL Hsz. destruct cow_page as (Hv & HfL & Hfp), cow_entry as (He & _ & Hfe).
  pose proof (vi_kmem _ _ _ _ _ _ Hinv) as Hk. pose proof (ki_u32 _ _ _ Hk (pfn f)) as Hbound.
  pose proof (vi_ref _ _ _ _ _ _ Hinv f Hv HfL Hfp) as Href. rewrite HX in Href.
  pose proof (ki_list _ _ _ Hk) as Hfl. rewrite HL in Hfl.
  eexists. split; [|split].
  - unfold cow_fault. erewrite bind_ok by (apply on_phys_frame, cow_load).
    erewrite bind_ok by (apply on_phys_frame, cow_ref).
    rewrite (proj2 (Z.eqb_neq _ 1)), (proj2 (Z.ltb_lt 1 _)) by lia.
    erewrite bind_ok by (apply on_phys_frame, kalloc_empty; [apply Hk|done]).
    erewrite bind_ok by (apply on_phys_frame; unfold kmemLock; erewrite bind_ok by done;
      rewrite (ki_unlocked _ _ _ Hk); done).
    erewrite bind_ok by (apply on_phys_frame; apply cow_load_mem; done).
    rewrite Z.eqb_refl.
    erewrite bind_ok by (apply (on_myproc_frame _ _ _ p (set_killed true p) _ g g); done).
    erewrite bind_ok by (apply on_phys_frame; done).
    erewrite bind_ok by (apply on_phys_frame; fold (frame_of e); rewrite Hfe;
      apply decrementRef_eq; done).
    reflexivity.
  - done.
  - cbn [set_referenceCounters referenceCounters set_kmem_locked]. rewrite upd_eq, Href.
    rewrite u32_small; [lia|]. unfold is_u32 in *. lia.
Qed.

End Cow.

(** C2. Copy-on-write isolates processes.  A write fault on a shared
    copy-on-write page is resolved without any process seeing a change of its
    memory; the store that faulted then succeeds, and of all bytes of all
    address spaces it changes exactly the one byte it was meant for.  The
    accounting of pages holds before, between and after. *)
Theorem cow_write_isolated d PG ph L O X (s : kernel F) i p g x va t f b :
  ConfigOk → runs s i → vm_inv d PG ph L O X → user_va_ok va →
  tab (mem ph) (pgdir p) (PDX va) = Some t →
  (pgdir p, vpn va) ∈ O f → X f = 0 → L ≠ [] ∨ O f = {[(pgdir p, vpn va)]} →
  has (pte_of (mem ph) (pgdir p) (vpn va)) PTE_COW = true →
  has (pte_of (mem ph) (pgdir p) (vpn va)) PTE_U = true →
  ∃ ph' L' O' m',
    cow_fault va (t + 4 * PTX va) (frame s i p ph g x (V2P (pgdir p)))
      = Ok false (frame s i p ph' g x (V2P (pgdir p))) ∧
    vm_inv d PG ph' L' O' X ∧ same_user PG (mem ph) (mem ph') ∧
    user_store (mem ph') (pgdir p) va b = Some m' ∧
    vm_inv d PG (set_mem m' ph') L' O' X ∧
    ∀ pg va', pg ∈ PG → user_va_ok va' → user_byte m' pg va' =
      if decide (pg = pgdir p ∧ va' = va) then Some (u8 b) else user_byte (mem ph) pg va'.
Proof.
  intros Hc Hr Hinv Hva Ht Hin HX Hcase HC HU.
  destruct (cow_fault_ok d PG ph L O X s i p g x va t f Hc Hr Hinv Hva Ht Hin HX Hcase)
    as (ph' & L' & O' & E & Hi & Hs & Hfl). destruct (Hfl HC) as (HP & HW & HU').
  destruct (user_va_vpn va Hva) as [Hu Hv].
  assert (Hpg : pgdir p ∈ PG) by (by apply (vi_own _ _ _ _ _ _ Hinv) in Hin as (? & _)).
  assert (Est : ∃ m', user_store (mem ph') (pgdir p) va b = Some m').
  { unfold user_store. rewrite lookup_pte_vpn, HP, HW, HU', HU by done. eauto. }
  destruct Est as [m' Est]. destruct (user_store_private _ _ _ _ _ _ _ _ _ _ Hi Hpg Hva Est) as [Hi' Hb].
  exists ph', L', O', m'. do 5 (split; [done|]). intros pg va' Hpg' Hva'. rewrite Hb by done.
  case_decide; [done|]. by apply Hs.
Qed.

(** C18. When no memory is left for the copy, the handler marks the process
    killed and still decrements the counter of the shared page, whose mapping
    it leaves in place: the counter is then one less than the number of
    mappings. *)
Theorem cow_fault_out_of_memory d PG ph O X (s : kernel F) i p g x va t f :
  ConfigOk → runs s i → vm_inv d PG ph [] O X → user_va_ok va →
  tab (mem ph) (pgdir p) (PDX va) = Some t →
  (pgdir p, vpn va) ∈ O f → X f = 0 → 1 < Z.of_nat (size (O f)) →
  ∃ ph', cow_fault va (t + 4 * PTX va) (frame s i p ph g x (V2P (pgdir p)))
      = Ok false (frame s i (set_killed true p) ph' g x (V2P (pgdir p))) ∧
    (∀ pg v, pte_of (mem ph') pg v = pte_of (mem ph) pg v) ∧
    referenceCounters ph' (pfn f) = Z.of_nat (size (O f)) - 1.
Proof.
  intros Hc Hr Hinv Hva Ht Hin HX Hsz.
  destruct (cow_fault_full d PG ph [] O X s i p g x va t f Hc Hr Hinv Hva Ht Hin HX eq_refl Hsz)
    as (ph' & E & Em & Er).
  exists ph'. split; [exact E|]. split; [|exact Er]. by rewrite Em.
Qed.

End Pgfault.

Lemma cow_write_isolated_witness :
  let cfg := demo_config SCFIFO in let p := demo_proc pd1 (Some 0) in
  let s := demo_kernel (cow_phys true) tt in
  ∃ ph' L' O' m',
    @cow_fault cfg unit 0x1004 0x80301004 (frame s 0 p (cow_phys true) demo_paging tt (V2P pd1))
      = Ok false (frame s 0 p ph' demo_paging tt (V2P pd1)) ∧
    @vm_inv cfg 0 demo_dirs ph' L' O' (λ _, 0) ∧
    same_user demo_dirs (mem (cow_phys true)) (mem ph') ∧
    user_store (mem ph') pd1 0x1004 77 = Some m' ∧
    @vm_inv cfg 0 demo_dirs (set_mem m' ph') L' O' (λ _, 0) ∧
    ∀ pg va', pg ∈ demo_dirs → user_va_ok va' → user_byte m' pg va' =
      if decide (pg = pd1 ∧ va' = 0x1004) then Some (u8 77) else user_byte (mem (cow_phys true)) pg va'.
Proof.
  intros cfg p s.
  apply (cow_write_isolated (H := cfg) 0 demo_dirs (cow_phys true) (demo_free true) (demo_owners cow_ptes cow_ptes)
    (λ _, 0) s 0 p demo_paging tt 0x1004 tb1 shared 77).
  - apply demo_config_ok.
  - split; [done|cbn; lia].
  - apply cow_phys_inv.
  - done.
  - unfold cow_phys, demo_phys2. cbn [mem]. rewrite demo_tab by (apply cow_ptes_ok || done || (unfold demo_dirs; set_solver)).
    done.
  - apply (bool_decide_unpack _). vm_compute. done.
  - done.
  - by left.
  - unfold cow_phys, demo_phys2. cbn [mem pgdir demo_proc p]. rewrite demo_pte by (apply cow_ptes_ok || done || (unfold demo_dirs; set_solver)). done.
  - unfold cow_phys, demo_phys2. cbn [mem pgdir demo_proc p]. rewrite demo_pte by (apply cow_ptes_ok || done || (unfold demo_dirs; set_solver)). done.
Defined.

Lemma cow_fault_out_of_memory_witness :
  let cfg := demo_config SCFIFO in let p := demo_proc pd1 (Some 0) in
  let s := demo_kernel (cow_phys false) tt in
  ∃ ph',
    @cow_fault cfg unit 0x1004 0x80301004 (frame s 0 p (cow_phys false) demo_paging tt (V2P pd1))
      = Ok false (frame s 0 (set_killed true p) ph' demo_paging tt (V2P pd1)) ∧
    (∀ pg v, pte_of (mem ph') pg v = pte_of (mem (cow_phys false)) pg v) ∧
    referenceCounters ph' (pfn shared) = 1.
Proof.
  intros cfg p s.
  apply (cow_fault_out_of_memory (H := cfg) 0 demo_dirs (cow_phys false) (demo_owners cow_ptes cow_ptes)
    (λ _, 0) s 0 p demo_paging tt 0x1004 tb1 shared).
  - apply demo_config_ok.
  - split; [done|cbn; lia].
  - apply (cow_phys_inv SCFIFO false).
  - done.
  - unfold cow_phys, demo_phys2. cbn [mem]. rewrite demo_tab by (apply cow_ptes_ok || done || (unfold demo_dirs; set_solver)).
    done.
  - apply (bool_decide_unpack _). vm_compute. done.
  - done.
  - vm_compute. done.
Defined.
