(* ===== verification/Proc.v ===== *)
(** * Proc: the process table, [proc.c]

    What the routines do to the table is given as functions on the table, which
    run with [ptable.lock] held, and the routines as operations of the kernel that
    apply them.  A routine that calls [sleep] and is not ready to go on is
    [Blocked]; [exit] ends with the call of [sched]. *)

From S2P Require Import Prelude Mmu Phys Config Kalloc PageTable State Spinlock PageList Swap Uvm.

(** ** The table

    [addr i] is the address of [ptable.proc[i]], on which a process sleeps in
    [wait]; a null pointer is 0. *)

Section Table.
Context (addr : nat → Z).

Definition chan_of (o : option nat) : Z := match o with Some i => addr i | None => 0 end.

Definition wakeup1 (c : Z) (t : list proc) : list proc :=
  (λ p, if bool_decide (state p = SLEEPING) && (chan p =? c) then set_state RUNNABLE p else p) <$> t.

(** The first slot that is [UNUSED] becomes an [EMBRYO]. *)
Definition find_unused (t : list proc) : option nat := fst <$> list_find (λ p, state p = UNUSED) t.
Definition embryo (pid : Z) (p : proc) : proc := set_pid pid (set_state EMBRYO p).

(** The first slot with this [pid], whatever its state. *)
Definition find_pid (pid0 : Z) (t : list proc) : option nat := fst <$> list_find (λ p, pid p = pid0) t.
Definition killed_proc (p : proc) : proc :=
  let p := set_killed true p in
  if bool_decide (state p = SLEEPING) then set_state RUNNABLE p else p.

(** The loop of [exit] that passes the children of [cur] to [init]. *)
Fixpoint adopt (k n : nat) (cur : nat) (init : option nat) (t : list proc) : list proc :=
  match n with
  | O => t
  | S n' =>
      let t := match t !! k with
        | Some p =>
            if bool_decide (parent p = Some cur) then
              let t := <[k:=set_parent init p]> t in
              if bool_decide (state p = ZOMBIE) then wakeup1 (chan_of init) t else t
            else t
        | None => t
        end in
      adopt (S k) n' cur init t
  end.

Definition exit_table (cur : nat) (init : option nat) (t : list proc) : list proc :=
  match t !! cur with
  | Some p =>
      let t := wakeup1 (chan_of (parent p)) t in
      let t := adopt 0 (length t) cur init t in
      alter (set_state ZOMBIE) cur t
  | None => t
  end.

(** What [wait] finds: a child that has exited, children, or none. *)
Inductive wait_result := WReap (j : nat) | WKids | WNone.
Definition wait_scan (cur : nat) (t : list proc) : wait_result :=
  match list_find (λ p, parent p = Some cur ∧ state p = ZOMBIE) t with
  | Some (j, _) => WReap j
  | None => if bool_decide (Exists (λ p, parent p = Some cur) t) then WKids else WNone
  end.
Definition reaped (p : proc) : proc :=
  set_state UNUSED (set_killed false (set_pname EmptyString (set_parent None (set_pid 0 p)))).

(** [sleep]: the process waits for a wake-up on [c]. *)
Definition asleep (c : Z) (p : proc) : proc := set_state SLEEPING (set_chan c p).

(** One pass of the scheduler's loop from slot [k] on: the next process to run. *)
Definition next_runnable (k : nat) (t : list proc) : option nat :=
  (λ r, k + r.1)%nat <$> list_find (λ p, state p = RUNNABLE) (drop k t).
End Table.

(** ** Kernel operations *)

Section Proc.
Context `{Config} {F : Type} `{FileSystem F}.
Context (addr : nat → Z) (trapret forkret_ : Z).

Definition on_table (f : list proc → list proc) : K F unit := modify (λ s, set_procs (f (procs s)) s).

Definition wakeup (c : Z) : K F unit := on_table (wakeup1 c).

Definition kill (pid : Z) : K F Z :=
  t ← gets procs;
  match find_pid pid t with
  | Some j => on_table (alter killed_proc j) ;; mret 0
  | None => mret (-1)
  end.

(** [sizeof *p->tf] is 76, [sizeof *p->context] is 20 with [eip] at 16. *)
Definition allocproc : K F (option nat) :=
  t ← gets procs;
  match find_unused t with
  | None => mret None
  | Some j =>
      n ← gets nextpid;
      on_table (alter (embryo n) j) ;;
      modify (set_nextpid (s32 (n + 1))) ;;
      ks ← on_phys kalloc;
      on_proc j (modify (set_kstack ks)) ;;
      if ks =? 0 then on_proc j (modify (set_state UNUSED)) ;; mret None
      else
        let sp := ks + KSTACKSIZE - 76 in
        on_phys (kstore32 (sp - 4) trapret) ;;
        on_phys (kmemset (sp - 24) 0 20) ;;
        on_phys (kstore32 (sp - 24 + 16) forkret_) ;;
        on_proc j (modify (set_context_eip forkret_)) ;;
        p ← on_proc j (gets pid);
        when (paging_on && (2 <? p))
          (on_proc j (modify (λ p, set_paging_ (init_paging (paging_ p)) (set_swapFile None p)))) ;;
        mret (Some j)
  end.

Definition user_tf : trapframe :=
  let ds := Z.lor (Z.shiftl SEG_UDATA 3) DPL_USER in
  mkTf 0 0 0 0 0 0 0 0 0 0 ds ds 0 0 0 (Z.lor (Z.shiftl SEG_UCODE 3) DPL_USER) FL_IF PGSIZE ds.

(** [initcode] is the program linked into the kernel. *)
Definition userinit (initcode : list Z) : K F unit :=
  o ← allocproc;
  match o with
  | None => ub "userinit: null process"
  | Some j =>
      modify (set_initproc (Some j)) ;;
      pd ← setupkvm;
      on_proc j (modify (set_pgdir pd)) ;;
      if pd =? 0 then panic "userinit: out of memory?"
      else
        on_phys (inituvm pd initcode) ;;
        on_proc j (modify (λ p, set_pname "initcode" (set_tf user_tf (set_sz PGSIZE p)))) ;;
        c ← on_fs (fs_namei "/");
        on_proc j (modify (set_cwd c)) ;;
        on_proc j (modify (set_state RUNNABLE))
  end.

Definition growproc (n : Z) : K F Z :=
  sz ← myproc sz;
  pd ← myproc pgdir;
  new ← (if 0 <? n then allocuvm pd sz (u32 (sz + n))
         else if n <? 0 then deallocuvm pd sz (u32 (sz + n))
         else mret sz);
  if negb (n =? 0) && (new =? 0) then mret (-1)
  else
    on_myproc (modify (set_sz new)) ;;
    me ← gets cpu_proc;
    switchuvm me ;;
    mret 0.

(** ** [deepCopyProc] *)

(** The loop that copies the swap file page by page; each read overwrites the
    first bytes of a buffer of zeroes.  A file has at most [MAXFILE] blocks,
    less than 18 pages. *)
Definition COPY_FUEL : nat := 19.

Fixpoint copy_swap (fuel : nat) (f g : Z) (offset : Z) : K F unit :=
  match fuel with
  | O => fail NoFuel
  | S fuel' =>
      '(r, b) ← on_fs (fs_read_at f offset PGSIZE);
      if r =? -1 then mret tt
      else
        on_fs (fs_write_at g offset (b ++ replicate (Z.to_nat PGSIZE - length b) 0)) ;;
        copy_swap fuel' f g (u32 (offset + PGSIZE))
  end.

(** [&child->pages_meta_data[father's link->page.index]]. *)
Definition relink (fl : list page_link) (old o : option nat) : option nat :=
  match o with
  | None => old
  | Some k => match fl !! k with Some l => Some (Z.to_nat (pg_index (page l))) | None => old end
  end.
Definition copy_link (fl : list page_link) (f c : page_link) : page_link :=
  mkLink (page f) (relink fl (pl_next c) (pl_next f)) (relink fl (pl_prev c) (pl_prev f)).

Definition copy_meta (f c : paging) : paging :=
  mkPaging (zip_with (copy_link (pages_meta_data f)) (pages_meta_data f) (pages_meta_data c))
    (relink (pages_meta_data f) (page_list_head_ram c) (page_list_head_ram f))
    (num_pages_ram f) (num_pages_disk f) (available_Offsets c) (num_of_page_faults c) (num_of_page_outs c).

Definition deepCopyProc (father child : nat) : K F unit :=
  f ← on_proc father (gets swapFile);
  fg ← on_proc father (gets paging_);
  match f with
  | None => mret tt
  | Some f =>
      c ← on_proc child (gets swapFile);
      (match c with
       | None => pid ← on_proc child (gets pid); g ← on_fs (fs_create_swap pid); on_proc child (modify (set_swapFile (Some g)))
       | Some _ => mret tt
       end) ;;
      c ← on_proc child (gets swapFile);
      match c with
      | None => ub "swapFile is null"
      | Some g =>
          copy_swap COPY_FUEL f g 0 ;;
          on_proc child (modify (λ p, set_paging_ (set_available_Offsets (available_Offsets fg) (paging_ p)) p))
      end
  end ;;
  on_proc child (modify (λ p, set_paging_ (copy_meta fg (paging_ p)) p)).

(** ** [fork], [exit], [wait] *)

Definition dup_file (o : option Z) : K F unit := match o with Some f => on_fs (fs_filedup f) | None => mret tt end.

Definition fork : K F Z :=
  me ← gets cpu_proc;
  match me with
  | None => ub "myproc() is null"
  | Some me =>
      o ← allocproc;
      match o with
      | None => mret (-1)
      | Some np =>
          cur ← on_proc me (gets id);
          pd ← copyuvm (pgdir cur) (sz cur);
          on_proc np (modify (set_pgdir pd)) ;;
          if pd =? 0 then
            ks ← on_proc np (gets kstack);
            on_phys (kfree ks) ;;
            on_proc np (modify (λ p, set_state UNUSED (set_kstack 0 p))) ;;
            mret (-1)
          else
            on_proc np (modify (λ p, set_tf (tf cur) (set_parent (Some me) (set_sz (sz cur) p)))) ;;
            when (paging_on && (2 <? pid cur)) (deepCopyProc me np) ;;
            on_proc np (modify (λ p, set_paging_ (set_num_of_page_outs 0 (set_num_of_page_faults 0 (paging_ p))) p)) ;;
            on_proc np (modify (λ p, set_tf (mkTf (tf_edi (tf p)) (tf_esi (tf p)) (tf_ebp (tf p)) (tf_oesp (tf p)) (tf_ebx (tf p))
              (tf_edx (tf p)) (tf_ecx (tf p)) 0 (tf_gs (tf p)) (tf_fs (tf p)) (tf_es (tf p)) (tf_ds (tf p)) (tf_trapno (tf p))
              (tf_err (tf p)) (tf_eip (tf p)) (tf_cs (tf p)) (tf_eflags (tf p)) (tf_esp (tf p)) (tf_ss (tf p))) p)) ;;
            forM (ofile cur) dup_file ;;
            on_proc np (modify (λ p, set_ofile (zip_with (λ f old, match f with Some _ => f | None => old end) (ofile cur) (ofile p)) p)) ;;
            match cwd cur with
            | Some c => on_fs (fs_idup c)
            | None => ub "cwd is null"
            end ;;
            on_proc np (modify (λ p, set_pname (pname cur) (set_cwd (cwd cur) p))) ;;
            p ← on_proc np (gets pid);
            on_proc np (modify (set_state RUNNABLE)) ;;
            mret p
      end
  end.

(** [if(curproc->ofile[fd]){ fileclose(curproc->ofile[fd]); curproc->ofile[fd] = 0; }] *)
Definition close_fd (me fd : nat) : K F unit :=
  l ← on_proc me (gets ofile);
  match l !! fd with
  | Some (Some f) =>
      ws ← on_files (fs_fileclose f);
      forM ws wakeup ;;
      on_proc me (modify (λ p, set_ofile (<[fd:=None]> (ofile p)) p))
  | _ => mret tt
  end.

Definition exit : K F unit :=
  me ← gets cpu_proc;
  init ← gets initproc;
  match me with
  | None => ub "myproc() is null"
  | Some me =>
      if bool_decide (init = Some me) then panic "init exiting"
      else
        forM (seq 0 NOFILE) (close_fd me) ;;
        on_fs fs_begin_op ;;
        c ← on_proc me (gets cwd);
        match c with Some c => on_fs (fs_iput c) | None => ub "cwd is null" end ;;
        on_fs fs_end_op ;;
        on_proc me (modify (set_cwd None)) ;;
        sf ← on_proc me (gets swapFile);
        match sf with
        | Some f =>
            when paging_on (
              p ← on_proc me (gets pid);
              on_fs (fs_remove_swap p f) ;;
              on_proc me (modify (set_swapFile None)))
        | None => mret tt
        end ;;
        on_table (exit_table addr me init)
  end.

Definition wait : K F Z :=
  me ← gets cpu_proc;
  match me with
  | None => ub "myproc() is null"
  | Some me =>
      t ← gets procs;
      match wait_scan me t with
      | WReap j =>
          p ← on_proc j (gets id);
          on_phys (kfree (kstack p)) ;;
          on_proc j (modify (set_kstack 0)) ;;
          freevm (pgdir p) ;;
          on_proc j (modify reaped) ;;
          mret (pid p)
      | WNone => mret (-1)
      | WKids =>
          k ← on_proc me (gets killed);
          if (k : bool) then mret (-1) else on_table (alter (asleep (addr me)) me) ;; fail (Blocked "wait")
      end
  end.

(** ** Scheduling *)

(** The scheduler takes the next process from slot [k] on and switches to it. *)
Definition dispatch (k : nat) : K F (option nat) :=
  t ← gets procs;
  match next_runnable k t with
  | None => mret None
  | Some i =>
      modify (set_cpu_proc (Some i)) ;;
      switchuvm (Some i) ;;
      on_proc i (modify (set_state RUNNING)) ;;
      mret (Some i)
  end.

(** Back in the scheduler. *)
Definition undispatch : K F unit :=
  switchkvm ;;
  modify (set_cpu_proc None).

(** The checks of [sched] before it switches. *)
Definition sched_checks (held : bool) : K F unit :=
  c ← on_cpu (gets id);
  st ← myproc state;
  if negb held then panic "sched ptable.lock"
  else if negb (ncli c =? 1) then panic "sched locks"
  else if bool_decide (st = RUNNING) then panic "sched running"
  else if intr_flag c then panic "sched interruptible"
  else mret tt.

Definition yield : K F unit :=
  on_cpu pushcli ;;
  on_myproc (modify (set_state RUNNABLE)) ;;
  sched_checks true.

(** [sleep(c, lk)] up to the switch; [lk] is null, or says whether the lock is
    [ptable.lock] itself. *)
Definition sleep (c : Z) (lk : option bool) : K F unit :=
  me ← gets cpu_proc;
  match me with
  | None => panic "sleep"
  | Some _ =>
      match lk with
      | None => panic "sleep without lk"
      | Some own =>
          when (negb own) (on_cpu pushcli ;; on_cpu popcli) ;;
          on_myproc (modify (asleep c)) ;;
          sched_checks true
      end
  end.

(** The rest of it, when the process runs again. *)
Definition sleep_end (own : bool) : K F unit :=
  on_myproc (modify (set_chan 0)) ;;
  when (negb own) (on_cpu popcli ;; on_cpu pushcli).

(** The end of [yield]. *)
Definition yield_end : K F unit := on_cpu popcli.

End Proc.
