(* ===== verification/ProcSpec.v ===== *)
(** * ProcSpec: the life of processes

    The process table as a machine: every step is one critical section of
    [proc.c], run on behalf of one process, in any order.  The machine keeps
    process identifiers unique, gives every process a living parent, and loses
    no wake-up of [wait]. *)

From S2P Require Import Prelude Mmu State Proc.

(** ** Tables *)

Definition in_use (p : proc) : bool := negb (bool_decide (state p = UNUSED)).
(** Neither being created nor gone. *)
Definition alive (p : proc) : bool := in_use p && negb (bool_decide (state p = EMBRYO)) && negb (bool_decide (state p = ZOMBIE)).
Definition started (p : proc) : bool := in_use p && negb (bool_decide (state p = EMBRYO)).

(** [q'] is [q], perhaps woken. *)
Record woken (q q' : proc) : Prop := {
  wk_pid : pid q' = pid q;
  wk_parent : parent q' = parent q;
  wk_chan : chan q' = chan q;
  wk_state : state q' = state q ∨ (state q = SLEEPING ∧ state q' = RUNNABLE)
}.

Lemma woken_refl q : woken q q.
Proof. split; auto. Qed.

Lemma woken_flags q q' : woken q q' → in_use q' = in_use q ∧ alive q' = alive q ∧ started q' = started q ∧
  (state q' = ZOMBIE ↔ state q = ZOMBIE) ∧ (state q' = EMBRYO ↔ state q = EMBRYO) ∧ (state q' = UNUSED ↔ state q = UNUSED).
Proof.
  intros [_ _ _ Hs]. unfold alive, started, in_use. destruct Hs as [E|[E1 E2]].
  - by rewrite E.
  - rewrite E1, E2. split_and!; done.
Qed.

Lemma wakeup1_lookup c t k q' :
  wakeup1 c t !! k = Some q' → ∃ q, t !! k = Some q ∧ woken q q' ∧ (state q' = SLEEPING → chan q' ≠ c).
Proof.
  unfold wakeup1. rewrite list_lookup_fmap. destruct (t !! k) as [q|] eqn:E; cbn; intros [= <-]. exists q. split; [done|].
  destruct (bool_decide (state q = SLEEPING) && (chan q =? c)) eqn:Hc.
  - apply andb_true_iff in Hc as [Hs%bool_decide_eq_true Hc]. destruct q; cbn in *. split; [split; cbn; auto|done].
  - split; [apply woken_refl|]. intros Hs. rewrite bool_decide_eq_true_2 in Hc by done. by apply Z.eqb_neq in Hc.
Qed.

Lemma wakeup1_some c t k q : t !! k = Some q → is_Some (wakeup1 c t !! k).
Proof. intros E. unfold wakeup1. rewrite list_lookup_fmap, E. by eexists. Qed.

Lemma length_wakeup1 c t : length (wakeup1 c t) = length t.
Proof. apply length_fmap. Qed.

(** ** The loop of [exit] *)

Section Adopt.
Context (addr : nat → Z) (cur init : nat).
Hypothesis Hci : cur ≠ init.

Definition new_parent (o : option nat) : option nat := if decide (o = Some cur) then Some init else o.

(** What the loop has made of [q]. *)
Record adopted (q q' : proc) : Prop := {
  ad_pid : pid q' = pid q;
  ad_parent : parent q' = new_parent (parent q);
  ad_chan : chan q' = chan q;
  ad_state : state q' = state q ∨ (state q = SLEEPING ∧ state q' = RUNNABLE)
}.

Definition orphan (q : proc) : Prop := parent q = Some cur ∧ state q = ZOMBIE.

Lemma adopt_round k t :
  match t !! k with
  | Some p =>
      ∃ t', adopt addr k 1 cur (Some init) t = t' ∧ length t' = length t ∧
        (∀ j q', t' !! j = Some q' → ∃ q, t !! j = Some q ∧ if decide (j = k) then adopted q q' else woken q q') ∧
        (orphan p → ∀ j q', t' !! j = Some q' → state q' = SLEEPING → chan q' ≠ addr init)
  | None => True
  end.
Proof using Hci.
  destruct (t !! k) as [p|] eqn:Ep; [|done]. cbn [adopt]. rewrite Ep. eexists. split; [reflexivity|].
  assert (Hk : (k < length t)%nat) by (by eapply lookup_lt_Some).
  destruct (bool_decide (parent p = Some cur)) eqn:Eb; [apply bool_decide_eq_true in Eb|apply bool_decide_eq_false in Eb].
  - assert (Hins : ∀ j q', <[k:=set_parent (Some init) p]> t !! j = Some q' →
      ∃ q, t !! j = Some q ∧ (if decide (j = k) then q' = set_parent (Some init) q else q' = q)).
    { intros j q' [(->&<-&_)|[Hne Hj]]%list_lookup_insert_Some; [exists p; by rewrite decide_True|].
      exists q'. by rewrite decide_False by done. }
    assert (Ha : ∀ q, parent q = Some cur → adopted q (set_parent (Some init) q)).
    { intros q Hq. destruct q. cbn in *. subst. split; cbn; auto. unfold new_parent. by rewrite decide_True. }
    destruct (bool_decide (state p = ZOMBIE)) eqn:Ez.
    + split; [by rewrite length_wakeup1, length_insert|]. split.
      * intros j q' (q1 & E1 & Hw & _)%wakeup1_lookup. apply Hins in E1 as (q & E & Hq). exists q. split; [done|].
        case_decide as Hd; [|by subst q1]. subst j q1. rewrite Ep in E. injection E as <-.
        destruct (Ha p Eb) as [A1 A2 A3 A4], Hw as [W1 W2 W3 W4]. split; try congruence. cbn in *. destruct p; cbn in *. exact W4.
      * intros _ j q' (q1 & _ & _ & Hn)%wakeup1_lookup. exact Hn.
    + split; [by rewrite length_insert|]. split.
      * intros j q' (q & E & Hq)%Hins. exists q. split; [done|]. case_decide as Hd; subst; [|apply woken_refl].
        rewrite Ep in E. injection E as <-. by apply Ha.
      * intros [_ Hz]. by apply bool_decide_eq_false in Ez.
  - split; [done|]. split.
    + intros j q' E. exists q'. split; [done|]. case_decide as Hd; [|apply woken_refl]. subst. rewrite Ep in E. injection E as <-.
      split; auto. unfold new_parent. by rewrite decide_False.
    + intros [? _]. done.
Qed.

Lemma adopt_step k n t :
  adopt addr k (S n) cur (Some init) t = adopt addr (S k) n cur (Some init) (adopt addr k 1 cur (Some init) t).
Proof using. done. Qed.

Lemma adopted_woken q q1 q2 : adopted q q1 → woken q1 q2 → adopted q q2.
Proof using.
  intros [A1 A2 A3 A4] [W1 W2 W3 W4]. split; try congruence. destruct W4 as [W4|[W4 W5]], A4 as [A4|[A4 A5]]; try (left; congruence); right; split; congruence.
Qed.
Lemma woken_adopted q q1 q2 : woken q q1 → adopted q1 q2 → adopted q q2.
Proof using.
  intros [W1 W2 W3 W4] [A1 A2 A3 A4]. split; try congruence. destruct W4 as [W4|[W4 W5]], A4 as [A4|[A4 A5]]; try (left; congruence); right; split; congruence.
Qed.
Lemma woken_trans q q1 q2 : woken q q1 → woken q1 q2 → woken q q2.
Proof using.
  intros [W1 W2 W3 W4] [A1 A2 A3 A4]. split; try congruence. destruct W4 as [W4|[W4 W5]], A4 as [A4|[A4 A5]]; try (left; congruence); right; split; congruence.
Qed.

(** Slots from [k] on are adopted, those before are at most woken; if there is
    an orphan among them, [init] has been woken. *)
Lemma adopt_spec n : ∀ k t, (k + n = length t)%nat →
  let t' := adopt addr k n cur (Some init) t in
  length t' = length t ∧
  (∀ j q', t' !! j = Some q' → ∃ q, t !! j = Some q ∧ if decide (k ≤ j)%nat then adopted q q' else woken q q') ∧
  ((∃ j q, (k ≤ j)%nat ∧ t !! j = Some q ∧ orphan q) → ∀ j q', t' !! j = Some q' → state q' = SLEEPING → chan q' ≠ addr init).
Proof using Hci.
  induction n as [|n IH]; intros k t Hl t'.
  { cbn in t'. subst t'. split; [done|]. split.
    - intros j q' E. exists q'. split; [done|]. apply lookup_lt_Some in E as Hlt. rewrite decide_False by lia. apply woken_refl.
    - intros (j & q & Hj & E & _). apply lookup_lt_Some in E. lia. }
  subst t'. rewrite adopt_step. destruct (lookup_lt_is_Some_2 t k ltac:(lia)) as [p Ep].
  pose proof (adopt_round k t) as Hr. rewrite Ep in Hr. destruct Hr as (t1 & -> & Hl1 & H1 & Ho1).
  destruct (IH (S k) t1 ltac:(lia)) as (Hl2 & H2 & Ho2). split; [congruence|]. split.
  - intros j q' E. apply H2 in E as (q1 & E1 & R2). apply H1 in E1 as (q & E & R1). exists q. split; [done|].
    destruct (decide (j = k)) as [->|Hne].
    + rewrite decide_False in R2 by lia. rewrite decide_True by lia. by eapply adopted_woken.
    + destruct (decide (S k ≤ j)%nat); [rewrite decide_True by lia; by eapply woken_adopted|].
      rewrite decide_False by lia. by eapply woken_trans.
  - intros (j & q & Hj & E & Hq) j' q' E' Hs. destruct (decide (j = k)) as [->|Hne].
    + rewrite Ep in E. injection E as <-. apply H2 in E' as (q1 & E1 & R2).
      assert (Hsl : state q1 = SLEEPING ∧ chan q' = chan q1).
      { case_decide; destruct R2 as [_ _ Rc [Rs|[_ Rs]]]; rewrite Rs in *; done. }
      destruct Hsl as [Hsl ->]. by apply (Ho1 Hq j' q1).
    + refine (Ho2 _ j' q' E' Hs).
      destruct (lookup_lt_is_Some_2 t1 j) as [q1 E1]; [rewrite Hl1; by eapply lookup_lt_Some|].
      exists j, q1. split; [lia|]. split; [done|]. apply H1 in E1 as (q0 & E0 & R). rewrite decide_False in R by done.
      rewrite E in E0. injection E0 as <-. destruct R as [_ Rp _ Rs], Hq as [Hq1 Hq2]. split; [congruence|].
      destruct Rs as [Rs|[Rs _]]; congruence.
Qed.
End Adopt.

(** What the machine sees of a process. *)
Definition shape (p : proc) : procstate * Z * option nat * Z := (state p, pid p, parent p, chan p).

(** ** The machine

    [m_fork i] is the slot that process [i] is filling in [fork]. *)

Record ptab := mkPtab { m_tab : list proc; m_next : Z; m_fork : gmap nat nat }.
Definition fupd (f : gmap nat nat) (i : nat) (o : option nat) : gmap nat nat := partial_alter (λ _, o) i f.

Section Machine.
Context (addr : nat → Z) (init : nat).


(** Process [i] runs and is not inside [fork]. *)
Definition runs_free (m : ptab) (i : nat) : Prop :=
  (∃ p, m_tab m !! i = Some p ∧ state p = RUNNING) ∧ m_fork m !! i = None.

Inductive ptstep : ptab → ptab → Prop :=
  | pt_alloc m i j :
      runs_free m i → find_unused (m_tab m) = Some j → m_next m < 2147483647 →
      ptstep m (mkPtab (alter (embryo (m_next m)) j (m_tab m)) (m_next m + 1) (fupd (m_fork m) i (Some j)))
  | pt_abort m i j :
      m_fork m !! i = Some j → (∀ p, m_tab m !! j = Some p → parent p = None) →
      ptstep m (mkPtab (alter (set_state UNUSED) j (m_tab m)) (m_next m) (fupd (m_fork m) i None))
  | pt_link m i j :
      m_fork m !! i = Some j → ptstep m (mkPtab (alter (set_parent (Some i)) j (m_tab m)) (m_next m) (m_fork m))
  | pt_ready m i j :
      m_fork m !! i = Some j → (∀ p, m_tab m !! j = Some p → parent p = Some i) →
      ptstep m (mkPtab (alter (set_state RUNNABLE) j (m_tab m)) (m_next m) (fupd (m_fork m) i None))
  | pt_exit m i :
      runs_free m i → i ≠ init → ptstep m (mkPtab (exit_table addr i (Some init) (m_tab m)) (m_next m) (m_fork m))
  | pt_reap m i j :
      runs_free m i → wait_scan i (m_tab m) = WReap j →
      ptstep m (mkPtab (alter reaped j (m_tab m)) (m_next m) (m_fork m))
  | pt_wait m i :
      runs_free m i → wait_scan i (m_tab m) = WKids →
      ptstep m (mkPtab (alter (asleep (addr i)) i (m_tab m)) (m_next m) (m_fork m))
  | pt_sleep m i p c :
      m_tab m !! i = Some p → state p = RUNNING → (∀ k, c ≠ addr k) →
      ptstep m (mkPtab (alter (asleep c) i (m_tab m)) (m_next m) (m_fork m))
  | pt_wakeup m c : ptstep m (mkPtab (wakeup1 c (m_tab m)) (m_next m) (m_fork m))
  | pt_kill m n j :
      find_pid n (m_tab m) = Some j → ptstep m (mkPtab (alter killed_proc j (m_tab m)) (m_next m) (m_fork m))
  | pt_yield m i p :
      m_tab m !! i = Some p → state p = RUNNING → ptstep m (mkPtab (alter (set_state RUNNABLE) i (m_tab m)) (m_next m) (m_fork m))
  | pt_run m i p :
      m_tab m !! i = Some p → state p = RUNNABLE → ptstep m (mkPtab (alter (set_state RUNNING) i (m_tab m)) (m_next m) (m_fork m))
  | pt_tidy m i p :
      m_tab m !! i = Some p → state p = RUNNING → ptstep m (mkPtab (alter (set_chan 0) i (m_tab m)) (m_next m) (m_fork m))
  | pt_data m t' :
      shape <$> t' = shape <$> m_tab m → ptstep m (mkPtab t' (m_next m) (m_fork m)).

(** Just after [userinit]: one process, all other slots empty. *)
Definition ptstart (m : ptab) : Prop :=
  m_next m = 2 ∧ (∀ i, m_fork m !! i = None) ∧
  (∃ p, m_tab m !! init = Some p ∧ state p = RUNNABLE ∧ pid p = 1 ∧ parent p = None) ∧
  ∀ j q, m_tab m !! j = Some q → j ≠ init → state q = UNUSED ∧ parent q = None.

Inductive ptreach : ptab → Prop :=
  | ptreach_start m : ptstart m → ptreach m
  | ptreach_step m m' : ptreach m → ptstep m m' → ptreach m'.

Record ptinv (m : ptab) : Prop := {
  pv_init : ∃ p, m_tab m !! init = Some p ∧ alive p = true ∧ parent p = None;
  pv_pid : ∀ j q, m_tab m !! j = Some q → in_use q = true → 1 ≤ pid q < m_next m;
  pv_uniq : ∀ i j p q, m_tab m !! i = Some p → m_tab m !! j = Some q → in_use p = true → in_use q = true → pid p = pid q → i = j;
  pv_parent : ∀ j q, m_tab m !! j = Some q → started q = true → j ≠ init →
    ∃ k p, parent q = Some k ∧ k ≠ j ∧ m_tab m !! k = Some p ∧ alive p = true;
  pv_unused : ∀ j q, m_tab m !! j = Some q → state q = UNUSED → parent q = None;
  pv_embryo : ∀ j q, m_tab m !! j = Some q → state q = EMBRYO → ∃ i, m_fork m !! i = Some j ∧ (parent q = None ∨ parent q = Some i);
  pv_fork : ∀ i j, m_fork m !! i = Some j →
    (∃ q, m_tab m !! j = Some q ∧ state q = EMBRYO) ∧ (∃ p, m_tab m !! i = Some p ∧ alive p = true) ∧ ∀ i', m_fork m !! i' = Some j → i' = i;
  pv_wait : ∀ i p j q, m_tab m !! i = Some p → state p = SLEEPING → chan p = addr i →
    m_tab m !! j = Some q → parent q = Some i → state q ≠ ZOMBIE
}.

(** A step that changes one slot only. *)
Lemma lookup_alter_inv (f : proc → proc) (j : nat) (t : list proc) (k : nat) q' :
  alter f j t !! k = Some q' → ∃ q, t !! k = Some q ∧ q' = if decide (k = j) then f q else q.
Proof using.
  destruct (decide (k = j)) as [->|Hne].
  - rewrite list_lookup_alter_eq. destruct (t !! j) as [q|]; cbn; intros [= <-]. by exists q.
  - rewrite list_lookup_alter_ne by done. intros E. by exists q'.
Qed.
Lemma lookup_alter_at (f : proc → proc) (j : nat) (t : list proc) q : t !! j = Some q → alter f j t !! j = Some (f q).
Proof using. intros E. by rewrite list_lookup_alter_eq, E. Qed.
Lemma lookup_alter_other (f : proc → proc) (j : nat) (t : list proc) (k : nat) q : t !! k = Some q → k ≠ j → alter f j t !! k = Some q.
Proof using. intros E Hne. by rewrite list_lookup_alter_ne. Qed.

Lemma ptinv_start m : ptstart m → ptinv m.
Proof using.
  intros (Hn & Hf & (p & Ep & Hs & Hp & Hpar) & Hrest).
  assert (Hal : alive p = true) by (unfold alive, in_use; by rewrite Hs).
  assert (Honly : ∀ j q, m_tab m !! j = Some q → in_use q = true → j = init).
  { intros j q E Hu. destruct (decide (j = init)); [done|]. destruct (Hrest j q E) as [Hx _]; [done|]. unfold in_use in Hu. by rewrite Hx in Hu. }
  split.
  - by exists p.
  - intros j q E Hu. pose proof (Honly j q E Hu) as ->. rewrite Ep in E. injection E as <-. lia.
  - intros i j p' q Ei Ej Hi Hj _. by rewrite (Honly i p'), (Honly j q).
  - intros j q E Hst Hj. destruct Hj. apply (Honly j q E). unfold started in Hst. by apply andb_true_iff in Hst as [? _].
  - intros j q E Hu. destruct (decide (j = init)) as [->|Hj]; [|by apply (Hrest j q)]. rewrite Ep in E. injection E as <-. congruence.
  - intros j q E Hu. destruct (decide (j = init)) as [->|Hj]; [rewrite Ep in E; injection E as <-; congruence|].
    destruct (Hrest j q E Hj). congruence.
  - intros i j Hij. by rewrite Hf in Hij.
  - intros i p' j q Ei Hi Hc Ej Hq. destruct (decide (i = init)) as [->|Hne]; [|destruct (Hrest i p' Ei Hne); congruence].
    rewrite Ep in Ei. injection Ei as <-. congruence.
Qed.

(** ** Steps that change no more than the state of one slot, or wake some up *)

(** [q'] differs from [q] only in ways that no clause but the last looks at. *)
Record mild (q q' : proc) : Prop := {
  ml_pid : pid q' = pid q;
  ml_parent : parent q' = parent q;
  ml_use : in_use q' = in_use q;
  ml_alive : alive q' = alive q;
  ml_started : started q' = started q;
  ml_zombie : state q' = ZOMBIE ↔ state q = ZOMBIE;
  ml_embryo : state q' = EMBRYO ↔ state q = EMBRYO;
  ml_unused : state q' = UNUSED ↔ state q = UNUSED
}.

Lemma ptinv_mild m t' :
  ptinv m → length t' = length (m_tab m) →
  (∀ k q', t' !! k = Some q' → ∃ q, m_tab m !! k = Some q ∧ mild q q') →
  (∀ i p', t' !! i = Some p' → state p' = SLEEPING → chan p' = addr i →
     ∀ j q, m_tab m !! j = Some q → parent q = Some i → state q ≠ ZOMBIE) →
  ptinv (mkPtab t' (m_next m) (m_fork m)).
Proof using.
  intros [I1 I2 I3 I4 I5 I6 I7 I8] Hl Ht Hw.
  assert (Hto : ∀ k q, m_tab m !! k = Some q → ∃ q', t' !! k = Some q' ∧ mild q q').
  { intros k q E. destruct (lookup_lt_is_Some_2 t' k) as [q' E']; [rewrite Hl; by eapply lookup_lt_Some|].
    exists q'. split; [done|]. apply Ht in E' as (q0 & E0 & Hm). rewrite E in E0. by injection E0 as <-. }
  split; cbn.
  - destruct I1 as (p & E & Ha & Hp). apply Hto in E as (p' & E' & []). exists p'. split; [done|]. split; congruence.
  - intros j q' E' Hu. apply Ht in E' as (q & E & []). rewrite ml_pid0. apply (I2 j); congruence.
  - intros i j p' q' Ep Eq Hp Hq Hpid. apply Ht in Ep as (p & Ep & []). apply Ht in Eq as (q & Eq & []).
    apply (I3 i j p q); congruence.
  - intros j q' E' Hs Hj. apply Ht in E' as (q & E & []). destruct (I4 j q E) as (k & p & H1 & H2 & H3 & H4); [congruence|done|].
    apply Hto in H3 as (p' & E' & []). exists k, p'. split_and!; congruence.
  - intros j q' E' Hs. apply Ht in E' as (q & E & []). rewrite ml_parent0. apply (I5 j q E). tauto.
  - intros j q' E' Hs. apply Ht in E' as (q & E & []). rewrite ml_parent0. apply (I6 j q E). tauto.
  - intros i j Hf. destruct (I7 i j Hf) as ((q & Eq & Hq) & (p & Ep & Hp) & Hu). apply Hto in Eq as (q' & Eq' & []).
    apply Hto in Ep as (p' & Ep' & []). split_and!; [exists q'; tauto|exists p'; split; congruence|done].
  - intros i p' j q' Ei Hs Hc Ej Hq. apply Ht in Ej as (q & Ej & []). intros Hz.
    apply (Hw i p' Ei Hs Hc j q Ej); [congruence|tauto].
Qed.

Lemma mild_woken q q' : woken q q' → mild q q'.
Proof using.
  intros W. destruct (woken_flags _ _ W) as (H1 & H2 & H3 & H4 & H5 & H6). destruct W. by split.
Qed.

Lemma mild_shape q q' : shape q' = shape q → mild q q'.
Proof using. destruct q, q'; cbn. intros [= -> -> -> ->]. by split. Qed.

Lemma ptinv_data m t' : ptinv m → shape <$> t' = shape <$> m_tab m → ptinv (mkPtab t' (m_next m) (m_fork m)).
Proof using.
  intros Hi Hs. assert (Ht : ∀ k q', t' !! k = Some q' → ∃ q, m_tab m !! k = Some q ∧ shape q' = shape q).
  { intros k q' E. assert (E' : (shape <$> m_tab m) !! k = Some (shape q')) by (by rewrite <- Hs, list_lookup_fmap, E).
    rewrite list_lookup_fmap in E'. destruct (m_tab m !! k) as [q|]; [|done]. exists q. split; [done|]. cbn in E'. congruence. }
  apply ptinv_mild; [done|by rewrite <- (length_fmap shape), Hs, length_fmap| |].
  - intros k q' (q & E & Hq)%Ht. exists q. split; [done|by apply mild_shape].
  - intros i p' (p & E & Hp)%Ht Hsl Hc j q. injection Hp as H1 _ _ H4. apply (pv_wait m Hi i p j q E); congruence.
Qed.

(** A change of one slot that is [mild]. *)
Lemma ptinv_alter m (f : proc → proc) (j : nat) q :
  ptinv m → m_tab m !! j = Some q → mild q (f q) →
  (state (f q) = SLEEPING → chan (f q) = addr j →
     ∀ k r, m_tab m !! k = Some r → parent r = Some j → state r ≠ ZOMBIE) →
  ptinv (mkPtab (alter f j (m_tab m)) (m_next m) (m_fork m)).
Proof using.
  intros Hi Eq Hm Hw. apply ptinv_mild; [done|by rewrite length_alter| |].
  - intros k q' (q0 & E0 & ->)%lookup_alter_inv. exists q0. split; [done|]. case_decide as Hd.
    + subst. rewrite Eq in E0. by injection E0 as <-.
    + apply mild_woken, woken_refl.
  - intros i p' (p & Ep & ->)%lookup_alter_inv Hs Hc k r Er Hr. case_decide as Hd.
    + subst i. rewrite Eq in Ep. injection Ep as <-. by apply (Hw Hs Hc k r).
    + by apply (pv_wait m Hi i p k r).
Qed.

Lemma mild_state q st c :
  started q = true → st ≠ UNUSED → st ≠ EMBRYO → st ≠ ZOMBIE → state q ≠ ZOMBIE → mild q (set_state st (set_chan c q)).
Proof using.
  unfold started, in_use. intros Hs H1 H2 H3 H4. destruct q; cbn in *. split; cbn; try done; unfold alive, started, in_use in *; cbn in *;
  destruct state, st; cbn in *; try done; naive_solver.
Qed.

Lemma ptinv_wakeup m c : ptinv m → ptinv (mkPtab (wakeup1 c (m_tab m)) (m_next m) (m_fork m)).
Proof using.
  intros Hi. apply ptinv_mild; [done|apply length_wakeup1| |].
  - intros k q' (q & E & W & _)%wakeup1_lookup. exists q. split; [done|by apply mild_woken].
  - intros i p' (p & Ep & [W1 W2 W3 W4] & _)%wakeup1_lookup Hs Hc k r. apply (pv_wait m Hi i p k r Ep); [|congruence].
    destruct W4 as [W4|[W4 W5]]; congruence.
Qed.

Lemma ptinv_kill m j : ptinv m → ptinv (mkPtab (alter killed_proc j (m_tab m)) (m_next m) (m_fork m)).
Proof using.
  intros Hi. destruct (m_tab m !! j) as [q|] eqn:Eq.
  - apply (ptinv_alter m _ j q); [done|done| |].
    + unfold killed_proc. destruct q; cbn. destruct state; split; cbn; done.
    + unfold killed_proc. cbn. case_bool_decide as Hb; [done|]. cbn. intros Hs. by destruct q.
  - assert (alter killed_proc j (m_tab m) = m_tab m) as ->; [|by destruct m].
    apply list_eq. intros k. destruct (decide (k = j)) as [->|Hne]; [by rewrite list_lookup_alter_eq, Eq|by rewrite list_lookup_alter_ne].
Qed.

Lemma ptinv_sleep m i p c :
  ptinv m → m_tab m !! i = Some p → state p = RUNNING →
  (c = addr i → ∀ k r, m_tab m !! k = Some r → parent r = Some i → state r ≠ ZOMBIE) →
  ptinv (mkPtab (alter (asleep c) i (m_tab m)) (m_next m) (m_fork m)).
Proof using.
  intros Hi Ep Hs Hw. apply (ptinv_alter m _ i p); [done|done| |].
  - apply mild_state; [unfold started, in_use; by rewrite Hs|done|done|done|by rewrite Hs].
  - intros _ Hc. destruct p; cbn in *. by apply Hw.
Qed.

Lemma ptinv_switch m i p st :
  ptinv m → m_tab m !! i = Some p → state p = RUNNING ∨ state p = RUNNABLE → st = RUNNING ∨ st = RUNNABLE →
  ptinv (mkPtab (alter (set_state st) i (m_tab m)) (m_next m) (m_fork m)).
Proof using.
  intros Hi Ep Hs Hst. apply (ptinv_alter m _ i p); [done|done| |].
  - replace (set_state st p) with (set_state st (set_chan (chan p) p)) by (by destruct p).
    apply mild_state; [unfold started, in_use; by destruct Hs as [-> | ->]|..]; destruct Hst, Hs; congruence.
  - destruct p; cbn. destruct Hst; congruence.
Qed.

Lemma wait_scan_none i t : wait_scan i t = WKids → ∀ k r, t !! k = Some r → parent r = Some i → state r ≠ ZOMBIE.
Proof using.
  unfold wait_scan. destruct (list_find _ t) as [[j q]|] eqn:E; [done|]. intros _ k r Er Hr Hz.
  apply list_find_None in E. rewrite Forall_lookup in E. by apply (E k r Er).
Qed.

Lemma wait_scan_reap i t j : wait_scan i t = WReap j → ∃ q, t !! j = Some q ∧ parent q = Some i ∧ state q = ZOMBIE.
Proof using.
  unfold wait_scan. destruct (list_find _ t) as [[k q]|] eqn:E; [|by case_bool_decide]. intros [= <-].
  apply list_find_Some in E as (E & [H1 H2] & _). by exists q.
Qed.

Lemma find_unused_some t j : find_unused t = Some j → ∃ q, t !! j = Some q ∧ state q = UNUSED.
Proof using.
  unfold find_unused. destruct (list_find _ t) as [[k q]|] eqn:E; [|done]. intros [= <-].
  apply list_find_Some in E as (E & H & _). by exists q.
Qed.

(** ** Creation and removal of a slot *)

Lemma fupd_eq f i o : fupd f i o !! i = o.
Proof using. apply lookup_partial_alter_eq. Qed.
Lemma fupd_ne f i o k : k ≠ i → fupd f i o !! k = f !! k.
Proof using. intros. by apply lookup_partial_alter_ne. Qed.

Section One.
Context (m : ptab) (j : nat) (q nq : proc).
Hypothesis Hi : ptinv m.
Hypothesis Eq : m_tab m !! j = Some q.
Let t' : list proc := <[j:=nq]> (m_tab m).

Lemma one_lookup k r : t' !! k = Some r → (k = j ∧ r = nq) ∨ (k ≠ j ∧ m_tab m !! k = Some r).
Proof using. clear. intros [(->&->&_)|[Hne E]]%list_lookup_insert_Some; [by left|by right]. Qed.
Lemma one_at : t' !! j = Some nq.
Proof using Eq. apply list_lookup_insert_eq. by eapply lookup_lt_Some. Qed.
Lemma one_other k r : k ≠ j → m_tab m !! k = Some r → t' !! k = Some r.
Proof using. intros Hne E. unfold t'. by rewrite list_lookup_insert_ne. Qed.

(** Nobody's parent, the slot can be anything that respects its own clauses. *)
Lemma ptinv_one n' f' :
  m_next m ≤ n' → j ≠ init →
  (∀ k r, m_tab m !! k = Some r → k ≠ j → parent r ≠ Some j ∨ alive nq = true) →
  (in_use nq = true → 1 ≤ pid nq < n' ∧ ∀ k r, m_tab m !! k = Some r → k ≠ j → in_use r = true → pid r ≠ pid nq) →
  (started nq = true → ∃ k p, parent nq = Some k ∧ k ≠ j ∧ m_tab m !! k = Some p ∧ alive p = true) →
  (state nq = UNUSED → parent nq = None) →
  (state nq = EMBRYO → ∃ i, f' !! i = Some j ∧ (parent nq = None ∨ parent nq = Some i)) →
  (∀ i k, f' !! i = Some k → (k ≠ j → m_fork m !! i = Some k) ∧ (k = j → state nq = EMBRYO ∧ i ≠ j ∧ (∃ p, m_tab m !! i = Some p ∧ alive p = true) ∧ ∀ i', f' !! i' = Some j → i' = i)) →
  (∀ i k, m_fork m !! i = Some k → k ≠ j → f' !! i = Some k ∧ i ≠ j) →
  (state nq = ZOMBIE → state q = ZOMBIE ∧ parent nq = parent q) → state nq ≠ SLEEPING →
  ptinv (mkPtab t' n' f').
Proof using Hi Eq.
  intros Hn Hji Hch Hpid Hst Hun Hem Hf' Hf Hz Hsl. destruct Hi as [I1 I2 I3 I4 I5 I6 I7 I8]. split; cbn.
  - destruct I1 as (p & E & Ha & Hp). exists p. split; [by apply one_other|done].
  - intros k r [[-> ->]|[Hne E]]%one_lookup Hu; [by apply Hpid|]. specialize (I2 k r E Hu). lia.
  - intros i k p r [[-> ->]|[Hne E]]%one_lookup [[-> ->]|[Hne' E']]%one_lookup Hu Hu' Hp; [done| | |by eapply I3].
    + by destruct (proj2 (Hpid Hu) k r E' Hne' Hu').
    + by destruct (proj2 (Hpid Hu') i p E Hne Hu).
  - intros k r [[-> ->]|[Hne E]]%one_lookup Hs Hki.
    + destruct (Hst Hs) as (k & p & H1 & H2 & H3 & H4). exists k, p. split_and!; try done. by apply one_other.
    + destruct (I4 k r E Hs Hki) as (k' & p & H1 & H2 & H3 & H4). destruct (decide (k' = j)) as [->|Hne'].
      * exists j, nq. split_and!; [done|done|apply one_at|]. by destruct (Hch k r E Hne).
      * exists k', p. split_and!; try done. by apply one_other.
  - intros k r [[-> ->]|[Hne E]]%one_lookup Hs; [by apply Hun|by apply (I5 k)].
  - intros k r [[-> ->]|[Hne E]]%one_lookup Hs; [by apply Hem|]. destruct (I6 k r E Hs) as (i & H1 & H2).
    exists i. split; [|done]. by apply Hf.
  - intros i k Hfk. destruct (Hf' i k Hfk) as [F1 F2]. destruct (decide (k = j)) as [->|Hne].
    + destruct (F2 eq_refl) as (G1 & G2 & (p & G3 & G4) & G5). split; [exists nq; by rewrite one_at|].
      split; [|done]. exists p. split; [by apply one_other|done].
    + specialize (F1 Hne). destruct (I7 i k F1) as ((r & H1 & H2) & (p & H3 & H4) & H5). destruct (Hf i k F1 Hne) as [_ Hij].
      split; [exists r; split; [by apply one_other|done]|]. split; [exists p; split; [by apply one_other|done]|].
      intros i' Hi'. apply H5. by apply Hf'.
  - intros i p k r Ei Hs Hc [[-> ->]|[Hne E]]%one_lookup Hr Hz'.
    + apply one_lookup in Ei as [[-> ->]|[Hne Ei]]; [done|]. destruct (Hz Hz') as [Z1 Z2].
      apply (I8 i p j q Ei Hs Hc Eq); congruence.
    + apply one_lookup in Ei as [[-> ->]|[Hne' Ei]]; [done|]. by apply (I8 i p k r Ei Hs Hc E Hr).
Qed.
End One.

(** A slot that is not alive is nobody's parent. *)
Lemma not_parent m j q k r :
  ptinv m → m_tab m !! j = Some q → alive q = false → j ≠ init → m_tab m !! k = Some r → parent r ≠ Some j.
Proof using.
  intros [I1 I2 I3 I4 I5 I6 I7 I8] Eq Ha Hj Er Hr.
  assert (Hno : ∀ i p, m_tab m !! i = Some p → alive p = true → i ≠ j) by (intros i p Ei Hp ->; congruence).
  destruct (started r) eqn:Hs.
  - destruct (decide (k = init)) as [->|Hki].
    + destruct I1 as (p & Ep & _ & Hp). congruence.
    + destruct (I4 k r Er Hs Hki) as (k' & p & H1 & _ & H3 & H4). apply (Hno k' p H3 H4). congruence.
  - unfold started, in_use in Hs. destruct (state r) eqn:Hst; cbn in Hs; try done.
    + rewrite (I5 k r Er Hst) in Hr. done.
    + destruct (I6 k r Er Hst) as (i & Hf & Hp). destruct (I7 i k Hf) as (_ & (p & Ep & Hp') & _).
      apply (Hno i p Ep Hp'). destruct Hp; congruence.
Qed.

Lemma dead_not_init m j q : ptinv m → m_tab m !! j = Some q → alive q = false → j ≠ init.
Proof using. intros [I1 _ _ _ _ _ _ _] Eq Ha ->. destruct I1 as (p & Ep & Hp & _). congruence. Qed.

Lemma fork_embryo m i j : ptinv m → m_fork m !! i = Some j →
  ∃ q, m_tab m !! j = Some q ∧ state q = EMBRYO ∧ alive q = false ∧ j ≠ init ∧ (parent q = None ∨ parent q = Some i) ∧
    i ≠ j ∧ (∃ p, m_tab m !! i = Some p ∧ alive p = true) ∧ ∀ i', m_fork m !! i' = Some j → i' = i.
Proof using.
  intros Hi Hf. destruct (pv_fork m Hi i j Hf) as ((q & Eq & Hs) & (p & Ep & Hp) & Hu). exists q.
  assert (Ha : alive q = false) by (unfold alive, in_use; by rewrite Hs).
  split_and!; try done; [by eapply dead_not_init| |congruence|by exists p].
  destruct (pv_embryo m Hi j q Eq Hs) as (i' & Hf' & Hp'). by rewrite <- (Hu i' Hf').
Qed.

(** The forks of other slots are as before. *)
Lemma fork_other m i j i' k :
  ptinv m → m_fork m !! i = Some j ∨ m_fork m !! i = None → m_fork m !! i' = Some k → k ≠ j → i' ≠ i.
Proof using. intros _ [Hf|Hf] Hf' Hne ->; congruence. Qed.

Lemma ptinv_alloc m i j :
  ptinv m → runs_free m i → find_unused (m_tab m) = Some j →
  ptinv (mkPtab (alter (embryo (m_next m)) j (m_tab m)) (m_next m + 1) (fupd (m_fork m) i (Some j))).
Proof using.
  intros Hi ((p & Ep & Hp) & Hf) Hj. destruct (find_unused_some _ _ Hj) as (q & Eq & Hq). rewrite (alter_insert _ _ _ _ Eq).
  assert (Ha : alive q = false) by (unfold alive, in_use; by rewrite Hq).
  assert (Hap : alive p = true) by (unfold alive, in_use; by rewrite Hp). assert (Hij : i ≠ j) by congruence.
  pose proof (dead_not_init m j q Hi Eq Ha) as Hjn.
  assert (Hnf : ∀ i', m_fork m !! i' ≠ Some j).
  { intros i' Hf'. destruct (fork_embryo m i' j Hi Hf') as (q' & Eq' & Hs' & _). congruence. }
  assert (Hinit : 1 < m_next m + 1) by (destruct (pv_init m Hi) as (r & Er & Har & _); destruct (pv_pid m Hi init r Er);
    [unfold alive in Har; destruct (in_use r); done|lia]).
  apply (ptinv_one m j q); try done; [lia| | | | |].
  - intros k r Er Hk. left. by eapply not_parent.
  - intros _. assert (pid (embryo (m_next m) q) = m_next m) as -> by (by destruct q). split; [lia|].
    intros k r Er Hk Hu. pose proof (pv_pid m Hi k r Er Hu). lia.
  - intros _. exists i. rewrite fupd_eq. split; [done|]. left. rewrite <- (pv_unused m Hi j q Eq Hq). by destruct q.
  - intros i' k Hk. destruct (decide (i' = i)) as [->|Hne].
    + rewrite fupd_eq in Hk. injection Hk as <-. split; [done|]. intros _. split; [by destruct q|]. split; [done|]. split; [by exists p|].
      intros i' Hi'. destruct (decide (i' = i)); [done|]. rewrite fupd_ne in Hi' by done. by destruct (Hnf i').
    + rewrite fupd_ne in Hk by done. split; [done|]. intros ->. by destruct (Hnf i').
  - intros i' k Hk Hkj. destruct (decide (i' = i)) as [->|Hne]; [congruence|]. rewrite fupd_ne by done. split; [done|].
    intros ->. destruct (fork_embryo m j k Hi Hk) as (_ & _ & _ & _ & _ & _ & _ & (p' & Ep' & Hp') & _). congruence.
Qed.

(** The steps of [fork] on its slot. *)
Section Fork.
Context (m : ptab) (i j : nat).
Hypothesis Hi : ptinv m.
Hypothesis Hf : m_fork m !! i = Some j.

Lemma fork_keeps i' k : m_fork m !! i' = Some k → k ≠ j → fupd (m_fork m) i None !! i' = Some k ∧ i' ≠ j.
Proof using Hi Hf.
  intros Hk Hkj. assert (i' ≠ i) by (intros ->; congruence). rewrite fupd_ne by done. split; [done|].
  intros ->. destruct (fork_embryo m i j Hi Hf) as (q & Eq & _ & Ha & _).
  destruct (fork_embryo m j k Hi Hk) as (_ & _ & _ & _ & _ & _ & _ & (p' & Ep' & Hp') & _). congruence.
Qed.

Lemma fork_gone i' k : fupd (m_fork m) i None !! i' = Some k → m_fork m !! i' = Some k ∧ k ≠ j.
Proof using Hi Hf.
  intros Hk. destruct (decide (i' = i)) as [->|Hne]; [by rewrite fupd_eq in Hk|]. rewrite fupd_ne in Hk by done. split; [done|].
  intros ->. destruct (fork_embryo m i j Hi Hf) as (_ & _ & _ & _ & _ & _ & _ & _ & Hu). by apply Hne, Hu.
Qed.

Lemma ptinv_abort :
  (∀ p, m_tab m !! j = Some p → parent p = None) →
  ptinv (mkPtab (alter (set_state UNUSED) j (m_tab m)) (m_next m) (fupd (m_fork m) i None)).
Proof using Hi Hf.
  intros Hp. destruct (fork_embryo m i j Hi Hf) as (q & Eq & Hs & Ha & Hjn & _ & Hij & _). rewrite (alter_insert _ _ _ _ Eq).
  apply (ptinv_one m j q); try done; try (by destruct q).
  - intros k r Er Hk. left. by eapply not_parent.
  - intros _. rewrite <- (Hp q Eq). by destruct q.
  - intros i' k Hk. apply fork_gone in Hk as [Hk Hne]. done.
  - apply fork_keeps.
Qed.

Lemma ptinv_ready :
  (∀ p, m_tab m !! j = Some p → parent p = Some i) →
  ptinv (mkPtab (alter (set_state RUNNABLE) j (m_tab m)) (m_next m) (fupd (m_fork m) i None)).
Proof using Hi Hf.
  intros Hp. destruct (fork_embryo m i j Hi Hf) as (q & Eq & Hs & Ha & Hjn & _ & Hij & (p & Ep & Hap) & _). rewrite (alter_insert _ _ _ _ Eq).
  assert (Hu : in_use q = true) by (unfold in_use; by rewrite Hs). specialize (Hp q Eq).
  apply (ptinv_one m j q); try done; try (by destruct q).
  - intros k r Er Hk. left. by eapply not_parent.
  - intros _. assert (pid (set_state RUNNABLE q) = pid q) as -> by (by destruct q). split; [by apply (pv_pid m Hi j)|].
    intros k r Er Hk Hur E. apply Hk. by apply (pv_uniq m Hi k j r q).
  - intros _. exists i, p. split_and!; try done.
  - intros i' k Hk. apply fork_gone in Hk as [Hk Hne]. done.
  - apply fork_keeps.
Qed.

Lemma ptinv_link : ptinv (mkPtab (alter (set_parent (Some i)) j (m_tab m)) (m_next m) (m_fork m)).
Proof using Hi Hf.
  destruct (fork_embryo m i j Hi Hf) as (q & Eq & Hs & Ha & Hjn & _ & Hij & (p & Ep & Hap) & Hun). rewrite (alter_insert _ _ _ _ Eq).
  assert (Hu : in_use q = true) by (unfold in_use; by rewrite Hs).
  assert (Hs' : state (set_parent (Some i) q) = EMBRYO) by (by destruct q).
  apply (ptinv_one m j q); try done; rewrite ?Hs'; try done.
  - intros k r Er Hk. left. by eapply not_parent.
  - intros _. assert (pid (set_parent (Some i) q) = pid q) as -> by (by destruct q). split; [by apply (pv_pid m Hi j)|].
    intros k r Er Hk Hur E. apply Hk. by apply (pv_uniq m Hi k j r q).
  - unfold started. rewrite Hs'. by rewrite andb_false_r.
  - intros _. exists i. split; [done|]. right. by destruct q.
  - intros i' k Hk. split; [done|]. intros ->. split; [done|]. assert (i' = i) as -> by (by apply Hun). split; [done|]. split; [by exists p|done].
  - intros i' k Hk Hkj. split; [done|]. by destruct (fork_keeps i' k Hk Hkj).
Qed.
End Fork.

Lemma ptinv_reap m i j :
  ptinv m → wait_scan i (m_tab m) = WReap j → ptinv (mkPtab (alter reaped j (m_tab m)) (m_next m) (m_fork m)).
Proof using.
  intros Hi Hw. destruct (wait_scan_reap _ _ _ Hw) as (q & Eq & Hp & Hz). rewrite (alter_insert _ _ _ _ Eq).
  assert (Ha : alive q = false) by (unfold alive, in_use; by rewrite Hz). pose proof (dead_not_init m j q Hi Eq Ha) as Hjn.
  assert (Hnf : ∀ i' k, m_fork m !! i' = Some k → k ≠ j ∧ i' ≠ j).
  { intros i' k Hf. destruct (fork_embryo m i' k Hi Hf) as (q' & Eq' & Hs' & _ & _ & _ & _ & (p & Ep & Hp') & _). split; intros ->; congruence. }
  apply (ptinv_one m j q); try done; try (by destruct q).
  - intros k r Er Hk. left. by eapply not_parent.
  - intros i' k Hf. destruct (Hnf i' k Hf) as [Hne _]. done.
  - intros i' k Hf _. split; [done|]. by destruct (Hnf i' k Hf).
Qed.
(** *** [exit] *)

Lemma adopted_flags i q q' : adopted i init q q' → in_use q' = in_use q ∧ alive q' = alive q ∧ started q' = started q ∧
  (state q' = ZOMBIE ↔ state q = ZOMBIE) ∧ (state q' = EMBRYO ↔ state q = EMBRYO) ∧ (state q' = UNUSED ↔ state q = UNUSED).
Proof using.
  intros [_ _ _ Hs]. unfold alive, started, in_use. destruct Hs as [E|[E1 E2]]; [by rewrite E|].
  rewrite E1, E2. split_and!; done.
Qed.

(** What [exit] makes of the table: [i] a zombie, its children adopted, its
    parent awake, and [init] awake if it has a new zombie to collect. *)
Record exited (i : nat) (p : proc) (t t' : list proc) : Prop := {
  lf_len : length t' = length t;
  lf_one : ∀ j q', t' !! j = Some q' → ∃ q q1, t !! j = Some q ∧ adopted i init q q1 ∧
    q' = if decide (j = i) then set_state ZOMBIE q1 else q1;
  lf_parent : ∀ k j q', parent p = Some k → t' !! j = Some q' → state q' = SLEEPING → chan q' ≠ addr k;
  lf_init : (∃ j q, t !! j = Some q ∧ parent q = Some i ∧ state q = ZOMBIE) →
    ∀ j q', t' !! j = Some q' → state q' = SLEEPING → chan q' ≠ addr init
}.

Lemma exit_left i p t : i ≠ init → t !! i = Some p → exited i p t (exit_table addr i (Some init) t).
Proof using.
  intros Hne Ep. unfold exit_table. rewrite Ep. set (t1 := wakeup1 _ t).
  destruct (adopt_spec addr i init Hne (length t1) 0 t1 eq_refl) as (Hl & Ha & Ho). set (t2 := adopt _ _ _ _ _ t1) in *.
  assert (Hs : ∀ j q', alter (set_state ZOMBIE) i t2 !! j = Some q' → state q' = SLEEPING →
    t2 !! j = Some q' ∧ ∃ q1, t1 !! j = Some q1 ∧ state q1 = SLEEPING ∧ chan q1 = chan q').
  { intros j q' (q2 & E2 & ->)%lookup_alter_inv Hs. case_decide; [by destruct q2|]. split; [done|].
    apply Ha in E2 as (q1 & E1 & [_ _ Hc Hst]). exists q1. split; [done|]. destruct Hst as [Hst|[? Hst]]; split; congruence. }
  split.
  - rewrite length_alter, Hl. apply length_wakeup1.
  - intros j q' (q2 & E2 & ->)%lookup_alter_inv. apply Ha in E2 as (q1 & E1 & A). apply wakeup1_lookup in E1 as (q & E & W & _).
    exists q, q2. split; [done|]. split; [|done]. by eapply woken_adopted.
  - intros k j q' Hk E Hsl. destruct (Hs j q' E Hsl) as (_ & q1 & E1 & Hs1 & <-).
    apply wakeup1_lookup in E1 as (_ & _ & _ & Hc). rewrite Hk in Hc. by apply Hc.
  - intros (j & q & E & Hp & Hz) j' q' E' Hsl. destruct (Hs j' q' E' Hsl) as [E2 _]. refine (Ho _ j' q' E2 Hsl).
    destruct (wakeup1_some (chan_of addr (parent p)) t j q E) as [q1 E1]. exists j, q1. split; [lia|]. split; [done|].
    apply wakeup1_lookup in E1 as (q0 & E0 & [_ W2 _ W4] & _). rewrite E in E0. injection E0 as <-.
    split; [congruence|]. destruct W4 as [W4|[W4 _]]; congruence.
Qed.

Section Exit.
Context (m : ptab) (i : nat) (p : proc) (t' : list proc).
Hypothesis Hi : ptinv m.
Hypothesis Ep : m_tab m !! i = Some p.
Hypothesis Hp : state p = RUNNING.
Hypothesis Hf : m_fork m !! i = None.
Hypothesis Hne : i ≠ init.
Hypothesis Hl : exited i p (m_tab m) t'.

Lemma left_other j q' : t' !! j = Some q' → j ≠ i → ∃ q, m_tab m !! j = Some q ∧ adopted i init q q'.
Proof using Hl. intros E Hj. destruct (lf_one _ _ _ _ Hl j q' E) as (q & q1 & E1 & A & ->). rewrite decide_False by done. by exists q. Qed.

Lemma left_back j q : m_tab m !! j = Some q → j ≠ i → ∃ q', t' !! j = Some q' ∧ adopted i init q q'.
Proof using Hl.
  intros E Hj. destruct (lookup_lt_is_Some_2 t' j) as [q' E']; [rewrite (lf_len _ _ _ _ Hl); by eapply lookup_lt_Some|].
  exists q'. split; [done|]. destruct (left_other j q' E' Hj) as (q0 & E0 & A). rewrite E in E0. by injection E0 as <-.
Qed.

Lemma left_self q' : t' !! i = Some q' → state q' = ZOMBIE ∧ pid q' = pid p ∧ parent q' = parent p.
Proof using Hl Hi Ep Hp Hne.
  intros E. destruct (lf_one _ _ _ _ Hl i q' E) as (q & q1 & E1 & [A1 A2 _ _] & ->). rewrite decide_True by done.
  rewrite Ep in E1. injection E1 as <-. assert (Hpp : new_parent i init (parent p) = parent p).
  { destruct (pv_parent m Hi i p Ep) as (k & r & Hk & Hki & _); [unfold started, in_use; by rewrite Hp|done|].
    unfold new_parent. rewrite decide_False; congruence. }
  destruct q1; cbn in *. split_and!; congruence.
Qed.

Lemma left_use j q' : t' !! j = Some q' → in_use q' = true → ∃ q, m_tab m !! j = Some q ∧ in_use q = true ∧ pid q = pid q'.
Proof using Hl Hi Ep Hp Hne.
  intros E Hu. destruct (decide (j = i)) as [->|Hj].
  - destruct (left_self q' E) as (_ & H1 & _). exists p. split; [done|]. split; [unfold in_use; by rewrite Hp|done].
  - destruct (left_other j q' E Hj) as (q & Eq & A). destruct (adopted_flags i q q' A) as (H1 & _). exists q. destruct A as [A _ _ _]. split_and!; congruence.
Qed.

Lemma left_wait i' p' j q' :
  t' !! i' = Some p' → state p' = SLEEPING → chan p' = addr i' → t' !! j = Some q' → parent q' = Some i' → state q' ≠ ZOMBIE.
Proof using Hl Hi Ep Hp Hne.
  intros E' Hs Hc Eq Hq Hz. destruct (decide (j = i)) as [->|Hj].
  { destruct (left_self q' Eq) as (_ & _ & H3). rewrite Hq in H3. by apply (lf_parent _ _ _ _ Hl i' i' p'). }
  destruct (left_other j q' Eq Hj) as (q & Eq0 & A). destruct (adopted_flags i q q' A) as (_ & _ & _ & [Hzq _] & _).
  destruct A as [_ A2 _ _]. rewrite Hq in A2. unfold new_parent in A2. case_decide as Hd.
  - injection A2 as ->. apply (lf_init _ _ _ _ Hl) with (j := init) (q' := p'); try done. exists j, q. split_and!; auto.
  - assert (i' ≠ i) by (intros ->; destruct (left_self p' E'); congruence).
    destruct (left_other i' p' E') as (p0 & E0 & [_ _ B3 B4]); [done|].
    apply (pv_wait m Hi i' p0 j q); try done; [|congruence|auto]. destruct B4 as [B4|[B4 B5]]; congruence.
Qed.

Lemma ptinv_left : ptinv (mkPtab t' (m_next m) (m_fork m)).
Proof using Hl Hi Ep Hp Hne Hf.
  split; cbn.
  - destruct (pv_init m Hi) as (r & E & Ha & Hr). destruct (left_back init r E) as (r' & E' & A); [done|]. exists r'. split; [done|].
    destruct (adopted_flags i r r' A) as (_ & H2 & _). destruct A as [_ A2 _ _]. rewrite Hr in A2. split; [congruence|]. by rewrite A2.
  - intros j q' E Hu. destruct (left_use j q' E Hu) as (q & Eq & Hq & <-). by apply (pv_pid m Hi j).
  - intros j k q' r' Eq Er Hq Hr Hpid. destruct (left_use j q' Eq Hq) as (q & Eq0 & Hq0 & Hq1), (left_use k r' Er Hr) as (r & Er0 & Hr0 & Hr1).
    apply (pv_uniq m Hi j k q r); congruence.
  - intros j q' E Hs Hj. assert (Hpar : ∃ k r, parent q' = Some k ∧ k ≠ j ∧ k ≠ i ∧ m_tab m !! k = Some r ∧ alive r = true).
    { destruct (decide (j = i)) as [->|Hji].
      - destruct (left_self q' E) as (_ & _ & ->). destruct (pv_parent m Hi i p Ep) as (k & r & ? & ? & ? & ?); [unfold started, in_use; by rewrite Hp|done|].
        by exists k, r.
      - destruct (left_other j q' E Hji) as (q & Eq & A). destruct (adopted_flags i q q' A) as (_ & _ & H3 & _).
        destruct (pv_parent m Hi j q Eq) as (k & r & Hk & Hkj & Er & Hr); [congruence|done|]. destruct A as [_ A2 _ _].
        rewrite Hk in A2. unfold new_parent in A2. case_decide as Hd; [|exists k, r; split_and!; congruence].
        destruct (pv_init m Hi) as (r0 & E0 & Ha0 & _). exists init, r0. split_and!; congruence. }
    destruct Hpar as (k & r & H1 & H2 & H3 & Er & Hr). destruct (left_back k r Er H3) as (r' & Er' & A). exists k, r'.
    destruct (adopted_flags i r r' A) as (_ & H5 & _). split_and!; congruence.
  - intros j q' E Hs. destruct (decide (j = i)) as [->|Hji]; [destruct (left_self q' E); congruence|].
    destruct (left_other j q' E Hji) as (q & Eq & A). destruct (adopted_flags i q q' A) as (_ & _ & _ & _ & _ & [H6 _]).
    destruct A as [_ -> _ _]. by rewrite (pv_unused m Hi j q Eq (H6 Hs)).
  - intros j q' E Hs. destruct (decide (j = i)) as [->|Hji]; [destruct (left_self q' E); congruence|].
    destruct (left_other j q' E Hji) as (q & Eq & A). destruct (adopted_flags i q q' A) as (_ & _ & _ & _ & [H5 _] & _).
    destruct (pv_embryo m Hi j q Eq (H5 Hs)) as (i' & Hf' & Hpar). exists i'. split; [done|]. destruct A as [_ -> _ _].
    destruct Hpar as [-> | ->]; [by left|]. right. unfold new_parent. rewrite decide_False; congruence.
  - intros i' j Hf'. destruct (pv_fork m Hi i' j Hf') as ((q & Eq & Hq) & (r & Er & Hr) & Hu).
    assert (j ≠ i) by congruence. assert (i' ≠ i) by congruence.
    destruct (left_back j q Eq) as (q' & Eq' & A); [done|]. destruct (left_back i' r Er) as (r' & Er' & B); [done|].
    destruct (adopted_flags i q q' A) as (_ & _ & _ & _ & [_ H5] & _), (adopted_flags i r r' B) as (_ & H2 & _).
    split_and!; [exists q'; auto|exists r'; split; congruence|done].
  - apply left_wait.
Qed.
End Exit.

Lemma ptinv_step m m' : ptinv m → ptstep m m' → ptinv m'.
Proof using.
  intros Hi Hs. destruct Hs.
  - by apply ptinv_alloc.
  - by apply ptinv_abort.
  - by apply ptinv_link.
  - by apply ptinv_ready.
  - match goal with H : runs_free _ _ |- _ => destruct H as [(p & Ep & Hp) Hf] end.
    by apply (ptinv_left m i p); [..|apply exit_left].
  - by eapply ptinv_reap.
  - match goal with H : runs_free _ _ |- _ => destruct H as [(p & Ep & Hp) Hf] end.
    apply (ptinv_sleep m i p); try done. intros _. by apply wait_scan_none.
  - apply (ptinv_sleep m i p); try done. naive_solver.
  - by apply ptinv_wakeup.
  - by apply ptinv_kill.
  - apply (ptinv_switch m i p); auto.
  - apply (ptinv_switch m i p); auto.
  - apply (ptinv_alter m _ i p); [done|done| |].
    + replace (set_chan 0 p) with (set_state (state p) (set_chan 0 p)) by (by destruct p).
      apply mild_state; [unfold started, in_use|..]; by rewrite H0.
    + destruct p; cbn in *. congruence.
  - by apply ptinv_data.
Qed.
End Machine.
