(* ===== verification/ProcRefine.v ===== *)
(** * ProcRefine: the routines of [proc.c] run the machine of [ProcSpec]

    Every routine, as an operation of the kernel, takes the process table
    through steps of the machine: the fields the machine looks at change in no
    other way, whatever the routine does to memory, to the file system and to
    the rest of the processes' records on the way. *)

From S2P Require Import Prelude Mmu Phys Config Kalloc PageTable State Spinlock PageList Swap Uvm Proc ProcSpec.

(** ** Computations that leave the table's shape alone *)

Section Keeps.
Context `{Config} {F : Type} `{FileSystem F}.

(** What the machine sees of the kernel. *)
Definition core (s : kernel F) := (shape <$> procs s, cpu_proc s, initproc s, nextpid s).
Definition keeps {A} (c : K F A) : Prop := ∀ s a s', c s = Ok a s' → core s' = core s.

Lemma keeps_ret {A} (a : A) : keeps (mret a).
Proof using. by intros s a' s' [= <- <-]. Qed.
Lemma keeps_fail {A} e : keeps (fail (A := A) e).
Proof using. by intros s a' s'. Qed.
Lemma keeps_panic {A} e : keeps (panic (A := A) e).
Proof using. by intros s a' s'. Qed.
Lemma keeps_ub {A} e : keeps (ub (A := A) e).
Proof using. by intros s a' s'. Qed.
Lemma keeps_gets {A} (f : kernel F → A) : keeps (gets f).
Proof using. by intros s a s' [= <- <-]. Qed.
Lemma keeps_bind {A B} (c : K F A) (f : A → K F B) : keeps c → (∀ a, keeps (f a)) → keeps (c ≫= f).
Proof using. intros Hc Hf s b s2 (a & s1 & E1 & E2)%bind_inv. rewrite (Hf a s1 b s2 E2). by apply (Hc s a s1). Qed.
Lemma keeps_when b (c : K F unit) : keeps c → keeps (when b c).
Proof using. destruct b; [done|]. intros _. apply keeps_ret. Qed.
Lemma keeps_forM {A} (l : list A) (f : A → K F unit) : (∀ a, keeps (f a)) → keeps (forM l f).
Proof using. intros Hf. induction l; cbn [forM]; [apply keeps_ret|by apply keeps_bind]. Qed.
Lemma keeps_phys {A} (c : M phys A) : keeps (on_phys c).
Proof using. intros s a s'. unfold on_phys. destruct (c (phys_ s)); [|done]. by intros [= <- <-]. Qed.
Lemma keeps_fs {A} (c : M F A) : keeps (on_fs c).
Proof using. intros s a s'. unfold on_fs. destruct (c (fsys s)); [|done]. by intros [= <- <-]. Qed.
Lemma keeps_files {A} (c : M (phys * F) A) : keeps (on_files c).
Proof using. intros s a s'. unfold on_files. destruct (c (phys_ s, fsys s)) as [? [? ?]|]; [|done]. by intros [= <- <-]. Qed.
Lemma keeps_cpu {A} (c : M cpu A) : keeps (on_cpu c).
Proof using. intros s a s'. unfold on_cpu. destruct (c (cpu0 s)); [|done]. by intros [= <- <-]. Qed.
Lemma keeps_modify (f : kernel F → kernel F) : (∀ s, core (f s) = core s) → keeps (modify f).
Proof using. intros Hf s a s' [= <- <-]. apply Hf. Qed.

Lemma keeps_proc {A} i (c : M proc A) : (∀ p a p', c p = Ok a p' → shape p' = shape p) → keeps (on_proc i c).
Proof using.
  intros Hc s a s'. unfold on_proc. destruct (procs s !! i) as [p|] eqn:Ep; [|done]. destruct (c p) as [a' p'|] eqn:E; [|done].
  intros [= <- <-]. unfold core; cbn. do 3 f_equal. rewrite list_fmap_insert, (Hc p a' p' E).
  apply list_insert_id. by rewrite list_lookup_fmap, Ep.
Qed.
Lemma keeps_proc_gets {A} i (f : proc → A) : keeps (on_proc i (gets f)).
Proof using. apply keeps_proc. by intros p a p' [= <- <-]. Qed.
Lemma keeps_proc_modify i (f : proc → proc) : (∀ p, shape (f p) = shape p) → keeps (on_proc i (modify f)).
Proof using. intros Hf. apply keeps_proc. intros p a p' [= <- <-]. apply Hf. Qed.
Lemma keeps_myproc {A} (c : M proc A) : (∀ p a p', c p = Ok a p' → shape p' = shape p) → keeps (on_myproc c).
Proof using.
  intros Hc s a s'. unfold on_myproc. destruct (cpu_proc s) as [i|]; [|done]. by apply keeps_proc.
Qed.
Lemma keeps_myproc_gets {A} (f : proc → A) : keeps (myproc f).
Proof using. apply keeps_myproc. by intros p a p' [= <- <-]. Qed.
Lemma keeps_myproc_modify (f : proc → proc) : (∀ p, shape (f p) = shape p) → keeps (on_myproc (modify f)).
Proof using. intros Hf. apply keeps_myproc. intros p a p' [= <- <-]. apply Hf. Qed.
Lemma keeps_paging {A} (c : M paging A) : keeps (on_paging c).
Proof using. apply keeps_myproc. intros p a p'. destruct (c (paging_ p)); [|done]. by intros [= <- <-]. Qed.
Lemma keeps_read_user va n : keeps (read_user va n).
Proof using. intros s a s'. unfold read_user. case_match; [|done]. by intros [= <- <-]. Qed.
Lemma keeps_lcr3 v : keeps (lcr3 v).
Proof using. by apply keeps_modify. Qed.
End Keeps.

Create HintDb keeps discriminated.
#[export] Hint Resolve keeps_ret keeps_fail keeps_panic keeps_ub keeps_gets keeps_phys keeps_fs keeps_files keeps_cpu keeps_proc_gets
  keeps_myproc_gets keeps_paging keeps_read_user keeps_lcr3 : keeps.
#[export] Hint Extern 1 (keeps (modify _)) => by apply keeps_modify : keeps.
#[export] Hint Extern 1 (keeps (on_proc _ (modify _))) => by apply keeps_proc_modify : keeps.
#[export] Hint Extern 1 (keeps (on_myproc (modify _))) => by apply keeps_myproc_modify : keeps.

(** Goes through a computation. *)
Ltac keep :=
  repeat match goal with
  | |- keeps (_ ≫= _) => apply keeps_bind; [|intros ?]
  | |- keeps (when _ _) => apply keeps_when
  | |- keeps (forM _ _) => apply keeps_forM; intros ?
  | |- keeps (let '(_, _) := ?x in _) => destruct x
  | |- keeps (match ?x with _ => _ end) => destruct x
  | |- keeps (if ?x then _ else _) => destruct x
  | |- keeps _ => solve [auto with keeps]
  end.

Section Routines.
Context `{Config} {F : Type} `{FileSystem F}.

Lemma keeps_swap_pgdir : keeps (F := F) swap_pgdir.
Proof using. unfold swap_pgdir. keep. Qed.
Lemma keeps_readFromSwapFile b p n : keeps (F := F) (readFromSwapFile b p n).
Proof using. unfold readFromSwapFile. keep. Qed.
#[local] Hint Resolve keeps_swap_pgdir keeps_readFromSwapFile : keeps.
Lemma keeps_getPageFromFile i : keeps (F := F) (getPageFromFile i).
Proof using. unfold getPageFromFile. keep. Qed.
#[local] Hint Resolve keeps_getPageFromFile : keeps.
Lemma keeps_deletePage i : keeps (F := F) (deletePage i).
Proof using. unfold deletePage. keep. Qed.
#[local] Hint Resolve keeps_deletePage : keeps.
Lemma keeps_dealloc_page pd a pte f : keeps (F := F) (dealloc_page pd a pte f).
Proof using. unfold dealloc_page, own_pgdir, find_page, when_found. keep. Qed.
#[local] Hint Resolve keeps_dealloc_page : keeps.
Lemma keeps_deallocuvm_loop fuel : ∀ pd a o f, keeps (F := F) (deallocuvm_loop fuel pd a o f).
Proof using. induction fuel; intros; cbn [deallocuvm_loop]; keep; auto. Qed.
Lemma keeps_freevm pd : keeps (F := F) (freevm pd).
Proof using. unfold freevm, deallocuvm. keep. apply keeps_deallocuvm_loop. Qed.
#[local] Hint Resolve keeps_freevm : keeps.
Lemma keeps_setupkvm : keeps (F := F) setupkvm.
Proof using.
  unfold setupkvm. keep. generalize kmap. intros l. induction l as [|[[[? ?] ?] ?] l IH]; cbn [setupkvm_loop]; keep.
Qed.
#[local] Hint Resolve keeps_setupkvm : keeps.
Lemma keeps_copy_page pd d i : keeps (F := F) (copy_page pd d i).
Proof using. unfold copy_page, share_page, enter_page. keep. Qed.
Lemma keeps_copyuvm pd sz : keeps (F := F) (copyuvm pd sz).
Proof using.
  unfold copyuvm. keep. generalize (S (S (Z.to_nat (sz / PGSIZE)))). generalize 0. intros z fuel. revert z.
  induction fuel; intros; cbn [copy_loop]; keep; auto using keeps_copy_page.
Qed.
Lemma keeps_deepCopyProc f c : keeps (F := F) (deepCopyProc f c).
Proof using.
  unfold deepCopyProc. keep. all: generalize 0; generalize COPY_FUEL; intros fuel; induction fuel; intros; cbn [copy_swap]; keep; auto.
Qed.
Lemma keeps_dup_file o : keeps (F := F) (dup_file o).
Proof using. unfold dup_file. keep. Qed.
Lemma keeps_switchuvm o : keeps (F := F) (switchuvm o).
Proof using. unfold switchuvm. keep. Qed.
Lemma keeps_sched_checks b : keeps (F := F) (sched_checks b).
Proof using. unfold sched_checks. keep. Qed.
Lemma keeps_move_to_end l : keeps (F := F) (move_to_end l).
Proof using. unfold move_to_end, list_head. keep. Qed.
Lemma keeps_is_user_page v : keeps (F := F) (is_user_page v).
Proof using. unfold is_user_page. keep. Qed.
#[local] Hint Resolve keeps_move_to_end keeps_is_user_page : keeps.
Lemma keeps_choosePageToSwap : keeps (F := F) choosePageToSwap.
Proof using.
  unfold choosePageToSwap. keep.
  - generalize n at 2. intros m. revert n m. induction list_fuel; intros; cbn [NFUA_loop]; keep; auto.
  - generalize n at 2. generalize (numOfOnes (shiftCounter (page a))). intros z m. revert n m z.
    induction list_fuel; intros; cbn [LAPA_loop]; keep; auto.
  - revert n. induction SCFIFO_fuel; intros; cbn [SCFIFO_loop]; keep; auto.
  - unfold list_head. keep.
Qed.
Lemma keeps_moveToDisk v : keeps (F := F) (moveToDisk v).
Proof using. unfold moveToDisk, movePageToFile, writeToSwapFile. keep. Qed.
#[local] Hint Resolve keeps_choosePageToSwap keeps_moveToDisk : keeps.
Lemma keeps_deallocuvm pd o n : keeps (F := F) (deallocuvm pd o n).
Proof using. unfold deallocuvm. keep. apply keeps_deallocuvm_loop. Qed.
#[local] Hint Resolve keeps_deallocuvm : keeps.
Lemma keeps_allocuvm pd o n : keeps (F := F) (allocuvm pd o n).
Proof using.
  unfold allocuvm. keep. generalize (PGROUNDUP o). induction (S (S (Z.to_nat ((n - o) / PGSIZE)))); intros; cbn [allocuvm_loop];
  unfold paged_proc, make_room, create_my_swap; keep; auto.
Qed.
Lemma keeps_growproc n : keeps (F := F) (growproc n).
Proof using. unfold growproc. keep; auto using keeps_allocuvm, keeps_switchuvm. Qed.
End Routines.
#[export] Hint Resolve keeps_copyuvm keeps_deepCopyProc keeps_dup_file keeps_switchuvm keeps_sched_checks keeps_freevm
  keeps_growproc : keeps.

(** ** Simulation *)

(** Decisions on tables depend on the shapes only. *)
Lemma list_find_image {A B} (g : A → B) (P : A → Prop) `{∀ p, Decision (P p)} t : ∀ t',
  (∀ p q, g p = g q → P p ↔ P q) → g <$> t' = g <$> t → fst <$> list_find P t' = fst <$> list_find P t.
Proof.
  induction t as [|p t IH]; intros [|p' t'] HP Hs; try done. rewrite !fmap_cons in Hs.
  assert (H1 : g p' = g p) by congruence. assert (H2 : g <$> t' = g <$> t) by congruence. cbn [list_find].
  specialize (HP p' p H1) as Hp. destruct (decide (P p')), (decide (P p)); try tauto. cbn.
  specialize (IH t' HP H2). destruct (list_find P t') as [[? ?]|], (list_find P t) as [[? ?]|]; cbn in *; congruence.
Qed.

Lemma shape_lookup (t t' : list proc) (j : nat) p :
  shape <$> t' = shape <$> t → t !! j = Some p → ∃ p', t' !! j = Some p' ∧ shape p' = shape p.
Proof.
  intros Hs E. assert (E' : (shape <$> t') !! j = Some (shape p)) by (by rewrite Hs, list_lookup_fmap, E).
  rewrite list_lookup_fmap in E'. destruct (t' !! j) as [p'|]; [|done]. exists p'. split; [done|]. cbn in E'. congruence.
Qed.

Lemma alter_shape (g h : proc → proc) (j : nat) (t : list proc) :
  (∀ p, shape (g p) = shape (h p)) → shape <$> alter g j t = shape <$> alter h j t.
Proof.
  intros Hgh. apply list_eq. intros k. rewrite !list_lookup_fmap. destruct (decide (k = j)) as [->|Hne].
  - rewrite !list_lookup_alter_eq. destruct (t !! j); [|done]. cbn. by rewrite Hgh.
  - by rewrite !list_lookup_alter_ne.
Qed.

Lemma wait_scan_shape i (t t' : list proc) : shape <$> t' = shape <$> t → wait_scan i t' = wait_scan i t.
Proof.
  intros Hs. unfold wait_scan.
  pose proof (list_find_image shape (λ p, parent p = Some i ∧ state p = ZOMBIE) t t') as Hf.
  specialize (Hf ltac:(intros p q [= H1 H2 H3 H4]; cbv beta; rewrite ?H1, ?H3; done) Hs).
  assert (He : Exists (λ p, parent p = Some i) t' ↔ Exists (λ p, parent p = Some i) t).
  { rewrite !Exists_exists. split; intros (p & (j & E)%list_elem_of_lookup & Hp).
    - destruct (shape_lookup t' t j p (eq_sym Hs) E) as (q & Eq & [= _ _ Hq _]). exists q. split; [by eapply list_elem_of_lookup_2|congruence].
    - destruct (shape_lookup t t' j p Hs E) as (q & Eq & [= _ _ Hq _]). exists q. split; [by eapply list_elem_of_lookup_2|congruence]. }
  destruct (list_find _ t') as [[j ?]|], (list_find _ t) as [[k ?]|]; cbn in Hf; try congruence.
  by rewrite (bool_decide_ext _ _ He).
Qed.

Section Sim.
Context `{Config} {F : Type} `{FileSystem F}.
Context (addr : nat → Z) (trapret forkret_ : Z) (init : nat).

Definition view (s : kernel F) (f : gmap nat nat) : ptab := mkPtab (procs s) (nextpid s) f.

#[local] Notation steps := (rtc (ptstep addr init)).

Lemma keeps_sim {A} (c : K F A) s a s' f : keeps c → c s = Ok a s' →
  steps (view s f) (view s' f) ∧ shape <$> procs s' = shape <$> procs s ∧ cpu_proc s' = cpu_proc s ∧ initproc s' = initproc s ∧ nextpid s' = nextpid s.
Proof using.
  intros Hk E. pose proof (Hk s a s' E) as [= H1 H2 H3 H4]. split_and!; try done.
  unfold view. rewrite H4. apply rtc_once. by apply (pt_data addr init (mkPtab (procs s) (nextpid s) f)).
Qed.

(** From [s] to [s'] without a change of the shape. *)
Definition via (f : gmap nat nat) (s s' : kernel F) : Prop :=
  steps (view s f) (view s' f) ∧ shape <$> procs s' = shape <$> procs s ∧ cpu_proc s' = cpu_proc s ∧ initproc s' = initproc s ∧ nextpid s' = nextpid s.

Lemma via_refl f s : via f s s.
Proof using. by split. Qed.

Lemma via_bind {A B} (c : K F A) (g : A → K F B) f s0 s b s' :
  via f s0 s → keeps c → (c ≫= g) s = Ok b s' → ∃ a s1, via f s0 s1 ∧ g a s1 = Ok b s'.
Proof using.
  intros (H1 & H2 & H3 & H4 & H5) Hk (a & s1 & E & E')%bind_inv. exists a, s1. split; [|done].
  destruct (keeps_sim c s a s1 f Hk E) as (K1 & K2 & K3 & K4 & K5). split; [by etrans|]. split_and!; congruence.
Qed.

Lemma on_proc_modify j (g : proc → proc) (s : kernel F) a s' : on_proc j (modify g) s = Ok a s' →
  s' = set_procs (alter g j (procs s)) s ∧ ∃ p, procs s !! j = Some p.
Proof using.
  unfold on_proc. destruct (procs s !! j) as [p|] eqn:E; [|done]. intros [= _ <-]. split; [|by exists p].
  by rewrite (alter_insert _ _ _ _ E).
Qed.

Lemma fupd_back (f : gmap nat nat) i o : f !! i = None → fupd (fupd f i o) i None = f.
Proof using.
  intros Hf. apply map_eq. intros k. destruct (decide (k = i)) as [->|Hne]; [by rewrite fupd_eq|by rewrite !fupd_ne].
Qed.

(** *** Computations during which the process goes on running *)

Definition inside (f : gmap nat nat) (me : nat) (s : kernel F) : Prop :=
  runs_free (view s f) me ∧ cpu_proc s = Some me ∧ initproc s = Some init.
Definition stays {A} (f : gmap nat nat) (me : nat) (c : K F A) : Prop :=
  ∀ s a s', inside f me s → c s = Ok a s' → steps (view s f) (view s' f) ∧ inside f me s'.

Lemma keeps_inside {A} f me (c : K F A) s a s' : keeps c → inside f me s → c s = Ok a s' → inside f me s'.
Proof using.
  intros Hk ([(p & Ep & Hp) Hf] & Hme & Hini) E. pose proof (Hk s a s' E) as [= Hs Hc Hi _].
  split; [|split; congruence]. split; [|done].
  destruct (shape_lookup _ _ me p Hs Ep) as (p' & Ep' & [= Q1 _ _ _]). exists p'. split; [done|congruence].
Qed.
Lemma stays_keeps {A} f me (c : K F A) : keeps c → stays f me c.
Proof using. intros Hk s a s' Hin E. split; [by apply (keeps_sim c s a)|by eapply keeps_inside]. Qed.
Lemma stays_bind {A B} f me (c : K F A) (g : A → K F B) : stays f me c → (∀ a, stays f me (g a)) → stays f me (c ≫= g).
Proof using.
  intros Hc Hg s b s' Hin (a & s1 & E1 & E2)%bind_inv. destruct (Hc s a s1 Hin E1) as [S1 Hin1].
  destruct (Hg a s1 b s' Hin1 E2) as [S2 Hin2]. split; [by etrans|done].
Qed.
Lemma stays_when f me b (c : K F unit) : stays f me c → stays f me (when b c).
Proof using. destruct b; [done|]. intros _. apply stays_keeps, keeps_ret. Qed.
Lemma stays_forM {A} f me (l : list A) (g : A → K F unit) : (∀ a, stays f me (g a)) → stays f me (forM l g).
Proof using. intros Hg. induction l; cbn [forM]; [apply stays_keeps, keeps_ret|by apply stays_bind]. Qed.

Lemma inside_table f me s t' :
  inside f me s → (∀ p, procs s !! me = Some p → state p = RUNNING → ∃ p', t' !! me = Some p' ∧ state p' = RUNNING) →
  inside f me (set_procs t' s).
Proof using. intros ([(p & Ep & Hp) Hf] & Hme & Hini) Ht. destruct (Ht p Ep Hp) as (p' & Ep' & Hp'). split; [|done]. split; [by exists p'|done]. Qed.
Lemma stays_wakeup f me c : stays f me (wakeup c).
Proof using.
  intros s a s' Hin [= <- <-]. split; [apply rtc_once, (pt_wakeup addr init (view s f))|]. apply inside_table; [done|].
  intros p Ep Hp. unfold wakeup1. exists p. rewrite list_lookup_fmap, Ep. cbn. by rewrite Hp.
Qed.
Lemma stays_kill f me n : stays f me (kill n).
Proof using.
  intros s a s' Hin. unfold kill. rewrite (bind_ok (gets procs) _ s (procs s) s) by done.
  destruct (find_pid n (procs s)) as [j|] eqn:Hj; intros [= <- <-]; [|done].
  split; [apply rtc_once; by apply (pt_kill addr init (view s f) n j)|]. apply inside_table; [done|]. intros p Ep Hp.
  destruct (decide (me = j)) as [<-|Hne].
  - rewrite list_lookup_alter_eq, Ep. exists (set_killed true p). cbn. unfold killed_proc. cbn. by rewrite Hp.
  - exists p. by rewrite list_lookup_alter_ne.
Qed.
Lemma stays_close_fd f me i fd : stays f me (close_fd i fd).
Proof using.
  unfold close_fd. apply stays_bind; [apply stays_keeps; keep|]. intros l. destruct (l !! fd) as [[h|]|]; [|apply stays_keeps; keep..].
  apply stays_bind; [apply stays_keeps; keep|]. intros ws. apply stays_bind; [|intros; apply stays_keeps; keep].
  apply stays_forM. intros c. apply stays_wakeup.
Qed.

(** A new slot of the table, filled so far with a kernel stack. *)
Definition fresh (s s' : kernel F) (j : nat) : Prop :=
  (∃ q, procs s !! j = Some q ∧ state q = UNUSED) ∧
  ∃ p, procs s' !! j = Some p ∧ state p = EMBRYO ∧ pid p = nextpid s ∧ parent p = None.

Lemma fresh_keeps s s1 s2 j : shape <$> procs s2 = shape <$> procs s1 → fresh s s1 j → fresh s s2 j.
Proof using.
  intros Hs [H1 (p & Ep & Hp1 & Hp2 & Hp3)]. split; [done|].
  destruct (shape_lookup _ _ j p Hs Ep) as (p' & Ep' & [= Q1 Q2 Q3 _]). exists p'. split_and!; congruence.
Qed.

(** The next computation of a routine keeps the shape. *)
Ltac keep_step Hk V a s :=
  let V' := fresh "V" in
  eapply via_bind in Hk as (a & s & V' & Hk); [clear V; rename V' into V|exact V|clear; keep].

Section Alloc.
Context (s : kernel F) (f : gmap nat nat) (me : nat).
Hypothesis Hi : ptinv addr init (view s f).
Hypothesis Hr : runs_free (view s f) me.
Hypothesis Hn : nextpid s < 2147483647.

Lemma next_pos : 1 < nextpid s.
Proof using Hi. clear - Hi.
  destruct (pv_init _ _ _ Hi) as (r & Er & Har & _). cbn in Er. unfold alive in Har.
  destruct (pv_pid _ _ _ Hi init r Er); [by destruct (in_use r)|]. cbn in *. lia.
Qed.

Lemma alloc_sim j :
  find_unused (procs s) = Some j →
  let s1 := set_nextpid (s32 (nextpid s + 1)) (set_procs (alter (embryo (nextpid s)) j (procs s)) s) in
  steps (view s f) (view s1 (fupd f me (Some j))) ∧ fresh s s1 j ∧ cpu_proc s1 = cpu_proc s.
Proof using Hi Hr Hn.
  intros Hj. pose proof next_pos as H1. split; [|split; [|done]].
  - apply rtc_once. unfold view; cbn. rewrite s32_small by (clear - H1 Hn; lia).
    by apply (pt_alloc addr init (mkPtab (procs s) (nextpid s) f) me j).
  - destruct (find_unused_some _ _ Hj) as (q & Eq & Hq). split; [by exists q|]. cbn. exists (embryo (nextpid s) q).
    rewrite list_lookup_alter_eq, Eq. split_and!; try done. by apply (pv_unused _ _ _ Hi j q).
Qed.

Lemma abort_sim s0 s1 j :
  fresh s0 s1 j → f !! me = None →
  steps (view s1 (fupd f me (Some j))) (view (set_procs (alter (set_state UNUSED) j (procs s1)) s1) f).
Proof using.
  intros [_ (p & Ep & _ & _ & Hp)] Hf. apply rtc_once. rewrite <- (fupd_back f me (Some j) Hf) at 2.
  apply (pt_abort addr init (mkPtab (procs s1) (nextpid s1) (fupd f me (Some j))) me j); cbn; [apply fupd_eq|].
  intros p'. rewrite Ep. by intros [= <-].
Qed.

(** [allocproc] gives a fresh slot, or none. *)
Lemma allocproc_sim o s' : allocproc trapret forkret_ s = Ok o s' →
  cpu_proc s' = cpu_proc s ∧
  match o with
  | Some j => steps (view s f) (view s' (fupd f me (Some j))) ∧ fresh s s' j
  | None => steps (view s f) (view s' f)
  end.
Proof using Hi Hr Hn.
  unfold allocproc. change (gets procs) with (gets (@procs F)). rewrite (bind_ok (gets procs) _ s (procs s) s) by done.
  destruct (find_unused (procs s)) as [j|] eqn:Hj; [|by intros [= <- <-]].
  destruct (alloc_sim j Hj) as (S1 & F1 & C1). set (s1 := set_nextpid _ _) in *. cbv zeta.
  rewrite (bind_ok (gets nextpid) _ s (nextpid s) s) by done.
  rewrite (bind_ok (on_table (alter (embryo (nextpid s)) j)) _ s tt (set_procs (alter (embryo (nextpid s)) j (procs s)) s)) by done.
  rewrite (bind_ok (modify (set_nextpid (s32 (nextpid s + 1)))) _ _ tt s1) by done.
  intros Hk. pose proof (via_refl (fupd f me (Some j)) s1) as V. keep_step Hk V ks s2. keep_step Hk V u s3.
  destruct V as (S3 & F3 & C3 & _). apply (fresh_keeps _ _ s3) in F1; [|done]. rewrite S3 in S1.
  destruct (ks =? 0).
  - apply bind_inv in Hk as (u4 & s4 & E4 & [= <- <-]). apply on_proc_modify in E4 as [-> _]. split; [cbn; congruence|].
    etrans; [exact S1|]. apply (abort_sim s); [done|]. by destruct Hr.
  - match type of Hk with ?c s3 = _ => assert (K4 : keeps c) by (clear; keep) end.
    destruct (keeps_sim _ _ _ _ (fupd f me (Some j)) K4 Hk) as (S4 & F4 & C4 & _).
    assert (o = Some j) as -> by (clear - Hk; repeat (apply bind_inv in Hk as (? & ? & _ & Hk)); by injection Hk).
    split; [congruence|]. split; [by etrans|]. by eapply fresh_keeps.
Qed.
End Alloc.

(** *** [fork] *)

Section Fork.
Context (s : kernel F) (f : gmap nat nat) (me : nat).
Hypothesis Hi : ptinv addr init (view s f).
Hypothesis Hr : runs_free (view s f) me.
Hypothesis Hn : nextpid s < 2147483647.
Hypothesis Hme : cpu_proc s = Some me.

(** The new process has the parent's slot and the next identifier. *)
Definition forked (s' : kernel F) (r : Z) : Prop :=
  r = nextpid s ∧ ∃ j p, (∃ q, procs s !! j = Some q ∧ state q = UNUSED) ∧
    procs s' !! j = Some p ∧ state p = RUNNABLE ∧ pid p = r ∧ parent p = Some me.

Lemma runs_none : f !! me = None.
Proof using Hr. clear - Hr. by destruct Hr. Qed.

Lemma link_sim j s1 : fresh s s1 j → ∀ g, (∀ p, shape (g p) = shape (set_parent (Some me) p)) →
  let s2 := set_procs (alter g j (procs s1)) s1 in
  steps (view s1 (fupd f me (Some j))) (view s2 (fupd f me (Some j))) ∧
  ∃ p, procs s2 !! j = Some p ∧ state p = EMBRYO ∧ pid p = nextpid s ∧ parent p = Some me.
Proof using.
  intros [_ (p & Ep & H1 & H2 & H3)] g Hg s2. set (f' := fupd f me (Some j)). split.
  - etrans; apply rtc_once.
    + apply (pt_link addr init (mkPtab (procs s1) (nextpid s1) f') me j), fupd_eq.
    + apply (pt_data addr init (mkPtab (alter (set_parent (Some me)) j (procs s1)) (nextpid s1) f')). by apply alter_shape.
  - exists (g p). cbn. rewrite list_lookup_alter_eq, Ep. split; [done|].
    specialize (Hg p) as [= -> -> -> _]. by destruct p.
Qed.

Lemma ready_sim j s1 p :
  procs s1 !! j = Some p → parent p = Some me →
  steps (view s1 (fupd f me (Some j))) (view (set_procs (alter (set_state RUNNABLE) j (procs s1)) s1) f).
Proof using Hr.
  intros Ep Hp. apply rtc_once. rewrite <- (fupd_back f me (Some j) runs_none) at 2.
  apply (pt_ready addr init (mkPtab (procs s1) (nextpid s1) (fupd f me (Some j))) me j); cbn; [apply fupd_eq|].
  intros p'. rewrite Ep. by intros [= <-].
Qed.

Lemma fork_sim r s' : fork trapret forkret_ s = Ok r s' →
  steps (view s f) (view s' f) ∧ (r = -1 ∨ forked s' r).
Proof using Hi Hr Hn Hme.
  unfold fork. rewrite (bind_ok (gets cpu_proc) _ s (Some me) s) by (unfold gets; by rewrite Hme).
  intros (o & s1 & E1 & Hk)%bind_inv. destruct (allocproc_sim s f me Hi Hr Hn o s1 E1) as [C1 S1].
  destruct o as [j|]; [|injection Hk as <- <-; auto]. destruct S1 as [S1 F1]. pose proof (via_refl (fupd f me (Some j)) s1) as V.
  keep_step Hk V cur s2. keep_step Hk V pd s3. keep_step Hk V u s4.
  destruct V as (S4 & F4 & _). apply (fresh_keeps _ _ s4) in F1; [|done]. rewrite S4 in S1. clear S4 F4.
  destruct (pd =? 0).
  - pose proof (via_refl (fupd f me (Some j)) s4) as V. keep_step Hk V ks s5. keep_step Hk V u6 s6. destruct V as (S6 & F6 & _).
    apply (fresh_keeps _ _ s6) in F1; [|done]. apply bind_inv in Hk as (u7 & s7 & E7 & Hk). apply on_proc_modify in E7 as [-> _].
    injection Hk as <- <-. split; [|by left]. rewrite S1, S6. etrans; [by apply (abort_sim f me s); [|apply runs_none]|].
    apply rtc_once. apply (pt_data addr init (mkPtab (alter (set_state UNUSED) j (procs s6)) (nextpid s6) f)). cbn. by apply alter_shape.
  - apply bind_inv in Hk as (u5 & s5 & E5 & Hk). apply on_proc_modify in E5 as [-> _].
    match type of Hk with context [alter ?g j _] => destruct (link_sim j s4 F1 g) as (S5 & p5 & Ep5 & H1 & H2 & H3); [by intros []|] end.
    set (s5 := set_procs _ s4) in *. pose proof (via_refl (fupd f me (Some j)) s5) as V.
    keep_step Hk V v1 t1. keep_step Hk V v2 t2. keep_step Hk V v3 t3. keep_step Hk V v4 t4. keep_step Hk V v5 t5.
    keep_step Hk V v6 t6. keep_step Hk V v7 t7. 
    apply bind_inv in Hk as (r0 & t8 & E8 & Hk). apply bind_inv in Hk as (w & t9 & E9 & [= -> <-]). apply on_proc_modify in E9 as [-> _].
    destruct V as (S7 & F7 & _ & _). destruct (shape_lookup _ _ j p5 F7 Ep5) as (p7 & Ep7 & [= Q1 Q2 Q3 Q4]).
    unfold on_proc in E8. rewrite Ep7 in E8. injection E8 as <- <-. rewrite (list_insert_id _ _ _ Ep7).
    split.
    + rewrite S1, S5, S7. etrans; [apply (ready_sim j t7 p7); [done|congruence]|]. by apply rtc_once, (pt_data addr init).
    + right. split; [congruence|]. exists j, (set_state RUNNABLE p7). split; [by destruct F1|]. cbn. rewrite list_lookup_alter_eq, Ep7.
      split_and!; try done; congruence.
Qed.
End Fork.

(** *** The other routines *)

Lemma via_running s f me s1 :
  runs_free (view s f) me → cpu_proc s = Some me → via f s s1 → runs_free (view s1 f) me ∧ cpu_proc s1 = Some me.
Proof using.
  intros Hr Hme (_ & Hs & Hc & _). destruct Hr as [(p & Ep & Hp) Hf]. split; [|congruence]. split; [|done].
  destruct (shape_lookup _ _ me p Hs Ep) as (p' & Ep' & [= Q1 _ _ _]). exists p'. split; [done|congruence].
Qed.

Section Others.
Context (s : kernel F) (f : gmap nat nat) (me : nat).
Hypothesis Hr : runs_free (view s f) me.
Hypothesis Hme : cpu_proc s = Some me.


(** [exit] ends in [sched]: the step is what it leaves behind. *)
Lemma exit_sim u s' : initproc s = Some init → exit addr s = Ok u s' →
  steps (view s f) (view s' f) ∧ ∃ p, procs s' !! me = Some p ∧ state p = ZOMBIE.
Proof using Hr Hme.
  intros Hini. unfold exit. rewrite (bind_ok (gets cpu_proc) _ s (Some me) s) by (unfold gets; by rewrite Hme).
  rewrite (bind_ok (gets initproc) _ s (Some init) s) by (unfold gets; by rewrite Hini).
  case_bool_decide as Hne; [done|]. intros (v1 & s1 & E1 & Hk)%bind_inv.
  destruct (stays_forM f me _ (close_fd me) (stays_close_fd f me me) s v1 s1 (conj Hr (conj Hme Hini)) E1) as [S1 (Hr1 & Hme1 & _)].
  enough (steps (view s1 f) (view s' f) ∧ ∃ p, procs s' !! me = Some p ∧ state p = ZOMBIE) as [? ?] by (split; [by etrans|done]).
  clear S1 E1. pose proof (via_refl f s1) as V. keep_step Hk V v2 s2. keep_step Hk V v3 s3. keep_step Hk V v4 s4. keep_step Hk V v5 s5.
  keep_step Hk V v6 s6. keep_step Hk V v7 s7. keep_step Hk V v8 s8. injection Hk as _ <-.
  destruct (via_running _ f me _ Hr1 Hme1 V) as [Hr8 _]. destruct V as (S8 & F8 & _). split.
  - rewrite S8. apply rtc_once. apply (pt_exit addr init (view s8 f) me); [done|congruence].
  - destruct Hr8 as [(p & Ep & Hp) _]. cbn in Ep |- *. pose proof (exit_left addr init me p (procs s8)) as Hx.
    destruct (lookup_lt_is_Some_2 (exit_table addr me (Some init) (procs s8)) me) as [q Eq].
    { rewrite (lf_len _ _ _ _ _ _ (Hx ltac:(congruence) Ep)). by eapply lookup_lt_Some. }
    exists q. split; [done|]. destruct (lf_one _ _ _ _ _ _ (Hx ltac:(congruence) Ep) me q Eq) as (q0 & q1 & _ & _ & ->).
    by rewrite decide_True.
Qed.

(** [wait] removes a child that has exited and returns its identifier, or
    returns -1 because there is no child or the caller has been killed. *)
Lemma wait_sim r s' : wait addr s = Ok r s' →
  steps (view s f) (view s' f) ∧
  (r = -1 ∨ ∃ j q, procs s !! j = Some q ∧ parent q = Some me ∧ state q = ZOMBIE ∧ pid q = r ∧
     ∃ q', procs s' !! j = Some q' ∧ state q' = UNUSED).
Proof using Hr Hme.
  unfold wait. rewrite (bind_ok (gets cpu_proc) _ s (Some me) s) by (unfold gets; by rewrite Hme).
  rewrite (bind_ok (gets procs) _ s (procs s) s) by done. destruct (wait_scan me (procs s)) as [j| |] eqn:Hw; intros Hk.
  - destruct (wait_scan_reap _ _ _ Hw) as (q & Eq & Hq & Hz).
    rewrite (bind_ok (on_proc j (gets id)) _ s q s) in Hk by (unfold on_proc; rewrite Eq; cbn; rewrite list_insert_id by done; by destruct s).
    pose proof (via_refl f s) as V. keep_step Hk V v1 s1. keep_step Hk V v2 s2. keep_step Hk V v3 s3.
    apply bind_inv in Hk as (u & s4 & E4 & [= <- <-]). apply on_proc_modify in E4 as [-> (p & Ep)].
    destruct (via_running _ f me _ Hr Hme V) as [Hr3 _]. destruct V as (S3 & F3 & _). split.
    + rewrite S3. apply rtc_once. apply (pt_reap addr init (view s3 f) me j); [done|]. cbn. by rewrite (wait_scan_shape me _ _ F3).
    + right. exists j, q. split_and!; try done. exists (reaped p). cbn. by rewrite list_lookup_alter_eq, Ep.
  - pose proof (via_refl f s) as V. keep_step Hk V k s1. destruct k; [|done]. injection Hk as <- <-. split; [apply V|by left].
  - injection Hk as <- <-. split; [done|by left].
Qed.

Lemma kill_sim n r s' : kill n s = Ok r s' → steps (view s f) (view s' f).
Proof using.
  unfold kill. rewrite (bind_ok (gets procs) _ s (procs s) s) by done. destruct (find_pid n (procs s)) as [j|] eqn:Hj.
  - intros [= <- <-]. apply rtc_once. by apply (pt_kill addr init (view s f) n j).
  - by intros [= <- <-].
Qed.

Lemma wakeup_sim c r s' : wakeup c s = Ok r s' → steps (view s f) (view s' f).
Proof using. intros [= <- <-]. apply rtc_once, (pt_wakeup addr init (view s f)). Qed.

Lemma switch_sim g (c : K F unit) s1 r s' :
  via f s s1 → keeps c → (on_myproc (modify g) ;; c) s1 = Ok r s' →
  ptstep addr init (view s1 f) (mkPtab (alter g me (procs s1)) (nextpid s1) f) → steps (view s f) (view s' f).
Proof using Hme.
  intros V Hc (u & s2 & E1 & E2)%bind_inv Hst. destruct V as (S1 & _ & C1 & _). unfold on_myproc in E1.
  rewrite C1, Hme in E1. apply on_proc_modify in E1 as [-> _].
  destruct (keeps_sim c _ _ _ f Hc E2) as (S2 & _). rewrite S1. etrans; [|exact S2]. by apply rtc_once.
Qed.

Lemma yield_sim r s' : yield s = Ok r s' → steps (view s f) (view s' f).
Proof using Hr Hme.
  unfold yield. intros Hk. pose proof (via_refl f s) as V. keep_step Hk V v1 s1.
  destruct (via_running _ f me _ Hr Hme V) as [[(p & Ep & Hp) _] _]. eapply switch_sim in Hk; [done|done|apply keeps_sched_checks|].
  by apply (pt_yield addr init (view s1 f) me p).
Qed.

Lemma sleep_sim c own r s' : (∀ k, c ≠ addr k) → sleep c (Some own) s = Ok r s' → steps (view s f) (view s' f).
Proof using Hr Hme.
  intros Hc. unfold sleep. rewrite (bind_ok (gets cpu_proc) _ s (Some me) s) by (unfold gets; by rewrite Hme).
  intros Hk. pose proof (via_refl f s) as V. keep_step Hk V v1 s1.
  destruct (via_running _ f me _ Hr Hme V) as [[(p & Ep & Hp) _] _]. eapply switch_sim in Hk; [done|done|apply keeps_sched_checks|].
  by apply (pt_sleep addr init (view s1 f) me p).
Qed.

Lemma sleep_end_sim own r s' : sleep_end own s = Ok r s' → steps (view s f) (view s' f).
Proof using Hr Hme.
  unfold sleep_end. intros Hk. pose proof (via_refl f s) as V. destruct Hr as [(p & Ep & Hp) _].
  eapply switch_sim in Hk; [done|done|clear; keep|]. by apply (pt_tidy addr init (view s f) me p).
Qed.

Lemma growproc_sim n r s' : growproc n s = Ok r s' → steps (view s f) (view s' f).
Proof using. intros E. by destruct (keeps_sim _ _ _ _ f (keeps_growproc n) E). Qed.
End Others.

(** *** The caller of [fork] and [wait] goes on running *)

Section Safe.
Context (f : gmap nat nat) (me : nat).

Definition safe {A} (c : K F A) : Prop := ∀ s a s', inside f me s → c s = Ok a s' → inside f me s'.

Lemma safe_keeps {A} (c : K F A) : keeps c → safe c.
Proof using. intros Hk s a s' Hin E. by eapply keeps_inside. Qed.
Lemma safe_bind {A B} (c : K F A) (g : A → K F B) : safe c → (∀ a, safe (g a)) → safe (c ≫= g).
Proof using. intros Hc Hg s b s' Hin (a & s1 & E1 & E2)%bind_inv. apply (Hg a s1 b s'); [|done]. by apply (Hc s a s1). Qed.
Lemma safe_other j g : j ≠ me → safe (on_proc j (modify g)).
Proof using.
  intros Hj s a s' Hin [-> _]%on_proc_modify. apply inside_table; [done|]. intros p Ep Hp. exists p. by rewrite list_lookup_alter_ne.
Qed.
End Safe.

Ltac safe_step := first [apply safe_keeps; clear; solve [keep] | by apply safe_other | apply safe_bind; [|intros ?]].
Ltac safely := repeat match goal with
  | |- safe _ _ (match ?x with _ => _ end) => destruct x
  | |- safe _ _ (if ?x then _ else _) => destruct x
  | |- safe _ _ _ => safe_step
  end.

Lemma allocproc_safe f me s o s' :
  inside f me s → allocproc trapret forkret_ s = Ok o s' → inside f me s' ∧ o ≠ Some me.
Proof using.
  intros Hin. unfold allocproc. rewrite (bind_ok (gets procs) _ s (procs s) s) by done.
  destruct (find_unused (procs s)) as [j|] eqn:Hj; [|by intros [= <- <-]].
  assert (Hne : j ≠ me).
  { intros ->. destruct Hin as ([(p & Ep & Hp) _] & _). destruct (find_unused_some _ _ Hj) as (q & Eq & Hq). cbn in Ep. congruence. }
  intros Hk. split.
  - revert Hk. apply safe_bind; [safely| |done]. intros n. apply safe_bind.
    { intros s1 a s2 Hin1 [= <- <-]. apply inside_table; [done|]. intros p Ep Hp. exists p. by rewrite list_lookup_alter_ne. }
    intros _. apply safe_bind; [|intros _; safely].
    intros s1 a s2 ([H1 H2] & H3 & H4) [= <- <-]. done.
  - repeat (apply bind_inv in Hk as (? & ? & _ & Hk)). case_match.
    + apply bind_inv in Hk as (? & ? & _ & [= <- _]). done.
    + repeat (apply bind_inv in Hk as (? & ? & _ & Hk)). injection Hk as <- _. congruence.
Qed.

Lemma fork_safe f me : safe f me (fork trapret forkret_).
Proof using.
  intros s r s' Hin. assert (Hme : cpu_proc s = Some me) by apply Hin. unfold fork.
  rewrite (bind_ok (gets cpu_proc) _ s (Some me) s) by (unfold gets; by rewrite Hme).
  intros (o & s1 & E1 & Hk)%bind_inv. destruct (allocproc_safe f me s o s1 Hin E1) as [Hin1 Ho].
  destruct o as [j|]; [|by injection Hk as <- <-]. assert (Hj : j ≠ me) by congruence. revert Hk.
  match goal with |- ?c s1 = _ → _ => assert (Hc : safe f me c); [|by apply Hc] end. safely.
Qed.

Lemma wait_safe f me : safe f me (wait addr).
Proof using.
  intros s r s' Hin. assert (Hme : cpu_proc s = Some me) by apply Hin. unfold wait.
  rewrite (bind_ok (gets cpu_proc) _ s (Some me) s) by (unfold gets; by rewrite Hme).
  rewrite (bind_ok (gets procs) _ s (procs s) s) by done. destruct (wait_scan me (procs s)) as [j| |] eqn:Hw.
  - assert (Hj : j ≠ me).
    { intros ->. destruct Hin as ([(p & Ep & Hp) _] & _). destruct (wait_scan_reap _ _ _ Hw) as (q & Eq & _ & Hq). cbn in Ep. congruence. }
    match goal with |- ?c s = _ → _ => assert (Hc : safe f me c); [|by apply Hc] end. safely.
  - intros (k & s1 & E1 & Hk)%bind_inv. destruct k; [|done]. injection Hk as <- <-.
    refine (safe_keeps f me (on_proc me (gets killed)) _ s true s1 Hin E1). keep.
  - by intros [= <- <-].
Qed.

(** ** A process in the kernel *)

(** The calls of [proc.c] that a running process makes. *)
Inductive pcall :=
  | CFork | CExit | CWait | CKill (pid : Z) | CWakeup (c : Z) | CYield | CSleep (c : Z) (own : bool) | CSleepEnd (own : bool) | CGrow (n : Z).

Definition pcall_run (c : pcall) : K F Z :=
  match c with
  | CFork => fork trapret forkret_
  | CExit => exit addr ;; mret 0
  | CWait => wait addr
  | CKill n => kill n
  | CWakeup c => wakeup c ;; mret 0
  | CYield => yield ;; mret 0
  | CSleep c own => sleep c (Some own) ;; mret 0
  | CSleepEnd own => sleep_end own ;; mret 0
  | CGrow n => growproc n
  end.

(** [sleep] is called on a channel that is not a process, [fork] before the
    identifiers run out. *)
Definition pcall_ok (c : pcall) (s : kernel F) : Prop :=
  match c with
  | CFork => nextpid s < 2147483647
  | CSleep c _ => ∀ k, c ≠ addr k
  | _ => True
  end.

Lemma then_zero (c : K F unit) s r s' : (c ;; mret 0) s = Ok r s' → c s = Ok tt s'.
Proof using. intros ([] & s1 & E & [= <- <-])%bind_inv. done. Qed.

Lemma pcall_sim c s f me r s' :
  ptinv addr init (view s f) → runs_free (view s f) me → cpu_proc s = Some me → initproc s = Some init → pcall_ok c s →
  pcall_run c s = Ok r s' → steps (view s f) (view s' f).
Proof using.
  intros Hi Hr Hme Hini Hok E. destruct c; cbn [pcall_run pcall_ok] in *.
  - by destruct (fork_sim s f me Hi Hr Hok Hme r s' E).
  - apply then_zero in E. by destruct (exit_sim s f me Hr Hme tt s' Hini E).
  - by destruct (wait_sim s f me Hr Hme r s' E).
  - by eapply kill_sim.
  - apply then_zero in E. by eapply wakeup_sim.
  - apply then_zero in E. by eapply yield_sim.
  - apply then_zero in E. by eapply sleep_sim.
  - apply then_zero in E. by eapply sleep_end_sim.
  - by eapply growproc_sim.
Qed.
End Sim.
