(* ===== verification/ProcClaims.v ===== *)
(** * ProcClaims: what holds of processes

    The invariant of the process table under every interleaving of the critical
    sections of [proc.c], the refinement of the routines to that machine, the
    fairness of the scheduler, and what [kill] does with the identifier 0. *)

From S2P Require Import Prelude Mmu Phys Config Kalloc PageTable State Spinlock Demo PageList Swap Uvm SwapDemo UvmDemo Proc ProcSpec ProcRefine.

(** ** The table *)

Lemma ptreach_inv addr init m : ptreach addr init m → ptinv addr init m.
Proof. induction 1 as [m Hs|m m' _ IH Hs]; [by apply ptinv_start|by eapply ptinv_step]. Qed.

(** C6. In every state that the process table reaches from the one [userinit]
    leaves, by the critical sections of [fork], [exit], [wait], [sleep],
    [wakeup], [kill], [yield] and the scheduler in any order: two slots in use
    have different positive identifiers, every process but the first has a parent
    that is neither gone nor still being created, and no process sleeps in [wait]
    while a child of its has exited. *)
Theorem process_table_invariant (addr : nat → Z) (init : nat) (m : ptab) :
  ptreach addr init m →
  (∀ i p, m_tab m !! i = Some p → in_use p = true → 1 ≤ pid p < m_next m) ∧
  (∀ i j p q, m_tab m !! i = Some p → m_tab m !! j = Some q → in_use p = true → in_use q = true → pid p = pid q → i = j) ∧
  (∀ j q, m_tab m !! j = Some q → started q = true → j ≠ init →
     ∃ k p, parent q = Some k ∧ k ≠ j ∧ m_tab m !! k = Some p ∧ alive p = true) ∧
  (∀ i p j q, m_tab m !! i = Some p → state p = SLEEPING → chan p = addr i →
     m_tab m !! j = Some q → parent q = Some i → state q ≠ ZOMBIE).
Proof.
  intros Hr. apply ptreach_inv in Hr. split_and!.
  - apply (pv_pid _ _ _ Hr).
  - apply (pv_uniq _ _ _ Hr).
  - apply (pv_parent _ _ _ Hr).
  - apply (pv_wait _ _ _ Hr).
Qed.

Definition proc_addr (i : nat) : Z := 0x80112d54 + 124 * Z.of_nat i.
Definition slot_ (st : procstate) (n : Z) (par : option nat) : proc :=
  set_parent par (set_pid n (set_state st (set_cwd (Some 1) (demo_proc pd1 None)))).
Definition boot_table : ptab := mkPtab [slot_ RUNNABLE 1 None; slot_ UNUSED 0 None; slot_ UNUSED 0 None] 2 ∅.

Lemma boot_start : ptstart 0 boot_table.
Proof.
  split; [done|]. split; [done|]. split; [by eexists|]. intros [|[|[|j]]] q; cbn; [done| | |done].
  - by intros [= <-].
  - by intros [= <-].
Qed.

(** The first process has forked a child and waits for it. *)
Definition waiting_table : ptab :=
  mkPtab [asleep (proc_addr 0) (slot_ RUNNING 1 None); slot_ RUNNABLE 2 (Some 0%nat); slot_ UNUSED 0 None] 3 ∅.

Lemma waiting_reach : ptreach proc_addr 0 waiting_table.
Proof.
  assert (Hr0 : ptreach proc_addr 0 boot_table) by (apply ptreach_start, boot_start).
  pose proof (ptreach_step _ _ _ _ Hr0 (pt_run proc_addr 0 boot_table 0 (slot_ RUNNABLE 1 None) eq_refl eq_refl)) as H1.
  assert (R1 : runs_free (mkPtab [slot_ RUNNING 1 None; slot_ UNUSED 0 None; slot_ UNUSED 0 None] 2 ∅) 0) by (split; [by eexists|done]).
  pose proof (ptreach_step _ _ _ _ H1 (pt_alloc proc_addr 0 _ 0 1 R1 eq_refl eq_refl)) as H2.
  match type of H2 with ptreach _ _ ?m => pose proof (ptreach_step _ _ _ _ H2 (pt_link proc_addr 0 m 0 1 eq_refl)) as H3 end.
  match type of H3 with ptreach _ _ ?m =>
    pose proof (ptreach_step _ _ _ _ H3 (pt_ready proc_addr 0 m 0 1 eq_refl ltac:(by intros p [= <-]))) as H4 end.
  match type of H4 with ptreach _ _ ?m =>
    assert (R4 : runs_free m 0) by (split; [by eexists|done]); exact (ptreach_step _ _ _ _ H4 (pt_wait proc_addr 0 m 0 R4 eq_refl)) end.
Qed.

Lemma process_table_invariant_witness :
  state (slot_ RUNNABLE 2 (Some 0%nat)) ≠ ZOMBIE.
Proof.
  refine (proj2 (proj2 (proj2 (process_table_invariant proc_addr 0 waiting_table waiting_reach)))
    0%nat (asleep (proc_addr 0) (slot_ RUNNING 1 None)) 1%nat (slot_ RUNNABLE 2 (Some 0%nat)) _ _ _ _ _); reflexivity.
Defined.

(** ** The routines *)

Section Refine.
Context `{Config} {F : Type} `{FileSystem F}.
Context (addr : nat → Z) (trapret forkret_ : Z) (init : nat).

Lemma dispatch_sim k (s : kernel F) f o s' : dispatch k s = Ok o s' →
  rtc (ptstep addr init) (view s f) (view s' f) ∧
  match o with Some i => cpu_proc s' = Some i ∧ ∃ p, procs s' !! i = Some p ∧ state p = RUNNING | None => s' = s end.
Proof using.
  unfold dispatch. rewrite (bind_ok (gets procs) _ s (procs s) s) by done.
  destruct (next_runnable k (procs s)) as [i|] eqn:En; [|by intros [= <- <-]].
  rewrite (bind_ok (modify (set_cpu_proc (Some i))) _ s tt (set_cpu_proc (Some i) s)) by done.
  intros (u & s1 & E1 & Hk)%bind_inv. destruct (keeps_sim addr init _ _ _ _ f (keeps_switchuvm (Some i)) E1) as (S1 & F1 & C1 & _).
  apply bind_inv in Hk as (v & s2 & E2 & [= <- <-]). apply on_proc_modify in E2 as [-> (p & Ep)].
  assert (Hp : state p = RUNNABLE).
  { unfold next_runnable in En. destruct (list_find _ _) as [[r q]|] eqn:Ef; [|done]. injection En as <-.
    apply list_find_Some in Ef as (Eq & Hq & _). rewrite lookup_drop in Eq.
    destruct (shape_lookup _ _ _ q F1 Eq) as (p' & Ep' & [= Q1 _ _ _]). cbn in Ep. rewrite Ep in Ep'. injection Ep' as <-. congruence. }
  split.
  - etrans; [exact S1|]. apply rtc_once. by apply (pt_run addr init (view s1 f) i p).
  - split; [done|]. exists (set_state RUNNING p). cbn. by rewrite list_lookup_alter_eq, Ep.
Qed.

End Refine.

(** A parent calls [fork] with one page of memory left: the kernel stack of the
    child takes it, the page table cannot be made, and [fork] gives it back. *)
Definition fork_kernel : kernel memfs :=
  mkKernel fork_phys (V2P pd1) 0 0 0 [slot_ RUNNING 1 None; slot_ UNUSED 0 None] (Some 0%nat) (Some 0%nat) 2 0 demo_cpu swap_files.

Lemma fork_kernel_inv : ptinv proc_addr 0 (view fork_kernel ∅).
Proof.
  apply (ptreach_inv proc_addr 0). assert (Hs : ptstart 0 (mkPtab [slot_ RUNNABLE 1 None; slot_ UNUSED 0 None] 2 ∅)).
  { split; [done|]. split; [done|]. split; [by eexists|]. intros [|[|j]] q; cbn; [done| |done]. by intros [= <-]. }
  exact (ptreach_step _ _ _ _ (ptreach_start _ _ _ Hs) (pt_run proc_addr 0 (mkPtab [slot_ RUNNABLE 1 None; slot_ UNUSED 0 None] 2 ∅) 0 (slot_ RUNNABLE 1 None) eq_refl eq_refl)).
Qed.

Definition run_fork : res (kernel memfs) Z :=
  let _ := demo_config SCFIFO in pcall_run proc_addr 0x80106000 0x80103000 CFork fork_kernel.


(** ** The scheduler *)

(** The loop of [scheduler]: [ts m] is the table it sees when it looks for a
    process the [m]th time, [look ts k m] the slot it goes on from. *)
Fixpoint look (ts : nat → list proc) (k m : nat) : nat :=
  match m with
  | O => k
  | S m' => match next_runnable (look ts k m') (ts m') with Some i => S i | None => O end
  end.

Lemma next_runnable_before k j t p :
  t !! j = Some p → state p = RUNNABLE → (k ≤ j)%nat → ∃ i, next_runnable k t = Some i ∧ (k ≤ i ≤ j)%nat.
Proof.
  intros Ej Hp Hk. unfold next_runnable. destruct (list_find _ (drop k t)) as [[r q]|] eqn:Ef.
  - exists (k + r)%nat. split; [done|]. apply list_find_Some in Ef as (_ & _ & Hmin).
    destruct (decide (r ≤ j - k)%nat); [lia|]. destruct (Hmin (j - k)%nat p); [|lia|done].
    rewrite lookup_drop. by replace (k + (j - k))%nat with j by lia.
  - apply list_find_None in Ef. rewrite Forall_lookup in Ef. destruct (Ef (j - k)%nat p); [|done].
    rewrite lookup_drop. by replace (k + (j - k))%nat with j by lia.
Qed.

Lemma next_runnable_range k t i : next_runnable k t = Some i → (k ≤ i < length t)%nat.
Proof.
  unfold next_runnable. destruct (list_find _ (drop k t)) as [[r q]|] eqn:Ef; [|done]. intros [= <-].
  apply list_find_Some in Ef as (E & _). rewrite lookup_drop in E. apply lookup_lt_Some in E. cbn. lia.
Qed.

Section Fair.
Context (ts : nat → list proc) (k j n : nat).
Hypothesis Hlen : ∀ m, length (ts m) = n.
Hypothesis Hrun : ∀ m, (∀ m', (m' < m)%nat → next_runnable (look ts k m') (ts m') ≠ Some j) →
  ∃ p, ts m !! j = Some p ∧ state p = RUNNABLE.

(** Slots still to be passed before [j], going round. *)
Definition ahead (m : nat) : nat :=
  let l := look ts k m in if decide (l ≤ j)%nat then (j - l)%nat else (n - l + 1 + j)%nat.

Lemma ahead_step m :
  (look ts k m ≤ n)%nat → (∀ m', (m' ≤ m)%nat → next_runnable (look ts k m') (ts m') ≠ Some j) →
  (look ts k (S m) ≤ n)%nat ∧ (ahead (S m) < ahead m)%nat.
Proof using Hlen Hrun.
  intros Hl Hno. destruct (Hrun m) as (p & Ep & Hp); [intros m' Hm; apply Hno; lia|].
  assert (Hj : (j < n)%nat) by (rewrite <- (Hlen m); by eapply lookup_lt_Some).
  unfold ahead. cbn [look]. specialize (Hno m ltac:(lia)). destruct (decide (look ts k m ≤ j)%nat) as [Hle|Hgt].
  - destruct (next_runnable_before _ _ _ _ Ep Hp Hle) as (i & E & Hi). rewrite E in *. assert (i ≠ j) by congruence.
    rewrite decide_True by lia. lia.
  - destruct (next_runnable _ (ts m)) as [i|] eqn:E.
    + apply next_runnable_range in E. rewrite Hlen in E. rewrite decide_False by lia. lia.
    + rewrite decide_True by lia. lia.
Qed.

Lemma ahead_bound m :
  (k ≤ n)%nat → (∀ m', (m' < m)%nat → next_runnable (look ts k m') (ts m') ≠ Some j) →
  (look ts k m ≤ n)%nat ∧ (m + ahead m ≤ ahead 0)%nat.
Proof using Hlen Hrun.
  intros Hk. induction m as [|m IH]; intros Hno; [by split|].
  destruct IH as [Hl Ha]; [intros m' Hm; apply Hno; lia|].
  destruct (ahead_step m Hl) as [H1 H2]; [intros m' Hm; apply Hno; lia|]. split; [done|]. lia.
Qed.

(** C32. The scheduler is fair: a process that stays runnable until it is chosen
    is chosen after at most [NPROC] other looks at the table, wherever in the
    table the scheduler is and however the table changes in between. *)
Theorem scheduler_fair :
  (k ≤ n)%nat → ∃ m, (m ≤ n)%nat ∧ next_runnable (look ts k m) (ts m) = Some j.
Proof using Hlen Hrun.
  intros Hk. assert (Hj : (j < n)%nat).
  { destruct (Hrun 0) as (p & Ep & _); [lia|]. rewrite <- (Hlen 0). by eapply lookup_lt_Some. }
  assert (Hd : ∀ m, (∃ m', (m' < m)%nat ∧ next_runnable (look ts k m') (ts m') = Some j) ∨
    ∀ m', (m' < m)%nat → next_runnable (look ts k m') (ts m') ≠ Some j).
  { induction m as [|m [(m' & ? & ?)|IH]]; [right; lia|left; exists m'; split; [lia|done]|].
    destruct (decide (next_runnable (look ts k m) (ts m) = Some j)); [left; exists m; split; [lia|done]|right].
    intros m' Hm. destruct (decide (m' = m)) as [->|]; [done|]. apply IH. lia. }
  destruct (Hd (S n)) as [(m & Hm & E)|Hno]; [exists m; split; [lia|done]|].
  destruct (ahead_bound (S n) Hk Hno) as [_ Hb]. unfold ahead at 2 in Hb. cbn in Hb. case_decide; lia.
Qed.
End Fair.

(** The process in the first slot gets its turn although the second is always
    ready too. *)
Lemma scheduler_fair_witness :
  let ts := λ _ : nat, [slot_ RUNNABLE 1 None; slot_ RUNNABLE 2 (Some 0%nat)] in
  ∃ m, (m ≤ 2)%nat ∧ next_runnable (look ts 1 m) (ts m) = Some 0%nat.
Proof.
  apply scheduler_fair; [reflexivity| |lia]. intros m _. by eexists.
Defined.

(** ** Killing process 0 *)

Section KillZero.
Context `{Config} {F : Type} `{FileSystem F}.
Context (trapret forkret_ : Z).

Definition born_killed (j : nat) (s : kernel F) : Prop := ∃ p, procs s !! j = Some p ∧ killed p = true.

Lemma born_phys {A} (c : M phys A) j s a s' : on_phys c s = Ok a s' → born_killed j s → born_killed j s'.
Proof using. unfold on_phys. destruct (c (phys_ s)); [|done]. by intros [= <- <-]. Qed.
Lemma born_modify (g : proc → proc) j s a s' :
  (∀ p, killed (g p) = killed p) → on_proc j (modify g) s = Ok a s' → born_killed j s → born_killed j s'.
Proof using.
  intros Hg [-> _]%on_proc_modify (p & Ep & Hp). exists (g p). cbn. rewrite list_lookup_alter_eq, Ep. split; [done|]. by rewrite Hg.
Qed.

(** [killed_proc] does not change where the first free slot is. *)
Lemma find_unused_killed (t : list proc) (j : nat) :
  find_unused t = Some j → find_unused (alter killed_proc j t) = Some j ∧ ∃ p, t !! j = Some p.
Proof using.
  intros Hj. destruct (find_unused_some t j Hj) as (q & Eq & Hq). split; [|by exists q]. rewrite <- Hj. unfold find_unused.
  apply (list_find_image state); [by intros p r ->|]. apply list_eq. intros k. rewrite !list_lookup_fmap.
  destruct (decide (k = j)) as [->|Hne]; [|by rewrite list_lookup_alter_ne].
  rewrite list_lookup_alter_eq, Eq. cbn. unfold killed_proc. cbn. rewrite bool_decide_eq_false_2 by congruence. done.
Qed.

(** [kill] looks at slots that are not in use too.  A slot that was never
    used or has been freed by [wait] has the identifier 0, so [kill(0)] succeeds,
    and as [allocproc] does not clear the flag, the process that is created in
    that slot next is born killed. *)
Theorem kill_zero_kills_next (s : kernel F) (j : nat) :
  find_pid 0 (procs s) = Some j → find_unused (procs s) = Some j →
  ∃ s1, kill 0 s = Ok 0 s1 ∧
    ∀ o s2, allocproc trapret forkret_ s1 = Ok o s2 →
      (o = Some j ∨ o = None) ∧ ∃ p, procs s2 !! j = Some p ∧ killed p = true.
Proof using.
  intros Hp Hu. destruct (find_unused_killed _ _ Hu) as (Hu' & p & Ep).
  exists (set_procs (alter killed_proc j (procs s)) s). split.
  { unfold kill. rewrite (bind_ok (gets procs) _ s (procs s) s) by done. by rewrite Hp. }
  set (s1 := set_procs _ s). intros o s2. unfold allocproc. rewrite (bind_ok (gets procs) _ s1 (procs s1) s1) by done.
  cbn [procs s1 set_procs]. rewrite Hu'. intros Hk.
  rewrite (bind_ok (gets nextpid) _ s1 (nextpid s1) s1) in Hk by done. apply bind_inv in Hk as (u1 & t1 & [= _ <-] & Hk).
  apply bind_inv in Hk as (u2 & t2 & [= _ <-] & Hk). set (s3 := set_nextpid _ _) in Hk.
  assert (B3 : born_killed j s3).
  { eexists. cbn. rewrite !list_lookup_alter_eq, Ep. split; [done|]. cbn. unfold killed_proc. by case_bool_decide. }
  apply bind_inv in Hk as (ks & s4 & E4 & Hk). apply (born_phys _ j) in E4; [|done].
  apply bind_inv in Hk as (u & s5 & E5 & Hk). apply born_modify in E5; [|done|done].
  destruct (ks =? 0).
  { apply bind_inv in Hk as (v & s6 & E6 & [= <- <-]). apply born_modify in E6; [|done|done]. split; [by right|exact E6]. }
  apply bind_inv in Hk as (v1 & s6 & E6 & Hk). apply (born_phys _ j) in E6; [|done].
  apply bind_inv in Hk as (v2 & s7 & E7 & Hk). apply (born_phys _ j) in E7; [|done].
  apply bind_inv in Hk as (v3 & s8 & E8 & Hk). apply (born_phys _ j) in E8; [|done].
  apply bind_inv in Hk as (v4 & s9 & E9 & Hk). apply born_modify in E9; [|done|done].
  apply bind_inv in Hk as (n & s10 & E10 & Hk).
  assert (B10 : born_killed j s10).
  { destruct E9 as (q & Eq & Hq). unfold on_proc in E10. rewrite Eq in E10. cbn in E10. injection E10 as _ <-. exists q. cbn.
    rewrite list_lookup_insert_eq by (by eapply lookup_lt_Some). done. }
  apply bind_inv in Hk as (v5 & s11 & E11 & [= <- <-]). split; [by left|].
  destruct (paging_on && (2 <? n)); [|injection E11 as _ <-; exact B10]. apply born_modify in E11; [exact E11|done|exact B10].
Qed.
End KillZero.

Lemma kill_zero_kills_next_witness :
  let s := fork_kernel in let _ := demo_config SCFIFO in
  ∃ s1, kill 0 s = Ok 0 s1 ∧
    ∀ o s2, allocproc 0x80106000 0x80103000 s1 = Ok o s2 →
      (o = Some 1%nat ∨ o = None) ∧ ∃ p, procs s2 !! 1%nat = Some p ∧ killed p = true.
Proof. intros s cfg. apply (kill_zero_kills_next 0x80106000 0x80103000 s 1%nat); reflexivity. Defined.
