(* ===== verification/Bytes.v ===== *)
(** * Bytes: little-endian fields of blocks

    The structures that [fs.h] and [log.c] lay over a block are read and
    written as fields of a byte list. *)

From S2P Require Import Prelude.

Definition byte_at (x : list Z) (i : nat) : Z := nth i x 0.

(** Overwrite from position [i]; what would lie behind the end is cut off. *)
Definition overwrite (i : nat) (b x : list Z) : list Z :=
  take (length x) (take i x ++ b ++ drop (i + length b) x).

Definition get16 (x : list Z) (i : nat) : Z := byte_at x i + 256 * byte_at x (i + 1).
Definition get32 (x : list Z) (i : nat) : Z := get16 x i + 65536 * get16 x (i + 2).
Definition enc16 (v : Z) : list Z := [v mod 256; v / 256 mod 256].
Definition enc32 (v : Z) : list Z := enc16 v ++ enc16 (v / 65536).
Definition put16 (i : nat) (v : Z) (x : list Z) : list Z := overwrite i (enc16 v) x.
Definition put32 (i : nat) (v : Z) (x : list Z) : list Z := overwrite i (enc32 v) x.

(** All bytes are bytes. *)
Definition bytes_ok (x : list Z) : Prop := Forall (λ b, 0 ≤ b < 256) x.

Lemma byte_at_lookup x i b : x !! i = Some b → byte_at x i = b.
Proof. intros. unfold byte_at. by apply nth_lookup_Some. Qed.

Lemma byte_at_eq x y i : x !! i = y !! i → byte_at x i = byte_at y i.
Proof. unfold byte_at. rewrite !nth_lookup. by intros ->. Qed.

Lemma length_overwrite i b x : (i ≤ length x)%nat → length (overwrite i b x) = length x.
Proof.
  intros Hi. unfold overwrite. rewrite length_take, !length_app, length_take, length_drop. lia.
Qed.

Lemma lookup_overwrite i b x j :
  (i + length b ≤ length x)%nat →
  overwrite i b x !! j =
    if decide (i ≤ j < i + length b)%nat then b !! (j - i)%nat else x !! j.
Proof.
  intros Hi. unfold overwrite. destruct (decide (j < length x)%nat) as [Hj|Hj].
  2: { rewrite lookup_ge_None_2 by (rewrite length_take; lia).
    rewrite decide_False by lia. symmetry. apply lookup_ge_None_2. lia. }
  rewrite lookup_take_lt by done. case_decide as Hd.
  - rewrite lookup_app_r by (rewrite length_take; lia). rewrite length_take.
    rewrite lookup_app_l by lia. f_equal. lia.
  - destruct (decide (j < i)%nat).
    + rewrite lookup_app_l by (rewrite length_take; lia). by rewrite lookup_take_lt.
    + rewrite lookup_app_r by (rewrite length_take; lia). rewrite length_take.
      rewrite lookup_app_r by lia. rewrite lookup_drop. f_equal. lia.
Qed.

Lemma byte_at_overwrite_out i b x j :
  (i + length b ≤ length x)%nat → (j < i ∨ i + length b ≤ j)%nat →
  byte_at (overwrite i b x) j = byte_at x j.
Proof. intros Hi Hj. apply byte_at_eq. rewrite lookup_overwrite by done. by rewrite decide_False by lia. Qed.

Lemma byte_at_overwrite_in i b x j c :
  (i + length b ≤ length x)%nat → b !! j = Some c → byte_at (overwrite i b x) (i + j) = c.
Proof.
  intros Hi Hj. pose proof (lookup_lt_Some _ _ _ Hj). apply byte_at_lookup. rewrite lookup_overwrite by done.
  rewrite decide_True by lia. rewrite <- Hj. f_equal. lia.
Qed.

Lemma length_put16 i v x : (i ≤ length x)%nat → length (put16 i v x) = length x.
Proof. apply length_overwrite. Qed.
Lemma length_put32 i v x : (i ≤ length x)%nat → length (put32 i v x) = length x.
Proof. apply length_overwrite. Qed.

Lemma get16_put16 i v x :
  (i + 2 ≤ length x)%nat → 0 ≤ v < 65536 → get16 (put16 i v x) i = v.
Proof.
  intros Hi Hv. unfold get16, put16.
  assert (E0 : byte_at (overwrite i (enc16 v) x) i = v mod 256).
  { replace i with (i + 0)%nat at 2 by lia. by apply byte_at_overwrite_in. }
  rewrite E0, (byte_at_overwrite_in i (enc16 v) x 1 (v / 256 mod 256)) by done. dlia.
Qed.

Lemma get16_put16_ne i j v x :
  (i + 2 ≤ length x)%nat → (j + 2 ≤ i ∨ i + 2 ≤ j)%nat → get16 (put16 i v x) j = get16 x j.
Proof.
  intros Hi Hj. unfold get16, put16. by rewrite !byte_at_overwrite_out by (cbn [length enc16]; lia).
Qed.

Lemma get32_put32 i v x :
  (i + 4 ≤ length x)%nat → is_u32 v → get32 (put32 i v x) i = v.
Proof.
  intros Hi Hv. unfold get32, get16, put32, is_u32 in *.
  assert (E : ∀ k c, enc32 v !! k = Some c → byte_at (overwrite i (enc32 v) x) (i + k) = c)
    by (intros k c; by apply byte_at_overwrite_in).
  pose proof (E 0%nat _ eq_refl) as E0. rewrite Nat.add_0_r in E0. rewrite E0.
  rewrite (E 1%nat _ eq_refl), (E 2%nat _ eq_refl).
  replace (i + 2 + 1)%nat with (i + 3)%nat by lia. rewrite (E 3%nat _ eq_refl). dlia.
Qed.

Lemma get32_put32_ne i j v x :
  (i + 4 ≤ length x)%nat → (j + 4 ≤ i ∨ i + 4 ≤ j)%nat → get32 (put32 i v x) j = get32 x j.
Proof.
  intros Hi Hj. unfold get32, get16, put32. by rewrite !byte_at_overwrite_out by (cbn [length enc32 enc16 app]; lia).
Qed.
