(* ===== verification/Bio.v ===== *)
(** * Bio: the disk, sleep locks and the buffer cache

    [iderw] of [ide.c], [sleeplock.c] and [bio.c].  The cache is the array of
    [NBUF] buffers with the circular list through [prev] and [next]; the list's
    head is the node with index [NBUF].  A disk request completes before
    [iderw] returns; the writes are recorded in order, so that a crash can be
    placed between any two of them. *)

From S2P Require Import Prelude Mmu.

Definition BSIZE := 512.
Definition NBUF := 30%nat.
Definition FSSIZE := 1000.
Definition B_VALID := 2.
Definition B_DIRTY := 4.

(** The list's head is the last node. *)
Definition bhead : nat := NBUF.

Notation block := (list Z).

(** ** State *)

Record sleeplock := mkSleep { sl_locked : bool; sl_pid : Z }.

Record buf := mkBuf {
  b_flags : Z;
  b_dev : Z;
  b_blockno : Z;
  b_lock : sleeplock;
  b_refcnt : Z;
  b_prev : nat;
  b_next : nat;
  b_data : block
}.

(** The blocks of the two disks, the writes made so far (a history, read by
    nothing), the presence of disk 1, the queue of disk requests, the nodes of the cache and the pid of the
    process that runs. *)
Record bio := mkBio {
  disk : Z → Z → block;
  history : list (Z * Z * block);
  havedisk1 : bool;
  idequeue : list nat;    (* through qnext; the first one is active *)
  bcache : list buf;
  cur_pid : Z
}.

Definition set_flags (f : Z) (b : buf) : buf :=
  mkBuf f (b_dev b) (b_blockno b) (b_lock b) (b_refcnt b) (b_prev b) (b_next b) (b_data b).
Definition set_key (d n : Z) (b : buf) : buf :=
  mkBuf (b_flags b) d n (b_lock b) (b_refcnt b) (b_prev b) (b_next b) (b_data b).
Definition set_lock (l : sleeplock) (b : buf) : buf :=
  mkBuf (b_flags b) (b_dev b) (b_blockno b) l (b_refcnt b) (b_prev b) (b_next b) (b_data b).
Definition set_refcnt (r : Z) (b : buf) : buf :=
  mkBuf (b_flags b) (b_dev b) (b_blockno b) (b_lock b) r (b_prev b) (b_next b) (b_data b).
Definition set_prev (p : nat) (b : buf) : buf :=
  mkBuf (b_flags b) (b_dev b) (b_blockno b) (b_lock b) (b_refcnt b) p (b_next b) (b_data b).
Definition set_next (n : nat) (b : buf) : buf :=
  mkBuf (b_flags b) (b_dev b) (b_blockno b) (b_lock b) (b_refcnt b) (b_prev b) n (b_data b).
Definition set_data (l : block) (b : buf) : buf :=
  mkBuf (b_flags b) (b_dev b) (b_blockno b) (b_lock b) (b_refcnt b) (b_prev b) (b_next b) l.

Definition set_bcache (l : list buf) (s : bio) : bio :=
  mkBio (disk s) (history s) (havedisk1 s) (idequeue s) l (cur_pid s).
Definition set_idequeue (q : list nat) (s : bio) : bio :=
  mkBio (disk s) (history s) (havedisk1 s) q (bcache s) (cur_pid s).
Definition set_disk (dv bn : Z) (x : block) (s : bio) : bio :=
  mkBio (λ d n, if decide (d = dv ∧ n = bn) then x else disk s d n)
    (history s ++ [(dv, bn, x)]) (havedisk1 s) (idequeue s) (bcache s) (cur_pid s).

(** ** Access to a node *)

Definition bnode (i : nat) : M bio buf := λ s,
  match bcache s !! i with Some b => Ok b s | None => Err (UB "no such buffer") end.
Definition bmodify (i : nat) (f : buf → buf) : M bio unit := λ s,
  match bcache s !! i with
  | Some _ => Ok tt (set_bcache (alter f i (bcache s)) s)
  | None => Err (UB "no such buffer")
  end.

(** ** [sleeplock.c] on the lock of a buffer

    [acquiresleep] on a lock that is held sleeps. *)

Definition initsleeplock : sleeplock := mkSleep false 0.

Definition acquiresleep (lk : sleeplock) : M bio sleeplock :=
  if sl_locked lk then fail (Blocked "sleeplock")
  else p ← gets cur_pid; mret (mkSleep true p).

Definition releasesleep (lk : sleeplock) : sleeplock := mkSleep false 0.

Definition holdingsleep (lk : sleeplock) : M bio bool :=
  p ← gets cur_pid; mret (sl_locked lk && (sl_pid lk =? p)).

(** ** [ide.c] *)

(** [idestart] sends the data of a write to the disk; the data of a read
    arrives with the interrupt. *)
Definition idestart (i : nat) : M bio unit :=
  b ← bnode i;
  if FSSIZE <=? b_blockno b then panic "incorrect blockno"
  else when (nz (Z.land (b_flags b) B_DIRTY))
         (modify (set_disk (Z.land (b_dev b) 1) (b_blockno b) (b_data b))).

Definition ideintr : M bio unit :=
  q ← gets idequeue;
  match q with
  | [] => mret tt
  | i :: q' =>
      modify (set_idequeue q') ;;
      b ← bnode i;
      d ← gets disk;
      when (negb (nz (Z.land (b_flags b) B_DIRTY)))
        (bmodify i (set_data (d (Z.land (b_dev b) 1) (b_blockno b)))) ;;
      bmodify i (λ b, set_flags (Z.lor (b_flags b) B_VALID) b) ;;
      bmodify i (λ b, set_flags (Z.land (b_flags b) (notu B_DIRTY)) b) ;;
      match q' with
      | [] => mret tt
      | j :: _ => idestart j
      end
  end.

(** [while((b->flags & (B_VALID|B_DIRTY)) != B_VALID) sleep(b, &idelock);]
    each sleep ends after an interrupt of the disk. *)
Fixpoint idesleep (fuel : nat) (i : nat) : M bio unit :=
  b ← bnode i;
  if Z.land (b_flags b) (Z.lor B_VALID B_DIRTY) =? B_VALID then mret tt
  else match fuel with O => fail (Blocked "iderw") | S fuel' => ideintr ;; idesleep fuel' i end.

Definition iderw (i : nat) : M bio unit :=
  b ← bnode i;
  h ← holdingsleep (b_lock b);
  if negb h then panic "iderw: buf not locked"
  else if Z.land (b_flags b) (Z.lor B_VALID B_DIRTY) =? B_VALID then panic "iderw: nothing to do"
  else
    hd1 ← gets havedisk1;
    if nz (b_dev b) && negb hd1 then panic "iderw: ide disk 1 not present"
    else
      modify (λ s, set_idequeue (idequeue s ++ [i]) s) ;;
      q ← gets idequeue;
      when (bool_decide (head q = Some i)) (idestart i) ;;
      idesleep (length q) i.

(** ** [bio.c] *)

(** One round of the loop of [binit]: insert [i] after the head. *)
Definition insert_head (i : nat) : M bio unit :=
  h ← bnode bhead;
  bmodify i (set_next (b_next h)) ;;
  bmodify i (set_prev bhead) ;;
  h ← bnode bhead;
  bmodify (b_next h) (set_prev i) ;;
  bmodify bhead (set_next i).

Definition binit : M bio unit :=
  bmodify bhead (set_prev bhead) ;;
  bmodify bhead (set_next bhead) ;;
  forM (seq 0 NBUF) (λ i, bmodify i (set_lock initsleeplock) ;; insert_head i).

(** The two searches of [bget]; [None] when the head is reached. *)
Fixpoint bfind (fuel : nat) (dev blockno : Z) (i : nat) : M bio (option nat) :=
  match fuel with
  | O => fail NoFuel
  | S fuel' =>
      if decide (i = bhead) then mret None
      else
        b ← bnode i;
        if (b_dev b =? dev) && (b_blockno b =? blockno) then mret (Some i)
        else bfind fuel' dev blockno (b_next b)
  end.

Fixpoint brecycle (fuel : nat) (i : nat) : M bio (option nat) :=
  match fuel with
  | O => fail NoFuel
  | S fuel' =>
      if decide (i = bhead) then mret None
      else
        b ← bnode i;
        if (b_refcnt b =? 0) && (Z.land (b_flags b) B_DIRTY =? 0) then mret (Some i)
        else brecycle fuel' (b_prev b)
  end.

Definition block_lock (i : nat) : M bio unit :=
  b ← bnode i;
  lk ← acquiresleep (b_lock b);
  bmodify i (set_lock lk).

Definition bget (dev blockno : Z) : M bio nat :=
  h ← bnode bhead;
  o ← bfind (S NBUF) dev blockno (b_next h);
  match o with
  | Some i =>
      bmodify i (λ b, set_refcnt (u32 (b_refcnt b + 1)) b) ;;
      block_lock i ;;
      mret i
  | None =>
      h ← bnode bhead;
      o ← brecycle (S NBUF) (b_prev h);
      match o with
      | Some i =>
          bmodify i (set_key dev blockno) ;;
          bmodify i (set_flags 0) ;;
          bmodify i (set_refcnt 1) ;;
          block_lock i ;;
          mret i
      | None => panic "bget: no buffers"
      end
  end.

Definition bread (dev blockno : Z) : M bio nat :=
  i ← bget dev blockno;
  b ← bnode i;
  when (Z.land (b_flags b) B_VALID =? 0) (iderw i) ;;
  mret i.

Definition bwrite (i : nat) : M bio unit :=
  b ← bnode i;
  h ← holdingsleep (b_lock b);
  if negb h then panic "bwrite"
  else bmodify i (set_flags (Z.lor (b_flags b) B_DIRTY)) ;; iderw i.

(** Take a buffer out of the list, as [brelse] does. *)
Definition bunlink (i : nat) : M bio unit :=
  b ← bnode i;
  bmodify (b_next b) (set_prev (b_prev b)) ;;
  b ← bnode i;
  bmodify (b_prev b) (set_next (b_next b)).

Definition brelse (i : nat) : M bio unit :=
  b ← bnode i;
  h ← holdingsleep (b_lock b);
  if negb h then panic "brelse"
  else
    bmodify i (set_lock (releasesleep (b_lock b))) ;;
    bmodify i (λ b, set_refcnt (u32 (b_refcnt b - 1)) b) ;;
    b ← bnode i;
    when (b_refcnt b =? 0) (bunlink i ;; insert_head i).
