(* ===== verification/BioSpec.v ===== *)
(** * BioSpec: the buffer cache keeps the disk's contents

    The list of buffers is a permutation of all buffers in order of use; every
    cached block has one buffer; a clean buffer holds what is on the disk and a
    dirty one is never recycled.  Clients see a map from block numbers to
    contents. *)

From S2P Require Import Prelude Mmu Bio.

(** ** Circular lists *)

(** From [x] through [l] to [e] along [f]. *)
Fixpoint path (f : nat → nat) (x : nat) (l : list nat) (e : nat) : Prop :=
  match l with
  | [] => f x = e
  | y :: l' => f x = y ∧ path f y l' e
  end.

Definition nupd (f : nat → nat) (i v : nat) : nat → nat := λ j, if decide (j = i) then v else f j.

Lemma path_ext f g x l e : (∀ j, j ∈ x :: l → f j = g j) → path f x l e → path g x l e.
Proof.
  revert x. induction l as [|y l IH]; intros x Hf; cbn.
  - by rewrite Hf by left.
  - rewrite Hf by left. intros [-> Hp]. split; [done|]. apply IH; [|done]. intros j Hj. apply Hf. by right.
Qed.

Lemma path_upd f x l e i v : i ∉ x :: l → path f x l e → path (nupd f i v) x l e.
Proof.
  intros Hi. apply path_ext. intros j Hj. unfold nupd. rewrite decide_False; [done|]. by intros ->.
Qed.

Lemma path_app f x l1 y l2 e : path f x (l1 ++ y :: l2) e ↔ path f x l1 y ∧ path f y l2 e.
Proof.
  revert x. induction l1 as [|z l1 IH]; intros x; cbn; [done|]. rewrite IH. tauto.
Qed.

(** The node before the end. *)
Lemma path_last f x l e : path f x l e → f (List.last (x :: l) x) = e.
Proof.
  revert x. induction l as [|y l IH]; intros x; [done|]. intros [_ Hp].
  change (List.last (x :: y :: l) x) with (List.last (y :: l) x). apply IH in Hp.
  rewrite <- Hp. f_equal. clear. revert x y. induction l as [|z l IH]; intros x y; [done|].
  change (List.last (z :: l) x = List.last (z :: l) y). destruct l; [done|]. apply (IH x y).
Qed.

Lemma last_indep (l : list nat) y x x' : List.last (y :: l) x = List.last (y :: l) x'.
Proof. revert y. induction l as [|z l IH]; intros y; [done|]. apply IH. Qed.

Lemma last_elem (l : list nat) x : List.last (x :: l) x ∈ x :: l.
Proof.
  revert x. induction l as [|y l IH]; intros x; [left|].
  change (List.last (x :: y :: l) x) with (List.last (y :: l) x). rewrite (last_indep l y x y). right. apply IH.
Qed.

(** Unlinking [y]. *)
Lemma path_remove f x l1 y l2 e :
  NoDup (x :: l1 ++ l2) → path f x (l1 ++ y :: l2) e →
  path (nupd f (List.last (x :: l1) x) (f y)) x (l1 ++ l2) e.
Proof.
  intros Hnd [H1 H2]%path_app. revert x Hnd H1. induction l1 as [|z l1 IH]; intros x Hnd H1.
  - cbn in *. destruct l2 as [|z l2]; cbn in *.
    + unfold nupd. by rewrite decide_True.
    + destruct H2 as [<- H2]. apply NoDup_cons in Hnd as [Hx _]. split; [unfold nupd; by rewrite decide_True|].
      by apply path_upd.
  - cbn [app path] in *. destruct H1 as [E H1]. apply NoDup_cons in Hnd as [Hx Hnd].
    change (List.last (x :: z :: l1) x) with (List.last (z :: l1) x). rewrite (last_indep l1 z x z). split.
    + unfold nupd. rewrite decide_False; [done|]. intros ->. apply Hx.
      pose proof (last_elem l1 z) as [E'|Hin]%elem_of_cons; [rewrite E'; left|].
      right. apply elem_of_app. by left.
    + by apply IH.
Qed.

(** Linking [y] in front, and at the end. *)
Lemma path_front f x l e y :
  y ∉ x :: l → x ∉ l → path f x l e → path (nupd (nupd f y (f x)) x y) x (y :: l) e.
Proof.
  intros Hy Hx Hp. apply not_elem_of_cons in Hy as [Hyx Hyl]. cbn. split; [unfold nupd; by rewrite decide_True|].
  destruct l as [|z l]; cbn in *; unfold nupd at 1.
  - unfold nupd. rewrite decide_False by done. by rewrite decide_True.
  - destruct Hp as [-> Hp]. split; [unfold nupd; rewrite decide_False by done; by rewrite decide_True|].
    apply path_upd; [done|]. by apply path_upd.
Qed.

Lemma path_back f x l e y :
  y ∉ x :: l → NoDup (x :: l) → path f x l e →
  path (nupd (nupd f y e) (List.last (x :: l) x) y) x (l ++ [y]) e.
Proof.
  intros Hy Hnd Hp. revert x Hy Hnd Hp. induction l as [|z l IH]; intros x Hy Hnd Hp.
  - cbn in *. apply not_elem_of_cons in Hy as [Hyx _]. split; [unfold nupd; by rewrite decide_True|].
    unfold nupd. rewrite decide_False by done. by rewrite decide_True.
  - change (List.last (x :: z :: l) x) with (List.last (z :: l) x). rewrite (last_indep l z x z).
    apply NoDup_cons in Hnd as [Hx Hnd]. apply not_elem_of_cons in Hy as [Hyx Hyl]. destruct Hp as [E Hp].
    cbn [app path]. split; [|by apply IH]. unfold nupd.
    rewrite decide_False by (intros ->; apply Hx, last_elem). by rewrite decide_False.
Qed.

(** ** The list in the cache *)

Definition nxt (bs : list buf) (i : nat) : nat := match bs !! i with Some b => b_next b | None => i end.
Definition prv (bs : list buf) (i : nat) : nat := match bs !! i with Some b => b_prev b | None => i end.

Record ring (bs : list buf) (l : list nat) : Prop := {
  rg_len : length bs = S NBUF;
  rg_nodup : NoDup l;
  rg_range : ∀ i, i ∈ l → (i < NBUF)%nat;
  rg_next : path (nxt bs) bhead l bhead;
  rg_prev : path (prv bs) bhead (reverse l) bhead
}.

Lemma nxt_alter_next bs i v j :
  (i < length bs)%nat → nxt (alter (set_next v) i bs) j = nupd (nxt bs) i v j.
Proof.
  intros Hi. unfold nxt, nupd. destruct (decide (j = i)) as [->|Hne].
  - rewrite list_lookup_alter_eq. destruct (bs !! i) eqn:E; [done|]. apply lookup_ge_None in E. lia.
  - by rewrite list_lookup_alter_ne by auto.
Qed.

Lemma prv_alter_prev bs i v j :
  (i < length bs)%nat → prv (alter (set_prev v) i bs) j = nupd (prv bs) i v j.
Proof.
  intros Hi. unfold prv, nupd. destruct (decide (j = i)) as [->|Hne].
  - rewrite list_lookup_alter_eq. destruct (bs !! i) eqn:E; [done|]. apply lookup_ge_None in E. lia.
  - by rewrite list_lookup_alter_ne by auto.
Qed.

Lemma nxt_alter_other f bs i j : (∀ b, b_next (f b) = b_next b) → nxt (alter f i bs) j = nxt bs j.
Proof.
  intros Hf. unfold nxt. destruct (decide (j = i)) as [->|Hne].
  - rewrite list_lookup_alter_eq. by destruct (bs !! i); cbn; rewrite ?Hf.
  - by rewrite list_lookup_alter_ne by auto.
Qed.

Lemma prv_alter_other f bs i j : (∀ b, b_prev (f b) = b_prev b) → prv (alter f i bs) j = prv bs j.
Proof.
  intros Hf. unfold prv. destruct (decide (j = i)) as [->|Hne].
  - rewrite list_lookup_alter_eq. by destruct (bs !! i); cbn; rewrite ?Hf.
  - by rewrite list_lookup_alter_ne by auto.
Qed.

Lemma ring_alter f bs i l :
  (∀ b, b_next (f b) = b_next b) → (∀ b, b_prev (f b) = b_prev b) → ring bs l → ring (alter f i bs) l.
Proof.
  intros Hn Hp [H1 H2 H3 H4 H5]. split; [by rewrite length_alter|done|done|..].
  - eapply path_ext; [|exact H4]. intros j _. by rewrite nxt_alter_other.
  - eapply path_ext; [|exact H5]. intros j _. by rewrite prv_alter_other.
Qed.

Lemma bnode_eq i s b : bcache s !! i = Some b → bnode i s = Ok b s.
Proof. unfold bnode. by intros ->. Qed.

Lemma bmodify_eq i f s :
  (i < length (bcache s))%nat → bmodify i f s = Ok tt (set_bcache (alter f i (bcache s)) s).
Proof.
  intros Hi. unfold bmodify. destruct (lookup_lt_is_Some_2 _ _ Hi) as [b E]. by rewrite E.
Qed.

Lemma nodup_reverse (l : list nat) : NoDup l → NoDup (reverse l).
Proof. intros. by rewrite reverse_Permutation. Qed.

Definition hd_of (x : nat) (l : list nat) : nat := match l with [] => x | y :: _ => y end.

Lemma path_hd f x l e : path f x l e → f x = hd_of e l.
Proof. destruct l; cbn; [done|]. by intros [? _]. Qed.

Lemma last_snoc_ (l : list nat) y x : List.last (l ++ [y]) x = y.
Proof. induction l as [|z l IH]; [done|]. cbn. destruct (l ++ [y]) eqn:E; [by destruct l|done]. Qed.

Lemma last_reverse x l : List.last (x :: reverse l) x = hd_of x l.
Proof.
  destruct l as [|y l]; [done|]. rewrite reverse_cons. cbn [hd_of].
  change (x :: reverse l ++ [y]) with ((x :: reverse l) ++ [y]). apply last_snoc_.
Qed.

Lemma last_hd_reverse x l : List.last (x :: l) x = hd_of x (reverse l).
Proof. by rewrite <- last_reverse, reverse_involutive. Qed.

Lemma hd_of_elem x l : hd_of x l ∈ x :: l.
Proof. destruct l; cbn; [left|right; left]. Qed.

(** Two nodes that differ in their links only. *)
Definition erase (b : buf) : buf := set_prev 0 (set_next 0 b).
Definition same_core (bs bs' : list buf) : Prop := ∀ i, erase <$> bs' !! i = erase <$> bs !! i.

Lemma same_core_alter f bs i : (∀ b, erase (f b) = erase b) → same_core bs (alter f i bs).
Proof.
  intros Hf j. destruct (decide (i = j)) as [->|].
  - rewrite list_lookup_alter_eq. destruct (bs !! j); cbn; [by rewrite Hf|done].
  - by rewrite list_lookup_alter_ne.
Qed.

Lemma same_core_trans bs1 bs2 bs3 : same_core bs1 bs2 → same_core bs2 bs3 → same_core bs1 bs3.
Proof. intros H1 H2 i. by rewrite H2, H1. Qed.

Lemma insert_head_spec i s l :
  ring (bcache s) l → i ∉ l → (i < NBUF)%nat →
  ∃ bs', insert_head i s = Ok tt (set_bcache bs' s) ∧ ring bs' (i :: l) ∧ same_core (bcache s) bs'.
Proof.
  intros [Hlen Hnd Hrg Hn Hp] Hi HiN. set (bs := bcache s) in *. set (h := nxt bs bhead).
  assert (Hh : h = hd_of bhead l) by (by eapply path_hd).
  assert (Hhl : (h < length bs)%nat).
  { rewrite Hh, Hlen. pose proof (hd_of_elem bhead l) as [->|Hx]%elem_of_cons; [unfold bhead; lia|].
    apply Hrg in Hx. lia. }
  assert (Hbl : (bhead < length bs)%nat) by (rewrite Hlen; unfold bhead; lia).
  assert (Hil : (i < length bs)%nat) by lia.
  assert (Hib : i ≠ bhead) by (unfold bhead; lia).
  assert (Hbnl : bhead ∉ l) by (intros ?%Hrg; unfold bhead in *; lia).
  set (bs2 := alter (set_prev bhead) i (alter (set_next h) i bs)).
  set (bs4 := alter (set_next i) bhead (alter (set_prev i) h bs2)).
  exists bs4. split; [|split; [split|]].
  - unfold insert_head. destruct (lookup_lt_is_Some_2 bs bhead Hbl) as [b Eb].
    erewrite bind_ok by (by apply bnode_eq). assert (Eh : b_next b = h) by (unfold h, nxt; by rewrite Eb).
    rewrite Eh. rewrite (bind_ok _ _ _ _ _ (bmodify_eq i _ s Hil)).
    erewrite bind_ok by (apply bmodify_eq; cbn; by rewrite length_alter).
    erewrite bind_ok.
    2: { apply bnode_eq. cbn. rewrite !list_lookup_alter_ne by done. exact Eb. }
    rewrite Eh. erewrite bind_ok by (apply bmodify_eq; cbn; by rewrite !length_alter).
    rewrite bmodify_eq by (cbn; by rewrite !length_alter). done.
  - unfold bs4, bs2. by rewrite !length_alter.
  - by constructor.
  - intros j [->|?]%elem_of_cons; auto.
  - assert (E : ∀ j, nxt bs4 j = nupd (nupd (nxt bs) i h) bhead i j).
    { intros j. unfold bs4. rewrite nxt_alter_next by (unfold bs2; by rewrite !length_alter).
      unfold nupd at 1 2. case_decide; [done|]. rewrite nxt_alter_other by done.
      unfold bs2. rewrite nxt_alter_other by done. by rewrite nxt_alter_next. }
    eapply path_ext; [intros j _; symmetry; apply E|]. apply path_front; [|done|done]. set_solver.
  - assert (E : ∀ j, prv bs4 j = nupd (nupd (prv bs) i bhead) h i j).
    { intros j. unfold bs4. rewrite prv_alter_other by done.
      rewrite prv_alter_prev by (unfold bs2; by rewrite !length_alter).
      unfold nupd at 1 2. case_decide; [done|]. unfold bs2.
      rewrite prv_alter_prev by (by rewrite length_alter). unfold nupd. case_decide; [done|].
      by rewrite prv_alter_other. }
    eapply path_ext; [intros j _; symmetry; apply E|]. rewrite reverse_cons.
    rewrite Hh, <- last_reverse. apply path_back; [set_solver| |done].
    constructor; [set_solver|by apply nodup_reverse].
  - unfold bs4, bs2. do 3 (eapply same_core_trans; [|by apply same_core_alter]).
    by apply same_core_alter.
Qed.

Lemma bunlink_spec i s l1 l2 :
  ring (bcache s) (l1 ++ i :: l2) →
  ∃ bs', bunlink i s = Ok tt (set_bcache bs' s) ∧ ring bs' (l1 ++ l2) ∧ same_core (bcache s) bs'.
Proof.
  intros [Hlen Hnd Hrg Hn Hp]. set (bs := bcache s) in *.
  assert (HiN : (i < NBUF)%nat) by (apply Hrg; set_solver).
  rewrite reverse_app, reverse_cons, <- app_assoc in Hp. cbn [app] in Hp.
  pose proof (proj1 (path_app _ _ _ _ _ _) Hn) as [_ Hn2]. pose proof (proj1 (path_app _ _ _ _ _ _) Hp) as [_ Hp2].
  pose proof (path_hd _ _ _ _ Hn2) as Hnx. pose proof (path_hd _ _ _ _ Hp2) as Hpv.
  assert (Hnd' : NoDup (l1 ++ l2) ∧ i ∉ l1 ++ l2).
  { apply NoDup_app in Hnd as (H1 & H2 & [Hil2 H3]%NoDup_cons). split; [|set_solver].
    apply NoDup_app. split; [done|]. split; [|done]. set_solver. }
  destruct Hnd' as [Hnd' Hin].
  assert (Hbn : bhead ∉ l1 ++ l2) by (intros Hb; specialize (Hrg bhead ltac:(set_solver)); unfold bhead in Hrg; lia).
  assert (Hlt : ∀ x l, x = hd_of bhead l → (∀ j, j ∈ l → j ∈ l1 ++ l2) → (x < length bs)%nat ∧ x ≠ i).
  { intros x l -> Hl. rewrite Hlen. pose proof (hd_of_elem bhead l) as [->|Hx%Hl]%elem_of_cons.
    - unfold bhead. split; lia.
    - specialize (Hrg (hd_of bhead l) ltac:(set_solver)). split; [lia|]. intros E. by rewrite E in Hx. }
  destruct (Hlt _ _ Hnx) as [Hnl Hni]; [set_solver|].
  destruct (Hlt _ _ Hpv) as [Hpl Hpi]; [intros j; rewrite elem_of_reverse; set_solver|].
  set (n := nxt bs i) in *. set (p := prv bs i) in *.
  set (bs2 := alter (set_next n) p (alter (set_prev p) n bs)). exists bs2. split; [|split; [split|]].
  - unfold bunlink. destruct (lookup_lt_is_Some_2 bs i ltac:(lia)) as [b Eb].
    erewrite bind_ok by (by apply bnode_eq).
    assert (En : b_next b = n) by (unfold n, nxt; by rewrite Eb).
    assert (Ep : b_prev b = p) by (unfold p, prv; by rewrite Eb).
    rewrite En, Ep. rewrite (bind_ok _ _ _ _ _ (bmodify_eq n _ s Hnl)).
    erewrite bind_ok by (apply bnode_eq; cbn; rewrite list_lookup_alter_ne by done; exact Eb).
    rewrite En, Ep. rewrite bmodify_eq by (cbn; by rewrite length_alter). done.
  - unfold bs2. by rewrite !length_alter.
  - done.
  - intros j Hj. apply Hrg. set_solver.
  - assert (E : ∀ j, nxt bs2 j = nupd (nxt bs) p n j).
    { intros j. unfold bs2. rewrite nxt_alter_next by (by rewrite length_alter).
      unfold nupd. case_decide; [done|]. by rewrite nxt_alter_other. }
    eapply path_ext; [intros j _; symmetry; apply E|]. rewrite Hpv, <- last_hd_reverse.
    apply path_remove; [|done]. by constructor.
  - assert (E : ∀ j, prv bs2 j = nupd (prv bs) n p j).
    { intros j. unfold bs2. rewrite prv_alter_other by done. by rewrite prv_alter_prev. }
    eapply path_ext; [intros j _; symmetry; apply E|]. rewrite Hnx, <- last_reverse, reverse_app.
    apply path_remove; [|done]. constructor; [set_solver|]. rewrite <- reverse_app. by apply nodup_reverse.
  - unfold bs2. eapply same_core_trans; by apply same_core_alter.
Qed.

(** ** One node at a time *)

Definition bput (i : nat) (b : buf) (s : bio) : bio := set_bcache (<[i:=b]> (bcache s)) s.

Lemma bput_id i b s : bcache s !! i = Some b → bput i b s = s.
Proof. intros E. unfold bput. rewrite list_insert_id by done. by destruct s. Qed.

Lemma bput_bput i b b' s : bput i b (bput i b' s) = bput i b s.
Proof. unfold bput, set_bcache. cbn. by rewrite list_insert_insert_eq. Qed.

Lemma lookup_bput i b s : (i < length (bcache s))%nat → bcache (bput i b s) !! i = Some b.
Proof. intros. cbn. by apply list_lookup_insert_eq. Qed.

Lemma lookup_bput_ne i j b s : i ≠ j → bcache (bput i b s) !! j = bcache s !! j.
Proof. intros. cbn. by apply list_lookup_insert_ne. Qed.

Section Node.
Context (i : nat) (s : bio).
Hypothesis Hi : (i < length (bcache s))%nat.

Lemma bnode_put b : bnode i (bput i b s) = Ok b (bput i b s).
Proof using Hi. apply bnode_eq. by apply lookup_bput. Qed.

Lemma bmodify_put f b : bmodify i f (bput i b s) = Ok tt (bput i (f b) s).
Proof using Hi.
  rewrite bmodify_eq by (cbn; by rewrite length_insert). f_equal. unfold bput, set_bcache. cbn. f_equal.
  apply list_eq. intros j. destruct (decide (j = i)) as [->|].
  - by rewrite list_lookup_alter_eq, !list_lookup_insert_eq.
  - by rewrite list_lookup_alter_ne, !list_lookup_insert_ne by done.
Qed.

Lemma holding_put lk b :
  holdingsleep lk (bput i b s) = Ok (sl_locked lk && (sl_pid lk =? cur_pid s)) (bput i b s).
Proof. done. Qed.
End Node.

(** Symbolic execution on one node. *)
Ltac bstep :=
  first [ erewrite bind_ok by (by apply bnode_put)
        | erewrite bind_ok by (by apply bmodify_put)
        | erewrite bind_ok by apply holding_put ].

(** ** The searches *)

Definition keyb (bs : list buf) (dev bn : Z) (i : nat) : bool :=
  match bs !! i with Some b => (b_dev b =? dev) && (b_blockno b =? bn) | None => false end.
Definition freeb (bs : list buf) (i : nat) : bool :=
  match bs !! i with Some b => (b_refcnt b =? 0) && (Z.land (b_flags b) B_DIRTY =? 0) | None => false end.

Lemma bfind_spec dev bn s fuel : ∀ l x,
  path (nxt (bcache s)) x l bhead → (∀ j, j ∈ l → (j < NBUF)%nat) → length (bcache s) = S NBUF →
  (length l < fuel)%nat →
  bfind fuel dev bn (nxt (bcache s) x) s = Ok (List.find (keyb (bcache s) dev bn) l) s.
Proof.
  induction fuel as [|fuel IH]; intros l x Hp Hr Hlen Hf; [lia|]. cbn [bfind].
  rewrite (path_hd _ _ _ _ Hp). destruct l as [|y l]; cbn [hd_of List.find]; [by rewrite decide_True|].
  destruct Hp as [_ Hp]. pose proof (Hr y ltac:(left)) as Hy. rewrite decide_False by (unfold bhead; lia).
  destruct (lookup_lt_is_Some_2 (bcache s) y ltac:(lia)) as [b Eb]. erewrite bind_ok by (by apply bnode_eq).
  unfold keyb at 1. rewrite Eb. destruct (_ && _); [done|].
  assert (E : b_next b = nxt (bcache s) y) by (unfold nxt; by rewrite Eb). rewrite E.
  cbn [length] in Hf. apply IH; [done| |done|lia]. intros j Hj. apply Hr. by right.
Qed.

Lemma brecycle_spec s fuel : ∀ l x,
  path (prv (bcache s)) x l bhead → (∀ j, j ∈ l → (j < NBUF)%nat) → length (bcache s) = S NBUF →
  (length l < fuel)%nat →
  brecycle fuel (prv (bcache s) x) s = Ok (List.find (freeb (bcache s)) l) s.
Proof.
  induction fuel as [|fuel IH]; intros l x Hp Hr Hlen Hf; [lia|]. cbn [brecycle].
  rewrite (path_hd _ _ _ _ Hp). destruct l as [|y l]; cbn [hd_of List.find]; [by rewrite decide_True|].
  destruct Hp as [_ Hp]. pose proof (Hr y ltac:(left)) as Hy. rewrite decide_False by (unfold bhead; lia).
  destruct (lookup_lt_is_Some_2 (bcache s) y ltac:(lia)) as [b Eb]. erewrite bind_ok by (by apply bnode_eq).
  unfold freeb at 1. rewrite Eb. destruct (_ && _); [done|].
  assert (E : b_prev b = prv (bcache s) y) by (unfold prv; by rewrite Eb). rewrite E.
  cbn [length] in Hf. apply IH; [done| |done|lia]. intros j Hj. apply Hr. by right.
Qed.

(** ** The invariant

    [H] are the buffers that the running process holds. *)

Definition is_block (x : block) : Prop := length x = Z.to_nat BSIZE.

Definition buf_ok (s : bio) (H : list nat) (i : nat) (b : buf) : Prop :=
  ((b_dev b = 1 ∧ (b_flags b = 2 ∨ b_flags b = 6) ∧ 0 ≤ b_blockno b < FSSIZE ∧ is_block (b_data b)) ∨
   (b_dev b = 0 ∧ b_flags b = 0)) ∧
  (if decide (i ∈ H) then b_dev b = 1 ∧ b_refcnt b = 1 ∧ b_lock b = mkSleep true (cur_pid s)
   else b_refcnt b = 0 ∧ sl_locked (b_lock b) = false ∧
     (b_flags b = 2 → b_data b = disk s 1 (b_blockno b))).

Definition uniq (bs : list buf) (i : nat) (b : buf) : Prop :=
  b_dev b = 1 → ∀ j c, (j < NBUF)%nat → j ≠ i → bs !! j = Some c → b_dev c = 1 → b_blockno c ≠ b_blockno b.

Record binv (s : bio) (l H : list nat) : Prop := {
  bi_ring : ring (bcache s) l;
  bi_all : l ≡ₚ seq 0 NBUF;
  bi_idle : idequeue s = [];
  bi_disk1 : havedisk1 s = true;
  bi_blocks : ∀ bn, is_block (disk s 1 bn);
  bi_held : NoDup H ∧ ∀ i, i ∈ H → (i < NBUF)%nat;
  bi_buf : ∀ i b, (i < NBUF)%nat → bcache s !! i = Some b → buf_ok s H i b;
  bi_uniq : ∀ i b, (i < NBUF)%nat → bcache s !! i = Some b → uniq (bcache s) i b
}.

(** What the file system sees of block [bn]. *)
Definition view (s : bio) (bn : Z) : block :=
  match List.find (keyb (bcache s) 1 bn) (seq 0 NBUF) with
  | Some i => match bcache s !! i with Some b => b_data b | None => [] end
  | None => disk s 1 bn
  end.

(** The block [bn] is in a dirty buffer. *)
Definition pinned (s : bio) (bn : Z) : Prop :=
  ∃ i b, (i < NBUF)%nat ∧ bcache s !! i = Some b ∧ b_dev b = 1 ∧ b_blockno b = bn ∧ b_flags b = 6.

Lemma keyb_true bs dev bn i :
  keyb bs dev bn i = true ↔ ∃ b, bs !! i = Some b ∧ b_dev b = dev ∧ b_blockno b = bn.
Proof.
  unfold keyb. destruct (bs !! i) as [b|]; [|split; [done|by intros (? & ? & _)]].
  rewrite andb_true_iff, !Z.eqb_eq. naive_solver.
Qed.

Lemma view_cached s l H i b :
  binv s l H → (i < NBUF)%nat → bcache s !! i = Some b → b_dev b = 1 → view s (b_blockno b) = b_data b.
Proof.
  intros Hb Hi Eb Hd. unfold view. destruct (List.find _ _) as [j|] eqn:E.
  - apply List.find_some in E as [Hj (c & Ec & Hcd & Hcn)%keyb_true].
    assert (HjN : (j < NBUF)%nat) by (apply List.in_seq in Hj; lia).
    destruct (decide (j = i)) as [->|Hne]; [by rewrite Eb|]. exfalso.
    by apply (bi_uniq _ _ _ Hb i b Hi Eb Hd j c HjN Hne Ec Hcd).
  - exfalso. pose proof (List.find_none _ _ E i) as Hn. rewrite List.in_seq in Hn. specialize (Hn ltac:(lia)).
    assert (keyb (bcache s) 1 (b_blockno b) i = true) by (apply keyb_true; eauto). congruence.
Qed.

Lemma view_uncached s bn :
  (∀ i b, (i < NBUF)%nat → bcache s !! i = Some b → b_dev b = 1 → b_blockno b ≠ bn) → view s bn = disk s 1 bn.
Proof.
  intros Hn. unfold view. destruct (List.find _ _) as [j|] eqn:E; [|done].
  apply List.find_some in E as [Hj (c & Ec & Hcd & Hcn)%keyb_true]. apply List.in_seq in Hj.
  exfalso. by apply (Hn j c ltac:(lia) Ec Hcd).
Qed.

Lemma cached_dec s bn :
  (∃ i b, (i < NBUF)%nat ∧ bcache s !! i = Some b ∧ b_dev b = 1 ∧ b_blockno b = bn) ∨
  (∀ i b, (i < NBUF)%nat → bcache s !! i = Some b → b_dev b = 1 → b_blockno b ≠ bn).
Proof.
  destruct (List.find (keyb (bcache s) 1 bn) (seq 0 NBUF)) as [j|] eqn:E; [left|right].
  - apply List.find_some in E as [Hj (c & Ec & Hcd & Hcn)%keyb_true]. apply List.in_seq in Hj.
    exists j, c. split_and!; [lia|done..].
  - intros i b Hi Eb Hd Hn. pose proof (List.find_none _ _ E i) as Hf. rewrite List.in_seq in Hf.
    specialize (Hf ltac:(lia)). assert (keyb (bcache s) 1 bn i = true) by (apply keyb_true; eauto). congruence.
Qed.

Lemma binv_node s l H i : binv s l H → (i < NBUF)%nat → ∃ b, bcache s !! i = Some b.
Proof. intros Hb Hi. apply lookup_lt_is_Some_2. rewrite (rg_len _ _ (bi_ring _ _ _ Hb)). lia. Qed.

(** ** Changing one buffer *)

Section Put.
Context (s : bio) (l H H' : list nat) (i : nat) (b nb : buf).
Hypothesis Hinv : binv s l H.
Hypothesis Hi : (i < NBUF)%nat.
Hypothesis Eb : bcache s !! i = Some b.
Hypothesis Hlinks : b_next nb = b_next b ∧ b_prev nb = b_prev b.
Hypothesis Hnb : buf_ok s H' i nb.
Hypothesis Hu : uniq (bcache s) i nb.
Hypothesis HH : ∀ j, j ≠ i → j ∈ H' ↔ j ∈ H.
Hypothesis HH' : NoDup H' ∧ ∀ j, j ∈ H' → (j < NBUF)%nat.

Lemma put_lookup j : bcache (bput i nb s) !! j = if decide (j = i) then Some nb else bcache s !! j.
Proof using Eb.
  cbn. destruct (decide (j = i)) as [->|]; [|by apply list_lookup_insert_ne].
  apply list_lookup_insert_eq. by eapply lookup_lt_Some.
Qed.

Lemma binv_put : binv (bput i nb s) l H'.
Proof using All.
  pose proof Hinv as [Hr Ha Hq Hd Hbl _ Hbuf Huq]. split; try done.
  - destruct Hr as [H1 H2 H3 H4 H5]. destruct Hlinks as [L1 L2]. split; try done.
    + cbn. by rewrite length_insert.
    + eapply path_ext; [|exact H4]. intros j _. unfold nxt. rewrite put_lookup.
      destruct (decide (j = i)) as [->|]; [by rewrite Eb|done].
    + eapply path_ext; [|exact H5]. intros j _. unfold prv. rewrite put_lookup.
      destruct (decide (j = i)) as [->|]; [by rewrite Eb|done].
  - intros j c Hj. rewrite put_lookup. destruct (decide (j = i)) as [->|Hne].
    + intros [= <-]. exact Hnb.
    + intros Ec. destruct (Hbuf j c Hj Ec) as [B1 B2]. split; [done|]. cbn [bput disk cur_pid set_bcache].
      destruct (decide (j ∈ H)), (decide (j ∈ H')) as [|]; try done; exfalso; specialize (HH j Hne); tauto.
  - intros j c Hj. rewrite put_lookup. destruct (decide (j = i)) as [->|Hne].
    + intros [= <-] Hdev k e Hk Hki. rewrite put_lookup, decide_False by done. by apply Hu.
    + intros Ec Hdev k e Hk Hkj. rewrite put_lookup. destruct (decide (k = i)) as [->|Hki].
      * intros [= <-] Hdn E. apply (Hu Hdn j c Hj Hne Ec Hdev). done.
      * by apply (Huq j c Hj Ec Hdev).
Qed.

Lemma view_put bn :
  view (bput i nb s) bn =
    if decide (b_dev nb = 1 ∧ b_blockno nb = bn) then b_data nb
    else if decide (b_dev b = 1 ∧ b_blockno b = bn) then disk s 1 bn else view s bn.
Proof using All.
  pose proof binv_put as Hinv'. destruct (decide (b_dev nb = 1 ∧ b_blockno nb = bn)) as [[Hd <-]|Hn].
  { apply (view_cached _ l H' i); try done. rewrite put_lookup. by rewrite decide_True. }
  destruct (decide (b_dev b = 1 ∧ b_blockno b = bn)) as [[Hd <-]|Hn2].
  - apply (view_uncached (bput i nb s)). intros j c Hj. rewrite put_lookup.
    destruct (decide (j = i)) as [->|Hne]; [intros [= <-]; tauto|].
    intros Ec Hcd E. by apply (bi_uniq _ _ _ Hinv i b Hi Eb Hd j c Hj Hne Ec Hcd).
  - destruct (cached_dec s bn) as [(j & c & Hj & Ec & Hcd & <-)|Hun].
    + rewrite (view_cached s l H j c) by done. apply (view_cached _ l H' j); try done.
      rewrite put_lookup. rewrite decide_False; [done|]. intros ->. rewrite Eb in Ec. injection Ec as <-. tauto.
    + rewrite (view_uncached s) by done. apply (view_uncached (bput i nb s)). intros j c Hj. rewrite put_lookup.
      destruct (decide (j = i)) as [->|Hne]; [intros [= <-]; tauto|]. by apply Hun.
Qed.

Lemma pinned_put bn :
  pinned (bput i nb s) bn ↔
    (b_dev nb = 1 ∧ b_blockno nb = bn ∧ b_flags nb = 6) ∨
    (pinned s bn ∧ ¬ (b_dev b = 1 ∧ b_blockno b = bn)).
Proof using All.
  split.
  - intros (j & c & Hj & Ec & Hd & Hn & Hf). rewrite put_lookup in Ec. destruct (decide (j = i)) as [->|Hne].
    + injection Ec as <-. by left.
    + right. split; [by exists j, c|]. intros [Hbd Hbn].
      apply (bi_uniq _ _ _ Hinv i b Hi Eb Hbd j c Hj Hne Ec Hd). congruence.
  - intros [(Hd & Hn & Hf)|[(j & c & Hj & Ec & Hd & Hn & Hf) Hno]].
    + exists i, nb. rewrite put_lookup. by rewrite decide_True.
    + exists j, c. rewrite put_lookup. rewrite decide_False; [done|]. intros ->. rewrite Eb in Ec.
      injection Ec as <-. tauto.
Qed.
End Put.

(** Relinking changes the order only. *)
Lemma erase_inj b c : erase b = erase c →
  b_flags b = b_flags c ∧ b_dev b = b_dev c ∧ b_blockno b = b_blockno c ∧ b_lock b = b_lock c ∧
  b_refcnt b = b_refcnt c ∧ b_data b = b_data c.
Proof. destruct b, c. unfold erase. cbn. by intros [= -> -> -> -> -> ->]. Qed.

Lemma same_core_lookup bs bs' i c :
  same_core bs bs' → bs' !! i = Some c → ∃ b, bs !! i = Some b ∧ erase c = erase b.
Proof.
  intros Hs Ec. specialize (Hs i). rewrite Ec in Hs. destruct (bs !! i) as [b|]; [|done].
  change (Some (erase c) = Some (erase b)) in Hs. apply (inj Some) in Hs. by exists b.
Qed.

Lemma same_core_sym bs bs' : same_core bs bs' → same_core bs' bs.
Proof. intros Hs i. by rewrite Hs. Qed.

Section Relink.
Context (s : bio) (l l' H : list nat) (bs' : list buf).
Hypothesis Hinv : binv s l H.
Hypothesis Hr : ring bs' l'.
Hypothesis Hp : l' ≡ₚ seq 0 NBUF.
Hypothesis Hs : same_core (bcache s) bs'.

Lemma binv_relink : binv (set_bcache bs' s) l' H.
Proof using All.
  destruct Hinv as [_ _ Hq Hd Hbl Hh Hbuf Huq]. split; try done.
  - intros i c Hi (b & Eb & Er)%(same_core_lookup _ _ _ _ Hs). destruct (erase_inj _ _ Er) as (E1 & E2 & E3 & E4 & E5 & E6).
    pose proof (Hbuf i b Hi Eb) as Hok. unfold buf_ok in *. cbn [disk cur_pid set_bcache].
    by rewrite E1, E2, E3, E4, E5, E6.
  - intros i c Hi (b & Eb & Er)%(same_core_lookup _ _ _ _ Hs) Hcd j e Hj Hji (f & Ef & Er')%(same_core_lookup _ _ _ _ Hs) Hed.
    destruct (erase_inj _ _ Er) as (_ & E2 & E3 & _). destruct (erase_inj _ _ Er') as (_ & F2 & F3 & _).
    rewrite E3, F3. apply (Huq i b Hi Eb ltac:(congruence) j f Hj Hji Ef). congruence.
Qed.

Lemma view_relink bn : view (set_bcache bs' s) bn = view s bn.
Proof using All.
  destruct (cached_dec s bn) as [(j & c & Hj & Ec & Hcd & <-)|Hun].
  - rewrite (view_cached s l H j c) by done.
    destruct (same_core_lookup _ _ j c (same_core_sym _ _ Hs) Ec) as (b & Eb & Er).
    destruct (erase_inj _ _ Er) as (_ & E2 & E3 & _ & _ & E6). rewrite E3, E6.
    apply (view_cached _ l' H j b binv_relink); [done|done|congruence].
  - rewrite (view_uncached s) by done. apply (view_uncached (set_bcache bs' s)). intros j c Hj (b & Eb & Er)%(same_core_lookup _ _ _ _ Hs) Hd.
    destruct (erase_inj _ _ Er) as (_ & E2 & E3 & _). rewrite E3. apply (Hun j b Hj Eb). congruence.
Qed.

Lemma pinned_relink bn : pinned (set_bcache bs' s) bn ↔ pinned s bn.
Proof using Hs.
  split; intros (j & c & Hj & Ec & Hd & Hn & Hf).
  - destruct (same_core_lookup _ _ j c Hs Ec) as (b & Eb & Er). destruct (erase_inj _ _ Er) as (E1 & E2 & E3 & _).
    exists j, b. split; [done|]. split; [done|]. split_and!; congruence.
  - destruct (same_core_lookup _ _ j c (same_core_sym _ _ Hs) Ec) as (b & Eb & Er).
    destruct (erase_inj _ _ Er) as (E1 & E2 & E3 & _). exists j, b. split; [done|]. split; [done|]. split_and!; congruence.
Qed.
End Relink.

(** ** Disk transfers *)

Lemma set_idequeue_put q i b s : set_idequeue q (bput i b s) = bput i b (set_idequeue q s).
Proof. done. Qed.
Lemma set_disk_put dv bn x i b s : set_disk dv bn x (bput i b s) = bput i b (set_disk dv bn x s).
Proof. done. Qed.

Section Transfer.
Context (i : nat) (b : buf) (s : bio).
Hypothesis Hi : (i < length (bcache s))%nat.
Hypothesis Hq : idequeue s = [].
Hypothesis Hd1 : havedisk1 s = true.
Hypothesis Hdev : b_dev b = 1.
Hypothesis Hbn : b_blockno b < FSSIZE.
Hypothesis Hlk : b_lock b = mkSleep true (cur_pid s).

Lemma iderw_read :
  b_flags b = 0 →
  iderw i (bput i b s) = Ok tt (bput i (set_flags 2 (set_data (disk s 1 (b_blockno b)) b)) s).
Proof using All.
  intros Hf. unfold iderw. bstep. bstep. rewrite Hlk. cbn [sl_locked sl_pid]. rewrite Z.eqb_refl. cbn [andb negb].
  rewrite Hf. change (Z.land 0 (Z.lor B_VALID B_DIRTY) =? B_VALID) with false. cbv iota.
  erewrite bind_ok by done. cbn [havedisk1 bput set_bcache]. rewrite Hd1, andb_false_r.
  erewrite bind_ok by done. erewrite bind_ok by done. rewrite set_idequeue_put. cbn [idequeue bput set_bcache set_idequeue].
  rewrite Hq. cbn [app length head]. rewrite bool_decide_true by done. cbn [when].
  set (s1 := set_idequeue [i] s).
  assert (Hi1 : (i < length (bcache s1))%nat) by done.
  change (mkBio _ _ _ _ (<[i:=b]> _) _) with (bput i b s1).
  erewrite bind_ok.
  2: { unfold idestart. bstep. rewrite (proj2 (Z.leb_gt FSSIZE (b_blockno b))) by lia. by rewrite Hf. }
  cbn [idesleep]. bstep. rewrite Hf. change (Z.land 0 (Z.lor B_VALID B_DIRTY) =? B_VALID) with false. cbv iota.
  erewrite bind_ok.
  2: { unfold ideintr. erewrite bind_ok by done. cbn [idequeue bput set_bcache s1 set_idequeue]. cbv iota beta.
    erewrite bind_ok by done. change (mkBio _ _ _ _ (<[i:=b]> _) _) with (bput i b s1). rewrite set_idequeue_put.
    set (s2 := set_idequeue [] s1). assert (Hi2 : (i < length (bcache s2))%nat) by done.
    bstep. erewrite bind_ok by done. rewrite Hf. cbn [when negb nz]. change (negb (nz (Z.land 0 B_DIRTY))) with true.
    cbn [when]. bstep. bstep. bstep. done. }
  set (s2 := set_idequeue [] s1).
  assert (E2 : s2 = s) by (unfold s2, s1; destruct s; cbn in *; by rewrite Hq). rewrite E2.
  bstep. cbn [b_flags set_flags set_data]. rewrite Hf, Hdev. done.
Qed.

Lemma iderw_write :
  b_flags b = 6 →
  iderw i (bput i b s) = Ok tt (bput i (set_flags 2 b) (set_disk 1 (b_blockno b) (b_data b) s)).
Proof using All.
  intros Hf. unfold iderw. bstep. bstep. rewrite Hlk. cbn [sl_locked sl_pid]. rewrite Z.eqb_refl. cbn [andb negb].
  rewrite Hf. change (Z.land 6 (Z.lor B_VALID B_DIRTY) =? B_VALID) with false. cbv iota.
  erewrite bind_ok by done. cbn [havedisk1 bput set_bcache]. rewrite Hd1, andb_false_r.
  erewrite bind_ok by done. erewrite bind_ok by done. rewrite set_idequeue_put. cbn [idequeue bput set_bcache set_idequeue].
  rewrite Hq. cbn [app length head]. rewrite bool_decide_true by done. cbn [when].
  set (s1 := set_idequeue [i] s).
  assert (Hi1 : (i < length (bcache s1))%nat) by done.
  change (mkBio _ _ _ _ (<[i:=b]> _) _) with (bput i b s1).
  set (s2 := set_disk 1 (b_blockno b) (b_data b) s1). assert (Hi2 : (i < length (bcache s2))%nat) by done.
  rewrite (bind_ok _ _ _ tt (bput i b s2)).
  2: { unfold idestart. bstep. rewrite (proj2 (Z.leb_gt FSSIZE (b_blockno b))) by lia. rewrite Hf, Hdev. done. }
  cbn [idesleep]. bstep. rewrite Hf. change (Z.land 6 (Z.lor B_VALID B_DIRTY) =? B_VALID) with false. cbv iota.
  set (s3 := set_idequeue [] s2). assert (Hi3 : (i < length (bcache s3))%nat) by done.
  erewrite bind_ok.
  2: { unfold ideintr. erewrite bind_ok by done. cbv iota beta.
    change (idequeue (bput i b s2)) with [i]. cbv iota beta.
    erewrite bind_ok by done. rewrite set_idequeue_put. fold s3.
    bstep. erewrite bind_ok by done. rewrite Hf. change (negb (nz (Z.land 6 B_DIRTY))) with false. cbn [when].
    erewrite bind_ok by done. bstep. bstep. done. }
  assert (E3 : s3 = set_disk 1 (b_blockno b) (b_data b) s).
  { unfold s3, s2, s1. destruct s. unfold set_idequeue, set_disk. cbn in *. by rewrite Hq. }
  rewrite <- E3. bstep. cbn [b_flags set_flags]. rewrite Hf. done.
Qed.
End Transfer.

(** ** The interface to the log and the file system *)

(** The buffer [i] is held and contains block [bn], with data [x]. *)
Definition holds (s : bio) (i : nat) (bn : Z) (x : block) (dirty : bool) : Prop :=
  ∃ b, bcache s !! i = Some b ∧ b_blockno b = bn ∧ b_data b = x ∧ b_flags b = if dirty then 6 else 2.

(** Nothing the file system can see has changed. *)
Record bkeep (H : list nat) (s s' : bio) : Prop := {
  bk_disk : disk s' = disk s;
  bk_history : history s' = history s;
  bk_pid : cur_pid s' = cur_pid s;
  bk_view : ∀ bn, view s' bn = view s bn;
  bk_pinned : ∀ bn, pinned s' bn ↔ pinned s bn;
  bk_holds : ∀ i bn x d, i ∈ H → holds s' i bn x d ↔ holds s i bn x d
}.

Definition room (s : bio) : Prop :=
  ∃ i b, (i < NBUF)%nat ∧ bcache s !! i = Some b ∧ b_refcnt b = 0 ∧ Z.land (b_flags b) B_DIRTY = 0.

Lemma block_lock_put i b s :
  (i < length (bcache s))%nat → sl_locked (b_lock b) = false →
  block_lock i (bput i b s) = Ok tt (bput i (set_lock (mkSleep true (cur_pid s)) b) s).
Proof.
  intros Hi Hl. unfold block_lock. bstep. unfold acquiresleep. rewrite Hl.
  erewrite bind_ok by done. by apply bmodify_put.
Qed.

Lemma holds_put_ne i j nb s bn x d : i ≠ j → holds (bput i nb s) j bn x d ↔ holds s j bn x d.
Proof. intros Hne. unfold holds. by rewrite lookup_bput_ne. Qed.

Section Bread.
Context (s : bio) (l H : list nat) (bn : Z).
Hypothesis Hinv : binv s l H.
Hypothesis Hbn : 0 ≤ bn < FSSIZE.
Hypothesis Hfresh : ∀ i x d, i ∈ H → ¬ holds s i bn x d.

Lemma inv_len : length (bcache s) = S NBUF ∧ (∀ i, (i < NBUF)%nat → (i < length (bcache s))%nat).
Proof. pose proof (rg_len _ _ (bi_ring _ _ _ Hinv)) as E. split; [done|]. intros. lia. Qed.

Lemma find_start : ∃ h, bcache s !! bhead = Some h ∧ b_next h = nxt (bcache s) bhead ∧ b_prev h = prv (bcache s) bhead.
Proof.
  destruct inv_len as [E _]. destruct (lookup_lt_is_Some_2 (bcache s) bhead ltac:(unfold bhead; lia)) as [h Eh].
  exists h. unfold nxt, prv. by rewrite Eh.
Qed.

Lemma find_all f : List.find f l = None ↔ ∀ i, (i < NBUF)%nat → f i = false.
Proof.
  split.
  - intros E i Hi. apply (List.find_none _ _ E). apply list_elem_of_In. rewrite (bi_all _ _ _ Hinv). apply elem_of_seq. lia.
  - intros Hf. destruct (List.find f l) as [i|] eqn:E; [|done]. apply List.find_some in E as [Hin E].
    apply list_elem_of_In in Hin. apply (rg_range _ _ (bi_ring _ _ _ Hinv)) in Hin. by rewrite Hf in E.
Qed.

Lemma bfind_start :
  bfind (S NBUF) 1 bn (nxt (bcache s) bhead) s = Ok (List.find (keyb (bcache s) 1 bn) l) s.
Proof.
  destruct (bi_ring _ _ _ Hinv) as [H1 H2 H3 H4 H5]. apply bfind_spec; [done|done|done|].
  rewrite (bi_all _ _ _ Hinv), length_seq. lia.
Qed.

(** The block is in the cache. *)
Lemma bread_hit i b :
  List.find (keyb (bcache s) 1 bn) l = Some i → bcache s !! i = Some b → i ∉ H →
  bread 1 bn s = Ok i (bput i (set_lock (mkSleep true (cur_pid s)) (set_refcnt 1 b)) s).
Proof.
  intros Ef Eb HiH. destruct inv_len as [E Hlt]. destruct find_start as (h & Eh & En & _).
  pose proof (List.find_some _ _ Ef) as [Hin%list_elem_of_In Hk]. apply (rg_range _ _ (bi_ring _ _ _ Hinv)) in Hin.
  apply keyb_true in Hk as (b' & Eb' & Hdev & Hno). rewrite Eb in Eb'. injection Eb' as <-.
  destruct (bi_buf _ _ _ Hinv i b Hin Eb) as [Hok1 Hok2]. rewrite decide_False in Hok2 by done.
  destruct Hok2 as (Hr0 & Hul & _). specialize (Hlt i Hin).
  assert (Hfl : b_flags b = 2 ∨ b_flags b = 6) by (destruct Hok1 as [(_ & ? & _)|[? _]]; [done|lia]).
  unfold bread. erewrite bind_ok.
  2: { unfold bget. erewrite bind_ok by (by apply bnode_eq). rewrite En.
    erewrite bind_ok by apply bfind_start. rewrite Ef. cbv iota beta.
    rewrite <- (bput_id i b s Eb) at 1. bstep. cbv beta. rewrite Hr0. change (u32 (0 + 1)) with 1.
    erewrite bind_ok by (by apply block_lock_put). reflexivity. }
  bstep. cbn [b_flags set_lock set_refcnt]. destruct Hfl as [-> | ->]; done.
Qed.

(** It is not: a buffer that nobody uses is taken. *)
Lemma bread_miss i b :
  List.find (keyb (bcache s) 1 bn) l = None → List.find (freeb (bcache s)) (reverse l) = Some i →
  bcache s !! i = Some b → i ∉ H →
  bread 1 bn s = Ok i (bput i (mkBuf 2 1 bn (mkSleep true (cur_pid s)) 1 (b_prev b) (b_next b) (disk s 1 bn)) s).
Proof.
  intros Ef Er Eb HiH. destruct inv_len as [E Hlt]. destruct find_start as (h & Eh & En & Ep).
  pose proof (List.find_some _ _ Er) as [Hin%list_elem_of_In Hk]. apply elem_of_reverse, (rg_range _ _ (bi_ring _ _ _ Hinv)) in Hin.
  destruct (bi_buf _ _ _ Hinv i b Hin Eb) as [_ Hok2]. rewrite decide_False in Hok2 by done.
  destruct Hok2 as (Hr0 & Hul & _). specialize (Hlt i Hin).
  unfold bread. erewrite bind_ok.
  2: { unfold bget. erewrite bind_ok by (by apply bnode_eq). rewrite En.
    erewrite bind_ok by apply bfind_start. rewrite Ef. erewrite bind_ok by (by apply bnode_eq). rewrite Ep.
    erewrite bind_ok.
    2: { destruct (bi_ring _ _ _ Hinv) as [H1 H2 H3 H4 H5]. apply brecycle_spec; [exact H5| |done|].
      - intros j. rewrite elem_of_reverse. apply H3.
      - rewrite length_reverse, (bi_all _ _ _ Hinv), length_seq. lia. }
    rewrite Er. cbv iota beta. rewrite <- (bput_id i b s Eb) at 1. bstep. bstep. bstep.
    erewrite bind_ok by (by apply block_lock_put). reflexivity. }
  bstep. cbn [b_flags set_lock set_refcnt set_flags set_key]. change (Z.land 0 B_VALID =? 0) with true. cbn [when].
  erewrite bind_ok; [done|]. apply iderw_read; try done; try apply Hinv. cbn. lia.
Qed.

(** A buffer [nb] in the place of [b] that shows the same. *)
Lemma put_keep i b nb :
  (i < NBUF)%nat → bcache s !! i = Some b → i ∉ H → b_next nb = b_next b ∧ b_prev nb = b_prev b →
  buf_ok s (i :: H) i nb → uniq (bcache s) i nb → b_blockno nb = bn → b_data nb = view s bn →
  (b_flags nb = 6 ↔ pinned s bn) →
  (b_dev b = 1 → b_blockno b ≠ bn → b_flags b = 2 ∧ b_data b = disk s 1 (b_blockno b)) →
  binv (bput i nb s) l (i :: H) ∧ bkeep H s (bput i nb s) ∧ ∃ d, holds (bput i nb s) i bn (view s bn) d ∧ (d = true ↔ pinned s bn).
Proof.
  intros Hi Eb HiH Hl Hok Hu Hn Hx Hpin Hold. destruct inv_len as [_ Hlt].
  assert (Hd : b_dev nb = 1) by (destruct Hok as [_ Hok]; rewrite decide_True in Hok by left; apply Hok).
  assert (HH' : NoDup (i :: H) ∧ ∀ j, j ∈ i :: H → (j < NBUF)%nat).
  { destruct (bi_held _ _ _ Hinv) as [H1 H2]. split; [by constructor|]. intros j [->|?]%elem_of_cons; auto. }
  assert (HHs : ∀ j, j ≠ i → j ∈ i :: H ↔ j ∈ H) by (intros j ?; rewrite elem_of_cons; tauto).
  split; [by eapply binv_put|]. split; [split; try done|].
  - intros x. erewrite view_put by done. case_decide as D1; [destruct D1 as [_ <-]; congruence|].
    case_decide as D2; [|done]. destruct D2 as [D2 <-]. destruct (Hold D2) as [_ Hdata]; [naive_solver|].
    rewrite <- Hdata. symmetry. by apply (view_cached s l H i b).
  - intros x. erewrite pinned_put by done. split.
    + intros [(_ & <- & Hf)|[? _]]; [rewrite Hn; by apply Hpin|done].
    + intros Hp. destruct (decide (x = bn)) as [->|Hxn]; [left; split; [done|]; split; [done|by apply Hpin]|].
      right. split; [done|]. intros [D2 <-]. destruct (Hold D2 Hxn) as [Hf _].
      destruct Hp as (j & c & Hj & Ec & Hcd & Hcn & Hcf). destruct (decide (j = i)) as [->|Hji]; [congruence|].
      by apply (bi_uniq _ _ _ Hinv i b Hi Eb D2 j c Hj Hji Ec Hcd).
  - intros j x y d Hj. apply holds_put_ne. by intros ->.
  - destruct Hok as [[(_ & Hf & _)|[? _]] _]; [|lia]. exists (bool_decide (b_flags nb = 6)). split.
    + exists nb. rewrite lookup_bput by auto. split; [done|]. split; [done|]. split; [done|].
      destruct Hf as [-> | ->]; done.
    + rewrite bool_decide_eq_true. apply Hpin.
Qed.

Lemma bread_spec :
  (∃ i b, (i < NBUF)%nat ∧ bcache s !! i = Some b ∧ b_dev b = 1 ∧ b_blockno b = bn) ∨ room s →
  ∃ i s' d, bread 1 bn s = Ok i s' ∧ i ∉ H ∧ binv s' l (i :: H) ∧ bkeep H s s' ∧ holds s' i bn (view s bn) d ∧
    (d = true ↔ pinned s bn).
Proof.
  intros Hav. destruct (List.find (keyb (bcache s) 1 bn) l) as [i|] eqn:Ef.
  - pose proof (List.find_some _ _ Ef) as [Hin%list_elem_of_In (b & Eb & Hdev & Hno)%keyb_true].
    apply (rg_range _ _ (bi_ring _ _ _ Hinv)) in Hin. destruct (bi_buf _ _ _ Hinv i b Hin Eb) as [Hok1 Hok2].
    destruct Hok1 as [Hok1|[? _]]; [|lia].
    assert (HiH : i ∉ H).
    { intros HiH. destruct Hok1 as (_ & Hf & _). apply (Hfresh i (b_data b) (bool_decide (b_flags b = 6)) HiH).
      exists b. split_and!; try done. by destruct Hf as [-> | ->]. }
    destruct (put_keep i b (set_lock (mkSleep true (cur_pid s)) (set_refcnt 1 b))) as (Hi' & Hk & d & Hh & Hd);
      try done.
    + split; [by left|]. by rewrite decide_True by left.
    + cbn. intros _ j c Hj Hji Ec Hcd. by apply (bi_uniq _ _ _ Hinv i b Hin Eb Hdev j c).
    + cbn. rewrite <- Hno. symmetry. by apply (view_cached s l H i b).
    + cbn. split.
      * intros Hf. by exists i, b.
      * intros (j & c & Hj & Ec & Hcd & Hcn & Hcf). destruct (decide (j = i)) as [->|Hji]; [congruence|].
        exfalso. apply (bi_uniq _ _ _ Hinv i b Hin Eb Hdev j c Hj Hji Ec Hcd). congruence.
    + exists i. eexists _, d. split; [by apply bread_hit|]. done.
  - pose proof (proj1 (find_all _) Ef) as Hun.
    assert (Hun' : ∀ j c, (j < NBUF)%nat → bcache s !! j = Some c → b_dev c = 1 → b_blockno c ≠ bn).
    { intros j c Hj Ec Hcd Hcn. specialize (Hun j Hj). assert (keyb (bcache s) 1 bn j = true) by (apply keyb_true; eauto). congruence. }
    destruct Hav as [(i & b & Hi & Eb & Hd & Hn)|(i0 & b0 & Hi0 & Eb0 & Hr0 & Hf0)]; [by destruct (Hun' i b Hi Eb Hd)|].
    destruct (List.find (freeb (bcache s)) (reverse l)) as [i|] eqn:Er.
    2: { exfalso. assert (Hno := List.find_none _ _ Er i0). rewrite <- list_elem_of_In, elem_of_reverse, (bi_all _ _ _ Hinv), elem_of_seq in Hno.
      specialize (Hno ltac:(lia)). unfold freeb in Hno. by rewrite Eb0, Hr0, Hf0 in Hno. }
    pose proof (List.find_some _ _ Er) as [Hin%list_elem_of_In Hk]. apply elem_of_reverse, (rg_range _ _ (bi_ring _ _ _ Hinv)) in Hin.
    destruct (binv_node s l H i Hinv Hin) as [b Eb]. unfold freeb in Hk. rewrite Eb in Hk.
    apply andb_true_iff in Hk as [Hr%Z.eqb_eq Hf%Z.eqb_eq].
    destruct (bi_buf _ _ _ Hinv i b Hin Eb) as [Hok1 Hok2].
    assert (HiH : i ∉ H) by (intros HiH; rewrite decide_True in Hok2 by done; destruct Hok2 as (_ & ? & _); lia).
    rewrite decide_False in Hok2 by done.
    assert (Hvw : view s bn = disk s 1 bn) by (by apply view_uncached).
    destruct (put_keep i b (mkBuf 2 1 bn (mkSleep true (cur_pid s)) 1 (b_prev b) (b_next b) (disk s 1 bn)))
      as (Hi' & Hk' & d & Hh & Hd); try done.
    + split; [left; cbn; split_and!; try done; [by left|lia|lia|apply Hinv]|]. by rewrite decide_True by left.
    + intros _ j c Hj Hji Ec Hcd. by apply (Hun' j c).
    + cbn. split; [done|]. intros (j & c & Hj & Ec & Hcd & Hcn & _). by destruct (Hun' j c Hj Ec Hcd).
    + intros Hbd _. destruct Hok1 as [(_ & [E | E] & _)|[? _]]; [|by rewrite E in Hf|lia]. split; [done|]. by apply Hok2.
    + exists i. eexists _, d. split; [by apply bread_miss|]. done.
Qed.
End Bread.

Lemma binv_perm s l H H' : H ≡ₚ H' → binv s l H → binv s l H'.
Proof.
  intros Hp [H1 H2 H3 H4 H5 [H6a H6b] H7 H8]. split; try done.
  - split; [by rewrite <- Hp|]. intros i Hi. apply H6b. by rewrite Hp.
  - intros i b Hi Eb. destruct (H7 i b Hi Eb) as [B1 B2]. split; [done|].
    destruct (decide (i ∈ H)), (decide (i ∈ H')) as [|Hn]; try done; rewrite Hp in *; done.
Qed.

(** ** A buffer that is held *)

Section Held.
Context (s : bio) (l H : list nat) (i : nat) (bn : Z) (x : block) (d : bool).
Hypothesis Hinv : binv s l (i :: H).
Hypothesis Hh : holds s i bn x d.

Lemma held_node : (i < NBUF)%nat ∧ (i < length (bcache s))%nat ∧ i ∉ H ∧ ∃ b, bcache s !! i = Some b ∧ b_blockno b = bn ∧ b_data b = x ∧
  b_flags b = (if d then 6 else 2) ∧ b_dev b = 1 ∧ b_refcnt b = 1 ∧ b_lock b = mkSleep true (cur_pid s) ∧
  0 ≤ bn < FSSIZE ∧ is_block x ∧ uniq (bcache s) i b.
Proof using All.
  destruct (bi_held _ _ _ Hinv) as [[Hn _]%NoDup_cons Hr]. specialize (Hr i ltac:(left)).
  split; [done|]. pose proof (rg_len _ _ (bi_ring _ _ _ Hinv)) as E. split; [lia|]. split; [done|].
  destruct Hh as (b & Eb & H1 & H2 & H3). exists b.
  destruct (bi_buf _ _ _ Hinv i b Hr Eb) as [B1 B2]. rewrite decide_True in B2 by left. destruct B2 as (D1 & D2 & D3).
  destruct B1 as [(_ & _ & B3 & B4)|[? _]]; [|lia]. subst bn x. split_and!; try done; try lia.
  by apply (bi_uniq _ _ _ Hinv).
Qed.

Lemma held_view : view s bn = x.
Proof using All.
  destruct held_node as (Hi & _ & _ & b & Eb & <- & <- & _ & Hd & _). by apply (view_cached s l (i :: H) i b).
Qed.

Lemma held_pinned : pinned s bn ↔ d = true.
Proof using All.
  destruct held_node as (Hi & _ & _ & b & Eb & Hn & _ & Hf & Hd & _ & _ & _ & _ & Hu). split.
  - intros (j & c & Hj & Ec & Hcd & Hcn & Hcf). destruct (decide (j = i)) as [->|Hji].
    + rewrite Eb in Ec. injection Ec as <-. rewrite Hf in Hcf. by destruct d.
    + exfalso. apply (Hu Hd j c Hj Hji Ec Hcd). congruence.
  - intros ->. by exists i, b.
Qed.

(** Changing the data or the flags of the buffer. *)
Lemma held_put b y (d' : bool) :
  bcache s !! i = Some b → is_block y →
  let s' := bput i (set_flags (if d' then 6 else 2) (set_data y b)) s in
  binv s' l (i :: H) ∧ holds s' i bn y d' ∧
  (∀ z, view s' z = if decide (z = bn) then y else view s z) ∧
  (∀ z, pinned s' z ↔ (if decide (z = bn) then d' = true else pinned s z)) ∧
  (∀ j z w e, j ∈ H → holds s' j z w e ↔ holds s j z w e).
Proof using All.
  destruct held_node as (Hi & Hl & HiH & b' & Eb & Hn & _ & Hf & Hd & Hr & Hlk & Hbn & _ & Hu).
  intros Eb'. rewrite Eb in Eb'. injection Eb' as <-. intros Hy s'.
  set (nb := set_flags (if d' then 6 else 2) (set_data y b')) in *.
  assert (Hok : buf_ok s (i :: H) i nb).
  { split; [left; cbn; rewrite Hn; split_and!; try done; try lia; destruct d'; auto|]. by rewrite decide_True by left. }
  assert (HH : NoDup (i :: H) ∧ ∀ j, j ∈ i :: H → (j < NBUF)%nat) by apply Hinv.
  split; [by eapply binv_put|]. split; [|split; [|split]].
  - exists nb. unfold s'. rewrite lookup_bput by done. by split_and!.
  - intros z. unfold s'. erewrite view_put by done. cbn [b_dev b_blockno nb set_flags set_data]. rewrite Hn, Hd.
    destruct (decide (z = bn)) as [->|Hz]; [by rewrite decide_True|].
    rewrite !decide_False by naive_solver. done.
  - intros z. unfold s'. erewrite pinned_put by done. cbn [b_dev b_blockno b_flags nb set_flags set_data]. rewrite Hn, Hd.
    destruct (decide (z = bn)) as [->|Hz]; [|naive_solver]. split.
    + intros [(_ & _ & Hfl)|[_ ?]]; [by destruct d'|tauto].
    + intros ->. by left.
  - intros j z w e Hj. apply holds_put_ne. by intros ->.
Qed.

End Held.

(** Writing it to the disk. *)
Lemma bwrite_spec s l H i bn x d :
  binv s l (i :: H) → holds s i bn x d →
  ∃ s', bwrite i s = Ok tt s' ∧ binv s' l (i :: H) ∧ holds s' i bn x false ∧
    (∀ z, disk s' 1 z = if decide (z = bn) then x else disk s 1 z) ∧
    history s' = history s ++ [(1, bn, x)] ∧ cur_pid s' = cur_pid s ∧
    (∀ z, view s' z = view s z) ∧ (∀ z, pinned s' z ↔ pinned s z ∧ z ≠ bn) ∧
    (∀ j z w e, j ∈ H → holds s' j z w e ↔ holds s j z w e).
Proof.
  intros Hinv Hh.
  destruct (held_node s l H i bn x d Hinv Hh) as (Hi & Hl & HiH & b & Eb & Hn & Hx & Hf & Hd & Hr & Hlk & Hbn & Hxb & Hu).
  set (s0 := set_disk 1 bn x s).
  assert (Hi0 : binv s0 l (i :: H)).
  { destruct Hinv as [I1 I2 I3 I4 I5 I6 I7 I8]. split; try done.
    - intros z. cbn. case_decide; [done|apply I5].
    - intros j c Hj Ec. destruct (I7 j c Hj Ec) as [B1 B2]. split; [done|].
      destruct (decide (j ∈ i :: H)) as [|Hji]; [done|]. destruct B2 as (C1 & C2 & C3). split; [done|]. split; [done|].
      intros Hc. cbn. rewrite decide_False; [auto|]. intros [_ E]. destruct B1 as [(Hcd & _)|[_ ?]]; [|lia].
      apply (Hu Hd j c Hj ltac:(set_solver) Ec Hcd). congruence. }
  assert (Hh0 : holds s0 i bn x d) by done.
  assert (Hv0 : ∀ z, view s0 z = view s z).
  { intros z. destruct (cached_dec s z) as [(j & c & Hj & Ec & Hcd & <-)|Hun].
    - rewrite (view_cached s l (i :: H) j c) by done. by apply (view_cached s0 l (i :: H) j c).
    - rewrite (view_uncached s) by done. rewrite (view_uncached s0) by done. cbn. rewrite decide_False; [done|].
      intros [_ ->]. by apply (Hun i b Hi Eb Hd). }
  assert (E : bwrite i s = Ok tt (bput i (set_flags 2 b) s0)).
  { unfold bwrite. rewrite <- (bput_id i b s Eb) at 1. bstep. bstep. rewrite Hlk. cbn [sl_locked sl_pid]. rewrite Z.eqb_refl.
    cbn [andb negb]. bstep. assert (Ef : Z.lor (b_flags b) B_DIRTY = 6) by (rewrite Hf; by destruct d). rewrite Ef.
    rewrite iderw_write; try done; try apply Hinv; cbn; [|lia].
    unfold s0. rewrite Hn, Hx. by destruct b. }
  exists (bput i (set_flags 2 b) s0). split; [done|].
  destruct (held_put s0 l H i bn x d Hi0 Hh0 b x false Eb Hxb) as (P1 & P2 & P3 & P4 & P5).
  assert (Enb : set_flags 2 (set_data x b) = set_flags 2 b) by (rewrite <- Hx; by destruct b). rewrite Enb in *.
  split_and!; try done.
  - intros z. cbn. destruct (decide (z = bn)) as [->|]; [by rewrite decide_True|]. by rewrite decide_False by tauto.
  - intros z. rewrite P3, Hv0. case_decide as Hz; [|done]. subst z. symmetry. by eapply held_view.
  - intros z. rewrite P4. case_decide as Hz; [split; [done|tauto]|]. split; [done|tauto].
Qed.

(** Giving it back. *)
Lemma brelse_spec s l H i bn x d :
  binv s l (i :: H) → holds s i bn x d → (d = false → x = disk s 1 bn) →
  ∃ s' l', brelse i s = Ok tt s' ∧ binv s' l' H ∧ bkeep H s s'.
Proof.
  intros Hinv Hh Hclean.
  destruct (held_node s l H i bn x d Hinv Hh) as (Hi & Hl & HiH & b & Eb & Hn & Hx & Hf & Hd & Hr & Hlk & Hbn & Hxb & Hu).
  set (nb := set_refcnt 0 (set_lock (mkSleep false 0) b)).
  assert (Hok : buf_ok s H i nb).
  { split; [left; cbn; rewrite Hn, Hx; split_and!; try done; try lia; destruct d; auto|]. rewrite decide_False by done.
    cbn. split; [done|]. split; [done|]. rewrite Hf, Hn, Hx. destruct d; [done|auto]. }
  assert (HH : NoDup H ∧ ∀ j, j ∈ H → (j < NBUF)%nat).
  { destruct (bi_held _ _ _ Hinv) as [[_ ?]%NoDup_cons H2]. split; [done|]. intros j Hj. apply H2. by right. }
  assert (HHs : ∀ j, j ≠ i → j ∈ H ↔ j ∈ i :: H) by (intros j ?; rewrite elem_of_cons; tauto).
  assert (Hi1 : binv (bput i nb s) l H) by (by eapply binv_put).
  assert (Hil : i ∈ l) by (rewrite (bi_all _ _ _ Hinv); apply elem_of_seq; lia).
  apply list_elem_of_split in Hil as (l1 & l2 & El). pose proof (bi_ring _ _ _ Hi1) as Hring. rewrite El in Hring.
  destruct (bunlink_spec i _ l1 l2 Hring) as (bs1 & E1 & Hr1 & Hs1).
  destruct (insert_head_spec i (set_bcache bs1 (bput i nb s)) (l1 ++ l2) Hr1) as (bs2 & E2 & Hr2 & Hs2); [|done|].
  { pose proof (rg_nodup _ _ Hring) as Hnd. rewrite <- Permutation_middle in Hnd. by apply NoDup_cons in Hnd as [? _]. }
  assert (Hs : same_core (bcache (bput i nb s)) bs2) by (by eapply same_core_trans).
  assert (Hp : i :: l1 ++ l2 ≡ₚ seq 0 NBUF) by (by rewrite Permutation_middle, <- El, (bi_all _ _ _ Hinv)).
  exists (set_bcache bs2 (bput i nb s)), (i :: l1 ++ l2). split; [|split; [by eapply binv_relink|split; try done]].
  - unfold brelse. rewrite <- (bput_id i b s Eb) at 1. bstep. bstep. rewrite Hlk. cbn [sl_locked sl_pid]. rewrite Z.eqb_refl.
    cbn [andb negb]. bstep. bstep. bstep. cbn [b_refcnt set_refcnt set_lock releasesleep]. rewrite Hr.
    change (u32 (1 - 1)) with 0. cbn [when Z.eqb]. fold nb. erewrite bind_ok by exact E1. exact E2.
  - intros z. rewrite (view_relink (bput i nb s) l (i :: l1 ++ l2) H) by done. erewrite view_put by done.
    cbn [b_dev b_blockno b_data nb set_refcnt set_lock]. rewrite Hn. case_decide as Hz; [|done].
    destruct Hz as [_ <-]. rewrite Hx. symmetry. by eapply held_view.
  - intros z. rewrite pinned_relink by done. erewrite pinned_put by done. cbn [b_dev b_blockno b_flags nb set_refcnt set_lock].
    destruct (decide (z = bn)) as [->|Hz]; [|naive_solver]. rewrite (held_pinned s l H i bn x d) by done.
    rewrite Hf. destruct d; naive_solver.
  - intros j z w e Hj. assert (Hji : j ≠ i) by (by intros ->). transitivity (holds (bput i nb s) j z w e); [|by apply holds_put_ne].
    split; intros (c & Ec & C1 & C2 & C3).
    + destruct (same_core_lookup _ _ j c Hs Ec) as (c' & Ec' & Er). destruct (erase_inj _ _ Er) as (F1 & F2 & F3 & _ & _ & F6).
      exists c'. split; [done|]. split_and!; congruence.
    + destruct (same_core_lookup _ _ j c (same_core_sym _ _ Hs) Ec) as (c' & Ec' & Er).
      destruct (erase_inj _ _ Er) as (F1 & F2 & F3 & _ & _ & F6). exists c'. split; [done|]. split_and!; congruence.
Qed.

(** ** Room in the cache *)

Lemma sub_length {A} `{EqDecision A} (l k : list A) :
  NoDup l → (∀ x, x ∈ l → x ∈ k) → (length l ≤ length k)%nat.
Proof. intros Hnd Hs. by apply submseteq_length, NoDup_submseteq. Qed.

Lemma room_count s l H (P : list Z) :
  binv s l H → (∀ bn, pinned s bn → bn ∈ P) → (length H + length P < NBUF)%nat → room s.
Proof.
  intros Hinv HP Hlt. destruct (List.find (freeb (bcache s)) (seq 0 NBUF)) as [i|] eqn:E.
  { apply List.find_some in E as [Hi%List.in_seq Hf]. unfold freeb in Hf. destruct (bcache s !! i) as [b|] eqn:Eb; [|done].
    apply andb_true_iff in Hf as [H1%Z.eqb_eq H2%Z.eqb_eq]. exists i, b. split_and!; [lia|done..]. }
  exfalso. set (G := filter (λ i, i ∉ H) (seq 0 NBUF)). set (K := filter (λ i, i ∈ H) (seq 0 NBUF)).
  assert (Hlen : (length K + length G = NBUF)%nat).
  { transitivity (length (seq 0 NBUF)); [|apply length_seq]. unfold K, G. clear. induction (seq 0 NBUF) as [|y t IH]; [done|].
    rewrite !filter_cons. destruct (decide (y ∈ H)), (decide (y ∉ H)); try tauto; cbn [length]; lia. }
  assert (HK : (length K ≤ length H)%nat).
  { apply sub_length; [apply NoDup_filter, NoDup_seq|]. intros y Hy%list_elem_of_filter. tauto. }
  assert (HG : ∀ i, i ∈ G → ∃ b, (i < NBUF)%nat ∧ bcache s !! i = Some b ∧ b_dev b = 1 ∧ b_flags b = 6).
  { intros i [Hn Hi%elem_of_seq]%list_elem_of_filter. destruct (binv_node s l H i Hinv ltac:(lia)) as [b Eb].
    exists b. destruct (bi_buf _ _ _ Hinv i b ltac:(lia) Eb) as [B1 B2]. rewrite decide_False in B2 by done. destruct B2 as (B2 & _).
    pose proof (List.find_none _ _ E i ltac:(apply List.in_seq; lia)) as Hf. unfold freeb in Hf. rewrite Eb, B2 in Hf. cbn in Hf.
    destruct B1 as [(B3 & [F | F] & _)|[_ F]]; [by rewrite F in Hf| |by rewrite F in Hf]. split_and!; [lia|done..]. }
  set (bno := λ i, match bcache s !! i with Some b => b_blockno b | None => 0 end).
  assert (HGP : (length G ≤ length P)%nat).
  { rewrite <- (length_fmap bno G). apply sub_length.
    - apply NoDup_fmap_2_strong; [|apply NoDup_filter, NoDup_seq]. intros i j Hi Hj Eij.
      destruct (HG i Hi) as (b & Hib & Eb & Hbd & _). destruct (HG j Hj) as (c & Hjc & Ec & Hcd & _).
      unfold bno in Eij. rewrite Eb, Ec in Eij. destruct (decide (j = i)) as [|Hne]; [done|]. exfalso.
      by apply (bi_uniq _ _ _ Hinv i b Hib Eb Hbd j c Hjc Hne Ec Hcd).
    - intros z (i & -> & Hi)%list_elem_of_fmap. destruct (HG i Hi) as (b & Hib & Eb & Hbd & Hf). apply HP.
      exists i, b. unfold bno. rewrite Eb. done. }
  lia.
Qed.

(** ** Start-up *)

Definition zeroed (bs : list buf) (k : nat) : Prop := ∀ i b, (i < NBUF)%nat → bs !! i = Some b →
  b_dev b = 0 ∧ b_flags b = 0 ∧ b_refcnt b = 0 ∧ ((i < k)%nat → sl_locked (b_lock b) = false).

Lemma binit_round k s :
  ring (bcache s) (reverse (seq 0 k)) → zeroed (bcache s) k → (k < NBUF)%nat →
  ∃ bs', (bmodify k (set_lock initsleeplock) ;; insert_head k) s = Ok tt (set_bcache bs' s) ∧
    ring bs' (reverse (seq 0 (S k))) ∧ zeroed bs' (S k).
Proof.
  intros Hr Hz Hk. pose proof (rg_len _ _ Hr) as Hlen.
  set (s1 := set_bcache (alter (set_lock initsleeplock) k (bcache s)) s).
  assert (Hr1 : ring (bcache s1) (reverse (seq 0 k))) by (by apply ring_alter).
  destruct (insert_head_spec k s1 _ Hr1) as (bs' & E & Hr2 & Hs); [rewrite elem_of_reverse, elem_of_seq; lia|done|].
  exists bs'. split; [|split].
  - erewrite bind_ok by (apply bmodify_eq; lia). exact E.
  - rewrite seq_S, reverse_snoc. exact Hr2.
  - intros i c Hi (b & Eb & Er)%(same_core_lookup _ _ _ _ Hs). destruct (erase_inj _ _ Er) as (F1 & F2 & _ & F4 & F5 & _).
    rewrite F1, F2, F4, F5. cbn in Eb. destruct (decide (i = k)) as [->|Hne].
    + rewrite list_lookup_alter_eq in Eb. destruct (bcache s !! k) as [b0|] eqn:E0; [|done]. injection Eb as <-.
      destruct (Hz k b0 Hk E0) as (G1 & G2 & G3 & _). done.
    + rewrite list_lookup_alter_ne in Eb by auto. destruct (Hz i b Hi Eb) as (G1 & G2 & G3 & G4).
      split_and!; try done. intros. apply G4. lia.
Qed.

Lemma binit_spec s :
  length (bcache s) = S NBUF → zeroed (bcache s) 0 → idequeue s = [] → havedisk1 s = true →
  (∀ bn, is_block (disk s 1 bn)) →
  ∃ bs', binit s = Ok tt (set_bcache bs' s) ∧ binv (set_bcache bs' s) (reverse (seq 0 NBUF)) [] ∧
    ∀ bn, view (set_bcache bs' s) bn = disk s 1 bn.
Proof.
  intros Hlen Hz Hq Hd Hbl. unfold binit.
  set (s0 := set_bcache (alter (set_next bhead) bhead (alter (set_prev bhead) bhead (bcache s))) s).
  assert (Hr0 : ring (bcache s0) (reverse (seq 0 0))).
  { split; [cbn; by rewrite !length_alter|constructor|set_solver|..]; cbn [seq reverse rev_append path].
    - unfold nxt. cbn. rewrite list_lookup_alter_eq. destruct (alter _ _ _ !! bhead) eqn:E; [done|].
      apply lookup_ge_None in E. rewrite length_alter in E. unfold bhead in *. lia.
    - unfold prv. cbn. rewrite list_lookup_alter_eq, list_lookup_alter_eq. destruct (bcache s !! bhead) eqn:E; [done|].
      apply lookup_ge_None in E. unfold bhead in *. lia. }
  assert (Hz0 : zeroed (bcache s0) 0).
  { intros i b Hi Eb. cbn in Eb. rewrite !list_lookup_alter_ne in Eb by (unfold bhead; lia). by apply Hz. }
  assert (Hloop : ∀ n k st, (k + n = NBUF)%nat → ring (bcache st) (reverse (seq 0 k)) → zeroed (bcache st) k →
    ∃ bs', forM (seq k n) (λ i, bmodify i (set_lock initsleeplock) ;; insert_head i) st = Ok tt (set_bcache bs' st) ∧
      ring bs' (reverse (seq 0 NBUF)) ∧ zeroed bs' NBUF).
  { induction n as [|n IH]; intros k st Hk Hr Hzk.
    - exists (bcache st). replace k with NBUF in * by lia. split; [by destruct st|done].
    - cbn [seq forM]. destruct (binit_round k st Hr Hzk) as (bs1 & E1 & Hr1 & Hz1); [lia|].
      erewrite bind_ok by exact E1. destruct (IH (S k) (set_bcache bs1 st)) as (bs2 & E2 & Hr2 & Hz2); [lia|done|done|].
      exists bs2. by split. }
  destruct (Hloop NBUF 0%nat s0) as (bs' & E & Hr & Hzb); [lia|done|done|].
  exists bs'. split; [|split].
  - erewrite bind_ok by (apply bmodify_eq; unfold bhead; lia).
    erewrite bind_ok by (apply bmodify_eq; cbn; rewrite length_alter; unfold bhead; lia). exact E.
  - split; try done.
    + by rewrite reverse_Permutation.
    + split; [constructor|set_solver].
    + intros i b Hi Eb. destruct (Hzb i b Hi Eb) as (G1 & G2 & G3 & G4). split; [by right|]. cbn.
      split; [done|]. split; [auto|]. intros. lia.
    + intros i b Hi Eb Hbd. destruct (Hzb i b Hi Eb) as (G1 & _). lia.
  - intros bn. apply (view_uncached (set_bcache bs' s)). intros i b Hi Eb Hbd. destruct (Hzb i b Hi Eb) as (G1 & _). lia.
Qed.

(** C27. [bread] gives exclusive access to the current contents of a block.  If
    the block is cached or a buffer is neither in use nor dirty, it returns a
    buffer that the process now holds, with the contents that the file system
    last gave the block, dirty or not; everything else stays as it is, so in
    particular no change that is not on the disk yet is lost when a buffer is
    recycled.  Otherwise it panics. *)
Theorem bread_contents s l H bn :
  binv s l H → 0 ≤ bn < FSSIZE → (∀ i x d, i ∈ H → ¬ holds s i bn x d) →
  let cached := ∃ i b, (i < NBUF)%nat ∧ bcache s !! i = Some b ∧ b_dev b = 1 ∧ b_blockno b = bn in
  (cached ∨ room s → ∃ i s' d, bread 1 bn s = Ok i s' ∧ i ∉ H ∧ binv s' l (i :: H) ∧ bkeep H s s' ∧
     holds s' i bn (view s bn) d ∧ (d = true ↔ pinned s bn)) ∧
  (¬ (cached ∨ room s) → bread 1 bn s = Err (Panic "bget: no buffers")).
Proof.
  intros Hinv Hbn Hf cached. split; [by apply bread_spec|]. intros Hn.
  destruct (find_start s l H Hinv) as (h & Eh & En & Ep). unfold bread. apply bind_err. unfold bget.
  erewrite bind_ok by (by apply bnode_eq). rewrite En. erewrite bind_ok by (by eapply bfind_start).
  destruct (List.find _ l) as [i|] eqn:E1.
  { exfalso. apply Hn. left. apply List.find_some in E1 as [Hi (b & Eb & Hd & Hb)%keyb_true].
    exists i, b. split; [|done]. by apply (rg_range _ _ (bi_ring _ _ _ Hinv)), list_elem_of_In. }
  erewrite bind_ok by (by apply bnode_eq). rewrite Ep. destruct (bi_ring _ _ _ Hinv) as [H1 H2 H3 H4 H5].
  erewrite bind_ok.
  2: { apply brecycle_spec; [exact H5| |done|].
    - intros j. rewrite elem_of_reverse. apply H3.
    - rewrite length_reverse, (bi_all _ _ _ Hinv), length_seq. lia. }
  destruct (List.find _ (reverse l)) as [i|] eqn:E2; [|done].
  exfalso. apply Hn. right. apply List.find_some in E2 as [Hi Hk]. unfold freeb in Hk.
  destruct (bcache s !! i) as [b|] eqn:Eb; [|done]. apply andb_true_iff in Hk as [K1%Z.eqb_eq K2%Z.eqb_eq].
  exists i, b. split; [|done]. apply H3. by rewrite <- elem_of_reverse, list_elem_of_In.
Qed.

(** ** A concrete cache *)

Definition zero_block : block := replicate 512 0.
Definition zero_bio : bio :=
  mkBio (λ _ _, zero_block) [] true [] (replicate (S NBUF) (mkBuf 0 0 0 (mkSleep false 0) 0 0 0 [])) 1.
Definition bio_demo : bio := match binit zero_bio with Ok _ s => s | Err _ => zero_bio end.

Lemma bio_demo_flags : forallb (λ b, b_flags b =? 0) (bcache bio_demo) = true.
Proof. vm_compute. reflexivity. Qed.

Lemma bio_demo_init :
  ∃ bs', binit zero_bio = Ok tt (set_bcache bs' zero_bio) ∧
    binv (set_bcache bs' zero_bio) (reverse (seq 0 NBUF)) [] ∧ ∀ bn, view (set_bcache bs' zero_bio) bn = disk zero_bio 1 bn.
Proof.
  apply (binit_spec zero_bio); try done. intros i b Hi Eb. apply lookup_replicate in Eb as [-> _]. done.
Qed.

Lemma bio_demo_ok :
  binv bio_demo (reverse (seq 0 NBUF)) [] ∧ (∀ bn, view bio_demo bn = zero_block) ∧ disk bio_demo = disk zero_bio ∧
  (∀ bn, ¬ pinned bio_demo bn) ∧ room bio_demo.
Proof.
  destruct bio_demo_init as (bs' & E & Hi & Hv).
  assert (Ed : bio_demo = set_bcache bs' zero_bio) by (unfold bio_demo; by rewrite E).
  pose proof bio_demo_flags as Hz. rewrite Ed in *. clear E Ed.
  assert (Hnp : ∀ bn, ¬ pinned (set_bcache bs' zero_bio) bn).
  { intros bn (i & b & _ & Eb & _ & _ & Hf). rewrite forallb_forall in Hz. specialize (Hz b).
    rewrite <- list_elem_of_In, Hf in Hz. apply list_elem_of_lookup_2 in Eb. by specialize (Hz Eb). }
  split; [exact Hi|]. split; [exact Hv|]. split; [reflexivity|].
  split; [done|]. apply (room_count _ _ [] [] Hi); [by intros bn ?%Hnp|]. cbn. unfold NBUF. lia.
Qed.

Lemma bread_contents_witness :
  let s := bio_demo in
  ∃ i s' d, bread 1 7 s = Ok i s' ∧ i ∉ [] ∧ binv s' (reverse (seq 0 NBUF)) [i] ∧ bkeep [] s s' ∧
     holds s' i 7 (view s 7) d ∧ (d = true ↔ pinned s 7).
Proof.
  destruct bio_demo_ok as (Hi & _ & _ & _ & Hr).
  destruct (bread_contents bio_demo (reverse (seq 0 NBUF)) [] 7) as [Hb _]; [exact Hi|done|set_solver|].
  apply Hb. by right.
Defined.
