(* ===== verification/Memide.v ===== *)
(** * Memide: the disk in memory, [memide.c]

    The driver that is linked in place of [ide.c] when the file system is part
    of the kernel image.  To the buffer cache above it the two are the same. *)

From S2P Require Import Prelude Mmu Phys Bytes Bio BioSpec.

(** The image and its size, [_binary_fs_img_start] and [_binary_fs_img_size], are
    given by the linker. *)
Record memdisk := mkMd { md_mem : memory; md_start : Z; disksize : Z }.
Definition md_state : Type := memdisk * bio.

Definition mem_ideinit (start size : Z) (m : memory) : memdisk := mkMd m start (u32 size / BSIZE).

Definition mem_ideintr : M md_state unit := mret tt.

Definition on_cache {A} (c : M bio A) : M md_state A := λ '(d, s),
  match c s with Ok a s' => Ok a (d, s') | Err e => Err e end.

(** [disksize] is an [int]; the comparison with [blockno] is one of unsigned numbers. *)
Definition mem_iderw (i : nat) : M md_state unit :=
  b ← on_cache (bnode i);
  h ← on_cache (holdingsleep (b_lock b));
  if negb h then panic "iderw: buf not locked"
  else if Z.land (b_flags b) (Z.lor B_VALID B_DIRTY) =? B_VALID then panic "iderw: nothing to do"
  else if negb (b_dev b =? 1) then panic "iderw: request not for disk 1"
  else
    d ← gets fst;
    if u32 (disksize d) <=? b_blockno b then panic "iderw: block out of range"
    else
      let p := u32 (md_start d + u32 (b_blockno b * BSIZE)) in
      (if nz (Z.land (b_flags b) B_DIRTY) then
         on_cache (bmodify i (λ b, set_flags (Z.land (b_flags b) (notu B_DIRTY)) b)) ;;
         modify (λ '(d, s), (mkMd (st_bytes (md_mem d) p (b_data b)) (md_start d) (disksize d), s))
       else on_cache (bmodify i (set_data (ld_bytes (md_mem d) p (Z.to_nat BSIZE))))) ;;
      on_cache (bmodify i (λ b, set_flags (Z.lor (b_flags b) B_VALID) b)).

(** ** Equivalence with [ide.c] *)

(** A block of the image. *)
Definition md_block (d : memdisk) (bn : Z) : block := ld_bytes (md_mem d) (md_start d + bn * BSIZE) (Z.to_nat BSIZE).
(** The image in memory is the contents of disk 1. *)
Record same_disk (d : memdisk) (s : bio) : Prop := {
  sd_size : disksize d = FSSIZE;
  sd_place : 0 ≤ md_start d ∧ md_start d + FSSIZE * BSIZE < 4294967296;
  sd_blocks : ∀ bn, 0 ≤ bn < FSSIZE → md_block d bn = disk s 1 bn
}.

Lemma ld_st_bytes m a l : bytes_ok l → ld_bytes (st_bytes m a l) a (length l) = l.
Proof.
  intros Hl. unfold ld_bytes. apply list_eq. intros k. rewrite list_lookup_fmap. destruct (decide (k < length l)%nat) as [Hk|Hk].
  - rewrite lookup_seq_lt by done. cbn. destruct (lookup_lt_is_Some_2 l k Hk) as [c Hc]. rewrite Hc. f_equal.
    unfold ld8, st_bytes, in_range. rewrite (proj2 (Z.leb_le _ _)), (proj2 (Z.ltb_lt _ _)) by lia. cbn.
    replace (Z.to_nat (a + Z.of_nat k - a)) with k by lia. rewrite (nth_lookup_Some _ _ _ _ Hc).
    assert (0 ≤ c < 256) by (by apply (Forall_lookup_1 _ _ _ _ Hl Hc)). unfold u8. by rewrite !Z.mod_small by (done || by rewrite Z.mod_small).
  - rewrite !lookup_ge_None_2 by (rewrite ?length_seq; lia). done.
Qed.
Lemma ld_st_bytes_ne m a l b n : b + Z.of_nat n ≤ a ∨ a + Z.of_nat (length l) ≤ b → ld_bytes (st_bytes m a l) b n = ld_bytes m b n.
Proof.
  intros Hd. unfold ld_bytes. apply list_fmap_ext. intros k x Hx. apply lookup_seq in Hx as [-> Hk].
  unfold ld8, st_bytes, in_range. destruct (Z.leb_spec a (b + Z.of_nat (0 + k))), (Z.ltb_spec (b + Z.of_nat (0 + k)) (a + Z.of_nat (length l))); cbn; done || lia.
Qed.

Lemma mem_write_same d s bn x : same_disk d s → 0 ≤ bn < FSSIZE → is_block x → bytes_ok x →
  same_disk (mkMd (st_bytes (md_mem d) (md_start d + bn * BSIZE) x) (md_start d) (disksize d)) (set_disk 1 bn x s).
Proof.
  intros [S1 S2 S3] Hbn Hx Hb. split; [done|done|]. intros k Hk. unfold md_block in *. cbn [md_mem md_start disk set_disk]. unfold is_block in Hx.
  case_decide as E.
  - destruct E as [_ ->]. rewrite <- Hx. by apply ld_st_bytes.
  - rewrite ld_st_bytes_ne; [by apply S3|]. rewrite Hx. unfold BSIZE in *. assert (k ≠ bn) by (intros ->; by apply E). lia.
Qed.

Lemma on_cache_ok {A} (c : M bio A) d s a s' : c s = Ok a s' → on_cache c (d, s) = Ok a (d, s').
Proof. unfold on_cache. by intros ->. Qed.
Lemma same_disk_cache d s l : same_disk d s → same_disk d (set_bcache l s).
Proof. intros [S1 S2 S3]. by split. Qed.

Section Rw.
Context (d : memdisk) (s : bio) (i : nat) (b : buf).
Hypothesis Hi : bcache s !! i = Some b.
Hypothesis Hdev : b_dev b = 1.
Hypothesis Hlk : b_lock b = mkSleep true (cur_pid s).
Hypothesis Hd : same_disk d s.

Lemma bnode_run : bnode i s = Ok b s.
Proof using Hi. unfold bnode. by rewrite Hi. Qed.
Lemma bmodify_run f c : bmodify i f (bput i c s) = Ok tt (bput i (f c) s).
Proof using Hi.
  clear - Hi. unfold bmodify, bput, set_bcache. cbn. pose proof (lookup_lt_Some _ _ _ Hi).
  rewrite list_lookup_insert_eq by done. rewrite (alter_insert f i _ c) by (by apply list_lookup_insert_eq). by rewrite list_insert_insert_eq.
Qed.
Lemma bmodify_first f : bmodify i f s = Ok tt (bput i (f b) s).
Proof using Hi. rewrite <- (bput_id i b s Hi) at 1. apply bmodify_run. Qed.

(** The tests, when a transfer is due. *)
Lemma mem_rw_checks :
  b_flags b = 0 ∨ b_flags b = 6 → let p := u32 (md_start d + u32 (b_blockno b * BSIZE)) in
  mem_iderw i (d, s) =
    (if FSSIZE <=? b_blockno b then panic "iderw: block out of range"
     else
       (if nz (Z.land (b_flags b) B_DIRTY) then
          on_cache (bmodify i (λ b, set_flags (Z.land (b_flags b) (notu B_DIRTY)) b)) ;;
          modify (λ '(d, s), (mkMd (st_bytes (md_mem d) p (b_data b)) (md_start d) (disksize d), s))
        else on_cache (bmodify i (set_data (ld_bytes (md_mem d) p (Z.to_nat BSIZE))))) ;;
       on_cache (bmodify i (λ b, set_flags (Z.lor (b_flags b) B_VALID) b))) (d, s).
Proof using All.
  intros Hf p. unfold mem_iderw. rewrite (bind_ok _ _ _ _ _ (on_cache_ok _ d _ _ _ bnode_run)).
  rewrite (bind_ok _ _ _ true (d, s)) by (unfold on_cache, holdingsleep, mbind, M_bind, gets; rewrite Hlk; cbn; by rewrite Z.eqb_refl).
  cbn [negb]. assert (Hg : Z.land (b_flags b) (Z.lor B_VALID B_DIRTY) =? B_VALID = false) by (destruct Hf as [-> | ->]; done).
  rewrite Hg, Hdev. cbn [Z.eqb Pos.eqb negb]. rewrite (bind_ok _ _ _ d (d, s)) by done. rewrite (sd_size _ _ Hd). done.
Qed.

Hypothesis Hbn : 0 ≤ b_blockno b < FSSIZE.
Lemma md_addr : u32 (md_start d + u32 (b_blockno b * BSIZE)) = md_start d + b_blockno b * BSIZE.
Proof using Hbn Hd. clear - Hbn Hd. destruct Hd as [_ S2 _]. unfold BSIZE, FSSIZE in *. rewrite !u32_small; unfold is_u32; [done|lia|rewrite u32_small; unfold is_u32; lia]. Qed.

Lemma mem_rw_start :
  b_flags b = 0 ∨ b_flags b = 6 → let p := md_start d + b_blockno b * BSIZE in
  mem_iderw i (d, s) =
    ((if nz (Z.land (b_flags b) B_DIRTY) then
        on_cache (bmodify i (λ b, set_flags (Z.land (b_flags b) (notu B_DIRTY)) b)) ;;
        modify (λ '(d, s), (mkMd (st_bytes (md_mem d) p (b_data b)) (md_start d) (disksize d), s))
      else on_cache (bmodify i (set_data (ld_bytes (md_mem d) p (Z.to_nat BSIZE))))) ;;
     on_cache (bmodify i (λ b, set_flags (Z.lor (b_flags b) B_VALID) b))) (d, s).
Proof using All.
  intros Hf p. rewrite mem_rw_checks, md_addr by done. by rewrite (proj2 (Z.leb_gt _ _)) by lia.
Qed.

Lemma mem_rw_read : b_flags b = 0 → mem_iderw i (d, s) = Ok tt (d, bput i (set_flags 2 (set_data (disk s 1 (b_blockno b)) b)) s).
Proof using All.
  intros Hf. rewrite mem_rw_start by auto. rewrite Hf. change (nz (Z.land 0 B_DIRTY)) with false. cbv iota.
  pose proof (sd_blocks _ _ Hd (b_blockno b) Hbn) as Hb. unfold md_block in Hb. rewrite Hb.
  rewrite (bind_ok _ _ _ _ _ (on_cache_ok _ d _ _ _ (bmodify_first _))).
  rewrite (on_cache_ok _ d _ _ _ (bmodify_run _ _)). cbn [b_flags set_data]. by rewrite Hf.
Qed.
Lemma mem_rw_write : b_flags b = 6 →
  mem_iderw i (d, s) = Ok tt (mkMd (st_bytes (md_mem d) (md_start d + b_blockno b * BSIZE) (b_data b)) (md_start d) (disksize d), bput i (set_flags 2 b) s).
Proof using All.
  intros Hf. rewrite mem_rw_start by auto. rewrite Hf. change (nz (Z.land 6 B_DIRTY)) with true. cbv iota.
  rewrite (bind_ok _ _ _ tt (mkMd (st_bytes (md_mem d) (md_start d + b_blockno b * BSIZE) (b_data b)) (md_start d) (disksize d),
    bput i (set_flags (Z.land (b_flags b) (notu B_DIRTY)) b) s)).
  2:{ rewrite (bind_ok _ _ _ _ _ (on_cache_ok _ d _ _ _ (bmodify_first _))). done. }
  rewrite (on_cache_ok _ _ _ _ _ (bmodify_run _ _)). cbn [b_flags set_flags]. by rewrite Hf.
Qed.
End Rw.

(** Both drivers refuse. *)
Definition both_panic {S1 S2 A} (r1 : res S1 A) (r2 : res S2 A) : Prop := ∃ m1 m2, r1 = Err (Panic m1) ∧ r2 = Err (Panic m2).

Lemma ide_out_of_range i b s : bcache s !! i = Some b → idequeue s = [] → b_lock b = mkSleep true (cur_pid s) → havedisk1 s = true →
  b_flags b = 0 ∨ b_flags b = 6 → FSSIZE ≤ b_blockno b → iderw i s = Err (Panic "incorrect blockno").
Proof.
  intros Hi Hq Hlk Hd1 Hf Hbn. unfold iderw. rewrite (bind_ok _ _ _ b s) by (unfold bnode; by rewrite Hi).
  rewrite (bind_ok _ _ _ true s) by (unfold holdingsleep, mbind, M_bind, gets; rewrite Hlk; cbn; by rewrite Z.eqb_refl). cbn [negb].
  assert (Hg : Z.land (b_flags b) (Z.lor B_VALID B_DIRTY) =? B_VALID = false) by (destruct Hf as [-> | ->]; done).
  rewrite Hg. rewrite (bind_ok _ _ _ true s) by (unfold gets; by rewrite Hd1). rewrite andb_false_r.
  rewrite (bind_ok _ _ _ tt (set_idequeue [i] s)) by (unfold modify; by rewrite Hq). rewrite (bind_ok _ _ _ [i] (set_idequeue [i] s)) by done.
  rewrite bool_decide_true by done. cbn [when]. apply bind_err. unfold idestart. rewrite (bind_ok _ _ _ b (set_idequeue [i] s)) by (unfold bnode; cbn; by rewrite Hi).
  by rewrite (proj2 (Z.leb_le _ _)).
Qed.

(** C39. The driver of the disk in memory is equivalent to that of the IDE disk, for
    requests to disk 1 made one after the other: from a memory image equal to the
    disk, a request leaves the same buffer cache and again equal contents, whether
    it reads a block or writes one, and each driver panics exactly when the other
    does: for a buffer that is not locked, one that is in step with the disk, and a
    block behind the end. *)
Theorem memide_equiv_ide d s i b :
  bcache s !! i = Some b → idequeue s = [] → havedisk1 s = true → same_disk d s →
  b_dev b = 1 → 0 ≤ b_blockno b → b_flags b ∈ [0; B_VALID; Z.lor B_VALID B_DIRTY] → is_block (b_data b) → bytes_ok (b_data b) →
  match mem_iderw i (d, s), iderw i s with
  | Ok _ (d', s1), Ok _ s2 => bcache s1 = bcache s2 ∧ same_disk d' s2
  | r1, r2 => both_panic r1 r2
  end.
Proof.
  intros Hi Hq Hd1 Hd Hdev Hbn Hf Hx Hb. pose proof (lookup_lt_Some _ _ _ Hi) as Hlen.
  assert (Hno : ∀ m1 m2, mem_iderw i (d, s) = Err (Panic m1) → iderw i s = Err (Panic m2) →
    match mem_iderw i (d, s), iderw i s with Ok _ (d', s1), Ok _ s2 => bcache s1 = bcache s2 ∧ same_disk d' s2 | r1, r2 => both_panic r1 r2 end).
  { intros m1 m2 -> ->. by exists m1, m2. }
  destruct (sl_locked (b_lock b) && (sl_pid (b_lock b) =? cur_pid s)) eqn:Hl.
  2:{ apply (Hno "iderw: buf not locked" "iderw: buf not locked"); unfold mem_iderw, iderw, on_cache, holdingsleep, mbind, M_bind, gets, bnode; rewrite Hi; cbn; by rewrite Hl. }
  assert (Hlk : b_lock b = mkSleep true (cur_pid s)).
  { apply andb_true_iff in Hl as [H1 H2%Z.eqb_eq]. destruct (b_lock b). cbn in *. by subst. }
  rewrite !elem_of_cons, elem_of_nil in Hf. destruct (decide (b_flags b = 2)) as [E|Hne].
  { apply (Hno "iderw: nothing to do" "iderw: nothing to do"); unfold mem_iderw, iderw, on_cache, holdingsleep, mbind, M_bind, gets, bnode; rewrite Hi; cbn; by rewrite Hl, E. }
  assert (Hf' : b_flags b = 0 ∨ b_flags b = 6) by (unfold B_VALID, B_DIRTY in Hf; cbn in Hf; tauto).
  destruct (decide (b_blockno b < FSSIZE)) as [Hlt|Hge].
  2:{ apply (Hno "iderw: block out of range" "incorrect blockno"); [|apply (ide_out_of_range i b s); done || lia].
      rewrite (mem_rw_checks d s i b) by done. by rewrite (proj2 (Z.leb_le _ _)) by lia. }
  assert (Er : iderw i s = iderw i (bput i b s)) by (by rewrite bput_id). rewrite Er. destruct Hf' as [Hf0|Hf6].
  - rewrite (mem_rw_read d s i b), (iderw_read i b s) by done. split; [done|]. by apply same_disk_cache.
  - rewrite (mem_rw_write d s i b), (iderw_write i b s) by done. split; [done|]. by apply same_disk_cache, mem_write_same.
Qed.

(** A locked buffer for block 3, written over by zeros. *)
Definition demo_md_bio : bio := mkBio (λ _ _, replicate (Z.to_nat BSIZE) 1) [] true [] [mkBuf 6 1 3 (mkSleep true 1) 1 0 0 (replicate (Z.to_nat BSIZE) 0)] 1.
Definition demo_md : memdisk := mkMd (λ _, 1) 0x100000 1000.

Lemma memide_equiv_ide_witness :
  match mem_iderw 0 (demo_md, demo_md_bio), iderw 0 demo_md_bio with
  | Ok _ (d', s1), Ok _ s2 => bcache s1 = bcache s2 ∧ same_disk d' s2
  | r1, r2 => both_panic r1 r2
  end.
Proof.
  apply (memide_equiv_ide demo_md demo_md_bio 0 (mkBuf 6 1 3 (mkSleep true 1) 1 0 0 (replicate (Z.to_nat BSIZE) 0)));
    [reflexivity|reflexivity|reflexivity| |reflexivity|cbn; lia|cbn; set_solver|reflexivity|].
  - split; [reflexivity|unfold FSSIZE, BSIZE; cbn; lia|]. intros bn Hbn. unfold md_block, ld_bytes. cbn [disk demo_md_bio].
    rewrite <- (length_seq (Z.to_nat BSIZE) 0) at 2. by rewrite <- const_fmap with (f := λ i, ld8 (md_mem demo_md) (md_start demo_md + bn * BSIZE + Z.of_nat i)).
  - apply Forall_forall. intros c [-> _]%elem_of_replicate. lia.
Defined.
