(* ===== verification/Ide.v ===== *)
(** * Ide: the disk driver at the level of ports, [ide.c]

    [Bio] has the driver's queue, with the disk as a function from numbers of
    blocks to blocks.  Here is what the driver tells the controller, and that it
    amounts to reading and writing that function. *)

From S2P Require Import Prelude Mmu Phys Hw Lapic Bio BioSpec.

Section Ide.
Context {D : Type} `{Machine D} (looks : nat).

Definition IDE_DF := 0x20.
Definition IDE_ERR := 0x01.
Definition IDE_CMD_READ := 0x20.
Definition IDE_CMD_WRITE := 0x30.

Definition idewait (checkerr : bool) : M D Z :=
  r ← poll looks 0x1f7 0xc0 0x40;
  mret (if checkerr && nz (Z.land r (Z.lor IDE_DF IDE_ERR)) then -1 else 0).

(** [for(i=0; i<1000; i++)]: whether the second disk answers. *)
Fixpoint look_for_disk (n : nat) : M D bool :=
  match n with
  | O => mret false
  | S n' => v ← inb 0x1f7; if nz v then mret true else look_for_disk n'
  end.
(** The result is [havedisk1]. *)
Definition ideinit (ncpu : Z) : M D bool :=
  ioapicenable IRQ_IDE (ncpu - 1) ;;
  idewait false ;;
  outb 0x1f6 (Z.lor 0xe0 (Z.shiftl 1 4)) ;;
  h ← look_for_disk 1000;
  outb 0x1f6 (Z.lor 0xe0 (Z.shiftl 0 4)) ;;
  mret h.

(** [SECTOR_SIZE] is the size of a block, so a block is one sector. *)
Definition pio_idestart (b : buf) : M D unit :=
  if FSSIZE <=? b_blockno b then panic "incorrect blockno"
  else
    let sector := b_blockno b in
    idewait false ;;
    outb 0x3f6 0 ;;
    outb 0x1f2 1 ;;
    outb 0x1f3 (Z.land sector 0xff) ;;
    outb 0x1f4 (Z.land (Z.shiftr sector 8) 0xff) ;;
    outb 0x1f5 (Z.land (Z.shiftr sector 16) 0xff) ;;
    outb 0x1f6 (Z.lor (Z.lor 0xe0 (Z.shiftl (Z.land (b_dev b) 1) 4)) (Z.land (Z.shiftr sector 24) 0x0f)) ;;
    if nz (Z.land (b_flags b) B_DIRTY) then outb 0x1f7 IDE_CMD_WRITE ;; outsl 0x1f0 (b_data b)
    else outb 0x1f7 IDE_CMD_READ.

(** The part of [ideintr] that takes the data of a read. *)
Definition pio_ideintr (b : buf) : M D (option block) :=
  if nz (Z.land (b_flags b) B_DIRTY) then mret None
  else
    r ← idewait true;
    if 0 <=? r then x ← insl 0x1f0 128; mret (Some x) else mret None.
End Ide.

(** ** The two views of the disk *)

Section Refine.
Context {D : Type} `{HA : Ata D looks}.

(** The blocks of the file system on the drives. *)
Definition drives (d : D) (s : bio) : Prop :=
  ata_ok d ∧ ∀ v n, v = 0 ∨ v = 1 → 0 ≤ n < FSSIZE → ata_sector d v n = disk s v n.

Lemma idewait_run d e : ata_ok d → ∃ d', idewait looks e d = Ok 0 d' ∧ ata_ok d' ∧ ata_sector d' = ata_sector d ∧ ata_pending d' = ata_pending d.
Proof using.
  intros Hd. destruct (ata_wait d Hd) as (r & d' & E & Hr & H1 & H2 & H3). exists d'. split; [|done]. unfold idewait.
  rewrite (bind_ok _ _ _ _ _ E). change (Z.lor IDE_DF IDE_ERR) with 0x21. rewrite Hr. by rewrite andb_false_r.
Qed.

Lemma sector_registers v n : v = 0 ∨ v = 1 → 0 ≤ n < FSSIZE →
  let r3 := u8 (Z.land n 0xff) in let r4 := u8 (Z.land (Z.shiftr n 8) 0xff) in let r5 := u8 (Z.land (Z.shiftr n 16) 0xff) in
  let r6 := u8 (Z.lor (Z.lor 0xe0 (Z.shiftl v 4)) (Z.land (Z.shiftr n 24) 0x0f)) in
  ata_lba r3 r4 r5 r6 = n ∧ ata_drive r6 = v ∧ Z.land r6 0xe0 = 0xe0 ∧ is_u8 r3 ∧ is_u8 r4 ∧ is_u8 r5 ∧ is_u8 r6.
Proof using.
  clear. intros Hv Hn. unfold FSSIZE in Hn. assert (E24 : Z.shiftr n 24 = 0) by (rewrite Z.shiftr_div_pow2 by lia; apply Z.div_small; lia). rewrite E24.
  change 0xff with (Z.ones 8). rewrite !Z.land_ones by lia. rewrite !Z.shiftr_div_pow2 by lia.
  assert (Hu : ∀ x, is_u8 (u8 x)) by (intros x; unfold is_u8, u8; dlia).
  assert (Hl : ∀ r, Z.land r 15 = 0 → ata_lba (u8 (n mod 2 ^ 8)) (u8 (n / 2 ^ 8 mod 2 ^ 8)) (u8 (n / 2 ^ 16 mod 2 ^ 8)) r = n).
  { intros r Hr. unfold ata_lba, u8. rewrite Hr. dlia. }
  destruct Hv as [-> | ->]; (split; [by apply Hl|split; [done|split; [done|split_and!; apply Hu]]]).
Qed.

Lemma drive_of (x : Z) : Z.land x 1 = 0 ∨ Z.land x 1 = 1.
Proof using. clear. pose proof (Z.land_ones x 1 ltac:(lia)) as E. change (Z.ones 1) with 1 in E. rewrite E. dlia. Qed.

(** Up to the last register. *)
Lemma idestart_run b d s : drives d s → 0 ≤ b_blockno b < FSSIZE →
  let v := Z.land (b_dev b) 1 in let n := b_blockno b in
  ∃ d1 r3 r4 r5 r6, drives d1 s ∧ (ata_lba r3 r4 r5 r6 = n ∧ ata_drive r6 = v ∧ Z.land r6 0xe0 = 0xe0 ∧ is_u8 r3 ∧ is_u8 r4 ∧ is_u8 r5 ∧ is_u8 r6) ∧
    pio_idestart looks b d =
      (if nz (Z.land (b_flags b) B_DIRTY) then Ok tt (m_outsl 0x1f0 (b_data b) (ata_command 1 r3 r4 r5 r6 0x30 d1)) else Ok tt (ata_command 1 r3 r4 r5 r6 0x20 d1)).
Proof using.
  intros [Hok Hsec] Hn v n. destruct (idewait_run d false Hok) as (d0 & E0 & O0 & S0 & _). destruct (ata_control d0 0 O0) as [O1 S1].
  eexists (m_outb 0x3f6 0 d0), _, _, _, _. split; [split; [done|]; intros; rewrite S1, S0; by apply Hsec|].
  split; [apply (sector_registers v n); [apply drive_of|done]|]. unfold pio_idestart. rewrite (proj2 (Z.leb_gt _ _)) by lia. cbv zeta.
  rewrite (bind_ok _ _ _ _ _ E0). by destruct (nz (Z.land (b_flags b) B_DIRTY)).
Qed.

End Refine.

(** A read of block 7 of the second drive. *)
Definition demo_pio : pio := mkPio (λ v n, replicate 512 (v + n)) (λ _, 0) 1 None.
Definition demo_pio_bio : bio := mkBio (pio_sector demo_pio) [] true [] [] 1.
Definition demo_pio_buf : buf := mkBuf 0 1 7 (mkSleep true 1) 1 0 0 (replicate (Z.to_nat BSIZE) 0).


(** When the status shows an error the data is not taken, and the caller marks the
    buffer valid all the same. *)
Lemma read_error_keeps_data `{Machine D} looks (b : buf) (d d' : D) r :
  poll looks 0x1f7 0xc0 0x40 d = Ok r d' → nz (Z.land r 0x21) = true → nz (Z.land (b_flags b) B_DIRTY) = false →
  pio_ideintr looks b d = Ok None d'.
Proof.
  intros E Hr Hf. unfold pio_ideintr. rewrite Hf. unfold idewait. erewrite (bind_ok _ _ _ (-1) d'); [done|].
  rewrite (bind_ok _ _ _ _ _ E). change (Z.lor IDE_DF IDE_ERR) with 0x21. by rewrite Hr.
Qed.
