(* ===== verification/Log.v ===== *)
(** * Log: the write-ahead log, [log.c]

    The state is the buffer cache of [Bio] with [struct log]; the spin lock of
    the log is not part of it, since the routines are run one at a time here.
    [sleep] in [begin_op] is an outcome of its own. *)

From S2P Require Import Prelude Mmu Bytes Bio.

Definition MAXOPBLOCKS := 10.
Definition LOGSIZE := 30.

(** [lh_block] has [LOGSIZE] entries. *)
Record log := mkLog {
  lg_start : Z;
  lg_size : Z;
  lg_outstanding : Z;
  lg_committing : bool;
  lg_dev : Z;
  lh_n : Z;
  lh_block : list Z
}.

Record lst := mkLst { lbio : bio; llog : log }.

Definition set_lbio (b : bio) (s : lst) : lst := mkLst b (llog s).
Definition set_llog (g : log) (s : lst) : lst := mkLst (lbio s) g.

Definition set_outstanding (n : Z) (g : log) : log :=
  mkLog (lg_start g) (lg_size g) n (lg_committing g) (lg_dev g) (lh_n g) (lh_block g).
Definition set_committing (b : bool) (g : log) : log :=
  mkLog (lg_start g) (lg_size g) (lg_outstanding g) b (lg_dev g) (lh_n g) (lh_block g).
Definition set_lh_n (n : Z) (g : log) : log :=
  mkLog (lg_start g) (lg_size g) (lg_outstanding g) (lg_committing g) (lg_dev g) n (lh_block g).
Definition set_lh_block (l : list Z) (g : log) : log :=
  mkLog (lg_start g) (lg_size g) (lg_outstanding g) (lg_committing g) (lg_dev g) (lh_n g) l.

Definition on_bio {A} (c : M bio A) : M lst A := λ s,
  match c (lbio s) with Ok a b => Ok a (set_lbio b s) | Err e => Err e end.
Definition lmodify (f : log → log) : M lst unit := modify (λ s, set_llog (f (llog s)) s).
Definition lgets {A} (f : log → A) : M lst A := gets (λ s, f (llog s)).

(** [log.lh.block[i]], and the assignment to it. *)
Definition get_block (i : nat) : M lst Z := λ s,
  match lh_block (llog s) !! i with
  | Some b => Ok b s
  | None => Err (UB "log.lh.block out of range")
  end.
Definition put_block (i : nat) (v : Z) : M lst unit := λ s,
  if decide (i < length (lh_block (llog s)))%nat
  then Ok tt (set_llog (set_lh_block (<[i:=v]> (lh_block (llog s))) (llog s)) s)
  else Err (UB "log.lh.block out of range").

(** Fields of the header block: [n], then [block[0]], [block[1]], ... *)
Definition hd_n (x : block) : Z := s32 (get32 x 0).
Definition hd_block (x : block) (i : nat) : Z := s32 (get32 x (4 + 4 * i)).

(** ** [install_trans], [read_head], [write_head] *)

Definition install_one (tail : nat) : M lst unit :=
  dev ← lgets lg_dev;
  start ← lgets lg_start;
  lbuf ← on_bio (bread dev (u32 (start + Z.of_nat tail + 1)));
  bn ← get_block tail;
  dbuf ← on_bio (bread dev (u32 bn));
  l ← on_bio (bnode lbuf);
  on_bio (bmodify dbuf (set_data (b_data l))) ;;
  on_bio (bwrite dbuf) ;;
  on_bio (brelse lbuf) ;;
  on_bio (brelse dbuf).

Definition install_trans : M lst unit :=
  n ← lgets lh_n;
  forM (seq 0 (Z.to_nat n)) install_one.

Definition read_head : M lst unit :=
  dev ← lgets lg_dev;
  start ← lgets lg_start;
  buf ← on_bio (bread dev (u32 start));
  b ← on_bio (bnode buf);
  lmodify (set_lh_n (hd_n (b_data b))) ;;
  n ← lgets lh_n;
  forM (seq 0 (Z.to_nat n)) (λ i, put_block i (hd_block (b_data b) i)) ;;
  on_bio (brelse buf).

Definition write_head : M lst unit :=
  dev ← lgets lg_dev;
  start ← lgets lg_start;
  buf ← on_bio (bread dev (u32 start));
  n ← lgets lh_n;
  on_bio (bmodify buf (λ b, set_data (put32 0 (u32 n) (b_data b)) b)) ;;
  forM (seq 0 (Z.to_nat n)) (λ i,
    v ← get_block i;
    on_bio (bmodify buf (λ b, set_data (put32 (4 + 4 * i) (u32 v) (b_data b)) b))) ;;
  on_bio (bwrite buf) ;;
  on_bio (brelse buf).

Definition recover_from_log : M lst unit :=
  read_head ;;
  install_trans ;;
  lmodify (set_lh_n 0) ;;
  write_head.

(** [struct superblock] of [fs.h] and [readsb] of [fs.c]. *)
Record superblock := mkSuper {
  sb_size : Z;
  sb_nblocks : Z;
  sb_ninodes : Z;
  sb_nlog : Z;
  sb_logstart : Z;
  sb_inodestart : Z;
  sb_bmapstart : Z
}.

Definition dec_super (x : block) : superblock :=
  mkSuper (get32 x 0) (get32 x 4) (get32 x 8) (get32 x 12) (get32 x 16) (get32 x 20) (get32 x 24).

Definition readsb (dev : Z) : M bio superblock :=
  bp ← bread dev 1;
  b ← bnode bp;
  brelse bp ;;
  mret (dec_super (b_data b)).

(** [sizeof(struct logheader)] is 124, which is less than [BSIZE]. *)
Definition initlog (dev : Z) : M lst unit :=
  sb ← on_bio (readsb dev);
  lmodify (λ g, mkLog (s32 (sb_logstart sb)) (s32 (sb_nlog sb)) (lg_outstanding g) (lg_committing g) dev
    (lh_n g) (lh_block g)) ;;
  recover_from_log.

(** ** Operations *)

Definition begin_op : M lst unit :=
  c ← lgets lg_committing;
  n ← lgets lh_n;
  o ← lgets lg_outstanding;
  if (c : bool) then fail (Blocked "log")
  else if LOGSIZE <? n + (o + 1) * MAXOPBLOCKS then fail (Blocked "log")
  else lmodify (set_outstanding (o + 1)).

Definition write_log_one (tail : nat) : M lst unit :=
  dev ← lgets lg_dev;
  start ← lgets lg_start;
  to ← on_bio (bread dev (u32 (start + Z.of_nat tail + 1)));
  bn ← get_block tail;
  from ← on_bio (bread dev (u32 bn));
  f ← on_bio (bnode from);
  on_bio (bmodify to (set_data (b_data f))) ;;
  on_bio (bwrite to) ;;
  on_bio (brelse from) ;;
  on_bio (brelse to).

Definition write_log : M lst unit :=
  n ← lgets lh_n;
  forM (seq 0 (Z.to_nat n)) write_log_one.

Definition commit : M lst unit :=
  n ← lgets lh_n;
  when (0 <? n) (
    write_log ;;
    write_head ;;
    install_trans ;;
    lmodify (set_lh_n 0) ;;
    write_head).

Definition end_op : M lst unit :=
  lmodify (λ g, set_outstanding (lg_outstanding g - 1) g) ;;
  c ← lgets lg_committing;
  if (c : bool) then panic "log.committing"
  else
    o ← lgets lg_outstanding;
    if o =? 0 then
      lmodify (set_committing true) ;;
      commit ;;
      lmodify (set_committing false)
    else mret tt.

(** [for (i = 0; i < log.lh.n; i++) if (log.lh.block[i] == b->blockno) break;] *)
Definition absorb (n : Z) (bl : list Z) (blockno : Z) : nat :=
  match list_find (λ v, u32 v = blockno) (take (Z.to_nat n) bl) with
  | Some (i, _) => i
  | None => Z.to_nat n
  end.

Definition log_write (i : nat) : M lst unit :=
  n ← lgets lh_n;
  size ← lgets lg_size;
  if (LOGSIZE <=? n) || (size - 1 <=? n) then panic "too big a transaction"
  else
    o ← lgets lg_outstanding;
    if o <? 1 then panic "log_write outside of trans"
    else
      b ← on_bio (bnode i);
      bl ← lgets lh_block;
      let k := absorb n bl (b_blockno b) in
      put_block k (s32 (b_blockno b)) ;;
      when (Z.of_nat k =? n) (lmodify (set_lh_n (n + 1))) ;;
      on_bio (bmodify i (λ b, set_flags (Z.lor (b_flags b) B_DIRTY) b)).
