(* ===== verification/LogSpec.v ===== *)
(** * LogSpec: transactions are atomic

    What the routines of [log.c] do to the disk, write by write, and what
    recovery makes of a disk that was left after any of these writes. *)

From S2P Require Import Prelude Mmu Bytes Bio BioSpec Log.

Lemma on_bio_ok {A} (c : M bio A) b g a b' :
  c b = Ok a b' → on_bio c (mkLst b g) = Ok a (mkLst b' g).
Proof. intros E. unfold on_bio. cbn. by rewrite E. Qed.

Lemma on_bio_err {A} (c : M bio A) b g e : c b = Err e → on_bio c (mkLst b g) = Err e.
Proof. intros E. unfold on_bio. cbn. by rewrite E. Qed.

(** A block that is neither dirty nor held reads as it is on the disk. *)
Lemma view_clean s l H bn :
  binv s l H → ¬ pinned s bn → (∀ i x d, i ∈ H → ¬ holds s i bn x d) → view s bn = disk s 1 bn.
Proof.
  intros Hinv Hp Hh. destruct (cached_dec s bn) as [(j & c & Hj & Ec & Hcd & <-)|Hun]; [|by apply view_uncached].
  rewrite (view_cached s l H j c) by done. destruct (bi_buf _ _ _ Hinv j c Hj Ec) as [B1 B2].
  destruct B1 as [(_ & Hf & _)|[? _]]; [|lia]. destruct Hf as [Hf|Hf].
  - case_decide as Hd; [|by apply B2]. exfalso. apply (Hh j (b_data c) false Hd). by exists c.
  - exfalso. apply Hp. by exists j, c.
Qed.

(** Two blocks are read, the second one dirty or with room for it. *)
Lemma read_two s l a b (P : list Z) :
  binv s l [] → 0 ≤ a < FSSIZE → 0 ≤ b < FSSIZE → a ≠ b → ¬ pinned s a → (∀ z, pinned s z → z ∈ P) →
  (length P < NBUF)%nat → (pinned s b ∨ (S (length P) < NBUF)%nat) →
  ∃ iA s1 iB s2 d, bread 1 a s = Ok iA s1 ∧ bread 1 b s1 = Ok iB s2 ∧ binv s2 l [iB; iA] ∧
    holds s2 iA a (view s a) false ∧ holds s2 iB b (view s b) d ∧ (d = true ↔ pinned s b) ∧
    bkeep [] s s2.
Proof.
  intros Hinv Ha Hb Hab Hna HP Hlen Hor.
  assert (Hr1 : room s) by (by apply (room_count s l [] P)).
  destruct (bread_spec s l [] a Hinv Ha) as (iA & s1 & dA & E1 & _ & Hi1 & Hk1 & Hh1 & Hd1); [set_solver|by right|].
  assert (dA = false) as -> by (destruct dA; [|done]; exfalso; by apply Hna, Hd1).
  assert (Hfr : ∀ i x d, i ∈ [iA] → ¬ holds s1 i b x d).
  { intros i x d ->%list_elem_of_singleton (c & Ec & Hc & _). destruct Hh1 as (c' & Ec' & Hc' & _). congruence. }
  destruct (bread_spec s1 l [iA] b Hi1 Hb Hfr) as (iB & s2 & dB & E2 & HiB & Hi2 & Hk2 & Hh2 & Hd2).
  { destruct Hor as [Hpb|Hlen2].
    - left. apply (bk_pinned _ _ _ Hk1) in Hpb as (j & c & Hj & Ec & Hcd & Hcn & _). by exists j, c.
    - right. apply (room_count s1 l [iA] P Hi1); [|done]. intros z Hz. by apply HP, (bk_pinned _ _ _ Hk1). }
  exists iA, s1, iB, s2, dB. split; [done|]. split; [done|]. split; [done|]. split; [|split; [|split]].
  - by apply (bk_holds _ _ _ Hk2); [left|].
  - by rewrite <- (bk_view _ _ _ Hk1).
  - rewrite Hd2. apply (bk_pinned _ _ _ Hk1).
  - destruct Hk1 as [K1 K2 K3 K4 K5 _], Hk2 as [L1 L2 L3 L4 L5 _]. split; try congruence; [|set_solver].
    intros z. by rewrite L5, K5.
Qed.

(** What copying block [b] to block [a] through the cache does. *)
Record copied_block (s : bio) (a b : Z) (s' : bio) : Prop := {
  cb_disk : ∀ z, disk s' 1 z = if decide (z = a) then view s b else disk s 1 z;
  cb_history : history s' = history s ++ [(1, a, view s b)];
  cb_view : ∀ z, view s' z = if decide (z = a) then view s b else view s z;
  cb_pinned : ∀ z, pinned s' z ↔ pinned s z ∧ z ≠ a;
  cb_pid : cur_pid s' = cur_pid s
}.

(** The end of [write_log] and [install_trans]: [t] takes the data of [f], is
    written, and both are released. *)
Lemma copy_held s l it a xa da f b xb db :
  binv s l [f; it] → holds s it a xa da → holds s f b xb db → (db = false → xb = disk s 1 b) → a ≠ b →
  ∃ s1 s2 s3 s4 l', bmodify it (set_data xb) s = Ok tt s1 ∧ bwrite it s1 = Ok tt s2 ∧
    brelse f s2 = Ok tt s3 ∧ brelse it s3 = Ok tt s4 ∧ binv s4 l' [] ∧ copied_block s a b s4.
Proof.
  intros Hinv Ht Hf Hcl Hab.
  assert (Hxb : view s b = xb) by (by apply (held_view s l [it] f b xb db)).
  assert (Hi1 : binv s l [it; f]) by (by eapply binv_perm; [|exact Hinv]; apply Permutation_swap).
  destruct (held_node s l [it] f b xb db Hinv Hf) as (_ & _ & _ & _ & _ & _ & _ & _ & _ & _ & _ & _ & Hbx & _).
  destruct (held_node s l [f] it a xa da Hi1 Ht) as (Hit & Hlt & Hne & c & Ec & Hca & Hcx & Hcf & _).
  destruct (held_put s l [f] it a xa da Hi1 Ht c xb da Ec Hbx) as (I1 & Hh1 & V1 & P1 & O1).
  assert (Es1 : set_flags (if da then 6 else 2) (set_data xb c) = set_data xb c).
  { rewrite <- Hcf. by destruct c. }
  rewrite Es1 in *. set (s1 := bput it (set_data xb c) s) in *.
  destruct (bwrite_spec s1 l [f] it a xb da I1 Hh1) as (s2 & E2 & I2 & Hh2 & D2 & T2 & Q2 & V2 & P2 & O2).
  assert (Hf2 : holds s2 f b xb db) by (apply O2; [by left|]; apply O1; [by left|]; done).
  assert (I2' : binv s2 l [f; it]) by (by eapply binv_perm; [|exact I2]; apply Permutation_swap).
  destruct (brelse_spec s2 l [it] f b xb db I2' Hf2) as (s3 & l3 & E3 & I3 & K3).
  { intros Hd. rewrite D2, decide_False by auto. by apply Hcl. }
  assert (Hh3 : holds s3 it a xb false) by (apply (bk_holds _ _ _ K3); [by left|done]).
  destruct (brelse_spec s3 l3 [] it a xb false I3 Hh3) as (s4 & l4 & E4 & I4 & K4).
  { intros _. rewrite (bk_disk _ _ _ K3), D2. by rewrite decide_True. }
  exists s1, s2, s3, s4, l4. split; [|split; [done|split; [done|split; [done|split; [done|]]]]].
  { rewrite <- (bput_id it c s Ec) at 1. by apply bmodify_put. }
  split.
  - intros z. rewrite (bk_disk _ _ _ K4), (bk_disk _ _ _ K3), D2. by rewrite Hxb.
  - rewrite (bk_history _ _ _ K4), (bk_history _ _ _ K3), T2, Hxb. done.
  - intros z. rewrite (bk_view _ _ _ K4), (bk_view _ _ _ K3), V2, V1, Hxb. done.
  - intros z. rewrite (bk_pinned _ _ _ K4), (bk_pinned _ _ _ K3), P2, P1. case_decide; naive_solver.
  - rewrite (bk_pid _ _ _ K4), (bk_pid _ _ _ K3), Q2. done.
Qed.

(** ** The header block *)

(** The header block [x] with [n] set and the first [j] entries taken from [P]. *)
Definition head_data (n : Z) (P : list Z) (j : nat) (x : block) : block :=
  foldl (λ x i, put32 (4 + 4 * i) (u32 (nth i P 0)) x) (put32 0 (u32 n) x) (seq 0 j).

Lemma head_data_S n P j x :
  head_data n P (S j) x = put32 (4 + 4 * j) (u32 (nth j P 0)) (head_data n P j x).
Proof. unfold head_data. by rewrite seq_S, foldl_app. Qed.

Lemma length_head_data n P j x : (4 + 4 * j ≤ length x)%nat → length (head_data n P j x) = length x.
Proof.
  induction j as [|j IH]; intros Hx; [by apply length_put32; lia|].
  rewrite head_data_S, length_put32; [apply IH; lia|]. rewrite IH; lia.
Qed.

Lemma head_data_n n P j x :
  (4 + 4 * j ≤ length x)%nat → 0 ≤ n < 2147483648 → hd_n (head_data n P j x) = n.
Proof.
  intros Hx Hn. assert (E : get32 (head_data n P j x) 0 = n).
  { induction j as [|j IH].
    - unfold head_data. cbn [seq foldl]. rewrite u32_small by (unfold is_u32; lia).
      by rewrite get32_put32 by (unfold is_u32; lia).
    - rewrite head_data_S, get32_put32_ne; [apply IH; lia| |lia]. rewrite length_head_data; lia. }
  unfold hd_n. rewrite E. apply s32_small. lia.
Qed.

Lemma head_data_block n P j x k b :
  (4 + 4 * j ≤ length x)%nat → (k < j)%nat → P !! k = Some b → 0 ≤ b < 2147483648 →
  hd_block (head_data n P j x) k = b.
Proof.
  intros Hx Hk HP Hb. assert (E : get32 (head_data n P j x) (4 + 4 * k) = b).
  { induction j as [|j IH]; [lia|]. rewrite head_data_S. destruct (decide (k = j)) as [->|Hne].
    - rewrite (nth_lookup_Some _ _ _ _ HP), u32_small by (unfold is_u32; lia).
      apply get32_put32; [rewrite length_head_data; lia|unfold is_u32; lia].
    - rewrite get32_put32_ne; [apply IH; lia|rewrite length_head_data; lia|lia]. }
  unfold hd_block. rewrite E. apply s32_small. lia.
Qed.

(** ** The log in memory

    [P] are the blocks of the transaction; the log occupies the [lg_size]
    blocks from [lg_start], the first one being the header. *)

Record log_ok (g : log) (P : list Z) : Prop := {
  lo_dev : lg_dev g = 1;
  lo_n : lh_n g = Z.of_nat (length P);
  lo_len : length (lh_block g) = Z.to_nat LOGSIZE;
  lo_blocks : take (length P) (lh_block g) = P;
  lo_start : 0 ≤ lg_start g;
  lo_size : Z.of_nat (length P) < lg_size g ∧ lg_start g + lg_size g ≤ FSSIZE;
  lo_range : ∀ b, b ∈ P → 0 ≤ b < FSSIZE ∧ (b < lg_start g ∨ lg_start g + lg_size g ≤ b);
  lo_nodup : NoDup P
}.

Lemma log_ok_block g P k b s :
  log_ok g P → P !! k = Some b → get_block k (mkLst s g) = Ok b (mkLst s g).
Proof.
  intros Hl Hk. pose proof (lookup_lt_Some _ _ _ Hk) as Hlt. unfold get_block. cbn.
  rewrite <- (lookup_take_lt (lh_block g) (length P) k) by done. by rewrite (lo_blocks _ _ Hl), Hk.
Qed.

Lemma log_ok_LOGSIZE g P : log_ok g P → (length P ≤ 30)%nat.
Proof.
  intros Hl. pose proof (f_equal length (lo_blocks _ _ Hl)) as E. rewrite length_take, (lo_len _ _ Hl) in E.
  change (Z.to_nat LOGSIZE) with 30%nat in E. lia.
Qed.

Section Copies.
Context (g : log) (P : list Z).
Hypothesis Hlog : log_ok g P.
Notation st := (lg_start g).

Lemma log_addr k : (k < length P)%nat →
  u32 (st + Z.of_nat k + 1) = st + 1 + Z.of_nat k ∧ 0 ≤ st + 1 + Z.of_nat k < FSSIZE ∧ st + 1 + Z.of_nat k ∉ P.
Proof.
  intros Hk. pose proof (lo_start _ _ Hlog). pose proof (lo_size _ _ Hlog). unfold FSSIZE in *.
  rewrite u32_small by (unfold is_u32; lia). split; [lia|]. split; [lia|].
  intros [_ Hr]%(lo_range _ _ Hlog). lia.
Qed.

Lemma log_home k b : P !! k = Some b → u32 b = b ∧ 0 ≤ b < FSSIZE ∧ b ∈ P.
Proof.
  intros Hk%list_elem_of_lookup_2. pose proof (lo_range _ _ Hlog b Hk) as [Hr _]. unfold FSSIZE in *.
  rewrite u32_small by (unfold is_u32; lia). done.
Qed.

Lemma write_log_one_spec k b s l :
  P !! k = Some b → (length P < NBUF)%nat → binv s l [] → (∀ z, pinned s z ↔ z ∈ P) →
  ∃ s' l', write_log_one k (mkLst s g) = Ok tt (mkLst s' g) ∧ binv s' l' [] ∧
    copied_block s (st + 1 + Z.of_nat k) b s'.
Proof.
  intros Hk Hlen Hinv Hpin. pose proof (lookup_lt_Some _ _ _ Hk) as Hlt.
  destruct (log_addr k Hlt) as (Ea & Ha & Hna). destruct (log_home k b Hk) as (Eb & Hb & Hbin).
  set (a := st + 1 + Z.of_nat k) in *.
  destruct (read_two s l a b P Hinv Ha Hb) as (iA & s1 & iB & s2 & d & E1 & E2 & Hi2 & HhA & HhB & Hd & Hk2);
    [by intros ->|by rewrite Hpin|by intros z; rewrite Hpin|done|left; by apply Hpin|].
  assert (d = true) as -> by (by apply Hd, Hpin).
  destruct (copy_held s2 l iA a (view s a) false iB b (view s b) true Hi2 HhA HhB) as
    (s3 & s4 & s5 & s6 & l' & F1 & F2 & F3 & F4 & Hi' & Hc); [done|by intros ->|].
  exists s6, l'. split; [|split; [done|]].
  - unfold write_log_one. erewrite bind_ok by done. erewrite bind_ok by done. cbn [llog]. rewrite (lo_dev _ _ Hlog), Ea.
    erewrite bind_ok by (by apply on_bio_ok). erewrite bind_ok by (by apply log_ok_block with P). rewrite Eb.
    erewrite bind_ok by (by apply on_bio_ok). destruct HhB as (c & Ec & _ & Ecx & _).
    erewrite bind_ok by (apply on_bio_ok; by apply bnode_eq). rewrite Ecx.
    erewrite bind_ok by (by apply on_bio_ok). erewrite bind_ok by (by apply on_bio_ok).
    erewrite bind_ok by (by apply on_bio_ok). by apply on_bio_ok.
  - destruct Hc as [C1 C2 C3 C4 C5], Hk2 as [K1 K2 K3 K4 K5 _]. split.
    + intros z. rewrite C1, K4, K1. done.
    + by rewrite C2, K2, K4.
    + intros z. by rewrite C3, !K4.
    + intros z. by rewrite C4, K5.
    + congruence.
Qed.

Lemma install_one_spec k b s l :
  P !! k = Some b → binv s l [] → (∀ z, pinned s z → z ∈ P) →
  (pinned s b ∧ (length P < NBUF)%nat) ∨ (∀ z, ¬ pinned s z) →
  ∃ s' l', install_one k (mkLst s g) = Ok tt (mkLst s' g) ∧ binv s' l' [] ∧
    copied_block s b (st + 1 + Z.of_nat k) s'.
Proof.
  intros Hk Hinv Hpin Hor. pose proof (lookup_lt_Some _ _ _ Hk) as Hlt.
  destruct (log_addr k Hlt) as (Ea & Ha & Hna). destruct (log_home k b Hk) as (Eb & Hb & Hbin).
  set (a := st + 1 + Z.of_nat k) in *.
  assert (Hnp : ¬ pinned s a) by (by intros ?%Hpin).
  assert (∃ iA s1 iB s2 d, bread 1 a s = Ok iA s1 ∧ bread 1 b s1 = Ok iB s2 ∧ binv s2 l [iB; iA] ∧
    holds s2 iA a (view s a) false ∧ holds s2 iB b (view s b) d ∧ (d = true ↔ pinned s b) ∧ bkeep [] s s2)
    as (iA & s1 & iB & s2 & d & E1 & E2 & Hi2 & HhA & HhB & Hd & Hk2).
  { destruct Hor as [[Hpb Hlen]|Hno].
    - apply (read_two s l a b P); auto. by intros ->.
    - apply (read_two s l a b []); auto; [by intros ->|intros z Hz; by destruct (Hno z)|cbn; unfold NBUF; lia|right; cbn; unfold NBUF; lia]. }
  assert (Hi2' : binv s2 l [iA; iB]) by (by eapply binv_perm; [|exact Hi2]; apply Permutation_swap).
  destruct (copy_held s2 l iB b (view s b) d iA a (view s a) false Hi2' HhB HhA) as
    (s3 & s4 & s5 & s6 & l' & F1 & F2 & F3 & F4 & Hi' & Hc).
  { intros _. rewrite (bk_disk _ _ _ Hk2). apply (view_clean s l []); [done|done|set_solver]. }
  { by intros ->. }
  exists s6, l'. split; [|split; [done|]].
  - unfold install_one. erewrite bind_ok by done. erewrite bind_ok by done. cbn [llog]. rewrite (lo_dev _ _ Hlog), Ea.
    erewrite bind_ok by (by apply on_bio_ok). erewrite bind_ok by (by apply log_ok_block with P). rewrite Eb.
    erewrite bind_ok by (by apply on_bio_ok). destruct HhA as (c & Ec & _ & Ecx & _).
    erewrite bind_ok by (apply on_bio_ok; by apply bnode_eq). rewrite Ecx.
    erewrite bind_ok by (by apply on_bio_ok). erewrite bind_ok by (by apply on_bio_ok).
    erewrite bind_ok by (by apply on_bio_ok). by apply on_bio_ok.
  - destruct Hc as [C1 C2 C3 C4 C5], Hk2 as [K1 K2 K3 K4 K5 _]. split.
    + intros z. rewrite C1, K4, K1. done.
    + by rewrite C2, K2, K4.
    + intros z. by rewrite C3, !K4.
    + intros z. by rewrite C4, K5.
    + congruence.
Qed.
End Copies.

(** ** The loops *)

(** [d] with the log blocks, respectively the home blocks, replaced. *)
Definition over_log (st : Z) (X : nat → block) (n : nat) (d : Z → block) (z : Z) : block :=
  if decide (st + 1 ≤ z < st + 1 + Z.of_nat n) then X (Z.to_nat (z - st - 1)) else d z.

Definition over_home (P : list Z) (X : nat → block) (d : Z → block) (z : Z) : block :=
  match list_find (λ b, b = z) P with Some (k, _) => X k | None => d z end.

Lemma over_home_snoc P b X d z :
  b ∉ P → over_home (P ++ [b]) X d z = if decide (z = b) then X (length P) else over_home P X d z.
Proof.
  intros Hb. unfold over_home. destruct (decide (z = b)) as [->|Hne].
  - rewrite (list_find_middle _ P b []); [done|done|]. by intros y Hy ->.
  - destruct (list_find (λ c, c = z) P) as [[k c]|] eqn:E.
    + by erewrite list_find_app_l.
    + assert (E2 : list_find (λ c, c = z) (P ++ [b]) = None); [|by rewrite E2].
      apply list_find_app_None. split; [done|]. apply list_find_None, Forall_singleton. auto.
Qed.

Lemma over_home_elem P X d k b :
  NoDup P → P !! k = Some b → over_home P X d b = X k.
Proof.
  intros Hnd Hk. unfold over_home. assert (E : list_find (λ c, c = b) P = Some (k, b)); [|by rewrite E].
  apply list_find_Some. split; [done|]. split; [done|]. intros j y Hj Hlt ->.
  pose proof (NoDup_lookup _ _ _ _ Hnd Hj Hk). lia.
Qed.

Lemma over_home_out P X d z : z ∉ P → over_home P X d z = d z.
Proof. intros Hz. unfold over_home. rewrite list_find_absent; [done|]. by intros y Hy ->. Qed.

Lemma over_log_step st X n d z :
  over_log st X (S n) d z =
    if decide (z = st + 1 + Z.of_nat n) then X n else over_log st X n d z.
Proof.
  unfold over_log. destruct (decide (z = st + 1 + Z.of_nat n)) as [->|Hne].
  - rewrite decide_True by lia. f_equal. lia.
  - destruct (decide (st + 1 ≤ z < st + 1 + Z.of_nat n)); [by rewrite decide_True by lia|by rewrite decide_False by lia].
Qed.

Lemma over_log_out st X n d z : z ≤ st ∨ st + Z.of_nat n < z → over_log st X n d z = d z.
Proof. intros. unfold over_log. by rewrite decide_False by lia. Qed.

Section Loops.
Context (g : log) (P : list Z).
Hypothesis Hlog : log_ok g P.
Notation st := (lg_start g).
Notation home k := (nth k P 0).

Lemma home_out k n : (k < length P)%nat → (n ≤ length P)%nat → ∀ X d, over_log st X n d (home k) = d (home k).
Proof.
  intros Hk Hn X d. apply over_log_out. destruct (lookup_lt_is_Some_2 P k Hk) as [b Eb].
  rewrite (nth_lookup_Some _ _ _ _ Eb). apply list_elem_of_lookup_2 in Eb.
  destruct (lo_range _ _ Hlog b Eb) as [_ Hr]. pose proof (lo_size _ _ Hlog). lia.
Qed.

(** The blocks of the transaction are written to the log. *)
Lemma write_log_loop s l :
  (length P < NBUF)%nat → binv s l [] → (∀ z, pinned s z ↔ z ∈ P) → ∀ j, (j ≤ length P)%nat →
  ∃ s' l', forM (seq 0 j) write_log_one (mkLst s g) = Ok tt (mkLst s' g) ∧ binv s' l' [] ∧
    (∀ z, pinned s' z ↔ z ∈ P) ∧
    (∀ z, disk s' 1 z = over_log st (λ k, view s (home k)) j (disk s 1) z) ∧
    (∀ z, view s' z = over_log st (λ k, view s (home k)) j (view s) z) ∧
    history s' = history s ++ ((λ k, (1, st + 1 + Z.of_nat k, view s (home k))) <$> seq 0 j) ∧
    cur_pid s' = cur_pid s.
Proof.
  intros Hlen Hinv Hpin. induction j as [|j IH]; intros Hj.
  { exists s, l. split; [done|]. split; [done|]. split; [done|]. split_and!; try done.
    - intros z. unfold over_log. by rewrite decide_False by lia.
    - intros z. unfold over_log. by rewrite decide_False by lia.
    - cbn. by rewrite app_nil_r. }
  destruct IH as (s1 & l1 & E1 & I1 & P1 & D1 & V1 & T1 & Q1); [lia|].
  destruct (lookup_lt_is_Some_2 P j ltac:(lia)) as [b Eb].
  pose proof (nth_lookup_Some P j 0 b Eb) as Eh.
  destruct (write_log_one_spec g P Hlog j b s1 l1 Eb Hlen I1 P1) as (s2 & l2 & E2 & I2 & [C1 C2 C3 C4 C5]).
  assert (Hvb : view s1 b = view s (home j)).
  { rewrite V1, <- Eh. apply home_out; lia. }
  exists s2, l2. split; [|split; [done|split; [|split; [|split; [|split]]]]].
  - rewrite seq_S, forM_app. erewrite bind_ok by exact E1. cbn [forM]. by erewrite bind_ok by exact E2.
  - intros z. rewrite C4, P1. split; [by intros [? _]|]. intros Hz. split; [done|].
    intros ->. by destruct (log_addr g P Hlog j ltac:(lia)) as (_ & _ & ?).
  - intros z. rewrite C1, D1, over_log_step, Hvb. done.
  - intros z. rewrite C3, Hvb, V1, over_log_step. done.
  - rewrite C2, T1, seq_S, fmap_app, <- app_assoc, Hvb. done.
  - congruence.
Qed.

(** The log is copied to the home blocks. *)
Lemma install_loop s l :
  binv s l [] → (∀ z, pinned s z → z ∈ P) →
  ((∀ z, z ∈ P → pinned s z) ∧ (length P < NBUF)%nat) ∨ (∀ z, ¬ pinned s z) → ∀ j, (j ≤ length P)%nat →
  let X k := view s (st + 1 + Z.of_nat k) in
  ∃ s' l', forM (seq 0 j) install_one (mkLst s g) = Ok tt (mkLst s' g) ∧ binv s' l' [] ∧
    (∀ z, pinned s' z ↔ pinned s z ∧ z ∉ take j P) ∧
    (∀ z, disk s' 1 z = over_home (take j P) X (disk s 1) z) ∧
    (∀ z, view s' z = over_home (take j P) X (view s) z) ∧
    history s' = history s ++ ((λ k, (1, home k, X k)) <$> seq 0 j) ∧
    cur_pid s' = cur_pid s.
Proof.
  intros Hinv Hpin Hor j Hj X. induction j as [|j IH].
  { exists s, l. split; [done|]. split; [done|]. split; [set_solver|]. split_and!; try done.
    cbn. by rewrite app_nil_r. }
  destruct IH as (s1 & l1 & E1 & I1 & P1 & D1 & V1 & T1 & Q1); [lia|].
  destruct (lookup_lt_is_Some_2 P j ltac:(lia)) as [b Eb]. pose proof (nth_lookup_Some P j 0 b Eb) as Eh.
  assert (Hbt : b ∉ take j P).
  { intros (k & Hk)%list_elem_of_lookup. apply lookup_take_Some in Hk as [Hk Hkj].
    pose proof (NoDup_lookup _ _ _ _ (lo_nodup _ _ Hlog) Hk Eb). lia. }
  destruct (install_one_spec g P Hlog j b s1 l1 Eb I1) as (s2 & l2 & E2 & I2 & [C1 C2 C3 C4 C5]).
  { intros z [Hz _]%P1. by apply Hpin. }
  { destruct Hor as [[Hall Hlen]|Hno]; [left|right].
    - split; [|done]. apply P1. split; [apply Hall; by eapply list_elem_of_lookup_2|done].
    - intros z [Hz _]%P1. by apply (Hno z). }
  destruct (log_addr g P Hlog j ltac:(lia)) as (_ & _ & Hna).
  assert (HX : view s1 (st + 1 + Z.of_nat j) = X j).
  { rewrite V1. apply over_home_out. intros (k & Hk)%list_elem_of_lookup. apply lookup_take_Some in Hk as [Hk _].
    by apply Hna, (list_elem_of_lookup_2 _ k). }
  assert (Etk : take (S j) P = take j P ++ [b]) by (by apply take_S_r).
  assert (Elen : length (take j P) = j) by (rewrite length_take; lia).
  exists s2, l2. split; [|split; [done|split; [|split; [|split; [|split]]]]].
  - rewrite seq_S, forM_app. erewrite bind_ok by exact E1. cbn [forM]. by erewrite bind_ok by exact E2.
  - intros z. rewrite C4, P1, Etk. set_solver.
  - intros z. rewrite C1, D1, Etk, over_home_snoc by done. by rewrite HX, Elen.
  - intros z. rewrite C3, HX, V1, Etk, over_home_snoc by done. by rewrite Elen.
  - rewrite C2, T1, seq_S, fmap_app, <- app_assoc, HX, <- Eh. done.
  - congruence.
Qed.

(** The header is written. *)
Lemma write_head_spec s l Q :
  binv s l [] → (∀ z, pinned s z → z ∈ Q) → (length Q < NBUF)%nat → ¬ pinned s st →
  let x := head_data (Z.of_nat (length P)) P (length P) (view s st) in
  ∃ s' l', write_head (mkLst s g) = Ok tt (mkLst s' g) ∧ binv s' l' [] ∧
    (∀ z, pinned s' z ↔ pinned s z) ∧
    (∀ z, disk s' 1 z = if decide (z = st) then x else disk s 1 z) ∧
    (∀ z, view s' z = if decide (z = st) then x else view s z) ∧
    history s' = history s ++ [(1, st, x)] ∧ cur_pid s' = cur_pid s.
Proof.
  intros Hinv HQ Hlen Hnp x.
  assert (Hst : 0 ≤ st < FSSIZE) by (pose proof (lo_start _ _ Hlog); pose proof (lo_size _ _ Hlog); lia).
  assert (Est : u32 st = st) by (apply u32_small; unfold is_u32, FSSIZE in *; lia).
  destruct (bread_spec s l [] st Hinv Hst) as (i & s1 & d & E1 & _ & I1 & K1 & Hh1 & Hd1);
    [set_solver|right; by apply (room_count s l [] Q)|].
  assert (d = false) as -> by (destruct d; [|done]; exfalso; by apply Hnp, Hd1).
  destruct (held_node s1 l [] i st (view s st) false I1 Hh1) as (Hi & Hil & _ & c & Ec & Hcn & Hcx & Hcf & _ & _ & _ & _ & Hb & _).
  assert (Hn : Z.to_nat (lh_n g) = length P) by (rewrite (lo_n _ _ Hlog); lia).
  pose proof (log_ok_LOGSIZE g P Hlog) as Hls.
  assert (Hbl : length (view s st) = 512%nat) by exact Hb.
  assert (Hloop : ∀ j, (j ≤ length P)%nat →
    forM (seq 0 j) (λ i0, v ← get_block i0; on_bio (bmodify i (λ b, set_data (put32 (4 + 4 * i0) (u32 v) (b_data b)) b)))
      (mkLst (bput i (set_data (head_data (lh_n g) P 0 (view s st)) c) s1) g) =
    Ok tt (mkLst (bput i (set_data (head_data (lh_n g) P j (view s st)) c) s1) g)).
  { induction j as [|j IH]; intros Hj; [done|]. destruct (lookup_lt_is_Some_2 P j ltac:(lia)) as [b Eb].
    rewrite seq_S, forM_app. erewrite bind_ok by (apply IH; lia). cbn [forM Nat.add].
    erewrite bind_ok; [done|]. erewrite bind_ok by (by apply log_ok_block with P).
    rewrite (on_bio_ok _ _ _ _ _ (bmodify_put i s1 Hil _ _)).
    by rewrite head_data_S, (nth_lookup_Some _ _ _ _ Eb). }
  assert (Hxb : is_block x) by (unfold is_block, x; rewrite length_head_data by lia; done).
  destruct (held_put s1 l [] i st (view s st) false I1 Hh1 c x false Ec Hxb) as (I2 & Hh2 & V2 & P2 & _).
  assert (Ecf : set_flags 2 (set_data x c) = set_data x c) by (rewrite <- Hcf; by destruct c).
  rewrite Ecf in *. set (s2 := bput i (set_data x c) s1) in *.
  destruct (bwrite_spec s2 l [] i st x false I2 Hh2) as (s3 & E3 & I3 & Hh3 & D3 & T3 & Q3 & V3 & P3 & _).
  destruct (brelse_spec s3 l [] i st x false I3 Hh3) as (s4 & l4 & E4 & I4 & K4).
  { intros _. rewrite D3. by rewrite decide_True. }
  exists s4, l4. split; [|split; [done|split; [|split; [|split; [|split]]]]].
  - unfold write_head. erewrite bind_ok by done. erewrite bind_ok by done. cbn [llog]. rewrite (lo_dev _ _ Hlog), Est.
    erewrite bind_ok by (by apply on_bio_ok). erewrite bind_ok by done. cbn [llog].
    rewrite <- (bput_id i c s1 Ec) at 1. erewrite bind_ok by (apply on_bio_ok; by apply bmodify_put). cbv beta. rewrite Hcx, Hn.
    erewrite bind_ok by (by apply Hloop). rewrite (lo_n _ _ Hlog). fold x s2.
    erewrite bind_ok by (apply on_bio_ok; exact E3). apply on_bio_ok. exact E4.
  - intros z. rewrite (bk_pinned _ _ _ K4), P3, P2. case_decide as Hz; [subst|].
    + split; [by intros [? _]|]. intros Hp. by destruct (Hnp Hp).
    + rewrite (bk_pinned _ _ _ K1). tauto.
  - intros z. rewrite (bk_disk _ _ _ K4), D3. case_decide; [done|]. cbn. by rewrite (bk_disk _ _ _ K1).
  - intros z. rewrite (bk_view _ _ _ K4), V3, V2. case_decide; [done|]. apply (bk_view _ _ _ K1).
  - rewrite (bk_history _ _ _ K4), T3. cbn. by rewrite (bk_history _ _ _ K1).
  - rewrite (bk_pid _ _ _ K4), Q3. cbn. apply (bk_pid _ _ _ K1).
Qed.
End Loops.

(** ** Committing *)

Lemma log_ok_done g P : log_ok g P → log_ok (set_lh_n 0 g) [].
Proof.
  intros [H1 H2 H3 H4 H5 H6 H7 H8]. split; try done; [|set_solver|constructor]. cbn. lia.
Qed.

Section Commit.
Context (g : log) (P : list Z) (s : bio) (l : list nat).
Hypothesis Hlog : log_ok g P.
Hypothesis HP : P ≠ [].
Hypothesis Hlen : (length P < NBUF)%nat.
Hypothesis Hinv : binv s l [].
Hypothesis Hpin : ∀ z, pinned s z ↔ z ∈ P.
Notation st := (lg_start g).
Notation n := (length P).
Notation V k := (view s (nth k P 0)).

Definition head1 : block := head_data (Z.of_nat n) P n (view s st).
Definition head2 : block := head_data 0 [] 0 head1.
Definition log_writes : list (Z * Z * block) := (λ k, (1, st + 1 + Z.of_nat k, V k)) <$> seq 0 n.
Definition home_writes : list (Z * Z * block) := (λ k, (1, nth k P 0, V k)) <$> seq 0 n.
Definition commit_writes : list (Z * Z * block) :=
  log_writes ++ [(1, st, head1)] ++ home_writes ++ [(1, st, head2)].

Lemma st_not_P : st ∉ P.
Proof using Hlog. clear - Hlog. intros [_ Hr]%(lo_range _ _ Hlog). pose proof (lo_size _ _ Hlog). lia. Qed.

(** Outside the log. *)
Definition outside (z : Z) : Prop := z < st ∨ st + lg_size g ≤ z.

Lemma outside_home z : z ∈ P → outside z.
Proof using Hlog. intros [_ Hr]%(lo_range _ _ Hlog). exact Hr. Qed.

Lemma commit_run :
  ∃ s' l', commit (mkLst s g) = Ok tt (mkLst s' (set_lh_n 0 g)) ∧ binv s' l' [] ∧
    (∀ z, ¬ pinned s' z) ∧ history s' = history s ++ commit_writes ∧ cur_pid s' = cur_pid s ∧
    (∀ z, outside z → view s' z = view s z ∧ disk s' 1 z = view s z) ∧ disk s' 1 st = head2.
Proof using All.
  destruct (write_log_loop g P Hlog s l Hlen Hinv Hpin n ltac:(lia)) as (s1 & l1 & E1 & I1 & P1 & D1 & V1 & T1 & Q1).
  pose proof (lo_size _ _ Hlog) as Hsz.
  assert (Hst1 : view s1 st = view s st) by (rewrite V1; apply over_log_out; lia).
  destruct (write_head_spec g P Hlog s1 l1 P I1) as (s2 & l2 & E2 & I2 & P2 & D2 & V2 & T2 & Q2);
    [intros z; by rewrite P1|done|rewrite P1; apply st_not_P|]. rewrite Hst1 in *. fold head1 in *.
  assert (P2' : ∀ z, pinned s2 z ↔ z ∈ P) by (intros z; by rewrite P2, P1).
  assert (HX : ∀ k, (k < n)%nat → view s2 (st + 1 + Z.of_nat k) = V k).
  { intros k Hk. rewrite V2, decide_False by lia. rewrite V1. unfold over_log. rewrite decide_True by lia. do 2 f_equal. lia. }
  destruct (install_loop g P Hlog s2 l2 I2 (λ z, proj1 (P2' z)) ltac:(left; split; [intros z; apply P2'|done]) n ltac:(lia))
    as (s3 & l3 & E3 & I3 & P3 & D3 & V3 & T3 & Q3).
  rewrite firstn_all in *.
  assert (P3' : ∀ z, ¬ pinned s3 z) by (intros z [Hz Hn]%P3; by apply P2' in Hz).
  assert (Hst3 : view s3 st = head1).
  { rewrite V3, over_home_out by apply st_not_P. rewrite V2. by rewrite decide_True. }
  destruct (write_head_spec (set_lh_n 0 g) [] (log_ok_done g P Hlog) s3 l3 [] I3) as (s4 & l4 & E4 & I4 & P4 & D4 & V4 & T4 & Q4);
    [intros z Hz; by destruct (P3' z)|cbn; unfold NBUF; lia|apply P3'|]. cbn [lg_start set_lh_n length] in *. rewrite Hst3 in *.
  exists s4, l4. split; [|split; [done|split; [|split; [|split; [congruence|split]]]]].
  - assert (Hn : lh_n g = Z.of_nat n) by apply Hlog.
    unfold commit. erewrite bind_ok by done. cbn [llog]. rewrite Hn, (proj2 (Z.ltb_lt 0 (Z.of_nat n))) by (destruct P; [done|cbn; lia]).
    cbn [when]. erewrite bind_ok.
    2: { unfold write_log. erewrite bind_ok by done. cbn [llog]. rewrite Hn, Nat2Z.id. exact E1. }
    erewrite bind_ok by exact E2. erewrite bind_ok.
    2: { unfold install_trans. erewrite bind_ok by done. cbn [llog]. rewrite Hn, Nat2Z.id. exact E3. }
    erewrite bind_ok by done. exact E4.
  - intros z Hz%P4. by apply (P3' z).
  - rewrite T4, T3, T2, T1. unfold commit_writes. rewrite <- !app_assoc. do 3 f_equal. f_equal.
    unfold home_writes. apply list_fmap_ext. intros i k Hk%lookup_seq. by rewrite HX by lia.
  - assert (Hv : ∀ z, outside z → view s4 z = view s z).
    { intros z Hz. unfold outside in Hz. rewrite V4, decide_False by lia. rewrite V3.
      destruct (decide (z ∈ P)) as [Hin|Hin].
      - apply list_elem_of_lookup in Hin as [k Hk]. pose proof (lookup_lt_Some _ _ _ Hk).
        rewrite (over_home_elem _ _ _ k z) by (done || apply Hlog). rewrite HX by done.
        by rewrite (nth_lookup_Some _ _ _ _ Hk).
      - rewrite over_home_out by done. rewrite V2, decide_False by lia. rewrite V1. apply over_log_out. lia. }
    intros z Hz. split; [by apply Hv|]. rewrite <- Hv by done. symmetry. apply (view_clean s4 l4 []); [done| |set_solver].
    intros Hp%P4. by apply (P3' z).
  - rewrite D4. by rewrite decide_True.
Qed.
End Commit.

(** ** Recovery *)

Definition load_blocks (x : block) (j : nat) (bl : list Z) : list Z :=
  foldl (λ bl i, <[i:=hd_block x i]> bl) bl (seq 0 j).

Lemma load_blocks_S x j bl : load_blocks x (S j) bl = <[j:=hd_block x j]> (load_blocks x j bl).
Proof. unfold load_blocks. by rewrite seq_S, foldl_app. Qed.

Lemma length_load_blocks x j bl : length (load_blocks x j bl) = length bl.
Proof. induction j as [|j IH]; [done|]. by rewrite load_blocks_S, length_insert. Qed.

Lemma take_load_blocks x j bl :
  (j ≤ length bl)%nat → take j (load_blocks x j bl) = hd_block x <$> seq 0 j.
Proof.
  induction j as [|j IH]; intros Hj; [done|]. rewrite load_blocks_S.
  erewrite take_S_r by (apply list_lookup_insert_eq; rewrite length_load_blocks; lia).
  rewrite take_insert_ge by lia. rewrite IH by lia. by rewrite seq_S, fmap_app.
Qed.

Lemma load_loop b g x j :
  (j ≤ length (lh_block g))%nat →
  forM (seq 0 j) (λ i, put_block i (hd_block x i)) (mkLst b g) =
    Ok tt (mkLst b (set_lh_block (load_blocks x j (lh_block g)) g)).
Proof.
  induction j as [|j IH]; intros Hj; [by destruct g|]. rewrite seq_S, forM_app.
  erewrite bind_ok by (apply IH; lia). cbn [forM Nat.add]. erewrite bind_ok.
  2: { unfold put_block. cbn. rewrite length_load_blocks, decide_True by lia. reflexivity. }
  rewrite load_blocks_S. done.
Qed.

Section Recover.
Context (g : log) (s : bio) (l : list nat).
Notation st := (lg_start g).
Notation x := (disk s 1 st).
Notation n := (Z.to_nat (hd_n x)).
Notation P := (hd_block x <$> seq 0 n).
Hypothesis Hdev : lg_dev g = 1.
Hypothesis Hbl : length (lh_block g) = Z.to_nat LOGSIZE.
Hypothesis Hst : 0 ≤ st ∧ st + lg_size g ≤ FSSIZE.
Hypothesis Hn : 0 ≤ hd_n x ≤ LOGSIZE ∧ hd_n x < lg_size g.
Hypothesis HP : NoDup P ∧ ∀ b, b ∈ P → 0 ≤ b < FSSIZE ∧ outside g b.
Hypothesis Hinv : binv s l [].
Hypothesis Hpin : ∀ z, ¬ pinned s z.

Definition loaded : log := set_lh_block (load_blocks x n (lh_block g)) (set_lh_n (hd_n x) g).

Lemma len_P : length P = n.
Proof. by rewrite length_fmap, length_seq. Qed.

Lemma loaded_ok : log_ok loaded P.
Proof using All.
  assert (Hb : length (lh_block g) = 30%nat) by done. unfold LOGSIZE in Hn.
  split; rewrite ?len_P; try done;
    unfold loaded; cbn [lg_dev lh_n lh_block lg_start lg_size set_lh_block set_lh_n].
  - lia.
  - by rewrite length_load_blocks.
  - apply take_load_blocks. lia.
  - lia.
  - lia.
  - apply HP.
  - apply HP.
Qed.

Lemma read_head_spec :
  ∃ s' l', read_head (mkLst s g) = Ok tt (mkLst s' loaded) ∧ binv s' l' [] ∧ bkeep [] s s'.
Proof using All.
  assert (Est : u32 st = st) by (apply u32_small; unfold is_u32, FSSIZE in *; lia).
  destruct (bread_spec s l [] st Hinv) as (i & s1 & d & E1 & _ & I1 & K1 & Hh1 & Hd1);
    [lia|set_solver|right; apply (room_count s l [] [] Hinv); [by intros z ?%Hpin|cbn; unfold NBUF; lia]|].
  assert (d = false) as -> by (destruct d; [|done]; exfalso; by eapply Hpin, Hd1).
  assert (Hv : view s st = x) by (apply (view_clean s l []); [done|apply Hpin|set_solver]).
  destruct (brelse_spec s1 l [] i st (view s st) false I1 Hh1) as (s2 & l2 & E2 & I2 & K2).
  { intros _. by rewrite (bk_disk _ _ _ K1). }
  exists s2, l2. split; [|split; [done|]].
  - unfold read_head. erewrite bind_ok by done. erewrite bind_ok by done. cbn [llog]. rewrite Hdev, Est.
    erewrite bind_ok by (by apply on_bio_ok). destruct Hh1 as (c & Ec & _ & Ecx & _).
    erewrite bind_ok by (apply on_bio_ok; by apply bnode_eq). rewrite Ecx, Hv.
    erewrite bind_ok by done. erewrite bind_ok by done. cbn [llog set_llog lh_n set_lh_n].
    erewrite bind_ok by (apply load_loop; cbn; rewrite Hbl; lia). by apply on_bio_ok.
  - destruct K1 as [A1 A2 A3 A4 A5 _], K2 as [B1 B2 B3 B4 B5 _]. split; try congruence; [|set_solver].
    intros z. by rewrite B5, A5.
Qed.

Lemma recover_run :
  ∃ s' l' bl, recover_from_log (mkLst s g) = Ok tt (mkLst s' (set_lh_block bl (set_lh_n 0 g))) ∧ binv s' l' [] ∧
    (∀ z, ¬ pinned s' z) ∧ hd_n (disk s' 1 st) = 0 ∧
    ∀ z, z ≠ st → disk s' 1 z = over_home P (λ k, disk s 1 (st + 1 + Z.of_nat k)) (disk s 1) z.
Proof using All.
  destruct read_head_spec as (s1 & l1 & E1 & I1 & [A1 A2 A3 A4 A5 _]). pose proof loaded_ok as Hlok.
  assert (P1 : ∀ z, ¬ pinned s1 z) by (intros z Hz%A5; by apply (Hpin z)).
  assert (Hcl : ∀ z, view s z = disk s 1 z) by (intros z; apply (view_clean s l []); [done|apply Hpin|set_solver]).
  destruct (install_loop loaded P Hlok s1 l1 I1 ltac:(intros z Hz; by destruct (P1 z)) ltac:(by right) n ltac:(rewrite len_P; lia))
    as (s2 & l2 & E2 & I2 & P2 & D2 & V2 & T2 & Q2).
  assert (P2' : ∀ z, ¬ pinned s2 z) by (intros z [Hz _]%P2; by apply (P1 z)).
  rewrite (take_ge P) in * by (rewrite len_P; lia).
  destruct (write_head_spec (set_lh_n 0 loaded) [] (log_ok_done _ _ Hlok) s2 l2 [] I2) as (s3 & l3 & E3 & I3 & P3 & D3 & V3 & T3 & Q3);
    [intros z Hz; by destruct (P2' z)|cbn; unfold NBUF; lia|apply P2'|]. cbn [lg_start set_lh_n loaded set_lh_block length] in *.
  exists s3, l3, (load_blocks x n (lh_block g)). split; [|split; [done|split; [|split]]].
  - unfold recover_from_log. erewrite bind_ok by exact E1. erewrite bind_ok.
    2: { unfold install_trans. erewrite bind_ok by done. exact E2. }
    erewrite bind_ok by done. exact E3.
  - intros z Hz%P3. by apply (P2' z).
  - rewrite D3, decide_True by done. apply head_data_n; [|lia].
    assert (Hb : is_block (view s2 st)); [|unfold is_block in Hb; change (Z.to_nat BSIZE) with 512%nat in Hb; lia].
    assert (E : view s2 st = disk s2 1 st) by (apply (view_clean s2 l2 []); [done|apply P2'|set_solver]).
    rewrite E. apply I2.
  - intros z Hz. rewrite D3, decide_False by done. rewrite D2. rewrite A1. unfold over_home.
    destruct (list_find _ P) as [[k b]|]; [|done]. by rewrite A4, Hcl.
Qed.
End Recover.

(** ** Crashes

    The disk after the writes [W]; a write of one block is atomic. *)

Definition crash_disk (d : Z → block) (W : list (Z * Z * block)) : Z → block :=
  foldl (λ d w z, if decide (z = w.1.2) then w.2 else d z) d W.

Lemma crash_disk_app d W1 W2 : crash_disk d (W1 ++ W2) = crash_disk (crash_disk d W1) W2.
Proof. unfold crash_disk. by rewrite foldl_app. Qed.

Lemma crash_log d st X j z :
  crash_disk d ((λ k, (1, st + 1 + Z.of_nat k, X k)) <$> seq 0 j) z = over_log st X j d z.
Proof.
  induction j as [|j IH]; [unfold over_log; by rewrite decide_False by lia|].
  rewrite seq_S, fmap_app, crash_disk_app, over_log_step, <- IH. done.
Qed.

Lemma crash_home d P X j z :
  NoDup P → (j ≤ length P)%nat →
  crash_disk d ((λ k, (1, nth k P 0, X k)) <$> seq 0 j) z = over_home (take j P) X d z.
Proof.
  intros Hnd. induction j as [|j IH]; intros Hj; [done|].
  destruct (lookup_lt_is_Some_2 P j ltac:(lia)) as [b Eb].
  rewrite seq_S, fmap_app, crash_disk_app. cbn. rewrite (nth_lookup_Some _ _ _ _ Eb).
  rewrite (take_S_r P j b) by done. rewrite over_home_snoc.
  - rewrite length_take. replace (j `min` length P)%nat with j by lia. rewrite <- IH by lia. done.
  - intros (k & [Hk Hkj]%lookup_take_Some)%list_elem_of_lookup. pose proof (NoDup_lookup _ _ _ _ Hnd Hk Eb). lia.
Qed.

Section Crash.
Context (g : log) (P : list Z) (s : bio) (l : list nat).
Hypothesis Hlog : log_ok g P.
Hypothesis Hinv : binv s l [].
Hypothesis Hpin : ∀ z, pinned s z ↔ z ∈ P.
Hypothesis Hclean : hd_n (disk s 1 (lg_start g)) = 0.
Notation st := (lg_start g).
Notation n := (length P).
Notation V := (λ k, view s (nth k P 0)).

(** What the disk looks like after the first [m] writes of the commit. *)
Lemma crash_before m z :
  (m ≤ n)%nat → crash_disk (disk s 1) (take m (commit_writes g P s)) z = over_log st V m (disk s 1) z.
Proof using All.
  intros Hm. unfold commit_writes, log_writes. rewrite take_app_le by (rewrite length_fmap, length_seq; lia).
  rewrite <- fmap_take, take_seq. replace (m `min` n)%nat with m by lia. apply crash_log.
Qed.

Lemma crash_after m z :
  (n < m)%nat → (m ≤ S (n + n))%nat →
  crash_disk (disk s 1) (take m (commit_writes g P s)) z =
    over_home (take (m - S n) P) V (λ z, if decide (z = st) then head1 g P s else over_log st V n (disk s 1) z) z.
Proof using All.
  intros Hm Hm2. unfold commit_writes. rewrite take_app_ge by (unfold log_writes; rewrite length_fmap, length_seq; lia).
  rewrite crash_disk_app. unfold log_writes at 2. rewrite length_fmap, length_seq. rewrite take_app_ge by (cbn; lia).
  rewrite crash_disk_app. cbn [length]. unfold home_writes. rewrite take_app_le by (rewrite length_fmap, length_seq; lia).
  rewrite <- fmap_take, take_seq. replace ((m - n - 1) `min` n)%nat with (m - S n)%nat by lia.
  rewrite crash_home by (apply Hlog || lia). unfold over_home. destruct (list_find _ _) as [[k b]|]; [done|].
  cbn. case_decide; [done|]. apply crash_log.
Qed.

Lemma crash_end m z :
  (S (n + n) < m)%nat → crash_disk (disk s 1) (take m (commit_writes g P s)) z =
    if decide (z = st) then head2 g P s
    else over_home P V (over_log st V n (disk s 1)) z.
Proof using All.
  intros Hm. rewrite take_ge.
  2: { unfold commit_writes, log_writes, home_writes. rewrite !length_app, !length_fmap, !length_seq. cbn. lia. }
  unfold commit_writes. rewrite !crash_disk_app. cbn. case_decide as Hz; [done|]. unfold home_writes.
  rewrite crash_home by (apply Hlog || lia). rewrite firstn_all. unfold over_home.
  destruct (list_find _ _) as [[k b]|]; [done|]. rewrite decide_False by done. apply crash_log.
Qed.

Lemma view_disk z : z ∉ P → view s z = disk s 1 z.
Proof using Hinv Hpin.
  clear - Hinv Hpin. intros Hz. apply (view_clean s l []); [done|by rewrite Hpin|set_solver].
Qed.

Lemma len_view z : length (view s z) = 512%nat.
Proof using Hinv.
  clear - Hinv. destruct (cached_dec s z) as [(j & c & Hj & Ec & Hcd & <-)|Hun].
  - rewrite (view_cached s l [] j c) by done. destruct (bi_buf _ _ _ Hinv j c Hj Ec) as [[(_ & _ & _ & ?)|[? _]] _]; [done|lia].
  - rewrite view_uncached by done. apply Hinv.
Qed.

Lemma head1_blocks : hd_n (head1 g P s) = Z.of_nat n ∧ hd_block (head1 g P s) <$> seq 0 n = P ∧ hd_n (head2 g P s) = 0.
Proof using All.
  pose proof (log_ok_LOGSIZE g P Hlog). pose proof (len_view st). split; [|split].
  - apply head_data_n; lia.
  - apply list_eq. intros k. rewrite list_lookup_fmap. destruct (decide (k < n)%nat) as [Hk|Hk].
    + rewrite lookup_seq_lt by done. cbn [fmap option_fmap option_map Nat.add].
      destruct (lookup_lt_is_Some_2 P k Hk) as [b Eb]. rewrite Eb. f_equal. apply (head_data_block _ P n _ k b); [lia|lia|done|].
      apply list_elem_of_lookup_2 in Eb. destruct (lo_range _ _ Hlog b Eb) as [Hr _]. unfold FSSIZE in Hr. lia.
    + rewrite lookup_seq_ge by lia. symmetry. apply lookup_ge_None_2. lia.
  - apply head_data_n; [|lia]. unfold head1. rewrite length_head_data; lia.
Qed.

(** What recovery finds in the header. *)
Lemma crash_header m :
  let d := crash_disk (disk s 1) (take m (commit_writes g P s)) in
  let Q := hd_block (d st) <$> seq 0 (Z.to_nat (hd_n (d st))) in
  (hd_n (d st) = 0 ∧ Q = [] ∨ hd_n (d st) = Z.of_nat n ∧ Q = P) ∧
  ∀ z, outside g z →
    over_home Q (λ k, d (st + 1 + Z.of_nat k)) d z = if decide (m ≤ n)%nat then disk s 1 z else view s z.
Proof using All.
  intros d Q. destruct head1_blocks as (Hh1 & Hh2 & Hh3). pose proof (lo_size _ _ Hlog) as Hsz.
  assert (Hstn : st ∉ P) by (by apply st_not_P). unfold outside.
  assert (Hfull : ∀ z, z < st ∨ st + lg_size g ≤ z → over_home P V (disk s 1) z = view s z).
  { intros z Hz. destruct (decide (z ∈ P)) as [Hin|Hin].
    - apply list_elem_of_lookup in Hin as [k Hk]. rewrite (over_home_elem _ _ _ k z) by (done || apply Hlog).
      by rewrite (nth_lookup_Some _ _ _ _ Hk).
    - rewrite over_home_out by done. symmetry. by apply view_disk. }
  destruct (decide (m ≤ n)%nat) as [Hm|Hm]; [|destruct (decide (m ≤ S (n + n))%nat) as [Hm2|Hm2]].
  - assert (Ed : ∀ z, d z = over_log st V m (disk s 1) z) by (intros; by apply crash_before).
    assert (Est : d st = disk s 1 st) by (rewrite Ed; apply over_log_out; lia).
    assert (EQ : Q = []) by (unfold Q; by rewrite Est, Hclean). rewrite Est. split; [by left|].
    intros z Hz. rewrite EQ. unfold over_home. cbn. rewrite Ed. apply over_log_out. lia.
  - assert (Ed := λ z, crash_after m z ltac:(lia) Hm2). fold d in Ed.
    assert (Ht : ∀ z, z ∉ P → z ∉ take (m - S n) P) by (intros z Hz Hin; apply Hz; by eapply elem_of_take in Hin as (? & ? & _); eapply list_elem_of_lookup_2).
    assert (Est : d st = head1 g P s) by (rewrite Ed, over_home_out by auto; by rewrite decide_True).
    assert (EQ : Q = P) by (unfold Q; by rewrite Est, Hh1, Nat2Z.id). rewrite Est. split; [right; done|].
    intros z Hz. rewrite EQ, <- Hfull by done. destruct (decide (z ∈ P)) as [Hin|Hin].
    + apply list_elem_of_lookup in Hin as [k Hk]. pose proof (lookup_lt_Some _ _ _ Hk).
      rewrite !(over_home_elem _ _ _ k z) by (done || apply Hlog). rewrite Ed.
      destruct (log_addr g P Hlog k ltac:(done)) as (_ & _ & Hna). rewrite over_home_out by auto.
      rewrite decide_False by lia. unfold over_log. rewrite decide_True by lia. do 2 f_equal. lia.
    + rewrite !over_home_out by done. rewrite Ed, over_home_out by auto. rewrite decide_False by lia.
      apply over_log_out. lia.
  - assert (Ed := λ z, crash_end m z ltac:(lia)). fold d in Ed.
    assert (Est : d st = head2 g P s) by (rewrite Ed; by rewrite decide_True).
    assert (EQ : Q = []) by (unfold Q; by rewrite Est, Hh3). rewrite Est. split; [by left|].
    intros z Hz. rewrite EQ. unfold over_home at 1. cbn. rewrite Ed, decide_False by lia.
    rewrite <- Hfull by done. unfold over_home. destruct (list_find _ _) as [[k b]|]; [done|]. apply over_log_out. lia.
Qed.
End Crash.

(** C5. A commit is atomic.  [commit] writes the new contents of the blocks of
    the transaction to the disk, without changing what the file system sees; and
    if the machine stops after any number [m] of its disk writes, recovery at
    the next boot succeeds, empties the log, and leaves all blocks outside the
    log either with their old contents ([m] at most the number of blocks) or all
    with their new ones. *)
Theorem commit_crash_safe (g : log) (P : list Z) (s : bio) (l : list nat) :
  log_ok g P → P ≠ [] → (length P < NBUF)%nat → binv s l [] → (∀ z, pinned s z ↔ z ∈ P) →
  hd_n (disk s 1 (lg_start g)) = 0 →
  ∃ s' l' W, commit (mkLst s g) = Ok tt (mkLst s' (set_lh_n 0 g)) ∧ binv s' l' [] ∧ (∀ z, ¬ pinned s' z) ∧
    history s' = history s ++ W ∧
    (∀ z, outside g z → view s' z = view s z ∧ disk s' 1 z = view s z) ∧
    ∀ m r lr gr, binv r lr [] → (∀ z, ¬ pinned r z) →
      (∀ z, disk r 1 z = crash_disk (disk s 1) (take m W) z) →
      lg_dev gr = 1 → lg_start gr = lg_start g → lg_size gr = lg_size g → length (lh_block gr) = Z.to_nat LOGSIZE →
      ∃ r' gr', recover_from_log (mkLst r gr) = Ok tt (mkLst r' gr') ∧ lh_n gr' = 0 ∧
        hd_n (disk r' 1 (lg_start g)) = 0 ∧
        ∀ z, outside g z → disk r' 1 z = if decide (m ≤ length P)%nat then disk s 1 z else view s z.
Proof.
  intros Hlog HP Hlen Hinv Hpin Hclean.
  destruct (commit_run g P s l Hlog HP Hlen Hinv Hpin) as (s' & l' & E & I & Hnp & T & _ & Hv & _).
  exists s', l', (commit_writes g P s). split_and!; try done.
  intros m r lr gr Ir Hr Hd Hdev Hst Hsz Hbl.
  destruct (crash_header g P s l Hlog Hinv Hpin Hclean m) as [Hq Hz]. cbv zeta in Hq, Hz.
  pose proof (lo_size _ _ Hlog) as [Hs1 Hs2]. pose proof (log_ok_LOGSIZE g P Hlog) as Hls. pose proof (lo_start _ _ Hlog) as Hs0.
  assert (Hro : ∀ z, outside gr z ↔ outside g z) by (intros z; unfold outside; by rewrite Hst, Hsz).
  assert (Eh : disk r 1 (lg_start gr) = crash_disk (disk s 1) (take m (commit_writes g P s)) (lg_start g)) by (by rewrite Hst, Hd).
  destruct (recover_run gr r lr) as (r' & lr' & bl & Er & Ir' & Hnr & Hhr & Hdr); rewrite ?Eh; try done.
  - rewrite Hst, Hsz. lia.
  - rewrite Hsz. unfold LOGSIZE. destruct Hq as [[-> _]|[-> _]]; lia.
  - destruct Hq as [[_ ->]|[_ ->]]; [split; [constructor|set_solver]|]. split; [apply Hlog|].
    intros b Hb. rewrite Hro. by apply (lo_range _ _ Hlog).
  - exists r'. eexists. split; [exact Er|]. split; [done|]. rewrite <- Hst. split; [done|].
    intros z Hoz. rewrite Hdr, Eh, Hst by (rewrite ?Hst; unfold outside in Hoz; lia).
    rewrite <- Hz by done. unfold over_home. destruct (list_find _ _) as [[k b]|]; by rewrite Hd.
Qed.

(** ** Recording a block *)

(** The transaction after a write of [bn]: a block is logged once. *)
Definition logged (P : list Z) (bn : Z) : list Z := if decide (bn ∈ P) then P else P ++ [bn].

Lemma elem_logged P bn z : z ∈ logged P bn ↔ z = bn ∨ z ∈ P.
Proof. unfold logged. case_decide; set_solver. Qed.

Section LogWrite.
Context (g : log) (P : list Z) (s : bio) (l H : list nat) (i : nat) (bn : Z) (x : block) (d : bool).
Hypothesis Hlog : log_ok g P.
Hypothesis Hinv : binv s l (i :: H).
Hypothesis Hh : holds s i bn x d.
Hypothesis Hpin : ∀ z, pinned s z ↔ z ∈ P.
Hypothesis Hroom : Z.of_nat (length P) < LOGSIZE ∧ Z.of_nat (length P) < lg_size g - 1.
Hypothesis Hout : 1 ≤ lg_outstanding g.
Hypothesis Hbn : outside g bn.

Lemma absorb_spec :
  ∃ k bl, absorb (lh_n g) (lh_block g) bn = k ∧ (k < length (lh_block g))%nat ∧
    <[k:=bn]> (lh_block g) = bl ∧ length bl = Z.to_nat LOGSIZE ∧ take (length (logged P bn)) bl = logged P bn ∧
    (if Z.of_nat k =? lh_n g then lh_n g + 1 else lh_n g) = Z.of_nat (length (logged P bn)).
Proof using All.
  assert (Hb30 : length (lh_block g) = 30%nat) by apply Hlog. unfold LOGSIZE in Hroom.
  assert (Hn : Z.to_nat (lh_n g) = length P) by (rewrite (lo_n _ _ Hlog); lia).
  unfold absorb. rewrite Hn, (lo_blocks _ _ Hlog). unfold logged.
  destruct (decide (bn ∈ P)) as [Hin|Hin].
  - apply list_elem_of_lookup in Hin as [k Hk]. pose proof (lookup_lt_Some _ _ _ Hk) as Hlt.
    assert (E : list_find (λ v, u32 v = bn) P = Some (k, bn)).
    { apply list_find_Some. split; [done|]. split; [by apply (log_home g P Hlog k bn)|]. intros j y Hj Hlt' Hu.
      assert (y = bn) as -> by (by destruct (log_home g P Hlog j y Hj) as (<- & _)).
      pose proof (NoDup_lookup _ _ _ _ (lo_nodup _ _ Hlog) Hj Hk). lia. }
    rewrite E. exists k, (<[k:=bn]> (lh_block g)). split_and!; try done; [lia|by rewrite length_insert| |].
    + rewrite list_insert_id; [apply Hlog|]. rewrite <- (lookup_take_lt _ (length P)) by done. by rewrite (lo_blocks _ _ Hlog).
    + rewrite (lo_n _ _ Hlog), (proj2 (Z.eqb_neq _ _)) by lia. done.
  - assert (E : list_find (λ v, u32 v = bn) P = None).
    { apply list_find_absent. intros y Hy Hu. apply Hin. apply list_elem_of_lookup in Hy as [k Hk].
      destruct (log_home g P Hlog k y Hk) as (E & _ & Hy). by rewrite <- Hu, E. }
    rewrite E. exists (length P), (<[length P:=bn]> (lh_block g)). split_and!; try done; [lia|by rewrite length_insert| |].
    + rewrite length_app. cbn [length]. rewrite Nat.add_1_r.
      erewrite take_S_r by (apply list_lookup_insert_eq; lia). rewrite take_insert_ge by lia. by rewrite (lo_blocks _ _ Hlog).
    + rewrite (lo_n _ _ Hlog), Z.eqb_refl, length_app. cbn. lia.
Qed.

Lemma log_write_spec :
  ∃ s' g', log_write i (mkLst s g) = Ok tt (mkLst s' g') ∧ binv s' l (i :: H) ∧ holds s' i bn x true ∧
    log_ok g' (logged P bn) ∧ (∀ z, pinned s' z ↔ z ∈ logged P bn) ∧ (∀ z, view s' z = view s z) ∧
    disk s' = disk s ∧ history s' = history s ∧ cur_pid s' = cur_pid s ∧
    lg_start g' = lg_start g ∧ lg_size g' = lg_size g ∧ lg_outstanding g' = lg_outstanding g ∧ lg_committing g' = lg_committing g ∧
    (∀ j z w e, j ∈ H → holds s' j z w e ↔ holds s j z w e).
Proof using All.
  destruct (held_node s l H i bn x d Hinv Hh) as (Hi & Hil & HiH & c & Ec & Hcn & Hcx & Hcf & _ & _ & _ & Hbr & Hb & _).
  destruct (held_put s l H i bn x d Hinv Hh c x true Ec Hb) as (I1 & Hh1 & V1 & P1 & O1).
  assert (Ef : set_flags (Z.lor (b_flags c) B_DIRTY) c = set_flags 6 (set_data x c)).
  { rewrite <- Hcx, Hcf. destruct c. by destruct d. }
  destruct absorb_spec as (k & bl & Ek & Hk & Ebl & Hlbl & Htk & En).
  set (g' := mkLog (lg_start g) (lg_size g) (lg_outstanding g) (lg_committing g) (lg_dev g) (Z.of_nat (length (logged P bn))) bl).
  exists (bput i (set_flags 6 (set_data x c)) s), g'. split; [|split; [done|split; [done|split; [|split; [|split]]]]].
  - assert (Et : (LOGSIZE <=? lh_n g) || (lg_size g - 1 <=? lh_n g) = false).
    { rewrite (lo_n _ _ Hlog). by rewrite (proj2 (Z.leb_gt LOGSIZE _)), (proj2 (Z.leb_gt (lg_size g - 1) _)) by lia. }
    unfold log_write. erewrite bind_ok by done. erewrite bind_ok by done. cbn [llog]. rewrite Et.
    erewrite bind_ok by done. cbn [llog]. rewrite (proj2 (Z.ltb_ge (lg_outstanding g) 1)) by lia.
    erewrite bind_ok by (apply on_bio_ok; by apply bnode_eq). erewrite bind_ok by done. cbn [llog]. rewrite Hcn, Ek.
    erewrite bind_ok.
    2: { unfold put_block. cbn [llog]. rewrite decide_True by done. rewrite s32_small by (unfold FSSIZE in Hbr; lia). by rewrite Ebl. }
    rewrite (bind_ok _ _ _ tt (mkLst s g')).
    2: { cbn [when]. unfold g'. rewrite <- En. by destruct (Z.of_nat k =? lh_n g). }
    rewrite <- (bput_id i c s Ec) at 1. rewrite (on_bio_ok _ _ _ _ _ (bmodify_put i s Hil _ _)). by rewrite Ef.
  - destruct Hlog as [L1 L2 L3 L4 L5 L6 L7 L8]. split; try done; cbn.
    + unfold logged. case_decide; [lia|]. rewrite length_app. cbn. lia.
    + intros b [->|Hb']%elem_logged; [|by apply L7]. split; [done|]. exact Hbn.
    + unfold logged. case_decide; [done|]. apply NoDup_app. split; [done|]. split; [set_solver|apply NoDup_singleton].
  - intros z. rewrite P1, elem_logged. case_decide; [naive_solver|]. rewrite Hpin. naive_solver.
  - intros z. rewrite V1. case_decide as Hz; [|done]. subst z. symmetry. by apply (held_view s l H i bn x d).
  - split_and!; try done.
Qed.
End LogWrite.

(** [log_write] pins the block and records it once: afterwards the
    transaction consists of the old blocks and this one, and nothing the file
    system sees has changed.  A block that is already part of the transaction
    takes no further room in the log. *)
Theorem log_write_absorbs g P s l H i bn x d :
  log_ok g P → binv s l (i :: H) → holds s i bn x d → (∀ z, pinned s z ↔ z ∈ P) →
  Z.of_nat (length P) < LOGSIZE ∧ Z.of_nat (length P) < lg_size g - 1 → 1 ≤ lg_outstanding g → outside g bn →
  ∃ s' g', log_write i (mkLst s g) = Ok tt (mkLst s' g') ∧ binv s' l (i :: H) ∧ holds s' i bn x true ∧
    log_ok g' (logged P bn) ∧ (∀ z, pinned s' z ↔ z ∈ logged P bn) ∧ (∀ z, view s' z = view s z) ∧ disk s' = disk s.
Proof.
  intros. destruct (log_write_spec g P s l H i bn x d) as (s' & g' & ?); try done.
  exists s', g'. tauto.
Qed.

(** The reservation of [begin_op] is one block too generous for the log
    that [mkfs] makes: three operations are admitted into an empty log of
    [LOGSIZE] blocks, each with a right to [MAXOPBLOCKS] blocks, but [log_write]
    panics on the last of these blocks, since one log block is the header. *)
Theorem reservation_exceeds_log s g :
  lg_committing g = false → lh_n g = 0 → lg_outstanding g = 0 → lg_size g = LOGSIZE →
  (begin_op ;; begin_op ;; begin_op) (mkLst s g) = Ok tt (mkLst s (set_outstanding 3 g)) ∧
  ∀ i b bl, log_write i (mkLst b (set_lh_block bl (set_lh_n (3 * MAXOPBLOCKS - 1) (set_outstanding 3 g)))) =
    Err (Panic "too big a transaction").
Proof.
  intros Hc Hn Ho Hs. destruct g as [start size o cm dev n bl0]. cbn in Hc, Hn, Ho, Hs. subst.
  split; [reflexivity|]. by intros i b bl.
Qed.

(** ** A concrete transaction: block 500 is filled with ones *)

Definition demo_log : log := mkLog 2 30 1 false 1 0 (replicate 30 0).
Definition ones : block := replicate 512 1.

Definition fill_ones : M lst unit :=
  i ← on_bio (bread 1 500);
  on_bio (bmodify i (set_data ones)) ;;
  log_write i ;;
  on_bio (brelse i).

Definition log_demo : lst :=
  match fill_ones (mkLst bio_demo demo_log) with Ok _ s => s | Err _ => mkLst bio_demo demo_log end.

Lemma demo_log_ok : log_ok demo_log [].
Proof. split; try done; [set_solver|constructor]. Qed.

Lemma fill_held s0 l :
  binv s0 l [] → (∀ z, ¬ pinned s0 z) → room s0 →
  ∃ i s, (i0 ← bread 1 500; bmodify i0 (set_data ones) ;; mret i0) s0 = Ok i s ∧ binv s l [i] ∧ holds s i 500 ones false ∧
    (∀ z, ¬ pinned s z) ∧ disk s = disk s0.
Proof.
  intros Hi Hnp Hr. destruct (bread_spec s0 l [] 500 Hi) as (i & s1 & d & E1 & _ & I1 & K1 & Hh1 & Hd1);
    [done|set_solver|by right|].
  assert (d = false) as -> by (destruct d; [|done]; exfalso; by apply (Hnp 500), Hd1).
  destruct (held_node _ _ _ _ _ _ _ I1 Hh1) as (_ & Hil & _ & c & Ec & _ & _ & Hcf & _).
  destruct (held_put _ _ _ _ _ _ _ I1 Hh1 c ones false Ec ltac:(done)) as (I2 & Hh2 & V2 & P2 & _).
  eexists i, _. split; [|split; [exact I2|split; [exact Hh2|split]]].
  - erewrite bind_ok by exact E1. rewrite <- (bput_id i c s1 Ec) at 1.
    erewrite bind_ok by (by apply bmodify_put). unfold mret, M_ret. do 2 f_equal. rewrite <- Hcf. by destruct c.
  - intros z. rewrite P2. case_decide; [done|]. rewrite (bk_pinned _ _ _ K1). apply Hnp.
  - cbn. by rewrite (bk_disk _ _ _ K1).
Qed.

Lemma demo_held :
  ∃ i s l, (i0 ← bread 1 500; bmodify i0 (set_data ones) ;; mret i0) bio_demo = Ok i s ∧ binv s l [i] ∧ holds s i 500 ones false ∧
    (∀ z, ¬ pinned s z) ∧ disk s = disk zero_bio.
Proof.
  destruct bio_demo_ok as (Hi & _ & Hd & Hnp & Hr).
  destruct (fill_held bio_demo _ Hi Hnp Hr) as (i & s & E & I & Hh & Hn & D).
  exists i, s. eexists. split; [exact E|]. split; [exact I|]. split; [exact Hh|]. split; [exact Hn|].
  rewrite D. exact Hd.
Qed.

Lemma fill_logged s l i :
  binv s l [i] → holds s i 500 ones false → (∀ z, ¬ pinned s z) →
  ∃ s3 g2 s2 l3, log_write i (mkLst s demo_log) = Ok tt (mkLst s2 g2) ∧ brelse i s2 = Ok tt s3 ∧
    log_ok g2 [500] ∧ binv s3 l3 [] ∧ (∀ z, pinned s3 z ↔ z ∈ [500]) ∧ disk s3 = disk s ∧ lg_start g2 = 2.
Proof.
  intros Hi Hh Hnp.
  destruct (log_write_spec demo_log [] s l [] i 500 ones false) as (s2 & g2 & E2 & I2 & Hh2 & L2 & P2 & V2 & D2 & _ & _ & S2 & _);
    try done; [apply demo_log_ok|split; [by intros ?%Hnp|set_solver]|right; cbn; lia|].
  destruct (brelse_spec s2 l [] i 500 ones true I2 Hh2) as (s3 & l3 & E3 & I3 & K3); [done|].
  exists s3, g2, s2, l3. split_and!; try done.
  - intros z. rewrite (bk_pinned _ _ _ K3), P2. done.
  - by rewrite (bk_disk _ _ _ K3), D2.
Qed.

Lemma log_demo_ok :
  ∃ l, log_ok (llog log_demo) [500] ∧ binv (lbio log_demo) l [] ∧ (∀ z, pinned (lbio log_demo) z ↔ z ∈ [500]) ∧
    hd_n (disk (lbio log_demo) 1 (lg_start (llog log_demo))) = 0.
Proof.
  destruct demo_held as (i & s & l & E & Hi & Hh & Hnp & Hd).
  destruct (fill_logged s l i Hi Hh Hnp) as (s3 & g2 & s2 & l3 & E2 & E3 & L2 & I3 & P3 & D3 & S2).
  assert (Ef : fill_ones (mkLst bio_demo demo_log) = Ok tt (mkLst s3 g2)).
  { unfold fill_ones. apply bind_inv in E as (j & s0 & E0 & E). apply bind_inv in E as ([] & s1 & E1 & E). injection E as -> ->.
    rewrite (bind_ok _ _ _ _ _ (on_bio_ok _ _ demo_log _ _ E0)).
    rewrite (bind_ok _ _ _ _ _ (on_bio_ok _ _ demo_log _ _ E1)).
    rewrite (bind_ok _ _ _ _ _ E2). exact (on_bio_ok _ _ g2 _ _ E3). }
  exists l3. unfold log_demo. rewrite Ef. cbn [lbio llog]. split; [exact L2|]. split; [exact I3|]. split; [exact P3|].
  rewrite D3, Hd, S2. reflexivity.
Qed.

Lemma commit_crash_safe_witness :
  ∃ s' l' W, commit (mkLst (lbio log_demo) (llog log_demo)) = Ok tt (mkLst s' (set_lh_n 0 (llog log_demo))) ∧ binv s' l' [] ∧
    history s' = history (lbio log_demo) ++ W ∧
    ∀ m r lr gr, binv r lr [] → (∀ z, ¬ pinned r z) →
      (∀ z, disk r 1 z = crash_disk (disk (lbio log_demo) 1) (take m W) z) →
      lg_dev gr = 1 → lg_start gr = lg_start (llog log_demo) → lg_size gr = lg_size (llog log_demo) →
      length (lh_block gr) = Z.to_nat LOGSIZE →
      ∃ r' gr', recover_from_log (mkLst r gr) = Ok tt (mkLst r' gr') ∧
        ∀ z, outside (llog log_demo) z → disk r' 1 z =
          if decide (m ≤ 1)%nat then disk (lbio log_demo) 1 z else view (lbio log_demo) z.
Proof.
  destruct log_demo_ok as (l & Hlog & Hi & Hp & Hh).
  destruct (commit_crash_safe (llog log_demo) [500] (lbio log_demo) l) as (s' & l' & W & E & I & _ & T & _ & Hc);
    [exact Hlog|done|cbn; unfold NBUF; lia|exact Hi|exact Hp|exact Hh|].
  exists s', l', W. split; [exact E|]. split; [exact I|]. split; [exact T|].
  intros m r lr gr H1 H2 H3 H4 H5 H6 H7. destruct (Hc m r lr gr H1 H2 H3 H4 H5 H6 H7) as (r' & gr' & E' & _ & _ & Hz).
  exists r', gr'. split; [exact E'|exact Hz].
Defined.

Lemma log_write_absorbs_witness :
  ∃ i s l s' g', binv s l [i] ∧ log_write i (mkLst s demo_log) = Ok tt (mkLst s' g') ∧
    binv s' l [i] ∧ holds s' i 500 ones true ∧ log_ok g' [500].
Proof.
  destruct demo_held as (i & s & l & E & Hi & Hh & Hnp & Hd). exists i, s, l.
  destruct (log_write_absorbs demo_log [] s l [] i 500 ones false) as (s' & g' & E' & I' & H' & L' & _).
  - apply demo_log_ok.
  - exact Hi.
  - exact Hh.
  - clear E. split; [by intros ?%Hnp|set_solver].
  - split; reflexivity.
  - discriminate.
  - right. cbn. discriminate.
  - exists s', g'. split; [exact Hi|]. split; [exact E'|]. split; [exact I'|]. split; [exact H'|exact L'].
Defined.

Lemma reservation_exceeds_log_witness :
  (begin_op ;; begin_op ;; begin_op) (mkLst bio_demo (set_outstanding 0 demo_log)) =
    Ok tt (mkLst bio_demo (set_outstanding 3 demo_log)) ∧
  ∀ i b bl, log_write i (mkLst b (set_lh_block bl (set_lh_n (3 * MAXOPBLOCKS - 1) (set_outstanding 3 demo_log)))) =
    Err (Panic "too big a transaction").
Proof. apply (reservation_exceeds_log bio_demo (set_outstanding 0 demo_log)); reflexivity. Defined.
