(* ===== verification/Kbd.v ===== *)
(** * Kbd: the keyboard, [kbd.c] and [kbd.h]

    From the scan codes the keyboard sends to characters. *)

From S2P Require Import Prelude Mmu.

Definition SHIFT := 1.
Definition CTL := 2.
Definition ALT := 4.
Definition CAPSLOCK := 8.
Definition NUMLOCK := 16.
Definition SCROLLLOCK := 32.
Definition E0ESC := 64.

(** A table of 256 bytes: the first entries in order, then entries by index. *)
Definition key_table (first : list Z) (at_ : list (nat * Z)) : list Z :=
  foldr (λ e l, <[e.1:=e.2]> l) (first ++ replicate (256 - length first) 0) at_.

Definition shiftcode : list Z := key_table
  []
  [(29%nat, 2); (42%nat, 1); (54%nat, 1); (56%nat, 4); (157%nat, 2); (184%nat, 4)].
Definition togglecode : list Z := key_table
  []
  [(58%nat, 8); (69%nat, 16); (70%nat, 32)].
Definition normalmap : list Z := key_table
  [0; 27; 49; 50; 51; 52; 53; 54; 55; 56; 57; 48; 45; 61; 8; 9;
   113; 119; 101; 114; 116; 121; 117; 105; 111; 112; 91; 93; 10; 0; 97; 115;
   100; 102; 103; 104; 106; 107; 108; 59; 39; 96; 0; 92; 122; 120; 99; 118;
   98; 110; 109; 44; 46; 47; 0; 42; 0; 32; 0; 0; 0; 0; 0; 0;
   0; 0; 0; 0; 0; 0; 0; 55; 56; 57; 45; 52; 53; 54; 43; 49;
   50; 51; 48; 46; 0; 0; 0; 0]
  [(156%nat, 10); (181%nat, 47); (200%nat, 226); (208%nat, 227); (201%nat, 230); (209%nat, 231); (203%nat, 228); (205%nat, 229); (151%nat, 224); (207%nat, 225); (210%nat, 232); (211%nat, 233)].
Definition shiftmap : list Z := key_table
  [0; 27; 33; 64; 35; 36; 37; 94; 38; 42; 40; 41; 95; 43; 8; 9;
   81; 87; 69; 82; 84; 89; 85; 73; 79; 80; 123; 125; 10; 0; 65; 83;
   68; 70; 71; 72; 74; 75; 76; 58; 34; 126; 0; 124; 90; 88; 67; 86;
   66; 78; 77; 60; 62; 63; 0; 42; 0; 32; 0; 0; 0; 0; 0; 0;
   0; 0; 0; 0; 0; 0; 0; 55; 56; 57; 45; 52; 53; 54; 43; 49;
   50; 51; 48; 46; 0; 0; 0; 0]
  [(156%nat, 10); (181%nat, 47); (200%nat, 226); (208%nat, 227); (201%nat, 230); (209%nat, 231); (203%nat, 228); (205%nat, 229); (151%nat, 224); (207%nat, 225); (210%nat, 232); (211%nat, 233)].
Definition ctlmap : list Z := key_table
  [0; 0; 0; 0; 0; 0; 0; 0; 0; 0; 0; 0; 0; 0; 0; 0;
   17; 23; 5; 18; 20; 25; 21; 9; 15; 16; 0; 0; 13; 0; 1; 19;
   4; 6; 7; 8; 10; 11; 12; 0; 0; 0; 0; 28; 26; 24; 3; 22;
   2; 14; 13; 0; 0; 239; 0; 0]
  [(156%nat, 13); (181%nat, 239); (200%nat, 226); (208%nat, 227); (201%nat, 230); (209%nat, 231); (203%nat, 228); (205%nat, 229); (151%nat, 224); (207%nat, 225); (210%nat, 232); (211%nat, 233)].

Definition charcode (k : Z) : list Z := if k =? 0 then normalmap else if k =? 1 then shiftmap else ctlmap.

Definition entry (t : list Z) (k : Z) : Z := nth (Z.to_nat k) t 0.

(** [kbdgetc] when the controller has the byte [data], with the static variable
    [shift]: the character, and [shift] afterwards. *)
Definition kbdgetc (data shift : Z) : Z * Z :=
  if data =? 0xE0 then (0, Z.lor shift E0ESC)
  else if nz (Z.land data 0x80) then
    let data := if nz (Z.land shift E0ESC) then data else Z.land data 0x7F in
    (0, Z.land shift (notu (Z.lor (entry shiftcode data) E0ESC)))
  else
    let '(data, shift) :=
      if nz (Z.land shift E0ESC) then (Z.lor data 0x80, Z.land shift (notu E0ESC)) else (data, shift) in
    let shift := Z.lor shift (entry shiftcode data) in
    let shift := Z.lxor shift (entry togglecode data) in
    let c := entry (charcode (Z.land shift (Z.lor CTL SHIFT))) data in
    let c :=
      if nz (Z.land shift CAPSLOCK) then
        if (97 <=? c) && (c <=? 122) then u32 (c + (65 - 97))
        else if (65 <=? c) && (c <=? 90) then u32 (c + (97 - 65))
        else c
      else c in
    (c, shift).

(** The keyboard sends the bytes [ds]: the characters that are not 0, and
    [shift]. *)
Fixpoint kbd_keys (ds : list Z) (shift : Z) : list Z * Z :=
  match ds with
  | [] => ([], shift)
  | d :: ds' =>
      let (c, shift) := kbdgetc d shift in
      let (cs, shift) := kbd_keys ds' shift in
      (if c =? 0 then cs else c :: cs, shift)
  end.

(** ** Typing *)

(** Some statement holds of all bytes and all values of [shift]. *)
Definition for_bytes (n : Z) (P : Z → bool) : bool := forallb P (seqZ 0 n).

Lemma for_bytes_true n P : for_bytes n P = true → ∀ x, 0 ≤ x < n → P x = true.
Proof.
  unfold for_bytes. rewrite forallb_forall. intros HP x Hx. apply HP, list_elem_of_In, elem_of_seqZ. lia.
Qed.

Definition typed_key (shift data : Z) : bool :=
  let (c, sh) := kbdgetc data shift in (0 <=? c) && (c <? 256) && (0 <=? sh) && (sh <? 128).

(** A key without [E0] prefix (its code is not 0x60, whose release code would be
    the prefix) is pressed and released: the other modifiers stay,
    the key's own modifier is off, and a lock key has changed its state. *)
Definition press_release (shift data : Z) : bool :=
  if nz (Z.land data 0x80) || nz (Z.land shift E0ESC) || (data =? 0x60) then true
  else (kbd_keys [data; Z.lor data 0x80] shift).2 =?
         Z.land (Z.lxor (Z.lor shift (entry shiftcode data)) (entry togglecode data)) (notu (Z.lor (entry shiftcode data) E0ESC)).

Lemma keys_checked : for_bytes 128 (λ shift, for_bytes 256 (λ data, typed_key shift data && press_release shift data)) = true.
Proof. vm_compute. reflexivity. Qed.


