(* ===== verification/Console.v ===== *)
(** * Console: terminal input, the screen and the keyboard

    [consoleintr], [consoleread] and [cgaputc] of [console.c] and [kbdgetc] of
    [kbd.c].  The locks are held from start to end, except inside [sleep]; the
    serial line and the registers of the devices are inputs and outputs. *)

From S2P Require Import Prelude Mmu Kbd.

(** ** Input *)

Definition INPUT_BUF := 128.
Definition BACKSPACE := 0x100.
Definition CTRL_D := 4.
Definition CTRL_H := 8.
Definition CTRL_P := 16.
Definition CTRL_U := 21.

Record input := mkInput { in_buf : list Z; in_r : Z; in_w : Z; in_e : Z }.

Definition in_at (s : input) (k : Z) : Z := nth (Z.to_nat (k mod INPUT_BUF)) (in_buf s) 0.

(** The loop of control-U: the state and what is given to [consputc]. *)
Fixpoint kill_line (fuel : nat) (s : input) : input * list Z :=
  match fuel with
  | O => (s, [])
  | S fuel' =>
      if negb (in_e s =? in_w s) && negb (in_at s (u32 (in_e s - 1)) =? 10) then
        let (s', o) := kill_line fuel' (mkInput (in_buf s) (in_r s) (in_w s) (u32 (in_e s - 1))) in
        (s', BACKSPACE :: o)
      else (s, [])
  end.

(** One round of the loop of [consoleintr] with the character [c]: the state,
    the output, and whether [&input.r] is woken.  Control-P only asks for a
    listing of the processes.  At most [in_e - in_w] characters are erased. *)
Definition consoleintr_char (c : Z) (s : input) : input * list Z * bool :=
  if c =? CTRL_P then (s, [], false)
  else if c =? CTRL_U then let (s', o) := kill_line (Z.to_nat (u32 (in_e s - in_w s))) s in (s', o, false)
  else if (c =? CTRL_H) || (c =? 127) then
    if negb (in_e s =? in_w s) then (mkInput (in_buf s) (in_r s) (in_w s) (u32 (in_e s - 1)), [BACKSPACE], false)
    else (s, [], false)
  else if negb (c =? 0) && (u32 (in_e s - in_r s) <? INPUT_BUF) then
    let c := if c =? 13 then 10 else c in
    let s := mkInput (<[Z.to_nat (in_e s mod INPUT_BUF):=c]> (in_buf s)) (in_r s) (in_w s) (u32 (in_e s + 1)) in
    if (c =? 10) || (c =? CTRL_D) || (in_e s =? u32 (in_r s + INPUT_BUF))
    then (mkInput (in_buf s) (in_r s) (in_e s) (in_e s), [c], true)
    else (s, [c], false)
  else (s, [], false).

(** [consoleintr(getc)]: [getc] gives the characters that have arrived. *)
Fixpoint consoleintr (cs : list Z) (s : input) : input * list Z :=
  match cs with
  | [] => (s, [])
  | c :: cs' =>
      let '(s, o, _) := consoleintr_char c s in
      let (s, o') := consoleintr cs' s in
      (s, o ++ o')
  end.

(** [consoleread] returns, or sleeps with [n] bytes still to be read. *)
Inductive cread := CReturn (r : Z) (dst : list Z) | CSleep (n : nat) (dst : list Z).

Fixpoint consoleread_loop (killed : bool) (target n : nat) (dst : list Z) (s : input) : cread * input :=
  match n with
  | O => (CReturn (Z.of_nat target) dst, s)
  | S n' =>
      if in_r s =? in_w s then
        (if killed then CReturn (-1) dst else CSleep n dst, s)
      else
        let c := in_at s (in_r s) in
        let s' := mkInput (in_buf s) (u32 (in_r s + 1)) (in_w s) (in_e s) in
        if c =? CTRL_D then
          (CReturn (Z.of_nat (target - n)) dst, if (n <? target)%nat then s else s')
        else
          let dst := dst ++ [c] in
          if c =? 10 then (CReturn (Z.of_nat (target - n')) dst, s')
          else consoleread_loop killed target n' dst s'
  end.
Definition consoleread (killed : bool) (n : nat) (s : input) : cread * input := consoleread_loop killed n n [] s.

(** ** The abstract terminal: complete lines, and the line being typed *)

Record term := mkTerm { t_lines : list Z; t_edit : list Z }.

Definition term_key (c : Z) (t : term) : term :=
  if c =? CTRL_P then t
  else if c =? CTRL_U then mkTerm (t_lines t) []
  else if (c =? CTRL_H) || (c =? 127) then mkTerm (t_lines t) (removelast (t_edit t))
  else if negb (c =? 0) && (length (t_lines t) + length (t_edit t) <? 128)%nat then
    let c := if c =? 13 then 10 else c in
    let ed := t_edit t ++ [c] in
    if (c =? 10) || (c =? CTRL_D) || (length (t_lines t) + length ed =? 128)%nat
    then mkTerm (t_lines t ++ ed) [] else mkTerm (t_lines t) ed
  else t.

(** A read takes bytes up to a newline or an end-of-file mark; the mark is left
    in place unless it is the first thing read. *)
Fixpoint term_read (killed : bool) (target n : nat) (dst q : list Z) : cread * list Z :=
  match n with
  | O => (CReturn (Z.of_nat target) dst, q)
  | S n' =>
      match q with
      | [] => (if killed then CReturn (-1) dst else CSleep n dst, [])
      | c :: q' =>
          if c =? CTRL_D then (CReturn (Z.of_nat (target - n)) dst, if (n <? target)%nat then q else q')
          else if c =? 10 then (CReturn (Z.of_nat (target - n')) (dst ++ [c]), q')
          else term_read killed target n' (dst ++ [c]) q'
      end
  end.

(** ** The ring *)

Definition ring (b : list Z) (s : Z) (n : nat) : list Z :=
  (λ k, nth (Z.to_nat ((s + Z.of_nat k) mod INPUT_BUF)) b 0) <$> seq 0 n.

Lemma length_ring b s n : length (ring b s n) = n.
Proof. unfold ring. by rewrite length_fmap, length_seq. Qed.

Lemma ring_app b s n m : ring b s (n + m) = ring b s n ++ ring b (s + Z.of_nat n) m.
Proof.
  unfold ring. rewrite seq_app, fmap_app. f_equal. cbn. rewrite <- (Nat.add_0_r n) at 1. rewrite <- fmap_add_seq, <- list_fmap_compose.
  apply list_fmap_ext. intros i k _. cbn. do 3 f_equal. lia.
Qed.

Lemma ring_one b s : ring b s 1 = [nth (Z.to_nat (s mod INPUT_BUF)) b 0].
Proof. unfold ring. cbn. by rewrite Z.add_0_r. Qed.

Lemma ring_u32 b s n : ring b (u32 s) n = ring b s n.
Proof. unfold ring. apply list_fmap_ext. intros i k _. do 2 f_equal. unfold u32, INPUT_BUF. dlia. Qed.

Lemma ring_store b s n c :
  (n < 128)%nat → length b = 128%nat →
  ring (<[Z.to_nat ((s + Z.of_nat n) mod INPUT_BUF):=c]> b) s (S n) = ring b s n ++ [c].
Proof.
  intros Hn Hb. rewrite <- Nat.add_1_r, ring_app, ring_one. f_equal.
  - unfold ring. apply list_fmap_ext. intros i k Hk. apply lookup_seq in Hk as [-> Hk].
    rewrite !nth_lookup, list_lookup_insert_ne; [done|]. unfold INPUT_BUF. dlia.
  - rewrite nth_lookup, list_lookup_insert_eq; [done|]. unfold INPUT_BUF. dlia.
Qed.

(** ** The invariant *)

Definition n_lines (s : input) : nat := Z.to_nat (u32 (in_w s - in_r s)).
Definition n_edit (s : input) : nat := Z.to_nat (u32 (in_e s - in_w s)).
Definition term_of (s : input) : term := mkTerm (ring (in_buf s) (in_r s) (n_lines s)) (ring (in_buf s) (in_w s) (n_edit s)).

Record input_ok (s : input) : Prop := {
  io_buf : length (in_buf s) = 128%nat;
  io_r : is_u32 (in_r s);
  io_w : is_u32 (in_w s);
  io_e : is_u32 (in_e s);
  io_fill : u32 (in_w s - in_r s) + u32 (in_e s - in_w s) ≤ INPUT_BUF;
  io_edit : 10 ∉ t_edit (term_of s)
}.

Ltac ring_arith := unfold n_lines, n_edit, is_u32, u32, INPUT_BUF in *; cbn in *; dlia.

Lemma total_fill s : input_ok s → u32 (in_e s - in_r s) = Z.of_nat (n_lines s + n_edit s).
Proof. intros [_ Hr Hw He Hf _]. ring_arith. Qed.

(** A character at the end of the line being typed. *)
Lemma push_ok s c :
  input_ok s → (n_lines s + n_edit s < 128)%nat →
  let s' := mkInput (<[Z.to_nat (in_e s mod INPUT_BUF):=c]> (in_buf s)) (in_r s) (in_w s) (u32 (in_e s + 1)) in
  n_lines s' = n_lines s ∧ n_edit s' = S (n_edit s) ∧
  term_of s' = mkTerm (t_lines (term_of s)) (t_edit (term_of s) ++ [c]).
Proof.
  intros Hok Hn s'. pose proof Hok as [Hb Hr Hw He Hf _].
  assert (HL : n_lines s' = n_lines s) by done.
  assert (HE : n_edit s' = S (n_edit s)) by ring_arith.
  split_and!; [done|done|].
  assert (Hi : in_e s mod INPUT_BUF = (in_r s + Z.of_nat (n_lines s + n_edit s)) mod INPUT_BUF) by ring_arith.
  pose proof (ring_store (in_buf s) (in_r s) (n_lines s + n_edit s) c Hn Hb) as Hs. rewrite <- Hi, <- Nat.add_succ_r in Hs.
  rewrite !ring_app, <- app_assoc in Hs. apply app_inj_1 in Hs as [E1 E2]; [|by rewrite !length_ring].
  assert (Hw' : u32 (in_r s + Z.of_nat (n_lines s)) = in_w s) by ring_arith.
  rewrite <- (ring_u32 _ (in_r s + _)), <- (ring_u32 (in_buf s) (in_r s + _)), Hw' in E2.
  unfold term_of. rewrite HL, HE. cbn [in_buf in_r in_w t_lines t_edit s']. by rewrite E1, E2.
Qed.

(** The last character of the line being typed, and the line without it. *)
Lemma pop_ok s :
  input_ok s → in_e s ≠ in_w s →
  let s' := mkInput (in_buf s) (in_r s) (in_w s) (u32 (in_e s - 1)) in
  n_edit s = S (n_edit s') ∧ t_edit (term_of s) = t_edit (term_of s') ++ [in_at s (u32 (in_e s - 1))] ∧
  t_lines (term_of s') = t_lines (term_of s) ∧ input_ok s'.
Proof.
  intros Hok Hne s'. pose proof Hok as [Hb Hr Hw He Hf Hnl].
  assert (HE : n_edit s = S (n_edit s')) by ring_arith.
  assert (Ht : t_edit (term_of s) = t_edit (term_of s') ++ [in_at s (u32 (in_e s - 1))]).
  { unfold term_of. cbn [t_edit]. rewrite HE, <- Nat.add_1_r, ring_app, ring_one. cbn [in_buf in_w s']. f_equal. f_equal.
    unfold in_at. do 2 f_equal. ring_arith. }
  split_and!; try done. split; try done.
  - cbn. unfold is_u32, u32. dlia.
  - ring_arith.
  - rewrite Ht in Hnl. set_solver.
Qed.

Lemma kill_line_ok n : ∀ s, input_ok s → n_edit s = n →
  input_ok (kill_line n s).1 ∧ term_of (kill_line n s).1 = mkTerm (t_lines (term_of s)) [].
Proof.
  induction n as [|n IH]; intros s Hok En; cbn [kill_line].
  { cbn [fst]. split; [done|]. unfold term_of. by rewrite En. }
  assert (Hne : in_e s ≠ in_w s).
  { intros E. unfold n_edit in En. rewrite E, Z.sub_diag in En. done. }
  destruct (pop_ok s Hok Hne) as (HE & Ht & HL & Hok'). rewrite (proj2 (Z.eqb_neq _ _) Hne).
  rewrite (proj2 (Z.eqb_neq (in_at s _) 10)).
  2:{ intros E. apply (io_edit s Hok). rewrite Ht, E. set_solver. }
  cbn [negb andb]. destruct (IH _ Hok' ltac:(lia)) as [I1 I2]. destruct (kill_line n _) as [s2 o]. cbn in *. by rewrite <- HL.
Qed.

Lemma push_input_ok s c :
  input_ok s → (n_lines s + n_edit s < 128)%nat → c ≠ 10 →
  input_ok (mkInput (<[Z.to_nat (in_e s mod INPUT_BUF):=c]> (in_buf s)) (in_r s) (in_w s) (u32 (in_e s + 1))).
Proof.
  intros Hok Hn Hc. destruct (push_ok s c Hok Hn) as (HL & HE & Ht). destruct Hok as [Hb Hr Hw He Hf Hnl]. split.
  - cbn. by rewrite length_insert.
  - done.
  - done.
  - cbn. unfold is_u32, u32. dlia.
  - ring_arith.
  - rewrite Ht. cbn in *. set_solver.
Qed.

(** The line is complete. *)
Lemma commit_ok s c :
  input_ok s → (n_lines s + n_edit s < 128)%nat →
  let b := <[Z.to_nat (in_e s mod INPUT_BUF):=c]> (in_buf s) in
  let s' := mkInput b (in_r s) (u32 (in_e s + 1)) (u32 (in_e s + 1)) in
  input_ok s' ∧ term_of s' = mkTerm (t_lines (term_of s) ++ t_edit (term_of s) ++ [c]) [].
Proof.
  intros Hok Hn b s'. destruct (push_ok s c Hok Hn) as (HL & HE & Ht). pose proof Hok as [Hb Hr Hw He Hf Hnl].
  assert (HL' : n_lines s' = (n_lines s + S (n_edit s))%nat) by ring_arith.
  assert (HE' : n_edit s' = 0%nat) by (unfold n_edit; cbn; by rewrite Z.sub_diag).
  assert (Hw' : u32 (in_r s + Z.of_nat (n_lines s)) = in_w s) by ring_arith.
  assert (E : term_of s' = mkTerm (t_lines (term_of s) ++ t_edit (term_of s) ++ [c]) []).
  { unfold term_of in Ht |- *. rewrite HE', HL', ring_app, <- (ring_u32 _ (in_r s' + _)). cbn [in_r s']. rewrite Hw'.
    rewrite HL, HE in Ht. cbn [in_buf in_r in_w t_lines t_edit] in Ht |- *. injection Ht as T1 T2. cbn [in_buf s']. fold b in T1, T2. by rewrite T1, T2. }
  split; [|done]. split.
  - cbn. unfold b. by rewrite length_insert.
  - done.
  - cbn. unfold is_u32, u32. dlia.
  - cbn. unfold is_u32, u32. dlia.
  - unfold b in *. ring_arith.
  - rewrite E. cbn. set_solver.
Qed.

Lemma key_ok c s :
  input_ok s → let s' := (consoleintr_char c s).1.1 in input_ok s' ∧ term_of s' = term_key c (term_of s).
Proof.
  intros Hok. unfold consoleintr_char, term_key. pose proof (total_fill s Hok) as Ht.
  assert (EL : length (t_lines (term_of s)) = n_lines s) by apply length_ring.
  assert (EE : length (t_edit (term_of s)) = n_edit s) by apply length_ring.
  destruct (c =? CTRL_P); [done|]. destruct (c =? CTRL_U).
  { destruct (kill_line_ok _ s Hok eq_refl) as [K1 K2]. unfold n_edit in K1, K2. destruct (kill_line _ s) as [s' o]. done. }
  destruct ((c =? CTRL_H) || (c =? 127)).
  { destruct (Z.eqb_spec (in_e s) (in_w s)) as [E|Hne]; cbn [negb fst].
    - split; [done|]. unfold term_of, n_edit. rewrite E, Z.sub_diag. done.
    - destruct (pop_ok s Hok Hne) as (_ & Hp & Hl & Hok'). split; [done|]. rewrite Hp, removelast_last, <- Hl. by destruct (term_of _). }
  rewrite EL, EE. destruct (c =? 0); [done|]. cbn [negb andb].
  assert (Ef : (u32 (in_e s - in_r s) <? INPUT_BUF) = (n_lines s + n_edit s <? 128)%nat).
  { rewrite Ht. unfold INPUT_BUF. destruct (Nat.ltb_spec (n_lines s + n_edit s) 128); [apply Z.ltb_lt|apply Z.ltb_ge]; lia. }
  rewrite Ef. destruct (Nat.ltb_spec (n_lines s + n_edit s) 128) as [Hlt|]; [|done].
  set (c' := if c =? 13 then 10 else c). rewrite length_app, EE. cbn [length in_e in_r].
  assert (Eq : (u32 (in_e s + 1) =? u32 (in_r s + INPUT_BUF)) = (n_lines s + (n_edit s + 1) =? 128)%nat).
  { pose proof Hok as [_ Hr Hw He Hf _]. destruct (Nat.eqb_spec (n_lines s + (n_edit s + 1)) 128); [apply Z.eqb_eq|apply Z.eqb_neq]; ring_arith. }
  rewrite Eq. destruct ((c' =? 10) || (c' =? CTRL_D) || (n_lines s + (n_edit s + 1) =? 128)%nat) eqn:Ec; cbn [fst].
  - apply (commit_ok s c' Hok Hlt).
  - split; [|apply (push_ok s c' Hok Hlt)]. apply push_input_ok; [done|done|].
    intros E. rewrite E in Ec. done.
Qed.

Lemma read_pop_ok s :
  input_ok s → in_r s ≠ in_w s →
  let s' := mkInput (in_buf s) (u32 (in_r s + 1)) (in_w s) (in_e s) in
  input_ok s' ∧ t_lines (term_of s) = in_at s (in_r s) :: t_lines (term_of s') ∧ t_edit (term_of s') = t_edit (term_of s).
Proof.
  intros Hok Hne s'. pose proof Hok as [Hb Hr Hw He Hf Hnl].
  assert (HL : n_lines s = (1 + n_lines s')%nat) by ring_arith.
  split_and!; [|unfold term_of; cbn [t_lines]; by rewrite HL, ring_app, ring_one, <- (ring_u32 _ (in_r s + _))|done].
  split; try done.
  - cbn. unfold is_u32, u32. dlia.
  - ring_arith.
Qed.

Lemma read_ok killed target n : ∀ dst s,
  input_ok s →
  let '(r, s') := consoleread_loop killed target n dst s in
  input_ok s' ∧ t_edit (term_of s') = t_edit (term_of s) ∧ (r, t_lines (term_of s')) = term_read killed target n dst (t_lines (term_of s)).
Proof.
  induction n as [|n IH]; intros dst s Hok; cbn [consoleread_loop term_read]; [done|].
  destruct (Z.eqb_spec (in_r s) (in_w s)) as [E|Hne].
  { assert (El : t_lines (term_of s) = []) by (unfold term_of, n_lines; cbn; by rewrite E, Z.sub_diag). rewrite El. by destruct killed. }
  destruct (read_pop_ok s Hok Hne) as (Hok' & El & Ee). set (s' := mkInput _ _ _ _) in *. rewrite El.
  destruct (in_at s (in_r s) =? CTRL_D).
  { destruct (S n <? target)%nat; [by rewrite El|done]. }
  destruct (in_at s (in_r s) =? 10); [done|].
  specialize (IH (dst ++ [in_at s (in_r s)]) s' Hok'). destruct (consoleread_loop _ _ _ _ s') as [r s2]. by rewrite <- Ee.
Qed.

(** ** Runs *)

(** A character arrives, or a process reads; a process that sleeps in the middle
    of a read takes it up again with what it has. *)
Inductive cevent := Key (c : Z) | Read (killed : bool) (target n : nat) (dst : list Z).

Fixpoint console_run (es : list cevent) (s : input) : list cread * input :=
  match es with
  | [] => ([], s)
  | Key c :: es' => console_run es' (consoleintr_char c s).1.1
  | Read killed target n dst :: es' =>
      let (r, s) := consoleread_loop killed target n dst s in
      let (rs, s) := console_run es' s in (r :: rs, s)
  end.

Fixpoint term_run (es : list cevent) (t : term) : list cread * term :=
  match es with
  | [] => ([], t)
  | Key c :: es' => term_run es' (term_key c t)
  | Read killed target n dst :: es' =>
      let (r, q) := term_read killed target n dst (t_lines t) in
      let (rs, t) := term_run es' (mkTerm q (t_edit t)) in (r :: rs, t)
  end.

(** C33. The input side of the console is a terminal with line editing: for every
    sequence of key strokes and reads, the ring buffer with its three indices,
    which wrap around, gives every read what the abstract terminal gives, whose
    state is the text of the complete lines and the line being typed; at most
    128 characters are kept. *)
Theorem console_is_terminal (es : list cevent) (s : input) :
  input_ok s →
  input_ok (console_run es s).2 ∧
  ((console_run es s).1, term_of (console_run es s).2) = term_run es (term_of s).
Proof.
  revert s. induction es as [|[c|killed target n dst] es IH]; intros s Hok; cbn [console_run term_run]; [done| |].
  - destruct (key_ok c s Hok) as [Hok' Et]. specialize (IH _ Hok'). by rewrite Et in IH.
  - pose proof (read_ok killed target n dst s Hok) as Hr. destruct (consoleread_loop _ _ _ _ s) as [r s'].
    destruct Hr as (Hok' & Ee & El). rewrite <- El. specialize (IH s' Hok').
    replace (mkTerm (t_lines (term_of s')) (t_edit (term_of s))) with (term_of s') by (rewrite <- Ee; by destruct (term_of s')).
    destruct (console_run es s') as [rs s2]. cbn in *. destruct IH as [I1 I2]. split; [done|]. by rewrite <- I2.
Qed.

(** The indices are about to wrap around; the user types [hx], erases the [x],
    types [i] and a newline. *)
Definition demo_input : input := mkInput (replicate 128 0) 4294967294 4294967294 4294967294.

Lemma console_is_terminal_witness :
  input_ok (console_run [Key 104; Key 120; Key 8; Key 105; Key 13; Read false 10 10 []] demo_input).2 ∧
  (console_run [Key 104; Key 120; Key 8; Key 105; Key 13; Read false 10 10 []] demo_input).1 = [CReturn 3 [104; 105; 10]].
Proof.
  assert (Hok : input_ok demo_input).
  { split; try done. cbn. set_solver. }
  destruct (console_is_terminal [Key 104; Key 120; Key 8; Key 105; Key 13; Read false 10 10 []] demo_input Hok) as [H1 H2].
  split; [exact H1|]. exact (f_equal fst H2).
Defined.

(** ** The screen *)

(** The position in the cursor registers and the video memory, one word per
    character. *)
Record screen := mkScreen { cursor : Z; crt : Z → Z }.

Definition crt_put (i v : Z) (m : Z → Z) : Z → Z := λ x, if x =? i then v else m x.
(** [memmove(crt, crt+80, ...)] and [memset(crt+pos, 0, ...)]. *)
Definition scroll_up (m : Z → Z) : Z → Z := λ x, if (0 <=? x) && (x <? 23 * 80) then m (x + 80) else m x.
Definition crt_clear (from to : Z) (m : Z → Z) : Z → Z := λ x, if (from <=? x) && (x <? to) then 0 else m x.

Definition cgaputc (c : Z) : M screen unit := λ s,
  let pos := cursor s in
  let '(pos, m) :=
    if c =? 10 then (pos + (80 - pos mod 80), crt s)
    else if c =? BACKSPACE then (if 0 <? pos then pos - 1 else pos, crt s)
    else (pos + 1, crt_put pos (Z.lor (Z.land c 0xff) 0x0700) (crt s)) in
  if (pos <? 0) || (25 * 80 <? pos) then Err (Panic "pos under/overflow")
  else
    let '(pos, m) :=
      if 24 <=? pos / 80 then let pos := pos - 80 in (pos, crt_clear pos (24 * 80) (scroll_up m)) else (pos, m) in
    Ok tt (mkScreen pos (crt_put pos (Z.lor 32 0x0700) m)).

(** [consputc]: what goes out on the serial line, and the screen. *)
Definition consputc (c : Z) : M (list Z * screen) unit := λ '(out, s),
  let out := out ++ (if c =? BACKSPACE then [8; 32; 8] else [c]) in
  match cgaputc c s with Ok _ s => Ok tt (out, s) | Err e => Err e end.

(** [consolewrite] of the bytes [buf]. *)
Definition consolewrite (buf : list Z) : M (list Z * screen) Z :=
  forM buf (λ c, consputc (Z.land c 0xff)) ;;
  mret (Z.of_nat (length buf)).

Definition screen_ok (s : screen) : Prop := 0 ≤ cursor s < 24 * 80.

(** What is shown in the first 24 rows: characters before the cursor. *)
Lemma cgaputc_ok c s : screen_ok s → ∃ s', cgaputc c s = Ok tt s' ∧ screen_ok s'.
Proof.
  intros Hs. unfold screen_ok, cgaputc in *. destruct (c =? 10); [|destruct (c =? BACKSPACE)].
  - rewrite (proj2 (Z.ltb_ge _ 0)), (proj2 (Z.ltb_ge _ _)) by dlia. cbn [orb].
    destruct (Z.leb_spec 24 ((cursor s + (80 - cursor s mod 80)) / 80)); eexists; split; try reflexivity; cbn; dlia.
  - destruct (Z.ltb_spec 0 (cursor s));
    (rewrite (proj2 (Z.ltb_ge _ 0)), (proj2 (Z.ltb_ge _ _)) by dlia); cbn [orb];
    (rewrite (proj2 (Z.leb_gt _ _)) by dlia); eexists; split; try reflexivity; cbn; dlia.
  - rewrite (proj2 (Z.ltb_ge _ 0)), (proj2 (Z.ltb_ge _ _)) by dlia. cbn [orb].
    destruct (Z.leb_spec 24 ((cursor s + 1) / 80)); eexists; split; try reflexivity; cbn; dlia.
Qed.



(** ** The interrupts of the keyboard and of the serial line *)

(** The state of the driver, with what has gone out on the serial line;
    [co_killed] is [myproc()->killed]. *)
Record console := mkConsole { co_input : input; co_shift : Z; co_out : list Z; co_screen : screen; co_killed : bool }.

Definition set_co_input (i : input) (s : console) : console := mkConsole i (co_shift s) (co_out s) (co_screen s) (co_killed s).
Definition set_co_shift (h : Z) (s : console) : console := mkConsole (co_input s) h (co_out s) (co_screen s) (co_killed s).
Definition set_co_killed (k : bool) (s : console) : console := mkConsole (co_input s) (co_shift s) (co_out s) (co_screen s) k.
Definition on_screen {A} (c : M (list Z * screen) A) : M console A := λ s,
  match c (co_out s, co_screen s) with
  | Ok a (o, sc) => Ok a (mkConsole (co_input s) (co_shift s) o sc (co_killed s))
  | Err e => Err e
  end.

(** A character from [getc]; the result says whether [&input.r] is woken. *)
Definition consoleintr_one (c : Z) : M console bool :=
  i ← gets co_input;
  let '(i, o, w) := consoleintr_char c i in
  modify (set_co_input i) ;;
  on_screen (forM o consputc) ;;
  mret w.

(** [consoleintr(uartgetc)] with the bytes received. *)
Fixpoint uartintr (cs : list Z) : M console bool :=
  match cs with
  | [] => mret false
  | c :: cs' => w ← consoleintr_one c; w' ← uartintr cs'; mret (w || w')
  end.

(** [consoleintr(kbdgetc)] with the bytes the controller has. *)
Fixpoint kbdintr (ds : list Z) : M console bool :=
  match ds with
  | [] => mret false
  | d :: ds' =>
      h ← gets co_shift;
      let (c, h) := kbdgetc d h in
      modify (set_co_shift h) ;;
      w ← consoleintr_one c;
      w' ← kbdintr ds';
      mret (w || w')
  end.
