(* ===== verification/Fs.v ===== *)
(** * Fs: blocks, inodes, directories and paths, [fs.c]

    On top of the log: the block allocator, the inode cache, the contents of
    files, directories and path names.  A transfer between a file and a buffer
    of the caller is a list of bytes. *)

From S2P Require Import Prelude Mmu Bytes Bio Log Console.

Definition ROOTINO := 1.
Definition ROOTDEV := 1.
Definition NDIRECT := 12.
Definition NINDIRECT := 128.
Definition MAXFILE := NDIRECT + NINDIRECT.
Definition IPB := 8.
Definition BPB := BSIZE * 8.
Definition DIRSIZ := 14%nat.
Definition NINODE := 50%nat.
Definition NDEV := 10.
Definition T_DIR := 1.
Definition T_FILE := 2.
Definition T_DEV := 3.

Definition s16 (x : Z) : Z := (x + 32768) mod 65536 - 32768.
Definition u16 (x : Z) : Z := x mod 65536.

(** ** State *)

Record inode := mkInode {
  i_dev : Z;
  i_inum : Z;
  i_ref : Z;
  i_lock : sleeplock;
  i_valid : bool;
  i_type : Z;
  i_major : Z;
  i_minor : Z;
  i_nlink : Z;
  i_size : Z;
  i_addrs : list Z        (* NDIRECT + 1 block numbers *)
}.

(** [fcwd] is the current directory of the running process, an index of the
    inode cache; [fcons] is the state of the console, the one device. *)
Record fsst := mkFs {
  ftx : lst;
  fsb : superblock;
  icache : list inode;    (* NINODE *)
  fcwd : nat;
  fcons : console
}.

Definition set_ftx (t : lst) (s : fsst) : fsst := mkFs t (fsb s) (icache s) (fcwd s) (fcons s).
Definition set_icache (l : list inode) (s : fsst) : fsst := mkFs (ftx s) (fsb s) l (fcwd s) (fcons s).
Definition set_fsb (b : superblock) (s : fsst) : fsst := mkFs (ftx s) b (icache s) (fcwd s) (fcons s).

Definition on_tx {A} (c : M lst A) : M fsst A := λ s,
  match c (ftx s) with Ok a t => Ok a (set_ftx t s) | Err e => Err e end.

Definition set_iref (r : Z) (i : inode) : inode :=
  mkInode (i_dev i) (i_inum i) r (i_lock i) (i_valid i) (i_type i) (i_major i) (i_minor i) (i_nlink i) (i_size i) (i_addrs i).
Definition set_ilock (l : sleeplock) (i : inode) : inode :=
  mkInode (i_dev i) (i_inum i) (i_ref i) l (i_valid i) (i_type i) (i_major i) (i_minor i) (i_nlink i) (i_size i) (i_addrs i).
Definition set_ivalid (v : bool) (i : inode) : inode :=
  mkInode (i_dev i) (i_inum i) (i_ref i) (i_lock i) v (i_type i) (i_major i) (i_minor i) (i_nlink i) (i_size i) (i_addrs i).
Definition set_itype (t : Z) (i : inode) : inode :=
  mkInode (i_dev i) (i_inum i) (i_ref i) (i_lock i) (i_valid i) t (i_major i) (i_minor i) (i_nlink i) (i_size i) (i_addrs i).
Definition set_imajor (t : Z) (i : inode) : inode :=
  mkInode (i_dev i) (i_inum i) (i_ref i) (i_lock i) (i_valid i) (i_type i) t (i_minor i) (i_nlink i) (i_size i) (i_addrs i).
Definition set_iminor (t : Z) (i : inode) : inode :=
  mkInode (i_dev i) (i_inum i) (i_ref i) (i_lock i) (i_valid i) (i_type i) (i_major i) t (i_nlink i) (i_size i) (i_addrs i).
Definition set_inlink (n : Z) (i : inode) : inode :=
  mkInode (i_dev i) (i_inum i) (i_ref i) (i_lock i) (i_valid i) (i_type i) (i_major i) (i_minor i) n (i_size i) (i_addrs i).
Definition set_isize (n : Z) (i : inode) : inode :=
  mkInode (i_dev i) (i_inum i) (i_ref i) (i_lock i) (i_valid i) (i_type i) (i_major i) (i_minor i) (i_nlink i) n (i_addrs i).
Definition set_iaddrs (l : list Z) (i : inode) : inode :=
  mkInode (i_dev i) (i_inum i) (i_ref i) (i_lock i) (i_valid i) (i_type i) (i_major i) (i_minor i) (i_nlink i) (i_size i) l.

(** Access to an inode of the cache. *)
Definition iref (ip : nat) : M fsst inode := λ s,
  match icache s !! ip with Some i => Ok i s | None => Err (UB "no such inode") end.
Definition imodify (ip : nat) (f : inode → inode) : M fsst unit := λ s,
  match icache s !! ip with
  | Some _ => Ok tt (set_icache (alter f ip (icache s)) s)
  | None => Err (UB "no such inode")
  end.

(** A block in a buffer, and its contents. *)
Definition getblk (dev bn : Z) : M fsst (nat * block) :=
  bp ← on_tx (on_bio (bread dev bn));
  b ← on_tx (on_bio (bnode bp));
  mret (bp, b_data b).
Definition setblk (bp : nat) (x : block) : M fsst unit := on_tx (on_bio (bmodify bp (set_data x))).
Definition putblk (bp : nat) : M fsst unit := on_tx (on_bio (brelse bp)).
Definition logblk (bp : nat) : M fsst unit := on_tx (log_write bp).

(** ** Blocks *)

Definition bzero (dev bno : Z) : M fsst unit :=
  '(bp, x) ← getblk dev (u32 bno);
  setblk bp (replicate (Z.to_nat BSIZE) 0) ;;
  logblk bp ;;
  putblk bp.

Definition BBLOCK (b : Z) (sb : superblock) : Z := u32 (b / BPB + sb_bmapstart sb).

(** The bit of block [b] in a bitmap block. *)
Definition bit_of (x : block) (bi : Z) : bool :=
  nz (Z.land (byte_at x (Z.to_nat (bi / 8))) (Z.shiftl 1 (bi mod 8))).
Definition set_bit (bi : Z) (x : block) : block :=
  overwrite (Z.to_nat (bi / 8)) [Z.lor (byte_at x (Z.to_nat (bi / 8))) (Z.shiftl 1 (bi mod 8))] x.
Definition clear_bit (bi : Z) (x : block) : block :=
  overwrite (Z.to_nat (bi / 8))
    [Z.land (byte_at x (Z.to_nat (bi / 8))) (Z.lxor (Z.shiftl 1 (bi mod 8)) 255)] x.

(** The inner loop: the first clear bit from [bi] on. *)
Fixpoint find_clear (fuel : nat) (x : block) (b bi size : Z) : option Z :=
  match fuel with
  | O => None
  | S fuel' =>
      if (bi <? BPB) && (b + bi <? size) then
        if bit_of x bi then find_clear fuel' x b (bi + 1) size else Some bi
      else None
  end.

Fixpoint balloc_loop (fuel : nat) (dev b : Z) : M fsst Z :=
  match fuel with
  | O => fail NoFuel
  | S fuel' =>
      sb ← gets fsb;
      if b <? sb_size sb then
        '(bp, x) ← getblk dev (BBLOCK b sb);
        match find_clear (S (Z.to_nat BPB)) x b 0 (sb_size sb) with
        | Some bi =>
            setblk bp (set_bit bi x) ;;
            logblk bp ;;
            putblk bp ;;
            bzero dev (b + bi) ;;
            mret (u32 (b + bi))
        | None => putblk bp ;; balloc_loop fuel' dev (b + BPB)
        end
      else panic "balloc: out of blocks"
  end.

Definition balloc (dev : Z) : M fsst Z :=
  sb ← gets fsb;
  balloc_loop (S (S (Z.to_nat (sb_size sb / BPB)))) dev 0.

Definition bfree (dev b : Z) : M fsst unit :=
  sb ← gets fsb;
  '(bp, x) ← getblk dev (BBLOCK b sb);
  let bi := b mod BPB in
  if negb (bit_of x bi) then panic "freeing free block"
  else setblk bp (clear_bit bi x) ;; logblk bp ;; putblk bp.

(** ** Inodes on the disk

    A [struct dinode] has 64 bytes. *)

Definition IBLOCK (i : Z) (sb : superblock) : Z := u32 (i / IPB + sb_inodestart sb).
Definition islot (inum : Z) : nat := Z.to_nat (64 * (inum mod IPB)).

Definition dec_addrs (x : block) (o : nat) : list Z :=
  (λ k, get32 x (o + 12 + 4 * k)) <$> seq 0 (Z.to_nat (NDIRECT + 1)).
Definition enc_addrs (l : list Z) : list Z := mjoin (enc32 <$> l).

Definition put_dinode (i : inode) (o : nat) (x : block) : block :=
  overwrite (o + 12) (enc_addrs (i_addrs i))
    (put32 (o + 8) (i_size i)
      (put16 (o + 6) (u16 (i_nlink i))
        (put16 (o + 4) (u16 (i_minor i))
          (put16 (o + 2) (u16 (i_major i))
            (put16 o (u16 (i_type i)) x))))).

Definition load_dinode (x : block) (o : nat) (i : inode) : inode :=
  mkInode (i_dev i) (i_inum i) (i_ref i) (i_lock i) (i_valid i)
    (s16 (get16 x o)) (s16 (get16 x (o + 2))) (s16 (get16 x (o + 4))) (s16 (get16 x (o + 6)))
    (get32 x (o + 8)) (dec_addrs x o).

Definition iupdate (ip : nat) : M fsst unit :=
  i ← iref ip;
  sb ← gets fsb;
  '(bp, x) ← getblk (i_dev i) (IBLOCK (i_inum i) sb);
  setblk bp (put_dinode i (islot (i_inum i)) x) ;;
  logblk bp ;;
  putblk bp.

(** ** The inode cache *)

Definition iinit (dev : Z) : M fsst unit :=
  modify (λ s, set_icache (set_ilock initsleeplock <$> icache s) s) ;;
  sb ← on_tx (on_bio (readsb dev));
  modify (set_fsb sb).

(** A cached inode, else the first free slot. *)
Definition iget (dev inum : Z) : M fsst nat :=
  l ← gets icache;
  match list_find (λ i, 0 < i_ref i ∧ i_dev i = dev ∧ i_inum i = inum) l with
  | Some (ip, i) => imodify ip (set_iref (i_ref i + 1)) ;; mret ip
  | None =>
      match list_find (λ i, i_ref i = 0) l with
      | Some (ip, i) =>
          imodify ip (λ i, mkInode dev inum 1 (i_lock i) false (i_type i) (i_major i) (i_minor i)
            (i_nlink i) (i_size i) (i_addrs i)) ;;
          mret ip
      | None => panic "iget: no inodes"
      end
  end.

Fixpoint ialloc_loop (fuel : nat) (dev type inum : Z) : M fsst nat :=
  match fuel with
  | O => fail NoFuel
  | S fuel' =>
      sb ← gets fsb;
      if inum <? sb_ninodes sb then
        '(bp, x) ← getblk dev (IBLOCK inum sb);
        if s16 (get16 x (islot inum)) =? 0 then
          setblk bp (put16 (islot inum) (u16 type) (overwrite (islot inum) (replicate 64 0) x)) ;;
          logblk bp ;;
          putblk bp ;;
          iget dev inum
        else putblk bp ;; ialloc_loop fuel' dev type (inum + 1)
      else panic "ialloc: no inodes"
  end.

Definition ialloc (dev type : Z) : M fsst nat :=
  sb ← gets fsb;
  ialloc_loop (S (Z.to_nat (sb_ninodes sb))) dev type 1.

Definition idup (ip : nat) : M fsst nat :=
  imodify ip (λ i, set_iref (i_ref i + 1) i) ;;
  mret ip.

Definition isleep (ip : nat) : M fsst unit :=
  i ← iref ip;
  lk ← on_tx (on_bio (acquiresleep (i_lock i)));
  imodify ip (set_ilock lk).

Definition ilock (ip : nat) : M fsst unit :=
  i ← iref ip;
  if i_ref i <? 1 then panic "ilock"
  else
    isleep ip ;;
    i ← iref ip;
    when (negb (i_valid i)) (
      sb ← gets fsb;
      '(bp, x) ← getblk (i_dev i) (IBLOCK (i_inum i) sb);
      imodify ip (load_dinode x (islot (i_inum i))) ;;
      putblk bp ;;
      imodify ip (set_ivalid true) ;;
      i ← iref ip;
      when (i_type i =? 0) (panic "ilock: no type")).

Definition iunlock (ip : nat) : M fsst unit :=
  i ← iref ip;
  h ← on_tx (on_bio (holdingsleep (i_lock i)));
  if negb h || (i_ref i <? 1) then panic "iunlock"
  else imodify ip (set_ilock (releasesleep (i_lock i))).

(** ** Contents of an inode *)

(** [ip->addrs[k]], and the assignment to it. *)
Definition get_addr (ip k : nat) : M fsst Z :=
  i ← iref ip;
  match i_addrs i !! k with Some a => mret a | None => ub "addrs out of range" end.
Definition put_addr (ip k : nat) (a : Z) : M fsst unit :=
  i ← iref ip;
  if decide (k < length (i_addrs i))%nat
  then imodify ip (set_iaddrs (<[k:=a]> (i_addrs i)))
  else ub "addrs out of range".

(** [if((addr = ip->addrs[k]) == 0) ip->addrs[k] = addr = balloc(ip->dev);] *)
Definition bmap_slot (ip k : nat) : M fsst Z :=
  addr ← get_addr ip k;
  if addr =? 0 then
    i ← iref ip;
    addr ← balloc (i_dev i);
    put_addr ip k addr ;;
    mret addr
  else mret addr.

(** Entry [bn] of the indirect block [addr]. *)
Definition bmap_entry (ip : nat) (addr bn : Z) : M fsst Z :=
  i ← iref ip;
  '(bp, x) ← getblk (i_dev i) addr;
  let o := (4 * Z.to_nat bn)%nat in
  if get32 x o =? 0 then
    addr ← balloc (i_dev i);
    setblk bp (put32 o addr x) ;;
    logblk bp ;;
    putblk bp ;;
    mret addr
  else putblk bp ;; mret (get32 x o).

Definition bmap (ip : nat) (bn : Z) : M fsst Z :=
  if bn <? NDIRECT then bmap_slot ip (Z.to_nat bn)
  else
    let bn := bn - NDIRECT in
    if bn <? NINDIRECT then
      addr ← bmap_slot ip (Z.to_nat NDIRECT);
      bmap_entry ip addr bn
    else panic "bmap: out of range".

Definition itrunc (ip : nat) : M fsst unit :=
  i ← iref ip;
  let dev := i_dev i in
  forM (seq 0 (Z.to_nat NDIRECT)) (λ k,
    a ← get_addr ip k;
    when (nz a) (bfree dev a ;; put_addr ip k 0)) ;;
  a ← get_addr ip (Z.to_nat NDIRECT);
  when (nz a) (
    '(bp, x) ← getblk dev a;
    forM (seq 0 (Z.to_nat NINDIRECT)) (λ j,
      when (nz (get32 x (4 * j))) (bfree dev (get32 x (4 * j)))) ;;
    putblk bp ;;
    bfree dev a ;;
    put_addr ip (Z.to_nat NDIRECT) 0) ;;
  imodify ip (set_isize 0) ;;
  iupdate ip.

Definition iput (ip : nat) : M fsst unit :=
  isleep ip ;;
  i ← iref ip;
  when (i_valid i && (i_nlink i =? 0)) (
    when (i_ref i =? 1) (
      itrunc ip ;;
      imodify ip (set_itype 0) ;;
      iupdate ip ;;
      imodify ip (set_ivalid false))) ;;
  imodify ip (λ i, set_ilock (releasesleep (i_lock i)) i) ;;
  imodify ip (λ i, set_iref (i_ref i - 1) i).

Definition iunlockput (ip : nat) : M fsst unit := iunlock ip ;; iput ip.

Record stat := mkStat { st_type : Z; st_dev : Z; st_ino : Z; st_nlink : Z; st_size : Z }.

Definition stati (ip : nat) : M fsst stat :=
  i ← iref ip;
  mret (mkStat (i_type i) (s32 (i_dev i)) (i_inum i) (i_nlink i) (i_size i)).

(** [devsw]: the functions of the devices, a null pointer where there is
    none.  A read gives the returned value with the bytes it stored. *)
Class Devsw := mkDevsw {
  dev_read : Z → option (nat → Z → M fsst (Z * list Z));
  dev_write : Z → option (nat → list Z → M fsst Z)
}.

(** The number of rounds of a transfer of [n] bytes: one for each block it
    touches. *)
Definition io_fuel (n : Z) : nat := Z.to_nat (n / BSIZE + 3).

Fixpoint readi_loop (fuel : nat) (ip : nat) (off n : Z) : M fsst (list Z) :=
  if n <=? 0 then mret []
  else match fuel with
  | O => fail NoFuel
  | S fuel' =>
      i ← iref ip;
      addr ← bmap ip (off / BSIZE);
      '(bp, x) ← getblk (i_dev i) addr;
      let m := Z.min n (BSIZE - off mod BSIZE) in
      putblk bp ;;
      r ← readi_loop fuel' ip (u32 (off + m)) (n - m);
      mret (take (Z.to_nat m) (drop (Z.to_nat (off mod BSIZE)) x) ++ r)
  end.

Fixpoint writei_loop (fuel : nat) (ip : nat) (off : Z) (src : list Z) : M fsst Z :=
  match src with
  | [] => mret off
  | _ =>
      match fuel with
      | O => fail NoFuel
      | S fuel' =>
          i ← iref ip;
          addr ← bmap ip (off / BSIZE);
          '(bp, x) ← getblk (i_dev i) addr;
          let m := Z.min (Z.of_nat (length src)) (BSIZE - off mod BSIZE) in
          setblk bp (overwrite (Z.to_nat (off mod BSIZE)) (take (Z.to_nat m) src) x) ;;
          logblk bp ;;
          putblk bp ;;
          writei_loop fuel' ip (u32 (off + m)) (drop (Z.to_nat m) src)
      end
  end.

Section devices.
Context `{!Devsw}.

Definition readi (ip : nat) (off n : Z) : M fsst (Z * list Z) :=
  i ← iref ip;
  if i_type i =? T_DEV then
    if (i_major i <? 0) || (NDEV <=? i_major i) then mret (-1, [])
    else match dev_read (i_major i) with
         | None => mret (-1, [])
         | Some rd => rd ip n
         end
  else if (i_size i <? off) || (u32 (off + n) <? off) then mret (-1, [])
  else
    let n := if i_size i <? u32 (off + n) then i_size i - off else n in
    r ← readi_loop (io_fuel n) ip off n;
    mret (s32 n, r).

Definition writei (ip : nat) (src : list Z) (off : Z) : M fsst Z :=
  let n := Z.of_nat (length src) in
  i ← iref ip;
  if i_type i =? T_DEV then
    if (i_major i <? 0) || (NDEV <=? i_major i) then mret (-1)
    else match dev_write (i_major i) with
         | None => mret (-1)
         | Some wr => wr ip src
         end
  else if (i_size i <? off) || (u32 (off + n) <? off) then mret (-1)
  else if MAXFILE * BSIZE <? u32 (off + n) then mret (-1)
  else
    off ← writei_loop (io_fuel n) ip off src;
    i ← iref ip;
    when ((0 <? n) && (i_size i <? off)) (imodify ip (set_isize off) ;; iupdate ip) ;;
    mret (s32 n).

(** ** Directories

    A [struct dirent] has 16 bytes: [inum], then [DIRSIZ] bytes of the name.
    A name is the list of its bytes, without the byte 0 that may end it. *)

Fixpoint name_strncmp (n : nat) (p q : list Z) : Z :=
  match n with
  | O => 0
  | S n' =>
      let a := byte_at p 0 in
      let b := byte_at q 0 in
      if nz a && (a =? b) then name_strncmp n' (tail p) (tail q) else a - b
  end.

Definition namecmp (s t : list Z) : Z := name_strncmp DIRSIZ s t.

(** [strncpy(de.name, name, DIRSIZ)]. *)
Fixpoint name_strncpy (n : nat) (s : list Z) : list Z :=
  match n with
  | O => []
  | S n' =>
      match s with
      | [] => 0 :: name_strncpy n' []
      | c :: s' => if c =? 0 then 0 :: name_strncpy n' [] else c :: name_strncpy n' s'
      end
  end.

Definition de_inum (de : list Z) : Z := get16 de 0.
Definition de_name (de : list Z) : list Z := take DIRSIZ (drop 2 de).
Definition mk_dirent (inum : Z) (name : list Z) : list Z :=
  enc16 (u16 inum) ++ name_strncpy DIRSIZ name.

Definition read_dirent (dp : nat) (off : Z) (msg : string) : M fsst (list Z) :=
  '(r, de) ← readi dp off 16;
  if negb (r =? 16) then panic msg else mret de.

Fixpoint dirlookup_loop (fuel : nat) (dp : nat) (name : list Z) (off : Z) : M fsst (option (nat * Z)) :=
  i ← iref dp;
  if off <? i_size i then
    match fuel with
    | O => fail NoFuel
    | S fuel' =>
        de ← read_dirent dp off "dirlookup read";
        if de_inum de =? 0 then dirlookup_loop fuel' dp name (u32 (off + 16))
        else if namecmp name (de_name de) =? 0 then
          ip ← iget (i_dev i) (de_inum de);
          mret (Some (ip, off))
        else dirlookup_loop fuel' dp name (u32 (off + 16))
    end
  else mret None.

Definition dir_fuel (size : Z) : nat := Z.to_nat (size / 16 + 1).

Definition dirlookup (dp : nat) (name : list Z) : M fsst (option (nat * Z)) :=
  i ← iref dp;
  if negb (i_type i =? T_DIR) then panic "dirlookup not DIR"
  else dirlookup_loop (dir_fuel (i_size i)) dp name 0.

(** The search for an empty entry; its offset, or the end of the directory. *)
Fixpoint dirlink_loop (fuel : nat) (dp : nat) (off : Z) : M fsst Z :=
  i ← iref dp;
  if off <? i_size i then
    match fuel with
    | O => fail NoFuel
    | S fuel' =>
        de ← read_dirent dp off "dirlink read";
        if de_inum de =? 0 then mret off else dirlink_loop fuel' dp (off + 16)
    end
  else mret off.

Definition dirlink (dp : nat) (name : list Z) (inum : Z) : M fsst Z :=
  o ← dirlookup dp name;
  match o with
  | Some (ip, _) => iput ip ;; mret (-1)
  | None =>
      i ← iref dp;
      off ← dirlink_loop (dir_fuel (i_size i)) dp 0;
      r ← writei dp (mk_dirent inum name) off;
      if negb (r =? 16) then panic "dirlink" else mret 0
  end.

(** ** Paths

    A path is the list of its bytes up to the byte 0 that ends it. *)

Definition SLASH := 47.

Fixpoint skip_slashes (p : list Z) : list Z :=
  match p with c :: p' => if c =? SLASH then skip_slashes p' else p | [] => [] end.
Fixpoint element (p : list Z) : list Z :=
  match p with c :: p' => if c =? SLASH then [] else c :: element p' | [] => [] end.

(** The rest of the path and the element, cut to [DIRSIZ] bytes. *)
Definition skipelem (path : list Z) : option (list Z * list Z) :=
  let path := skip_slashes path in
  match path with
  | [] => None
  | _ =>
      let s := element path in
      let path := drop (length s) path in
      Some (skip_slashes path, take DIRSIZ s)
  end.

Fixpoint namex_loop (fuel : nat) (ip : nat) (path : list Z) (parent : bool) (name : list Z) :
    M fsst (option (nat * list Z)) :=
  match fuel with
  | O => fail NoFuel
  | S fuel' =>
      match skipelem path with
      | None => if parent then iput ip ;; mret None else mret (Some (ip, name))
      | Some (path, name) =>
          ilock ip ;;
          i ← iref ip;
          if negb (i_type i =? T_DIR) then iunlockput ip ;; mret None
          else if parent && bool_decide (path = []) then iunlock ip ;; mret (Some (ip, name))
          else
            next ← dirlookup ip name;
            match next with
            | None => iunlockput ip ;; mret None
            | Some (next, _) => iunlockput ip ;; namex_loop fuel' next path parent name
            end
      end
  end.

Definition namex (path : list Z) (parent : bool) : M fsst (option (nat * list Z)) :=
  ip ← (if bool_decide (head path = Some SLASH) then iget ROOTDEV ROOTINO
        else cwd ← gets fcwd; idup cwd);
  namex_loop (S (length path)) ip path parent [].

Definition namei (path : list Z) : M fsst (option nat) :=
  r ← namex path false;
  mret (fst <$> r).

Definition nameiparent (path : list Z) : M fsst (option (nat * list Z)) := namex path true.

End devices.
