(* ===== verification/FsSpec.v ===== *)
(** * FsSpec: the blocks of a transaction

    Between [begin_op] and [end_op] the file system works on blocks it holds in
    the buffer cache, and logs those it changes.  This file reduces the calls
    it makes to reads and updates of a function from block numbers to contents;
    the layers above are proved with these rules only. *)

From S2P Require Import Prelude Mmu Bytes Bio BioSpec Log LogSpec Fs.

(** ** Outcomes

    [wpe E c Q s]: [c] ends normally in [Q], or fails with an error in [E]. *)

Definition wpe {S A} (E : err → Prop) (c : M S A) (Q : A → S → Prop) (s : S) : Prop :=
  match c s with Ok a s' => Q a s' | Err e => E e end.

Section wpe.
Context {S : Type} (E : err → Prop).

Lemma wpe_ret {A} (a : A) (Q : A → S → Prop) s : Q a s → wpe E (mret a) Q s.
Proof. done. Qed.

Lemma wpe_bind {A B} (c : M S A) (f : A → M S B) Q s :
  wpe E c (λ a, wpe E (f a) Q) s → wpe E (c ≫= f) Q s.
Proof. unfold wpe, mbind, M_bind. by destruct (c s). Qed.

Lemma wpe_gets {A} (f : S → A) (Q : A → S → Prop) s : Q (f s) s → wpe E (gets f) Q s.
Proof. done. Qed.

Lemma wpe_mono {A} (c : M S A) (Q Q' : A → S → Prop) s :
  wpe E c Q s → (∀ a s', Q a s' → Q' a s') → wpe E c Q' s.
Proof. unfold wpe. destruct (c s); eauto. Qed.

Lemma wpe_ok {A} (c : M S A) a s s' (Q : A → S → Prop) : c s = Ok a s' → Q a s' → wpe E c Q s.
Proof. unfold wpe. by intros ->. Qed.

Lemma wpe_err {A} (c : M S A) e s (Q : A → S → Prop) : c s = Err e → E e → wpe E c Q s.
Proof. unfold wpe. by intros ->. Qed.
End wpe.

Lemma wpe_weaken {S A} (E E' : err → Prop) (c : M S A) Q s :
  (∀ e, E e → E' e) → wpe E c Q s → wpe E' c Q s.
Proof. unfold wpe. destruct (c s); eauto. Qed.

(** ** The state of a transaction *)

(** What stays fixed during a transaction: where the log is, who is in it, and
    the running process. *)
Record logcfg := mkCfg { c_start : Z; c_size : Z; c_outstanding : Z; c_committing : bool; c_pid : Z }.
Definition lstat (t : lst) : logcfg :=
  let g := llog t in mkCfg (lg_start g) (lg_size g) (lg_outstanding g) (lg_committing g) (cur_pid (lbio t)).

(** [V]: what the file system sees of each block.  [P]: the blocks logged so
    far.  [H]: the buffers held, with their block numbers. *)
Record tx (G : logcfg) (t : lst) (V : Z → block) (P : list Z) (H : list (nat * Z)) : Prop := {
  tx_bio : ∃ l, binv (lbio t) l H.*1;
  tx_log : log_ok (llog t) P;
  tx_stat : lstat t = G;
  tx_pin : ∀ z, pinned (lbio t) z ↔ z ∈ P;
  tx_view : ∀ z, view (lbio t) z = V z;
  tx_held : ∀ i bn, (i, bn) ∈ H → ∃ d, holds (lbio t) i bn (V bn) d ∧ (d = false → V bn = disk (lbio t) 1 bn)
}.

(** A block's contents replaced. *)
Definition vupd (V : Z → block) (bn : Z) (y : block) : Z → block := λ z, if decide (z = bn) then y else V z.

Lemma vupd_eq V bn y : vupd V bn y bn = y.
Proof. unfold vupd. by rewrite decide_True. Qed.
Lemma vupd_ne V bn y z : z ≠ bn → vupd V bn y z = V z.
Proof. intros. unfold vupd. by rewrite decide_False. Qed.

(** The top buffer has been given the contents [y], which are not logged yet. *)
Record txm (G : logcfg) (t : lst) (V : Z → block) (P : list Z) (i : nat) (bn : Z) (y : block) (H : list (nat * Z)) : Prop := {
  tm_bio : ∃ l, binv (lbio t) l (i :: H.*1);
  tm_log : log_ok (llog t) P;
  tm_stat : lstat t = G;
  tm_pin : ∀ z, pinned (lbio t) z ↔ z ∈ P;
  tm_view : ∀ z, view (lbio t) z = vupd V bn y z;
  tm_top : ∃ d, holds (lbio t) i bn y d;
  tm_ne : bn ∉ H.*2;
  tm_held : ∀ j z, (j, z) ∈ H → ∃ d, holds (lbio t) j z (V z) d ∧ (d = false → V z = disk (lbio t) 1 z)
}.

(** [k] more blocks fit into the log. *)
Definition fits (G : logcfg) (P : list Z) (k : Z) : Prop :=
  Z.of_nat (length P) + k ≤ LOGSIZE - 1 ∧ Z.of_nat (length P) + k ≤ c_size G - 1.
Definition off_log (G : logcfg) (bn : Z) : Prop := bn < c_start G ∨ c_start G + c_size G ≤ bn.

Lemma holds_inj s i bn x d bn' x' d' : holds s i bn x d → holds s i bn' x' d' → bn = bn' ∧ x = x' ∧ d = d'.
Proof.
  intros (b & Eb & <- & <- & Hf) (b' & Eb' & <- & <- & Hf'). rewrite Eb in Eb'. injection Eb' as <-.
  rewrite Hf in Hf'. by destruct d, d'.
Qed.

Lemma elem_fst (H : list (nat * Z)) i : i ∈ H.*1 → ∃ bn, (i, bn) ∈ H.
Proof. intros ([j bn] & -> & Hj)%list_elem_of_fmap. by exists bn. Qed.

Lemma elem_snd (H : list (nat * Z)) i bn : (i, bn) ∈ H → bn ∈ H.*2.
Proof. intros Hi. apply list_elem_of_fmap. by exists (i, bn). Qed.

Section Tx.
Context (G : logcfg).

Lemma tx_no_other t V P H bn : tx G t V P H → bn ∉ H.*2 → ∀ i x d, i ∈ H.*1 → ¬ holds (lbio t) i bn x d.
Proof.
  intros Ht Hn i x d (z & Hz)%elem_fst Hh. destruct (tx_held _ _ _ _ _ Ht i z Hz) as (d' & Hh' & _).
  destruct (holds_inj _ _ _ _ _ _ _ _ Hh Hh') as (-> & _). by apply elem_snd in Hz.
Qed.

Lemma tx_room t V P H : tx G t V P H → (length H + length P < NBUF)%nat → room (lbio t).
Proof.
  intros Ht Hl. destruct (tx_bio _ _ _ _ _ Ht) as [l Hi]. apply (room_count _ l H.*1 P); [done| |by rewrite length_fmap].
  intros bn. by rewrite (tx_pin _ _ _ _ _ Ht).
Qed.

Lemma bread_tx t V P H bn :
  tx G t V P H → 0 ≤ bn < FSSIZE → bn ∉ H.*2 → (length H + length P < NBUF)%nat →
  ∃ bp b', bread 1 bn (lbio t) = Ok bp b' ∧ tx G (mkLst b' (llog t)) V P ((bp, bn) :: H) ∧ holds b' bp bn (V bn) (bool_decide (bn ∈ P)).
Proof.
  intros Ht Hbn Hn Hl. destruct (tx_bio _ _ _ _ _ Ht) as [l Hi].
  destruct (bread_spec (lbio t) l H.*1 bn Hi Hbn (tx_no_other _ _ _ _ _ Ht Hn)) as (bp & b' & d & Eb & Hbp & Hi' & Hk & Hh & Hd).
  { right. by eapply tx_room. }
  exists bp, b'. rewrite (tx_view _ _ _ _ _ Ht), (tx_pin _ _ _ _ _ Ht) in *.
  assert (d = bool_decide (bn ∈ P)) as -> by (apply eq_bool_prop_intro; rewrite bool_decide_spec, <- Hd; by destruct d).
  destruct Ht as [_ T2 T3 T4 T5 T6]. destruct Hk as [K1 K2 K3 K4 K5 K6]. split; [done|]. split; [|done]. split; cbn; try done.
  - by exists l.
  - rewrite <- T3. unfold lstat. cbn. by rewrite K3.
  - intros z. by rewrite K5.
  - intros z. by rewrite K4.
  - intros j z [[= -> ->]|Hj]%elem_of_cons.
    + exists (bool_decide (bn ∈ P)). split; [done|]. rewrite bool_decide_eq_false. intros HnP. rewrite <- T5, K1.
      apply (view_clean _ l H.*1); [done|by rewrite T4|]. intros i x d Hi2 Hh2.
      apply elem_fst in Hi2 as [z Hz]. destruct (T6 i z Hz) as (d' & Hh' & _).
      destruct (holds_inj _ _ _ _ _ _ _ _ Hh2 Hh') as (-> & _). by apply elem_snd in Hz.
    + destruct (T6 j z Hj) as (d & Hd1 & Hd2). exists d. rewrite K1. split; [|done].
      apply K6; [|done]. apply list_elem_of_fmap. by exists (j, z).
Qed.

Lemma tx_perm t V P H H' : H ≡ₚ H' → tx G t V P H → tx G t V P H'.
Proof.
  intros Hp [[l T1] T2 T3 T4 T5 T6]. split; try done.
  - exists l. by apply (binv_perm _ _ H.*1); [rewrite Hp|].
  - intros i bn. rewrite <- Hp. apply T6.
Qed.

Lemma brelse_tx t V P H bp bn :
  tx G t V P ((bp, bn) :: H) → ∃ b', brelse bp (lbio t) = Ok tt b' ∧ tx G (mkLst b' (llog t)) V P H.
Proof.
  intros [[l T1] T2 T3 T4 T5 T6]. destruct (T6 bp bn) as (d & Hh & Hd); [left|]. cbn in T1.
  destruct (brelse_spec _ _ _ _ _ _ _ T1 Hh Hd) as (b' & l' & E & Hi' & [K1 K2 K3 K4 K5 K6]).
  exists b'. split; [done|]. split; cbn; try done.
  - by exists l'.
  - rewrite <- T3. unfold lstat. cbn. by rewrite K3.
  - intros z. by rewrite K5.
  - intros z. by rewrite K4.
  - intros j z Hj. destruct (T6 j z) as (e & He & Hed); [by right|]. exists e. rewrite K1. split; [|done].
    apply K6; [|done]. apply list_elem_of_fmap. by exists (j, z).
Qed.

Lemma tx_held_ne t V P H bp bn : tx G t V P ((bp, bn) :: H) → bn ∉ H.*2.
Proof.
  intros [[l T1] T2 T3 T4 T5 T6] ([j z] & Ez & Hj)%list_elem_of_fmap. cbn in Ez. subst z.
  destruct (T6 bp bn) as (d & Hh & _); [left|]. destruct (T6 j bn) as (e & He & _); [by right|].
  cbn in T1. destruct (held_node _ _ _ _ _ _ _ T1 Hh) as (_ & _ & Hne & b & Eb & Hbn & _ & _ & Hdev & _ & _ & _ & _ & Hu).
  destruct He as (c & Ec & Hcn & _ & _).
  assert (Hj1 : j ∈ H.*1) by (apply list_elem_of_fmap; by exists (j, bn)).
  assert (Hjn : (j < NBUF)%nat) by (apply (bi_held _ _ _ T1); by right).
  destruct (bi_buf _ _ _ T1 j c Hjn Ec) as [_ Hc]. rewrite decide_True in Hc by (by right).
  apply (Hu Hdev j c Hjn); [by intros ->|done|apply Hc|]. by rewrite Hbn.
Qed.

Lemma setdata_tx t V P H bp bn y :
  tx G t V P ((bp, bn) :: H) → is_block y →
  ∃ b', bmodify bp (set_data y) (lbio t) = Ok tt b' ∧ txm G (mkLst b' (llog t)) V P bp bn y H.
Proof.
  intros Ht Hy. pose proof (tx_held_ne _ _ _ _ _ _ Ht) as Hne. destruct Ht as [[l T1] T2 T3 T4 T5 T6].
  destruct (T6 bp bn) as (d & Hh & Hd); [left|]. cbn in T1.
  destruct (held_node _ _ _ _ _ _ _ T1 Hh) as (_ & Hlt & HnH & b & Eb & _ & _ & Hf & _).
  destruct (held_put _ _ _ _ _ _ _ T1 Hh b y d Eb Hy) as (Hi' & Hh' & Hv & Hp & Ho).
  exists (bput bp (set_flags (if d then 6 else 2) (set_data y b)) (lbio t)). split.
  { rewrite <- (bput_id bp b (lbio t) Eb) at 1. rewrite bmodify_put by done. rewrite <- Hf. by destruct b. }
  split; cbn; try done.
  - by exists l.
  - intros z. rewrite Hp. case_decide as Hz; [|done]. subst z. rewrite <- T4. symmetry. by eapply held_pinned.
  - intros z. rewrite Hv. unfold vupd. case_decide; [done|apply T5].
  - by exists d.
  - intros j z Hj. destruct (T6 j z) as (e & He & Hed); [by right|]. exists e. split; [|done].
    apply Ho; [|done]. apply list_elem_of_fmap. by exists (j, z).
Qed.

Lemma log_write_tx t V P H bp bn y :
  txm G t V P bp bn y H → fits G P 1 → 1 ≤ c_outstanding G → off_log G bn →
  ∃ t', log_write bp t = Ok tt t' ∧ tx G t' (vupd V bn y) (logged P bn) ((bp, bn) :: H).
Proof.
  intros [[l T1] T2 T3 T4 T5 [d T6] T7 T8] [F1 F2] Ho Hoff. destruct t as [b g]. cbn in *.
  rewrite <- T3 in *. cbn in *.
  destruct (log_write_spec g P b l H.*1 bp bn y d T2 T1 T6 T4) as
    (b' & g' & E & L1 & L2 & L3 & L4 & L5 & L6 & _ & Lp & L7 & L8 & L9 & L10 & L11); [unfold LOGSIZE in *; lia|lia|done|].
  exists (mkLst b' g'). split; [done|]. split; cbn; try done.
  - by exists l.
  - unfold lstat in *. cbn in *. congruence.
  - intros z. by rewrite L5.
  - intros j z [[= -> ->]|Hj]%elem_of_cons.
    + exists true. rewrite vupd_eq. done.
    + assert (z ≠ bn) by (intros ->; by apply T7, (elem_snd _ j)). rewrite vupd_ne by done.
      destruct (T8 j z Hj) as (e & He & Hed). exists e. rewrite L6. split; [|done].
      apply L11; [|done]. apply list_elem_of_fmap. by exists (j, z).
Qed.
End Tx.

(** ** The file system *)

(** The state between two calls: the blocks, the inode cache [I], the
    superblock and the current directory. *)
Record fs (G : logcfg) (sb : superblock) (cw : nat) (V : Z → block) (P : list Z) (H : list (nat * Z))
    (I : list inode) (s : fsst) : Prop := {
  fs_tx : tx G (ftx s) V P H;
  fs_sb : fsb s = sb;
  fs_ic : icache s = I;
  fs_cw : fcwd s = cw
}.
Record fsm (G : logcfg) (sb : superblock) (cw : nat) (V : Z → block) (P : list Z) (bp : nat) (bn : Z) (y : block)
    (H : list (nat * Z)) (I : list inode) (s : fsst) : Prop := {
  fm_tx : txm G (ftx s) V P bp bn y H;
  fm_sb : fsb s = sb;
  fm_ic : icache s = I;
  fm_cw : fcwd s = cw
}.

Section Fs.
Context (G : logcfg) (sb : superblock) (cw : nat) (E : err → Prop).
Notation fs := (fs G sb cw).
Notation fsm := (fsm G sb cw).

Lemma on_tx_bio {A} (c : M bio A) s a b :
  c (lbio (ftx s)) = Ok a b → on_tx (on_bio c) s = Ok a (set_ftx (mkLst b (llog (ftx s))) s).
Proof. intros Ec. unfold on_tx, on_bio. by rewrite Ec. Qed.

Lemma fs_set_ftx V P H I V' P' H' s t : fs V P H I s → tx G t V' P' H' → fs V' P' H' I (set_ftx t s).
Proof. intros [F1 F2 F3 F4] Ht. by split. Qed.

Lemma getblk_wp V P H I s bn Q :
  fs V P H I s → 0 ≤ bn < FSSIZE → bn ∉ H.*2 → (length H + length P < NBUF)%nat →
  (∀ bp s', fs V P ((bp, bn) :: H) I s' → Q (bp, V bn) s') → wpe E (getblk 1 bn) Q s.
Proof.
  intros Hf Hbn Hn Hl HQ. destruct (bread_tx G _ _ _ _ bn (fs_tx _ _ _ _ _ _ _ _ Hf) Hbn Hn Hl) as (bp & b' & Eb & Ht & Hh).
  destruct Hh as (b & Ec & _ & Hd & _).
  eapply wpe_ok; [|apply (HQ bp (set_ftx (mkLst b' (llog (ftx s))) s)); by eapply fs_set_ftx].
  unfold getblk. erewrite bind_ok by (by apply on_tx_bio). erewrite bind_ok.
  2: { apply on_tx_bio. cbn [lbio ftx set_ftx]. by apply bnode_eq. }
  by rewrite Hd.
Qed.

Lemma putblk_wp V P H I s bp bn Q :
  fs V P ((bp, bn) :: H) I s → (∀ s', fs V P H I s' → Q tt s') → wpe E (putblk bp) Q s.
Proof.
  intros Hf HQ. destruct (brelse_tx G _ _ _ _ _ _ (fs_tx _ _ _ _ _ _ _ _ Hf)) as (b' & Eb & Ht).
  eapply wpe_ok; [by apply on_tx_bio|]. apply HQ. by eapply fs_set_ftx.
Qed.

Lemma setblk_wp V P H I s bp bn y Q :
  fs V P ((bp, bn) :: H) I s → is_block y → (∀ s', fsm V P bp bn y H I s' → Q tt s') → wpe E (setblk bp y) Q s.
Proof.
  intros Hf Hy HQ. destruct (setdata_tx G _ _ _ _ _ _ y (fs_tx _ _ _ _ _ _ _ _ Hf) Hy) as (b' & Eb & Ht).
  eapply wpe_ok; [by apply on_tx_bio|]. apply HQ. destruct Hf. by split.
Qed.

Lemma logblk_wp V P H I s bp bn y Q :
  fsm V P bp bn y H I s → fits G P 1 → 1 ≤ c_outstanding G → off_log G bn →
  (∀ s', fs (vupd V bn y) (logged P bn) ((bp, bn) :: H) I s' → Q tt s') → wpe E (logblk bp) Q s.
Proof.
  intros [Hm M2 M3 M4] Hfit Ho Hoff HQ. destruct (log_write_tx G _ _ _ _ _ _ _ Hm Hfit Ho Hoff) as (t' & Et & Ht).
  apply (wpe_ok _ _ tt _ (set_ftx t' s)); [unfold logblk, on_tx; by rewrite Et|]. apply HQ. by split.
Qed.

(** The three calls that store a block and release it. *)
Lemma store_wp {A} V P H I s bp bn y (k : M fsst A) Q :
  fs V P ((bp, bn) :: H) I s → is_block y → fits G P 1 → 1 ≤ c_outstanding G → off_log G bn →
  (∀ s', fs (vupd V bn y) (logged P bn) H I s' → wpe E k Q s') →
  wpe E (setblk bp y ;; logblk bp ;; putblk bp ;; k) Q s.
Proof.
  intros Hf Hy Hfit Ho Hoff HQ. apply wpe_bind. eapply setblk_wp; [done|done|]. intros s1 H1.
  apply wpe_bind. eapply logblk_wp; [exact H1|exact Hfit|exact Ho|exact Hoff|]. intros s2 H2. apply wpe_bind. eapply putblk_wp; [done|]. intros s3 H3. by apply HQ.
Qed.

Lemma store_end_wp V P H I s bp bn y Q :
  fs V P ((bp, bn) :: H) I s → is_block y → fits G P 1 → 1 ≤ c_outstanding G → off_log G bn →
  (∀ s', fs (vupd V bn y) (logged P bn) H I s' → Q tt s') →
  wpe E (setblk bp y ;; logblk bp ;; putblk bp) Q s.
Proof.
  intros Hf Hy Hfit Ho Hoff HQ. apply wpe_bind. eapply setblk_wp; [done|done|]. intros s1 H1.
  apply wpe_bind. eapply logblk_wp; [exact H1|exact Hfit|exact Ho|exact Hoff|]. intros s2 H2. by eapply putblk_wp.
Qed.

Lemma fs_perm V P H H' I s : H ≡ₚ H' → fs V P H I s → fs V P H' I s.
Proof. intros Hp [F1 F2 F3 F4]. split; try done. by eapply tx_perm. Qed.

Lemma iref_wp V P H I s ip i (Q : inode → fsst → Prop) :
  fs V P H I s → I !! ip = Some i → Q i s → wpe E (iref ip) Q s.
Proof. intros [_ _ F3 _] Hi HQ. unfold wpe, iref. by rewrite F3, Hi. Qed.

Lemma imodify_wp V P H I s ip i f (Q : unit → fsst → Prop) :
  fs V P H I s → I !! ip = Some i → (∀ s', fs V P H (<[ip:=f i]> I) s' → Q tt s') → wpe E (imodify ip f) Q s.
Proof.
  intros [F1 F2 F3 F4] Hi HQ. unfold wpe, imodify. rewrite F3, Hi. apply HQ. split; cbn; try done.
  apply list_eq. intros j. destruct (decide (ip = j)) as [->|Hn].
  - rewrite list_lookup_alter_eq, Hi, list_lookup_insert_eq; [done|]. by eapply lookup_lt_Some.
  - by rewrite list_lookup_alter_ne, list_lookup_insert_ne.
Qed.

Lemma sb_wp V P H I s (Q : superblock → fsst → Prop) : fs V P H I s → Q sb s → wpe E (gets fsb) Q s.
Proof. intros [_ F2 _ _] HQ. unfold wpe, gets. by rewrite F2. Qed.
End Fs.

(** [logged] adds at most one block. *)
Lemma length_logged P bn : (length P ≤ length (logged P bn) ≤ S (length P))%nat.
Proof. unfold logged. case_decide; [lia|]. rewrite length_app. cbn. lia. Qed.
Lemma logged_elem P bn : bn ∈ P → logged P bn = P.
Proof. intros. unfold logged. by rewrite decide_True. Qed.
Lemma elem_logged_l P bn z : z ∈ P → z ∈ logged P bn.
Proof. rewrite elem_logged. auto. Qed.

Lemma fits_logged G P bn k : fits G P (k + 1) → fits G (logged P bn) k.
Proof. unfold fits. pose proof (length_logged P bn). lia. Qed.
Lemma fits_le G P k k' : fits G P k → k' ≤ k → fits G P k'.
Proof. unfold fits. lia. Qed.
Lemma fits_room G P k h : fits G P k → Z.of_nat h ≤ k → (h + length P < NBUF)%nat.
Proof. unfold fits, LOGSIZE, NBUF. lia. Qed.
