(* ===== verification/FsBlocks.v ===== *)
(** * FsBlocks: the bitmap and the block allocator *)

From S2P Require Import Prelude Mmu Bytes Bio BioSpec Log LogSpec Fs FsSpec.

Lemma tx_block G t V P H z : tx G t V P H → is_block (V z).
Proof.
  intros Ht. rewrite <- (tx_view _ _ _ _ _ Ht). destruct (tx_bio _ _ _ _ _ Ht) as [l Hi].
  destruct (cached_dec (lbio t) z) as [(i & b & Hlt & Eb & Hd & <-)|Hn].
  - rewrite (view_cached _ l H.*1 i b) by done.
    destruct (bi_buf _ _ _ Hi i b Hlt Eb) as [[(_ & _ & _ & ?)|[? _]] _]; [done|lia].
  - rewrite view_uncached by done. apply Hi.
Qed.

Lemma fs_block G sb cw V P H I s z : fs G sb cw V P H I s → is_block (V z).
Proof. intros [Ht _ _ _]. by eapply tx_block. Qed.

(** ** Bits *)

Lemma bit_of_testbit x bi : 0 ≤ bi → bit_of x bi = Z.testbit (byte_at x (Z.to_nat (bi / 8))) (bi mod 8).
Proof.
  intros Hb. unfold bit_of. set (a := byte_at x _). set (k := bi mod 8). assert (Hk : 0 ≤ k) by (unfold k; dlia).
  destruct (Z.testbit a k) eqn:E.
  - apply nz_true. intros E0. assert (T : Z.testbit (Z.land a (Z.shiftl 1 k)) k = true).
    { rewrite Z.land_spec, E, Z.shiftl_spec, Z.sub_diag by done. done. }
    by rewrite E0, Z.bits_0 in T.
  - apply negb_false_iff, Z.eqb_eq. apply Z.bits_inj'. intros n Hn. rewrite Z.land_spec, Z.bits_0, Z.shiftl_spec by done.
    destruct (decide (n = k)) as [->|Hne]; [by rewrite E|].
    assert (Z.testbit 1 (n - k) = false) as ->; [|by rewrite andb_false_r].
    destruct (decide (n < k)); [by apply Z.testbit_neg_r; lia|]. rewrite <- (Z.pow_0_r 2). apply Z.pow2_bits_false. lia.
Qed.

Lemma testbit_one n : 0 ≤ n → Z.testbit 1 n = (n =? 0).
Proof.
  intros Hn. destruct (Z.eqb_spec n 0) as [->|Hne]; [done|]. rewrite <- (Z.pow_0_r 2). apply Z.pow2_bits_false. lia.
Qed.

Lemma testbit_shift k j : 0 ≤ k → 0 ≤ j → Z.testbit (Z.shiftl 1 k) j = (j =? k).
Proof.
  intros Hk Hj. rewrite Z.shiftl_spec by done. destruct (decide (j < k)).
  - rewrite Z.testbit_neg_r by lia. symmetry. apply Z.eqb_neq. lia.
  - rewrite testbit_one by lia. destruct (Z.eqb_spec (j - k) 0), (Z.eqb_spec j k); lia || done.
Qed.

Definition bit_in (x : block) (bi : Z) : Prop := 0 ≤ bi ∧ bi / 8 < Z.of_nat (length x).

Section Bits.
Context (x : block) (bi : Z) (v : Z).
Hypothesis Hin : bit_in x bi.
Let x' : block := overwrite (Z.to_nat (bi / 8)) [v] x.

Lemma bit_overwrite bj : bit_in x bj →
  bit_of x' bj = if decide (bj / 8 = bi / 8) then Z.testbit v (bj mod 8) else bit_of x bj.
Proof using Hin.
  intros [Hj Hjl]. destruct Hin as [Hi Hil]. assert (0 ≤ bj / 8 ∧ 0 ≤ bi / 8) by dlia. rewrite !bit_of_testbit by done. unfold x'. case_decide as Hd.
  - rewrite Hd. replace (Z.to_nat (bi / 8)) with (Z.to_nat (bi / 8) + 0)%nat at 2 by lia.
    by rewrite (byte_at_overwrite_in _ _ _ 0 v) by (cbn [length]; try done; lia).
  - rewrite byte_at_overwrite_out; [done|cbn [length]; lia|]. cbn [length]. lia.
Qed.
End Bits.

Lemma bit_set x bi bj :
  bit_in x bi → bit_in x bj → bit_of (set_bit bi x) bj = if decide (bj = bi) then true else bit_of x bj.
Proof.
  intros Hi Hj. unfold set_bit. rewrite bit_overwrite by done. destruct Hi as [Hi _], Hj as [Hj _].
  destruct (decide (bj / 8 = bi / 8)) as [Hd|Hd].
  - rewrite Z.lor_spec, testbit_shift by dlia. rewrite (bit_of_testbit x bj), Hd by done. case_decide as He.
    + subst. by rewrite Z.eqb_refl, orb_true_r.
    + rewrite (proj2 (Z.eqb_neq _ _)), orb_false_r by dlia. done.
  - rewrite decide_False by (by intros ->). done.
Qed.

Lemma bit_clear x bi bj :
  bit_in x bi → bit_in x bj → bit_of (clear_bit bi x) bj = if decide (bj = bi) then false else bit_of x bj.
Proof.
  intros Hi Hj. unfold clear_bit. rewrite bit_overwrite by done. destruct Hi as [Hi _], Hj as [Hj _].
  destruct (decide (bj / 8 = bi / 8)) as [Hd|Hd].
  - rewrite Z.land_spec, Z.lxor_spec, testbit_shift by dlia.
    assert (Z.testbit 255 (bj mod 8) = true) as ->.
    { change 255 with (Z.ones 8). apply Z.ones_spec_low. dlia. }
    rewrite (bit_of_testbit x bj), Hd by done. case_decide as He.
    + subst. by rewrite Z.eqb_refl, andb_false_r.
    + rewrite (proj2 (Z.eqb_neq _ _)), andb_true_r by dlia. done.
  - rewrite decide_False by (by intros ->). done.
Qed.

Lemma length_set_bit bi x : bit_in x bi → length (set_bit bi x) = length x.
Proof. intros [H1 H2]. apply length_overwrite. lia. Qed.
Lemma length_clear_bit bi x : bit_in x bi → length (clear_bit bi x) = length x.
Proof. intros [H1 H2]. apply length_overwrite. lia. Qed.

(** ** Layout

    The log, the inodes, the bitmap and the data blocks follow each other; the
    bitmap is one block, since the disk has no more than [FSSIZE] blocks. *)

Record layout (G : logcfg) (sb : superblock) : Prop := {
  ly_log : 0 ≤ c_start G ∧ c_start G + c_size G ≤ sb_inodestart sb ∧ 0 ≤ c_size G;
  ly_inodes : 0 < sb_ninodes sb ∧ sb_inodestart sb + (sb_ninodes sb - 1) / IPB < sb_bmapstart sb;
  ly_size : sb_bmapstart sb < sb_size sb ≤ FSSIZE
}.

Definition used (sb : superblock) (V : Z → block) (b : Z) : bool := bit_of (V (sb_bmapstart sb)) b.

(** All blocks before the data blocks are marked. *)
Definition meta_used (sb : superblock) (V : Z → block) : Prop := ∀ b, 0 ≤ b ≤ sb_bmapstart sb → used sb V b = true.

Lemma find_clear_spec x b size fuel : ∀ bi, 0 ≤ bi → BPB - bi < Z.of_nat fuel →
  match find_clear fuel x b bi size with
  | Some k => bi ≤ k < BPB ∧ b + k < size ∧ bit_of x k = false ∧ ∀ j, bi ≤ j < k → bit_of x j = true
  | None => ∀ j, bi ≤ j < BPB → b + j < size → bit_of x j = true
  end.
Proof.
  induction fuel as [|fuel IH]; intros bi Hbi Hf; [cbn; intros j; lia|]. cbn [find_clear].
  destruct ((bi <? BPB) && (b + bi <? size)) eqn:Hc.
  - apply andb_true_iff in Hc as [C1%Z.ltb_lt C2%Z.ltb_lt]. destruct (bit_of x bi) eqn:Eb.
    + specialize (IH (bi + 1) ltac:(lia) ltac:(lia)). destruct (find_clear fuel x b (bi + 1) size) as [k|].
      * destruct IH as (K1 & K2 & K3 & K4). split_and!; [lia|lia|lia|done|].
        intros j Hj. destruct (decide (j = bi)) as [->|]; [done|apply K4; lia].
      * intros j Hj1 Hj2. destruct (decide (j = bi)) as [->|]; [done|apply IH; lia].
    + split_and!; [lia|lia|lia|done|]. lia.
  - apply andb_false_iff in Hc. rewrite !Z.ltb_ge in Hc. intros j. lia.
Qed.

Section Alloc.
Context (G : logcfg) (sb : superblock) (cw : nat) (E : err → Prop).
Hypothesis Hly : layout G sb.
Hypothesis Hout : 1 ≤ c_outstanding G.
Notation fs := (fs G sb cw).
Notation bm := (sb_bmapstart sb).
Notation used := (used sb).

Lemma bm_range : 0 ≤ bm < FSSIZE ∧ off_log G bm.
Proof using Hly. destruct Hly as [L1 [L2 L2'] L3]. unfold off_log, IPB in *. assert (0 ≤ (sb_ninodes sb - 1) / 8) by dlia. lia. Qed.

Lemma bm_pos : 0 < bm.
Proof using Hly. destruct Hly as [L1 [L2 L2'] L3]. unfold IPB in *. assert (0 ≤ (sb_ninodes sb - 1) / 8) by dlia. lia. Qed.

Lemma BBLOCK_bm b : 0 ≤ b < FSSIZE → BBLOCK b sb = bm.
Proof using Hly.
  intros Hb. unfold BBLOCK, BPB, BSIZE, FSSIZE in *. pose proof bm_range. unfold FSSIZE in *.
  rewrite Z.div_small by lia. apply u32_small. unfold is_u32. lia.
Qed.

Lemma data_off_log b : bm < b → off_log G b.
Proof using Hly. intros Hb. destruct Hly as [L1 [L2 L2'] L3]. unfold off_log, IPB in *. assert (0 ≤ (sb_ninodes sb - 1) / 8) by dlia. lia. Qed.

Lemma bits_in (x : block) b : is_block x → 0 ≤ b < FSSIZE → bit_in x b.
Proof. unfold is_block, bit_in, BSIZE, FSSIZE. intros ->. intros. split; [lia|]. dlia. Qed.

Lemma bzero_wp V P H I s b Q :
  fs V P H I s → bm < b < FSSIZE → b ∉ H.*2 → fits G P 1 → (length H ≤ 1)%nat →
  (∀ s', fs (vupd V b zero_block) (logged P b) H I s' → Q tt s') → wpe E (bzero 1 b) Q s.
Proof using Hly Hout.
  intros Hf Hb Hn Hfit Hl HQ. unfold bzero. pose proof bm_range as [? _].
  rewrite u32_small by (unfold is_u32, FSSIZE in *; lia). apply wpe_bind.
  eapply getblk_wp; [exact Hf|lia|done|by eapply (fits_room _ _ 1); [|lia]|]. intros bp s1 H1. cbn beta iota.
  eapply store_end_wp; [exact H1|done|exact Hfit|exact Hout|apply data_off_log; lia|exact HQ].
Qed.

(** What [balloc] leaves behind when it gives out block [b]. *)
Definition alloc_view (V : Z → block) (b : Z) : Z → block := vupd (vupd V bm (set_bit b (V bm))) b zero_block.
Definition alloc_log (P : list Z) (b : Z) : list Z := logged (logged P bm) b.

Lemma balloc_wp V P H I s Q :
  fs V P H I s → bm ∉ H.*2 → (∀ b, used V b = false → b ∉ H.*2) → meta_used sb V → fits G P 1 → fits G (logged P bm) 1 →
  (length H ≤ 1)%nat →
  (∀ b s', bm < b < sb_size sb → used V b = false → (∀ j, 0 ≤ j < b → used V j = true) →
     fs (alloc_view V b) (alloc_log P b) H I s' → Q b s') →
  ((∀ b, 0 ≤ b < sb_size sb → used V b = true) → E (Panic "balloc: out of blocks")) →
  wpe E (balloc 1) Q s.
Proof using Hly Hout.
  intros Hf Hbm Hfree Hmeta Hfit Hfit2 Hl HQ HE. pose proof bm_range as [Hbmr Hbmo]. pose proof (ly_size _ _ Hly) as Hsz.
  unfold balloc. apply wpe_bind. eapply sb_wp; [exact Hf|]. cbn [balloc_loop].
  apply wpe_bind. eapply sb_wp; [exact Hf|]. rewrite (proj2 (Z.ltb_lt 0 _)) by lia.
  rewrite BBLOCK_bm by (unfold FSSIZE in *; lia). apply wpe_bind.
  eapply getblk_wp; [exact Hf|done|done|eapply fits_room; [exact Hfit|lia]|]. intros bp s1 H1. cbn beta iota.
  pose proof (find_clear_spec (V bm) 0 (sb_size sb) (S (Z.to_nat BPB)) 0 ltac:(lia) ltac:(unfold BPB, BSIZE; lia)) as Hfc.
  destruct (find_clear _ _ _ _ _) as [b|].
  - destruct Hfc as (F1 & F2 & F3 & F4). rewrite Z.add_0_l in F2 |- *.
    assert (Hbb : bm < b) by (destruct (decide (bm < b)); [done|]; pose proof (Hmeta b ltac:(lia)) as Hm; unfold FsBlocks.used in Hm; congruence).
    eapply store_wp; [exact H1| |exact Hfit|exact Hout|done|].
    { unfold is_block. rewrite length_set_bit; [by eapply fs_block|]. apply bits_in; [by eapply fs_block|lia]. }
    intros s2 H2. apply wpe_bind. eapply bzero_wp; [exact H2|lia|by apply Hfree|exact Hfit2|done|].
    intros s3 H3. apply wpe_ret. rewrite u32_small by (unfold is_u32, FSSIZE in *; lia). apply HQ; [lia|done|exact F4|exact H3].
  - apply wpe_bind. eapply putblk_wp; [exact H1|]. intros s2 H2.
    eapply (wpe_err _ _ (Panic "balloc: out of blocks")).
    + destruct (Z.to_nat (sb_size sb / BPB)); cbn [balloc_loop].
      all: erewrite bind_ok by done; rewrite (fs_sb _ _ _ _ _ _ _ _ H2).
      all: rewrite (proj2 (Z.ltb_ge _ (sb_size sb))) by (unfold BPB, BSIZE, FSSIZE in *; lia); done.
    + apply HE. intros b Hb. apply Hfc; unfold BPB, BSIZE, FSSIZE in *; lia.
Qed.

(** Freeing block [b]. *)
Definition free_view (V : Z → block) (b : Z) : Z → block := vupd V bm (clear_bit b (V bm)).

Lemma bfree_wp V P H I s b Q :
  fs V P H I s → 0 ≤ b < FSSIZE → bm ∉ H.*2 → used V b = true → fits G P 1 → (length H ≤ 1)%nat →
  (∀ s', fs (free_view V b) (logged P bm) H I s' → Q tt s') → wpe E (bfree 1 b) Q s.
Proof using Hly Hout.
  intros Hf Hb Hn Hu Hfit Hl HQ. pose proof bm_range as [Hbmr Hbmo]. unfold bfree. apply wpe_bind. eapply sb_wp; [exact Hf|].
  rewrite BBLOCK_bm by done. apply wpe_bind.
  eapply getblk_wp; [exact Hf|done|done|eapply fits_room; [exact Hfit|lia]|]. intros bp s1 H1. cbn beta iota zeta.
  rewrite (Z.mod_small b BPB) by (unfold BPB, BSIZE, FSSIZE in *; lia).
  unfold FsBlocks.used in Hu. rewrite Hu. cbn [negb].
  eapply store_end_wp; [exact H1| |exact Hfit|exact Hout|done|exact HQ].
  unfold is_block. rewrite length_clear_bit; [by eapply fs_block|]. apply bits_in; [by eapply fs_block|done].
Qed.

Lemma bfree_free V P H I s b :
  fs V P H I s → 0 ≤ b < FSSIZE → bm ∉ H.*2 → used V b = false → (length H + length P < NBUF)%nat →
  bfree 1 b s = Err (Panic "freeing free block").
Proof using Hly.
  intros Hf Hb Hn Hu Hl. pose proof bm_range as [Hbmr _].
  enough (wpe (λ e, e = Panic "freeing free block") (bfree 1 b) (λ _ _, False) s) as Hw.
  { unfold wpe in Hw. destruct (bfree 1 b s); [done|]. by rewrite Hw. }
  unfold bfree. apply wpe_bind. eapply sb_wp; [exact Hf|]. rewrite BBLOCK_bm by done. apply wpe_bind.
  eapply getblk_wp; [exact Hf|done|done|exact Hl|]. intros bp s1 H1. cbn beta iota zeta.
  rewrite (Z.mod_small b BPB) by (unfold BPB, BSIZE, FSSIZE in *; lia). unfold FsBlocks.used in Hu. by rewrite Hu.
Qed.

(** The bitmap after an allocation and after a release. *)
Lemma used_alloc V b j :
  is_block (V bm) → bm < b < FSSIZE → 0 ≤ j < FSSIZE → used (alloc_view V b) j = if decide (j = b) then true else used V j.
Proof using Hly.
  intros Hx Hb Hj. unfold FsBlocks.used, alloc_view. rewrite vupd_ne by lia. rewrite vupd_eq.
  pose proof bm_range. apply bit_set; apply bits_in; done || lia.
Qed.

Lemma used_free V b j :
  is_block (V bm) → 0 ≤ b < FSSIZE → 0 ≤ j < FSSIZE → used (free_view V b) j = if decide (j = b) then false else used V j.
Proof using.
  intros Hx Hb Hj. unfold FsBlocks.used, free_view. rewrite vupd_eq. apply bit_clear; by apply bits_in.
Qed.
End Alloc.
