(* ===== verification/FsFile.v ===== *)
(** * FsFile: the contents of files

    A file's blocks are reached through 141 slots: the 140 data blocks, then the
    indirect block.  [bmap] fills slots; [readi] and [writei] are reads and
    writes of the byte sequence the slots describe. *)

From S2P Require Import Prelude Mmu Bytes Bio BioSpec Log LogSpec Fs FsSpec FsBlocks.

Definition NDATA : nat := 140.
Definition INDSLOT : nat := 140.

Definition slot (V : Z → block) (i : inode) (k : nat) : Z :=
  let ind := nth 12 (i_addrs i) 0 in
  if decide (k < 12)%nat then nth k (i_addrs i) 0
  else if decide (k = INDSLOT) then ind
  else if ind =? 0 then 0 else get32 (V ind) (4 * (k - 12)).

(** The blocks of a file are data blocks, marked in the bitmap, and no two slots
    share one. *)
Record file_ok (sb : superblock) (V : Z → block) (i : inode) : Prop := {
  fo_addrs : length (i_addrs i) = 13%nat;
  fo_range : ∀ k, (k ≤ INDSLOT)%nat → slot V i k ≠ 0 →
    sb_bmapstart sb < slot V i k < sb_size sb ∧ used sb V (slot V i k) = true;
  fo_inj : ∀ j k, (j ≤ INDSLOT)%nat → (k ≤ INDSLOT)%nat → slot V i j ≠ 0 → slot V i j = slot V i k → j = k
}.

(** From [V], [i] to [V'], [i'] at most slot [k] and the indirect block have been filled, with
    blocks that were free. *)
Record grows (sb : superblock) (V : Z → block) (i : inode) (V' : Z → block) (i' : inode) (k : nat) : Prop := {
  gr_ok : file_ok sb V' i';
  gr_meta : meta_used sb V';
  gr_same : i' = set_iaddrs (i_addrs i') i;
  gr_slots : ∀ j, (j < INDSLOT)%nat → j ≠ k → slot V' i' j = slot V i j;
  gr_keep : ∀ j, (j ≤ INDSLOT)%nat → slot V i j ≠ 0 → slot V' i' j = slot V i j;
  gr_set : slot V' i' k ≠ 0;
  gr_view : ∀ z, 0 ≤ z < FSSIZE → used sb V z = true → z ≠ sb_bmapstart sb → z ≠ slot V i INDSLOT → V' z = V z;
  gr_used : ∀ z, 0 ≤ z < FSSIZE → used sb V z = true → used sb V' z = true;
  gr_fresh : ∀ j, (j ≤ INDSLOT)%nat → slot V i j = 0 → slot V' i' j ≠ 0 → used sb V (slot V' i' j) = false;
  gr_zero : (k < INDSLOT)%nat → slot V i k = 0 → V' (slot V' i' k) = zero_block;
  gr_alloc : ∀ z, 0 ≤ z < FSSIZE → used sb V' z = true → used sb V z = true ∨ z = slot V' i' k ∨ z = slot V' i' INDSLOT
}.

Lemma slot_direct V i k : (k < 12)%nat → slot V i k = nth k (i_addrs i) 0.
Proof. intros. unfold slot. by rewrite decide_True. Qed.
Lemma slot_ind V i : slot V i INDSLOT = nth 12 (i_addrs i) 0.
Proof. unfold slot, INDSLOT. by rewrite decide_False, decide_True by lia. Qed.
Lemma slot_indirect V i k :
  (12 ≤ k)%nat → (k < INDSLOT)%nat → slot V i k = if slot V i INDSLOT =? 0 then 0 else get32 (V (slot V i INDSLOT)) (4 * (k - 12)).
Proof. intros. rewrite slot_ind. unfold slot. by rewrite !decide_False by lia. Qed.

Lemma nth_insert (l : list Z) k v j : (k < length l)%nat → nth j (<[k:=v]> l) 0 = if decide (j = k) then v else nth j l 0.
Proof.
  intros Hk. rewrite !nth_lookup. case_decide as Hj; [subst; by rewrite list_lookup_insert_eq|].
  by rewrite list_lookup_insert_ne.
Qed.

Section Grow.
Context (G : logcfg) (sb : superblock).
Hypothesis Hly : layout G sb.
Notation bm := (sb_bmapstart sb).
Notation used := (used sb).
Notation file_ok := (file_ok sb).
Notation grows := (grows sb).
Notation alloc_view := (alloc_view sb).

Lemma data_range z : bm < z < sb_size sb → 0 ≤ z < FSSIZE.
Proof using Hly. pose proof (bm_range G sb Hly) as [? _]. destruct Hly. lia. Qed.

Lemma slot_range V i k : file_ok V i → (k ≤ INDSLOT)%nat → slot V i k ≠ 0 → 0 ≤ slot V i k < FSSIZE.
Proof using Hly. intros Hf Hk Hs. apply data_range. by apply (fo_range _ _ _ Hf). Qed.

Lemma grows_refl V i k : file_ok V i → meta_used sb V → slot V i k ≠ 0 → grows V i V i k.
Proof using. intros Hf Hm Hs. split; try done. - by destruct i. - auto. Qed.

Lemma grows_trans V i V1 i1 V2 i2 k :
  grows V i V1 i1 INDSLOT → grows V1 i1 V2 i2 k → (k < INDSLOT)%nat →
  (slot V i INDSLOT = 0 → ∀ z, 0 ≤ z < FSSIZE → used V z = true → z ≠ slot V1 i1 INDSLOT) → grows V i V2 i2 k.
Proof using Hly.
  intros G1 G2 Hk Hind. destruct G1 as [A1 A2 A3 A4 A5 A6 A7 A8 A9 A10 A11], G2 as [B1 B2 B3 B4 B5 B6 B7 B8 B9 B10 B11].
  assert (Hk1 : ∀ j, (j < INDSLOT)%nat → slot V1 i1 j = slot V i j) by (intros; apply A4; lia).
  split; try done.
  - rewrite B3, A3. by destruct i.
  - intros j Hj Hne. by rewrite B4, Hk1.
  - intros j Hj Hs. rewrite B5; [by apply A5|done|]. by rewrite A5.
  - intros z Hz Hu Hbm Hni. rewrite B7; [by apply A7|done|by apply A8|done|].
    destruct (decide (slot V i INDSLOT = 0)) as [E0|E0]; [by apply Hind|]. by rewrite A5.
  - intros z Hz Hu. by apply B8, A8.
  - intros j Hj Hs Hs'. destruct (decide (slot V1 i1 j = 0)) as [E1|E1].
    + destruct (used V (slot V2 i2 j)) eqn:Eu; [|done]. pose proof (B9 j Hj E1 Hs') as Hn.
      rewrite (A8 _ (slot_range _ _ j B1 Hj Hs') Eu) in Hn. done.
    + rewrite B5 by done. by apply A9.
  - intros _ Hs. apply B10; [done|]. by rewrite Hk1.
  - intros z Hz Hu. destruct (B11 z Hz Hu) as [Hu1|[-> | ->]]; [|auto|auto].
    destruct (A11 z Hz Hu1) as [?|[-> | ->]]; [auto| |]; right; right; symmetry; by apply B5.
Qed.

Lemma get32_zero o : get32 zero_block o = 0.
Proof using.
  assert (Hb : ∀ j, byte_at zero_block j = 0).
  { intros j. unfold byte_at, zero_block. rewrite nth_lookup.
    destruct (replicate 512 0 !! j) eqn:Ej; [|done]. by apply lookup_replicate in Ej as [-> _]. }
  unfold get32, get16. by rewrite !Hb.
Qed.

Lemma alloc_view_other V b z : z ≠ bm → z ≠ b → alloc_view V b z = V z.
Proof using. intros. unfold FsBlocks.alloc_view. by rewrite !vupd_ne. Qed.
Lemma alloc_view_new V b : alloc_view V b b = zero_block.
Proof using. unfold FsBlocks.alloc_view. by rewrite vupd_eq. Qed.

Section NewBlock.
Context (V : Z → block) (i : inode) (b : Z).
Hypothesis Hblk : ∀ z, is_block (V z).
Hypothesis Hfile : file_ok V i.
Hypothesis Hmeta : meta_used sb V.
Hypothesis Hb : bm < b < sb_size sb.
Hypothesis Hfree : used V b = false.

Lemma new_used z : 0 ≤ z < FSSIZE → used (alloc_view V b) z = if decide (z = b) then true else used V z.
Proof using All. intros. apply (used_alloc G); [done|done| |done]. destruct Hly. lia. Qed.

Lemma new_used_mono z : 0 ≤ z < FSSIZE → used V z = true → used (alloc_view V b) z = true.
Proof using All. intros Hz Hu. rewrite new_used by done. by case_decide. Qed.

Lemma new_meta : meta_used sb (alloc_view V b).
Proof using All. intros z Hz. apply new_used_mono; [|by apply Hmeta]. pose proof (bm_range G sb Hly). lia. Qed.

(** The blocks of the file keep their contents. *)
Lemma new_slot_view k : (k ≤ INDSLOT)%nat → slot V i k ≠ 0 → slot V i k ≠ b ∧ slot V i k ≠ bm ∧ alloc_view V b (slot V i k) = V (slot V i k).
Proof using All.
  intros Hk Hs. destruct (fo_range _ _ _ Hfile k Hk Hs) as [Hr Hu].
  assert (slot V i k ≠ b) by congruence. split_and!; [done|lia|]. apply alloc_view_other; [lia|done].
Qed.

Let idx (k : nat) : nat := if decide (k < 12)%nat then k else 12%nat.
Let i' (k : nat) : inode := set_iaddrs (<[idx k:=b]> (i_addrs i)) i.

Lemma new_direct_slot k j :
  (k < 12)%nat ∨ k = INDSLOT → slot V i k = 0 → (j ≤ INDSLOT)%nat →
  slot (alloc_view V b) (i' k) j = if decide (j = k) then b else slot V i j.
Proof using All.
  intros Hk Hs Hj. pose proof (fo_addrs _ _ _ Hfile) as Hlen.
  assert (Hx : (idx k < length (i_addrs i))%nat) by (unfold idx; case_decide; lia).
  assert (Hd : ∀ j, nth j (i_addrs (i' k)) 0 = if decide (j = idx k) then b else nth j (i_addrs i) 0)
    by (intros; apply nth_insert; done).
  destruct (decide (j < 12)%nat) as [Hj12|Hj12]; [|destruct (decide (j = INDSLOT)) as [->|HjI]].
  - rewrite !slot_direct, Hd by done. unfold idx, INDSLOT in *. repeat case_decide; done || lia.
  - rewrite !slot_ind, Hd. unfold idx, INDSLOT in *. repeat case_decide; done || lia.
  - rewrite (decide_False (P := j = k)) by lia. rewrite (slot_indirect _ (i' k)), (slot_indirect V) by lia. rewrite (slot_ind _ (i' k)), Hd.
    destruct Hk as [Hk | ->].
    + rewrite decide_False by (unfold idx; case_decide; lia). rewrite <- (slot_ind V).
      destruct (Z.eqb_spec (slot V i INDSLOT) 0) as [|Hn]; [done|].
      by destruct (new_slot_view INDSLOT (le_n _) Hn) as (_ & _ & ->).
    + rewrite decide_True by (unfold idx, INDSLOT; by rewrite decide_False by lia). rewrite alloc_view_new, get32_zero, Hs, Z.eqb_refl. by destruct (b =? 0).
Qed.

Lemma grows_direct k :
  (k < 12)%nat ∨ k = INDSLOT → slot V i k = 0 → grows V i (alloc_view V b) (i' k) k.
Proof using All.
  intros Hk Hs. pose proof (new_direct_slot k) as Hsl. specialize (λ j, Hsl j Hk Hs).
  assert (HkI : (k ≤ INDSLOT)%nat) by (unfold INDSLOT in *; lia). pose proof (bm_range G sb Hly) as [Hbm0 _].
  assert (Hkk : slot (alloc_view V b) (i' k) k = b) by (rewrite Hsl by done; by rewrite decide_True).
  assert (Hne : ∀ j, (j ≤ INDSLOT)%nat → slot V i j ≠ 0 → j ≠ k) by (intros j _ Hj ->; done).
  split.
  - split; [cbn; rewrite length_insert; apply Hfile| |].
    + intros j Hj. rewrite Hsl by done. case_decide as Hd.
      * intros _. split; [done|]. rewrite new_used by (by eapply data_range). by rewrite decide_True.
      * intros Hn. destruct (fo_range _ _ _ Hfile j Hj Hn). split; [done|]. apply new_used_mono; [by eapply slot_range|done].
    + intros j j' Hj Hj'. rewrite !Hsl by done. do 2 case_decide; subst; try done.
      * intros _ E. exfalso. assert (slot V i j' ≠ 0) as Hn by lia. by destruct (new_slot_view j' Hj' Hn) as (? & _).
      * intros Hn E. exfalso. by destruct (new_slot_view j Hj Hn) as (? & _).
      * intros Hn E. by apply (fo_inj _ _ _ Hfile).
  - apply new_meta.
  - by destruct i.
  - intros j Hj Hjk. rewrite Hsl by lia. by rewrite decide_False.
  - intros j Hj Hn. rewrite Hsl by done. rewrite decide_False; [done|by apply Hne].
  - rewrite Hkk. lia.
  - intros z Hz Hu Hzb _. apply alloc_view_other; [done|congruence].
  - apply new_used_mono.
  - intros j Hj Hj0. rewrite Hsl by done. case_decide; [by subst|done].
  - intros _ _. by rewrite Hkk, alloc_view_new.
  - intros z Hz. rewrite new_used by done. rewrite Hkk. case_decide; auto.
Qed.

(** The indirect block with entry [k] set to [b]. *)
Let ind : Z := slot V i INDSLOT.
Let V2 (k : nat) : Z → block := vupd (alloc_view V b) ind (put32 (4 * (k - 12)) b (V ind)).

Lemma new_indirect_slot k j :
  (12 ≤ k)%nat → (k < INDSLOT)%nat → ind ≠ 0 → (j ≤ INDSLOT)%nat →
  slot (V2 k) i j = if decide (j = k) then b else slot V i j.
Proof using All.
  intros Hk1 Hk2 Hi Hj. assert (Hl : length (V ind) = 512%nat) by (by apply Hblk).
  destruct (decide (j < 12)%nat) as [Hj12|Hj12]; [|destruct (decide (j = INDSLOT)) as [->|HjI]].
  - rewrite !slot_direct by done. by rewrite decide_False by lia.
  - rewrite !slot_ind. by rewrite decide_False by (unfold INDSLOT in *; lia).
  - rewrite (slot_indirect (V2 k)), (slot_indirect V) by lia.
    change (slot (V2 k) i INDSLOT) with ind. change (slot V i INDSLOT) with ind.
    rewrite (proj2 (Z.eqb_neq ind 0)) by done. unfold V2. rewrite vupd_eq.
    unfold INDSLOT in *. case_decide as Hd.
    + subst j. apply get32_put32; [lia|]. pose proof (data_range b Hb). unfold is_u32, FSSIZE in *. lia.
    + apply get32_put32_ne; lia.
Qed.

Lemma used_indirect k z : ind ≠ 0 → used (V2 k) z = used (alloc_view V b) z.
Proof using All.
  intros Hi. destruct (new_slot_view INDSLOT (le_n _) Hi) as (_ & Hne & _).
  unfold FsBlocks.used, V2. by rewrite vupd_ne by (intros E; by apply Hne).
Qed.

Lemma grows_indirect k :
  (12 ≤ k)%nat → (k < INDSLOT)%nat → ind ≠ 0 → slot V i k = 0 → grows V i (V2 k) i k.
Proof using All.
  intros Hk1 Hk2 Hi Hs. pose proof (new_indirect_slot k) as Hsl. specialize (λ j, Hsl j Hk1 Hk2 Hi).
  pose proof (bm_range G sb Hly) as [Hbm0 _]. destruct (new_slot_view INDSLOT (le_n _) Hi) as (Hib & Hibm & _).
  assert (Hu2 : ∀ z, used (V2 k) z = used (alloc_view V b) z) by (intros; by apply used_indirect).
  assert (Hkk : slot (V2 k) i k = b) by (rewrite Hsl by lia; by rewrite decide_True).
  assert (Hne : ∀ j, (j ≤ INDSLOT)%nat → slot V i j ≠ 0 → j ≠ k) by (intros j _ Hj ->; done).
  split.
  - split; [apply Hfile| |].
    + intros j Hj. rewrite Hsl, Hu2 by done. case_decide as Hd.
      * intros _. split; [done|]. rewrite new_used by (by eapply data_range). by rewrite decide_True.
      * intros Hn. destruct (fo_range _ _ _ Hfile j Hj Hn). split; [done|]. apply new_used_mono; [by eapply slot_range|done].
    + intros j j' Hj Hj'. rewrite !Hsl by done. case_decide as D1; case_decide as D2; [congruence|..].
      * intros _ E. exfalso. assert (slot V i j' ≠ 0) as Hn by lia. by destruct (new_slot_view j' Hj' Hn) as (? & _).
      * intros Hn E. exfalso. by destruct (new_slot_view j Hj Hn) as (? & _).
      * intros Hn E. by apply (fo_inj _ _ _ Hfile).
  - intros z Hz. rewrite Hu2. by apply new_meta.
  - by destruct i.
  - intros j Hj Hjk. rewrite Hsl by lia. by rewrite decide_False.
  - intros j Hj Hn. rewrite Hsl by done. rewrite decide_False; [done|by apply Hne].
  - rewrite Hkk. lia.
  - intros z Hz Hu Hzb Hzi. unfold V2. rewrite vupd_ne by done. apply alloc_view_other; [done|congruence].
  - intros z Hz Hu. rewrite Hu2. by apply new_used_mono.
  - intros j Hj Hj0. rewrite Hsl by done. by case_decide.
  - intros _ _. rewrite Hkk. unfold V2. rewrite vupd_ne by (intros Eb; by apply Hib). apply alloc_view_new.
  - intros z Hz. rewrite Hu2, new_used by done. rewrite Hkk. case_decide; auto.
Qed.
End NewBlock.
End Grow.

(** ** [bmap] *)

Lemma insert_same {A} (l : list A) k x : l !! k = Some x → <[k:=x]> l = l.
Proof. intros. by apply list_insert_id. Qed.

Lemma fits_sub G P P0 L k :
  NoDup P → (∀ z, z ∈ P → z ∈ L ++ P0) → fits G P0 (Z.of_nat (length L) + k) → fits G P k.
Proof.
  intros Hn Hs [F1 F2]. pose proof (sub_length P (L ++ P0) Hn Hs) as Hl. rewrite length_app in Hl. unfold fits. lia.
Qed.

Lemma fs_nodup G sb cw V P H I s : fs G sb cw V P H I s → NoDup P.
Proof. intros [Ht _ _ _]. apply (lo_nodup _ _ (tx_log _ _ _ _ _ Ht)). Qed.

(** What is known of the free blocks while a file grows within its first [K]
    blocks: [R] of the disk and the inode, such that a full disk is an error in [E]. *)
Record reservation (sb : superblock) (E : err → Prop) (K : nat) (R : (Z → block) → inode → Prop) : Prop := {
  rv_full : ∀ V i k, R V i → (k < K)%nat ∨ k = INDSLOT → file_ok sb V i → slot V i k = 0 →
    (∀ b, 0 ≤ b < sb_size sb → used sb V b = true) → E (Panic "balloc: out of blocks");
  rv_grow : ∀ V i V' i' k, (k < K)%nat ∨ k = INDSLOT → file_ok sb V i → R V i → grows sb V i V' i' k → R V' i';
  rv_same : ∀ V i V' i', (∀ j, (j ≤ INDSLOT)%nat → slot V' i' j = slot V i j) → (∀ z, used sb V' z = used sb V z) → R V i → R V' i'
}.

(** Nothing is known, and a full disk is allowed. *)
Lemma no_reservation sb (E : err → Prop) : E (Panic "balloc: out of blocks") → reservation sb E INDSLOT (λ _ _, True).
Proof. intros HE. by split. Qed.

Section Bmap.
Context (G : logcfg) (sb : superblock) (cw : nat) (E : err → Prop).
Hypothesis Hly : layout G sb.
Hypothesis Hout : 1 ≤ c_outstanding G.
Context (K : nat) (R : (Z → block) → inode → Prop).
Hypothesis HR : reservation sb E K R.
Notation fs := (fs G sb cw).
Notation bm := (sb_bmapstart sb).
Notation used := (used sb).

Lemma get_addr_wp V P H I s ip i k (Q : Z → fsst → Prop) :
  fs V P H I s → I !! ip = Some i → (k < length (i_addrs i))%nat → Q (nth k (i_addrs i) 0) s → wpe E (get_addr ip k) Q s.
Proof using.
  intros Hf Hi Hk HQ. unfold get_addr. apply wpe_bind. eapply iref_wp; [exact Hf|exact Hi|].
  destruct (lookup_lt_is_Some_2 _ _ Hk) as [a Ha]. rewrite Ha. apply wpe_ret. by rewrite (nth_lookup_Some _ _ _ _ Ha) in HQ.
Qed.

Lemma put_addr_wp V P H I s ip i k a (Q : unit → fsst → Prop) :
  fs V P H I s → I !! ip = Some i → (k < length (i_addrs i))%nat →
  (∀ s', fs V P H (<[ip:=set_iaddrs (<[k:=a]> (i_addrs i)) i]> I) s' → Q tt s') → wpe E (put_addr ip k a) Q s.
Proof using.
  intros Hf Hi Hk HQ. unfold put_addr. apply wpe_bind. eapply iref_wp; [exact Hf|exact Hi|].
  rewrite decide_True by done. by eapply imodify_wp.
Qed.

(** What a step of [bmap] on slot [k] ends in: the block, with the file grown
    and at most the listed blocks logged. *)
Definition bmap_post (V : Z → block) (P : list Z) (I : list inode) (ip : nat) (i : inode) (k : nat) (L : list Z → Prop)
    (a : Z) (s' : fsst) : Prop :=
  ∃ V' P' i', grows sb V i V' i' k ∧ a = slot V' i' k ∧ fs V' P' [] (<[ip:=i']> I) s' ∧
    (∀ z, z ∈ P → z ∈ P') ∧ (∀ z, z ∈ P' → z ∈ [bm; slot V' i' INDSLOT; slot V' i' k] ++ P) ∧ (0 ∈ P' → 0 ∈ P) ∧ L P'.

Lemma bmap_slot_wp V P I s ip i k :
  fs V P [] I s → I !! ip = Some i → i_dev i = 1 → file_ok sb V i → meta_used sb V → fits G P 1 → fits G (logged P bm) 1 →
  (k < 12)%nat ∨ k = INDSLOT → (k < K)%nat ∨ k = INDSLOT → R V i →
  wpe E (bmap_slot ip (if decide (k < 12)%nat then k else 12%nat))
    (bmap_post V P I ip i k (λ P', P' = P ∨ slot V i k = 0 ∧ bm ∈ P' ∧ ∃ b, P' = alloc_log sb P b)) s.
Proof using Hly Hout HR.
  intros Hf Hi Hdev Hfile Hmeta Hfit1 Hfit2 Hk HkK HRV. set (idx := if decide (k < 12)%nat then k else 12%nat).
  assert (Hx : (idx < length (i_addrs i))%nat) by (rewrite (fo_addrs _ _ _ Hfile); unfold idx; case_decide; lia).
  assert (Hn : nth idx (i_addrs i) 0 = slot V i k).
  { unfold idx. destruct Hk as [Hk | ->]; [by rewrite decide_True, slot_direct|].
    by rewrite decide_False, slot_ind by (unfold INDSLOT; lia). }
  unfold bmap_slot. apply wpe_bind. eapply get_addr_wp; [exact Hf|exact Hi|exact Hx|]. rewrite Hn.
  destruct (Z.eqb_spec (slot V i k) 0) as [Hs|Hs].
  2: { apply wpe_ret. exists V, P, i. rewrite insert_same by done.
    split_and!; [by apply grows_refl|done|done|done|set_solver|done|by left]. }
  apply wpe_bind. eapply iref_wp; [exact Hf|exact Hi|]. rewrite Hdev. apply wpe_bind.
  eapply balloc_wp; [exact Hly|exact Hout|exact Hf|set_solver|set_solver|done|done|done|cbn; lia| |by apply (rv_full _ _ _ _ HR V i k)].
  intros b s1 Hb Hfree _ H1. apply wpe_bind. eapply put_addr_wp; [exact H1|exact Hi|exact Hx|]. intros s2 H2. apply wpe_ret.
  assert (Hg : grows sb V i (alloc_view sb V b) (set_iaddrs (<[idx:=b]> (i_addrs i)) i) k).
  { eapply grows_direct; [exact Hly| |done|done|done|done|done|done]. intros z. by eapply fs_block. }
  assert (Es : slot (alloc_view sb V b) (set_iaddrs (<[idx:=b]> (i_addrs i)) i) k = b).
  { etrans; [apply (new_direct_slot G sb Hly V i b (λ z, fs_block _ _ _ _ _ _ _ _ z Hf) Hfile Hmeta Hb Hfree k k Hk Hs)|].
    - unfold INDSLOT in *. lia.
    - by rewrite decide_True. }
  pose proof (bm_range G sb Hly) as [Hbm _]. pose proof (bm_pos G sb Hly) as Hbm0.
  eexists _, _, _. split_and!; [exact Hg|by rewrite Es|exact H2| | | |].
  - intros z Hz. unfold alloc_log. by apply elem_logged_l, elem_logged_l.
  - intros z. unfold alloc_log. rewrite !elem_logged, Es. set_solver.
  - unfold alloc_log. rewrite !elem_logged. intros [?|[?|?]]; [lia|lia|done].
  - right. split; [done|]. split; [|by exists b]. unfold alloc_log. apply elem_logged_l, elem_logged. auto.
Qed.

Lemma bmap_entry_wp V P I s ip i k :
  fs V P [] I s → I !! ip = Some i → i_dev i = 1 → file_ok sb V i → meta_used sb V →
  fits G P 2 → fits G (logged P bm) 2 → (12 ≤ k)%nat → (k < INDSLOT)%nat → slot V i INDSLOT ≠ 0 → (k < K)%nat → R V i →
  wpe E (bmap_entry ip (slot V i INDSLOT) (Z.of_nat k - 12)) (bmap_post V P I ip i k (λ _, True)) s.
Proof using Hly Hout HR.
  intros Hf Hi Hdev Hfile Hmeta Hfit Hfit2 Hk12 Hk Hind HkK HRV. set (ind := slot V i INDSLOT) in *.
  destruct (fo_range _ _ _ Hfile INDSLOT (le_n _) Hind) as [Hir Hiu]. fold ind in Hir, Hiu.
  assert (Hblk : ∀ z, is_block (V z)) by (intros z; by eapply fs_block).
  unfold bmap_entry. apply wpe_bind. eapply iref_wp; [exact Hf|exact Hi|]. rewrite Hdev. apply wpe_bind.
  eapply getblk_wp; [exact Hf|by eapply data_range|set_solver|eapply (fits_room _ _ 2); [exact Hfit|cbn; lia]|].
  intros bp s1 H1. cbn beta iota zeta.
  assert (Eo : (4 * Z.to_nat (Z.of_nat k - 12) = 4 * (k - 12))%nat) by lia. rewrite Eo.
  assert (Esk : slot V i k = get32 (V ind) (4 * (k - 12))).
  { rewrite slot_indirect by lia. fold ind. by rewrite (proj2 (Z.eqb_neq ind 0)). }
  destruct (Z.eqb_spec (get32 (V ind) (4 * (k - 12))) 0) as [Hz|Hz].
  2: { apply wpe_bind. eapply putblk_wp; [exact H1|]. intros s2 H2. apply wpe_ret. exists V, P, i. rewrite insert_same by done.
    split_and!; [apply grows_refl; [done|done|by rewrite Esk]|by rewrite Esk|done|done|set_solver|done|done]. }
  apply wpe_bind. rewrite <- Esk in Hz.
  eapply balloc_wp; [exact Hly|exact Hout|exact H1| | |done| | |cbn; lia| |apply (rv_full _ _ _ _ HR V i k); auto].
  { cbn. intros [?|?%elem_of_nil]%elem_of_cons; [lia|done]. }
  { cbn. intros b Hb [->|?%elem_of_nil]%elem_of_cons; [congruence|done]. }
  { eapply fits_le; [exact Hfit|lia]. }
  { eapply fits_le; [exact Hfit2|lia]. }
  intros b s2 Hb Hfree _ H2. set (V' := vupd (alloc_view sb V b) ind (put32 (4 * (k - 12)) b (V ind))).
  assert (Ek : slot V' i k = b).
  { etrans; [apply (new_indirect_slot G sb Hly V i b Hblk Hfile Hmeta Hb Hfree k k); lia || done|]. by rewrite decide_True. }
  eapply store_wp; [exact H2| |by apply fits_logged|exact Hout|apply (data_off_log G sb Hly); lia|].
  { unfold is_block. rewrite length_put32; [apply Hblk|]. rewrite (Hblk ind). unfold BSIZE, INDSLOT in *. lia. }
  intros s3 H3. apply wpe_ret. exists V', (logged (alloc_log sb P b) ind), i. rewrite insert_same by done.
  assert (Ei : slot V' i INDSLOT = ind) by (by rewrite slot_ind, <- (slot_ind V)).
  pose proof (bm_pos G sb Hly) as Hbm0. rewrite Ek, Ei. split_and!; [|done|exact H3| | | |done].
  - eapply grows_indirect; [exact Hly|done|done|done|done|done|lia|lia|exact Hind|done].
  - intros z Hz'. unfold alloc_log. by apply elem_logged_l, elem_logged_l, elem_logged_l.
  - intros z. unfold alloc_log. rewrite !elem_logged. set_solver.
  - unfold alloc_log. rewrite !elem_logged. intros [?|[?|[?|?]]]; [lia|lia|lia|done].
Qed.

Lemma bmap_wp V P I s ip i k :
  fs V P [] I s → I !! ip = Some i → i_dev i = 1 → file_ok sb V i → meta_used sb V → fits G P 4 → (k < INDSLOT)%nat → (k < K)%nat → R V i →
  wpe E (bmap ip (Z.of_nat k)) (bmap_post V P I ip i k (λ _, True)) s.
Proof using Hly Hout HR.
  intros Hf Hi Hdev Hfile Hmeta Hfit Hk HkK HRV.
  assert (Hfit1 : fits G P 1) by (eapply fits_le; [exact Hfit|lia]).
  assert (Hfit2 : fits G (logged P bm) 1) by (apply fits_logged; eapply fits_le; [exact Hfit|lia]).
  unfold bmap, NDIRECT. destruct (Z.ltb_spec (Z.of_nat k) 12) as [H12|H12].
  { pose proof (bmap_slot_wp V P I s ip i k Hf Hi Hdev Hfile Hmeta Hfit1 Hfit2 ltac:(lia) ltac:(auto) HRV) as Hw.
    rewrite decide_True in Hw by lia. rewrite Nat2Z.id. eapply wpe_mono; [exact Hw|]. intros a s' (V' & P' & i' & ? & ? & ? & ? & ? & ? & _).
    by exists V', P', i'. }
  cbn zeta. rewrite (proj2 (Z.ltb_lt (Z.of_nat k - 12) NINDIRECT)) by (unfold NINDIRECT, INDSLOT in *; lia).
  apply wpe_bind. pose proof (bmap_slot_wp V P I s ip i INDSLOT Hf Hi Hdev Hfile Hmeta Hfit1 Hfit2 ltac:(auto) ltac:(auto) HRV) as Hw.
  rewrite decide_False in Hw by (unfold INDSLOT; lia). change (Z.to_nat 12) with 12%nat.
  eapply wpe_mono; [exact Hw|]. clear Hw. intros ia s1 (V1 & P1 & i1 & G1 & -> & H1 & Psub & Psup & HP0 & HP1).
  assert (Hi1 : <[ip:=i1]> I !! ip = Some i1) by (apply list_lookup_insert_eq; by eapply lookup_lt_Some).
  pose proof (fs_nodup _ _ _ _ _ _ _ _ H1) as Hnd1. set (ind := slot V1 i1 INDSLOT) in *.
  assert (Hf3 : fits G P1 2) by (apply (fits_sub G P1 P [bm; ind]); [done|set_solver|exact Hfit]).
  assert (Hf4 : fits G (logged P1 bm) 2).
  { destruct HP1 as [->|(_ & Hin & _)]; [apply fits_logged; eapply fits_le; [exact Hfit|lia]|by rewrite logged_elem]. }
  eapply wpe_mono; [eapply bmap_entry_wp; [exact H1|exact Hi1| |apply G1|apply G1|done|done|lia|done|apply G1|done|]|].
  { by rewrite (gr_same _ _ _ _ _ _ G1). }
  { by apply (rv_grow _ _ _ _ HR V i V1 i1 INDSLOT); auto. }
  intros a s2 (V2 & P2 & i2 & G2 & -> & H2 & Psub2 & Psup2 & HP02 & _). exists V2, P2, i2. rewrite list_insert_insert_eq in H2.
  assert (Ei : slot V2 i2 INDSLOT = ind) by (apply (gr_keep _ _ _ _ _ _ G2); [done|apply G1]).
  split_and!; [|done|exact H2|by auto| |by auto|done].
  - eapply grows_trans; [exact Hly|exact G1|exact G2|done|]. intros E0 z Hz Hu ->.
    pose proof (gr_fresh _ _ _ _ _ _ G1 INDSLOT (le_n _) E0 (gr_set _ _ _ _ _ _ G1)). congruence.
  - intros z Hz. apply Psup2 in Hz. rewrite Ei in *. set_solver.
Qed.
End Bmap.
