(* ===== verification/FsData.v ===== *)
(** * FsData: [readi] and [writei]

    What a file contains, byte by byte, and that [readi] and [writei] read and
    write it.  A slot without a block reads as zeroes. *)

From S2P Require Import Prelude Mmu Bytes Bio BioSpec Log LogSpec Fs FsSpec FsBlocks FsFile.

Definition fbyte (V : Z → block) (i : inode) (o : Z) : Z :=
  let b := slot V i (Z.to_nat (o / BSIZE)) in
  if b =? 0 then 0 else byte_at (V b) (Z.to_nat (o mod BSIZE)).

(** [n] bytes from [off] on. *)
Definition frange (V : Z → block) (i : inode) (off : Z) (n : nat) : list Z :=
  (λ k, fbyte V i (off + Z.of_nat k)) <$> seq 0 n.

(** Every block up to the size exists. *)
Definition filled (V : Z → block) (i : inode) : Prop :=
  0 ≤ i_size i ≤ MAXFILE * BSIZE ∧ ∀ k, Z.of_nat k * BSIZE < i_size i → slot V i k ≠ 0.

Lemma length_frange V i off n : length (frange V i off n) = n.
Proof. unfold frange. by rewrite length_fmap, length_seq. Qed.

Lemma frange_app V i off n m : frange V i off (n + m) = frange V i off n ++ frange V i (off + Z.of_nat n) m.
Proof.
  unfold frange. rewrite seq_app, fmap_app. f_equal. rewrite Nat.add_0_l, <- (Nat.add_0_r n) at 1.
  rewrite <- fmap_add_seq, <- list_fmap_compose. apply list_fmap_ext. intros k x Hx. cbn. f_equal. lia.
Qed.

(** A range inside one block. *)
Lemma frange_block V i off m b :
  0 ≤ off → off mod BSIZE + Z.of_nat m ≤ BSIZE → slot V i (Z.to_nat (off / BSIZE)) = b → b ≠ 0 → is_block (V b) →
  frange V i off m = take m (drop (Z.to_nat (off mod BSIZE)) (V b)).
Proof.
  intros Ho Hm Hb Hb0 Hl. apply list_eq. intros k. unfold is_block, frange, BSIZE in *. rewrite list_lookup_fmap.
  destruct (decide (k < m)%nat) as [Hk|Hk].
  - rewrite lookup_seq_lt by done. cbn. rewrite lookup_take_lt, lookup_drop by done.
    destruct (lookup_lt_is_Some_2 (V b) (Z.to_nat (off mod 512) + k)) as [c Hc]; [dlia|]. rewrite Hc. f_equal.
    unfold fbyte, BSIZE. replace ((off + Z.of_nat k) / 512) with (off / 512) by dlia. rewrite Hb.
    rewrite (proj2 (Z.eqb_neq b 0)) by done. apply byte_at_lookup.
    by replace (Z.to_nat ((off + Z.of_nat k) mod 512)) with (Z.to_nat (off mod 512) + k)%nat by dlia.
  - rewrite (lookup_ge_None_2 (seq 0 m)) by (rewrite length_seq; lia). symmetry. apply lookup_ge_None_2.
    rewrite length_take. lia.
Qed.

Section Read.
Context (G : logcfg) (sb : superblock) (cw : nat) (E : err → Prop).
Hypothesis Hly : layout G sb.
Notation fs := (fs G sb cw).

(** [bmap] on a block that exists changes nothing. *)
Lemma bmap_hit_wp V P I s ip i k (Q : Z → fsst → Prop) :
  fs V P [] I s → I !! ip = Some i → i_dev i = 1 → file_ok sb V i → (length P < NBUF)%nat → (k < INDSLOT)%nat → slot V i k ≠ 0 →
  (∀ s', fs V P [] I s' → Q (slot V i k) s') → wpe E (bmap ip (Z.of_nat k)) Q s.
Proof using Hly.
  intros Hf Hi Hdev Hfile HP Hk Hs HQ. pose proof (fo_addrs _ _ _ Hfile) as Hlen.
  assert (Hslot : ∀ j (Q : Z → fsst → Prop), (j < 13)%nat → nth j (i_addrs i) 0 ≠ 0 → Q (nth j (i_addrs i) 0) s → wpe E (bmap_slot ip j) Q s).
  { intros j Q' Hj Hn HQ'. unfold bmap_slot. apply wpe_bind. eapply get_addr_wp; [exact Hf|exact Hi|lia|].
    rewrite (proj2 (Z.eqb_neq _ 0)) by done. by apply wpe_ret. }
  unfold bmap, NDIRECT. destruct (Z.ltb_spec (Z.of_nat k) 12) as [H12|H12].
  { rewrite slot_direct in * by lia. apply Hslot; [lia|by rewrite Nat2Z.id|rewrite Nat2Z.id; by apply HQ]. }
  cbn zeta. rewrite (proj2 (Z.ltb_lt (Z.of_nat k - 12) NINDIRECT)) by (unfold NINDIRECT, INDSLOT in *; lia).
  assert (Esk := slot_indirect V i k ltac:(lia) Hk). rewrite Esk in *.
  destruct (Z.eqb_spec (slot V i INDSLOT) 0) as [?|Hind]; [done|].
  apply wpe_bind. apply Hslot; [lia|by rewrite <- (slot_ind V)|]. rewrite <- (slot_ind V).
  unfold bmap_entry. apply wpe_bind. eapply iref_wp; [exact Hf|exact Hi|]. rewrite Hdev. apply wpe_bind.
  eapply getblk_wp; [exact Hf|by eapply slot_range|set_solver|done|]. intros bp s1 H1. cbn beta iota zeta.
  replace (4 * Z.to_nat (Z.of_nat k - 12))%nat with (4 * (k - 12))%nat by lia.
  rewrite (proj2 (Z.eqb_neq _ 0)) by done. apply wpe_bind. eapply putblk_wp; [exact H1|]. intros s2 H2.
  apply wpe_ret. by apply HQ.
Qed.

Lemma readi_loop_wp V P I ip i fuel : ∀ off n s (Q : list Z → fsst → Prop),
  fs V P [] I s → I !! ip = Some i → i_dev i = 1 → file_ok sb V i → (length P < NBUF)%nat →
  0 ≤ off → 0 ≤ n → off + n ≤ MAXFILE * BSIZE → (0 < n → off mod BSIZE + n ≤ BSIZE * Z.of_nat fuel) →
  (∀ o, off ≤ o < off + n → slot V i (Z.to_nat (o / BSIZE)) ≠ 0) →
  (∀ s', fs V P [] I s' → Q (frange V i off (Z.to_nat n)) s') →
  wpe E (readi_loop fuel ip off n) Q s.
Proof using Hly.
  induction fuel as [|fuel IH]; intros off n s Q Hf Hi Hdev Hfile HP Ho Hn Hmax Hfuel Hslots HQ; cbn [readi_loop].
  { destruct (Z.leb_spec n 0) as [H0|H0]; [|specialize (Hfuel H0); unfold BSIZE in *; dlia].
    apply wpe_ret. assert (n = 0) as -> by lia. by apply HQ. }
  destruct (Z.leb_spec n 0) as [H0|H0]; [apply wpe_ret; assert (n = 0) as -> by lia; by apply HQ|].
  apply wpe_bind. eapply iref_wp; [exact Hf|exact Hi|]. rewrite Hdev.
  set (k := Z.to_nat (off / BSIZE)). assert (Hk : off / BSIZE = Z.of_nat k) by (unfold k, BSIZE; dlia).
  assert (Hs : slot V i k ≠ 0) by (apply Hslots; lia).
  assert (HkI : (k < INDSLOT)%nat) by (unfold INDSLOT, MAXFILE, NDIRECT, NINDIRECT, BSIZE in *; dlia).
  rewrite Hk. apply wpe_bind. eapply bmap_hit_wp; [exact Hf|exact Hi|exact Hdev|done|done|done|done|]. intros s1 H1.
  apply wpe_bind. eapply getblk_wp; [exact H1|eapply slot_range; [exact Hly|done|lia|done]|set_solver|done|].
  intros bp s2 H2. cbn beta iota zeta. apply wpe_bind. eapply putblk_wp; [exact H2|]. intros s3 H3. apply wpe_bind.
  set (m := Z.min n (BSIZE - off mod BSIZE)). assert (Hm : 0 < m ≤ n ∧ off mod BSIZE + m ≤ BSIZE) by (unfold m, BSIZE in *; dlia).
  assert (Hu : u32 (off + m) = off + m) by (apply u32_small; unfold is_u32, MAXFILE, NDIRECT, NINDIRECT, BSIZE in *; lia).
  rewrite Hu. eapply IH; [exact H3|done|done|done|done|lia|lia|lia| |intros o Hoo; apply Hslots; lia|].
  { intros Hm0. specialize (Hfuel H0). unfold m, BSIZE in *. dlia. }
  intros s4 H4. apply wpe_ret.
  rewrite <- (frange_block V i off (Z.to_nat m) (slot V i k)); [|lia|lia|done|done|by eapply fs_block].
  replace (off + m) with (off + Z.of_nat (Z.to_nat m)) by lia. rewrite <- frange_app.
  replace (Z.to_nat m + Z.to_nat (n - m))%nat with (Z.to_nat n) by lia. by apply HQ.
Qed.

Context `{!Devsw}.

(** The number of bytes a read of [n] at [off] gives. *)
Definition read_len (i : inode) (off n : Z) : Z := Z.min n (i_size i - off).

Lemma readi_wp V P I s ip i off n (Q : Z * list Z → fsst → Prop) :
  fs V P [] I s → I !! ip = Some i → i_dev i = 1 → i_type i ≠ T_DEV → file_ok sb V i → filled V i → (length P < NBUF)%nat →
  0 ≤ off ≤ i_size i → 0 ≤ n → off + n < 4294967296 →
  (∀ s', fs V P [] I s' → Q (read_len i off n, frange V i off (Z.to_nat (read_len i off n))) s') →
  wpe E (readi ip off n) Q s.
Proof using Hly.
  intros Hf Hi Hdev Hty Hfile [Hsz Hfill] HP Ho Hn Hlt HQ. unfold readi, read_len in *. apply wpe_bind.
  eapply iref_wp; [exact Hf|exact Hi|]. rewrite (proj2 (Z.eqb_neq _ _)) by done.
  rewrite u32_small by (unfold is_u32; lia).
  rewrite (proj2 (Z.ltb_ge (i_size i) off)), (proj2 (Z.ltb_ge (off + n) off)) by lia. cbn [orb].
  set (n' := if i_size i <? off + n then i_size i - off else n).
  assert (En : n' = Z.min n (i_size i - off)) by (unfold n'; destruct (Z.ltb_spec (i_size i) (off + n)); lia).
  rewrite <- En in HQ. cbn zeta. fold n'. apply wpe_bind.
  eapply readi_loop_wp; [exact Hf|exact Hi|done|done|done|lia|lia|lia| | |].
  - unfold io_fuel, BSIZE. rewrite Z2Nat.id by dlia. dlia.
  - intros o Hoo. apply Hfill. unfold BSIZE in *. dlia.
  - intros s' H'. apply wpe_ret. rewrite s32_small; [by apply HQ|]. unfold MAXFILE, NDIRECT, NINDIRECT, BSIZE in *. lia.
Qed.
End Read.
