(* ===== verification/FsReserve.v ===== *)
(** * FsReserve: room on the disk

    A file whose missing blocks among the first [K] are no more than the free
    blocks of the disk can be filled up to there: the allocator never fails. *)

From S2P Require Import Prelude Mmu Bytes Bio BioSpec Log LogSpec Fs FsSpec FsBlocks FsFile.

Section Reserve.
Context (G : logcfg) (sb : superblock) (K : nat).
Hypothesis Hly : layout G sb.

Definition data_blocks : list Z := seqZ (sb_bmapstart sb + 1) (sb_size sb - sb_bmapstart sb - 1).
Definition free_blocks (V : Z → block) : list Z := filter (λ b, used sb V b = false) data_blocks.
Definition file_slots : list nat := seq 0 K ++ [INDSLOT].
Definition lacking (V : Z → block) (i : inode) : list nat := filter (λ j, slot V i j = 0) file_slots.
Definition enough (V : Z → block) (i : inode) : Prop := (length (lacking V i) ≤ length (free_blocks V))%nat.

Lemma elem_data_blocks b : b ∈ data_blocks ↔ sb_bmapstart sb < b < sb_size sb.
Proof using. unfold data_blocks. rewrite elem_of_seqZ. lia. Qed.
Lemma elem_file_slots j : j ∈ file_slots ↔ (j < K)%nat ∨ j = INDSLOT.
Proof using. unfold file_slots. rewrite elem_of_app, elem_of_seq, list_elem_of_singleton. lia. Qed.
Lemma file_slot_le j : (K ≤ INDSLOT)%nat → j ∈ file_slots → (j ≤ INDSLOT)%nat.
Proof using. rewrite elem_file_slots. lia. Qed.

Lemma enough_not_full V i k :
  enough V i → (k < K)%nat ∨ k = INDSLOT → slot V i k = 0 → ¬ ∀ b, 0 ≤ b < sb_size sb → used sb V b = true.
Proof using Hly.
  intros He Hk Hs Hall. assert (Hl : k ∈ lacking V i) by (apply list_elem_of_filter; split; [done|by apply elem_file_slots]).
  assert (Hf : free_blocks V = []).
  { destruct (free_blocks V) as [|b l] eqn:E; [done|].
    assert (Hb : b ∈ free_blocks V) by (rewrite E; left). apply list_elem_of_filter in Hb as [Hu Hb%elem_data_blocks].
    rewrite Hall in Hu; [done|]. pose proof (bm_range G sb Hly). lia. }
  unfold enough in He. rewrite Hf in He. destruct (lacking V i); [by apply elem_of_nil in Hl|cbn in He; lia].
Qed.

Lemma enough_grows V i V' i' k :
  (K ≤ INDSLOT)%nat → (k < K)%nat ∨ k = INDSLOT → file_ok sb V i → enough V i → grows sb V i V' i' k → enough V' i'.
Proof using Hly.
  intros HK Hk Hfile He Hg. unfold enough, lacking, free_blocks in *.
  assert (Hr : ∀ b, b ∈ data_blocks → 0 ≤ b < FSSIZE) by (intros b Hb%elem_data_blocks; by apply (data_range G sb Hly)).
  rewrite (length_filter_split (λ j, slot V i j = 0) (λ j, slot V' i' j = 0)) in He.
  2: { intros j Hj%(file_slot_le j HK) Hz. destruct (decide (slot V i j = 0)) as [|Hn]; [done|].
    by rewrite (gr_keep _ _ _ _ _ _ Hg j Hj Hn) in Hz. }
  rewrite (length_filter_split (λ b, used sb V b = false) (λ b, used sb V' b = false)) in He.
  2: { intros b Hb%Hr Hu. destruct (used sb V b) eqn:E; [|done]. by rewrite (gr_used _ _ _ _ _ _ Hg b Hb E) in Hu. }
  set (new := filter (λ j, slot V i j = 0 ∧ ¬ slot V' i' j = 0) file_slots) in *.
  set (taken := filter (λ b, used sb V b = false ∧ ¬ used sb V' b = false) data_blocks) in *.
  assert (Ht : (length taken ≤ length new)%nat); [|lia].
  rewrite <- (length_fmap (slot V' i') new). apply sub_length; [apply NoDup_filter, NoDup_seqZ|].
  intros b [[Hu Hu'] Hb]%list_elem_of_filter. apply not_false_is_true in Hu'. apply list_elem_of_fmap.
  assert (Hj : ∃ j, j ∈ file_slots ∧ b = slot V' i' j).
  { destruct (gr_alloc _ _ _ _ _ _ Hg b (Hr b Hb) Hu') as [?|[-> | ->]]; [congruence|exists k|exists INDSLOT]; (split; [|done]);
      apply elem_file_slots; auto. }
  destruct Hj as (j & Hj & ->). exists j. split; [done|]. apply list_elem_of_filter. split; [|done].
  pose proof (file_slot_le j HK Hj) as Hjl. split.
  - destruct (decide (slot V i j = 0)) as [|Hn]; [done|]. rewrite (gr_keep _ _ _ _ _ _ Hg j Hjl Hn) in Hu.
    by rewrite (proj2 (fo_range _ _ _ Hfile j Hjl Hn)) in Hu.
  - apply elem_data_blocks in Hb. pose proof (bm_range G sb Hly). lia.
Qed.

Lemma enough_reservation : (K ≤ INDSLOT)%nat → reservation sb (λ _, False) K enough.
Proof using Hly.
  intros HK. split.
  - intros V i k He Hk _ Hs Hall. by eapply enough_not_full.
  - intros V i V' i' k Hk Hf He Hg. by eapply enough_grows.
  - intros V i V' i' Hs Hu. unfold enough, lacking, free_blocks.
    rewrite (filter_ext_in (λ j, slot V' i' j = 0) (λ j, slot V i j = 0)), (filter_ext_in (λ b, used sb V' b = false) (λ b, used sb V b = false)); [done| |].
    + intros b _. by rewrite Hu.
    + intros j Hj. by rewrite Hs by (by apply file_slot_le).
Qed.
End Reserve.
