(* ===== verification/FsWrite.v ===== *)
(** * FsWrite: [writei] *)

From S2P Require Import Prelude Mmu Bytes Bio BioSpec Log LogSpec Fs FsSpec FsBlocks FsFile FsData.

Definition in_write (off : Z) (src : list Z) (o : Z) : Prop := off ≤ o < off + Z.of_nat (length src).
#[global] Instance in_write_dec off src o : Decision (in_write off src o).
Proof. unfold in_write. apply _. Defined.

(** What writing [src] at [off] makes of a file and of the rest of the disk. *)
Record wrote (sb : superblock) (V : Z → block) (i : inode) (V' : Z → block) (i' : inode) (off : Z) (src : list Z) : Prop := {
  wr_ok : file_ok sb V' i';
  wr_meta : meta_used sb V';
  wr_same : i' = set_iaddrs (i_addrs i') i;
  wr_keep : ∀ j, (j ≤ INDSLOT)%nat → slot V i j ≠ 0 → slot V' i' j = slot V i j;
  wr_set : ∀ o, in_write off src o → slot V' i' (Z.to_nat (o / BSIZE)) ≠ 0;
  wr_bytes : ∀ o, 0 ≤ o < MAXFILE * BSIZE →
    fbyte V' i' o = if decide (in_write off src o) then nth (Z.to_nat (o - off)) src 0 else fbyte V i o;
  wr_view : ∀ z, 0 ≤ z < FSSIZE → used sb V z = true → z ≠ sb_bmapstart sb →
    (∀ j, (j ≤ INDSLOT)%nat → z ≠ slot V i j) → V' z = V z;
  wr_used : ∀ z, 0 ≤ z < FSSIZE → used sb V z = true → used sb V' z = true;
  wr_fresh : ∀ j, (j ≤ INDSLOT)%nat → slot V i j = 0 → slot V' i' j ≠ 0 → used sb V (slot V' i' j) = false;
  wr_alloc : ∀ z, 0 ≤ z < FSSIZE → used sb V' z = true → used sb V z = true ∨ ∃ j, (j ≤ INDSLOT)%nat ∧ z = slot V' i' j ∧ z ≠ 0
}.

Lemma wrote_nil sb V i off : file_ok sb V i → meta_used sb V → wrote sb V i V i off [].
Proof.
  intros Hf Hm. assert (Hn : ∀ o, ¬ in_write off [] o) by (unfold in_write; cbn; lia). split; try done.
  - by destruct i.
  - intros o Ho. by apply Hn in Ho.
  - intros o _. by rewrite decide_False.
  - auto.
Qed.

Section Write.
Context (G : logcfg) (sb : superblock).
Hypothesis Hly : layout G sb.
Notation bm := (sb_bmapstart sb).
Notation used := (used sb).

Lemma write_slot off src o : 0 ≤ off → off + Z.of_nat (length src) ≤ MAXFILE * BSIZE → in_write off src o →
  (Z.to_nat (o / BSIZE) < INDSLOT)%nat.
Proof using. unfold in_write, MAXFILE, NDIRECT, NINDIRECT, BSIZE, INDSLOT. intros. dlia. Qed.

Lemma wrote_app V i V1 i1 V2 i2 off s1 s2 :
  0 ≤ off → off + Z.of_nat (length s1) ≤ MAXFILE * BSIZE →
  wrote sb V i V1 i1 off s1 → wrote sb V1 i1 V2 i2 (off + Z.of_nat (length s1)) s2 → wrote sb V i V2 i2 off (s1 ++ s2).
Proof using Hly.
  intros Hoff Hmax [A1 A2 A3 A4 A5 A6 A7 A8 A9 A10] [B1 B2 B3 B4 B5 B6 B7 B8 B9 B10].
  assert (Hin : ∀ o, in_write off (s1 ++ s2) o ↔ in_write off s1 o ∨ in_write (off + Z.of_nat (length s1)) s2 o)
    by (intros; unfold in_write; rewrite length_app; lia).
  split; try done.
  - rewrite B3, A3. by destruct i.
  - intros j Hj Hs. rewrite B4; [by apply A4|done|by rewrite A4].
  - intros o [Ho|Ho]%Hin; [|by apply B5]. pose proof (write_slot _ _ _ Hoff Hmax Ho). rewrite B4; [by apply A5|lia|by apply A5].
  - intros o Ho. rewrite B6, A6 by done. destruct (decide (in_write (off + Z.of_nat (length s1)) s2 o)) as [H2|H2].
    + rewrite decide_True by (apply Hin; auto). unfold in_write in H2. rewrite app_nth2 by lia. f_equal. lia.
    + destruct (decide (in_write off s1 o)) as [H1|H1].
      * rewrite decide_True by (apply Hin; auto). unfold in_write in H1. rewrite app_nth1 by lia. done.
      * rewrite decide_False; [done|]. rewrite Hin. tauto.
  - intros z Hz Hu Hbm Hn. rewrite B7; [by apply A7|done|by apply A8|done|]. intros j Hj ->.
    destruct (decide (slot V i j = 0)) as [E0|E0]; [|by apply (Hn j Hj), A4].
    destruct (decide (slot V1 i1 j = 0)) as [E1|E1]; [by apply (Hn j Hj); rewrite E0|].
    pose proof (A9 j Hj E0 E1). congruence.
  - intros z Hz Hu. by apply B8, A8.
  - intros j Hj Hs Hs'. destruct (decide (slot V1 i1 j = 0)) as [E1|E1]; [|rewrite B4 by done; by apply A9].
    destruct (used V (slot V2 i2 j)) eqn:Eu; [|done]. pose proof (B9 j Hj E1 Hs') as Hn.
    rewrite (A8 _ (slot_range G sb Hly _ _ j B1 Hj Hs') Eu) in Hn. done.
  - intros z Hz Hu. destruct (B10 z Hz Hu) as [Hu1|?]; [|auto]. destruct (A10 z Hz Hu1) as [?|(j & Hj & -> & Hn)]; [auto|].
    right. exists j. split; [done|]. split; [|done]. symmetry. by apply B4.
Qed.

(** One block: [bmap] has filled slot [k] with block [b], and [chunk] is put into it. *)
Section Block.
Context (V : Z → block) (i : inode) (V1 : Z → block) (i1 : inode) (k : nat) (chunk : list Z) (off : Z).
Hypothesis Hblk : ∀ z, is_block (V1 z).
Hypothesis Hfile : file_ok sb V i.
Hypothesis Hmeta : meta_used sb V.
Hypothesis Hg : grows sb V i V1 i1 k.
Hypothesis Hk : (k < INDSLOT)%nat.
Hypothesis Hoff : 0 ≤ off ∧ off / BSIZE = Z.of_nat k ∧ off mod BSIZE + Z.of_nat (length chunk) ≤ BSIZE.
Let b : Z := slot V1 i1 k.
Let V2 : Z → block := vupd V1 b (overwrite (Z.to_nat (off mod BSIZE)) chunk (V1 b)).

Lemma blk_new : b ≠ 0 ∧ bm < b < sb_size sb ∧ 0 ≤ b < FSSIZE ∧ ∀ j, (j ≤ INDSLOT)%nat → slot V1 i1 j = b → j = k.
Proof using All.
  assert (Hb : b ≠ 0) by apply Hg. destruct (fo_range _ _ _ (gr_ok _ _ _ _ _ _ Hg) k ltac:(lia) Hb) as [Hr _]. split; [done|].
  split; [done|]. split; [by apply (data_range G sb Hly)|].
  intros j Hj Ej. apply (fo_inj _ _ _ (gr_ok _ _ _ _ _ _ Hg)); [done|lia|by rewrite Ej|done].
Qed.

Lemma blk_slot j : (j ≤ INDSLOT)%nat → slot V2 i1 j = slot V1 i1 j.
Proof using All.
  intros Hj. destruct blk_new as (_ & _ & _ & Hinj). destruct (decide (j < 12)%nat) as [H12|H12]; [by rewrite !slot_direct|].
  destruct (decide (j = INDSLOT)) as [->|HjI]; [by rewrite !slot_ind|]. rewrite (slot_indirect V2), (slot_indirect V1) by lia.
  rewrite (slot_ind V2), <- (slot_ind V1). unfold V2. rewrite vupd_ne; [done|]. intros E.
  apply Hinj in E; [unfold INDSLOT in *; lia|done].
Qed.

Lemma blk_used z : used V2 z = used V1 z.
Proof using All. destruct blk_new as (_ & ? & _). unfold FsBlocks.used, V2. by rewrite vupd_ne by lia. Qed.

(** The blocks of the other slots are as before. *)
Lemma blk_other j : (j < INDSLOT)%nat → j ≠ k → slot V2 i1 j = slot V i j ∧ (slot V i j ≠ 0 → V2 (slot V i j) = V (slot V i j)).
Proof using All.
  intros Hj Hjk. destruct blk_new as (_ & _ & _ & Hinj). assert (Es : slot V1 i1 j = slot V i j) by (by apply Hg).
  split; [by rewrite blk_slot by lia|]. intros Hn. unfold V2. rewrite vupd_ne.
  - destruct (fo_range _ _ _ Hfile j ltac:(lia) Hn) as [Hr Hu]. apply (gr_view _ _ _ _ _ _ Hg); [by apply (data_range G sb Hly)|done|lia|].
    intros E. apply (fo_inj _ _ _ Hfile) in E; [unfold INDSLOT in *; lia|lia|done|done].
  - intros E. apply Hjk, Hinj; [lia|congruence].
Qed.

Lemma blk_old o : o / BSIZE = Z.of_nat k → byte_at (V1 b) (Z.to_nat (o mod BSIZE)) = fbyte V i o.
Proof using All.
  intros Ho. unfold fbyte. rewrite Ho, Nat2Z.id. destruct (Z.eqb_spec (slot V i k) 0) as [E0|E0].
  - unfold b. rewrite (gr_zero _ _ _ _ _ _ Hg Hk E0). unfold zero_block, byte_at. rewrite nth_lookup.
    destruct (_ !! _) eqn:El; [|done]. by apply lookup_replicate in El as [-> _].
  - unfold b. rewrite (gr_keep _ _ _ _ _ _ Hg) by (done || lia). f_equal.
    destruct (fo_range _ _ _ Hfile k ltac:(lia) E0) as [Hr Hu]. apply (gr_view _ _ _ _ _ _ Hg); [by apply (data_range G sb Hly)|done|lia|].
    intros E. apply (fo_inj _ _ _ Hfile) in E; [unfold INDSLOT in *; lia|lia|done|done].
Qed.

Lemma blk_bytes o : 0 ≤ o < MAXFILE * BSIZE →
  fbyte V2 i1 o = if decide (in_write off chunk o) then nth (Z.to_nat (o - off)) chunk 0 else fbyte V i o.
Proof using All.
  intros Ho. destruct blk_new as (Hb0 & _). destruct (decide (o / BSIZE = Z.of_nat k)) as [Ek|Ek].
  - unfold fbyte at 1. rewrite Ek, Nat2Z.id, blk_slot by lia. rewrite (proj2 (Z.eqb_neq _ 0)) by done. fold b. unfold V2. rewrite vupd_eq.
    assert (Hl : length (V1 b) = 512%nat) by apply Hblk. unfold in_write, BSIZE in *. destruct (decide (off ≤ o < _)) as [Hin|Hin].
    + replace (Z.to_nat (o mod 512)) with (Z.to_nat (off mod 512) + Z.to_nat (o - off))%nat by dlia.
      apply byte_at_overwrite_in; [dlia|]. rewrite nth_lookup.
      destruct (lookup_lt_is_Some_2 chunk (Z.to_nat (o - off))) as [c ->]; [lia|done].
    + rewrite byte_at_overwrite_out; [|dlia|dlia]. by apply blk_old.
  - assert (Hj : (Z.to_nat (o / BSIZE) < INDSLOT)%nat ∧ Z.to_nat (o / BSIZE) ≠ k)
      by (unfold MAXFILE, NDIRECT, NINDIRECT, BSIZE, INDSLOT in *; dlia).
    destruct (blk_other _ (proj1 Hj) (proj2 Hj)) as [Es Ev]. rewrite decide_False by (unfold in_write, BSIZE in *; dlia).
    unfold fbyte. rewrite Es. destruct (Z.eqb_spec (slot V i (Z.to_nat (o / BSIZE))) 0); [done|]. by rewrite Ev.
Qed.

Lemma wrote_block : wrote sb V i V2 i1 off chunk.
Proof using All.
  destruct blk_new as (Hb0 & Hbr & _ & Hinj). pose proof blk_slot as Hsl. pose proof blk_used as Hus. destruct Hg as [A1 A2 A3 A4 A5 A6 A7 A8 A9 A10 A11].
  split.
  - split; [apply A1| |].
    + intros j Hj. rewrite Hsl, Hus by done. by apply A1.
    + intros j j' Hj Hj'. rewrite !Hsl by done. by apply A1.
  - intros z Hz. rewrite Hus. by apply A2.
  - done.
  - intros j Hj Hs. rewrite Hsl by done. by apply A5.
  - intros o Ho. assert (Z.to_nat (o / BSIZE) = k) as -> by (unfold in_write, BSIZE in *; dlia). by rewrite Hsl by lia.
  - apply blk_bytes.
  - intros z Hz Hu Hzb Hn. unfold V2. rewrite vupd_ne; [apply A7; auto|]. intros ->.
    destruct (decide (slot V i k = 0)) as [E0|E0]; [|by apply (Hn k ltac:(lia)), A5; [lia|]].
    pose proof (A9 k ltac:(lia) E0 A6). unfold b in Hu. congruence.
  - intros z Hz Hu. rewrite Hus. by apply A8.
  - intros j Hj. rewrite Hsl by done. by apply A9.
  - intros z Hz. rewrite Hus. intros Hu. destruct (decide (z = 0)) as [->|Hz0].
    { left. apply Hmeta. pose proof (bm_range G sb Hly). lia. }
    destruct (A11 z Hz Hu) as [?|[Ez|Ez]]; [auto| |]; right; [exists k|exists INDSLOT];
      (split; [lia|]; split; [|done]; rewrite Hsl by lia; exact Ez).
Qed.
End Block.
End Write.

(** ** Meta-data blocks *)

(** Changing a block before the bitmap changes no file. *)
Section Meta.
Context (G : logcfg) (sb : superblock) (V : Z → block) (i : inode) (z0 : Z) (y : block).
Hypothesis Hly : layout G sb.
Hypothesis Hfile : file_ok sb V i.
Hypothesis Hz0 : 0 ≤ z0 < sb_bmapstart sb.

Lemma meta_slot j : slot (vupd V z0 y) i j = slot V i j.
Proof using All.
  unfold slot. do 2 (case_decide; [done|]). destruct (Z.eqb_spec (nth 12 (i_addrs i) 0) 0) as [|Hn]; [done|].
  rewrite vupd_ne; [done|]. rewrite <- (slot_ind V) in *. destruct (fo_range _ _ _ Hfile INDSLOT (le_n _) Hn). lia.
Qed.

Lemma meta_used_upd z : used sb (vupd V z0 y) z = used sb V z.
Proof using All. unfold used. by rewrite vupd_ne by lia. Qed.

Lemma meta_byte o : 0 ≤ o < MAXFILE * BSIZE → fbyte (vupd V z0 y) i o = fbyte V i o.
Proof using All.
  intros Ho. unfold fbyte. rewrite meta_slot. destruct (Z.eqb_spec (slot V i (Z.to_nat (o / BSIZE))) 0) as [|Hn]; [done|].
  rewrite vupd_ne; [done|]. destruct (fo_range _ _ _ Hfile (Z.to_nat (o / BSIZE))); [|done|lia].
  unfold MAXFILE, NDIRECT, NINDIRECT, BSIZE, INDSLOT in *. dlia.
Qed.

Lemma meta_file : file_ok sb (vupd V z0 y) i.
Proof using All.
  destruct Hfile as [F1 F2 F3]. split; [done| |].
  - intros k. rewrite meta_slot, meta_used_upd. apply F2.
  - intros j k. rewrite !meta_slot. apply F3.
Qed.
End Meta.

(** The size and the like play no part in where the blocks are. *)
Lemma slot_size V i n k : slot V (set_isize n i) k = slot V i k.
Proof. done. Qed.
Lemma fbyte_size V i n o : fbyte V (set_isize n i) o = fbyte V i o.
Proof. done. Qed.
Lemma file_ok_size sb V i n : file_ok sb V i → file_ok sb V (set_isize n i).
Proof. intros [F1 F2 F3]. by split. Qed.

(** The number of blocks that [n] bytes from [off] on touch. *)
Definition nblk (off n : Z) : Z := if n =? 0 then 0 else (off + n - 1) / BSIZE - off / BSIZE + 1.

Lemma nblk_step off n : 0 ≤ off → 0 < n → let m := Z.min n (BSIZE - off mod BSIZE) in nblk off n = 1 + nblk (off + m) (n - m).
Proof. intros Ho Hn. unfold nblk, BSIZE. destruct (Z.eqb_spec n 0), (Z.eqb_spec (n - Z.min n (512 - off mod 512)) 0); dlia. Qed.

Lemma nblk_pos off n : 0 ≤ off → 0 ≤ n → 0 ≤ nblk off n.
Proof. intros. unfold nblk, BSIZE. destruct (Z.eqb_spec n 0); dlia. Qed.

Section WriteLoop.
Context (G : logcfg) (sb : superblock) (cw : nat) (E : err → Prop).
Hypothesis Hly : layout G sb.
Hypothesis Hout : 1 ≤ c_outstanding G.
Context (K : nat) (R : (Z → block) → inode → Prop).
Hypothesis HR : reservation sb E K R.
Notation fs := (fs G sb cw).
Notation bm := (sb_bmapstart sb).
Context (P0 : list Z) (T : Z) (I : list inode) (ip : nat).
Hypothesis Hfit : fits G P0 (T + 5).

(** The blocks logged: the bitmap, the indirect block, and [rest]. *)
Definition log_acc (V : Z → block) (i : inode) (P rest : list Z) : Prop :=
  (∀ z, z ∈ P → z ∈ [bm; slot V i INDSLOT] ++ rest ++ P0) ∧ (0 ∈ P → 0 ∈ P0).

Lemma log_acc_fits V i P rest k :
  log_acc V i P rest → NoDup P → Z.of_nat (length rest) + 2 + k ≤ T + 5 → fits G P k.
Proof using Hfit.
  intros [Hs _] Hn Hk. apply (fits_sub G P P0 ([bm; slot V i INDSLOT] ++ rest)); [done|by rewrite <- app_assoc|].
  eapply fits_le; [exact Hfit|]. rewrite length_app. cbn [length]. lia.
Qed.

Lemma log_acc_step V i V1 i1 P P1 rest k :
  log_acc V i P rest → grows sb V i V1 i1 k →
  (∀ z, z ∈ P1 → z ∈ [bm; slot V1 i1 INDSLOT; slot V1 i1 k] ++ P) → (0 ∈ P1 → 0 ∈ P) →
  log_acc V1 i1 P1 (slot V1 i1 k :: rest).
Proof using.
  intros [Hs H0] Hg Hp Hp0. clear - Hs H0 Hg Hp Hp0. split; [|auto]. intros z Hz. destruct (decide (slot V i INDSLOT = 0)) as [E0|E0].
  - destruct (decide (z = 0)) as [->|Hne]; [specialize (H0 (Hp0 Hz)); set_solver|]. apply Hp in Hz. rewrite E0 in Hs. set_solver.
  - apply Hp in Hz. rewrite (gr_keep _ _ _ _ _ _ Hg INDSLOT (le_n _) E0) in *. set_solver.
Qed.

Definition write_post (V : Z → block) (i : inode) (off : Z) (src : list Z) (r : Z) (s' : fsst) : Prop :=
  ∃ V' P' i' rest, wrote sb V i V' i' off src ∧ fs V' P' [] (<[ip:=i']> I) s' ∧ log_acc V' i' P' rest ∧
    Z.of_nat (length rest) ≤ T ∧ r = off + Z.of_nat (length src) ∧ R V' i'.

Lemma write_nil fuel V P i rest off s :
  fs V P [] (<[ip:=i]> I) s → file_ok sb V i → meta_used sb V → log_acc V i P rest → Z.of_nat (length rest) + nblk off 0 ≤ T →
  R V i → wpe E (writei_loop fuel ip off []) (write_post V i off []) s.
Proof using.
  intros Hf Hfile Hmeta Hacc HT HRV. assert (Hw : write_post V i off [] off s).
  { exists V, P, i, rest. split_and!; [by apply wrote_nil|done|done|unfold nblk in HT; cbn in HT; lia|cbn; lia|done]. }
  destruct fuel; by apply wpe_ret.
Qed.

Lemma writei_loop_wp fuel : ∀ V P i rest off src s,
  fs V P [] (<[ip:=i]> I) s → (ip < length I)%nat → i_dev i = 1 → file_ok sb V i → meta_used sb V → log_acc V i P rest →
  0 ≤ off → off + Z.of_nat (length src) ≤ MAXFILE * BSIZE → off + Z.of_nat (length src) ≤ BSIZE * Z.of_nat K → R V i →
  Z.of_nat (length rest) + nblk off (Z.of_nat (length src)) ≤ T →
  (src ≠ [] → off mod BSIZE + Z.of_nat (length src) ≤ BSIZE * Z.of_nat fuel) →
  wpe E (writei_loop fuel ip off src) (write_post V i off src) s.
Proof using Hly Hout HR Hfit.
  induction fuel as [|fuel IH]; intros V P i rest off src s Hf Hip Hdev Hfile Hmeta Hacc Ho Hmax HmaxK HRV HT Hfuel.
  all: destruct (decide (src = [])) as [->|Hne]; [by eapply write_nil|].
  { destruct src as [|c src]; [done|]. specialize (Hfuel ltac:(done)). cbn [length] in *. unfold BSIZE in *. dlia. }
  specialize (Hfuel Hne). set (n := Z.of_nat (length src)) in *. assert (Hn : 0 < n) by (destruct src; [done|unfold n; cbn; lia]).
  set (m := Z.min n (BSIZE - off mod BSIZE)). assert (Hm : 0 < m ≤ n ∧ off mod BSIZE + m ≤ BSIZE) by (unfold m, BSIZE in *; dlia).
  pose proof (nblk_step off n Ho Hn) as Hnb. fold m in Hnb. cbn zeta in Hnb.
  pose proof (nblk_pos (off + m) (n - m) ltac:(lia) ltac:(lia)) as Hnp. pose proof (fs_nodup _ _ _ _ _ _ _ _ Hf) as Hnd.
  set (k := Z.to_nat (off / BSIZE)). assert (Hk : off / BSIZE = Z.of_nat k) by (unfold k, BSIZE; dlia).
  assert (HkI : (k < INDSLOT)%nat) by (unfold INDSLOT, MAXFILE, NDIRECT, NINDIRECT, BSIZE in *; dlia).
  assert (HkK : (k < K)%nat) by (unfold BSIZE in *; dlia).
  destruct src as [|c0 src0] eqn:Esrc; [done|]. cbn [writei_loop]. rewrite <- Esrc in *.
  assert (En : n = Z.of_nat (length src)) by (unfold n; by rewrite Esrc). clearbody n. rewrite <- En. fold m.
  assert (Hi : <[ip:=i]> I !! ip = Some i) by (by apply list_lookup_insert_eq).
  apply wpe_bind. eapply iref_wp; [exact Hf|exact Hi|]. rewrite Hdev, Hk. apply wpe_bind.
  eapply wpe_mono; [eapply bmap_wp; [exact Hly|exact Hout|exact HR|exact Hf|exact Hi|done|done|done|eapply log_acc_fits; [exact Hacc|done|lia]|done|done|done]|].
  intros b s1 (V1 & P1 & i1 & Hg & -> & H1 & Psub & Psup & HP0 & _). rewrite list_insert_insert_eq in H1.
  pose proof (log_acc_step _ _ _ _ _ _ _ _ Hacc Hg Psup HP0) as Hacc1. pose proof (fs_nodup _ _ _ _ _ _ _ _ H1) as Hnd1.
  destruct (blk_new G sb Hly V i V1 i1 k [] off) as (Hb0 & Hbr & Hbr' & _); [intros z; by eapply fs_block|done|done|done|done| |].
  { cbn. unfold BSIZE in *. dlia. }
  set (b := slot V1 i1 k) in *. apply wpe_bind.
  eapply getblk_wp; [exact H1|done|set_solver|eapply (fits_room _ _ 1 0); [eapply log_acc_fits; [exact Hacc1|done|cbn; lia]|lia]|].
  intros bp s2 H2. cbn beta iota zeta.
  eapply store_wp; [exact H2| |eapply log_acc_fits; [exact Hacc1|done|cbn; lia]|exact Hout|apply (data_off_log G sb Hly); lia|].
  { unfold is_block. rewrite length_overwrite; [by eapply fs_block|]. rewrite (fs_block _ _ _ _ _ _ _ _ b H1). unfold BSIZE in *. dlia. }
  intros s3 H3. set (chunk := take (Z.to_nat m) src) in *. assert (Hlc : Z.of_nat (length chunk) = m) by (unfold chunk; rewrite length_take; lia).
  assert (Hw : wrote sb V i (vupd V1 b (overwrite (Z.to_nat (off mod BSIZE)) chunk (V1 b))) i1 off chunk).
  { eapply wrote_block; [exact Hly|intros z; by eapply fs_block|done|done|done|done|lia]. }
  assert (Hu : u32 (off + m) = off + m) by (apply u32_small; unfold is_u32, MAXFILE, NDIRECT, NINDIRECT, BSIZE in *; lia).
  rewrite Hu. set (V3 := vupd V1 b _) in *. assert (Hsi : slot V3 i1 INDSLOT = slot V1 i1 INDSLOT) by (by rewrite !slot_ind).
  eapply wpe_mono; [eapply (IH V3 (logged P1 b) i1 (b :: rest)); [exact H3|done| |apply Hw|apply Hw| |lia| | | | |]|].
  - by rewrite (gr_same _ _ _ _ _ _ Hg).
  - destruct Hacc1 as [Q1 Q2]. split; [|rewrite elem_logged; intros [?|?]; [lia|auto]].
    intros z [->|Hz]%elem_logged; [set_solver|]. rewrite Hsi. by apply Q1.
  - rewrite length_drop. lia.
  - rewrite length_drop. lia.
  - apply (rv_same _ _ _ _ HR V1 i1); [| |by apply (rv_grow _ _ _ _ HR V i V1 i1 k); auto].
    + intros j Hj. eapply (blk_slot G sb Hly V i V1 i1 k chunk off); [intros z; by eapply fs_block|done|done|done|done|unfold BSIZE in *; dlia|done].
    + intros z. unfold used, V3. rewrite vupd_ne; [done|]. lia.
  - rewrite length_drop. replace (Z.of_nat (length src - Z.to_nat m)) with (n - m) by lia. cbn [length]. lia.
  - intros Hd. rewrite length_drop. assert (m < n) by (destruct (decide (m < n)); [done|]; destruct Hd; apply drop_ge; lia).
    replace (Z.of_nat (length src - Z.to_nat m)) with (n - m) by lia. unfold m, BSIZE in *. dlia.
  - intros r s4 (V' & P' & i' & rest' & W & H4 & Hacc' & Hl' & -> & HR'). exists V', P', i', rest'.
    split_and!; [|done|done|done|rewrite length_drop; lia|done].
    rewrite <- (take_drop (Z.to_nat m) src). fold chunk. eapply wrote_app; [exact Hly|done|lia|exact Hw|].
    by rewrite Hlc.
Qed.
End WriteLoop.

(** ** Inode blocks *)

Lemma islot_range inum : (islot inum ≤ 448)%nat.
Proof. unfold islot, IPB. dlia. Qed.

Lemma length_put_dinode i o x : (o ≤ 448)%nat → length x = 512%nat → length (put_dinode i o x) = 512%nat.
Proof.
  intros Ho Hx. unfold put_dinode.
  assert (L : ∀ p v y, (p ≤ 512)%nat → length y = 512%nat → length (put16 p v y) = 512%nat)
    by (intros p v y Hp Hy; rewrite length_put16; lia).
  rewrite length_overwrite, length_put32; rewrite ?length_put32; rewrite ?L; try lia; repeat (apply L; try lia).
Qed.

Section Inode.
Context (G : logcfg) (sb : superblock) (cw : nat) (E : err → Prop).
Hypothesis Hly : layout G sb.
Hypothesis Hout : 1 ≤ c_outstanding G.
Notation fs := (fs G sb cw).
Notation bm := (sb_bmapstart sb).

Lemma iblock_range inum : 0 ≤ inum < sb_ninodes sb → 0 ≤ IBLOCK inum sb < bm ∧ off_log G (IBLOCK inum sb) ∧ IBLOCK inum sb < FSSIZE.
Proof using Hly.
  intros Hi. destruct Hly as [L1 [L2 L2'] L3]. unfold IBLOCK, IPB, off_log, FSSIZE in *.
  assert (0 ≤ inum / 8 ≤ (sb_ninodes sb - 1) / 8) by dlia. rewrite u32_small by (unfold is_u32; lia). lia.
Qed.

Lemma iupdate_wp V P I s ip i (Q : unit → fsst → Prop) :
  fs V P [] I s → I !! ip = Some i → i_dev i = 1 → 0 ≤ i_inum i < sb_ninodes sb → fits G P 1 →
  (let ib := IBLOCK (i_inum i) sb in
   ∀ s', fs (vupd V ib (put_dinode i (islot (i_inum i)) (V ib))) (logged P ib) [] I s' → Q tt s') →
  wpe E (iupdate ip) Q s.
Proof using Hly Hout.
  intros Hf Hi Hdev Hnum Hfit HQ. destruct (iblock_range _ Hnum) as (B1 & B2 & B3).
  unfold iupdate. apply wpe_bind. eapply iref_wp; [exact Hf|exact Hi|]. apply wpe_bind. eapply sb_wp; [exact Hf|].
  rewrite Hdev. apply wpe_bind. eapply getblk_wp; [exact Hf|lia|set_solver|eapply (fits_room _ _ 1 0); [exact Hfit|lia]|].
  intros bp s1 H1. cbn beta iota. eapply store_end_wp; [exact H1| |exact Hfit|exact Hout|exact B2|exact HQ].
  unfold is_block. rewrite length_put_dinode; [done|apply islot_range|]. by rewrite (fs_block _ _ _ _ _ _ _ _ _ H1).
Qed.

Context `{!Devsw}.

(** The state after a write of [src] at [off]; [i'] is the inode in memory. *)
Record written (V : Z → block) (P : list Z) (i : inode) (V' : Z → block) (P' : list Z) (i' : inode) (off : Z) (src : list Z) : Prop := {
  wn_ok : file_ok sb V' i';
  wn_filled : filled V' i';
  wn_meta : meta_used sb V';
  wn_same : i' = set_iaddrs (i_addrs i') (set_isize (i_size i') i);
  wn_size : i_size i' = Z.max (i_size i) (off + Z.of_nat (length src));
  wn_bytes : ∀ o, 0 ≤ o < i_size i' →
    fbyte V' i' o = if decide (in_write off src o) then nth (Z.to_nat (o - off)) src 0 else fbyte V i o;
  wn_other : ∀ z, 0 ≤ z < FSSIZE → used sb V z = true → z ≠ bm → z ≠ IBLOCK (i_inum i) sb →
    (∀ j, (j ≤ INDSLOT)%nat → z ≠ slot V i j) → V' z = V z;
  wn_used : ∀ z, 0 ≤ z < FSSIZE →
    used sb V' z = true ↔ used sb V z = true ∨ ∃ j, (j ≤ INDSLOT)%nat ∧ z = slot V' i' j ∧ z ≠ 0;
  wn_log : Z.of_nat (length P') ≤ Z.of_nat (length P) + nblk off (Z.of_nat (length src)) + 3
}.

Lemma wrote_filled V i V1 i1 off src n :
  wrote sb V i V1 i1 off src → filled V i → 0 ≤ off ≤ i_size i → off + Z.of_nat (length src) ≤ MAXFILE * BSIZE →
  i_size i ≤ n → n ≤ Z.max (i_size i) (off + Z.of_nat (length src)) → filled V1 (set_isize n i1).
Proof using.
  intros W [Hsz Hfill] Hoff Hmax Hn1 Hn2. split; [cbn; lia|]. intros k Hk. cbn in Hk. rewrite slot_size.
  destruct (decide (Z.of_nat k * BSIZE < i_size i)) as [Hk1|Hk1].
  - rewrite (wr_keep _ _ _ _ _ _ _ W); [by apply Hfill| |by apply Hfill].
    unfold MAXFILE, NDIRECT, NINDIRECT, BSIZE, INDSLOT in *. lia.
  - replace k with (Z.to_nat (Z.of_nat k * BSIZE / BSIZE)) by (rewrite Z.div_mul by done; lia).
    apply (wr_set _ _ _ _ _ _ _ W). unfold in_write. lia.
Qed.

(** With the size, and the inode on the disk, up to date. *)
Lemma wrote_written V P i V1 P1 i1 off src n y (grew : bool) :
  wrote sb V i V1 i1 off src → filled V i → 0 ≤ off ≤ i_size i → off + Z.of_nat (length src) ≤ MAXFILE * BSIZE →
  0 ≤ i_inum i < sb_ninodes sb → n = Z.max (i_size i) (off + Z.of_nat (length src)) →
  Z.of_nat (length P1) ≤ Z.of_nat (length P) + nblk off (Z.of_nat (length src)) + 3 →
  written V P i (if grew then vupd V1 (IBLOCK (i_inum i) sb) y else V1) P1 (set_isize n i1) off src.
Proof using Hly.
  intros W Hfill Hoff Hmax Hnum Hn HP. set (V' := if grew then _ else _).
  destruct (iblock_range _ Hnum) as (B1 & _ & B3).
  assert (HV : V' = V1 ∨ V' = vupd V1 (IBLOCK (i_inum i) sb) y) by (destruct grew; auto).
  assert (Hsl : ∀ j, slot V' i1 j = slot V1 i1 j) by (intros j; destruct HV as [-> | ->]; [done|by apply (meta_slot G sb); [| apply W|]]).
  assert (Hus : ∀ z, used sb V' z = used sb V1 z) by (intros j; destruct HV as [-> | ->]; [done|by apply (meta_used_upd G sb _ i1); [| apply W|]]).
  assert (Hby : ∀ o, 0 ≤ o < MAXFILE * BSIZE → fbyte V' i1 o = fbyte V1 i1 o) by (intros o Ho; destruct HV as [-> | ->]; [done|by apply (meta_byte G sb); [| apply W| |]]).
  assert (Hfo : file_ok sb V' i1) by (destruct HV as [-> | ->]; [apply W|by apply (meta_file G sb); [| apply W|]]).
  assert (Hsz : 0 ≤ i_size i ≤ MAXFILE * BSIZE) by apply Hfill.
  destruct (wrote_filled _ _ _ _ _ _ n W Hfill Hoff Hmax ltac:(lia) ltac:(lia)) as [F1 F2].
  destruct W as [A1 A2 A3 A4 A5 A6 A7 A8 A9 A10]. split.
  - by apply file_ok_size.
  - split; [done|]. intros k Hk. rewrite slot_size, Hsl. by apply F2.
  - intros z Hz. rewrite Hus. by apply A2.
  - cbn. rewrite A3. by destruct i.
  - done.
  - intros o Ho. rewrite fbyte_size, Hby by (cbn in Ho; lia). apply A6. cbn in Ho. lia.
  - intros z Hz Hu Hzb Hzi Hzs. destruct HV as [-> | ->]; [|rewrite vupd_ne by done]; by apply A7.
  - intros z Hz. rewrite Hus. split.
    + intros Hu. destruct (A10 z Hz Hu) as [?|(j & Hj & -> & Hn0)]; [auto|]. right. exists j. by rewrite slot_size, Hsl.
    + intros [Hu|(j & Hj & -> & Hn0)]; [by apply A8|]. rewrite slot_size, Hsl in *. by apply (fo_range _ _ _ A1).
  - done.
Qed.

Context (K : nat) (R : (Z → block) → inode → Prop).
Hypothesis HR : reservation sb E K R.

Lemma writei_wp V P I s ip i off src :
  fs V P [] I s → I !! ip = Some i → i_dev i = 1 → i_type i ≠ T_DEV → 0 ≤ i_inum i < sb_ninodes sb →
  file_ok sb V i → filled V i → meta_used sb V → 0 ≤ off ≤ i_size i → off + Z.of_nat (length src) ≤ MAXFILE * BSIZE →
  fits G P (nblk off (Z.of_nat (length src)) + 5) → off + Z.of_nat (length src) ≤ BSIZE * Z.of_nat K → R V i →
  wpe E (writei ip src off)
    (λ r s', r = Z.of_nat (length src) ∧ ∃ V' P' i', fs V' P' [] (<[ip:=i']> I) s' ∧ written V P i V' P' i' off src ∧ R V' i') s.
Proof using Hly Hout HR.
  intros Hf Hi Hdev Hty Hnum Hfile Hfill Hmeta Hoff Hmax Hfit HmaxK HRV. set (n := Z.of_nat (length src)) in *.
  pose proof (lookup_lt_Some _ _ _ Hi) as Hip. assert (Hsz : 0 ≤ i_size i ≤ 71680) by apply Hfill.
  change (MAXFILE * BSIZE) with 71680 in Hmax. unfold writei. fold n. cbn zeta.
  apply wpe_bind. eapply iref_wp; [exact Hf|exact Hi|]. rewrite (proj2 (Z.eqb_neq _ _)) by done.
  rewrite u32_small by (unfold is_u32; lia).
  rewrite (proj2 (Z.ltb_ge (i_size i) off)), (proj2 (Z.ltb_ge (off + n) off)) by lia. cbn [orb].
  rewrite (proj2 (Z.ltb_ge (MAXFILE * BSIZE) _)) by (change (MAXFILE * BSIZE) with 71680; lia). apply wpe_bind.
  rewrite <- (insert_same I ip i Hi) in Hf.
  eapply wpe_mono; [eapply (writei_loop_wp G sb cw E Hly Hout K R HR P (nblk off n) I ip Hfit _ V P i []);
    [exact Hf|done|done|done|done| |lia|done|done|done|cbn; fold n; lia|]|].
  { split; [set_solver|done]. }
  { intros _. unfold io_fuel. fold n. rewrite Z2Nat.id by (unfold BSIZE; dlia). unfold BSIZE. dlia. }
  intros r s1 (V1 & P1 & i1 & rest & W & H1 & [Hacc _] & Hrest & -> & HR1). fold n.
  assert (Hi1 : <[ip:=i1]> I !! ip = Some i1) by (by apply list_lookup_insert_eq).
  assert (Esz : i_size i1 = i_size i ∧ i_inum i1 = i_inum i ∧ i_dev i1 = i_dev i) by (by rewrite (wr_same _ _ _ _ _ _ _ W)).
  destruct Esz as (Esz & Enum & Edev).
  assert (HlP : Z.of_nat (length P1) ≤ Z.of_nat (length P) + nblk off n + 2).
  { pose proof (sub_length P1 ([sb_bmapstart sb; slot V1 i1 INDSLOT] ++ rest ++ P) (fs_nodup _ _ _ _ _ _ _ _ H1) Hacc) as Hl.
    rewrite !length_app in Hl. cbn [length] in Hl. lia. }
  assert (HsP : fits G P1 1) by (unfold fits in *; lia).
  apply wpe_bind. eapply iref_wp; [exact H1|exact Hi1|]. rewrite Esz. apply wpe_bind.
  destruct ((0 <? n) && (i_size i <? off + n)) eqn:Egrow; cbn [when].
  - apply andb_true_iff in Egrow as [G1%Z.ltb_lt G2%Z.ltb_lt]. apply wpe_bind. eapply imodify_wp; [exact H1|exact Hi1|].
    intros s2 H2. rewrite list_insert_insert_eq in H2.
    eapply iupdate_wp; [exact H2|by apply list_lookup_insert_eq|cbn; congruence|cbn; by rewrite Enum|exact HsP|].
    cbn. rewrite Enum. intros s3 H3. apply wpe_ret. split; [apply s32_small; lia|]. eexists _, _, _. split; [exact H3|]. split.
    + apply (wrote_written V P i V1 _ i1 off src _ _ true); try done; [fold n; lia|]. fold n.
      pose proof (length_logged P1 (IBLOCK (i_inum i) sb)). lia.
    + destruct (iblock_range _ Hnum) as (B1 & _). apply (rv_same _ _ _ _ HR V1 i1); [| |done].
      * intros j _. rewrite slot_size. apply (meta_slot G sb); [done|apply W|done].
      * intros z. apply (meta_used_upd G sb _ i1); [done|apply W|done].
  - apply wpe_ret. apply wpe_ret. split; [apply s32_small; lia|]. exists V1, P1, i1. split; [exact H1|]. split; [|done].
    assert (Hn : i_size i1 = Z.max (i_size i) (off + n)).
    { apply andb_false_iff in Egrow. rewrite !Z.ltb_ge in Egrow. rewrite Esz. lia. }
    replace i1 with (set_isize (i_size i1) i1) by (by destruct i1).
    apply (wrote_written V P i V1 P1 i1 off src _ [] false); try done. fold n. lia.
Qed.
End Inode.
