(* ===== verification/Mkfs.v ===== *)
(** * Mkfs: building a file-system image, [mkfs.c]

    The state is the image file, block by block, and the two counters.  The
    host's [open], [lseek], [read] and [write] succeed, except that a read
    behind the end of the image fails; a file to copy is its name and its
    contents. *)

From stdpp Require Import gmap.
From S2P Require Import Prelude Mmu Bytes Bio Log Fs.

Definition NINODES := 200.
Definition nbitmap := FSSIZE / (BSIZE * 8) + 1.
Definition ninodeblocks := NINODES / IPB + 1.
Definition nlog := LOGSIZE.
Definition nmeta := 2 + nlog + ninodeblocks + nbitmap.
Definition nblocks := FSSIZE - nmeta.

Record mkfs_st := mkImage { img : gmap Z block; freeinode : Z; freeblock : Z }.

Definition mkfs_sb : superblock :=
  mkSuper FSSIZE nblocks NINODES nlog 2 (2 + nlog) (2 + nlog + ninodeblocks).
Definition enc_super (b : superblock) : list Z :=
  mjoin (enc32 <$> [sb_size b; sb_nblocks b; sb_ninodes b; sb_nlog b; sb_logstart b; sb_inodestart b; sb_bmapstart b]).

Definition zeroes : block := replicate (Z.to_nat BSIZE) 0.

Definition wsect (sec : Z) (buf : block) : M mkfs_st unit :=
  modify (λ s, mkImage (<[sec:=buf]> (img s)) (freeinode s) (freeblock s)).
Definition rsect (sec : Z) : M mkfs_st block := λ s,
  match img s !! sec with Some x => Ok x s | None => Err (Panic "read") end.

(** An inode is its 64 bytes. *)
Definition rinode (inum : Z) : M mkfs_st (list Z) :=
  buf ← rsect (IBLOCK inum mkfs_sb);
  mret (take 64 (drop (islot inum) buf)).
Definition winode (inum : Z) (ip : list Z) : M mkfs_st unit :=
  let bn := IBLOCK inum mkfs_sb in
  buf ← rsect bn;
  wsect bn (overwrite (islot inum) ip buf).

Definition new_inode : M mkfs_st Z := λ s, Ok (freeinode s) (mkImage (img s) (u32 (freeinode s + 1)) (freeblock s)).
Definition new_block : M mkfs_st Z := λ s, Ok (freeblock s) (mkImage (img s) (freeinode s) (u32 (freeblock s + 1))).

Definition mkfs_ialloc (type : Z) : M mkfs_st Z :=
  inum ← new_inode;
  winode inum (put32 8 0 (put16 6 1 (put16 0 (u16 type) (replicate 64 0)))) ;;
  mret inum.

(** The bitmap with the first [used] bits set. *)
Fixpoint set_bits (used : nat) (buf : block) : block :=
  match used with O => buf | S k => set_bit (Z.of_nat k) (set_bits k buf) end.

Definition mkfs_balloc (used : Z) : M mkfs_st unit :=
  if negb (used <? BSIZE * 8) then panic "assert"
  else wsect (sb_bmapstart mkfs_sb) (set_bits (Z.to_nat used) zeroes).

(** The block of [din] with index [fbn], allocated when it is missing. *)
Definition iappend_block (fbn : Z) (din : list Z) : M mkfs_st (list Z * Z) :=
  if fbn <? NDIRECT then
    let o := (12 + 4 * Z.to_nat fbn)%nat in
    din ← (if get32 din o =? 0 then b ← new_block; mret (put32 o b din) else mret din);
    mret (din, get32 din o)
  else
    let o := (12 + 4 * Z.to_nat NDIRECT)%nat in
    din ← (if get32 din o =? 0 then b ← new_block; mret (put32 o b din) else mret din);
    indirect ← rsect (get32 din o);
    let k := (4 * Z.to_nat (fbn - NDIRECT))%nat in
    if get32 indirect k =? 0 then
      b ← new_block;
      let indirect := put32 k b indirect in
      wsect (get32 din o) indirect ;;
      mret (din, get32 indirect k)
    else mret (din, get32 indirect k).

Fixpoint iappend_loop (fuel : nat) (din : list Z) (off : Z) (p : list Z) : M mkfs_st (list Z * Z) :=
  match p with
  | [] => mret (din, off)
  | _ =>
      match fuel with
      | O => fail NoFuel
      | S fuel' =>
          let fbn := off / BSIZE in
          if negb (fbn <? MAXFILE) then panic "assert"
          else
            '(din, x) ← iappend_block fbn din;
            let n1 := Z.min (Z.of_nat (length p)) ((fbn + 1) * BSIZE - off) in
            buf ← rsect x;
            wsect x (overwrite (Z.to_nat (off - fbn * BSIZE)) (take (Z.to_nat n1) p) buf) ;;
            iappend_loop fuel' din (off + n1) (drop (Z.to_nat n1) p)
      end
  end.

Definition iappend (inum : Z) (p : list Z) : M mkfs_st unit :=
  din ← rinode inum;
  '(din, off) ← iappend_loop (io_fuel (Z.of_nat (length p))) din (get32 din 8) p;
  winode inum (put32 8 off din).

(** [while((cc = read(fd, buf, sizeof(buf))) > 0) iappend(inum, buf, cc);] *)
Fixpoint copy_file (fuel : nat) (inum : Z) (contents : list Z) : M mkfs_st unit :=
  match contents with
  | [] => mret tt
  | _ =>
      match fuel with
      | O => fail NoFuel
      | S fuel' =>
          iappend inum (take (Z.to_nat BSIZE) contents) ;;
          copy_file fuel' inum (drop (Z.to_nat BSIZE) contents)
      end
  end.

(** One round of the loop over the files. *)
Definition add_file (rootino : Z) (name contents : list Z) : M mkfs_st unit :=
  if bool_decide (SLASH ∈ name) then panic "assert"
  else
    let name := match name with c :: r => if c =? 95 then r else name | [] => [] end in
    inum ← mkfs_ialloc T_FILE;
    iappend rootino (mk_dirent inum name) ;;
    copy_file (S (length contents)) inum contents.

Definition mkfs_main (files : list (list Z * list Z)) : M mkfs_st unit :=
  modify (λ s, mkImage (img s) 1 nmeta) ;;
  forM (seq 0 (Z.to_nat FSSIZE)) (λ i, wsect (Z.of_nat i) zeroes) ;;
  wsect 1 (overwrite 0 (enc_super mkfs_sb) zeroes) ;;
  rootino ← mkfs_ialloc T_DIR;
  if negb (rootino =? ROOTINO) then panic "assert"
  else
    iappend rootino (mk_dirent rootino [46]) ;;
    iappend rootino (mk_dirent rootino [46; 46]) ;;
    forM files (λ f, add_file rootino f.1 f.2) ;;
    din ← rinode rootino;
    let off := (get32 din 8 / BSIZE + 1) * BSIZE in
    winode rootino (put32 8 off din) ;;
    fb ← gets freeblock;
    mkfs_balloc fb.

Definition mkfs (files : list (list Z * list Z)) : option (gmap Z block) :=
  match mkfs_main files (mkImage ∅ 1 0) with Ok _ s => Some (img s) | Err _ => None end.
