(* ===== verification/FsOps.v ===== *)
(** * FsOps: whole operations on files

    Between operations no transaction is open and nothing is dirty.
    [begin_op] opens one, [end_op] commits it and leaves the contents of all
    blocks outside the log as the operation made them; [ilock] and [iunlock] take
    and release an inode that is in the cache. *)

From S2P Require Import Prelude Mmu Bytes Bio BioSpec Log LogSpec Fs FsSpec FsBlocks FsFile FsData FsReserve FsWrite.

Section Ops.
Context (st sz pid : Z) (sb : superblock) (cw : nat) (E : err → Prop).
Definition cfg (o : Z) : logcfg := mkCfg st sz o false pid.
Hypothesis Hly : layout (cfg 1) sb.
Notation fs o := (fs (cfg o) sb cw).

Lemma layout_cfg o : layout (cfg o) sb.
Proof using Hly. destruct Hly. by split. Qed.

Lemma log_ok_outstanding g P o : log_ok g P → log_ok (set_outstanding o g) P.
Proof using. intros [L1 L2 L3 L4 L5 L6 L7 L8]. by split. Qed.
Lemma log_ok_committing g P b : log_ok g P → log_ok (set_committing b g) P.
Proof using. intros [L1 L2 L3 L4 L5 L6 L7 L8]. by split. Qed.

(** A change of the log's counters. *)
Lemma fs_llog o o' V P I s g' :
  fs o V P [] I s → log_ok g' P → lstat (mkLst (lbio (ftx s)) g') = cfg o' →
  fs o' V P [] I (set_ftx (mkLst (lbio (ftx s)) g') s).
Proof using. intros [[T1 T2 T3 T4 T5 T6] F2 F3 F4] Hg Hs. by split. Qed.

Lemma begin_op_wp V I s (Q : unit → fsst → Prop) :
  fs 0 V [] [] I s → (∀ s', fs 1 V [] [] I s' → Q tt s') → wpe E (on_tx begin_op) Q s.
Proof using.
  intros Hf HQ. pose proof (fs_tx _ _ _ _ _ _ _ _ Hf) as Ht. pose proof (tx_log _ _ _ _ _ Ht) as Hl.
  pose proof (tx_stat _ _ _ _ _ Ht) as [= E1 E2 E3 E4 E5].
  apply (wpe_ok _ _ tt _ (set_ftx (mkLst (lbio (ftx s)) (set_outstanding 1 (llog (ftx s)))) s)).
  - unfold on_tx, begin_op. destruct (ftx s) as [b g]. cbn in *. rewrite (bind_ok _ _ _ false (mkLst b g)) by (unfold lgets, gets; cbn; by rewrite E4).
    rewrite (bind_ok _ _ _ 0 (mkLst b g)) by (unfold lgets, gets; cbn; by rewrite (lo_n _ _ Hl)).
    rewrite (bind_ok _ _ _ 0 (mkLst b g)) by (unfold lgets, gets; cbn; by rewrite E3). done.
  - apply HQ. eapply fs_llog; [exact Hf|by apply log_ok_outstanding|]. unfold lstat, cfg. cbn. congruence.
Qed.

Lemma commit_wp V P I s :
  fs 1 V P [] I s → (length P < NBUF)%nat →
  let g := set_committing true (set_outstanding 0 (llog (ftx s))) in
  ∃ b' V', commit (mkLst (lbio (ftx s)) g) = Ok tt (mkLst b' (set_lh_n 0 g)) ∧
    (∃ l, binv b' l []) ∧ (∀ z, ¬ pinned b' z) ∧ cur_pid b' = pid ∧ (∀ z, view b' z = V' z) ∧
    ∀ z, off_log (cfg 1) z → V' z = V z.
Proof using.
  intros Hf HP g. pose proof (fs_tx _ _ _ _ _ _ _ _ Hf) as [[l T1] T2 T3 T4 T5 _]. injection T3 as E1 E2 E3 E4 E5.
  assert (Hg : log_ok g P) by (by apply log_ok_committing, log_ok_outstanding).
  destruct (decide (P = [])) as [->|HPne].
  - exists (lbio (ftx s)), V. split_and!; [|by exists l| |done|done|done].
    + unfold commit. rewrite (bind_ok _ _ _ 0 (mkLst (lbio (ftx s)) g)) by (unfold lgets, gets; cbn; by rewrite (lo_n _ _ T2)). cbn.
      unfold mret, M_ret. do 2 f_equal. assert (Hn : lh_n g = 0) by apply (lo_n _ _ Hg). rewrite <- Hn. by destruct g.
    + intros z Hz. apply T4 in Hz. by apply elem_of_nil in Hz.
  - destruct (commit_run g P (lbio (ftx s)) l Hg HPne HP T1 T4) as (b' & l' & Ec & Hi & Hp & _ & Hpid & Hv & _).
    exists b', (view b'). split_and!; [done|by exists l'|done|congruence|done|]. intros z Hz. rewrite <- T5.
    apply Hv. unfold outside, off_log in *. cbn in *. lia.
Qed.

Lemma end_op_wp V P I s (Q : unit → fsst → Prop) :
  fs 1 V P [] I s → (length P < NBUF)%nat →
  (∀ V' s', (∀ z, off_log (cfg 1) z → V' z = V z) → fs 0 V' [] [] I s' → Q tt s') → wpe E (on_tx end_op) Q s.
Proof using.
  intros Hf HP HQ. destruct (commit_wp V P I s Hf HP) as (b' & V' & Ec & Hi & Hp & Hpid & Hv & Ho).
  pose proof Hf as [[_ T2 T3 _ _ _] F2 F3 F4]. injection T3 as E1 E2 E3 E4 E5.
  set (g := set_committing true (set_outstanding 0 (llog (ftx s)))) in *.
  apply (wpe_ok _ _ tt _ (set_ftx (mkLst b' (set_committing false (set_lh_n 0 g))) s)).
  - unfold on_tx, end_op. destruct (ftx s) as [b g0]. cbn in *.
    rewrite (bind_ok _ _ _ tt (mkLst b (set_outstanding 0 g0))) by (unfold lmodify, modify; cbn; by rewrite E3).
    rewrite (bind_ok _ _ _ false (mkLst b (set_outstanding 0 g0))) by (unfold lgets, gets; cbn; by rewrite E4).
    rewrite (bind_ok _ _ _ 0 (mkLst b (set_outstanding 0 g0))) by done. cbn [Z.eqb].
    rewrite (bind_ok _ _ _ tt (mkLst b g)) by done. by rewrite (bind_ok _ _ _ _ _ Ec).
  - apply (HQ V' _ Ho). split; try done. cbn. split; try done.
    + apply log_ok_committing. by eapply log_ok_done, log_ok_committing, log_ok_outstanding.
    + unfold lstat, cfg. cbn. congruence.
    + intros z. split; [intros Hz; by apply Hp in Hz|by intros ?%elem_of_nil].
    + by intros ? ? ?%elem_of_nil.
Qed.

(** ** Locks *)

Definition inode_free (i : inode) : Prop := 1 ≤ i_ref i ∧ sl_locked (i_lock i) = false ∧ i_valid i = true.

Lemma ilock_wp o V P I s ip i (Q : unit → fsst → Prop) :
  fs o V P [] I s → I !! ip = Some i → inode_free i →
  (∀ s', fs o V P [] (<[ip:=set_ilock (mkSleep true pid) i]> I) s' → Q tt s') → wpe E (ilock ip) Q s.
Proof using.
  intros Hf Hi (Hr & Hl & Hv) HQ. unfold ilock. apply wpe_bind. eapply iref_wp; [exact Hf|exact Hi|].
  rewrite (proj2 (Z.ltb_ge _ 1)) by done. apply wpe_bind. unfold isleep. apply wpe_bind. eapply iref_wp; [exact Hf|exact Hi|].
  pose proof (tx_stat _ _ _ _ _ (fs_tx _ _ _ _ _ _ _ _ Hf)) as [= _ _ _ _ Hpid].
  apply wpe_bind. apply (wpe_ok _ _ (mkSleep true pid) _ s).
  { unfold on_tx, on_bio, acquiresleep. rewrite Hl, (bind_ok _ _ _ pid (lbio (ftx s))) by (unfold gets; by rewrite Hpid).
    cbn. by destruct s as [[? ?] ? ? ? ?]. }
  eapply imodify_wp; [exact Hf|exact Hi|]. intros s1 H1. apply wpe_bind.
  eapply iref_wp; [exact H1|apply list_lookup_insert_eq; by eapply lookup_lt_Some|]. cbn. rewrite Hv. cbn. apply wpe_ret. by apply HQ.
Qed.

Lemma iunlock_wp o V P I s ip i (Q : unit → fsst → Prop) :
  fs o V P [] I s → I !! ip = Some i → 1 ≤ i_ref i → i_lock i = mkSleep true pid →
  (∀ s', fs o V P [] (<[ip:=set_ilock (mkSleep false 0) i]> I) s' → Q tt s') → wpe E (iunlock ip) Q s.
Proof using.
  intros Hf Hi Hr Hl HQ. unfold iunlock. apply wpe_bind. eapply iref_wp; [exact Hf|exact Hi|]. rewrite Hl.
  pose proof (tx_stat _ _ _ _ _ (fs_tx _ _ _ _ _ _ _ _ Hf)) as [= _ _ _ _ Hpid].
  apply wpe_bind. apply (wpe_ok _ _ true _ s).
  { unfold on_tx, on_bio, holdingsleep. rewrite (bind_ok _ _ _ pid (lbio (ftx s))) by (unfold gets; by rewrite Hpid).
    cbn. rewrite Z.eqb_refl. by destruct s as [[? ?] ? ? ? ?]. }
  rewrite (proj2 (Z.ltb_ge _ 1)) by done. cbn. by eapply imodify_wp; [exact Hf|exact Hi|].
Qed.

(** ** A file that can grow to [K] blocks *)

Record good_file (K : nat) (V : Z → block) (i : inode) : Prop := {
  gf_dev : i_dev i = 1;
  gf_type : i_type i ≠ T_DEV;
  gf_inum : 0 ≤ i_inum i < sb_ninodes sb;
  gf_ok : file_ok sb V i;
  gf_filled : filled V i;
  gf_meta : meta_used sb V;
  gf_enough : enough sb K V i
}.
Definition contents (V : Z → block) (i : inode) : list Z := frange V i 0 (Z.to_nat (i_size i)).

Section Agree.
Context (K : nat) (V V' : Z → block) (i : inode).
Hypothesis HV : ∀ z, off_log (cfg 1) z → V' z = V z.
Hypothesis HK : (K ≤ INDSLOT)%nat.
Hypothesis Hgood : good_file K V i.

Lemma agree_data z : sb_bmapstart sb ≤ z → V' z = V z.
Proof using Hly HV.
  clear - Hly HV. intros Hz. apply HV. destruct Hly as [L1 L2 L3]. unfold off_log, IPB in *. cbn in *.
  assert (0 ≤ (sb_ninodes sb - 1) / 8) by dlia. lia.
Qed.
Lemma agree_slot j : slot V' i j = slot V i j.
Proof using Hly HV Hgood.
  clear HK. unfold slot. do 2 (case_decide; [done|]). destruct (Z.eqb_spec (nth 12 (i_addrs i) 0) 0) as [|Hn]; [done|].
  rewrite agree_data; [done|]. rewrite <- (slot_ind V) in *. destruct (fo_range _ _ _ (gf_ok _ _ _ Hgood) INDSLOT (le_n _) Hn). lia.
Qed.
Lemma agree_used z : used sb V' z = used sb V z.
Proof using Hly HV. unfold used. by rewrite agree_data. Qed.
Lemma agree_byte o : 0 ≤ o < MAXFILE * BSIZE → fbyte V' i o = fbyte V i o.
Proof using Hly HV Hgood.
  clear HK. intros Ho. unfold fbyte. rewrite agree_slot. destruct (Z.eqb_spec (slot V i (Z.to_nat (o / BSIZE))) 0) as [|Hn]; [done|].
  rewrite agree_data; [done|]. destruct (fo_range _ _ _ (gf_ok _ _ _ Hgood) (Z.to_nat (o / BSIZE))); [|done|lia].
  unfold MAXFILE, NDIRECT, NINDIRECT, BSIZE, INDSLOT in *. dlia.
Qed.
Lemma agree_good : good_file K V' i.
Proof using Hly HV HK Hgood.
  pose proof agree_slot as Hs. pose proof agree_used as Hu. destruct Hgood as [G1 G2 G3 [F1 F2 F3] [G5 G5'] G6 G7]. split; try done.
  - split; [done| |].
    + intros k Hk. rewrite Hs, Hu. by apply F2.
    + intros j k Hj Hk. rewrite !Hs. by apply F3.
  - split; [done|]. intros k Hk. rewrite Hs. by apply G5'.
  - intros b Hb. rewrite Hu. by apply G6.
  - by apply (rv_same _ _ _ _ (enough_reservation (cfg 1) sb K Hly HK) V i).
Qed.
Lemma agree_contents : contents V' i = contents V i.
Proof using Hly HV Hgood.
  clear HK. unfold contents, frange. apply list_fmap_ext. intros k x Hx. apply lookup_seq in Hx as [-> Hk]. apply agree_byte.
  destruct (gf_filled _ _ _ Hgood) as [Hz _]. lia.
Qed.
End Agree.

Lemma good_set_ilock K V i l : good_file K V i → good_file K V (set_ilock l i).
Proof using. intros [G1 G2 G3 [F1 F2 F3] G5 G6 G7]. by split. Qed.
End Ops.
