(* ===== verification/FsDemo.v ===== *)
(** * FsDemo: a small file system

    The image that [mkfs] makes of one file of 1000 bytes, just after boot, with
    that file's inode in the cache and a transaction open. *)

From stdpp Require Import gmap.
From S2P Require Import Prelude Mmu Bytes Bio BioSpec Log LogSpec Fs FsSpec FsBlocks FsFile FsData FsWrite Mkfs Console.

(** The file [a], 1000 bytes with value 5. *)
Definition demo_files : list (list Z * list Z) := [([97], replicate (Z.to_nat 1000) 5)].
Definition demo_img : gmap Z block := default ∅ (mkfs demo_files).
Definition demo_disk (dev bn : Z) : block := match demo_img !! bn with Some x => x | None => zero_block end.
Definition demo_bio0 : bio :=
  mkBio demo_disk [] true [] (replicate (S NBUF) (mkBuf 0 0 0 (mkSleep false 0) 0 0 0 [])) 1.
Definition demo_bio : bio := match binit demo_bio0 with Ok _ s => s | Err _ => demo_bio0 end.

(** The inode of [a], as [ilock] reads it. *)
Definition demo_inode : inode :=
  load_dinode (demo_disk 1 (IBLOCK 2 mkfs_sb)) (islot 2) (mkInode 1 2 1 (mkSleep true 1) true 0 0 0 0 0 []).
(** A console with nothing typed and an empty screen. *)
Definition demo_console : console :=
  mkConsole (mkInput (replicate 128 0) 0 0 0) 0 [] (mkScreen 0 (λ _, 0)) false.
Definition demo_fs : fsst := mkFs (mkLst demo_bio demo_log) mkfs_sb [demo_inode] 0 demo_console.
Definition demo_cfg : logcfg := lstat (mkLst demo_bio demo_log).

Lemma demo_inode_eq :
  demo_inode = mkInode 1 2 1 (mkSleep true 1) true 2 0 0 1 1000 [60; 61; 0; 0; 0; 0; 0; 0; 0; 0; 0; 0; 0].
Proof. vm_compute. reflexivity. Qed.

Lemma demo_img_blocks : forallb (λ p, length p.2 =? 512)%nat (map_to_list demo_img) = true.
Proof. vm_compute. reflexivity. Qed.

Lemma demo_disk_block dev bn : is_block (demo_disk dev bn).
Proof.
  unfold demo_disk. destruct (demo_img !! bn) as [x|] eqn:Ex; [|done]. pose proof demo_img_blocks as Hb.
  rewrite forallb_forall in Hb. apply elem_of_map_to_list, list_elem_of_In in Ex. apply Hb in Ex. by apply Nat.eqb_eq in Ex.
Qed.

Lemma demo_bio_flags : forallb (λ b, b_flags b =? 0) (bcache demo_bio) = true.
Proof. vm_compute. reflexivity. Qed.

Lemma demo_bio_ok :
  binv demo_bio (reverse (seq 0 NBUF)) [] ∧ (∀ bn, view demo_bio bn = disk demo_bio0 1 bn) ∧ ∀ bn, ¬ pinned demo_bio bn.
Proof.
  assert (Hp : ∀ bn, ¬ pinned demo_bio bn).
  { intros bn (i & b & _ & Eb & _ & _ & Hf). pose proof demo_bio_flags as Hfl. rewrite forallb_forall in Hfl.
    assert (Hin : In b (bcache demo_bio)) by (apply list_elem_of_In; by eapply list_elem_of_lookup_2).
    apply Hfl in Hin. apply Z.eqb_eq in Hin. rewrite Hf in Hin. discriminate Hin. }
  destruct (binit_spec demo_bio0) as (bs' & E & Hi & Hv); [reflexivity| |reflexivity|reflexivity|intros; apply demo_disk_block|].
  { intros i b Hi [-> _]%lookup_replicate. cbn. split_and!; try done. }
  assert (demo_bio = set_bcache bs' demo_bio0) as E' by (unfold demo_bio; by rewrite E). split; [by rewrite E'|]. split; [|exact Hp].
  intros bn. rewrite E'. exact (Hv bn).
Qed.

Definition demo_V : Z → block := disk demo_bio0 1.

(** The start of a transaction. *)
Lemma fs_start b g l V sb I cw co :
  binv b l [] → log_ok g [] → (∀ bn, view b bn = V bn) → (∀ bn, ¬ pinned b bn) →
  fs (lstat (mkLst b g)) sb cw V [] [] I (mkFs (mkLst b g) sb I cw co).
Proof.
  intros Hi Hl Hv Hp. split; try done. split; cbn; try done; [by exists l| |].
  - intros z. split; [intros Hz; by apply Hp in Hz|by intros ?%elem_of_nil].
  - by intros i bn ?%elem_of_nil.
Qed.

Lemma demo_fs_ok : fs demo_cfg mkfs_sb 0 demo_V [] [] [demo_inode] demo_fs.
Proof.
  destruct demo_bio_ok as (Hi & Hv & Hp). exact (fs_start _ _ _ _ _ _ _ demo_console Hi demo_log_ok Hv Hp).
Qed.

Lemma demo_layout : layout demo_cfg mkfs_sb.
Proof. split; vm_compute; repeat split; discriminate. Qed.

Lemma demo_meta : meta_used mkfs_sb demo_V.
Proof.
  assert (Hb : forallb (λ k, used mkfs_sb demo_V (Z.of_nat k)) (seq 0 59) = true) by (vm_compute; reflexivity).
  intros b Hb'. change (sb_bmapstart mkfs_sb) with 58 in Hb'. rewrite forallb_forall in Hb.
  specialize (Hb (Z.to_nat b)). rewrite Z2Nat.id in Hb by lia. apply Hb. apply in_seq. lia.
Qed.

(** The file's slots: 60 and 61, then none. *)
Lemma demo_slots : ∀ k, (k ≤ INDSLOT)%nat → slot demo_V demo_inode k = match k with 0%nat => 60 | 1%nat => 61 | _ => 0 end.
Proof.
  assert (Hb : forallb (λ k, slot demo_V demo_inode k =? match k with 0%nat => 60 | 1%nat => 61 | _ => 0 end) (seq 0 141) = true)
    by (vm_compute; reflexivity).
  intros k Hk. rewrite forallb_forall in Hb. apply Z.eqb_eq, Hb, in_seq. unfold INDSLOT in Hk. lia.
Qed.

Lemma demo_file_ok : file_ok mkfs_sb demo_V demo_inode.
Proof.
  assert (Hu : used mkfs_sb demo_V 60 = true ∧ used mkfs_sb demo_V 61 = true) by (split; vm_compute; reflexivity).
  split.
  - by rewrite demo_inode_eq.
  - intros k Hk. rewrite demo_slots by done. change (sb_bmapstart mkfs_sb) with 58. change (sb_size mkfs_sb) with 1000.
    destruct k as [|[|k]]; [| |lia]; intros _; (split; [lia|]); [exact (proj1 Hu)|exact (proj2 Hu)].
  - intros j k Hj Hk. rewrite !demo_slots by done. destruct j as [|[|j]], k as [|[|k]]; lia.
Qed.

Lemma demo_filled : filled demo_V demo_inode.
Proof.
  split; [rewrite demo_inode_eq; cbn; unfold MAXFILE, NDIRECT, NINDIRECT, BSIZE; lia|]. intros k Hk.
  assert (Hk2 : (k < 2)%nat) by (rewrite demo_inode_eq in Hk; unfold BSIZE in Hk; cbn [i_size] in Hk; lia).
  rewrite demo_slots by (unfold INDSLOT; lia). destruct k as [|[|k]]; lia.
Qed.
