(* ===== verification/FsClaims.v ===== *)
(** * FsClaims: what the block allocator and file contents promise *)

From S2P Require Import Prelude Mmu Bytes Bio BioSpec Log LogSpec Fs FsSpec FsBlocks FsFile FsData FsWrite Mkfs FsDemo.

(** [balloc] gives out the first block that is free in the bitmap, marked
    and filled with zeroes, both logged, and changes nothing else; it panics
    exactly when every block is in use.  The block lies behind the bitmap, so it
    never is the superblock, a log block, an inode block or the bitmap. *)
Theorem balloc_first_free G sb cw V P I s :
  layout G sb → 1 ≤ c_outstanding G → fs G sb cw V P [] I s → meta_used sb V → fits G P 3 →
  match balloc 1 s with
  | Ok b s' =>
      sb_bmapstart sb < b < sb_size sb ∧ used sb V b = false ∧ (∀ j, 0 ≤ j < b → used sb V j = true) ∧
      ∃ V' P', fs G sb cw V' P' [] I s' ∧ V' b = zero_block ∧
        (∀ j, 0 ≤ j < FSSIZE → used sb V' j = bool_decide (j = b) || used sb V j) ∧
        (∀ z, z ≠ b → z ≠ sb_bmapstart sb → V' z = V z) ∧
        (∀ z, z ∈ P' ↔ z ∈ P ∨ z = sb_bmapstart sb ∨ z = b)
  | Err e => e = Panic "balloc: out of blocks" ∧ ∀ b, 0 ≤ b < sb_size sb → used sb V b = true
  end.
Proof.
  intros Hly Hout Hf Hm Hfit. set (E := λ e, e = Panic "balloc: out of blocks" ∧ ∀ b, 0 ≤ b < sb_size sb → used sb V b = true).
  assert (Hfit1 : fits G P 1) by (eapply fits_le; [exact Hfit|lia]).
  assert (Hfit2 : fits G (logged P (sb_bmapstart sb)) 1) by (apply fits_logged; eapply fits_le; [exact Hfit|lia]).
  eapply (balloc_wp G sb cw E Hly Hout V P [] I s (λ b s', _)); [exact Hf|set_solver|set_solver|done|done|done|cbn; lia| |by split].
  intros b s' Hb Hu Hmin H'. split; [done|]. split; [done|]. split; [done|]. eexists _, _. split; [exact H'|].
  assert (Hbb : 0 ≤ b < FSSIZE) by (eapply data_range; [exact Hly|done]).
  split; [by rewrite alloc_view_new|]. split; [|split].
  - intros j Hj. rewrite (used_alloc G); [|done|by eapply fs_block|lia|done]. by case_decide; case_bool_decide.
  - intros z H1 H2. by apply alloc_view_other.
  - intros z. unfold alloc_log. rewrite !elem_logged. tauto.
Qed.

(** C28. [readi] returns the bytes of the file from [off] on, as many as were
    asked for and the file has, and changes nothing; behind the end of the file it
    fails. *)
Theorem readi_contents `{!Devsw} G sb cw V P I s ip i off n :
  layout G sb → fs G sb cw V P [] I s → (length P < NBUF)%nat →
  I !! ip = Some i → i_dev i = 1 → i_type i ≠ T_DEV → file_ok sb V i → filled V i → 0 ≤ off < 2147483648 → 0 ≤ n < 2147483648 →
  match readi ip off n s with
  | Ok (r, data) s' => fs G sb cw V P [] I s' ∧
      if i_size i <? off then r = -1 ∧ data = []
      else r = Z.min n (i_size i - off) ∧ data = frange V i off (Z.to_nat r)
  | Err _ => False
  end.
Proof.
  intros Hly Hf HP Hi Hdev Hty Hfile Hfill Hoff Hn. destruct (Z.ltb_spec (i_size i) off) as [Hgt|Hle].
  - unfold readi. erewrite bind_ok by (unfold iref; by rewrite (fs_ic _ _ _ _ _ _ _ _ Hf), Hi).
    rewrite (proj2 (Z.eqb_neq _ _)), (proj2 (Z.ltb_lt (i_size i) off)) by done. done.
  - enough (wpe (λ _, False) (readi ip off n) (λ rd s', fs G sb cw V P [] I s' ∧
      rd.1 = Z.min n (i_size i - off) ∧ rd.2 = frange V i off (Z.to_nat rd.1)) s) as Hw.
    { unfold wpe in Hw. by destruct (readi ip off n s) as [[r data] s'|]. }
    eapply readi_wp; [exact Hly|exact Hf|exact Hi|done|done|done|done|done|lia|lia|lia|]. intros s' H'. done.
Qed.


Lemma frange_written sb V P i V' P' i' off src :
  written sb V P i V' P' i' off src → 0 ≤ off → frange V' i' off (length src) = src.
Proof.
  intros W Ho. apply list_eq. intros k. unfold frange. rewrite list_lookup_fmap.
  destruct (decide (k < length src)%nat) as [Hk|Hk].
  - rewrite lookup_seq_lt by done. cbn. destruct (lookup_lt_is_Some_2 src k Hk) as [c Hc]. rewrite Hc. f_equal.
    rewrite (wn_bytes _ _ _ _ _ _ _ _ _ W) by (rewrite (wn_size _ _ _ _ _ _ _ _ _ W); lia).
    rewrite decide_True by (unfold in_write; lia). replace (Z.to_nat (off + Z.of_nat k - off)) with k by lia.
    by apply nth_lookup_Some.
  - rewrite !lookup_ge_None_2 by (rewrite ?length_seq; lia). done.
Qed.

(** C29. What has been written can be read: [readi] at the same offset gives the
    bytes back. *)
Theorem writei_readi `{!Devsw} G sb cw V P I s ip i off src :
  layout G sb → 1 ≤ c_outstanding G → fs G sb cw V P [] I s →
  I !! ip = Some i → i_dev i = 1 → i_type i ≠ T_DEV → 0 ≤ i_inum i < sb_ninodes sb →
  file_ok sb V i → filled V i → meta_used sb V → 0 ≤ off ≤ i_size i → off + Z.of_nat (length src) ≤ MAXFILE * BSIZE →
  fits G P (nblk off (Z.of_nat (length src)) + 5) →
  match (writei ip src off ;; readi ip off (Z.of_nat (length src))) s with
  | Ok (r, data) _ => r = Z.of_nat (length src) ∧ data = src
  | Err e => e = Panic "balloc: out of blocks"
  end.
Proof.
  intros Hly Hout Hf Hi Hdev Hty Hnum Hfile Hfill Hmeta Hoff Hmax Hfit. set (E := λ e, e = Panic "balloc: out of blocks").
  enough (wpe E (writei ip src off ;; readi ip off (Z.of_nat (length src))) (λ rd _, rd.1 = Z.of_nat (length src) ∧ rd.2 = src) s) as Hw.
  { unfold wpe in Hw. by destruct ((writei ip src off ;; _) s) as [[r data] s'|]. }
  apply wpe_bind. eapply wpe_mono; [exact (writei_wp G sb cw E Hly Hout INDSLOT (λ _ _, True) (no_reservation sb E eq_refl) V P I s ip i off src
    Hf Hi Hdev Hty Hnum Hfile Hfill Hmeta Hoff Hmax Hfit Hmax Logic.I)|].
  intros r s' (-> & V' & P' & i' & H' & W & _). pose proof (wn_size _ _ _ _ _ _ _ _ _ W) as Hsz.
  assert (Hi' : <[ip:=i']> I !! ip = Some i') by (apply list_lookup_insert_eq; by eapply lookup_lt_Some).
  assert (Hd : i_dev i' = 1 ∧ i_type i' ≠ T_DEV) by (rewrite (wn_same _ _ _ _ _ _ _ _ _ W); done). destruct Hd as [Hd1 Hd2].
  assert (HP : (length P' < NBUF)%nat).
  { pose proof (wn_log _ _ _ _ _ _ _ _ _ W). unfold fits, LOGSIZE, NBUF in *. lia. }
  change (MAXFILE * BSIZE) with 71680 in *.
  eapply readi_wp; [exact Hly|exact H'|exact Hi'|done|done|apply W|apply W|done|lia|lia|lia|].
  intros s2 H2. unfold read_len. rewrite Hsz. rewrite Z.min_l by lia. cbn [fst snd]. split; [done|]. rewrite Nat2Z.id.
  eapply frange_written; [exact W|lia].
Qed.

(** ** On a concrete disk *)

Definition no_devices : Devsw := mkDevsw (λ _, None) (λ _, None).

Lemma demo_hyps :
  1 ≤ c_outstanding demo_cfg ∧ [demo_inode] !! 0%nat = Some demo_inode ∧ i_dev demo_inode = 1 ∧ i_type demo_inode ≠ T_DEV ∧
  0 ≤ i_inum demo_inode < sb_ninodes mkfs_sb ∧ i_size demo_inode = 1000 ∧ fits demo_cfg [] 9.
Proof. rewrite demo_inode_eq. cbn. unfold T_DEV, fits, LOGSIZE. cbn. split_and!; lia || done. Qed.

Lemma balloc_first_free_witness :
  layout demo_cfg mkfs_sb ∧ fs demo_cfg mkfs_sb 0 demo_V [] [] [demo_inode] demo_fs ∧
  match balloc 1 demo_fs with
  | Ok b s' => sb_bmapstart mkfs_sb < b < sb_size mkfs_sb ∧ used mkfs_sb demo_V b = false
  | Err e => e = Panic "balloc: out of blocks" ∧ ∀ b, 0 ≤ b < sb_size mkfs_sb → used mkfs_sb demo_V b = true
  end.
Proof.
  split; [exact demo_layout|]. split; [exact demo_fs_ok|]. destruct demo_hyps as (H1 & _ & _ & _ & _ & _ & H7).
  pose proof (balloc_first_free demo_cfg mkfs_sb 0 demo_V [] [demo_inode] demo_fs demo_layout H1 demo_fs_ok demo_meta
    ltac:(eapply fits_le; [exact H7|lia])) as H.
  destruct (balloc 1 demo_fs) as [b s'|e]; [|exact H]. destruct H as (A & B & _). split; [exact A|exact B].
Defined.

Lemma readi_contents_witness :
  match @readi no_devices 0 998 10 demo_fs with
  | Ok (r, data) s' => r = Z.min 10 (i_size demo_inode - 998) ∧ data = frange demo_V demo_inode 998 (Z.to_nat r)
  | Err _ => False
  end.
Proof.
  destruct demo_hyps as (_ & H2 & H3 & H4 & _ & H6 & _).
  pose proof (@readi_contents no_devices demo_cfg mkfs_sb 0 demo_V [] [demo_inode] demo_fs 0 demo_inode 998 10 demo_layout demo_fs_ok
    ltac:(unfold NBUF; cbn; lia) H2 H3 H4 demo_file_ok demo_filled ltac:(lia) ltac:(lia)) as H.
  destruct (@readi no_devices 0 998 10 demo_fs) as [[r data] s'|e]; [|exact H]. destruct H as [_ H]. rewrite H6 in *. exact H.
Defined.


Lemma writei_readi_witness :
  match (@writei no_devices 0 [7; 8; 9] 998 ;; @readi no_devices 0 998 3) demo_fs with
  | Ok (r, data) _ => r = 3 ∧ data = [7; 8; 9]
  | Err e => e = Panic "balloc: out of blocks"
  end.
Proof.
  destruct demo_hyps as (H1 & H2 & H3 & H4 & H5 & H6 & H7).
  exact (@writei_readi no_devices demo_cfg mkfs_sb 0 demo_V [] [demo_inode] demo_fs 0 demo_inode 998 [7; 8; 9] demo_layout H1
    demo_fs_ok H2 H3 H4 H5 demo_file_ok demo_filled demo_meta ltac:(rewrite H6; lia)
    ltac:(cbn; unfold MAXFILE, NDIRECT, NINDIRECT, BSIZE; lia) ltac:(eapply fits_le; [exact H7|vm_compute; discriminate])).
Defined.
