(* ===== verification/Pipe.v ===== *)
(** * Pipe: pipes as first-in first-out queues, [pipe.c]

    The routines hold the pipe's lock from their start to their end, except
    inside [sleep].  Each is a function that runs up to its return or to its
    next [sleep], with what is left to do; the machine at the end of the file
    runs any number of readers and writers in any interleaving of these
    pieces. *)

From S2P Require Import Prelude Mmu.

Definition PIPESIZE := 512.

(** [p_data] has [PIPESIZE] bytes; [p_nread] and [p_nwrite] are unsigned. *)
Record pipe := mkPipe {
  p_data : list Z;
  p_nread : Z;
  p_nwrite : Z;
  p_readopen : bool;
  p_writeopen : bool
}.

(** The two channels on which processes sleep: [&p->nread] and [&p->nwrite]. *)
Inductive pchan := CRead | CWrite.
#[global] Instance pchan_eq_dec : EqDecision pchan.
Proof. solve_decision. Defined.

Definition pipe_init (data : list Z) : pipe := mkPipe data 0 0 true true.

Definition pipe_full (p : pipe) : bool := p_nwrite p =? u32 (p_nread p + PIPESIZE).
Definition pipe_empty (p : pipe) : bool := p_nread p =? p_nwrite p.

(** [p->data[p->nwrite++ % PIPESIZE] = c;] *)
Definition pipe_push (c : Z) (p : pipe) : pipe :=
  mkPipe (<[Z.to_nat (p_nwrite p mod PIPESIZE):=c]> (p_data p)) (p_nread p) (u32 (p_nwrite p + 1))
    (p_readopen p) (p_writeopen p).
(** [p->data[p->nread++ % PIPESIZE]] *)
Definition pipe_pop (p : pipe) : Z * pipe :=
  (nth (Z.to_nat (p_nread p mod PIPESIZE)) (p_data p) 0,
   mkPipe (p_data p) (u32 (p_nread p + 1)) (p_nwrite p) (p_readopen p) (p_writeopen p)).

Inductive wres :=
  | WReturn (r : Z)
  | WSleep (rest : list Z).

(** The loop of [pipewrite] with the bytes [src] to go: the result, the pipe
    and the channel woken last, if any. *)
Fixpoint pipewrite_loop (killed : bool) (n : Z) (src : list Z) (p : pipe) : wres * pipe * option pchan :=
  match src with
  | [] => (WReturn n, p, Some CRead)
  | c :: src' =>
      if pipe_full p then
        if negb (p_readopen p) || killed then (WReturn (-1), p, None)
        else (WSleep src, p, Some CRead)
      else pipewrite_loop killed n src' (pipe_push c p)
  end.

Fixpoint piperead_copy (n : nat) (p : pipe) : list Z * pipe :=
  match n with
  | O => ([], p)
  | S n' =>
      if pipe_empty p then ([], p)
      else
        let (c, p) := pipe_pop p in
        let (r, p) := piperead_copy n' p in
        (c :: r, p)
  end.

Inductive rres :=
  | RReturn (r : Z) (dst : list Z)
  | RSleep.

Definition piperead (killed : bool) (n : Z) (p : pipe) : rres * pipe * option pchan :=
  if pipe_empty p && p_writeopen p then
    if killed then (RReturn (-1) [], p, None) else (RSleep, p, None)
  else
    let (r, p) := piperead_copy (Z.to_nat n) p in
    (RReturn (Z.of_nat (length r)) r, p, Some CWrite).

(** The pipe after the close, the channel woken, and whether the page is freed. *)
Definition pipeclose (writable : bool) (p : pipe) : pipe * pchan * bool :=
  let p' := if writable then mkPipe (p_data p) (p_nread p) (p_nwrite p) (p_readopen p) false
            else mkPipe (p_data p) (p_nread p) (p_nwrite p) false (p_writeopen p) in
  (p', if writable then CRead else CWrite, negb (p_readopen p') && negb (p_writeopen p')).

(** ** Queues *)

Record pipe_ok (p : pipe) : Prop := {
  po_data : length (p_data p) = Z.to_nat PIPESIZE;
  po_read : is_u32 (p_nread p);
  po_write : is_u32 (p_nwrite p);
  po_fill : u32 (p_nwrite p - p_nread p) ≤ PIPESIZE
}.

(** The bytes in the pipe, the oldest first. *)
Definition fill_ (p : pipe) : nat := Z.to_nat (u32 (p_nwrite p - p_nread p)).
Definition at_ (p : pipe) (k : Z) : Z := nth (Z.to_nat (k mod PIPESIZE)) (p_data p) 0.
Definition queue (p : pipe) : list Z := (λ k, at_ p (p_nread p + Z.of_nat k)) <$> seq 0 (fill_ p).

Lemma length_queue p : length (queue p) = fill_ p.
Proof. unfold queue. by rewrite length_fmap, length_seq. Qed.

Lemma at_u32 p k : at_ p (u32 k) = at_ p k.
Proof. unfold at_. f_equal. f_equal. unfold u32, PIPESIZE. dlia. Qed.

Lemma pipe_full_queue p : pipe_ok p → pipe_full p = bool_decide (length (queue p) = Z.to_nat PIPESIZE).
Proof.
  intros [_ Hr Hw Hf]. rewrite length_queue. unfold pipe_full, fill_, is_u32, u32, PIPESIZE in *.
  case_bool_decide as E; [apply Z.eqb_eq|apply Z.eqb_neq]; dlia.
Qed.

Lemma pipe_empty_queue p : pipe_ok p → pipe_empty p = bool_decide (queue p = []).
Proof.
  intros [_ Hr Hw Hf]. assert (E : queue p = [] ↔ fill_ p = 0%nat).
  { rewrite <- length_queue. split; [by intros ->|apply nil_length_inv]. }
  rewrite (bool_decide_ext _ _ E). unfold pipe_empty, fill_, is_u32, u32, PIPESIZE in *.
  case_bool_decide as F; [apply Z.eqb_eq|apply Z.eqb_neq]; dlia.
Qed.

Lemma pipe_push_queue c p :
  pipe_ok p → pipe_full p = false → pipe_ok (pipe_push c p) ∧ queue (pipe_push c p) = queue p ++ [c].
Proof.
  intros Hok Hnf. destruct Hok as [Hd Hr Hw Hf]. unfold pipe_full in Hnf. apply Z.eqb_neq in Hnf.
  assert (Hlt : u32 (p_nwrite p - p_nread p) < PIPESIZE) by (unfold is_u32, u32, PIPESIZE in *; dlia).
  assert (EF : fill_ (pipe_push c p) = S (fill_ p)).
  { unfold fill_, pipe_push, is_u32, u32, PIPESIZE in *. cbn. dlia. }
  split.
  { split; cbn; [by rewrite length_insert|done|unfold is_u32, u32; dlia|].
    unfold is_u32, u32, PIPESIZE in *. dlia. }
  unfold queue. rewrite EF, seq_S, fmap_app. cbn [fmap list_fmap p_nread pipe_push]. f_equal.
  - apply list_fmap_ext. intros i k Hk. apply lookup_seq in Hk as [-> Hk]. unfold at_. cbn [p_data pipe_push].
    rewrite !nth_lookup, list_lookup_insert_ne; [done|].
    unfold fill_, is_u32, u32, PIPESIZE in *. dlia.
  - f_equal. unfold at_. cbn [p_data pipe_push]. rewrite nth_lookup.
    replace (Z.to_nat ((p_nread p + Z.of_nat (0 + fill_ p)) mod PIPESIZE)) with (Z.to_nat (p_nwrite p mod PIPESIZE)).
    { rewrite list_lookup_insert_eq; [done|]. unfold PIPESIZE in *. dlia. }
    f_equal. unfold fill_, is_u32, u32, PIPESIZE in *. dlia.
Qed.

Lemma pipe_pop_queue p :
  pipe_ok p → pipe_empty p = false →
  pipe_ok (pipe_pop p).2 ∧ queue p = (pipe_pop p).1 :: queue (pipe_pop p).2.
Proof.
  intros [Hd Hr Hw Hf] Hne. unfold pipe_empty in Hne. apply Z.eqb_neq in Hne.
  assert (EF : fill_ p = S (fill_ (pipe_pop p).2)).
  { unfold fill_, pipe_pop, is_u32, u32, PIPESIZE in *. cbn. dlia. }
  split.
  { split; cbn; [done|unfold is_u32, u32; dlia|done|]. unfold is_u32, u32, PIPESIZE in *. dlia. }
  unfold queue at 1. rewrite EF. cbn [seq fmap list_fmap]. f_equal.
  { unfold at_. by rewrite Z.add_0_r. }
  unfold queue. rewrite <- fmap_S_seq, <- list_fmap_compose. apply list_fmap_ext. intros i k _. cbn.
  change (at_ p (p_nread p + Z.of_nat (S k)) = at_ p (u32 (p_nread p + 1) + Z.of_nat k)).
  rewrite <- (at_u32 p (u32 _ + _)), <- (at_u32 p (_ + Z.of_nat (S k))). f_equal. unfold u32. dlia.
Qed.

(** The ends that are open. *)
Definition same_ends (p p' : pipe) : Prop := p_readopen p' = p_readopen p ∧ p_writeopen p' = p_writeopen p.

Lemma pipewrite_loop_queue killed n src p r p' w :
  pipe_ok p → pipewrite_loop killed n src p = (r, p', w) →
  ∃ acc rest, src = acc ++ rest ∧ pipe_ok p' ∧ queue p' = queue p ++ acc ∧ same_ends p p' ∧
    u32 (p_nwrite p' - p_nwrite p) = u32 (Z.of_nat (length acc)) ∧
    match r with
    | WReturn v => (v = n ∧ rest = [] ∧ w = Some CRead) ∨
        (v = -1 ∧ rest ≠ [] ∧ pipe_full p' = true ∧ (p_readopen p = false ∨ killed = true) ∧ w = None)
    | WSleep rest' => rest' = rest ∧ rest ≠ [] ∧ pipe_full p' = true ∧ p_readopen p = true ∧ killed = false ∧ w = Some CRead
    end.
Proof.
  revert p. induction src as [|c src IH]; intros p Hok; cbn [pipewrite_loop].
  - intros [= <- <- <-]. exists [], []. rewrite !app_nil_r, Z.sub_diag. split_and!; try done. by left.
  - destruct (pipe_full p) eqn:Hfull.
    + intros E. exists [], (c :: src).
      destruct (negb (p_readopen p) || killed) eqn:Hc; inversion E; subst; rewrite Z.sub_diag, app_nil_r;
        split_and!; try done.
      * right. split_and!; try done. destruct killed; [by right|left]. by destruct (p_readopen p').
      * by destruct (p_readopen p'), killed.
      * by destruct (p_readopen p'), killed.
    + intros E. destruct (pipe_push_queue c p Hok Hfull) as [Hok' Hq].
      destruct (IH _ Hok' E) as (acc & rest & -> & Hok2 & Hq2 & Hs & Hn & Hr).
      exists (c :: acc), rest. rewrite Hq2, Hq, <- app_assoc. split_and!; try done.
      cbn [p_nwrite pipe_push] in Hn. cbn [length]. unfold u32 in *. dlia.
Qed.

Lemma piperead_copy_queue n p r p' :
  pipe_ok p → piperead_copy n p = (r, p') →
  pipe_ok p' ∧ queue p = r ++ queue p' ∧ same_ends p p' ∧ length r = Nat.min n (length (queue p)).
Proof.
  revert p r. induction n as [|n IH]; intros p r Hok; cbn [piperead_copy]; [by intros [= <- <-]|].
  destruct (pipe_empty p) eqn:He.
  - intros [= <- <-]. rewrite pipe_empty_queue in He by done. apply bool_decide_eq_true in He. by rewrite He.
  - destruct (pipe_pop_queue p Hok He) as [Hok' Hq]. destruct (pipe_pop p) as [c p1] eqn:Ep.
    destruct (piperead_copy n p1) as [r1 p2] eqn:E2. intros [= <- <-]. cbn [fst snd] in *.
    destruct (IH _ _ Hok' E2) as (Hok2 & Hq2 & Hs & Hl). split_and!; [done|by rewrite Hq, Hq2| |].
    + destruct Hs. unfold pipe_pop in Ep. inversion Ep; subst. done.
    + rewrite Hq. cbn [length]. by rewrite Hl.
Qed.

(** ** Readers and writers

    A thread is inside [pipewrite] or [piperead], asleep or about to run; [m_in]
    and [m_out] are the bytes accepted from writers and given to readers so
    far. *)

Inductive pthread :=
  | PIdle
  | PWriting (n : Z) (src : list Z) (asleep : bool)
  | PReading (n : Z) (asleep : bool).

Record pmach := mkPmach { m_pipe : pipe; m_threads : list pthread; m_in : list Z; m_out : list Z }.

(** [wakeup]: those that sleep on the channel run again. *)
Definition wake (c : pchan) (t : pthread) : pthread :=
  match c, t with
  | CWrite, PWriting n src _ => PWriting n src false
  | CRead, PReading n _ => PReading n false
  | _, _ => t
  end.
Definition wake_all (o : option pchan) (l : list pthread) : list pthread :=
  match o with Some c => wake c <$> l | None => l end.

Definition is_writing (t : pthread) : bool := match t with PWriting _ _ _ => true | _ => false end.
Definition is_reading (t : pthread) : bool := match t with PReading _ _ => true | _ => false end.

(** The bytes a run of [pipewrite_loop] accepted. *)
Definition accepted (p p' : pipe) (src : list Z) : list Z :=
  take (Z.to_nat (u32 (p_nwrite p' - p_nwrite p))) src.

(** A step; [killed] says that the process that runs has been killed.  An end
    is closed when no thread is inside a call on it, since each holds a
    reference to the file. *)
Inductive pstep (killed : bool) : pmach → pmach → Prop :=
  | ps_write p l a b i src :
      l !! i = Some PIdle → p_writeopen p = true → Z.of_nat (length src) < 2147483648 →
      pstep killed (mkPmach p l a b) (mkPmach p (<[i:=PWriting (Z.of_nat (length src)) src false]> l) a b)
  | ps_read p l a b i n :
      l !! i = Some PIdle → p_readopen p = true → 0 ≤ n < 2147483648 →
      pstep killed (mkPmach p l a b) (mkPmach p (<[i:=PReading n false]> l) a b)
  | ps_write_run p l a b i n src r p' w :
      l !! i = Some (PWriting n src false) → pipewrite_loop killed n src p = (r, p', w) →
      pstep killed (mkPmach p l a b)
        (mkPmach p' (<[i:=match r with WReturn _ => PIdle | WSleep rest => PWriting n rest true end]> (wake_all w l))
           (a ++ accepted p p' src) b)
  | ps_read_run p l a b i n r p' w :
      l !! i = Some (PReading n false) → piperead killed n p = (r, p', w) →
      pstep killed (mkPmach p l a b)
        (mkPmach p' (<[i:=match r with RReturn _ _ => PIdle | RSleep => PReading n true end]> (wake_all w l))
           a (b ++ match r with RReturn _ dst => dst | RSleep => [] end))
  | ps_close p l a b (writable : bool) p' w f :
      (∀ i t, l !! i = Some t → (if writable then is_writing t else is_reading t) = false) →
      pipeclose writable p = (p', w, f) →
      pstep killed (mkPmach p l a b) (mkPmach p' (wake w <$> l) a b).

(** The states reached from a fresh pipe; with [kills], threads may be killed. *)
Inductive preach (kills : bool) (k : nat) (data : list Z) : pmach → Prop :=
  | preach_init : preach kills k data (mkPmach (pipe_init data) (replicate k PIdle) [] [])
  | preach_step m m' killed : preach kills k data m → (killed = true → kills = true) → pstep killed m m' → preach kills k data m'.

Record pinv (m : pmach) : Prop := {
  pv_ok : pipe_ok (m_pipe m);
  pv_fifo : m_in m = m_out m ++ queue (m_pipe m);
  pv_src : ∀ i n src b, m_threads m !! i = Some (PWriting n src b) → Z.of_nat (length src) < 2147483648
}.

Lemma lookup_wake_all w l i t : wake_all w l !! i = Some t → ∃ t0, l !! i = Some t0 ∧ (t = t0 ∨ ∃ c, w = Some c ∧ t = wake c t0).
Proof.
  destruct w as [c|]; cbn [wake_all]; [|intros; exists t; auto]. rewrite list_lookup_fmap.
  destruct (l !! i) as [t0|] eqn:E; cbn; intros [= <-]. exists t0. split; [done|right; eauto].
Qed.

Lemma wake_writing c t n src b : wake c t = PWriting n src b → ∃ b', t = PWriting n src b'.
Proof. destruct c, t; cbn; intros [=]; subst; eauto. Qed.

Lemma accepted_acc p p' acc rest :
  Z.of_nat (length (acc ++ rest)) < 2147483648 → u32 (p_nwrite p' - p_nwrite p) = u32 (Z.of_nat (length acc)) →
  accepted p p' (acc ++ rest) = acc.
Proof.
  intros Hl E. unfold accepted. rewrite E. rewrite length_app in Hl. rewrite u32_small by (unfold is_u32; lia).
  rewrite Nat2Z.id. apply take_app_length.
Qed.

(** What holds of the slot that ran, and of the others. *)
Lemma lookup_step (l : list pthread) i t0 w j t :
  <[i:=t0]> (wake_all w l) !! j = Some t →
  (j = i ∧ t = t0) ∨ (j ≠ i ∧ ∃ t1, l !! j = Some t1 ∧ (t = t1 ∨ ∃ c, w = Some c ∧ t = wake c t1)).
Proof.
  destruct (decide (j = i)) as [->|Hne].
  - intros E. left. split; [done|]. apply list_lookup_insert_Some in E as [(_&->&_)|(?&_)]; done.
  - rewrite list_lookup_insert_ne by done. intros E%lookup_wake_all. by right.
Qed.

Lemma src_step l i t0 w j n src b :
  (∀ i n src b, l !! i = Some (PWriting n src b) → Z.of_nat (length src) < 2147483648) →
  (∀ n src b, t0 = PWriting n src b → Z.of_nat (length src) < 2147483648) →
  <[i:=t0]> (wake_all w l) !! j = Some (PWriting n src b) → Z.of_nat (length src) < 2147483648.
Proof.
  intros Hl H0 [[-> E]|(Hne & t1 & Hj & [E|(c & -> & E)])]%lookup_step; [by eapply H0| |].
  - subst. by eapply Hl.
  - symmetry in E. apply wake_writing in E as [b' ->]. by eapply Hl.
Qed.

Lemma piperead_queue killed n p r p' w :
  pipe_ok p → piperead killed n p = (r, p', w) →
  pipe_ok p' ∧ same_ends p p' ∧
  match r with
  | RSleep => p' = p ∧ queue p = [] ∧ p_writeopen p = true ∧ killed = false ∧ w = None
  | RReturn v dst =>
      queue p = dst ++ queue p' ∧
      ((v = -1 ∧ dst = [] ∧ p' = p ∧ killed = true ∧ w = None) ∨
       (v = Z.of_nat (length dst) ∧ length dst = Nat.min (Z.to_nat n) (length (queue p)) ∧ w = Some CWrite ∧
        (queue p ≠ [] ∨ p_writeopen p = false)))
  end.
Proof.
  intros Hok. unfold piperead. rewrite pipe_empty_queue by done.
  destruct (bool_decide (queue p = []) && p_writeopen p) eqn:E.
  - apply andb_true_iff in E as [Eq%bool_decide_eq_true Ew].
    destruct killed; intros [= <- <- <-]; split_and!; try done. by left.
  - destruct (piperead_copy (Z.to_nat n) p) as [dst p1] eqn:Ec. intros [= <- <- <-].
    destruct (piperead_copy_queue _ _ _ _ Hok Ec) as (Hok' & Hq & Hs & Hl). split_and!; try done.
    right. split_and!; try done. apply andb_false_iff in E as [Eq%bool_decide_eq_false|Ew]; [by left|by right].
Qed.

Lemma pinv_init data k : length data = Z.to_nat PIPESIZE → pinv (mkPmach (pipe_init data) (replicate k PIdle) [] []).
Proof.
  intros Hd. split; cbn.
  - split; cbn; unfold is_u32, PIPESIZE, u32; [done|lia|lia|]. by rewrite Z.sub_diag, Z.mod_0_l.
  - done.
  - intros i n src b [E _]%lookup_replicate. done.
Qed.

Lemma pinv_step killed m m' : pinv m → pstep killed m m' → pinv m'.
Proof.
  intros [Hok Hf Hsrc] Hs. destruct Hs; cbn in *; split; cbn; try done.
  - intros j n s b'. apply (src_step l i _ None); [done|]. by intros ??? [= <- <- <-].
  - intros j n' s b'. apply (src_step l i _ None); [done|]. intros ??? [=].
  - by destruct (pipewrite_loop_queue _ _ _ _ _ _ _ Hok H0) as (?&?&?&?&?).
  - destruct (pipewrite_loop_queue _ _ _ _ _ _ _ Hok H0) as (acc&rest&->&_&Hq&_&Hn&_).
    rewrite accepted_acc by (try done; by eapply Hsrc). by rewrite Hq, Hf, app_assoc.
  - intros j n' s b'. apply src_step; [done|]. intros n1 s1 b1 Er.
    destruct (pipewrite_loop_queue _ _ _ _ _ _ _ Hok H0) as (acc&rest&->&_&_&_&_&Hr).
    destruct r; [done|]. destruct Hr as (->&_). inversion Er; subst.
    apply Hsrc in H. rewrite length_app in H. lia.
  - by destruct (piperead_queue _ _ _ _ _ _ Hok H0) as (?&?&?).
  - destruct (piperead_queue _ _ _ _ _ _ Hok H0) as (_&_&Hr). destruct r as [v dst|].
    + destruct Hr as [Hq _]. by rewrite Hf, Hq, app_assoc.
    + destruct Hr as (->&_). by rewrite app_nil_r.
  - intros j n' s b'. apply src_step; [done|]. destruct r; intros ??? [=].
  - destruct Hok. unfold pipeclose in H0. destruct writable; inversion H0; subst; by split.
  - unfold pipeclose in H0. destruct writable; inversion H0; subst; done.
  - intros j n s b'. intros Ej. apply (lookup_wake_all (Some w)) in Ej as (t1 & Hj & [<-|(c & _ & E)]).
    + by eapply Hsrc.
    + symmetry in E. apply wake_writing in E as [b'' ->]. by eapply Hsrc.
Qed.

Lemma preach_pinv kills k data m : length data = Z.to_nat PIPESIZE → preach kills k data m → pinv m.
Proof. intros Hd. induction 1; [by apply pinv_init|by eapply pinv_step]. Qed.

(** C9. A pipe is a first-in first-out queue.  Whatever readers and writers
    run on it, in whatever order their pieces interleave and whichever of them
    are killed or close their end: the bytes accepted from the writers are, in
    order, the bytes given to the readers followed by the bytes in the buffer,
    which are at most [PIPESIZE]. *)
Theorem pipe_fifo kills k data m :
  length data = Z.to_nat PIPESIZE → preach kills k data m →
  m_in m = m_out m ++ queue (m_pipe m) ∧ Z.of_nat (length (queue (m_pipe m))) ≤ PIPESIZE.
Proof.
  intros Hd Hr. destruct (preach_pinv _ _ _ _ Hd Hr) as [[_ _ _ Hf] Hq _]. split; [done|].
  rewrite length_queue. unfold fill_. pose proof (u32_range (p_nwrite (m_pipe m) - p_nread (m_pipe m))). unfold is_u32 in *. lia.
Qed.

(** ** Wake-ups *)

(** What a thread relies on while it is inside its call. *)
Definition thread_ok (p : pipe) (t : pthread) : Prop :=
  match t with
  | PIdle => True
  | PWriting _ _ asleep => p_writeopen p = true ∧ (asleep = true → pipe_full p = true ∧ p_readopen p = true)
  | PReading _ asleep => p_readopen p = true ∧ (asleep = true → queue p = [] ∧ p_writeopen p = true)
  end.
Definition winv (m : pmach) : Prop := ∀ i t, m_threads m !! i = Some t → thread_ok (m_pipe m) t.

Lemma winv_insert l p p' i t0 w :
  (∀ t, t ∈ l → thread_ok p t → thread_ok p' (if w is Some c then wake c t else t)) → thread_ok p' t0 →
  (∀ j t, l !! j = Some t → thread_ok p t) →
  ∀ j t, <[i:=t0]> (wake_all w l) !! j = Some t → thread_ok p' t.
Proof.
  intros Hw H0 Hl j t Hj. destruct (decide (j = i)) as [->|Hne].
  { by apply list_lookup_insert_Some in Hj as [(_&->&_)|(?&_)]. }
  rewrite list_lookup_insert_ne in Hj by done. destruct w as [c|]; cbn [wake_all] in Hj.
  - rewrite list_lookup_fmap in Hj. destruct (l !! j) as [t1|] eqn:E; cbn in Hj; inversion Hj; subst.
    apply (Hw t1); [by eapply list_elem_of_lookup_2|eauto].
  - apply (Hw t); [by eapply list_elem_of_lookup_2|eauto].
Qed.

Lemma full_not_empty p : pipe_ok p → pipe_full p = true → queue p ≠ [].
Proof. intros Hok Hf E. rewrite pipe_full_queue, E in Hf by done. done. Qed.

Lemma winv_write_run p l n src r p' w i :
  pipe_ok p → (∀ j t, l !! j = Some t → thread_ok p t) → l !! i = Some (PWriting n src false) →
  pipewrite_loop false n src p = (r, p', w) →
  ∀ j t, <[i:=match r with WReturn _ => PIdle | WSleep rest => PWriting n rest true end]> (wake_all w l) !! j = Some t →
    thread_ok p' t.
Proof.
  intros Hok Hl Hi E. destruct (pipewrite_loop_queue _ _ _ _ _ _ _ Hok E) as (acc&rest&->&Hok'&Hq&[Hr Hw]&_&Hres).
  assert (Hopen : p_writeopen p = true) by (by apply Hl in Hi as [??]).
  assert (Hfull : pipe_full p = true → pipe_full p' = true).
  { rewrite !pipe_full_queue by done. rewrite !bool_decide_eq_true, Hq, length_app. intros Hf.
    assert (length (queue p') ≤ Z.to_nat PIPESIZE)%nat.
    { rewrite length_queue. unfold fill_. destruct Hok'. lia. }
    rewrite Hq, length_app in *. lia. }
  apply (winv_insert l p); [|destruct r; [done|]|done].
  2: { cbn. destruct Hres as (_&_&?&?&_). rewrite Hw, Hr. auto. }
  intros t Ht. destruct w as [c|].
  - assert (c = CRead) as -> by (destruct r; [destruct Hres as [(_&_&[= ->])|(_&_&_&_&?)]|destruct Hres as (_&_&_&_&_&[= ->])]; done).
    destruct t; cbn; rewrite ?Hr, ?Hw; naive_solver.
  - destruct r; [|naive_solver]. destruct Hres as [(?&?&?)|(_&_&_&[Hro|?]&_)]; [done| |done].
    destruct t; cbn; rewrite ?Hr, ?Hw, ?Hro; naive_solver.
Qed.

Lemma winv_read_run p l n r p' w i :
  pipe_ok p → (∀ j t, l !! j = Some t → thread_ok p t) → l !! i = Some (PReading n false) →
  piperead false n p = (r, p', w) →
  ∀ j t, <[i:=match r with RReturn _ _ => PIdle | RSleep => PReading n true end]> (wake_all w l) !! j = Some t →
    thread_ok p' t.
Proof.
  intros Hok Hl Hi E. destruct (piperead_queue _ _ _ _ _ _ Hok E) as (Hok'&[Hr Hw]&Hres).
  assert (Hopen : p_readopen p = true) by (by apply Hl in Hi as [??]).
  apply (winv_insert l p); [|destruct r; [done|]|done].
  2: { cbn. destruct Hres as (->&?&?&_). auto. }
  intros t Ht. destruct r as [v dst|].
  - destruct Hres as [Hq [(_&_&_&?&_)|(_&_&->&Hne)]]; [done|].
    destruct t as [|n' src b|n' b]; cbn; rewrite ?Hr, ?Hw; [done|naive_solver|].
    intros [? Hb]. split; [done|]. intros Hs. destruct (Hb Hs) as [Eq Ew]. destruct Hne as [?|?]; congruence.
  - destruct Hres as (->&_&_&_&->). done.
Qed.

Lemma winv_step m m' : pinv m → winv m → pstep false m m' → winv m'.
Proof.
  intros [Hok _ _] Hl Hs. destruct Hs; unfold winv in *; cbn in *.
  - intros j t. apply (winv_insert l p p i _ None); cbn; naive_solver.
  - intros j t. apply (winv_insert l p p i _ None); cbn; naive_solver.
  - by eapply winv_write_run.
  - by eapply winv_read_run.
  - intros j t Hj. rewrite list_lookup_fmap in Hj. destruct (l !! j) as [t1|] eqn:Et; cbn in Hj; inversion Hj; subst.
    specialize (Hl _ _ Et). specialize (H _ _ Et). unfold pipeclose in H0.
    destruct writable; inversion H0; subst; destruct t1; cbn in *; try done; naive_solver.
Qed.

(** C30. No wake-up is lost.  As long as no process is killed inside a pipe
    call, a reader sleeps only on an empty pipe whose write end is open, and a
    writer only on a full pipe whose read end is open; so readers and writers
    never sleep at the same time. *)
Theorem pipe_wakeups k data m :
  length data = Z.to_nat PIPESIZE → preach false k data m →
  (∀ i n, m_threads m !! i = Some (PReading n true) → queue (m_pipe m) = [] ∧ p_writeopen (m_pipe m) = true) ∧
  (∀ i n src, m_threads m !! i = Some (PWriting n src true) →
     length (queue (m_pipe m)) = Z.to_nat PIPESIZE ∧ p_readopen (m_pipe m) = true) ∧
  (∀ i j n n' src, m_threads m !! i = Some (PReading n true) → m_threads m !! j ≠ Some (PWriting n' src true)).
Proof.
  intros Hd Hr. assert (Hw : pinv m ∧ winv m).
  { induction Hr as [|m m' killed Hr [Hp Hw] Hk Hs].
    - split; [by apply pinv_init|]. by intros i t [-> _]%lookup_replicate.
    - split; [by eapply pinv_step|]. destruct killed; [by discriminate Hk|]. by eapply winv_step. }
  destruct Hw as [[Hok _ _] Hw].
  assert (A : ∀ i n, m_threads m !! i = Some (PReading n true) → queue (m_pipe m) = [] ∧ p_writeopen (m_pipe m) = true).
  { intros i n Hi. apply Hw in Hi as [_ Hi]. auto. }
  assert (B : ∀ i n src, m_threads m !! i = Some (PWriting n src true) →
     length (queue (m_pipe m)) = Z.to_nat PIPESIZE ∧ p_readopen (m_pipe m) = true).
  { intros i n src Hi. apply Hw in Hi as [_ Hi]. destruct (Hi eq_refl) as [Hf ?].
    rewrite pipe_full_queue in Hf by done. by apply bool_decide_eq_true in Hf. }
  split_and!; [done|done|]. intros i j n n' src Hi Hj. apply A in Hi as [E _]. apply B in Hj as [E' _].
  by rewrite E in E'.
Qed.

(** ** Two processes on a fresh pipe *)

Definition no_data : list Z := replicate 512 0.
Definition long_src : list Z := replicate 513 1.

(** The first has called [piperead] and sleeps. *)
Definition one_asleep : pmach := mkPmach (pipe_init no_data) [PReading 1 true; PIdle] [] [].
(** Then the second has filled the pipe and been killed. *)
Definition stranded : pmach :=
  mkPmach (pipewrite_loop true 513 long_src (pipe_init no_data)).1.2 [PReading 1 true; PIdle] (replicate 512 1) [].

Lemma one_asleep_reached kills : preach kills 2 no_data one_asleep.
Proof.
  eapply (preach_step _ _ _ (mkPmach (pipe_init no_data) [PReading 1 false; PIdle] [] []) _ false); [|done|].
  - eapply (preach_step _ _ _ _ _ false); [apply preach_init|done|].
    apply (ps_read false _ [PIdle; PIdle] [] [] 0 1); [done|done|lia].
  - apply (ps_read_run false _ [PReading 1 false; PIdle] [] [] 0 1 RSleep _ None); vm_compute; done.
Qed.

Lemma stranded_reached : preach true 2 no_data stranded.
Proof.
  eapply (preach_step _ _ _ (mkPmach (pipe_init no_data) [PReading 1 true; PWriting 513 long_src false] [] []) _ true); [|done|].
  - eapply (preach_step _ _ _ _ _ false); [apply one_asleep_reached|done|].
    apply (ps_write false _ [PReading 1 true; PIdle] [] [] 1 long_src); [done|done|vm_compute; done].
  - pose proof (ps_write_run true (pipe_init no_data) [PReading 1 true; PWriting 513 long_src false] [] [] 1 513 long_src
      (WReturn (-1)) (pipewrite_loop true 513 long_src (pipe_init no_data)).1.2 None eq_refl) as H.
    exact (H ltac:(vm_compute; reflexivity)).
Qed.

(** A killed writer can leave a reader asleep on a full pipe: [pipewrite]
    returns -1 from the full pipe without the wake-up it owes for the bytes it
    has already stored. *)
Theorem killed_writer_strands_reader :
  ∃ m, preach true 2 no_data m ∧ m_threads m = [PReading 1 true; PIdle] ∧
    Z.of_nat (length (queue (m_pipe m))) = PIPESIZE.
Proof. exists stranded. split; [exact stranded_reached|]. split; [reflexivity|vm_compute; reflexivity]. Qed.

Lemma pipe_fifo_witness :
  m_in stranded = m_out stranded ++ queue (m_pipe stranded) ∧ Z.of_nat (length (queue (m_pipe stranded))) ≤ PIPESIZE.
Proof. exact (pipe_fifo true 2 no_data stranded eq_refl stranded_reached). Defined.

Lemma pipe_wakeups_witness :
  queue (m_pipe one_asleep) = [] ∧ p_writeopen (m_pipe one_asleep) = true.
Proof.
  destruct (pipe_wakeups 2 no_data one_asleep eq_refl (one_asleep_reached false)) as [H _].
  exact (H 0%nat 1 eq_refl).
Defined.
