(* ===== verification/Args.v ===== *)
(** * Args: arguments of system calls, [syscall.c]

    What the kernel sees of the process that made the call: its size, the user
    stack pointer of its trap frame, and its memory, one byte per virtual
    address.  A load or store at an address is a load or store of this memory;
    a page that is not present is brought in by the page-fault handler
    underneath. *)

From S2P Require Import Prelude Mmu Bytes.

Record user := mkUser { u_sz : Z; u_esp : Z; u_mem : Z → Z }.

Definition set_umem (m : Z → Z) (u : user) : user := mkUser (u_sz u) (u_esp u) m.

(** [n] bytes at [a], the word at [a], and the bytes [l] stored at [a]. *)
Definition ubytes (u : user) (a : Z) (n : nat) : list Z := (λ k, u8 (u_mem u (a + Z.of_nat k))) <$> seq 0 n.
Definition uword (u : user) (a : Z) : Z := get32 (ubytes u a 4) 0.
Definition ustore (a : Z) (l : list Z) (u : user) : user :=
  set_umem (λ x, if (a <=? x) && (x <? a + Z.of_nat (length l)) then nth (Z.to_nat (x - a)) l 0 else u_mem u x) u.

(** [None] is the return value -1. *)
Definition fetchint (u : user) (addr : Z) : option Z :=
  if (u_sz u <=? addr) || (u_sz u <? u32 (addr + 4)) then None
  else Some (s32 (uword u addr)).

(** The loop of [fetchstr] at [s], with [ep - s] bytes to go. *)
Fixpoint fetchstr_loop (u : user) (s : Z) (left : nat) : option Z :=
  match left with
  | O => None
  | S left' => if u8 (u_mem u s) =? 0 then Some s else fetchstr_loop u (s + 1) left'
  end.

(** The string's bytes; their number is what the code returns. *)
Definition fetchstr (u : user) (addr : Z) : option (list Z) :=
  if u_sz u <=? addr then None
  else e ← fetchstr_loop u addr (Z.to_nat (u_sz u - addr));
       Some (ubytes u addr (Z.to_nat (e - addr))).

Definition argint (u : user) (n : Z) : option Z := fetchint u (u32 (u_esp u + 4 + 4 * n)).

(** The pointer, as an unsigned address. *)
Definition argptr (u : user) (n size : Z) : option Z :=
  i ← argint u n;
  if (size <? 0) || (u_sz u <=? u32 i) || (u_sz u <? u32 (u32 i + size)) then None
  else Some (u32 i).

Definition argstr (u : user) (n : Z) : option (list Z) :=
  addr ← argint u n;
  fetchstr u (u32 addr).

(** ** Nothing outside the process is touched *)

(** The size of a process never exceeds [KERNBASE]. *)
Definition user_ok (u : user) : Prop := 0 ≤ u_sz u ≤ KERNBASE ∧ is_u32 (u_esp u).

Lemma argint_range u n i : argint u n = Some i → -2147483648 ≤ i < 2147483648.
Proof.
  unfold argint, fetchint. destruct (_ || _); intros [= <-].
  unfold s32. pose proof (Z.mod_pos_bound (uword u (u32 (u_esp u + 4 + 4 * n)) + 2147483648) 4294967296). lia.
Qed.

Lemma fetchstr_loop_spec u left : ∀ s,
  match fetchstr_loop u s left with
  | Some e => s ≤ e < s + Z.of_nat left ∧ u8 (u_mem u e) = 0 ∧ ∀ x, s ≤ x < e → u8 (u_mem u x) ≠ 0
  | None => ∀ x, s ≤ x < s + Z.of_nat left → u8 (u_mem u x) ≠ 0
  end.
Proof.
  induction left as [|left IH]; intros s; cbn [fetchstr_loop]; [lia|].
  destruct (Z.eqb_spec (u8 (u_mem u s)) 0) as [E|E].
  { split_and!; [lia|lia|done|lia]. }
  specialize (IH (s + 1)). destruct (fetchstr_loop u (s + 1) left) as [e|].
  - destruct IH as (He & H0 & Hx). split_and!; [lia|lia|done|].
    intros x Hx'. destruct (decide (x = s)) as [->|]; [done|apply Hx; lia].
  - intros x Hx. destruct (decide (x = s)) as [->|]; [done|apply IH; lia].
Qed.

(** C31. The block of memory that [argptr] accepts lies inside the process,
    whatever pointer and size the process passes: the sum that is compared with
    the size of the process cannot wrap around.  Each pointer inside with a size that fits
    is accepted. *)
Theorem argptr_in_process u n size :
  user_ok u → size < 2147483648 →
  match argptr u n size with
  | Some p => 0 ≤ size ∧ 0 ≤ p < u_sz u ∧ p + size ≤ u_sz u
  | None => ∀ i, argint u n = Some i → 0 ≤ size → ¬ (u32 i < u_sz u ∧ u32 i + size ≤ u_sz u)
  end.
Proof.
  intros [Hsz _] Hs. unfold argptr, KERNBASE in *. destruct (argint u n) as [i|] eqn:Ei; cbn; [|done].
  pose proof (u32_range i). unfold is_u32 in *.
  destruct ((size <? 0) || (u_sz u <=? u32 i) || (u_sz u <? u32 (u32 i + size))) eqn:E.
  - intros i' [= <-] Hs0. rewrite !orb_true_iff in E. destruct E as [[E|E]|E]; [lia|lia|].
    intros [H1 H2]. rewrite u32_small in E by (unfold is_u32; lia). lia.
  - rewrite !orb_false_iff in E. destruct E as [[E1 E2] E3].
    rewrite u32_small in E3 by (unfold is_u32; lia). lia.
Qed.

(** [argstr] accepts exactly the pointers into the process to a string
    that ends inside it: the result is the string's bytes, none of them 0, with
    the 0 behind them still inside; it refuses a pointer outside, and one behind
    which no 0 follows in the process. *)
Theorem argstr_in_process u n :
  user_ok u →
  match argint u n with
  | None => argstr u n = None
  | Some i =>
      let p := u32 i in
      match argstr u n with
      | Some s => p + Z.of_nat (length s) < u_sz u ∧ s = ubytes u p (length s) ∧
          u8 (u_mem u (p + Z.of_nat (length s))) = 0 ∧ Forall (λ c, c ≠ 0) s
      | None => ∀ x, p ≤ x < u_sz u → u8 (u_mem u x) ≠ 0
      end
  end.
Proof.
  intros [Hsz _]. unfold argstr. destruct (argint u n) as [i|] eqn:Ei; cbn; [|done].
  unfold fetchstr. set (p := u32 i). destruct (Z.leb_spec (u_sz u) p) as [Hp|Hp]; [intros x Hx; lia|].
  pose proof (fetchstr_loop_spec u (Z.to_nat (u_sz u - p)) p) as H.
  destruct (fetchstr_loop u p (Z.to_nat (u_sz u - p))) as [e|]; cbn.
  - destruct H as (He & H0 & Hx).
    assert (El : length (ubytes u p (Z.to_nat (e - p))) = Z.to_nat (e - p)) by (unfold ubytes; by rewrite length_fmap, length_seq).
    rewrite El. split_and!; [lia|done|by replace (p + Z.of_nat (Z.to_nat (e - p))) with e by lia|].
    apply Forall_forall. intros c Hc. unfold ubytes in Hc. apply list_elem_of_fmap in Hc as (k & -> & Hk).
    apply elem_of_seq in Hk. apply Hx. lia.
  - intros x Hx. apply H. lia.
Qed.

(** [mkdir("a")] with its argument block at 100 and the string at 200. *)
Definition user_demo : user := ustore 200 [97; 0] (ustore 104 (enc32 200) (mkUser 4096 100 (λ _, 7))).

Lemma user_demo_ok : user_ok user_demo.
Proof. unfold user_ok, is_u32, KERNBASE. cbn. lia. Qed.

Lemma argptr_in_process_witness :
  argptr user_demo 0 3000 = Some 200 ∧ (0 ≤ 3000 ∧ 0 ≤ 200 < u_sz user_demo ∧ 200 + 3000 ≤ u_sz user_demo).
Proof.
  assert (E : argptr user_demo 0 3000 = Some 200) by (vm_compute; reflexivity). split; [exact E|].
  pose proof (argptr_in_process user_demo 0 3000 user_demo_ok ltac:(lia)) as H. rewrite E in H. exact H.
Defined.

Lemma argstr_in_process_witness :
  argstr user_demo 0 = Some [97] ∧ (u32 200 + 1 < u_sz user_demo ∧ u8 (u_mem user_demo (u32 200 + 1)) = 0).
Proof.
  assert (E : argstr user_demo 0 = Some [97]) by (vm_compute; reflexivity).
  assert (Ei : argint user_demo 0 = Some 200) by (vm_compute; reflexivity).
  split; [exact E|]. pose proof (argstr_in_process user_demo 0 user_demo_ok) as H. rewrite Ei in H. cbn zeta in H.
  rewrite E in H. destruct H as (H1 & _ & H2 & _). split; [exact H1|exact H2].
Defined.
