(* ===== verification/File.v ===== *)
(** * File: open files, [file.c], and the allocation of pipes, [pipe.c]

    The state of the file layer: the file system, the physical memory from
    which pipes take their pages, the table of open files, the pipes by the
    address of their page, and what the system calls need of the running
    process. *)

From stdpp Require Import gmap.
From S2P Require Import Prelude Mmu Phys Config Kalloc Bio Log Fs Pipe Args.

Definition NFILE := 100%nat.

Inductive ftype := FD_NONE | FD_PIPE | FD_INODE.
#[global] Instance ftype_eq_dec : EqDecision ftype.
Proof. solve_decision. Defined.

(** [f_ip] is an index of the inode cache, [f_pipe] the address of a page. *)
Record file := mkFile {
  f_type : ftype;
  f_ref : Z;
  f_readable : bool;
  f_writable : bool;
  f_pipe : Z;
  f_ip : nat;
  f_off : Z
}.

(** [fwoken] are the wake-ups on channels of pipes, in the order they were
    made. *)
Record fil := mkFil {
  ffs : fsst;
  fphys : phys;
  ftable : list file;              (* NFILE *)
  fpipes : gmap Z pipe;
  fwoken : list (Z * pchan);
  fuser : user;
  fofile : list (option nat);      (* NOFILE, of the running process *)
  fkilled : bool
}.

Definition set_ffs (x : fsst) (s : fil) : fil :=
  mkFil x (fphys s) (ftable s) (fpipes s) (fwoken s) (fuser s) (fofile s) (fkilled s).
Definition set_fphys (x : phys) (s : fil) : fil :=
  mkFil (ffs s) x (ftable s) (fpipes s) (fwoken s) (fuser s) (fofile s) (fkilled s).
Definition set_ftable (x : list file) (s : fil) : fil :=
  mkFil (ffs s) (fphys s) x (fpipes s) (fwoken s) (fuser s) (fofile s) (fkilled s).
Definition set_fpipes (x : gmap Z pipe) (s : fil) : fil :=
  mkFil (ffs s) (fphys s) (ftable s) x (fwoken s) (fuser s) (fofile s) (fkilled s).
Definition add_woken (w : Z * pchan) (s : fil) : fil :=
  mkFil (ffs s) (fphys s) (ftable s) (fpipes s) (fwoken s ++ [w]) (fuser s) (fofile s) (fkilled s).
Definition set_fuser (x : user) (s : fil) : fil :=
  mkFil (ffs s) (fphys s) (ftable s) (fpipes s) (fwoken s) x (fofile s) (fkilled s).
Definition set_fofile (x : list (option nat)) (s : fil) : fil :=
  mkFil (ffs s) (fphys s) (ftable s) (fpipes s) (fwoken s) (fuser s) x (fkilled s).

Definition on_fsst {A} (c : M fsst A) : M fil A := λ s,
  match c (ffs s) with Ok a x => Ok a (set_ffs x s) | Err e => Err e end.
Definition on_log {A} (c : M lst A) : M fil A := on_fsst (on_tx c).
Definition on_fphys {A} (c : M phys A) : M fil A := λ s,
  match c (fphys s) with Ok a x => Ok a (set_fphys x s) | Err e => Err e end.

Definition set_fref (r : Z) (f : file) : file :=
  mkFile (f_type f) r (f_readable f) (f_writable f) (f_pipe f) (f_ip f) (f_off f).
Definition set_ftype (t : ftype) (f : file) : file :=
  mkFile t (f_ref f) (f_readable f) (f_writable f) (f_pipe f) (f_ip f) (f_off f).
Definition set_foff (o : Z) (f : file) : file :=
  mkFile (f_type f) (f_ref f) (f_readable f) (f_writable f) (f_pipe f) (f_ip f) o.

Definition fget (f : nat) : M fil file := λ s,
  match ftable s !! f with Some x => Ok x s | None => Err (UB "no such file") end.
Definition fmodify (f : nat) (g : file → file) : M fil unit := λ s,
  match ftable s !! f with
  | Some _ => Ok tt (set_ftable (alter g f (ftable s)) s)
  | None => Err (UB "no such file")
  end.
Definition pget (p : Z) : M fil pipe := λ s,
  match fpipes s !! p with Some x => Ok x s | None => Err (UB "no such pipe") end.
Definition pset (p : Z) (x : pipe) : M fil unit := modify (λ s, set_fpipes (<[p:=x]> (fpipes s)) s).

(** [wakeup(&p->nread)] or [wakeup(&p->nwrite)]. *)
Definition pwakeup (p : Z) (w : option pchan) : M fil unit :=
  match w with Some c => modify (add_woken (p, c)) | None => mret tt end.

(** ** Open files *)

Definition filealloc : M fil (option nat) :=
  l ← gets ftable;
  match list_find (λ f, f_ref f = 0) l with
  | Some (f, _) => fmodify f (set_fref 1) ;; mret (Some f)
  | None => mret None
  end.

Definition filedup (f : nat) : M fil nat :=
  x ← fget f;
  if f_ref x <? 1 then panic "filedup"
  else fmodify f (set_fref (f_ref x + 1)) ;; mret f.

Section files.
Context `{Config}.

(** [pipeclose] with the page given back when both ends are closed. *)
Definition file_pipeclose (p : Z) (writable : bool) : M fil unit :=
  x ← pget p;
  let '(x', w, free) := pipeclose writable x in
  pset p x' ;;
  pwakeup p (Some w) ;;
  when free (
    on_fphys (kfree p) ;;
    modify (λ s, set_fpipes (delete p (fpipes s)) s)).

Definition fileclose (f : nat) : M fil unit :=
  x ← fget f;
  if f_ref x <? 1 then panic "fileclose"
  else
    fmodify f (set_fref (f_ref x - 1)) ;;
    when (negb (0 <? f_ref x - 1)) (
      ff ← fget f;
      fmodify f (λ x, set_ftype FD_NONE (set_fref 0 x)) ;;
      match f_type ff with
      | FD_PIPE => file_pipeclose (f_pipe ff) (f_writable ff)
      | FD_INODE =>
          on_log begin_op ;;
          on_fsst (iput (f_ip ff)) ;;
          on_log end_op
      | FD_NONE => mret tt
      end).

(** [None] is the return value -1. *)
Definition filestat (f : nat) : M fil (option stat) :=
  x ← fget f;
  match f_type x with
  | FD_INODE =>
      on_fsst (ilock (f_ip x)) ;;
      st ← on_fsst (stati (f_ip x));
      on_fsst (iunlock (f_ip x)) ;;
      mret (Some st)
  | _ => mret None
  end.

(** [pipealloc]: the read end and the write end. *)
Definition pipealloc : M fil (option (nat * nat)) :=
  f0 ← filealloc;
  match f0 with
  | None => mret None
  | Some f0 =>
      f1 ← filealloc;
      match f1 with
      | None => fileclose f0 ;; mret None
      | Some f1 =>
          p ← on_fphys kalloc;
          if p =? 0 then fileclose f0 ;; fileclose f1 ;; mret None
          else
            m ← gets (λ s, mem (fphys s));
            pset p (pipe_init (ld_bytes m (V2P p + 52) (Z.to_nat PIPESIZE))) ;;
            fmodify f0 (λ x, mkFile FD_PIPE (f_ref x) true false p (f_ip x) (f_off x)) ;;
            fmodify f1 (λ x, mkFile FD_PIPE (f_ref x) false true p (f_ip x) (f_off x)) ;;
            mret (Some (f0, f1))
      end
  end.

End files.

Section devices.
Context `{!Devsw}.

(** The returned value and the bytes stored at [addr]. *)
Definition fileread (f : nat) (n : Z) : M fil (Z * list Z) :=
  x ← fget f;
  if negb (f_readable x) then mret (-1, [])
  else
    match f_type x with
    | FD_PIPE =>
        p ← pget (f_pipe x);
        k ← gets fkilled;
        let '(r, p', w) := piperead k n p in
        match r with
        | RSleep => fail (Blocked "piperead")
        | RReturn v dst => pset (f_pipe x) p' ;; pwakeup (f_pipe x) w ;; mret (v, dst)
        end
    | FD_INODE =>
        on_fsst (ilock (f_ip x)) ;;
        '(r, dst) ← on_fsst (readi (f_ip x) (f_off x) (u32 n));
        when (0 <? r) (fmodify f (λ x, set_foff (u32 (f_off x + r)) x)) ;;
        on_fsst (iunlock (f_ip x)) ;;
        mret (r, dst)
    | FD_NONE => panic "fileread"
    end.

(** The largest piece that one transaction can hold. *)
Definition WMAX := (MAXOPBLOCKS - 1 - 1 - 2) / 2 * 512.

(** The loop of [filewrite]: the bytes that are left when it stops. *)
Fixpoint filewrite_loop (fuel : nat) (f : nat) (src : list Z) : M fil (list Z) :=
  match src with
  | [] => mret []
  | _ =>
      match fuel with
      | O => fail NoFuel
      | S fuel' =>
          let n1 := Z.min (Z.of_nat (length src)) WMAX in
          x ← fget f;
          on_log begin_op ;;
          on_fsst (ilock (f_ip x)) ;;
          r ← on_fsst (writei (f_ip x) (take (Z.to_nat n1) src) (f_off x));
          when (0 <? r) (fmodify f (λ x, set_foff (u32 (f_off x + r)) x)) ;;
          on_fsst (iunlock (f_ip x)) ;;
          on_log end_op ;;
          if r <? 0 then mret src
          else if negb (r =? n1) then panic "short filewrite"
          else filewrite_loop fuel' f (drop (Z.to_nat r) src)
      end
  end.

(** The bytes at [addr] are the list [src]. *)
Definition filewrite (f : nat) (src : list Z) : M fil Z :=
  let n := Z.of_nat (length src) in
  x ← fget f;
  if negb (f_writable x) then mret (-1)
  else
    match f_type x with
    | FD_PIPE =>
        p ← pget (f_pipe x);
        k ← gets fkilled;
        let '(r, p', w) := pipewrite_loop k n src p in
        match r with
        | WSleep _ => fail (Blocked "pipewrite")
        | WReturn v => pset (f_pipe x) p' ;; pwakeup (f_pipe x) w ;; mret v
        end
    | FD_INODE =>
        rest ← filewrite_loop (S (Z.to_nat (n / WMAX))) f src;
        mret (if bool_decide (rest = []) then n else -1)
    | FD_NONE => panic "filewrite"
    end.

End devices.
