(* ===== verification/Sysfile.v ===== *)
(** * Sysfile: the system calls on files, [sysfile.c], and swap files

    Each system call fetches and checks its arguments from the running
    process, then works on the file layer.  [createSwapFile], [removeSwapFile]
    and the transfers of [fs.c] are here too, since they call [create],
    [filealloc] and [fileclose]. *)

From S2P Require Import Prelude Mmu Phys Config Bytes Log Fs Args File.

Definition O_RDONLY := 0.
Definition O_WRONLY := 1.
Definition O_RDWR := 2.
Definition O_CREATE := 512.
Definition DOT : list Z := [46].
Definition DOTDOT : list Z := [46; 46].

(** The [n]th argument as a descriptor, with the open file. *)
Definition argfd (n : Z) : M fil (option (nat * nat)) :=
  u ← gets fuser;
  ofile ← gets fofile;
  mret (
    match argint u n with
    | None => None
    | Some fd =>
        if (fd <? 0) || (Z.of_nat NOFILE <=? fd) then None
        else match ofile !! Z.to_nat fd with
             | Some (Some f) => Some (Z.to_nat fd, f)
             | _ => None
             end
    end).

(** The lowest free descriptor. *)
Definition fdalloc (f : nat) : M fil (option nat) :=
  ofile ← gets fofile;
  match list_find (λ o, o = None) ofile with
  | Some (fd, _) => modify (set_fofile (<[fd:=Some f]> ofile)) ;; mret (Some fd)
  | None => mret None
  end.

Definition sys_dup : M fil Z :=
  o ← argfd 0;
  match o with
  | None => mret (-1)
  | Some (_, f) =>
      fd ← fdalloc f;
      match fd with
      | None => mret (-1)
      | Some fd => filedup f ;; mret (Z.of_nat fd)
      end
  end.

(** [st->type = ...;] and so on: the fields of a [struct stat] at [a]. *)
Definition store_stat (a : Z) (st : stat) (u : user) : user :=
  ustore (a + 16) (enc32 (st_size st))
    (ustore (a + 12) (enc16 (u16 (st_nlink st)))
      (ustore (a + 8) (enc32 (st_ino st))
        (ustore (a + 4) (enc32 (u32 (st_dev st)))
          (ustore a (enc16 (u16 (st_type st))) u)))).

Definition sys_fstat : M fil Z :=
  o ← argfd 0;
  u ← gets fuser;
  match o, argptr u 1 20 with
  | Some (_, f), Some a =>
      st ← filestat f;
      match st with
      | Some st => modify (λ s, set_fuser (store_stat a st (fuser s)) s) ;; mret 0
      | None => mret (-1)
      end
  | _, _ => mret (-1)
  end.

Section config.
Context `{Config}.

Definition sys_close : M fil Z :=
  o ← argfd 0;
  match o with
  | None => mret (-1)
  | Some (fd, f) =>
      modify (λ s, set_fofile (<[fd:=None]> (fofile s)) s) ;;
      fileclose f ;;
      mret 0
  end.

Definition sys_pipe : M fil Z :=
  u ← gets fuser;
  match argptr u 0 8 with
  | None => mret (-1)
  | Some a =>
      o ← pipealloc;
      match o with
      | None => mret (-1)
      | Some (rf, wf) =>
          fd0 ← fdalloc rf;
          match fd0 with
          | None => fileclose rf ;; fileclose wf ;; mret (-1)
          | Some fd0 =>
              fd1 ← fdalloc wf;
              match fd1 with
              | None =>
                  modify (λ s, set_fofile (<[fd0:=None]> (fofile s)) s) ;;
                  fileclose rf ;;
                  fileclose wf ;;
                  mret (-1)
              | Some fd1 =>
                  modify (λ s, set_fuser (ustore a (enc32 (Z.of_nat fd0)) (fuser s)) s) ;;
                  modify (λ s, set_fuser (ustore (a + 4) (enc32 (Z.of_nat fd1)) (fuser s)) s) ;;
                  mret 0
              end
          end
      end
  end.

Context `{!Devsw}.

Definition sys_read : M fil Z :=
  o ← argfd 0;
  u ← gets fuser;
  match o, argint u 2 with
  | Some (_, f), Some n =>
      match argptr u 1 n with
      | Some p =>
          '(r, dst) ← fileread f n;
          modify (λ s, set_fuser (ustore p dst (fuser s)) s) ;;
          mret r
      | None => mret (-1)
      end
  | _, _ => mret (-1)
  end.

Definition sys_write : M fil Z :=
  o ← argfd 0;
  u ← gets fuser;
  match o, argint u 2 with
  | Some (_, f), Some n =>
      match argptr u 1 n with
      | Some p => filewrite f (ubytes u p (Z.to_nat n))
      | None => mret (-1)
      end
  | _, _ => mret (-1)
  end.

(** ** Links *)

Definition end_op_ret (r : Z) : M fil Z := on_log end_op ;; mret r.

(** The label [bad] of [sys_link]. *)
Definition link_bad (ip : nat) : M fil Z :=
  on_fsst (ilock ip) ;;
  on_fsst (imodify ip (λ i, set_inlink (s16 (i_nlink i - 1)) i)) ;;
  on_fsst (iupdate ip) ;;
  on_fsst (iunlockput ip) ;;
  end_op_ret (-1).

Definition sys_link : M fil Z :=
  u ← gets fuser;
  match argstr u 0, argstr u 1 with
  | Some old, Some new =>
      on_log begin_op ;;
      o ← on_fsst (namei old);
      match o with
      | None => end_op_ret (-1)
      | Some ip =>
          on_fsst (ilock ip) ;;
          i ← on_fsst (iref ip);
          if i_type i =? T_DIR then on_fsst (iunlockput ip) ;; end_op_ret (-1)
          else
            on_fsst (imodify ip (λ i, set_inlink (s16 (i_nlink i + 1)) i)) ;;
            on_fsst (iupdate ip) ;;
            on_fsst (iunlock ip) ;;
            o ← on_fsst (nameiparent new);
            match o with
            | None => link_bad ip
            | Some (dp, name) =>
                on_fsst (ilock dp) ;;
                d ← on_fsst (iref dp);
                i ← on_fsst (iref ip);
                r ← (if negb (i_dev d =? i_dev i) then mret (-1)
                     else on_fsst (dirlink dp name (i_inum i)));
                if r <? 0 then on_fsst (iunlockput dp) ;; link_bad ip
                else
                  on_fsst (iunlockput dp) ;;
                  on_fsst (iput ip) ;;
                  end_op_ret 0
            end
      end
  | _, _ => mret (-1)
  end.

Fixpoint isdirempty_loop (fuel : nat) (dp : nat) (off : Z) : M fsst bool :=
  i ← iref dp;
  if off <? i_size i then
    match fuel with
    | O => fail NoFuel
    | S fuel' =>
        de ← read_dirent dp off "isdirempty: readi";
        if negb (de_inum de =? 0) then mret false else isdirempty_loop fuel' dp (off + 16)
    end
  else mret true.

Definition isdirempty (dp : nat) : M fsst bool :=
  i ← iref dp;
  isdirempty_loop (dir_fuel (i_size i)) dp 32.

(** What [sys_unlink] and [removeSwapFile] have in common, from the call of
    [nameiparent] on. *)
Definition unlink_bad (dp : nat) : M fil Z := on_fsst (iunlockput dp) ;; end_op_ret (-1).

Definition unlink_path (path : list Z) : M fil Z :=
  o ← on_fsst (nameiparent path);
  match o with
  | None => end_op_ret (-1)
  | Some (dp, name) =>
      on_fsst (ilock dp) ;;
      if (namecmp name DOT =? 0) || (namecmp name DOTDOT =? 0) then unlink_bad dp
      else
        o ← on_fsst (dirlookup dp name);
        match o with
        | None => unlink_bad dp
        | Some (ip, off) =>
            on_fsst (ilock ip) ;;
            i ← on_fsst (iref ip);
            if i_nlink i <? 1 then panic "unlink: nlink < 1"
            else
              e ← (if i_type i =? T_DIR then on_fsst (isdirempty ip) else mret true);
              if negb e then on_fsst (iunlockput ip) ;; unlink_bad dp
              else
                r ← on_fsst (writei dp (replicate 16 0) off);
                if negb (r =? 16) then panic "unlink: writei"
                else
                  i ← on_fsst (iref ip);
                  when (i_type i =? T_DIR) (
                    on_fsst (imodify dp (λ d, set_inlink (s16 (i_nlink d - 1)) d)) ;;
                    on_fsst (iupdate dp)) ;;
                  on_fsst (iunlockput dp) ;;
                  on_fsst (imodify ip (λ i, set_inlink (s16 (i_nlink i - 1)) i)) ;;
                  on_fsst (iupdate ip) ;;
                  on_fsst (iunlockput ip) ;;
                  end_op_ret 0
        end
  end.

Definition sys_unlink : M fil Z :=
  u ← gets fuser;
  match argstr u 0 with
  | None => mret (-1)
  | Some path => on_log begin_op ;; unlink_path path
  end.

(** ** Creating *)

(** The entries [.] and [..] of a new directory. *)
Definition create_dots (dp ip : nat) : M fsst unit :=
  imodify dp (λ d, set_inlink (s16 (i_nlink d + 1)) d) ;;
  iupdate dp ;;
  i ← iref ip;
  d ← iref dp;
  r ← dirlink ip DOT (i_inum i);
  if r <? 0 then panic "create dots"
  else
    r ← dirlink ip DOTDOT (i_inum d);
    if r <? 0 then panic "create dots" else mret tt.

Definition create (path : list Z) (type major minor : Z) : M fsst (option nat) :=
  o ← nameiparent path;
  match o with
  | None => mret None
  | Some (dp, name) =>
      ilock dp ;;
      o ← dirlookup dp name;
      match o with
      | Some (ip, _) =>
          iunlockput dp ;;
          ilock ip ;;
          i ← iref ip;
          if (type =? T_FILE) && (i_type i =? T_FILE) then mret (Some ip)
          else iunlockput ip ;; mret None
      | None =>
          d ← iref dp;
          ip ← ialloc (i_dev d) type;
          ilock ip ;;
          imodify ip (λ i, set_inlink 1 (set_iminor minor (set_imajor major i))) ;;
          iupdate ip ;;
          when (type =? T_DIR) (create_dots dp ip) ;;
          i ← iref ip;
          r ← dirlink dp name (i_inum i);
          if r <? 0 then panic "create: dirlink"
          else iunlockput dp ;; mret (Some ip)
      end
  end.

(** The inode that [sys_open] opens, locked. *)
Definition open_inode (path : list Z) (omode : Z) : M fsst (option nat) :=
  if nz (Z.land omode O_CREATE) then create path T_FILE 0 0
  else
    o ← namei path;
    match o with
    | None => mret None
    | Some ip =>
        ilock ip ;;
        i ← iref ip;
        if (i_type i =? T_DIR) && negb (omode =? O_RDONLY) then iunlockput ip ;; mret None
        else mret (Some ip)
    end.

Definition sys_open : M fil Z :=
  u ← gets fuser;
  match argstr u 0, argint u 1 with
  | Some path, Some omode =>
      on_log begin_op ;;
      o ← on_fsst (open_inode path omode);
      match o with
      | None => end_op_ret (-1)
      | Some ip =>
          f ← filealloc;
          match f with
          | None => on_fsst (iunlockput ip) ;; end_op_ret (-1)
          | Some f =>
              fd ← fdalloc f;
              match fd with
              | None => fileclose f ;; on_fsst (iunlockput ip) ;; end_op_ret (-1)
              | Some fd =>
                  on_fsst (iunlock ip) ;;
                  on_log end_op ;;
                  fmodify f (λ x, mkFile FD_INODE (f_ref x) (negb (nz (Z.land omode O_WRONLY)))
                    (nz (Z.land omode O_WRONLY) || nz (Z.land omode O_RDWR)) (f_pipe x) ip 0) ;;
                  mret (Z.of_nat fd)
              end
          end
      end
  | _, _ => mret (-1)
  end.

Definition sys_mkdir : M fil Z :=
  on_log begin_op ;;
  u ← gets fuser;
  match argstr u 0 with
  | None => end_op_ret (-1)
  | Some path =>
      o ← on_fsst (create path T_DIR 0 0);
      match o with
      | None => end_op_ret (-1)
      | Some ip => on_fsst (iunlockput ip) ;; end_op_ret 0
      end
  end.

Definition sys_mknod : M fil Z :=
  on_log begin_op ;;
  u ← gets fuser;
  match argstr u 0, argint u 1, argint u 2 with
  | Some path, Some major, Some minor =>
      o ← on_fsst (create path T_DEV (s16 major) (s16 minor));
      match o with
      | None => end_op_ret (-1)
      | Some ip => on_fsst (iunlockput ip) ;; end_op_ret 0
      end
  | _, _, _ => end_op_ret (-1)
  end.

Definition set_fcwd (ip : nat) (s : fsst) : fsst := mkFs (ftx s) (fsb s) (icache s) ip (fcons s).

Definition sys_chdir : M fil Z :=
  on_log begin_op ;;
  u ← gets fuser;
  match argstr u 0 with
  | None => end_op_ret (-1)
  | Some path =>
      o ← on_fsst (namei path);
      match o with
      | None => end_op_ret (-1)
      | Some ip =>
          on_fsst (ilock ip) ;;
          i ← on_fsst (iref ip);
          if negb (i_type i =? T_DIR) then on_fsst (iunlockput ip) ;; end_op_ret (-1)
          else
            on_fsst (iunlock ip) ;;
            cwd ← on_fsst (gets fcwd);
            on_fsst (iput cwd) ;;
            on_log end_op ;;
            on_fsst (modify (set_fcwd ip)) ;;
            mret 0
      end
  end.

(** ** Swap files *)

(** [itoa] into the array [b]; [None] when it writes behind the array's end or
    [i] cannot be negated. *)
Fixpoint itoa_end (fuel : nat) (shifter p : Z) : Z :=
  match fuel with
  | O => p
  | S fuel' => let p := p + 1 in
               let shifter := shifter ÷ 10 in
               if shifter =? 0 then p else itoa_end fuel' shifter p
  end.
Definition put_char (b : list Z) (p c : Z) : option (list Z) :=
  if (0 <=? p) && (p <? Z.of_nat (length b)) then Some (<[Z.to_nat p:=c]> b) else None.
Fixpoint itoa_digits (fuel : nat) (b : list Z) (p i : Z) : option (list Z) :=
  match fuel with
  | O => Some b
  | S fuel' =>
      let p := p - 1 in
      b ← put_char b p (48 + Z.rem i 10);
      let i := i ÷ 10 in
      if i =? 0 then Some b else itoa_digits fuel' b p i
  end.

Definition itoa (i : Z) (b : list Z) : option (list Z) :=
  '(b, p, i) ← (if i <? 0 then
                  if i =? -2147483648 then None
                  else b ← put_char b 0 45; Some (b, 1, - i)
                else Some (b, 0, i));
  let p := itoa_end 11 i p in
  b ← put_char b p 0;
  itoa_digits 11 b p i.

Definition DIGITS := 14%nat.
Definition swap_prefix : list Z := [47; 46; 115; 119; 97; 112].   (* "/.swap" *)

(** The path of the swap file of process [pid], in an array whose contents [junk]
    are undefined before. *)
Definition swap_path (pid : Z) (junk : list Z) : option (list Z) :=
  b ← itoa pid (drop 6 (take DIGITS junk));
  Some (swap_prefix ++ b).

(** The string in an array, up to its first 0. *)
Fixpoint cstring (b : list Z) : list Z :=
  match b with c :: b' => if c =? 0 then [] else c :: cstring b' | [] => [] end.

Definition junk14 : list Z := replicate DIGITS 0.

Definition removeSwapFile (pid : Z) (swapFile : option nat) : M fil Z :=
  match swap_path pid junk14 with
  | None => ub "swap path"
  | Some path =>
      match swapFile with
      | None => mret (-1)
      | Some f =>
          fileclose f ;;
          on_log begin_op ;;
          unlink_path (cstring path)
      end
  end.

(** The new file; [iunlock] panics when [create] has returned a null pointer. *)
Definition createSwapFile (pid : Z) : M fil nat :=
  match swap_path pid junk14 with
  | None => ub "swap path"
  | Some path =>
      on_log begin_op ;;
      o ← on_fsst (create (cstring path) T_FILE 0 0);
      match o with
      | None => panic "iunlock"
      | Some ip =>
          on_fsst (iunlock ip) ;;
          f ← filealloc;
          match f with
          | None => panic "no slot for files on /store"
          | Some f =>
              fmodify f (λ x, mkFile FD_INODE (f_ref x) (nz O_WRONLY) (nz O_RDWR) (f_pipe x) ip 0) ;;
              on_log end_op ;;
              mret f
          end
      end
  end.

Definition writeToSwapFile (swapFile : nat) (buffer : list Z) (placeOnFile : Z) : M fil Z :=
  fmodify swapFile (set_foff placeOnFile) ;;
  filewrite swapFile buffer.

Definition readFromSwapFile (swapFile : nat) (placeOnFile size : Z) : M fil (Z * list Z) :=
  fmodify swapFile (set_foff placeOnFile) ;;
  fileread swapFile size.

End config.
