(* ===== verification/Kernel.v ===== *)
(** * Kernel: the file layer below the process layer

    The state [kfs] of the whole file layer, the console as its device, and the
    operations of [File] and [Sysfile] as the implementation of the interface
    [FileSystem] that processes and paging are written against.  A system call on
    files runs on the open files, the directory and the flags of the running
    process, and on the same physical memory as the rest of the kernel. *)

From stdpp Require Import gmap.
From S2P Require Import Prelude Mmu Phys Config Kalloc State Spinlock Proc Bytes Bio Log Fs Console Pipe Args File Sysfile.

(** ** The console as a device *)

Definition CONSOLE := 1.

Definition on_cons {A} (c : M console A) : M fsst A := λ s,
  match c (fcons s) with
  | Ok a x => Ok a (mkFs (ftx s) (fsb s) (icache s) (fcwd s) x)
  | Err e => Err e
  end.

Definition cons_read (n : Z) : M console (Z * list Z) :=
  i ← gets co_input;
  k ← gets co_killed;
  let (r, i) := consoleread k (Z.to_nat (s32 n)) i in
  match r with
  | CReturn v dst => modify (set_co_input i) ;; mret (v, dst)
  | CSleep _ _ => fail (Blocked "consoleread")
  end.

(** [consoleinit] *)
Definition console_devsw : Devsw := {|
  dev_read := λ d, if d =? CONSOLE then Some (λ ip n, iunlock ip ;; r ← on_cons (cons_read n); ilock ip ;; mret r) else None;
  dev_write := λ d, if d =? CONSOLE
    then Some (λ ip src, iunlock ip ;; r ← on_cons (on_screen (consolewrite src)); ilock ip ;; mret r) else None
|}.
#[export] Existing Instance console_devsw.

(** ** The file layer *)

(** The file system, the table of open files, the pipes. *)
Record kfs := mkKfs { kf_fs : fsst; kf_table : list file; kf_pipes : gmap Z pipe }.

(** [&p->nread] and [&p->nwrite]. *)
Definition pipe_chan (w : Z * pchan) : Z :=
  let '(p, c) := w in match c with CRead => p + 52 + PIPESIZE | CWrite => p + 52 + PIPESIZE + 4 end.

Definition on_kfs {A} (c : M fsst A) : M kfs A := λ x,
  match c (kf_fs x) with
  | Ok a y => Ok a (mkKfs y (kf_table x) (kf_pipes x))
  | Err e => Err e
  end.

(** A call that needs neither memory nor the process, which is so for files that
    are not pipes. *)
Definition no_memory : phys := mkPhys (λ _, 0) false false 0 (λ _, 0) 0 0.
Definition no_user : user := mkUser 0 0 (λ _, 0).
Definition on_fil_only {A} (c : M fil A) : M kfs A := λ x,
  match c (mkFil (kf_fs x) no_memory (kf_table x) (kf_pipes x) [] no_user [] false) with
  | Ok a l => Ok a (mkKfs (ffs l) (ftable l) (fpipes l))
  | Err e => Err e
  end.
Definition on_inode_file {A} (f : Z) (c : nat → M fil A) : M kfs A :=
  t ← gets kf_table;
  match t !! Z.to_nat f with
  | Some x => if bool_decide (f_type x = FD_PIPE) then ub "a pipe as swap file" else on_fil_only (c (Z.to_nat f))
  | None => ub "no such file"
  end.

Section Kernel.
Context `{Config}.

Definition kclose (f : Z) : M (phys * kfs) (list Z) := λ '(ph, x),
  match fileclose (Z.to_nat f) (mkFil (kf_fs x) ph (kf_table x) (kf_pipes x) [] no_user [] false) with
  | Ok _ l => Ok (pipe_chan <$> fwoken l) (fphys l, mkKfs (ffs l) (ftable l) (fpipes l))
  | Err e => Err e
  end.

#[export] Instance kernel_files : FileSystem kfs := {
  fs_begin_op := on_kfs (on_tx begin_op);
  fs_end_op := on_kfs (on_tx end_op);
  fs_create_swap := λ pid, f ← on_fil_only (createSwapFile pid); mret (Z.of_nat f);
  fs_remove_swap := λ pid f, on_inode_file f (λ f, removeSwapFile pid (Some f));
  fs_write_at := λ f off b, on_inode_file f (λ f, writeToSwapFile f b off);
  fs_read_at := λ f off n, on_inode_file f (λ f, readFromSwapFile f off n);
  fs_filedup := λ f, on_fil_only (filedup (Z.to_nat f)) ;; mret tt;
  fs_fileclose := kclose;
  fs_idup := λ ip, on_kfs (idup (Z.to_nat ip)) ;; mret tt;
  fs_iput := λ ip, on_kfs (iput (Z.to_nat ip));
  fs_namei := λ path, o ← on_kfs (namei (bytes_of_string path)); mret (Z.of_nat <$> o);
  fs_ilock := λ ip, on_kfs (ilock (Z.to_nat ip));
  fs_iunlockput := λ ip, on_kfs (iunlockput (Z.to_nat ip));
  fs_readi := λ ip off n, on_kfs (readi (Z.to_nat ip) off n)
}.

(** The file layer has copies of some fields of the running process: its
    directory, its identifier as the owner of sleep locks, its flag [killed]. *)
Definition set_cur_pid (p : Z) (s : bio) : bio := mkBio (disk s) (history s) (havedisk1 s) (idequeue s) (bcache s) p.
Definition enter_proc (p : proc) (x : kfs) : kfs :=
  let y := kf_fs x in
  let t := ftx y in
  mkKfs (mkFs (set_lbio (set_cur_pid (pid p) (lbio t)) t) (fsb y) (icache y)
      (match cwd p with Some c => Z.to_nat c | None => fcwd y end) (set_co_killed (killed p) (fcons y)))
    (kf_table x) (kf_pipes x).
Definition enter : K kfs unit := p ← myproc id; modify (λ s, set_fsys (enter_proc p (fsys s)) s).

(** A system call on files, made with the memory [u]; what it stores in the
    process is part of the result. *)
Definition fil_of (u : user) (p : proc) (ph : phys) (x : kfs) : fil :=
  mkFil (kf_fs x) ph (kf_table x) (kf_pipes x) [] u ((fmap Z.to_nat : option Z → option nat) <$> ofile p) (killed p).
Definition leave_proc (l : fil) (p : proc) : proc :=
  set_cwd ((λ _, Z.of_nat (fcwd (ffs l))) <$> cwd p) (set_ofile ((fmap Z.of_nat : option nat → option Z) <$> fofile l) p).
Definition on_fil (c : M fil Z) (u : user) : K kfs (Z * user) :=
  p ← myproc id;
  '(r, l) ← on_files (λ '(ph, x),
    match c (fil_of u p ph x) with
    | Ok r l => Ok (r, l) (fphys l, mkKfs (ffs l) (ftable l) (fpipes l))
    | Err e => Err e
    end);
  on_myproc (modify (leave_proc l)) ;;
  forM (pipe_chan <$> fwoken l) wakeup ;;
  mret (r, fuser l).
End Kernel.
