(* ===== verification/SwapImpl.v ===== *)
(** * SwapImpl: the file system keeps what paging expects of swap files

    Writing to a swap file goes through [filewrite], in pieces, each in a
    transaction of its own; reading through [fileread].  On an inode file with
    enough free blocks they do what [SwapFile] asks for: the file layer of the
    kernel implements the interface that the theorems on paging are proved
    against. *)

From stdpp Require Import gmap.
From S2P Require Import Prelude Mmu Phys Config Kalloc State SwapInv Bytes Bio BioSpec Log LogSpec Fs FsSpec FsBlocks FsFile FsData FsReserve.
From S2P Require Import FsWrite FsOps Mkfs FsDemo Console Pipe Args File Sysfile Kernel.

(** Blocks of a swap file: 17 pages. *)
Definition SWAPBLOCKS : nat := 136.

Lemma nth_frange V i off n k : (k < n)%nat → frange V i off n !! k = Some (fbyte V i (off + Z.of_nat k)).
Proof. intros Hk. unfold frange. by rewrite list_lookup_fmap, lookup_seq_lt. Qed.

Lemma written_contents sb V P i V' P' i' off src :
  written sb V P i V' P' i' off src → 0 ≤ off ≤ i_size i →
  contents V' i' = splice (Z.to_nat off) src (contents V i).
Proof.
  intros W Ho. pose proof (wn_size _ _ _ _ _ _ _ _ _ W) as Hs. unfold contents.
  assert (Hl : (Z.to_nat off ≤ length (frange V i 0 (Z.to_nat (i_size i))))%nat) by (rewrite length_frange; lia).
  apply list_eq. intros k. rewrite lookup_splice by done. destruct (decide (k < Z.to_nat (i_size i'))%nat) as [Hk|Hk].
  - rewrite nth_frange by done. rewrite (wn_bytes _ _ _ _ _ _ _ _ _ W) by lia. case_decide as Hin; case_decide as Hin'; unfold in_write in *; try lia.
    + destruct (lookup_lt_is_Some_2 src (k - Z.to_nat off)) as [c Hc]; [lia|]. rewrite Hc. f_equal.
      replace (Z.to_nat (0 + Z.of_nat k - off)) with (k - Z.to_nat off)%nat by lia. by apply nth_lookup_Some.
    + rewrite nth_frange by lia. f_equal.
  - rewrite lookup_ge_None_2 by (rewrite length_frange; lia). case_decide; [lia|].
    symmetry. apply lookup_ge_None_2. rewrite length_frange. lia.
Qed.

Lemma splice_nil off (c : list Z) : splice off [] c = c.
Proof. unfold splice. cbn. rewrite Nat.add_0_r. apply take_drop. Qed.
Lemma splice_splice off (b1 b2 c : list Z) :
  (off ≤ length c)%nat → splice (off + length b1) b2 (splice off b1 c) = splice off (b1 ++ b2) c.
Proof.
  intros Ho. assert (Hl := length_splice off b1 c Ho). apply list_eq. intros k. rewrite !lookup_splice by lia. rewrite length_app.
  repeat case_decide; try lia; try done.
  - rewrite lookup_app_r by lia. f_equal. lia.
  - by rewrite lookup_app_l by lia.
Qed.

Section Swap.
Context `{Config} (st sz pid : Z) (sb : superblock) (cw : nat).
Notation cfg := (cfg st sz pid).
Hypothesis Hly : layout (cfg 1) sb.
Hypothesis Hlog : 10 ≤ sz.
Notation fs o := (fs (cfg o) sb cw).
Notation none := (λ _ : err, False).

(** The open file [t], number [f], on the inode [i]. *)
Record swap_file (V : Z → block) (I : list inode) (i : inode) (t : file) (s : fsst) (tab : list file) (f : nat) : Prop := {
  sw_fs : fs 0 V [] [] I s;
  sw_tab : tab !! f = Some t;
  sw_open : f_type t = FD_INODE ∧ f_readable t = true ∧ f_writable t = true;
  sw_inode : I !! f_ip t = Some i;
  sw_free : inode_free i;
  sw_good : good_file sb SWAPBLOCKS V i
}.

Lemma on_fsst_wp {A} (c : M fsst A) (Q : A → fil → Prop) l :
  wpe none c (λ a x, Q a (set_ffs x l)) (ffs l) → wpe none (on_fsst c) Q l.
Proof using. unfold wpe, on_fsst. by destruct (c (ffs l)). Qed.
Lemma fget_wp f t (Q : file → fil → Prop) l : ftable l !! f = Some t → Q t l → wpe none (fget f) Q l.
Proof using. intros Hf HQ. unfold wpe, fget. by rewrite Hf. Qed.
Lemma fmodify_wp f t g (Q : unit → fil → Prop) l :
  ftable l !! f = Some t → Q tt (set_ftable (<[f:=g t]> (ftable l)) l) → wpe none (fmodify f g) Q l.
Proof using.
  intros Hf HQ. unfold wpe, fmodify. by rewrite Hf, (alter_insert _ _ _ _ Hf).
Qed.

(** ** Writing *)

(** [l'] is [l] with another file system and another table. *)
Definition same_rest (l l' : fil) : Prop := l' = set_ftable (ftable l') (set_ffs (ffs l') l).

(** The state after [b] has been written at the offset of the file. *)
Definition wrote_at (V : Z → block) (i : inode) (t : file) (f : nat) (b : list Z) (l l' : fil) : Prop :=
  same_rest l l' ∧ ∃ V' I' i' t', swap_file V' I' i' t' (ffs l') (ftable l') f ∧
    t' = set_foff (f_off t + Z.of_nat (length b)) t ∧
    contents V' i' = splice (Z.to_nat (f_off t)) b (contents V i).

Lemma good_same V i i' :
  good_file sb SWAPBLOCKS V i → i_dev i' = i_dev i → i_type i' = i_type i → i_inum i' = i_inum i →
  ∀ V', file_ok sb V' i' → filled V' i' → meta_used sb V' → enough sb SWAPBLOCKS V' i' → good_file sb SWAPBLOCKS V' i'.
Proof using. intros [G1 G2 G3 _ _ _ _] E1 E2 E3 V' H1 H2 H3 H4. split; congruence || done. Qed.

(** The body of the loop of [filewrite]. *)
Lemma write_round V I i t f b (k : Z → M fil (list Z)) (Q : list Z → fil → Prop) l :
  swap_file V I i t (ffs l) (ftable l) f → (0 < length b)%nat → Z.of_nat (length b) ≤ WMAX →
  0 ≤ f_off t ≤ i_size i → f_off t + Z.of_nat (length b) ≤ BSIZE * Z.of_nat SWAPBLOCKS →
  (∀ l', wrote_at V i t f b l l' → wpe none (k (Z.of_nat (length b))) Q l') →
  wpe none (on_log begin_op ;; on_fsst (ilock (f_ip t)) ;; r ← on_fsst (writei (f_ip t) b (f_off t));
    when (0 <? r) (fmodify f (λ x, set_foff (u32 (f_off x + r)) x)) ;;
    on_fsst (iunlock (f_ip t)) ;; on_log end_op ;; k r) Q l.
Proof using Hly Hlog.
  intros [Hf Ht Ho Hi Hfree Hg] Hb0 Hb Hoff Hmax HQ. pose proof Hfree as (Hr & Hlk & Hv). set (ip := f_ip t) in *.
  pose proof (lookup_lt_Some _ _ _ Hi) as Hip. pose proof (lookup_lt_Some _ _ _ Ht) as Hft.
  change (BSIZE * Z.of_nat SWAPBLOCKS) with 69632 in Hmax. unfold WMAX, MAXOPBLOCKS in Hb. change ((10 - 1 - 1 - 2) / 2 * 512) with 1536 in Hb.
  apply wpe_bind, on_fsst_wp. eapply begin_op_wp; [exact Hf|]. intros s1 H1.
  apply wpe_bind, on_fsst_wp. eapply ilock_wp; [exact H1|exact Hi|done|]. intros s2 H2. cbn [ffs set_ffs] in *.
  set (i2 := set_ilock (mkSleep true pid) i) in *. assert (Hg2 : good_file sb SWAPBLOCKS V i2) by (by apply good_set_ilock).
  assert (Hi2 : <[ip:=i2]> I !! ip = Some i2) by (by apply list_lookup_insert_eq).
  apply wpe_bind, on_fsst_wp.
  assert (Hfit : fits (cfg 1) [] (nblk (f_off t) (Z.of_nat (length b)) + 5)).
  { assert (nblk (f_off t) (Z.of_nat (length b)) ≤ 4) by (unfold nblk, BSIZE; rewrite (proj2 (Z.eqb_neq _ 0)) by lia; dlia).
    unfold fits, LOGSIZE. cbn. lia. }
  destruct Hg2 as [G1 G2 G3 G4 G5 G6 G7].
  eapply wpe_mono; [eapply (writei_wp (cfg 1) sb cw none Hly ltac:(cbn; lia) SWAPBLOCKS (enough sb SWAPBLOCKS)
    (enough_reservation (cfg 1) sb SWAPBLOCKS Hly ltac:(unfold SWAPBLOCKS, INDSLOT; lia)) V [] _ _ ip i2 (f_off t) b);
    [exact H2|exact Hi2|done|done|done|done|done|done|done|change (MAXFILE * BSIZE) with 71680; lia|exact Hfit|change (BSIZE * Z.of_nat SWAPBLOCKS) with 69632; lia|done]|].
  intros r s3 (-> & V3 & P3 & i3 & H3 & W & He). cbn [ffs set_ffs]. rewrite list_insert_insert_eq in H3.
  pose proof (wn_same _ _ _ _ _ _ _ _ _ W) as Esame.
  rewrite (proj2 (Z.ltb_lt 0 _)) by lia. cbn [when]. apply wpe_bind.
  eapply fmodify_wp; [exact Ht|]. rewrite u32_small by (unfold is_u32; lia).
  set (t' := set_foff (f_off t + Z.of_nat (length b)) t).
  apply wpe_bind, on_fsst_wp.
  eapply (iunlock_wp st sz pid sb cw _ 1 V3 P3 (<[ip:=i3]> I) _ ip i3);
    [exact H3|by apply list_lookup_insert_eq|by rewrite Esame|by rewrite Esame|]. intros s4 H4. rewrite list_insert_insert_eq in H4.
  apply wpe_bind, on_fsst_wp.
  assert (HP3 : (length P3 < NBUF)%nat).
  { pose proof (wn_log _ _ _ _ _ _ _ _ _ W) as HlP. cbn [length] in HlP. unfold fits, LOGSIZE in Hfit. cbn in Hfit. unfold NBUF. lia. }
  eapply end_op_wp; [exact H4|exact HP3|]. intros V5 s5 HV5 H5. apply HQ.
  set (i4 := set_ilock (mkSleep false 0) i3) in *.
  assert (Hg4 : good_file sb SWAPBLOCKS V3 i4).
  { apply good_set_ilock. apply (good_same V i); [done|by rewrite Esame|by rewrite Esame|by rewrite Esame|apply W|apply W|apply W|done]. }
  split; [done|]. exists V5, (<[ip:=i4]> I), i4, t'. split_and!; [split|done|].
  - exact H5.
  - cbn. by apply list_lookup_insert_eq.
  - done.
  - cbn. by apply list_lookup_insert_eq.
  - unfold i4. split_and!; [|done|]; cbn; by rewrite Esame.
  - apply (agree_good st sz pid sb Hly SWAPBLOCKS V3 V5); [done|unfold SWAPBLOCKS, INDSLOT; lia|done].
  - rewrite (agree_contents st sz pid sb Hly SWAPBLOCKS V3 V5 i4 HV5 Hg4). exact (written_contents sb V [] i2 V3 P3 i3 _ b W Hoff).
Qed.

Lemma length_contents V i : 0 ≤ i_size i → Z.of_nat (length (contents V i)) = i_size i.
Proof using. intros. unfold contents. rewrite length_frange. lia. Qed.
Lemma swap_size V I i t s tab f : swap_file V I i t s tab f → 0 ≤ i_size i ≤ 71680.
Proof using. intros Hw. apply (gf_filled _ _ _ _ (sw_good _ _ _ _ _ _ _ Hw)). Qed.

Lemma filewrite_loop_wp fuel : ∀ V I i t f b (Q : list Z → fil → Prop) l,
  swap_file V I i t (ffs l) (ftable l) f → 0 ≤ f_off t ≤ i_size i → f_off t + Z.of_nat (length b) ≤ BSIZE * Z.of_nat SWAPBLOCKS →
  Z.of_nat (length b) ≤ WMAX * Z.of_nat fuel → (∀ l', wrote_at V i t f b l l' → Q [] l') → wpe none (filewrite_loop fuel f b) Q l.
Proof using Hly Hlog.
  induction fuel as [|fuel IH]; intros V I i t f b Q l Hw Hoff Hmax Hfuel HQ.
  all: destruct (decide (b = [])) as [->|Hne].
  1,3: assert (Hn : wrote_at V i t f [] l l) by (split; [by destruct l|]; exists V, I, i, t; split_and!;
    [done|cbn; rewrite Z.add_0_r; by destruct t|by rewrite splice_nil]); cbn; apply wpe_ret; by apply HQ.
  { destruct b; [done|]. cbn in Hfuel. lia. }
  destruct b as [|c0 b0] eqn:Eb; [done|]. rewrite <- Eb in *.
  set (n1 := Z.min (Z.of_nat (length b)) WMAX). assert (Hb0 : (0 < length b)%nat) by (rewrite Eb; cbn; lia).
  assert (HW : WMAX = 1536) by reflexivity. assert (Hn1 : 0 < n1 ≤ WMAX ∧ n1 ≤ Z.of_nat (length b)) by (unfold n1; lia).
  cbn [filewrite_loop]. rewrite Eb at 1. cbv iota. fold n1.
  apply wpe_bind. eapply fget_wp; [apply Hw|].
  assert (Hlt : Z.of_nat (length (take (Z.to_nat n1) b)) = n1) by (rewrite length_take; lia).
  eapply (write_round V I i t f (take (Z.to_nat n1) b)); [exact Hw|lia|lia|done|lia|].
  intros l1 (Hs1 & V1 & I1 & i1 & t1 & Hw1 & Et1 & Ec1). rewrite Hlt in *.
  rewrite (proj2 (Z.ltb_ge n1 0)), Z.eqb_refl by lia. cbn [negb].
  pose proof (swap_size _ _ _ _ _ _ _ Hw) as Hz. pose proof (swap_size _ _ _ _ _ _ _ Hw1) as Hz1.
  assert (Hlc : Z.of_nat (length (contents V i)) = i_size i) by (apply length_contents; lia).
  assert (Hl1 : i_size i1 = Z.max (i_size i) (f_off t + n1)).
  { rewrite <- (length_contents V1 i1), Ec1, length_splice by lia. lia. }
  eapply IH; [exact Hw1|rewrite Et1; cbn; lia|rewrite Et1, length_drop; cbn; lia| |].
  { rewrite length_drop. lia. }
  intros l2 (Hs2 & V2 & I2 & i2 & t2 & Hw2 & Et2 & Ec2). apply HQ. split.
  { unfold same_rest in *. rewrite Hs2, Hs1. done. }
  exists V2, I2, i2, t2. split_and!; [done| |].
  - rewrite Et2, Et1. unfold set_foff. cbn. f_equal. rewrite length_drop. lia.
  - rewrite Ec2, Ec1, Et1. cbn [f_off set_foff].
    replace (Z.to_nat (f_off t + n1)) with (Z.to_nat (f_off t) + length (take (Z.to_nat n1) b))%nat by lia.
    rewrite splice_splice by lia. by rewrite take_drop.
Qed.

Lemma filewrite_wp V I i t f b (Q : Z → fil → Prop) l :
  swap_file V I i t (ffs l) (ftable l) f → 0 ≤ f_off t ≤ i_size i → f_off t + Z.of_nat (length b) ≤ BSIZE * Z.of_nat SWAPBLOCKS →
  (∀ l', wrote_at V i t f b l l' → Q (Z.of_nat (length b)) l') → wpe none (filewrite f b) Q l.
Proof using Hly Hlog.
  intros Hw Hoff Hmax HQ. unfold filewrite. apply wpe_bind. eapply fget_wp; [apply Hw|].
  destruct (sw_open _ _ _ _ _ _ _ Hw) as (-> & _ & ->). cbn [negb]. apply wpe_bind.
  eapply filewrite_loop_wp; [exact Hw|done|done| |].
  { unfold WMAX, MAXOPBLOCKS. change ((10 - 1 - 1 - 2) / 2 * 512) with 1536. dlia. }
  intros l' Hl. apply wpe_ret. by apply HQ.
Qed.

(** ** Reading *)

Lemma fileread_wp V I i t f n (Q : Z * list Z → fil → Prop) l :
  swap_file V I i t (ffs l) (ftable l) f → 0 ≤ f_off t → 0 ≤ n → f_off t + n ≤ i_size i →
  (∀ l', same_rest l l' → (∃ I' i' t', swap_file V I' i' t' (ffs l') (ftable l') f ∧ contents V i' = contents V i) →
     Q (n, take (Z.to_nat n) (drop (Z.to_nat (f_off t)) (contents V i))) l') → wpe none (fileread f n) Q l.
Proof using Hly.
  intros Hw Hoff Hn Hmax HQ. pose proof (swap_size _ _ _ _ _ _ _ Hw) as Hz. destruct Hw as [Hf Ht Ho Hi Hfree Hg].
  pose proof Hfree as (Hr & Hlk & Hv). pose proof (good_set_ilock sb SWAPBLOCKS V i (mkSleep true pid) Hg) as [G1 G2 G3 G4 G5 G6 G7].
  pose proof (lookup_lt_Some _ _ _ Hi) as Hip. pose proof (lookup_lt_Some _ _ _ Ht) as Hft.
  unfold fileread. apply wpe_bind. eapply fget_wp; [exact Ht|]. destruct Ho as (Ho1 & Ho2 & Ho3). rewrite Ho1, Ho2. cbn [negb].
  set (ip := f_ip t) in *. apply wpe_bind, on_fsst_wp. eapply ilock_wp; [exact Hf|exact Hi|done|]. intros s1 H1.
  set (i2 := set_ilock (mkSleep true pid) i) in *. rewrite u32_small by (unfold is_u32; lia).
  apply wpe_bind, on_fsst_wp. cbn [ffs set_ffs].
  eapply (readi_wp (cfg 0)); [by apply layout_cfg|exact H1|by apply list_lookup_insert_eq|done|done|done|done|cbn; unfold NBUF; lia|cbn; lia|lia|lia|].
  intros s2 H2. unfold read_len. cbn [i_size i2 set_ilock]. rewrite Z.min_l by lia. cbn beta iota.
  assert (Hd : frange V i2 (f_off t) (Z.to_nat n) = take (Z.to_nat n) (drop (Z.to_nat (f_off t)) (contents V i))).
  { apply list_eq. intros k. unfold contents. destruct (decide (k < Z.to_nat n)%nat) as [Hk|Hk].
    - rewrite nth_frange by done. rewrite lookup_take_lt, lookup_drop, nth_frange by lia. f_equal.
      replace (0 + Z.of_nat (Z.to_nat (f_off t) + k)) with (f_off t + Z.of_nat k) by lia. done.
    - rewrite !lookup_ge_None_2; [done|rewrite length_take; lia|rewrite length_frange; lia]. }
  rewrite Hd. set (t2 := if 0 <? n then set_foff (u32 (f_off t + n)) t else t). apply wpe_bind.
  assert (Hm : ∀ (Q' : unit → fil → Prop) l', ftable l' !! f = Some t → Q' tt (set_ftable (<[f:=t2]> (ftable l')) l') →
    wpe none (when (0 <? n) (fmodify f (λ x, set_foff (u32 (f_off x + n)) x))) Q' l').
  { intros Q' l' Hl' HQ'. unfold t2 in HQ'. destruct (0 <? n); cbn [when]; [by eapply fmodify_wp|]. apply wpe_ret.
    rewrite list_insert_id in HQ' by done. by destruct l'. }
  apply Hm; [exact Ht|]. apply wpe_bind, on_fsst_wp.
  eapply (iunlock_wp st sz pid sb cw _ 0 V [] (<[ip:=i2]> I) _ ip i2); [exact H2|by apply list_lookup_insert_eq|done|done|].
  intros s3 H3. rewrite list_insert_insert_eq in H3. apply wpe_ret. apply HQ; [done|].
  exists (<[ip:=set_ilock (mkSleep false 0) i2]> I), (set_ilock (mkSleep false 0) i2), t2.
  assert (Et2 : f_ip t2 = ip ∧ f_type t2 = FD_INODE ∧ f_readable t2 = true ∧ f_writable t2 = true) by (unfold t2; by destruct (0 <? n)).
  destruct Et2 as (E1 & E2). split; [|done]. split; [done| |done|rewrite E1| |].
  - cbn. by apply list_lookup_insert_eq.
  - by apply list_lookup_insert_eq.
  - done.
  - by apply good_set_ilock, good_set_ilock.
Qed.
End Swap.

(** ** The interface *)

(** The swap file [f] of the kernel contains [c]: an open file on an unlocked inode of a
    disk with enough free blocks, between operations. *)
Definition holds_swap (x : kfs) (f : Z) (c : list Z) : Prop :=
  ∃ st sz pid sb cw V I i t, layout (cfg st sz pid 1) sb ∧ 10 ≤ sz ∧ c = contents V i ∧
    swap_file st sz pid sb cw V I i t (kf_fs x) (kf_table x) (Z.to_nat f).

Section Interface.
Context `{Config}.

(** The position is set before the file is used. *)
Lemma swap_file_at st sz pid sb cw V I i t s tab f off :
  swap_file st sz pid sb cw V I i t s tab f → swap_file st sz pid sb cw V I i (set_foff off t) s (<[f:=set_foff off t]> tab) f.
Proof using.
  intros [H1 H2 H3 H4 H5 H6]. pose proof (lookup_lt_Some _ _ _ H2). split; try done. by apply list_lookup_insert_eq.
Qed.

Lemma on_inode_file_wp {A} st sz pid sb cw V I i t x f (c : nat → M fil A) (Q : A → fil → Prop) :
  swap_file st sz pid sb cw V I i t (kf_fs x) (kf_table x) (Z.to_nat f) →
  wpe (λ _, False) (c (Z.to_nat f)) Q (mkFil (kf_fs x) no_memory (kf_table x) (kf_pipes x) [] no_user [] false) →
  ∃ a l, on_inode_file f c x = Ok a (mkKfs (ffs l) (ftable l) (fpipes l)) ∧ Q a l.
Proof using.
  intros Hw Hc. unfold on_inode_file. rewrite (bind_ok _ _ _ (kf_table x) x) by done.
  rewrite (sw_tab _ _ _ _ _ _ _ _ _ _ _ _ Hw). rewrite bool_decide_eq_false_2 by (rewrite (proj1 (sw_open _ _ _ _ _ _ _ _ _ _ _ _ Hw)); done).
  unfold on_fil_only. unfold wpe in Hc. destruct (c _ _) as [a l|e]; [|done]. by exists a, l.
Qed.

Lemma kernel_swap_write x f c off b :
  holds_swap x f c → (off ≤ length c)%nat → Z.of_nat (off + length b) ≤ 17 * PGSIZE →
  ∃ x', fs_write_at f (Z.of_nat off) b x = Ok (Z.of_nat (length b)) x' ∧ holds_swap x' f (splice off b c).
Proof using.
  intros (st & sz & pid & sb & cw & V & I & i & t & Hly & Hlog & -> & Hw) Ho Hmax.
  pose proof (swap_size _ _ _ _ _ _ _ _ _ _ _ _ Hw) as Hz. pose proof (length_contents V i (proj1 Hz)) as Hlc.
  change (17 * PGSIZE) with (BSIZE * Z.of_nat SWAPBLOCKS) in Hmax. cbn [fs_write_at kernel_files].
  edestruct (on_inode_file_wp _ _ _ _ _ _ _ _ _ _ _ (λ f, writeToSwapFile f b (Z.of_nat off))
    (λ r l, r = Z.of_nat (length b) ∧ wrote_at st sz pid sb cw V i (set_foff (Z.of_nat off) t) (Z.to_nat f) b
       (set_ftable (<[Z.to_nat f:=set_foff (Z.of_nat off) t]> (kf_table x)) (mkFil (kf_fs x) no_memory (kf_table x) (kf_pipes x) [] no_user [] false)) l) Hw)
    as (r & l & E & -> & Hs & V' & I' & i' & t' & Hw' & Et & Ec).
  - unfold writeToSwapFile. apply wpe_bind. eapply fmodify_wp; [apply Hw|].
    eapply filewrite_wp; [exact Hly|exact Hlog|apply (swap_file_at _ _ _ _ _ _ _ _ _ _ _ _ _ Hw)|cbn; lia|cbn; lia|]. done.
  - eexists. split; [exact E|]. exists st, sz, pid, sb, cw, V', I', i', t'. split_and!; [done|done| |exact Hw'].
    rewrite Ec. cbn. by rewrite Nat2Z.id.
Qed.

Lemma kernel_swap_read x f c off n :
  holds_swap x f c → (off + n ≤ length c)%nat →
  ∃ x', fs_read_at f (Z.of_nat off) (Z.of_nat n) x = Ok (Z.of_nat n, take n (drop off c)) x' ∧ holds_swap x' f c.
Proof using.
  intros (st & sz & pid & sb & cw & V & I & i & t & Hly & Hlog & -> & Hw) Ho.
  pose proof (swap_size _ _ _ _ _ _ _ _ _ _ _ _ Hw) as Hz. pose proof (length_contents V i (proj1 Hz)) as Hlc.
  cbn [fs_read_at kernel_files].
  edestruct (on_inode_file_wp _ _ _ _ _ _ _ _ _ _ _ (λ f, readFromSwapFile f (Z.of_nat off) (Z.of_nat n))
    (λ r l, r = (Z.of_nat n, take n (drop off (contents V i))) ∧ ∃ I' i' t', swap_file st sz pid sb cw V I' i' t' (ffs l) (ftable l) (Z.to_nat f) ∧
       contents V i' = contents V i) Hw) as (r & l & E & -> & I' & i' & t' & Hw' & Ec).
  - unfold readFromSwapFile. apply wpe_bind. eapply fmodify_wp; [apply Hw|].
    eapply fileread_wp; [exact Hly|apply (swap_file_at _ _ _ _ _ _ _ _ _ _ _ _ _ Hw)|cbn; lia|lia|cbn; lia|].
    intros l' _ Hl. cbn [f_off set_foff]. rewrite !Nat2Z.id. by split.
  - eexists. split; [exact E|]. by exists st, sz, pid, sb, cw, V, I', i', t'.
Qed.

#[global] Instance kernel_swap : SwapFile kfs := {
  sf_holds := holds_swap; sf_write := kernel_swap_write; sf_read := kernel_swap_read }.
End Interface.

(** C15. The files of the kernel implement the interface of swap files: on an open
    file between operations, on a disk with room for 17 pages, a write at a position
    within the file, of any length up to the end of the 17th page, returns the number
    of bytes and replaces exactly these bytes, through the system calls, the log, the
    buffer cache and the disk; a read within the file returns its bytes; both leave a
    state in which the same holds. *)
Theorem kernel_swap_files `{Config} x f c :
  holds_swap x f c →
  (∀ off b, (off ≤ length c)%nat → Z.of_nat (off + length b) ≤ 17 * PGSIZE →
     ∃ x', fs_write_at f (Z.of_nat off) b x = Ok (Z.of_nat (length b)) x' ∧ holds_swap x' f (splice off b c)) ∧
  (∀ off n, (off + n ≤ length c)%nat →
     ∃ x', fs_read_at f (Z.of_nat off) (Z.of_nat n) x = Ok (Z.of_nat n, take n (drop off c)) x' ∧ holds_swap x' f c).
Proof. intros Hx. split; intros; [by apply kernel_swap_write|by apply kernel_swap_read]. Qed.

(** The demonstration disk with its file open for reading and writing. *)
Definition demo_log0 : log := set_outstanding 0 demo_log.
Definition demo_inode0 : inode := set_ilock (mkSleep false 0) demo_inode.
Definition demo_open : file := mkFile FD_INODE 1 true true 0 0 0.
Definition demo_kfs : kfs := mkKfs (mkFs (mkLst demo_bio demo_log0) mkfs_sb [demo_inode0] 0 demo_console) [demo_open] ∅.

Lemma demo_enough : enough mkfs_sb SWAPBLOCKS demo_V demo_inode.
Proof. apply Nat.leb_le. vm_compute. reflexivity. Qed.

Lemma demo_good : good_file mkfs_sb SWAPBLOCKS demo_V demo_inode0.
Proof.
  apply good_set_ilock. split.
  - by rewrite demo_inode_eq.
  - by rewrite demo_inode_eq.
  - rewrite demo_inode_eq. change (sb_ninodes mkfs_sb) with 200. cbn. lia.
  - exact demo_file_ok.
  - exact demo_filled.
  - exact demo_meta.
  - exact demo_enough.
Qed.

Lemma demo_layout0 : layout (cfg 2 30 1 1) mkfs_sb.
Proof. split; vm_compute; repeat split; discriminate. Qed.

Lemma demo_holds : ∃ c, holds_swap demo_kfs 0 c ∧ length c = Z.to_nat 1000.
Proof.
  exists (contents demo_V demo_inode0). split.
  - exists 2, 30, 1, mkfs_sb, 0%nat, demo_V, [demo_inode0], demo_inode0, demo_open.
    split; [exact demo_layout0|]. split; [lia|]. split; [reflexivity|]. split.
    + destruct demo_bio_ok as (Hi & Hv & Hp).
      exact (fs_start _ demo_log0 _ _ _ _ _ demo_console Hi (log_ok_outstanding _ _ 0 demo_log_ok) Hv Hp).
    + reflexivity.
    + by split_and!.
    + reflexivity.
    + unfold demo_inode0, inode_free. rewrite demo_inode_eq. split_and!; [cbn; lia|reflexivity|reflexivity].
    + exact demo_good.
  - unfold contents. rewrite length_frange. unfold demo_inode0. by rewrite demo_inode_eq.
Qed.

(** A page written behind the first 1000 bytes. *)
Lemma kernel_swap_files_witness :
  let _ := demo_config SCFIFO in ∃ x' c, fs_write_at 0 1000 (replicate (Z.to_nat PGSIZE) 7) demo_kfs = Ok PGSIZE x' ∧ holds_swap x' 0 (c ++ replicate (Z.to_nat PGSIZE) 7).
Proof.
  intros cf. destruct demo_holds as (c & Hc & Hl). destruct (kernel_swap_files demo_kfs 0 c Hc) as [Hw _].
  destruct (Hw (Z.to_nat 1000) (replicate (Z.to_nat PGSIZE) 7)) as (x' & Ex & Hx).
  - rewrite Hl. apply le_n.
  - rewrite length_replicate. unfold PGSIZE. lia.
  - exists x', c. rewrite length_replicate in Ex. split; [exact Ex|]. revert Hx. unfold splice.
    rewrite take_ge by lia. rewrite drop_ge by lia. by rewrite app_nil_r.
Defined.
