(* ===== verification/Ulib.v ===== *)
(** * Ulib: the library of the user programs, [ulib.c]

    A string that is only read is the list of its bytes up to the NUL, which is
    not part of the list; [nth] with default 0 reads the NUL.  Routines that
    write run on the flat memory of [Phys].  What a [read] of the standard input
    gives is a list of the bytes still to come. *)

From S2P Require Import Prelude Mmu Phys CString.

(** No byte of a string is the NUL. *)
Definition is_str (s : list Z) : Prop := ∀ c, c ∈ s → 0 < c < 256.

(** [while((c = *s++ = *t++) != 0)], with [t] the string at the source. *)
Fixpoint strcpy (m : memory) (s : Z) (t : list Z) : memory :=
  match t with
  | [] => st8 m s 0
  | c :: t' => strcpy (st8 m s c) (s + 1) t'
  end.

Fixpoint strcmp (p q : list Z) : Z :=
  match p with
  | [] => 0 - nth 0 q 0
  | c :: p' =>
      match q with
      | [] => c
      | d :: q' => if c =? d then strcmp p' q' else c - d
      end
  end.

Definition ustrlen (s : list Z) : Z := u32 (Z.of_nat (length s)).

Definition umemset (m : memory) (dst c : Z) (n : nat) : memory := stosb m dst c n.

(** The position of the first [c] in an array; a NUL ends the search. *)
Fixpoint strchr (s : list Z) (c : Z) : option nat :=
  match s with
  | [] => None
  | d :: s' => if d =? 0 then None else if d =? c then Some O else S <$> strchr s' c
  end.

(** [gets] into an array of [max] bytes: the array from its start, and what is
    left of the input. *)
Fixpoint gets_loop (n : nat) (inp : list Z) : list Z * list Z :=
  match n with
  | O => ([], inp)
  | S n' =>
      match inp with
      | [] => ([], [])
      | c :: inp' =>
          if (c =? 10) || (c =? 13) then ([c], inp')
          else let (l, r) := gets_loop n' inp' in (c :: l, r)
      end
  end.
Definition ugets (max : Z) (inp : list Z) : list Z * list Z :=
  let (l, r) := gets_loop (Z.to_nat (max - 1)) inp in (l ++ [0], r).

Fixpoint atoi_loop (n : Z) (s : list Z) : Z :=
  match s with
  | c :: s' => if (48 <=? c) && (c <=? 57) then atoi_loop (s32 (n * 10 + c - 48)) s' else n
  | [] => n
  end.
Definition atoi (s : list Z) : Z := atoi_loop 0 s.

(** The copy runs upwards whatever the two areas are. *)
Definition umemmove (m : memory) (dst src n : Z) : memory := copy_up m dst src (Z.to_nat n).

(** ** Facts *)

Lemma strcmp_eq p q : is_str p → is_str q → strcmp p q = 0 ↔ p = q.
Proof.
  revert q. induction p as [|c p IH]; intros [|d q] Hp Hq; cbn; try done.
  - assert (0 < d < 256) by (apply Hq; set_solver). split; [lia|done].
  - assert (0 < c < 256) by (apply Hp; set_solver). split; [lia|done].
  - destruct (Z.eqb_spec c d) as [->|Hne].
    + rewrite IH; [split; congruence|..]; intros x Hx; [apply Hp|apply Hq]; set_solver.
    + split; [lia|congruence].
Qed.

Lemma strchr_some s c k : c ≠ 0 → strchr s c = Some k ↔ ∃ l r, s = l ++ c :: r ∧ c ∉ l ∧ 0 ∉ l ∧ length l = k.
Proof.
  intros Hc. revert k. induction s as [|d s IH]; intros k; cbn [strchr].
  { split; [done|]. intros ([|] & r & E & _); discriminate E. }
  destruct (Z.eqb_spec d 0) as [->|H0]; [|destruct (Z.eqb_spec d c) as [->|Hne]].
  - split; [done|]. intros ([|x l] & r & E & H1 & H2 & Hl); injection E; [congruence|]. intros _ <-. set_solver.
  - split.
    + intros [= <-]. exists [], s. split_and!; [done|set_solver|set_solver|done].
    + intros ([|x l] & r & E & H1 & H2 & Hl); [by subst|]. injection E as E1 E2. subst x. set_solver.
  - rewrite fmap_Some. split.
    + intros (j & (l & r & -> & H1 & H2 & Hl)%IH & ->). exists (d :: l), r. split_and!; [done|set_solver|set_solver|cbn; lia].
    + intros ([|x l] & r & E & H1 & H2 & Hl); [cbn in E; congruence|]. injection E as E1 E2. subst. exists (length l). split; [|done].
      apply IH. exists l, r. split_and!; [done|set_solver|set_solver|done].
Qed.

Lemma strchr_none s c : 0 ∉ s → strchr s c = None → c ∉ s.
Proof.
  induction s as [|d s IH]; cbn [strchr]; [set_solver|]. intros H0. rewrite (proj2 (Z.eqb_neq d 0)) by set_solver.
  destruct (Z.eqb_spec d c) as [->|Hne]; [done|]. intros E. apply fmap_None in E. apply IH in E; set_solver.
Qed.

(** [memmove] of the library copies correctly when it does not copy upwards into
    its own source. *)
Lemma umemmove_ok m dst src n x :
  dst ≤ src ∨ src + n ≤ dst → 0 ≤ n → ld8 (umemmove m dst src n) x = ld8 (copy m dst src n) x.
Proof. intros Hd Hn. unfold umemmove. rewrite copy_up_spec by lia. by rewrite Z2Nat.id. Qed.
