(* ===== verification/Grep.v ===== *)
(** * Grep: the pattern matcher and the loop of [grep.c]

    The matcher of [grep] against regular expressions as sets of strings, and the
    buffering loop against the lines of its input. *)

From S2P Require Import Prelude Mmu Ulib.

Definition HAT := 94.
Definition STAR := 42.
Definition DOLLAR := 36.
Definition DOT := 46.
Definition NL := 10.

(** ** The matcher *)

(** The loop of [matchstar]; [here] is [matchhere] of the rest of the pattern. *)
Fixpoint star_loop (here : list Z → bool) (c : Z) (text : list Z) : bool :=
  if here text then true
  else match text with
       | [] => false
       | t :: text' => if (t =? c) || (c =? DOT) then star_loop here c text' else false
       end.

Fixpoint matchhere (re : list Z) : list Z → bool :=
  match re with
  | [] => λ _, true
  | r0 :: re1 =>
      let one := λ text,
        match text with
        | [] => false
        | t :: text' => if (r0 =? DOT) || (r0 =? t) then matchhere re1 text' else false
        end in
      match re1 with
      | r1 :: re2 => if r1 =? STAR then star_loop (matchhere re2) r0 else one
      | [] => if r0 =? DOLLAR then λ text, bool_decide (text = []) else one
      end
  end.

Definition matchstar (c : Z) (re text : list Z) : bool := star_loop (matchhere re) c text.

(** [do .. while( *text++ != 0)] *)
Fixpoint match_from (re text : list Z) : bool :=
  if matchhere re text then true
  else match text with [] => false | _ :: text' => match_from re text' end.

Definition match_ (re text : list Z) : bool :=
  match re with
  | r0 :: re' => if r0 =? HAT then matchhere re' text else match_from re text
  | [] => match_from re text
  end.

(** ** The loop over the input *)

(** The lines in the buffer from [p] on: what is printed, and what is left behind
    the last newline. *)
Fixpoint grep_lines (fuel : nat) (pattern p : list Z) : list Z * list Z :=
  match fuel with
  | O => ([], p)
  | S fuel' =>
      match strchr p NL with
      | None => ([], p)
      | Some q =>
          let line := take q p in
          let (out, rest) := grep_lines fuel' pattern (drop (S q) p) in
          ((if match_ pattern line then line ++ [NL] else []) ++ out, rest)
      end
  end.

Definition GREP_BUF : nat := 1024.

(** [rd n] is [read] of at most [n] bytes from the input.  [buf] are the [m] bytes
    kept in the buffer. *)
Fixpoint grep_loop {I} (rd : nat → I → list Z * I) (fuel : nat) (pattern buf : list Z) (inp : I) : option (list Z) :=
  match fuel with
  | O => None
  | S fuel' =>
      let (got, inp) := rd (GREP_BUF - length buf - 1)%nat inp in
      if bool_decide (got = []) then Some []
      else
        let b := buf ++ got in
        let (out, p) := grep_lines (S (length b)) pattern b in
        let keep := if bool_decide (length p = length b) then [] else p in
        rest ← grep_loop rd fuel' pattern keep inp;
        Some (out ++ rest)
  end.

(** A file: a read gives as many bytes as asked for, or as there are. *)
Definition read_file (n : nat) (inp : list Z) : list Z * list Z := (take n inp, drop n inp).
(** A pipe or a terminal: a read gives what has arrived. *)
Definition read_arrived (n : nat) (inp : list (list Z)) : list Z * list (list Z) :=
  match inp with
  | [] => ([], [])
  | c :: inp' => (take n c, if (length c <=? n)%nat then inp' else drop n c :: inp')
  end.

(** Every round reads at least one byte. *)
Definition grep (pattern inp : list Z) : option (list Z) := grep_loop read_file (S (length inp)) pattern [] inp.

(** ** Regular expressions *)

(** A character, or any number of a character; [.] stands for every character. *)
Inductive item := One (c : Z) | Many (c : Z).

Definition covers (c t : Z) : Prop := t = c ∨ c = DOT.

Inductive denotes : list item → list Z → Prop :=
  | den_nil : denotes [] []
  | den_one c t its w : covers c t → denotes its w → denotes (One c :: its) (t :: w)
  | den_many c l its w : Forall (covers c) l → denotes its w → denotes (Many c :: its) (l ++ w).

(** The items of a pattern, and whether it ends in [$]. *)
Fixpoint parse_re (re : list Z) : list item * bool :=
  match re with
  | [] => ([], false)
  | r0 :: re1 =>
      match re1 with
      | r1 :: re2 =>
          if r1 =? STAR then let (i, a) := parse_re re2 in (Many r0 :: i, a)
          else let (i, a) := parse_re re1 in (One r0 :: i, a)
      | [] => if r0 =? DOLLAR then ([], true) else ([One r0], false)
      end
  end.

(** A string that begins with a string of the expression; that is all of it when
    the pattern ends in [$]. *)
Definition begins (re text : list Z) : Prop :=
  ∃ w rest, text = w ++ rest ∧ denotes (parse_re re).1 w ∧ ((parse_re re).2 = true → rest = []).

Definition regex_matches (re text : list Z) : Prop :=
  match re with
  | r0 :: re' => if decide (r0 = HAT) then begins re' text else ∃ pre suf, text = pre ++ suf ∧ begins re suf
  | [] => ∃ pre suf, text = pre ++ suf ∧ begins re suf
  end.

(** ** The matcher decides them *)

Lemma covers_true c t : (t =? c) || (c =? DOT) = true ↔ covers c t.
Proof. rewrite orb_true_iff, !Z.eqb_eq. done. Qed.

Lemma star_loop_ok here (P : list Z → Prop) c text :
  (∀ t, here t = true ↔ P t) →
  star_loop here c text = true ↔ ∃ l rest, text = l ++ rest ∧ Forall (covers c) l ∧ P rest.
Proof.
  intros Hh. induction text as [|t text IH]; cbn [star_loop].
  - destruct (here []) eqn:E.
    + split; [|done]. intros _. exists [], []. split_and!; [done|constructor|by apply Hh].
    + split; [done|]. intros (l & rest & El & _ & HP). symmetry in El. apply app_nil in El as [-> ->]. by rewrite <- Hh, E in HP.
  - destruct (here (t :: text)) eqn:E.
    { split; [|done]. intros _. exists [], (t :: text). split_and!; [done|constructor|by apply Hh]. }
    destruct ((t =? c) || (c =? DOT)) eqn:Ec.
    + apply covers_true in Ec. rewrite IH. split.
      * intros (l & rest & -> & Hl & HP). exists (t :: l), rest. split_and!; [done|by constructor|done].
      * intros ([|x l] & rest & El & Hl & HP); [cbn in El; subst rest; by rewrite <- Hh, E in HP|].
        injection El as -> El. apply Forall_cons in Hl as [_ Hl]. by exists l, rest.
    + split; [done|]. intros ([|x l] & rest & El & Hl & HP); [cbn in El; subst rest; by rewrite <- Hh, E in HP|].
      injection El as -> El. apply Forall_cons in Hl as [Hx _]. apply covers_true in Hx. congruence.
Qed.

Lemma denotes_nil w : denotes [] w ↔ w = [].
Proof. split; [by inversion 1|intros ->; constructor]. Qed.
Lemma denotes_one c its w : denotes (One c :: its) w ↔ ∃ t w', w = t :: w' ∧ covers c t ∧ denotes its w'.
Proof.
  split; [inversion 1; subst; eauto|]. intros (t & w' & -> & ? & ?). by constructor.
Qed.
Lemma denotes_many c its w : denotes (Many c :: its) w ↔ ∃ l w', w = l ++ w' ∧ Forall (covers c) l ∧ denotes its w'.
Proof.
  split; [inversion 1; subst; eauto 6|]. intros (t & w' & -> & ? & ?). by constructor.
Qed.

Lemma begins_one (c : Z) re text its a :
  parse_re re = (One c :: its, a) →
  begins re text ↔ ∃ t text', text = t :: text' ∧ covers c t ∧
    ∃ w rest, text' = w ++ rest ∧ denotes its w ∧ (a = true → rest = []).
Proof.
  intros E. unfold begins. rewrite E. cbn [fst snd]. split.
  - intros (w & rest & -> & (t & w' & -> & Hc & Hw)%denotes_one & Ha). exists t, (w' ++ rest). split_and!; eauto 6.
  - intros (t & text' & -> & Hc & w & rest & -> & Hw & Ha). exists (t :: w), rest. split_and!; [done|by constructor|done].
Qed.

Lemma one_ok (c : Z) re its a (here : list Z → bool) text :
  parse_re re = (One c :: its, a) →
  (∀ t, here t = true ↔ ∃ w rest, t = w ++ rest ∧ denotes its w ∧ (a = true → rest = [])) →
  (match text with [] => false | t :: text' => if (c =? DOT) || (c =? t) then here text' else false end) = true ↔ begins re text.
Proof.
  intros E Hh. rewrite (begins_one c re text its a E). destruct text as [|t text].
  { split; [done|]. by intros (t & text' & E' & _). }
  destruct ((c =? DOT) || (c =? t)) eqn:Ec.
  - rewrite Hh. split; [|intros (t' & text' & [= <- <-] & _ & Hb); exact Hb]. intros Hb. exists t, text. split_and!; [done| |done].
    apply covers_true. rewrite orb_true_iff, !Z.eqb_eq in *. naive_solver.
  - split; [done|]. intros (t' & text' & [= <- <-] & Hc%covers_true & _). rewrite orb_true_iff, !Z.eqb_eq in Hc.
    rewrite orb_false_iff, !Z.eqb_neq in Ec. naive_solver.
Qed.

Lemma matchhere_ok n : ∀ re text, (length re ≤ n)%nat → matchhere re text = true ↔ begins re text.
Proof.
  induction n as [|n IH]; intros [|r0 re1] text Hl; cbn in Hl; try lia.
  - split; [|done]. intros _. exists [], text. split_and!; [done|constructor|done].
  - split; [|done]. intros _. exists [], text. split_and!; [done|constructor|done].
  - destruct re1 as [|r1 re2].
    + cbn [matchhere]. destruct (Z.eqb_spec r0 DOLLAR) as [->|Hd].
      * unfold begins. cbn. rewrite bool_decide_eq_true. split.
        -- intros ->. exists [], []. split_and!; [done|constructor|done].
        -- intros (w & rest & -> & ->%denotes_nil & ->); done.
      * apply (one_ok r0 [r0] [] false (matchhere [])); [cbn; by rewrite (proj2 (Z.eqb_neq r0 DOLLAR))|].
        intros t. split; [|done]. intros _. exists [], t. split_and!; [done|constructor|done].
    + cbn [matchhere]. destruct (Z.eqb_spec r1 STAR) as [->|Hs].
      * rewrite (star_loop_ok (matchhere re2) (begins re2) r0 text) by (intros t; apply IH; cbn in Hl; lia).
        unfold begins. cbn. destruct (parse_re re2) as [i a]. cbn. setoid_rewrite denotes_many. split.
        -- intros (l & rest & -> & Hl' & w & rest' & -> & Hw & Ha). exists (l ++ w), rest'. rewrite <- app_assoc. split_and!; eauto.
        -- intros (w & rest & -> & (l & w' & -> & Hl' & Hw) & Ha). exists l, (w' ++ rest). rewrite <- app_assoc. split_and!; eauto.
      * destruct (parse_re (r1 :: re2)) as [i a] eqn:Ep.
        apply (one_ok r0 (r0 :: r1 :: re2) i a (matchhere (r1 :: re2))).
        -- cbn [parse_re]. rewrite (proj2 (Z.eqb_neq r1 STAR)) by done. cbn [parse_re] in Ep. by rewrite Ep.
        -- intros t. rewrite (IH (r1 :: re2) t) by (cbn in *; lia). unfold begins. by rewrite Ep.
Qed.

Lemma match_from_ok re text : match_from re text = true ↔ ∃ pre suf, text = pre ++ suf ∧ begins re suf.
Proof.
  pose proof (λ t, matchhere_ok (length re) re t (Nat.le_refl _)) as Hm.
  induction text as [|t text IH]; cbn [match_from].
  - destruct (matchhere re []) eqn:E.
    + split; [|done]. intros _. exists [], []. by rewrite <- Hm.
    + split; [done|]. intros (pre & suf & El & Hb). symmetry in El. apply app_nil in El as [-> ->]. by rewrite <- Hm, E in Hb.
  - destruct (matchhere re (t :: text)) eqn:E.
    { split; [|done]. intros _. exists [], (t :: text). by rewrite <- Hm. }
    rewrite IH. split.
    + intros (pre & suf & -> & Hb). by exists (t :: pre), suf.
    + intros ([|x pre] & suf & El & Hb); [cbn in El; subst suf; by rewrite <- Hm, E in Hb|]. injection El as -> ->. by exists pre, suf.
Qed.

Lemma match_ok re text : match_ re text = true ↔ regex_matches re text.
Proof.
  unfold match_, regex_matches. destruct re as [|r0 re]; [apply match_from_ok|].
  destruct (Z.eqb_spec r0 HAT) as [->|Hne].
  - rewrite decide_True by done. by apply (matchhere_ok (length re)).
  - rewrite decide_False by done. apply match_from_ok.
Qed.

(** ** The loop prints the matching lines *)

(** A text of lines, each ended by a newline. *)
Definition unlines (ls : list (list Z)) : list Z := mjoin ((λ l, l ++ [NL]) <$> ls).
Definition selected (pattern : list Z) (ls : list (list Z)) : list (list Z) := filter (λ l, match_ pattern l = true) ls.

Record text_ok (ls : list (list Z)) : Prop := {
  tx_str : ∀ l, l ∈ ls → is_str l;
  tx_line : ∀ l, l ∈ ls → NL ∉ l;
  tx_len : ∀ l, l ∈ ls → (length l + 2 ≤ GREP_BUF)%nat
}.

Lemma text_ok_tail l ls : text_ok (l :: ls) → text_ok ls.
Proof. intros [H1 H2 H3]. split; intros x Hx; [apply H1|apply H2|apply H3]; set_solver. Qed.

Lemma unlines_cons l ls : unlines (l :: ls) = l ++ NL :: unlines ls.
Proof. unfold unlines. cbn. by rewrite <- app_assoc. Qed.
Lemma unlines_app l1 l2 : unlines (l1 ++ l2) = unlines l1 ++ unlines l2.
Proof. unfold unlines. by rewrite fmap_app, join_app. Qed.

Lemma unlines_str ls : text_ok ls → 0 ∉ unlines ls.
Proof.
  induction ls as [|l ls IH]; intros Ht; [set_solver|]. rewrite unlines_cons, elem_of_app, elem_of_cons.
  intros [H0|[H0|H0]]; [|done|by apply IH; [eapply text_ok_tail|]].
  assert (0 < 0 < 256) by (apply (tx_str _ Ht l); set_solver). lia.
Qed.

(** The first newline is where the first line ends. *)
Lemma split_first (l r l' r' : list Z) : l ++ NL :: r = l' ++ NL :: r' → NL ∉ l → NL ∉ l' → l = l' ∧ r = r'.
Proof.
  revert l'. induction l as [|x l IH]; intros [|x' l'] E H1 H2; cbn in E.
  - by injection E as ->.
  - injection E as <- _. set_solver.
  - injection E as -> _. set_solver.
  - injection E as -> E. apply IH in E as [-> ->]; [done|set_solver|set_solver].
Qed.

Lemma short_prefix (b rest l r : list Z) : b ++ rest = l ++ NL :: r → NL ∉ b → (length b ≤ length l)%nat.
Proof.
  intros E Hb. destruct (decide (length b ≤ length l)%nat) as [|Hn]; [done|]. destruct Hb.
  assert (Hx : b !! length l = Some NL).
  { rewrite <- (lookup_app_l b rest) by lia. rewrite E. by apply list_lookup_middle. }
  by eapply list_elem_of_lookup_2.
Qed.

Lemma grep_lines_ok pattern ls : ∀ b rest fuel,
  text_ok ls → b ++ rest = unlines ls → (length b < fuel)%nat →
  ∃ ls1 ls2 p, ls = ls1 ++ ls2 ∧ b = unlines ls1 ++ p ∧ NL ∉ p ∧ p ++ rest = unlines ls2 ∧
    grep_lines fuel pattern b = (unlines (selected pattern ls1), p).
Proof.
  induction ls as [|l ls IH]; intros b rest [|fuel] Ht E Hf; try lia; cbn [grep_lines].
  { apply app_nil in E as [-> ->]. exists [], [], []. split_and!; done || set_solver. }
  assert (H0 : 0 ∉ b) by (pose proof (unlines_str _ Ht); rewrite <- E in *; set_solver).
  destruct (strchr b NL) as [q|] eqn:Eq.
  - apply strchr_some in Eq as (l' & r & -> & H1 & _ & <-); [|done]. rewrite unlines_cons, <- app_assoc in E. cbn in E.
    apply split_first in E as [-> E]; [|done|apply (tx_line _ Ht); set_solver].
    rewrite length_app in Hf. cbn in Hf.
    destruct (IH r rest fuel (text_ok_tail _ _ Ht) E ltac:(lia)) as (ls1 & ls2 & p & -> & -> & Hp & Er & Eg).
    exists (l :: ls1), ls2, p. replace (S (length l)) with (length (l ++ [NL])) by (rewrite length_app; cbn; lia).
    replace (l ++ NL :: unlines ls1 ++ p) with ((l ++ [NL]) ++ unlines ls1 ++ p) by (by rewrite <- app_assoc).
    rewrite drop_app_length, Eg, <- app_assoc, take_app_length. split_and!; try done.
    + by rewrite unlines_cons, <- !app_assoc.
    + unfold selected. rewrite filter_cons. destruct (match_ pattern l) eqn:Em.
      * rewrite decide_True by done. by rewrite unlines_cons, <- app_assoc.
      * rewrite decide_False by done. done.
  - exists [], (l :: ls), b. split_and!; try done. by eapply strchr_none.
Qed.

Lemma grep_loop_ok pattern fuel : ∀ ls buf inp,
  text_ok ls → buf ++ inp = unlines ls → NL ∉ buf → (length inp < fuel)%nat →
  grep_loop read_file fuel pattern buf inp = Some (unlines (selected pattern ls)).
Proof.
  induction fuel as [|fuel IH]; intros ls buf inp Ht E Hb Hf; [lia|]. cbn [grep_loop read_file].
  destruct ls as [|l ls].
  { apply app_nil in E as [-> ->]. rewrite take_nil. done. }
  pose proof E as E'. rewrite unlines_cons in E'. pose proof (short_prefix _ _ _ _ E' Hb) as Hs.
  assert (Hl : (length l + 2 ≤ GREP_BUF)%nat) by (apply (tx_len _ Ht); set_solver).
  remember (GREP_BUF - length buf - 1)%nat as n eqn:En.
  assert (Hinp : inp ≠ []).
  { intros ->. rewrite app_nil_r in E'. destruct Hb. rewrite E'. set_solver. }
  assert (Hn : (0 < n)%nat) by lia. rewrite bool_decide_eq_false_2.
  2:{ destruct inp; [done|]. destruct n; [lia|done]. }
  assert (Ebr : (buf ++ take n inp) ++ drop n inp = unlines (l :: ls)) by (by rewrite <- app_assoc, take_drop).
  destruct (grep_lines_ok pattern (l :: ls) _ _ _ Ht Ebr (Nat.lt_succ_diag_r _)) as (ls1 & ls2 & p & Els & Eb & Hp & Er & Eg).
  rewrite Eg. assert (Hls1 : ls1 ≠ []).
  { intros ->. cbn in Els, Eb. subst ls2 p. assert (Hq : (length (buf ++ take n inp) ≤ length l)%nat).
    { eapply short_prefix; [|exact Hp]. by rewrite Er, unlines_cons. }
    rewrite length_app, length_take in Hq. destruct (decide (length inp ≤ n)%nat); [|lia].
    rewrite take_ge in Hp by done. rewrite E, unlines_cons in Hp. set_solver. }
  rewrite bool_decide_eq_false_2.
  2:{ rewrite Eb, length_app. destruct ls1 as [|l1 ls1]; [done|]. rewrite unlines_cons, length_app. cbn. lia. }
  assert (Ht2 : text_ok ls2).
  { destruct Ht as [H1 H2 H3]. rewrite Els in *. split; intros x Hx; [apply H1|apply H2|apply H3]; set_solver. }
  rewrite (IH ls2) by (done || (rewrite length_drop; destruct inp; [done|]; cbn in *; lia)).
  rewrite Els. unfold selected. by rewrite filter_app, unlines_app.
Qed.



(** A line that arrives in two pieces is lost, although it matches: the first
    piece holds no newline, and [p == buf] throws it away. *)
Lemma grep_loses_line :
  grep_loop read_arrived 10 [97] [] [[97; 98]; [99; NL]] = Some [] ∧
  grep_loop read_arrived 10 [97] [] [[97; 98; 99; NL]] = Some [97; 98; 99; NL].
Proof. by split. Qed.
