(* ===== verification/Sh.v ===== *)
(** * Sh: the shell, [sh.c]

    The parser works in place: it runs over the line in a static buffer with a
    pointer, cuts words out of it as pairs of pointers, allocates a node for
    each part of the command, and in the end overwrites the byte behind every
    word with NUL.  The model keeps the buffer, the pointer and the heap of
    nodes.  A pointer into the buffer is an index, a pointer to a node is its
    number, 0 is the null pointer.  What [runcmd] does, a sequence of system
    calls that depends on their results, is a value of the type [prog]. *)

From S2P Require Import Prelude Mmu Ulib.

Definition MAXARGS : nat := 10.

(** ** Nodes *)

Inductive node : Type :=
  | execcmd_ (argv eargv : list (option nat))
  | redircmd_ (cmd : nat) (file efile : nat) (mode fd : Z)
  | pipecmd_ (left right : nat)
  | listcmd_ (left right : nat)
  | backcmd_ (cmd : nat).

(** The nodes allocated so far, number [k + 1] at place [k]; [sh_room] is how many
    more [malloc] has memory for. *)
Record shst := mkSh { sh_buf : list Z; sh_ps : nat; sh_heap : list node; sh_room : nat }.
Definition set_buf (b : list Z) (s : shst) : shst := mkSh b (sh_ps s) (sh_heap s) (sh_room s).
Definition set_ps (p : nat) (s : shst) : shst := mkSh (sh_buf s) p (sh_heap s) (sh_room s).
Definition set_heap (h : list node) (s : shst) : shst := mkSh (sh_buf s) (sh_ps s) h (sh_room s).
Definition set_room (r : nat) (s : shst) : shst := mkSh (sh_buf s) (sh_ps s) (sh_heap s) r.

Definition node_at (h : list node) (p : nat) : option node := match p with O => None | S k => h !! k end.

(** [malloc] and [memset]; there is no test of the result of [malloc]. *)
Definition alloc_node (n : node) : M shst nat :=
  r ← gets sh_room;
  match r with
  | O => ub "memset of a null pointer"
  | S r' =>
      h ← gets sh_heap;
      modify (set_room r') ;;
      modify (set_heap (h ++ [n])) ;;
      mret (S (length h))
  end.

Definition execcmd : M shst nat := alloc_node (execcmd_ (replicate MAXARGS None) (replicate MAXARGS None)).
Definition redircmd (subcmd file efile : nat) (mode fd : Z) : M shst nat := alloc_node (redircmd_ subcmd file efile mode fd).
Definition pipecmd (left right : nat) : M shst nat := alloc_node (pipecmd_ left right).
Definition listcmd (left right : nat) : M shst nat := alloc_node (listcmd_ left right).
Definition backcmd (subcmd : nat) : M shst nat := alloc_node (backcmd_ subcmd).

(** [cmd->argv[i] = q; cmd->eargv[i] = eq;] *)
Definition set_arg (cmd i : nat) (q eq : option nat) : M shst unit :=
  h ← gets sh_heap;
  match node_at h cmd with
  | Some (execcmd_ av ev) =>
      if (i <? MAXARGS)%nat then modify (set_heap (<[pred cmd := execcmd_ (<[i:=q]> av) (<[i:=eq]> ev)]> h))
      else ub "argument vector overflow"
  | _ => ub "not an execcmd"
  end.

(** ** Tokens *)

Definition whitespace : list Z := [32; 9; 13; 10; 11].
Definition symbols : list Z := [60; 124; 62; 38; 59; 40; 41].
Definition is_in (l : list Z) (c : Z) : bool := match strchr l c with Some _ => true | None => false end.
Definition word_char (c : Z) : bool := negb (is_in whitespace c) && negb (is_in symbols c).

(** [while(s < es && ok( *s)) s++], [n] being [es - s]. *)
Fixpoint skip (ok : Z → bool) (n : nat) (buf : list Z) (s : nat) : nat :=
  match n with
  | O => s
  | S n' => if ok (nth s buf 0) then skip ok n' buf (S s) else s
  end.

Definition char_at (s : nat) : M shst Z :=
  buf ← gets sh_buf;
  match buf !! s with Some c => mret c | None => ub "read behind the buffer" end.

Definition skip_white (es s : nat) : M shst nat := buf ← gets sh_buf; mret (skip (is_in whitespace) (es - s) buf s).

(** The result, [q] and [eq]. *)
Definition gettoken (es : nat) : M shst (Z * nat * nat) :=
  s ← gets sh_ps;
  q ← skip_white es s;
  c ← char_at q;
  '(ret, eq) ←
    (if c =? 0 then mret (c, q)
     else if is_in [124; 40; 41; 59; 38; 60] c then mret (c, S q)
     else if c =? 62 then
       d ← char_at (S q);
       mret (if d =? 62 then (43, S (S q)) else (c, S q))
     else
       buf ← gets sh_buf;
       mret (97, skip word_char (es - q) buf q));
  s ← skip_white es eq;
  modify (set_ps s) ;;
  mret (ret, q, eq).

Definition peek (es : nat) (toks : list Z) : M shst bool :=
  s ← gets sh_ps;
  s ← skip_white es s;
  modify (set_ps s) ;;
  c ← char_at s;
  mret (negb (c =? 0) && is_in toks c).

(** ** The parser *)

Definition O_RDONLY := 0.
Definition O_WRONLY := 1.
Definition O_CREATE := 512.

Fixpoint parseredirs (fuel : nat) (cmd es : nat) : M shst nat :=
  match fuel with
  | O => fail NoFuel
  | S fuel' =>
      b ← peek es [60; 62];
      if b : bool then
        '(tok, _, _) ← gettoken es;
        '(t, q, eq) ← gettoken es;
        if negb (t =? 97) then panic "missing file for redirection"
        else
          cmd ←
            (if tok =? 60 then redircmd cmd q eq O_RDONLY 0
             else if tok =? 62 then redircmd cmd q eq (Z.lor O_WRONLY O_CREATE) 1
             else if tok =? 43 then redircmd cmd q eq (Z.lor O_WRONLY O_CREATE) 1
             else mret cmd);
          parseredirs fuel' cmd es
      else mret cmd
  end.

(** The loop of [parseexec] over the arguments. *)
Fixpoint parseargs (fuel : nat) (cmd ret argc es : nat) : M shst nat :=
  match fuel with
  | O => fail NoFuel
  | S fuel' =>
      let finish := set_arg cmd argc None None ;; mret ret in
      b ← peek es [124; 41; 38; 59];
      if b : bool then finish
      else
        '(tok, q, eq) ← gettoken es;
        if tok =? 0 then finish
        else if negb (tok =? 97) then panic "syntax"
        else
          set_arg cmd argc (Some q) (Some eq) ;;
          let argc := S argc in
          if (MAXARGS <=? argc)%nat then panic "too many args"
          else
            ret ← parseredirs fuel' ret es;
            parseargs fuel' cmd ret argc es
  end.

(** [while(peek(ps, es, "&")) { gettoken(ps, es, 0, 0); cmd = backcmd(cmd); }] *)
Fixpoint parsebacks (fuel : nat) (cmd es : nat) : M shst nat :=
  match fuel with
  | O => fail NoFuel
  | S fuel' =>
      b ← peek es [38];
      if b : bool then gettoken es ;; cmd ← backcmd cmd; parsebacks fuel' cmd es
      else mret cmd
  end.

Fixpoint parseline (fuel es : nat) {struct fuel} : M shst nat :=
  match fuel with
  | O => fail NoFuel
  | S fuel' =>
      cmd ← parsepipe fuel' es;
      cmd ← parsebacks fuel' cmd es;
      b ← peek es [59];
      if b : bool then
        gettoken es ;;
        right ← parseline fuel' es;
        listcmd cmd right
      else mret cmd
  end
with parsepipe (fuel es : nat) {struct fuel} : M shst nat :=
  match fuel with
  | O => fail NoFuel
  | S fuel' =>
      cmd ← parseexec fuel' es;
      b ← peek es [124];
      if b : bool then
        gettoken es ;;
        right ← parsepipe fuel' es;
        pipecmd cmd right
      else mret cmd
  end
with parseblock (fuel es : nat) {struct fuel} : M shst nat :=
  match fuel with
  | O => fail NoFuel
  | S fuel' =>
      b ← peek es [40];
      if negb b then panic "parseblock"
      else
        gettoken es ;;
        cmd ← parseline fuel' es;
        b ← peek es [41];
        if negb b then panic "syntax - missing )"
        else
          gettoken es ;;
          parseredirs fuel' cmd es
  end
with parseexec (fuel es : nat) {struct fuel} : M shst nat :=
  match fuel with
  | O => fail NoFuel
  | S fuel' =>
      b ← peek es [40];
      if b : bool then parseblock fuel' es
      else
        cmd ← execcmd;
        ret ← parseredirs fuel' cmd es;
        parseargs fuel' cmd ret 0 es
  end.

(** [*p = 0] *)
Definition put_nul (p : nat) : M shst unit :=
  buf ← gets sh_buf;
  if (p <? length buf)%nat then modify (set_buf (<[p:=0]> buf)) else ub "write behind the buffer".

(** [for(i=0; ecmd->argv[i]; i++) *ecmd->eargv[i] = 0;] over what is left of the
    two arrays. *)
Fixpoint nul_args (argv eargv : list (option nat)) : M shst unit :=
  match argv, eargv with
  | None :: _, _ => mret tt
  | Some _ :: argv', Some e :: eargv' => put_nul e ;; nul_args argv' eargv'
  | _, _ => ub "argument vector"
  end.

Fixpoint nulterminate (fuel : nat) (cmd : nat) : M shst nat :=
  match fuel with
  | O => fail NoFuel
  | S fuel' =>
      if (cmd =? 0)%nat then mret 0%nat
      else
        h ← gets sh_heap;
        match node_at h cmd with
        | Some (execcmd_ av ev) => nul_args av ev
        | Some (redircmd_ c _ ef _ _) => nulterminate fuel' c ;; put_nul ef
        | Some (pipecmd_ l r) => nulterminate fuel' l ;; nulterminate fuel' r ;; mret tt
        | Some (listcmd_ l r) => nulterminate fuel' l ;; nulterminate fuel' r ;; mret tt
        | Some (backcmd_ c) => nulterminate fuel' c ;; mret tt
        | None => ub "wild pointer"
        end ;;
        mret cmd
  end.

(** The string at the start of an array. *)
Fixpoint cstr (l : list Z) : list Z :=
  match l with
  | [] => []
  | c :: l' => if c =? 0 then [] else c :: cstr l'
  end.

(** The pointer starts at the beginning of the buffer.  A nesting takes four calls
    and at least one byte. *)
Definition parsecmd : M shst nat :=
  buf ← gets sh_buf;
  let es := length (cstr buf) in
  modify (set_ps 0) ;;
  cmd ← parseline (4 * es + 4) es;
  peek es [] ;;
  s ← gets sh_ps;
  if negb (s =? es)%nat then panic "syntax"
  else
    h ← gets sh_heap;
    nulterminate (S (length h)) cmd ;;
    mret cmd.

(** ** Running commands *)

(** A process of the shell: a system call and what it does with the result.
    [fork] gives 0 in the child. *)
Inductive prog : Type :=
  | Exit
  | Exec (path : list Z) (argv : list (list Z)) (failed : prog)
  | Open (path : list Z) (mode : Z) (k : Z → prog)
  | Close (fd : Z) (k : prog)
  | Dup (fd : Z) (k : prog)
  | Pipe (k : option (Z * Z) → prog)
  | Fork (k : Z → prog)
  | Wait (k : prog)
  | Chdir (path : list Z) (k : Z → prog)
  | Print (fd : Z) (msg : list Z) (k : prog)
  | Stuck.

Notation text_of := bytes_of_string.
Definition newline : list Z := [10].

Definition sh_panic (msg : string) : prog := Print 2 (text_of msg ++ newline) Exit.
Definition fork1 (k : Z → prog) : prog := Fork (λ pid, if pid =? -1 then sh_panic "fork" else k pid).

(** The strings of an argument vector. *)
Fixpoint argv_of (buf : list Z) (av : list (option nat)) : list (list Z) :=
  match av with
  | Some q :: av' => cstr (drop q buf) :: argv_of buf av'
  | _ => []
  end.

(** The branch of [runcmd] for each kind of node; [run] is [runcmd] itself. *)
Definition run_exec (buf : list Z) (av : list (option nat)) : prog :=
  match argv_of buf av with
  | [] => Exit
  | path :: _ as argv => Exec path argv (Print 2 (text_of "exec " ++ path ++ text_of " failed" ++ newline) Exit)
  end.
Definition run_redir (file : list Z) (mode fd : Z) (sub : prog) : prog :=
  Close fd (Open file mode (λ r, if r <? 0 then Print 2 (text_of "open " ++ file ++ text_of " failed" ++ newline) Exit else sub)).
Definition run_list (left right : prog) : prog := fork1 (λ pid, if pid =? 0 then left else Wait right).
Definition run_pipe (left right : prog) : prog :=
  Pipe (λ o,
    match o with
    | None => sh_panic "pipe"
    | Some (p0, p1) =>
        fork1 (λ pid, if pid =? 0 then Close 1 (Dup p1 (Close p0 (Close p1 left))) else
        fork1 (λ pid, if pid =? 0 then Close 0 (Dup p0 (Close p0 (Close p1 right))) else
        Close p0 (Close p1 (Wait (Wait Exit)))))
    end).
Definition run_back (sub : prog) : prog := fork1 (λ pid, if pid =? 0 then sub else Exit).

Fixpoint runcmd (fuel : nat) (buf : list Z) (h : list node) (cmd : nat) : prog :=
  match fuel with
  | O => Stuck
  | S fuel' =>
      let run := runcmd fuel' buf h in
      if (cmd =? 0)%nat then Exit
      else
        match node_at h cmd with
        | Some (execcmd_ av _) => run_exec buf av
        | Some (redircmd_ c file _ mode fd) => run_redir (cstr (drop file buf)) mode fd (run c)
        | Some (listcmd_ l r) => run_list (run l) (run r)
        | Some (pipecmd_ l r) => run_pipe (run l) (run r)
        | Some (backcmd_ c) => run_back (run c)
        | None => Stuck
        end
  end.

(** ** The main loop *)

Definition NBUF_SH : nat := 100.

(** The buffer after [memset] and [gets], what is left of the input, and the result. *)
Definition getcmd (inp : list Z) : list Z * list Z * Z :=
  let (l, inp) := ugets (Z.of_nat NBUF_SH) inp in
  let buf := take NBUF_SH (l ++ replicate NBUF_SH 0) in
  (buf, inp, if nth 0 buf 0 =? 0 then -1 else 0).

Definition O_RDWR := 2.
(** [while((fd = open("console", O_RDWR)) >= 0)] *)
Fixpoint open_std (fuel : nat) (k : prog) : prog :=
  match fuel with
  | O => Stuck
  | S fuel' =>
      Open (text_of "console") O_RDWR (λ fd,
        if fd <? 0 then k
        else if 3 <=? fd then Close fd k
        else open_std fuel' k)
  end.

(** [runcmd(parsecmd(buf))] in the child, with memory for [room] nodes. *)
Definition run_line (room : nat) (buf : list Z) : prog :=
  match parsecmd (mkSh buf 0 [] room) with
  | Ok p s => runcmd (S (length (sh_heap s))) (sh_buf s) (sh_heap s) p
  | Err (Panic msg) => sh_panic msg
  | Err _ => Stuck
  end.

Fixpoint sh_loop (room fuel : nat) (inp : list Z) : prog :=
  match fuel with
  | O => Stuck
  | S fuel' =>
      Print 2 (text_of "$ ")
        (let '(buf, inp, r) := getcmd inp in
         if r <? 0 then Exit
         else if (nth 0 buf 0 =? 99) && (nth 1 buf 0 =? 100) && (nth 2 buf 0 =? 32) then
           let path := cstr (drop 3 (<[pred (length (cstr buf)):=0]> buf)) in
           Chdir path (λ r,
             if r <? 0 then Print 2 (text_of "cannot cd " ++ path ++ newline) (sh_loop room fuel' inp)
             else sh_loop room fuel' inp)
         else
           fork1 (λ pid, if pid =? 0 then run_line room buf else Wait (sh_loop room fuel' inp)))
  end.

(** Every line takes at least one byte of the input. *)
Definition sh_main (room : nat) (inp : list Z) : prog := open_std 17 (sh_loop room (S (length inp)) inp).
