(* ===== verification/ShSpec.v ===== *)
(** * ShSpec: the parser of the shell against its grammar

    The grammar of command lines is a relation between lists of tokens and
    trees.  A recursive descent parser on tokens decides it.  The parser of
    [sh.c] does the same work as that one, in place: it returns a pointer to a
    structure in which the tree can be read, with the words as NUL-terminated
    strings in the line itself. *)

From S2P Require Import Prelude Mmu Ulib Sh.

(** ** Trees and tokens *)

Inductive cmd : Type :=
  | EXEC (argv : list (list Z))
  | REDIR (c : cmd) (file : list Z) (mode fd : Z)
  | PIPE (left right : cmd)
  | LIST (left right : cmd)
  | BACK (c : cmd).

Inductive token : Type := Word (w : list Z) | Sym (c : Z).

(** [>>] is the symbol [43], a plus sign. *)
Fixpoint lex (s : list Z) : list token :=
  match s with
  | [] => []
  | c :: r =>
      if is_in whitespace c then lex r
      else if c =? 62 then
        match r with
        | d :: r' => if d =? 62 then Sym 43 :: lex r' else Sym 62 :: lex r
        | [] => [Sym 62]
        end
      else if is_in symbols c then Sym c :: lex r
      else
        match r with
        | d :: _ =>
            if word_char d then match lex r with Word w :: ts => Word (c :: w) :: ts | ts => Word [c] :: ts end
            else Word [c] :: lex r
        | [] => [Word [c]]
        end
  end.

(** ** The grammar *)

(** A redirection: symbol, file name; mode and descriptor that it stands for. *)
Record redir := mkRedir { rd_file : list Z; rd_mode : Z; rd_fd : Z }.
Definition redir_of (c : Z) (w : list Z) : redir :=
  if c =? 60 then mkRedir w O_RDONLY 0 else mkRedir w (Z.lor O_WRONLY O_CREATE) 1.
Definition wrap : list redir → cmd → cmd := fold_left (λ c r, REDIR c (rd_file r) (rd_mode r) (rd_fd r)).
Definition backs (n : nat) (c : cmd) : cmd := Nat.iter n BACK c.

Inductive g_redirs : list token → list redir → Prop :=
  | g_redirs_nil : g_redirs [] []
  | g_redirs_cons c w ts rs : c ∈ [60; 62; 43] → g_redirs ts rs → g_redirs (Sym c :: Word w :: ts) (redir_of c w :: rs).

(** Words and redirections in any order. *)
Inductive g_args : list token → list (list Z) → list redir → Prop :=
  | g_args_nil : g_args [] [] []
  | g_args_word w ts1 rs1 ts ws rs : g_redirs ts1 rs1 → g_args ts ws rs → g_args (Word w :: ts1 ++ ts) (w :: ws) (rs1 ++ rs).

Inductive g_line : list token → cmd → Prop :=
  | g_line_one ts c n : g_pipe ts c → g_line (ts ++ replicate n (Sym 38)) (backs n c)
  | g_line_more ts c n ts' c' :
      g_pipe ts c → g_line ts' c' → g_line (ts ++ replicate n (Sym 38) ++ Sym 59 :: ts') (LIST (backs n c) c')
with g_pipe : list token → cmd → Prop :=
  | g_pipe_one ts c : g_exec ts c → g_pipe ts c
  | g_pipe_more ts c ts' c' : g_exec ts c → g_pipe ts' c' → g_pipe (ts ++ Sym 124 :: ts') (PIPE c c')
with g_exec : list token → cmd → Prop :=
  | g_exec_block ts c ts' rs : g_line ts c → g_redirs ts' rs → g_exec (Sym 40 :: ts ++ Sym 41 :: ts') (wrap rs c)
  | g_exec_simple ts rs ts' ws rs' :
      g_redirs ts rs → g_args ts' ws rs' → (length ws < MAXARGS)%nat → g_exec (ts ++ ts') (wrap (rs ++ rs') (EXEC ws)).

Scheme g_line_ind' := Induction for g_line Sort Prop
  with g_pipe_ind' := Induction for g_pipe Sort Prop
  with g_exec_ind' := Induction for g_exec Sort Prop.
Combined Scheme grammar_ind from g_line_ind', g_pipe_ind', g_exec_ind'.

(** ** The parser on tokens *)

Definition tokens := M (list token).

(** The first token as [peek] sees it. *)
Definition head_in (toks : list Z) (ts : list token) : bool :=
  match ts with Sym c :: _ => is_in toks (if c =? 43 then 62 else c) | _ => false end.
Definition t_peek (toks : list Z) : tokens bool := gets (head_in toks).
Definition t_next : tokens (option token) := λ ts, Ok (head ts) (tail ts).

Fixpoint t_redirs (fuel : nat) : tokens (list redir) :=
  match fuel with
  | O => fail NoFuel
  | S fuel' =>
      b ← t_peek [60; 62];
      if b : bool then
        o ← t_next;
        w ← t_next;
        match o, w with
        | Some (Sym c), Some (Word w) => rs ← t_redirs fuel'; mret (redir_of c w :: rs)
        | _, _ => panic "missing file for redirection"
        end
      else mret []
  end.

Fixpoint t_args (fuel argc : nat) : tokens (list (list Z) * list redir) :=
  match fuel with
  | O => fail NoFuel
  | S fuel' =>
      b ← t_peek [124; 41; 38; 59];
      if b : bool then mret ([], [])
      else
        o ← t_next;
        match o with
        | None => mret ([], [])
        | Some (Sym _) => panic "syntax"
        | Some (Word w) =>
            if (MAXARGS <=? S argc)%nat then panic "too many args"
            else
              rs ← t_redirs fuel';
              '(ws, rs') ← t_args fuel' (S argc);
              mret (w :: ws, rs ++ rs')
        end
  end.

Fixpoint t_backs (fuel : nat) : tokens nat :=
  match fuel with
  | O => fail NoFuel
  | S fuel' =>
      b ← t_peek [38];
      if b : bool then t_next ;; n ← t_backs fuel'; mret (S n) else mret 0%nat
  end.

Fixpoint t_line (fuel : nat) : tokens cmd :=
  match fuel with
  | O => fail NoFuel
  | S fuel' =>
      c ← t_pipe fuel';
      n ← t_backs fuel';
      b ← t_peek [59];
      if b : bool then t_next ;; r ← t_line fuel'; mret (LIST (backs n c) r)
      else mret (backs n c)
  end
with t_pipe (fuel : nat) : tokens cmd :=
  match fuel with
  | O => fail NoFuel
  | S fuel' =>
      c ← t_exec fuel';
      b ← t_peek [124];
      if b : bool then t_next ;; r ← t_pipe fuel'; mret (PIPE c r)
      else mret c
  end
with t_block (fuel : nat) : tokens cmd :=
  match fuel with
  | O => fail NoFuel
  | S fuel' =>
      b ← t_peek [40];
      if negb b then panic "parseblock"
      else
        t_next ;;
        c ← t_line fuel';
        b ← t_peek [41];
        if negb b then panic "syntax - missing )"
        else
          t_next ;;
          rs ← t_redirs fuel';
          mret (wrap rs c)
  end
with t_exec (fuel : nat) : tokens cmd :=
  match fuel with
  | O => fail NoFuel
  | S fuel' =>
      b ← t_peek [40];
      if b : bool then t_block fuel'
      else
        rs ← t_redirs fuel';
        '(ws, rs') ← t_args fuel' 0;
        mret (wrap (rs ++ rs') (EXEC ws))
  end.

(** ** It accepts what the grammar derives *)

Lemma head_in_inv toks ts : head_in toks ts = true → ∃ c ts', ts = Sym c :: ts' ∧ is_in toks (if c =? 43 then 62 else c) = true.
Proof. destruct ts as [|[w|c] ts]; try done. intros Hc. by exists c, ts. Qed.


Lemma is_in_spec l c : 0 ∉ l → is_in l c = true ↔ c ∈ l.
Proof.
  intros H0. unfold is_in. induction l as [|d l IH]; cbn [strchr]; [set_solver|].
  rewrite (proj2 (Z.eqb_neq d 0)) by set_solver. destruct (Z.eqb_spec d c) as [->|]; [set_solver|].
  rewrite elem_of_cons. destruct (strchr l c); cbn; set_solver.
Qed.
Lemma redir_sym c : is_in [60; 62] (if c =? 43 then 62 else c) = true → c ∈ [60; 62; 43].
Proof. rewrite is_in_spec by set_solver. destruct (Z.eqb_spec c 43) as [->|]; set_solver. Qed.
Lemma sym_of d c : d ≠ 0 → d ≠ 62 → is_in [d] (if c =? 43 then 62 else c) = true → c = d.
Proof. intros H1 H2. rewrite is_in_spec by set_solver. destruct (Z.eqb_spec c 43) as [->|]; set_solver. Qed.
Lemma peek_one d ts : d ≠ 0 → d ≠ 62 → head_in [d] ts = true → ∃ ts', ts = Sym d :: ts'.
Proof. intros H1 H2 (c & ts' & -> & Hc)%head_in_inv. apply sym_of in Hc; [|done|done]. subst. by eexists. Qed.

Lemma t_redirs_sound fuel : ∀ ts rs ts', t_redirs fuel ts = Ok rs ts' → ∃ u, ts = u ++ ts' ∧ g_redirs u rs.
Proof.
  induction fuel as [|fuel IH]; intros ts rs ts' E; [done|]. cbn [t_redirs] in E.
  apply bind_inv in E as (b & ts1 & [= <- <-] & E). destruct (head_in [60; 62] ts) eqn:Hb.
  - apply head_in_inv in Hb as (c & ts1 & -> & Hc). apply bind_inv in E as (o & ts2 & [= <- <-] & E).
    apply bind_inv in E as (o & ts2 & [= <- <-] & E). destruct ts1 as [|[w|d] ts1]; try done. cbn in E.
    apply bind_inv in E as (rs1 & ts2 & (u & -> & Hu)%IH & [= <- <-]).
    exists (Sym c :: Word w :: u). split; [done|]. constructor; [by apply redir_sym|done].
  - injection E as <- <-. exists []. split; [done|constructor].
Qed.

Lemma t_args_sound fuel : ∀ argc ts ws rs ts',
  t_args fuel argc ts = Ok (ws, rs) ts' → (argc < MAXARGS)%nat → ∃ u, ts = u ++ ts' ∧ g_args u ws rs ∧ (argc + length ws < MAXARGS)%nat.
Proof.
  induction fuel as [|fuel IH]; intros argc ts ws rs ts' E Ha; [done|]. cbn [t_args] in E.
  assert (Hn : ∃ u, ts = u ++ ts ∧ g_args u [] [] ∧ (argc + 0 < MAXARGS)%nat) by (exists []; split_and!; [done|constructor|lia]).
  apply bind_inv in E as (b & ts1 & [= <- <-] & E). destruct (head_in _ ts) eqn:Hb; [by injection E as <- <- <-|].
  apply bind_inv in E as (o & ts1 & [= <- <-] & E). destruct ts as [|[w|c] ts]; [by injection E as <- <- <-| |done]. cbn [head tail] in E.
  destruct (Nat.leb_spec MAXARGS (S argc)) as [|Hlt]; [done|].
  apply bind_inv in E as (rs1 & ts2 & (u1 & -> & Hu1)%t_redirs_sound & E).
  apply bind_inv in E as ([ws2 rs2] & ts3 & (u2 & -> & Hu2 & Hl)%IH & [= <- <- <-]); [|done].
  exists (Word w :: u1 ++ u2). split_and!; [cbn; by rewrite <- app_assoc|by constructor|cbn; lia].
Qed.

Lemma t_backs_sound fuel : ∀ ts n ts', t_backs fuel ts = Ok n ts' → ts = replicate n (Sym 38) ++ ts'.
Proof.
  induction fuel as [|fuel IH]; intros ts n ts' E; [done|]. cbn [t_backs] in E.
  apply bind_inv in E as (b & ts1 & [= <- <-] & E). destruct (head_in [38] ts) eqn:Hb; [|by injection E as <- <-].
  apply peek_one in Hb as [ts1 ->]; [|done|done]. apply bind_inv in E as (o & ts2 & [= <- <-] & E).
  apply bind_inv in E as (m & ts2 & ->%IH & [= <- <-]). done.
Qed.

Lemma t_sound fuel :
  (∀ ts c ts', t_line fuel ts = Ok c ts' → ∃ u, ts = u ++ ts' ∧ g_line u c) ∧
  (∀ ts c ts', t_pipe fuel ts = Ok c ts' → ∃ u, ts = u ++ ts' ∧ g_pipe u c) ∧
  (∀ ts c ts', t_block fuel ts = Ok c ts' → ∃ u, ts = u ++ ts' ∧ g_exec u c) ∧
  (∀ ts c ts', t_exec fuel ts = Ok c ts' → ∃ u, ts = u ++ ts' ∧ g_exec u c).
Proof.
  induction fuel as [|fuel (IHl & IHp & IHb & IHe)]; [by split_and!|]. split_and!; intros ts c ts' E; cbn in E.
  - apply bind_inv in E as (c1 & ts1 & (u1 & -> & Hu1)%IHp & E). apply bind_inv in E as (n & ts2 & ->%t_backs_sound & E).
    apply bind_inv in E as (b & ts3 & [= <- <-] & E). destruct (head_in [59] ts2) eqn:Hb.
    + apply peek_one in Hb as [ts3 ->]; [|done|done]. apply bind_inv in E as (o & ts4 & [= <- <-] & E).
      apply bind_inv in E as (r & ts4 & (u2 & -> & Hu2)%IHl & [= <- <-]).
      exists (u1 ++ replicate n (Sym 38) ++ Sym 59 :: u2). split; [by rewrite <- !app_assoc|by constructor].
    + injection E as <- <-. exists (u1 ++ replicate n (Sym 38)). split; [by rewrite <- app_assoc|by constructor].
  - apply bind_inv in E as (c1 & ts1 & (u1 & -> & Hu1)%IHe & E). apply bind_inv in E as (b & ts3 & [= <- <-] & E).
    destruct (head_in [124] ts1) eqn:Hb.
    + apply peek_one in Hb as [ts3 ->]; [|done|done]. apply bind_inv in E as (o & ts4 & [= <- <-] & E).
      apply bind_inv in E as (r & ts4 & (u2 & -> & Hu2)%IHp & [= <- <-]).
      exists (u1 ++ Sym 124 :: u2). split; [by rewrite <- app_assoc|by constructor].
    + injection E as <- <-. exists u1. split; [done|by constructor].
  - apply bind_inv in E as (b & ts3 & [= <- <-] & E). destruct (head_in [40] ts) eqn:Hb; [|done].
    apply peek_one in Hb as [ts3 ->]; [|done|done]. apply bind_inv in E as (o & ts4 & [= <- <-] & E).
    apply bind_inv in E as (r & ts4 & (u2 & -> & Hu2)%IHl & E). apply bind_inv in E as (b & ts5 & [= <- <-] & E).
    destruct (head_in [41] ts4) eqn:Hb; [|done]. apply peek_one in Hb as [ts5 ->]; [|done|done].
    apply bind_inv in E as (o & ts6 & [= <- <-] & E). apply bind_inv in E as (rs & ts6 & (u3 & -> & Hu3)%t_redirs_sound & [= <- <-]).
    exists (Sym 40 :: u2 ++ Sym 41 :: u3). split; [cbn; by rewrite <- app_assoc|by constructor].
  - apply bind_inv in E as (b & ts3 & [= <- <-] & E). destruct (head_in [40] ts) eqn:Hb; [by apply IHb|].
    apply bind_inv in E as (rs & ts6 & (u3 & -> & Hu3)%t_redirs_sound & E).
    apply bind_inv in E as ([ws rs'] & ts7 & (u4 & -> & Hu4 & Hl)%t_args_sound & [= <- <-]); [|unfold MAXARGS; lia].
    exists (u3 ++ u4). split; [by rewrite <- app_assoc|by constructor].
Qed.

(** ** It finds every derivation *)

(** What can follow a part: nothing, or one of the symbols. *)
Definition follow (l : list Z) (ts : list token) : Prop := match ts with [] => True | Sym c :: _ => c ∈ l | _ => False end.

Lemma follow_head l toks ts : follow l ts → 0 ∉ toks → (∀ c, c ∈ l → c ≠ 43 ∧ c ∉ toks) → head_in toks ts = false.
Proof.
  destruct ts as [|[w|c] ts]; try done. cbn. intros Hc H0 Hl. destruct (Hl c Hc) as [H1 H2]. rewrite (proj2 (Z.eqb_neq c 43)) by done.
  apply not_true_is_false. by rewrite is_in_spec.
Qed.
Lemma follow_in l toks ts : follow l ts → 0 ∉ toks → (∀ c, c ∈ l → c ≠ 43 ∧ c ∈ toks) → ts ≠ [] → head_in toks ts = true.
Proof.
  destruct ts as [|[w|c] ts]; try done. cbn. intros Hc H0 Hl _. destruct (Hl c Hc) as [H1 H2]. rewrite (proj2 (Z.eqb_neq c 43)) by done.
  by rewrite is_in_spec.
Qed.
Lemma follow_mono l l' ts : follow l ts → l ⊆ l' → follow l' ts.
Proof. destruct ts as [|[w|c] ts]; try done. cbn. set_solver. Qed.
Lemma head_in_sym toks c ts : c ≠ 43 → 0 ∉ toks → c ∈ toks → head_in toks (Sym c :: ts) = true.
Proof. intros H1 H0 Hc. cbn. rewrite (proj2 (Z.eqb_neq c 43)) by done. by rewrite is_in_spec. Qed.

(** Where redirections, arguments, and the larger parts end. *)
Definition after_exec : list Z := [124; 41; 38; 59].
Definition after_pipe : list Z := [41; 38; 59].
Definition after_line : list Z := [41].

Lemma peek_false {A} toks ts (f : bool → tokens A) : head_in toks ts = false → (t_peek toks ≫= f) ts = f false ts.
Proof. intros E. unfold mbind, M_bind, t_peek, gets. by rewrite E. Qed.
Lemma peek_true {A} toks ts (f : bool → tokens A) : head_in toks ts = true → (t_peek toks ≫= f) ts = f true ts.
Proof. intros E. unfold mbind, M_bind, t_peek, gets. by rewrite E. Qed.
Lemma next_cons {A} t ts (f : option token → tokens A) : (t_next ≫= f) (t :: ts) = f (Some t) ts.
Proof. done. Qed.

(** A token that begins no redirection. *)
Definition no_redir (ts : list token) : Prop := head_in [60; 62] ts = false.

Lemma t_redirs_complete u rs : g_redirs u rs → ∀ rest fuel, no_redir rest → (length (u ++ rest) < fuel)%nat → t_redirs fuel (u ++ rest) = Ok rs rest.
Proof.
  induction 1 as [|c w u rs Hc Hu IH]; intros rest fuel Hr Hf; (destruct fuel as [|fuel]; [lia|]); cbn [t_redirs].
  - by rewrite peek_false.
  - cbn [app]. rewrite peek_true; [|cbn; rewrite is_in_spec by set_solver; destruct (Z.eqb_spec c 43); set_solver].
    rewrite !next_cons. cbn beta iota. rewrite (bind_ok _ _ _ rs rest); [done|]. apply IH; [done|]. cbn in Hf. lia.
Qed.

Lemma no_redir_follow rest : follow after_exec rest → no_redir rest.
Proof. intros H. eapply follow_head; [exact H|set_solver|unfold after_exec; set_solver]. Qed.
Lemma no_redir_args u ws rs rest : g_args u ws rs → follow after_exec rest → no_redir (u ++ rest).
Proof. intros [|w ts1 rs1 ts ws' rs' _ _] H; [by apply no_redir_follow|done]. Qed.

Lemma t_args_complete u ws rs : g_args u ws rs → ∀ rest fuel argc,
  follow after_exec rest → (length (u ++ rest) < fuel)%nat → (argc + length ws < MAXARGS)%nat → t_args fuel argc (u ++ rest) = Ok (ws, rs) rest.
Proof.
  induction 1 as [|w ts1 rs1 ts ws rs H1 H2 IH]; intros rest fuel argc Hr Hf Ha; (destruct fuel as [|fuel]; [lia|]); cbn [t_args].
  - destruct (decide (rest = [])) as [->|Hne]; [done|]. rewrite peek_true; [done|].
    eapply follow_in; [exact Hr|set_solver|unfold after_exec; set_solver|done].
  - cbn [app]. rewrite peek_false by done. rewrite next_cons. cbn [length] in Ha. rewrite (proj2 (Nat.leb_gt _ _)) by lia.
    rewrite <- app_assoc. cbn in Hf. rewrite <- app_assoc in Hf.
    rewrite (bind_ok _ _ _ rs1 (ts ++ rest)); [|apply t_redirs_complete; [done|by eapply no_redir_args|lia]].
    rewrite length_app in Hf. rewrite (bind_ok _ _ _ (ws, rs) rest); [done|]. apply IH; [done|lia|lia].
Qed.

Lemma t_backs_complete n : ∀ rest fuel, head_in [38] rest = false → (n < fuel)%nat → t_backs fuel (replicate n (Sym 38) ++ rest) = Ok n rest.
Proof.
  induction n as [|n IH]; intros rest fuel Hr Hf; (destruct fuel as [|fuel]; [lia|]); cbn [t_backs].
  - by rewrite peek_false.
  - cbn [replicate app]. rewrite peek_true by done. rewrite next_cons. rewrite (bind_ok _ _ _ n rest); [done|]. apply IH; [done|lia].
Qed.

Lemma no_paren_args u ws rs rest : g_args u ws rs → follow after_exec rest → head_in [40] (u ++ rest) = false.
Proof. intros [|w ts1 rs1 ts ws' rs' _ _] H; [|done]. eapply follow_head; [exact H|set_solver|unfold after_exec; set_solver]. Qed.
Lemma no_paren_redirs u rs rest : g_redirs u rs → head_in [40] rest = false → head_in [40] (u ++ rest) = false.
Proof. intros [|c w ts rs' Hc _] H; [done|]. cbn. apply not_true_is_false. rewrite is_in_spec by set_solver. destruct (Z.eqb_spec c 43); set_solver. Qed.
Lemma follow_replicate n l rest : follow (38 :: l) rest → follow (38 :: l) (replicate n (Sym 38) ++ rest).
Proof. destruct n; [done|]. cbn. set_solver. Qed.

Lemma t_complete :
  (∀ u c, g_line u c → ∀ rest fuel, follow after_line rest → (4 * length (u ++ rest) + 4 ≤ fuel)%nat → t_line fuel (u ++ rest) = Ok c rest) ∧
  (∀ u c, g_pipe u c → ∀ rest fuel, follow after_pipe rest → (4 * length (u ++ rest) + 3 ≤ fuel)%nat → t_pipe fuel (u ++ rest) = Ok c rest) ∧
  (∀ u c, g_exec u c → ∀ rest fuel, follow after_exec rest → (4 * length (u ++ rest) + 2 ≤ fuel)%nat → t_exec fuel (u ++ rest) = Ok c rest).
Proof.
  apply grammar_ind.
  - intros u c n _ IH rest fuel Hr Hf. destruct fuel as [|fuel]; [lia|]. cbn [t_line]. rewrite <- app_assoc in *.
    rewrite (bind_ok _ _ _ c (replicate n (Sym 38) ++ rest)); [|apply IH; [|lia]].
    2:{ apply follow_mono with (38 :: [41; 59]); [|unfold after_pipe; set_solver]. apply follow_replicate. eapply follow_mono; [exact Hr|unfold after_line; set_solver]. }
    rewrite (bind_ok _ _ _ n rest); [|apply t_backs_complete; [eapply follow_head; [exact Hr|set_solver|unfold after_line; set_solver]|]].
    2:{ rewrite !length_app, length_replicate in Hf. lia. }
    rewrite peek_false; [done|]. eapply follow_head; [exact Hr|set_solver|unfold after_line; set_solver].
  - intros u c n u' c' _ IH _ IH' rest fuel Hr Hf. destruct fuel as [|fuel]; [lia|]. cbn [t_line].
    assert (El : (u ++ replicate n (Sym 38) ++ Sym 59 :: u') ++ rest = u ++ replicate n (Sym 38) ++ Sym 59 :: u' ++ rest) by (by rewrite <- !app_assoc).
    rewrite El in *. rewrite (bind_ok _ _ _ c (replicate n (Sym 38) ++ Sym 59 :: u' ++ rest)); [|apply IH; [|lia]].
    2:{ apply follow_mono with (38 :: [41; 59]); [|unfold after_pipe; set_solver]. apply follow_replicate. cbn. set_solver. }
    rewrite length_app, length_app, length_replicate in Hf. cbn [length] in Hf.
    rewrite (bind_ok _ _ _ n (Sym 59 :: u' ++ rest)); [|apply t_backs_complete; [done|lia]].
    rewrite peek_true by done. rewrite next_cons. rewrite (bind_ok _ _ _ c' rest); [done|]. apply IH'; [done|lia].
  - intros u c _ IH rest fuel Hr Hf. destruct fuel as [|fuel]; [lia|]. cbn [t_pipe].
    rewrite (bind_ok _ _ _ c rest); [|apply IH; [eapply follow_mono; [exact Hr|unfold after_pipe, after_exec; set_solver]|lia]].
    rewrite peek_false; [done|]. eapply follow_head; [exact Hr|set_solver|unfold after_pipe; set_solver].
  - intros u c u' c' _ IH _ IH' rest fuel Hr Hf. destruct fuel as [|fuel]; [lia|]. cbn [t_pipe]. rewrite <- app_assoc in *. cbn [app] in *.
    rewrite (bind_ok _ _ _ c (Sym 124 :: u' ++ rest)); [|apply IH; [cbn; unfold after_exec; set_solver|lia]].
    rewrite peek_true by done. rewrite next_cons. rewrite length_app in Hf. cbn [length] in Hf.
    rewrite (bind_ok _ _ _ c' rest); [done|]. apply IH'; [done|lia].
  - intros u c u' rs _ IH Hu' rest fuel Hr Hf. destruct fuel as [|[|fuel]]; [lia|lia|]. cbn [t_exec app] in *. rewrite <- app_assoc in *.
    rewrite peek_true by done. cbn [t_block]. rewrite peek_true by done. cbn [negb]. rewrite next_cons. cbn [length app] in *.
    rewrite (bind_ok _ _ _ c (Sym 41 :: u' ++ rest)); [|apply IH; [cbn; unfold after_line; set_solver|lia]].
    rewrite peek_true by done. cbn [negb]. rewrite next_cons. rewrite length_app in Hf. cbn [length] in Hf.
    rewrite (bind_ok _ _ _ rs rest); [done|]. apply t_redirs_complete; [done|by apply no_redir_follow|lia].
  - intros u rs u' ws rs' Hu Hu' Hl rest fuel Hr Hf. destruct fuel as [|fuel]; [lia|]. cbn [t_exec]. rewrite <- app_assoc in *.
    rewrite peek_false; [|eapply no_paren_redirs; [exact Hu|by eapply no_paren_args]].
    rewrite (bind_ok _ _ _ rs (u' ++ rest)); [|apply t_redirs_complete; [done|by eapply no_redir_args|lia]].
    rewrite length_app in Hf. rewrite (bind_ok _ _ _ (ws, rs') rest); [done|]. apply t_args_complete; [done|done|lia|lia].
Qed.

(** ** It always ends *)

Definition sh_panics : list string := ["syntax"; "missing file for redirection"; "syntax - missing )"; "too many args"].
(** The outcome of a part: fewer tokens, or one of the messages. *)
Definition ends {A} (c : tokens A) (ts : list token) : Prop :=
  match c ts with Ok _ ts' => (length ts' ≤ length ts)%nat | Err e => ∃ msg, e = Panic msg ∧ msg ∈ sh_panics end.

Lemma ends_bind {A B} (c : tokens A) (f : A → tokens B) ts :
  ends c ts → (∀ a ts', (length ts' ≤ length ts)%nat → ends (f a) ts') → ends (c ≫= f) ts.
Proof.
  unfold ends, mbind, M_bind. destruct (c ts) as [a ts'|e]; [|done]. intros Hl Hf. specialize (Hf a ts' Hl).
  destruct (f a ts'); [lia|done].
Qed.
Lemma ends_ret {A} (a : A) ts : ends (mret a) ts.
Proof. unfold ends, mret, M_ret. lia. Qed.
Lemma ends_panic {A} msg ts : msg ∈ sh_panics → ends (A := A) (panic msg) ts.
Proof. intros. by exists msg. Qed.
Lemma ends_peek {A} toks (f : bool → tokens A) ts :
  (head_in toks ts = true → ends (f true) ts) → (head_in toks ts = false → ends (f false) ts) → ends (t_peek toks ≫= f) ts.
Proof. intros H1 H2. unfold ends. destruct (head_in toks ts) eqn:E; [rewrite peek_true by done; by apply H1|rewrite peek_false by done; by apply H2]. Qed.
Lemma ends_next {A} (f : option token → tokens A) t ts : ends (f (Some t)) ts → ends (t_next ≫= f) (t :: ts).
Proof. unfold ends. rewrite next_cons. cbn [length]. destruct (f _ ts); [lia|done]. Qed.

Lemma ends_next_nil {A} (f : option token → tokens A) : ends (f None) [] → ends (t_next ≫= f) [].
Proof. done. Qed.

Lemma t_redirs_ends fuel : ∀ ts, (length ts < fuel)%nat → ends (t_redirs fuel) ts.
Proof.
  induction fuel as [|fuel IH]; intros ts Hf; [lia|]. cbn [t_redirs]. apply ends_peek; [|intros; apply ends_ret].
  intros (c & ts' & -> & Hc)%head_in_inv. apply ends_next. destruct ts' as [|[w|d] ts'].
  - apply ends_next_nil, ends_panic. unfold sh_panics. set_solver.
  - apply ends_next. cbn in Hf. apply ends_bind; [apply IH; lia|]. intros. apply ends_ret.
  - apply ends_next, ends_panic. unfold sh_panics. set_solver.
Qed.
Lemma t_args_ends fuel : ∀ argc ts, (length ts < fuel)%nat → ends (t_args fuel argc) ts.
Proof.
  induction fuel as [|fuel IH]; intros argc ts Hf; [lia|]. cbn [t_args]. apply ends_peek; intros Hh; [apply ends_ret|].
  destruct ts as [|[w|d] ts]; [apply ends_next_nil, ends_ret| |apply ends_next, ends_panic; unfold sh_panics; set_solver].
  apply ends_next. case_match; [apply ends_panic; unfold sh_panics; set_solver|]. cbn in Hf.
  apply ends_bind; [apply t_redirs_ends; lia|]. intros rs ts' Hl. apply ends_bind; [apply IH; lia|]. intros [ws rs'] ? ?. apply ends_ret.
Qed.
Lemma t_backs_ends fuel : ∀ ts, (length ts < fuel)%nat → ends (t_backs fuel) ts.
Proof.
  induction fuel as [|fuel IH]; intros ts Hf; [lia|]. cbn [t_backs]. apply ends_peek; [|intros; apply ends_ret].
  intros (c & ts' & -> & Hc)%head_in_inv. apply ends_next. cbn in Hf. apply ends_bind; [apply IH; lia|]. intros. apply ends_ret.
Qed.

Lemma t_ends fuel :
  (∀ ts, (4 * length ts + 4 ≤ fuel)%nat → ends (t_line fuel) ts) ∧ (∀ ts, (4 * length ts + 3 ≤ fuel)%nat → ends (t_pipe fuel) ts) ∧
  (∀ ts, (4 * length ts + 1 ≤ fuel)%nat → head_in [40] ts = true → ends (t_block fuel) ts) ∧ (∀ ts, (4 * length ts + 2 ≤ fuel)%nat → ends (t_exec fuel) ts).
Proof.
  induction fuel as [|fuel (IHl & IHp & IHb & IHe)]; [split_and!; intros; lia|]. split_and!; intros ts Hf; cbn.
  - apply ends_bind; [apply IHp; lia|]. intros c ts1 H1. apply ends_bind; [apply t_backs_ends; lia|]. intros n ts2 H2.
    apply ends_peek; [|intros; apply ends_ret]. intros (d & ts' & -> & Hc)%head_in_inv. apply ends_next. cbn [length] in H2.
    apply ends_bind; [apply IHl; lia|]. intros. apply ends_ret.
  - apply ends_bind; [apply IHe; lia|]. intros c ts1 H1. apply ends_peek; [|intros; apply ends_ret].
    intros (d & ts' & -> & Hc)%head_in_inv. apply ends_next. cbn [length] in H1. apply ends_bind; [apply IHp; lia|]. intros. apply ends_ret.
  - intros Hh. apply ends_peek; [|congruence]. intros (d & ts' & -> & Hc)%head_in_inv. apply ends_next. cbn [length] in Hf.
    apply ends_bind; [apply IHl; lia|]. intros c ts1 H1. apply ends_peek; cbn [negb]; [|intros; apply ends_panic; unfold sh_panics; set_solver].
    intros (d' & ts2 & -> & Hc')%head_in_inv. apply ends_next. cbn [length] in H1. apply ends_bind; [apply t_redirs_ends; lia|]. intros. apply ends_ret.
  - apply ends_peek; [intros; apply IHb; [lia|done]|]. intros _. apply ends_bind; [apply t_redirs_ends; lia|]. intros rs ts1 H1.
    apply ends_bind; [apply t_args_ends; lia|]. intros [ws rs'] ? ?. apply ends_ret.
Qed.

(** A whole line. *)
Definition t_parse (fuel : nat) : tokens cmd :=
  c ← t_line fuel;
  ts ← gets id;
  match ts with [] => mret c | _ => panic "syntax" end.

Lemma t_parse_spec fuel ts : (4 * length ts + 4 ≤ fuel)%nat →
  match t_parse fuel ts with
  | Ok c ts' => ts' = [] ∧ ∀ c', g_line ts c' ↔ c' = c
  | Err e => (∀ c, ¬ g_line ts c) ∧ ∃ msg, e = Panic msg ∧ msg ∈ sh_panics
  end.
Proof.
  intros Hf. assert (Hc : ∀ c, g_line ts c → t_line fuel ts = Ok c []).
  { intros c Hg. pose proof (proj1 t_complete ts c Hg [] fuel Logic.I) as E. rewrite app_nil_r in E. by apply E. }
  pose proof (proj1 (t_ends fuel) ts Hf) as He. unfold ends in He. unfold t_parse, mbind, M_bind, gets.
  destruct (t_line fuel ts) as [c ts'|e] eqn:El.
  - destruct ts' as [|t ts'].
    + split; [done|]. intros c'. split; [intros Hg; by injection (Hc c' Hg)|]. intros ->.
      destruct (proj1 (t_sound fuel) _ _ _ El) as (u & -> & Hu). by rewrite app_nil_r.
    + split; [intros c' Hg; by specialize (Hc c' Hg)|]. exists "syntax". split; [done|]. unfold sh_panics. set_solver.
  - split; [|done]. intros c Hg. by specialize (Hc c Hg).
Qed.
