(* ===== verification/ShParse.v ===== *)
(** * ShParse: the parser in place does what the parser on tokens does

    The line is [text], followed in the buffer by a NUL and anything else. *)

From S2P Require Import Prelude Mmu Ulib Sh ShSpec.

(** ** Characters *)

Lemma whitespace_word c : is_in whitespace c = true → word_char c = false.
Proof. unfold word_char. by intros ->. Qed.
Lemma symbol_word c : is_in symbols c = true → word_char c = false.
Proof. unfold word_char. intros ->. by rewrite andb_false_r. Qed.
Lemma word_chars c : word_char c = true → is_in whitespace c = false ∧ is_in symbols c = false.
Proof. unfold word_char. rewrite andb_true_iff, !negb_true_iff. done. Qed.

Definition stops (r : list Z) : Prop := match r with [] => True | c :: _ => word_char c = false end.

Lemma lex_white c r : is_in whitespace c = true → lex (c :: r) = lex r.
Proof. cbn [lex]. by intros ->. Qed.
Lemma lex_word w r : w ≠ [] → (∀ c, c ∈ w → word_char c = true) → stops r → lex (w ++ r) = Word w :: lex r.
Proof.
  induction w as [|c w IH]; intros Hne Hw Hr; [done|]. destruct (word_chars c) as [H1 H2]; [apply Hw; set_solver|].
  cbn [app lex]. rewrite H1, H2. destruct (Z.eqb_spec c 62) as [->|_]; [done|]. destruct w as [|d w].
  - cbn [app]. destruct r as [|d r]; [done|]. cbn in Hr. by rewrite Hr.
  - cbn [app]. rewrite (Hw d) by set_solver. change (d :: w ++ r) with ((d :: w) ++ r). rewrite IH; [done|done|set_solver|done].
Qed.
Lemma lex_sym c r : c ∈ [60; 124; 38; 59; 40; 41] → lex (c :: r) = Sym c :: lex r.
Proof.
  intros Hc. cbn [lex]. rewrite !elem_of_cons, elem_of_nil in Hc.
  destruct Hc as [->|[->|[->|[->|[->|[->|[]]]]]]]; reflexivity.
Qed.

Lemma symbol_cases c : c ∈ symbols → c ≠ 62 → c ∈ [60; 124; 38; 59; 40; 41].
Proof. unfold symbols. set_solver. Qed.
Lemma symbol_plus c : c ∈ symbols → c ≠ 43.
Proof. unfold symbols. set_solver. Qed.
Lemma single_cases c : c ∈ [124; 40; 41; 59; 38; 60] ↔ c ∈ [60; 124; 38; 59; 40; 41].
Proof. set_solver. Qed.
Lemma single_char c : c ∈ [124; 40; 41; 59; 38; 60] → c ≠ 0 ∧ c ≠ 97.
Proof. set_solver. Qed.
Lemma single_zero : 0 ∉ [124; 40; 41; 59; 38; 60].
Proof. set_solver. Qed.
Lemma symbol_zero : 0 ∉ symbols.
Proof. unfold symbols. set_solver. Qed.

(** ** Skipping *)

Lemma skip_spec ok n : ∀ buf s, (s + n ≤ length buf)%nat →
  let s' := skip ok n buf s in
  (s ≤ s' ≤ s + n)%nat ∧ (∀ k, (s ≤ k < s')%nat → ok (nth k buf 0) = true) ∧ ((s' < s + n)%nat → ok (nth s' buf 0) = false).
Proof.
  induction n as [|n IH]; intros buf s Hn; cbn [skip].
  - split; [lia|]. split; intros; lia.
  - destruct (ok (nth s buf 0)) eqn:E.
    + destruct (IH buf (S s)) as (H1 & H2 & H3); [lia|]. split; [lia|]. split; [|intros; apply H3; lia].
      intros k Hk. destruct (decide (k = s)) as [->|]; [done|]. apply H2. lia.
    + split; [lia|]. split; [intros; lia|done].
Qed.

(** Two runs that give related results or fail alike. *)
Definition sim {A B} (P : A → B → shst → list token → Prop) (c : M shst A) (d : tokens B) (s : shst) (ts : list token) : Prop :=
  match c s, d ts with
  | Ok a s', Ok b ts' => P a b s' ts'
  | Err e, Err e' => e = e'
  | _, _ => False
  end.

Lemma sim_bind {A B A' B'} (P : A → B → shst → list token → Prop) (Q : A' → B' → shst → list token → Prop) c d f g s ts :
  sim P c d s ts → (∀ a b s' ts', P a b s' ts' → sim Q (f a) (g b) s' ts') → sim Q (c ≫= f) (d ≫= g) s ts.
Proof.
  unfold sim, mbind, M_bind. destruct (c s) as [a s'|e], (d ts) as [b ts'|e']; try done. intros HP Hf. by apply Hf.
Qed.
Lemma sim_mono {A B} (P Q : A → B → shst → list token → Prop) c d s ts :
  sim P c d s ts → (∀ a b s' ts', P a b s' ts' → Q a b s' ts') → sim Q c d s ts.
Proof. unfold sim. destruct (c s), (d ts); try done. auto. Qed.
Lemma sim_ret {A B} (P : A → B → shst → list token → Prop) a b s ts : P a b s ts → sim P (mret a) (mret b) s ts.
Proof. done. Qed.
Lemma sim_left {A A' B} (P : A → B → shst → list token → Prop) (c : M shst A') (f : A' → M shst A) d s ts a s' :
  c s = Ok a s' → sim P (f a) d s' ts → sim P (c ≫= f) d s ts.
Proof. unfold sim, mbind, M_bind. by intros ->. Qed.
Lemma sim_panic {A B} (P : A → B → shst → list token → Prop) msg s ts : sim P (panic msg) (panic msg) s ts.
Proof. done. Qed.

Section Line.
Context (text rest : list Z).
Hypothesis Htext : is_str text.
Notation buf := (text ++ 0 :: rest).
Notation es := (length text).

Lemma buf_text k : (k < es)%nat → nth k buf 0 = nth k text 0.
Proof using. intros. by rewrite app_nth1. Qed.
Lemma drop_text k : (k < es)%nat → drop k text = nth k text 0 :: drop (S k) text.
Proof using. clear Htext. revert k. induction text as [|c t IH]; intros [|k] Hk; cbn in *; try lia; [done|]. apply IH. lia. Qed.
Lemma buf_char k : (k ≤ es)%nat → buf !! k = Some (nth k buf 0).
Proof using. clear Htext. intros. destruct (nth_lookup_or_length buf k 0) as [|Hl]; [done|]. rewrite length_app in Hl. cbn in Hl. lia. Qed.
Lemma buf_end : nth es buf 0 = 0.
Proof using. clear Htext. rewrite app_nth2 by lia. by rewrite Nat.sub_diag. Qed.
Lemma text_char k : (k < es)%nat → 0 < nth k text 0.
Proof using Htext. intros Hk. apply Htext. destruct (nth_lookup_or_length text k 0) as [E|]; [|lia]. by eapply list_elem_of_lookup_2. Qed.

Lemma skip_text ok a : (a ≤ es)%nat →
  let a' := skip ok (es - a) buf a in
  (a ≤ a' ≤ es)%nat ∧ (∀ k, (a ≤ k < a')%nat → ok (nth k text 0) = true) ∧ ((a' < es)%nat → ok (nth a' text 0) = false).
Proof using.
  clear Htext. intros Ha a'. destruct (skip_spec ok (es - a) buf a) as (H1 & H2 & H3); [rewrite length_app; cbn; lia|]. fold a' in H1, H2, H3.
  split; [lia|]. split; [intros k Hk; rewrite <- buf_text by lia; by apply H2|intros Hk; rewrite <- buf_text by lia; apply H3; lia].
Qed.

Lemma skip_white_text a : (a ≤ es)%nat →
  let a' := skip (is_in whitespace) (es - a) buf a in
  (a ≤ a' ≤ es)%nat ∧ lex (drop a' text) = lex (drop a text) ∧ ((a' < es)%nat → is_in whitespace (nth a' text 0) = false).
Proof using.
  clear Htext. intros Ha a'. destruct (skip_text (is_in whitespace) a Ha) as (H1 & H2 & H3). fold a' in H1, H2, H3.
  split; [done|]. split; [|done]. clear H3. clearbody a'. remember (a' - a)%nat as n eqn:En. revert a Ha En H1 H2.
  induction n as [|n IH]; intros a Ha En H1 H2; [f_equal; f_equal; lia|].
  rewrite (drop_text a) by lia. rewrite lex_white by (apply H2; lia). apply (IH (S a)); [lia|lia|lia|]. intros. apply H2. lia.
Qed.

(** A word and the pointers to its ends. *)
Record is_word (q e : nat) (w : list Z) : Prop := {
  iw_range : (q < e ≤ es)%nat;
  iw_text : drop q text = w ++ drop e text;
  iw_chars : ∀ k, (q ≤ k < e)%nat → word_char (nth k text 0) = true;
  iw_end : (e < es)%nat → word_char (nth e text 0) = false
}.

(** ** States of the parser *)

(** At [ts], with memory for [k] nodes more than the tokens can need. *)
Record at_ (k : nat) (s : shst) (ts : list token) : Prop := {
  at_buf : sh_buf s = buf;
  at_ps : (sh_ps s ≤ es)%nat;
  at_toks : lex (drop (sh_ps s) text) = ts;
  at_room : (2 * length ts + k ≤ sh_room s)%nat
}.

Lemma at_less k s ts ts' : at_ k s ts → (length ts' ≤ length ts)%nat → ∀ a, (a ≤ es)%nat → lex (drop a text) = ts' → at_ k (set_ps a s) ts'.
Proof using. clear Htext. intros [H1 H2 H3 H4] Hl a Ha E. split; cbn; [done|done|done|lia]. Qed.

Lemma skip_white_run a s : sh_buf s = buf → skip_white es a s = Ok (skip (is_in whitespace) (es - a) buf a) s.
Proof using. clear Htext. intros E. unfold skip_white, mbind, M_bind, gets. by rewrite E. Qed.
Lemma char_at_run a s : sh_buf s = buf → (a ≤ es)%nat → char_at a s = Ok (nth a buf 0) s.
Proof using. clear Htext. intros E Ha. unfold char_at, mbind, M_bind, gets. by rewrite E, buf_char. Qed.

Lemma head_in_char a toks : 0 ∉ toks → 43 ∉ toks → (∀ c, c ∈ toks → c ∈ symbols) → (a ≤ es)%nat →
  ((a < es)%nat → is_in whitespace (nth a text 0) = false) →
  negb (nth a buf 0 =? 0) && is_in toks (nth a buf 0) = head_in toks (lex (drop a text)).
Proof using Htext.
  intros H0 H43 Hs Ha Hw. destruct (decide (a = es)) as [->|Hne].
  { rewrite buf_end, drop_all. done. }
  assert (Hlt : (a < es)%nat) by lia. pose proof (text_char a Hlt) as Hpos. rewrite buf_text, (drop_text a) by done.
  rewrite (proj2 (Z.eqb_neq _ 0)) by lia. cbn [negb andb]. specialize (Hw Hlt). set (c := nth a text 0) in *.
  destruct (is_in toks c) eqn:Et.
  - rewrite is_in_spec in Et by done. pose proof (Hs c Et) as Hc.
    destruct (Z.eqb_spec c 62) as [E|Hn].
    + cbn [lex]. rewrite E in *. rewrite Hw. cbn [Z.eqb]. destruct (drop (S a) text) as [|d r]; [cbn; by rewrite (proj2 (is_in_spec _ _ H0))|].
      destruct (d =? 62); cbn; by rewrite (proj2 (is_in_spec _ _ H0)).
    + rewrite lex_sym by (by apply symbol_cases). cbn. rewrite (proj2 (Z.eqb_neq c 43)) by (by apply symbol_plus). by rewrite (proj2 (is_in_spec _ _ H0)).
  - cbn [lex]. rewrite Hw. destruct (Z.eqb_spec c 62) as [E|Hn].
    + rewrite E in Et. destruct (drop (S a) text) as [|d r]; [done|]. by destruct (d =? 62).
    + destruct (is_in symbols c) eqn:Es.
      * cbn. rewrite (proj2 (Z.eqb_neq c 43)); [done|]. apply symbol_plus. by rewrite is_in_spec in Es by exact symbol_zero.
      * destruct (drop (S a) text) as [|d r]; [done|]. destruct (word_char d); [|done]. by destruct (lex (d :: r)) as [|[]].
Qed.

Lemma peek_run k s ts toks : at_ k s ts → 0 ∉ toks → 43 ∉ toks → (∀ c, c ∈ toks → c ∈ symbols) →
  ∃ a, peek es toks s = Ok (head_in toks ts) (set_ps a s) ∧ at_ k (set_ps a s) ts ∧ (a = es ↔ ts = []).
Proof using Htext.
  intros Hat H0 H43 Hs. pose proof Hat as [H1 H2 H3 H4]. destruct (skip_white_text (sh_ps s) H2) as (Ha & El & Hw).
  set (a := skip (is_in whitespace) (es - sh_ps s) buf (sh_ps s)) in *. exists a. split.
  - unfold peek. rewrite (bind_ok _ _ _ (sh_ps s) s) by done. rewrite (bind_ok _ _ _ _ _ (skip_white_run _ _ H1)). fold a.
    rewrite (bind_ok _ _ _ tt (set_ps a s)) by done. rewrite (bind_ok _ _ _ _ _ (char_at_run a (set_ps a s) H1 (proj2 Ha))).
    rewrite head_in_char by (done || lia). by rewrite El, H3.
  - split; [eapply at_less; [exact Hat|done|lia|by rewrite El]|]. split; intros E.
    + rewrite <- H3, <- El, E, drop_all. done.
    + destruct (decide (a = es)) as [|Hne]; [done|]. exfalso. specialize (Hw ltac:(lia)). rewrite <- H3, <- El in E.
      rewrite (drop_text a) in E by lia. cbn [lex] in E. rewrite Hw in E. repeat case_match; done.
Qed.

(** What [gettoken] gives for the first token. *)
Definition token_result (k : nat) (ts : list token) (s' : shst) (ret : Z) (q e : nat) : Prop :=
  match ts with
  | [] => ret = 0 ∧ at_ k s' []
  | Sym c :: ts' => ret = c ∧ c ≠ 0 ∧ c ≠ 97 ∧ at_ (2 + k) s' ts'
  | Word w :: ts' => ret = 97 ∧ is_word q e w ∧ at_ (2 + k) s' ts'
  end.

Lemma at_next k s t ts' a : at_ k s (t :: ts') → (a ≤ es)%nat → lex (drop a text) = ts' → at_ (2 + k) (set_ps a s) ts'.
Proof using. clear Htext. intros [H1 H2 H3 H4] Ha E. cbn in H4. split; cbn; [done|done|done|lia]. Qed.

(** From the start [q] of the token to its end [e]. *)
Definition scan (q : nat) : M shst (Z * nat) :=
  c ← char_at q;
  if c =? 0 then mret (c, q)
  else if is_in [124; 40; 41; 59; 38; 60] c then mret (c, S q)
  else if c =? 62 then
    d ← char_at (S q);
    mret (if d =? 62 then (43, S (S q)) else (c, S q))
  else
    buf ← gets sh_buf;
    mret (97, skip word_char (es - q) buf q).

Lemma gettoken_scan s : gettoken es s = (q ← (s ← gets sh_ps; skip_white es s); '(ret, eq) ← scan q; s ← skip_white es eq; modify (set_ps s) ;; mret (ret, q, eq)) s.
Proof using.
  clear Htext. unfold gettoken, scan, mbind, M_bind, gets. destruct (skip_white es (sh_ps s) s) as [q s1|]; [|done].
  destruct (char_at q s1); [|done]. repeat case_match; done.
Qed.

Lemma scan_run q s : sh_buf s = buf → (q ≤ es)%nat → ((q < es)%nat → is_in whitespace (nth q text 0) = false) →
  ∃ ret e, scan q s = Ok (ret, e) s ∧ (q ≤ e ≤ es)%nat ∧
    match lex (drop q text) with
    | [] => ret = 0
    | Sym c :: ts' => ret = c ∧ c ≠ 0 ∧ c ≠ 97 ∧ lex (drop e text) = ts'
    | Word w :: ts' => ret = 97 ∧ is_word q e w ∧ lex (drop e text) = ts'
    end.
Proof using Htext.
  intros Hb Hq Hw. unfold scan. rewrite (bind_ok _ _ _ _ _ (char_at_run q s Hb Hq)).
  destruct (decide (q = es)) as [->|Hne].
  { rewrite buf_end, drop_all. exists 0, es. split_and!; done || lia. }
  assert (Hlt : (q < es)%nat) by lia. pose proof (text_char q Hlt) as Hpos. specialize (Hw Hlt). rewrite buf_text, (drop_text q) by done.
  rewrite (proj2 (Z.eqb_neq _ 0)) by lia. set (c := nth q text 0) in *.
  destruct (is_in [124; 40; 41; 59; 38; 60] c) eqn:Ec.
  { rewrite is_in_spec in Ec by exact single_zero. rewrite lex_sym by (by apply single_cases). destruct (single_char c Ec).
    exists c, (S q). split_and!; done || lia. }
  destruct (Z.eqb_spec c 62) as [E62|H62].
  - rewrite (bind_ok _ _ _ _ _ (char_at_run (S q) s Hb ltac:(lia))). rewrite E62. cbn [lex].
    change (is_in whitespace 62) with false. cbn [Z.eqb Pos.eqb]. destruct (decide (S q = es)) as [Ee|Hne'].
    + rewrite Ee, buf_end, drop_all. exists 62, es. split_and!; [done|lia|lia|done|done|done|]. by rewrite drop_all.
    + rewrite buf_text, (drop_text (S q)) by lia. destruct (Z.eqb_spec (nth (S q) text 0) 62) as [E|Hn].
      * exists 43, (S (S q)). split_and!; [done|lia|lia|done..].
      * exists 62, (S q). split_and!; [done|lia|lia|done|done|done|]. by rewrite (drop_text (S q)) by lia.
  - destruct (skip_text word_char q Hq) as (H1 & H2 & H3). set (e := skip word_char (es - q) buf q) in *.
    exists 97, e. assert (Hwc : word_char c = true).
    { unfold word_char. rewrite Hw. cbn. apply negb_true_iff, not_true_is_false. rewrite is_in_spec by exact symbol_zero.
      intros Hs. apply symbol_cases in Hs; [|done]. apply not_true_iff_false in Ec. apply Ec. rewrite is_in_spec by exact single_zero. by apply single_cases. }
    assert (Hqe : (q < e)%nat). { destruct (decide (q = e)) as [Ee|]; [|lia]. rewrite <- Ee in H3. fold c in H3. by rewrite H3 in Hwc by lia. }
    assert (Hd : drop q text = take (e - q) (drop q text) ++ drop e text).
    { rewrite <- (take_drop (e - q) (drop q text)) at 1. rewrite drop_drop. do 2 f_equal. lia. }
    assert (Hiw : is_word q e (take (e - q) (drop q text))) by (split; [lia|done|done|done]).
    rewrite (bind_ok _ _ _ buf s) by (unfold gets; by rewrite Hb). fold e.
    assert (Hc : c :: drop (S q) text = drop q text) by (symmetry; by apply drop_text). rewrite Hc, Hd, lex_word; [split_and!; done || lia|..].
    + intros E. apply (f_equal length) in E. rewrite length_take, length_drop in E. cbn in E. lia.
    + intros x [i Hi]%list_elem_of_lookup. pose proof (lookup_lt_Some _ _ _ Hi) as Hl. rewrite length_take in Hl.
      rewrite lookup_take_lt, lookup_drop in Hi by lia. apply (nth_lookup_Some _ _ 0) in Hi. rewrite <- Hi. apply H2. lia.
    + unfold stops. destruct (decide (e = es)) as [->|]; [by rewrite drop_all|]. rewrite (drop_text e) by lia. apply H3. lia.
Qed.

Lemma gettoken_run k s ts : at_ k s ts → ∃ ret q e a, gettoken es s = Ok (ret, q, e) (set_ps a s) ∧ token_result k ts (set_ps a s) ret q e.
Proof using Htext.
  intros Hat. pose proof Hat as [H1 H2 H3 H4]. rewrite gettoken_scan. destruct (skip_white_text (sh_ps s) H2) as (Ha & El & Hw).
  set (q := skip (is_in whitespace) (es - sh_ps s) buf (sh_ps s)) in *.
  rewrite (bind_ok _ _ _ q s) by (by rewrite (bind_ok _ _ _ (sh_ps s) s), skip_white_run).
  destruct (scan_run q s H1 ltac:(lia) Hw) as (ret & e & Es & He & Hr). rewrite (bind_ok _ _ _ _ _ Es).
  rewrite (bind_ok _ _ _ _ _ (skip_white_run e s H1)). destruct (skip_white_text e ltac:(lia)) as (Hb & El2 & _).
  set (a := skip (is_in whitespace) (es - e) buf e) in *. exists ret, q, e, a. split; [done|]. rewrite El, H3 in Hr.
  unfold token_result. destruct ts as [|[w|c] ts].
  - split; [done|]. eapply at_less; [exact Hat|done|lia|].
    assert (Hee : q = es). { destruct (decide (q = es)) as [|Hne]; [done|]. exfalso. specialize (Hw ltac:(lia)). rewrite <- El in H3.
      rewrite (drop_text q) in H3 by lia. cbn [lex] in H3. rewrite Hw in H3. repeat case_match; done. }
    rewrite El2. replace e with es by lia. by rewrite drop_all.
  - destruct Hr as (-> & Hiw & Ee). split; [done|]. split; [done|]. eapply at_next; [exact Hat|lia|by rewrite El2].
  - destruct Hr as (-> & Hc1 & Hc2 & Ee). do 3 (split; [done|]). eapply at_next; [exact Hat|lia|by rewrite El2].
Qed.

(** ** Structures in the heap *)

Definition args (av ev : list (option nat)) (ws : list (list Z)) : Prop :=
  length av = MAXARGS ∧ length ev = MAXARGS ∧
  ∀ i w, ws !! i = Some w → ∃ q e, av !! i = Some (Some q) ∧ ev !! i = Some (Some e) ∧ is_word q e w.

(** [p] points to a structure for the tree [t]; parts are older than the whole. *)
Fixpoint repr (h : list node) (p : nat) (t : cmd) : Prop :=
  match t with
  | EXEC ws => ∃ av ev, node_at h p = Some (execcmd_ av ev) ∧ args av ev ws ∧ av !! length ws = Some None
  | REDIR c f m d => ∃ p' q e, node_at h p = Some (redircmd_ p' q e m d) ∧ (p' < p)%nat ∧ is_word q e f ∧ repr h p' c
  | PIPE l r => ∃ pl pr, node_at h p = Some (pipecmd_ pl pr) ∧ (pl < p)%nat ∧ (pr < p)%nat ∧ repr h pl l ∧ repr h pr r
  | LIST l r => ∃ pl pr, node_at h p = Some (listcmd_ pl pr) ∧ (pl < p)%nat ∧ (pr < p)%nat ∧ repr h pl l ∧ repr h pr r
  | BACK c => ∃ p', node_at h p = Some (backcmd_ p') ∧ (p' < p)%nat ∧ repr h p' c
  end.

(** From [p] by redirections to [ret]. *)
Fixpoint chain (h : list node) (p ret : nat) (rs : list redir) : Prop :=
  match rs with
  | [] => ret = p
  | r :: rs' => ∃ p1 q e, node_at h p1 = Some (redircmd_ p q e (rd_mode r) (rd_fd r)) ∧ (p < p1)%nat ∧ is_word q e (rd_file r) ∧ chain h p1 ret rs'
  end.

Lemma node_mono h h' p n : h `prefix_of` h' → node_at h p = Some n → node_at h' p = Some n.
Proof using. clear Htext. destruct p as [|p]; [done|]. cbn. intros Hp Hn. by eapply prefix_lookup_Some. Qed.
Lemma node_le h p n : node_at h p = Some n → (p ≤ length h)%nat.
Proof using. clear Htext. destruct p as [|p]; [done|]. cbn. intros ?%lookup_lt_Some. lia. Qed.
Lemma repr_le h p t : repr h p t → (p ≤ length h)%nat.
Proof using. clear Htext. destruct t; cbn; naive_solver eauto using node_le. Qed.
Lemma chain_le h rs : ∀ p ret, chain h p ret rs → (p ≤ length h)%nat → (ret ≤ length h)%nat.
Proof using. clear Htext. induction rs; cbn; [by intros ? ? ->|]. naive_solver eauto using node_le. Qed.
Lemma repr_mono h h' t : h `prefix_of` h' → ∀ p, repr h p t → repr h' p t.
Proof using. clear Htext. intros Hp. induction t; cbn; naive_solver eauto using node_mono. Qed.
Lemma chain_mono h h' rs : h `prefix_of` h' → ∀ p ret, chain h p ret rs → chain h' p ret rs.
Proof using. clear Htext. intros Hp. induction rs; cbn; naive_solver eauto using node_mono. Qed.
Lemma chain_app h rs1 rs2 : ∀ p m ret, chain h p m rs1 → chain h m ret rs2 → chain h p ret (rs1 ++ rs2).
Proof using. clear Htext. induction rs1 as [|r rs1 IH]; cbn; [by intros p m ret ->|]. naive_solver. Qed.
Lemma chain_repr h rs : ∀ p ret t, chain h p ret rs → repr h p t → repr h ret (wrap rs t).
Proof using.
  clear Htext. induction rs as [|r rs IH]; cbn; [by intros p ret t ->|]. intros p ret t (p1 & q & e & Hn & Hlt & Hw & Hc) Ht.
  apply (IH p1); [done|]. cbn. eauto 8.
Qed.
Lemma node_insert h c p n n' : node_at h c = Some n' → node_at (<[pred c:=n]> h) p = if decide (p = c) then Some n else node_at h p.
Proof using.
  clear Htext. destruct c as [|c]; [done|]. cbn. intros Hn. pose proof (lookup_lt_Some _ _ _ Hn). destruct p as [|p]; cbn; [done|]. case_decide as E.
  - injection E as ->. by rewrite list_lookup_insert_eq.
  - rewrite list_lookup_insert_ne by congruence. done.
Qed.
Lemma chain_insert h c av ev n rs : node_at h c = Some (execcmd_ av ev) → ∀ p ret, chain h p ret rs → chain (<[pred c:=n]> h) p ret rs.
Proof using.
  clear Htext. intros Hn. induction rs as [|r rs IH]; cbn; [done|]. intros p ret (p1 & q & e & Hp & Hlt & Hw & Hc). exists p1, q, e. split; [|split; [done|by split; [|apply IH]]].
  rewrite (node_insert _ _ _ _ _ Hn), decide_False; [done|]. intros ->. congruence.
Qed.
Lemma prefix_insert (h0 h : list node) c n : h0 `prefix_of` h → (length h0 < c)%nat → h0 `prefix_of` <[pred c:=n]> h.
Proof using. clear Htext. intros [l ->] Hc. rewrite insert_app_r_alt by lia. by exists (<[(pred c - length h0)%nat:=n]> l). Qed.

Lemma at_weak k k' s ts : at_ k s ts → (k' ≤ k)%nat → at_ k' s ts.
Proof using. clear Htext. intros [H1 H2 H3 H4] Hk. split; [done..|lia]. Qed.
Lemma at_heap k s ts h : at_ k s ts → at_ k (set_heap h s) ts.
Proof using. clear Htext. intros [H1 H2 H3 H4]. by split. Qed.

Lemma alloc_run k s ts n : at_ (S k) s ts → ∃ s', alloc_node n s = Ok (S (length (sh_heap s))) s' ∧ at_ k s' ts ∧ sh_heap s' = sh_heap s ++ [n].
Proof using.
  clear Htext. intros [H1 H2 H3 H4]. unfold alloc_node, mbind, M_bind, gets. destruct (sh_room s) as [|r] eqn:Er; [lia|].
  eexists. split; [done|]. split; [|done]. split; [done|done|done|]. cbn. lia.
Qed.
Lemma new_node h n : node_at (h ++ [n]) (S (length h)) = Some n.
Proof using. clear Htext. cbn. by apply list_lookup_middle. Qed.

Lemma sim_peek {A B} (P : A → B → shst → list token → Prop) k s ts toks f g :
  at_ k s ts → 0 ∉ toks → 43 ∉ toks → (∀ c, c ∈ toks → c ∈ symbols) →
  (∀ b s', head_in toks ts = b → at_ k s' ts → sh_heap s' = sh_heap s → sim P (f b) (g b) s' ts) →
  sim P (peek es toks ≫= f) (t_peek toks ≫= g) s ts.
Proof using Htext.
  intros Hat H0 H43 Hs Hf. destruct (peek_run k s ts toks Hat H0 H43 Hs) as (a & Ep & Ha & _). eapply sim_left; [exact Ep|].
  unfold sim. unfold t_peek. rewrite (bind_ok _ _ _ (head_in toks ts) ts) by done. by apply Hf.
Qed.
Lemma sim_next {A B} (P : A → B → shst → list token → Prop) k s t ts f g :
  at_ k s (t :: ts) →
  (∀ ret q e s', token_result k (t :: ts) s' ret q e → sh_heap s' = sh_heap s → sim P (f (ret, q, e)) (g (Some t)) s' ts) →
  sim P (gettoken es ≫= f) (t_next ≫= g) s (t :: ts).
Proof using Htext.
  intros Hat Hf. destruct (gettoken_run k s _ Hat) as (ret & q & e & a & Eg & Hr). eapply sim_left; [exact Eg|].
  unfold sim. rewrite next_cons. by apply (Hf ret q e).
Qed.
End Line.

(** ** What the parser builds

    The trees of the parser in place against those of the parser on tokens, then the
    strings: after [nulterminate] every word of the tree is the string at its pointer. *)

(** The sets of characters that [peek] is called with. *)
Definition peekable (toks : list Z) : Prop := 0 ∉ toks ∧ 43 ∉ toks ∧ ∀ c, c ∈ toks → c ∈ symbols.
Lemma peekable_redir : peekable [60; 62].
Proof. unfold peekable, symbols. split_and!; set_solver. Qed.
Lemma peekable_end : peekable [124; 41; 38; 59].
Proof. unfold peekable, symbols. split_and!; set_solver. Qed.
Lemma peekable_one c : c ∈ symbols → peekable [c].
Proof.
  intros Hc. split_and!; intros; rewrite list_elem_of_singleton in *; [|symmetry; by apply symbol_plus|congruence].
  intros <-. by apply symbol_zero.
Qed.
Lemma peekable_nil : peekable [].
Proof. unfold peekable. split_and!; set_solver. Qed.

Lemma sim_right {A B B'} (P : A → B → shst → list token → Prop) (Q : A → B' → shst → list token → Prop) c d g s ts :
  sim P c d s ts → (∀ a b s' ts', P a b s' ts' → ∃ b', g b ts' = Ok b' ts' ∧ Q a b' s' ts') → sim Q c (d ≫= g) s ts.
Proof.
  unfold sim, mbind, M_bind. destruct (c s) as [a s'|], (d ts) as [b ts'|]; try done. intros HP HQ.
  by destruct (HQ _ _ _ _ HP) as (b' & -> & Hq).
Qed.

Section Line.
Context (text rest : list Z).
Hypothesis Htext : is_str text.
Notation es := (length text).
Notation at_ := (at_ text rest).
Notation repr := (repr text).
Notation chain := (chain text).
Notation args := (args text).
Notation token_result := (token_result text rest).

Lemma sim_redirs fuel : ∀ k p s ts, at_ k s ts → (p ≤ length (sh_heap s))%nat →
  sim (λ ret rs s' ts', at_ k s' ts' ∧ sh_heap s `prefix_of` sh_heap s' ∧ chain (sh_heap s') p ret rs)
    (parseredirs fuel p es) (t_redirs fuel) s ts.
Proof using Htext.
  induction fuel as [|fuel IH]; intros k p s ts Hat Hle; [done|]. cbn [parseredirs t_redirs].
  destruct peekable_redir as (P1 & P2 & P3). eapply sim_peek; [done|exact Hat|done|done|done|].
  intros b s1 Hb H1 Eh1. destruct b; [|apply sim_ret; by rewrite Eh1].
  apply head_in_inv in Hb as (c & ts1 & -> & Hc). apply redir_sym in Hc.
  eapply sim_next; [done|exact H1|]. intros ret q e s2 (-> & _ & _ & H2) Eh2.
  destruct ts1 as [|[w|d] ts1].
  - destruct (gettoken_run text rest Htext (2 + k) s2 [] H2) as (r & q' & e' & a & Eg & -> & Hr). eapply sim_left; [exact Eg|]. done.
  - eapply sim_next; [done|exact H2|]. intros r q' e' s3 (-> & Hw & H3) Eh3. cbn [negb Z.eqb Pos.eqb].
    assert (Hr : ∃ s4, (if c =? 60 then redircmd p q' e' O_RDONLY 0 else if c =? 62 then redircmd p q' e' (Z.lor O_WRONLY O_CREATE) 1
        else if c =? 43 then redircmd p q' e' (Z.lor O_WRONLY O_CREATE) 1 else mret p) s3 = Ok (S (length (sh_heap s3))) s4 ∧ at_ k s4 ts1 ∧
        sh_heap s4 = sh_heap s3 ++ [redircmd_ p q' e' (rd_mode (redir_of c w)) (rd_fd (redir_of c w))]).
    { unfold redir_of. rewrite !elem_of_cons, elem_of_nil in Hc. destruct Hc as [->|[->|[->|[]]]]; cbn [Z.eqb Pos.eqb rd_mode rd_fd];
        apply (alloc_run text rest k s3 ts1); (eapply at_weak; [exact H3|lia]). }
    destruct Hr as (s4 & Er & H4 & Eh4). eapply sim_left; [exact Er|].
    assert (Hle3 : (p ≤ length (sh_heap s3))%nat) by (by rewrite Eh3, Eh2, Eh1).
    eapply sim_right; [apply IH; [done|rewrite Eh4, length_app; cbn; lia]|]. intros ret rs s5 ts5 (H5 & Hp & Hch). eexists. split; [done|]. split; [done|]. rewrite Eh4 in Hp.
    split; [etrans; [|exact Hp]; rewrite Eh3, Eh2, Eh1; by apply prefix_app_r|]. cbn. exists (S (length (sh_heap s3))), q', e'. split_and!; [|lia|by unfold redir_of; case_match|done].
    eapply node_mono; [exact Hp|apply new_node].
  - eapply sim_next; [done|exact H2|]. intros r q' e' s3 (-> & Hd & Hd' & H3) _. rewrite (proj2 (Z.eqb_neq d 97)) by done. done.
Qed.

(** ** Arguments *)

(** The node [c], allocated after [h0], holds the words [ws], and [ret] is [c]
    behind the redirections [rs]. *)
Record building (h0 : list node) (c ret : nat) (ws : list (list Z)) (rs : list redir) (h : list node) : Prop := {
  bd_prefix : h0 `prefix_of` h;
  bd_new : (length h0 < c)%nat;
  bd_node : ∃ av ev, node_at h c = Some (execcmd_ av ev) ∧ args av ev ws;
  bd_chain : chain h c ret rs
}.

Lemma set_arg_run h0 c ret ws rs s q e :
  building h0 c ret ws rs (sh_heap s) → (length ws < MAXARGS)%nat →
  ∃ av ev, args av ev ws ∧ let n := execcmd_ (<[length ws:=q]> av) (<[length ws:=e]> ev) in
    set_arg c (length ws) q e s = Ok tt (set_heap (<[pred c:=n]> (sh_heap s)) s) ∧
    node_at (<[pred c:=n]> (sh_heap s)) c = Some n ∧ h0 `prefix_of` <[pred c:=n]> (sh_heap s) ∧ chain (<[pred c:=n]> (sh_heap s)) c ret rs.
Proof using.
  clear Htext. intros [B1 B2 (av & ev & Hn & Ha) B4] Hl. exists av, ev. split; [done|]. intros n. split_and!.
  - unfold set_arg, mbind, M_bind, gets. rewrite Hn, (proj2 (Nat.ltb_lt _ _)) by done. done.
  - rewrite (node_insert _ _ _ _ _ Hn). by rewrite decide_True.
  - by apply prefix_insert.
  - by eapply chain_insert.
Qed.

Lemma args_snoc av ev ws q e w :
  args av ev ws → (length ws < MAXARGS)%nat → is_word text q e w → args (<[length ws:=Some q]> av) (<[length ws:=Some e]> ev) (ws ++ [w]).
Proof using.
  clear Htext. intros (L1 & L2 & Ha) Hl Hw. split; [by rewrite length_insert|]. split; [by rewrite length_insert|]. intros i x Hi.
  destruct (decide (i = length ws)) as [->|Hne].
  - rewrite list_lookup_middle in Hi by done. injection Hi as <-. exists q, e. rewrite !list_lookup_insert_eq by lia. done.
  - rewrite lookup_app_l in Hi; [|apply lookup_lt_Some in Hi; rewrite length_app in Hi; cbn in Hi; lia].
    destruct (Ha i x Hi) as (q' & e' & H1 & H2 & H3). exists q', e'. by rewrite !list_lookup_insert_ne.
Qed.
Lemma args_close av ev ws : args av ev ws → args (<[length ws:=None]> av) (<[length ws:=None]> ev) ws.
Proof using.
  clear Htext. intros (L1 & L2 & Ha). split; [by rewrite length_insert|]. split; [by rewrite length_insert|]. intros i x Hi.
  pose proof (lookup_lt_Some _ _ _ Hi). rewrite !list_lookup_insert_ne by lia. by apply Ha.
Qed.

Lemma finish_run k h0 c ret ws rs s ts :
  at_ k s ts → building h0 c ret ws rs (sh_heap s) → (length ws < MAXARGS)%nat →
  ∃ s', (set_arg c (length ws) None None ;; mret ret) s = Ok ret s' ∧ at_ k s' ts ∧ h0 `prefix_of` sh_heap s' ∧
    repr (sh_heap s') ret (wrap rs (EXEC ws)).
Proof using.
  clear Htext. intros Hat Hb Hl. destruct (set_arg_run _ _ _ _ _ _ None None Hb Hl) as (av & ev & Ha & Es & Hn & Hp & Hc).
  eexists. split; [by rewrite (bind_ok _ _ _ _ _ Es)|]. split; [by apply at_heap|]. cbn. split; [done|].
  eapply chain_repr; [exact Hc|]. cbn [ShParse.repr]. eexists _, _. split; [exact Hn|]. split; [by apply args_close|].
  destruct Ha as (L1 & _). apply list_lookup_insert_eq. lia.
Qed.

Lemma sim_args fuel : ∀ k h0 c ret ws rs s ts,
  at_ k s ts → building h0 c ret ws rs (sh_heap s) → (length ws < MAXARGS)%nat →
  sim (λ p '(ws', rs') s' ts', at_ k s' ts' ∧ h0 `prefix_of` sh_heap s' ∧ repr (sh_heap s') p (wrap (rs ++ rs') (EXEC (ws ++ ws'))))
    (parseargs fuel c ret (length ws) es) (t_args fuel (length ws)) s ts.
Proof using Htext.
  induction fuel as [|fuel IH]; intros k h0 c ret ws rs s ts Hat Hb Hl; [done|]. cbn [parseargs t_args].
  assert (Hfin : ∀ s1, at_ k s1 ts → sh_heap s1 = sh_heap s → sim (λ p '(ws', rs') s' ts', at_ k s' ts' ∧ h0 `prefix_of` sh_heap s' ∧
      repr (sh_heap s') p (wrap (rs ++ rs') (EXEC (ws ++ ws')))) (set_arg c (length ws) None None ;; mret ret) (mret ([], [])) s1 ts).
  { intros s1 H1 Eh. rewrite <- Eh in Hb. destruct (finish_run _ _ _ _ _ _ _ _ H1 Hb Hl) as (s' & Es & H' & Hp & Hr).
    unfold sim. rewrite Es. unfold mret, M_ret. by rewrite !app_nil_r. }
  destruct peekable_end as (P1 & P2 & P3). eapply sim_peek; [done|exact Hat|done|done|done|].
  intros b s1 Hh H1 Eh1. destruct b; [by apply Hfin|]. destruct ts as [|[w|d] ts].
  - destruct (gettoken_run text rest Htext k s1 [] H1) as (r & q' & e' & a & Eg & -> & Hr). eapply sim_left; [exact Eg|]. by apply Hfin.
  - eapply sim_next; [done|exact H1|]. intros r q e s2 (-> & Hw & H2) Eh2. cbn [Z.eqb Pos.eqb negb].
    rewrite <- Eh1, <- Eh2 in Hb. destruct (set_arg_run _ _ _ _ _ _ (Some q) (Some e) Hb Hl) as (av & ev & Ha & Es & Hn & Hp & Hc).
    eapply sim_left; [exact Es|]. destruct (Nat.leb_spec MAXARGS (S (length ws))) as [|Hlt]; [done|].
    eapply sim_bind; [apply (sim_redirs fuel k ret); [apply at_heap; eapply at_weak; [exact H2|lia]|by eapply chain_le, node_le]|].
    intros ret' rs1 s3 ts3 (H3 & Hp3 & Hc3). cbn [sh_heap set_heap] in Hp3. rewrite <- (Nat.add_1_r (length ws)).
    change 1%nat with (length [w]). rewrite <- length_app.
    eapply sim_right.
    + eapply (IH k h0 c ret' (ws ++ [w]) (rs ++ rs1)); [exact H3| |rewrite length_app; cbn; lia]. split.
      * by etrans.
      * apply Hb.
      * eexists _, _. split; [by eapply node_mono|by apply args_snoc].
      * eapply chain_app; [|exact Hc3]. by eapply chain_mono.
    + intros p [ws' rs'] s' ts' Hr. eexists. split; [done|]. by rewrite <- !app_assoc in Hr.
  - eapply sim_next; [done|exact H1|]. intros r q' e' s3 (-> & Hd & Hd' & H3) _. rewrite (proj2 (Z.eqb_neq d 97)), (proj2 (Z.eqb_neq d 0)) by done. done.
Qed.

(** ** Lines *)

(** A part that returns a structure for a tree. *)
Definition builds (k : nat) (h0 : list node) (p : nat) (t : cmd) (s' : shst) (ts' : list token) : Prop :=
  at_ k s' ts' ∧ h0 `prefix_of` sh_heap s' ∧ repr (sh_heap s') p t.

Lemma sim_backs fuel : ∀ k h0 p t s ts, builds k h0 p t s ts →
  sim (λ p' n s' ts', builds k h0 p' (backs n t) s' ts') (parsebacks fuel p es) (t_backs fuel) s ts.
Proof using Htext.
  induction fuel as [|fuel IH]; intros k h0 p t s ts (Hat & Hp & Hr); [done|]. cbn [parsebacks t_backs].
  destruct (peekable_one 38) as (P1 & P2 & P3); [unfold symbols; set_solver|]. eapply sim_peek; [done|exact Hat|done|done|done|].
  intros b s1 Hb H1 Eh1. destruct b; [|apply sim_ret; unfold builds; by rewrite Eh1].
  apply peek_one in Hb as [ts1 ->]; [|done|done]. eapply sim_next; [done|exact H1|]. intros ret q e s2 (_ & _ & _ & H2) Eh2.
  destruct (alloc_run text rest k s2 ts1 (backcmd_ p)) as (s3 & Ea & H3 & Eh3); [eapply at_weak; [exact H2|lia]|].
  eapply sim_left; [exact Ea|]. eapply sim_right; [apply (IH k h0 (S (length (sh_heap s2))) (BACK t))|].
  - split; [done|]. rewrite Eh3. assert (Hx : sh_heap s `prefix_of` sh_heap s2 ++ [backcmd_ p]) by (rewrite Eh2, Eh1; by apply prefix_app_r).
    split; [by etrans|]. cbn [ShParse.repr]. exists p. split; [apply new_node|]. split; [rewrite Eh2, Eh1; pose proof (repr_le _ _ _ _ Hr); lia|]. by eapply repr_mono.
  - intros p' n s' ts' Hb. exists (S n). split; [done|]. unfold backs in *. by rewrite Nat.iter_succ_r.
Qed.

(** A symbol is taken, the rest of the line is parsed and a node made of both parts. *)
Lemma sim_pair k h0 c d (mk : nat → nat → node) (MK : cmd → cmd → cmd) pl l s ts (c1 : M shst nat) (d1 : tokens cmd) :
  (∀ h p pl pr l r, node_at h p = Some (mk pl pr) → (pl < p)%nat → (pr < p)%nat → repr h pl l → repr h pr r → repr h p (MK l r)) →
  builds k h0 pl l s (Sym d :: ts) → c = d →
  (∀ s' ts', at_ (2 + k) s' ts' → sim (builds (S k) (sh_heap s')) c1 d1 s' ts') →
  sim (builds k h0) (gettoken es ;; right ← c1; alloc_node (mk pl right)) (t_next ;; r ← d1; mret (MK l r)) s (Sym c :: ts).
Proof using Htext.
  intros Hmk (Hat & Hp & Hr) -> Hc. eapply sim_next; [done|exact Hat|]. intros ret q e s1 (_ & _ & _ & H1) Eh1.
  eapply sim_bind; [by apply Hc|]. intros pr r s2 ts2 (H2 & Hp2 & Hr2).
  destruct (alloc_run text rest k s2 ts2 (mk pl pr) H2) as (s3 & Ea & H3 & Eh3). unfold sim. rewrite Ea. unfold mret, M_ret.
  rewrite Eh1 in Hp2. assert (Hx : sh_heap s2 `prefix_of` sh_heap s3) by (rewrite Eh3; by apply prefix_app_r).
  split; [done|]. split; [etrans; [exact Hp|]; by etrans|].
  pose proof (prefix_length _ _ Hp2). pose proof (repr_le _ _ _ _ Hr). pose proof (repr_le _ _ _ _ Hr2).
  eapply Hmk; [rewrite Eh3; apply new_node|lia|lia| |]; eapply repr_mono; [|exact Hr| |exact Hr2]; [by etrans|done].
Qed.

Lemma sim_parse fuel :
  (∀ k s ts, at_ (S k) s ts → sim (builds k (sh_heap s)) (parseline fuel es) (t_line fuel) s ts) ∧
  (∀ k s ts, at_ (S k) s ts → sim (builds k (sh_heap s)) (parsepipe fuel es) (t_pipe fuel) s ts) ∧
  (∀ k s ts, at_ (S k) s ts → sim (builds k (sh_heap s)) (parseblock fuel es) (t_block fuel) s ts) ∧
  (∀ k s ts, at_ (S k) s ts → sim (builds k (sh_heap s)) (parseexec fuel es) (t_exec fuel) s ts).
Proof using Htext.
  induction fuel as [|fuel (IHl & IHp & IHb & IHe)]; [by split_and!|].
  assert (Hone : ∀ c, c ∈ symbols → 0 ∉ [c] ∧ 43 ∉ [c] ∧ ∀ x, x ∈ [c] → x ∈ symbols) by exact peekable_one.
  split_and!; intros k s ts Hat; cbn [parseline t_line parsepipe t_pipe parseblock t_block parseexec t_exec].
  - eapply sim_bind; [by apply IHp|]. intros p t s1 ts1 Hb1. eapply sim_bind; [by apply sim_backs|].
    intros p2 n s2 ts2 (H2 & Hp2 & Hr2). destruct (Hone 59) as (P1 & P2 & P3); [unfold symbols; set_solver|].
    eapply sim_peek; [done|exact H2|done|done|done|]. intros b s3 Hb H3 Eh3. assert (Hb3 : builds k (sh_heap s) p2 (backs n t) s3 ts2) by (unfold builds; by rewrite Eh3).
    destruct b; [|done]. apply peek_one in Hb as [ts3 ->]; [|done|done].
    eapply (sim_pair k _ 59 59 listcmd_ LIST); [cbn; eauto 8|exact Hb3|done|by intros; apply IHl].
  - eapply sim_bind; [by apply IHe|]. intros p2 t s2 ts2 (H2 & Hp2 & Hr2). destruct (Hone 124) as (P1 & P2 & P3); [unfold symbols; set_solver|].
    eapply sim_peek; [done|exact H2|done|done|done|]. intros b s3 Hb H3 Eh3. assert (Hb3 : builds k (sh_heap s) p2 t s3 ts2) by (unfold builds; by rewrite Eh3).
    destruct b; [|done]. apply peek_one in Hb as [ts3 ->]; [|done|done].
    eapply (sim_pair k _ 124 124 pipecmd_ PIPE); [cbn; eauto 8|exact Hb3|done|by intros; apply IHp].
  - destruct (Hone 40) as (P1 & P2 & P3); [unfold symbols; set_solver|]. eapply sim_peek; [done|exact Hat|done|done|done|].
    intros b s1 Hb H1 Eh1. destruct b; cbn [negb]; [|apply sim_panic]. apply peek_one in Hb as [ts1 ->]; [|done|done].
    eapply sim_next; [done|exact H1|]. intros ret q e s2 (_ & _ & _ & H2) Eh2. eapply sim_bind; [by apply IHl|].
    intros p t s3 ts3 (H3 & Hp3 & Hr3). rewrite Eh2, Eh1 in Hp3. destruct (Hone 41) as (Q1 & Q2 & Q3); [unfold symbols; set_solver|].
    eapply sim_peek; [done|exact H3|done|done|done|]. intros b s4 Hb H4 Eh4. destruct b; cbn [negb]; [|apply sim_panic].
    apply peek_one in Hb as [ts4 ->]; [|done|done]. eapply sim_next; [done|exact H4|]. intros ret' q' e' s5 (_ & _ & _ & H5) Eh5.
    eapply sim_right; [apply (sim_redirs fuel k p); [eapply at_weak; [exact H5|lia]|rewrite Eh5, Eh4; by eapply repr_le]|]. intros p' rs s6 ts6 (H6 & Hp6 & Hc6).
    eexists. split; [done|]. rewrite Eh5, Eh4 in Hp6. split; [done|]. split; [by etrans|]. eapply chain_repr; [exact Hc6|]. by eapply repr_mono.
  - destruct (Hone 40) as (P1 & P2 & P3); [unfold symbols; set_solver|]. eapply sim_peek; [done|exact Hat|done|done|done|].
    intros b s1 Hb H1 Eh1. destruct b; [rewrite <- Eh1; by apply IHb|].
    destruct (alloc_run text rest k s1 ts (execcmd_ (replicate MAXARGS None) (replicate MAXARGS None)) H1) as (s2 & Ea & H2 & Eh2).
    eapply sim_left; [exact Ea|]. eapply sim_bind; [apply (sim_redirs fuel k); [exact H2|rewrite Eh2, length_app; cbn; lia]|]. intros ret rs s3 ts3 (H3 & Hp3 & Hc3).
    rewrite Eh2 in Hp3. eapply sim_right; [eapply (sim_args fuel k (sh_heap s) _ ret [] rs); [exact H3| |unfold MAXARGS; cbn; lia]|].
    + split; [rewrite <- Eh1; etrans; [|exact Hp3]; by apply prefix_app_r|rewrite Eh1; lia| |done].
      eexists _, _. split; [eapply node_mono; [exact Hp3|apply new_node]|]. by split_and!.
    + intros p [ws rs'] s' ts' Hr. eexists. by split.
Qed.
End Line.
