(* ===== verification/ShClaims.v ===== *)
(** * ShClaims: the shell's parser is correct *)

From S2P Require Import Prelude Mmu Ulib Sh ShSpec ShParse.

(** The tree at [p], with the strings as they are in the buffer [b]; parts are
    older than the whole. *)
Fixpoint reads (b : list Z) (h : list node) (p : nat) (t : cmd) : Prop :=
  match t with
  | EXEC ws => ∃ av ev, node_at h p = Some (execcmd_ av ev) ∧
      (∀ i w, ws !! i = Some w → ∃ q, av !! i = Some (Some q) ∧ cstr (drop q b) = w) ∧ av !! length ws = Some None
  | REDIR c f m d => ∃ p' q e, node_at h p = Some (redircmd_ p' q e m d) ∧ (p' < p)%nat ∧ cstr (drop q b) = f ∧ reads b h p' c
  | PIPE l r => ∃ pl pr, node_at h p = Some (pipecmd_ pl pr) ∧ (pl < p)%nat ∧ (pr < p)%nat ∧ reads b h pl l ∧ reads b h pr r
  | LIST l r => ∃ pl pr, node_at h p = Some (listcmd_ pl pr) ∧ (pl < p)%nat ∧ (pr < p)%nat ∧ reads b h pl l ∧ reads b h pr r
  | BACK c => ∃ p', node_at h p = Some (backcmd_ p') ∧ (p' < p)%nat ∧ reads b h p' c
  end.

Lemma cstr_app w r : is_str w → cstr (w ++ 0 :: r) = w.
Proof.
  induction w as [|c w IH]; intros Hw; [done|]. cbn. assert (0 < c < 256) by (apply Hw; set_solver).
  rewrite (proj2 (Z.eqb_neq c 0)) by lia. f_equal. apply IH. intros x Hx. apply Hw. set_solver.
Qed.

Section Line.
Context (text rest : list Z).
Hypothesis Htext : is_str text.
Notation es := (length text).

(** The line with some of the bytes behind words overwritten. *)
Definition nulled (b : list Z) : Prop :=
  length b = length (text ++ 0 :: rest) ∧ b !! es = Some 0 ∧
  ∀ i c, text !! i = Some c → b !! i = Some c ∨ b !! i = Some 0 ∧ word_char c = false.
Definition zeros (b b' : list Z) : Prop := ∀ i : nat, b !! i = Some 0 → b' !! i = Some 0.

Lemma zeros_trans b1 b2 b3 : zeros b1 b2 → zeros b2 b3 → zeros b1 b3.
Proof using. clear Htext. unfold zeros. auto. Qed.

Lemma nulled_start : nulled (text ++ 0 :: rest).
Proof using.
  clear Htext. split; [done|]. split; [by apply list_lookup_middle|]. intros i c Hi. left. by apply lookup_app_l_Some.
Qed.

Lemma put_nul_run q e w s : nulled (sh_buf s) → is_word text q e w →
  ∃ b, put_nul e s = Ok tt (set_buf b s) ∧ nulled b ∧ zeros (sh_buf s) b ∧ b !! e = Some 0.
Proof using.
  clear Htext. intros (Hl & He & Hi) Hw. assert (Hlen : (e < length (sh_buf s))%nat).
  { rewrite Hl, length_app. cbn. pose proof (iw_range _ _ _ _ Hw). lia. }
  exists (<[e:=0]> (sh_buf s)). assert (Hz : zeros (sh_buf s) (<[e:=0]> (sh_buf s))).
  { intros i Hz. destruct (decide (i = e)) as [->|]; [by apply list_lookup_insert_eq|by rewrite list_lookup_insert_ne]. }
  split_and!; [|split_and!|done|by apply list_lookup_insert_eq].
  - unfold put_nul, mbind, M_bind, gets. by rewrite (proj2 (Nat.ltb_lt _ _)).
  - by rewrite length_insert.
  - by apply Hz.
  - intros i c Hc. destruct (decide (i = e)) as [->|]; [|rewrite list_lookup_insert_ne by done; by apply Hi].
    right. rewrite list_lookup_insert_eq by done. split; [done|]. pose proof (lookup_lt_Some _ _ _ Hc) as Hlt.
    pose proof (iw_end _ _ _ _ Hw Hlt) as Hx. by rewrite (nth_lookup_Some _ _ 0 _ Hc) in Hx.
Qed.

(** A word whose end has been overwritten is a string. *)
Lemma nulled_word b q e w : nulled b → is_word text q e w → b !! e = Some 0 → cstr (drop q b) = w.
Proof using Htext.
  intros (Hl & _ & Hi) [W1 W2 W3 W4] He. assert (Hlw : length w = (e - q)%nat).
  { apply (f_equal length) in W2. rewrite length_app, !length_drop in W2. lia. }
  assert (Hd : drop q b = w ++ 0 :: drop (S e) b).
  { apply list_eq. intros i. rewrite lookup_drop. destruct (decide (i < e - q)%nat) as [Hlt|Hge].
    - rewrite lookup_app_l by lia. assert (Hwi : w !! i = text !! (q + i)%nat) by (rewrite <- lookup_drop, W2, lookup_app_l by lia; done).
      rewrite Hwi. destruct (lookup_lt_is_Some_2 text (q + i)%nat) as [c Hc]; [lia|]. rewrite Hc.
      destruct (Hi _ _ Hc) as [|[_ Hx]]; [done|]. rewrite <- (nth_lookup_Some _ _ 0 _ Hc) in Hx. by rewrite W3 in Hx by lia.
    - rewrite lookup_app_r by lia. rewrite Hlw. destruct (decide (i = e - q)%nat) as [->|].
      + replace (q + (e - q))%nat with e by lia. by rewrite Nat.sub_diag.
      + destruct (i - (e - q))%nat as [|j] eqn:Ej; [lia|]. change ((0 :: drop (S e) b) !! S j) with (drop (S e) b !! j). rewrite lookup_drop. f_equal. lia. }
  rewrite Hd. apply cstr_app. intros c Hc. apply Htext.
  assert (Hin : c ∈ drop q text) by (rewrite W2; set_solver). apply (subseteq_drop q text c Hin).
Qed.

(** What the strings of [argv] need. *)
Definition words_in (b : list Z) (av : list (option nat)) (ws : list (list Z)) : Prop :=
  ∀ i w, ws !! i = Some w → ∃ q, av !! i = Some (Some q) ∧ cstr (drop q b) = w.

Lemma nul_args_run ws : ∀ av ev s,
  (∀ i w, ws !! i = Some w → ∃ q e, av !! i = Some (Some q) ∧ ev !! i = Some (Some e) ∧ is_word text q e w) →
  av !! length ws = Some None → nulled (sh_buf s) →
  ∃ b, nul_args av ev s = Ok tt (set_buf b s) ∧ nulled b ∧ zeros (sh_buf s) b ∧ ∀ b2, nulled b2 → zeros b b2 → words_in b2 av ws.
Proof using Htext.
  induction ws as [|w ws IH]; intros av ev s Ha He Hn.
  - destruct av as [|[q|] av]; try done. exists (sh_buf s). split; [by destruct s|]. split; [done|]. split; [by intros ? ?|]. intros b2 _ _ i w Hi. by rewrite lookup_nil in Hi.
  - destruct (Ha O w eq_refl) as (q & e & Hq & He' & Hw). destruct av as [|q0 av]; [done|]. destruct ev as [|e0 ev]; [done|].
    cbn in Hq, He'. injection Hq as ->. injection He' as ->. destruct (put_nul_run q e w s Hn Hw) as (b1 & E1 & N1 & Z1 & K1).
    destruct (IH av ev (set_buf b1 s)) as (b & E & N & Z & K); [intros i x Hx; exact (Ha (S i) x Hx)|exact He|exact N1|].
    exists b. split; [cbn [nul_args]; rewrite (bind_ok _ _ _ _ _ E1), E; done|]. split; [done|]. split; [by eapply zeros_trans|].
    intros b2 N2 Z2 [|i] x Hx; [|exact (K b2 N2 Z2 i x Hx)]. injection Hx as <-. exists q. split; [done|].
    eapply nulled_word; [exact N2|exact Hw|]. apply Z2, Z, K1.
Qed.

(** [nulterminate] on a structure for [t]. *)
Definition nul_ok (h : list node) (t : cmd) : Prop := ∀ p fuel s,
  repr text h p t → sh_heap s = h → nulled (sh_buf s) → (p < fuel)%nat →
  ∃ b, nulterminate fuel p s = Ok p (set_buf b s) ∧ nulled b ∧ zeros (sh_buf s) b ∧ ∀ b2, nulled b2 → zeros b b2 → reads b2 h p t.

Lemma nulterminate_node h p fuel s n : sh_heap s = h → node_at h p = Some n →
  nulterminate (S fuel) p s =
    (match n with
     | execcmd_ av ev => nul_args av ev
     | redircmd_ c _ ef _ _ => nulterminate fuel c ;; put_nul ef
     | pipecmd_ l r | listcmd_ l r => nulterminate fuel l ;; nulterminate fuel r ;; mret tt
     | backcmd_ c => nulterminate fuel c ;; mret tt
     end ;; mret p) s.
Proof using.
  clear Htext. intros Eh Hn. cbn [nulterminate]. destruct p as [|p]; [done|]. cbn [Nat.eqb]. rewrite (bind_ok _ _ _ h s) by (unfold gets; by rewrite Eh).
  rewrite Hn. by destruct n.
Qed.

Lemma nul_pair h l r pl pr p fuel s :
  nul_ok h l → nul_ok h r → repr text h pl l → repr text h pr r → (pl < p)%nat → (pr < p)%nat → sh_heap s = h → nulled (sh_buf s) → (p ≤ fuel)%nat →
  ∃ b, ((nulterminate fuel pl ;; nulterminate fuel pr ;; mret tt) ;; mret p) s = Ok p (set_buf b s) ∧ nulled b ∧ zeros (sh_buf s) b ∧
    ∀ b2, nulled b2 → zeros b b2 → reads b2 h pl l ∧ reads b2 h pr r.
Proof using.
  clear Htext. intros IHl IHr Hl Hr Hlp Hrp Eh Hn Hf. destruct (IHl pl fuel s Hl Eh Hn ltac:(lia)) as (b1 & E1 & N1 & Z1 & K1).
  destruct (IHr pr fuel (set_buf b1 s) Hr Eh N1 ltac:(lia)) as (b2 & E2 & N2 & Z2 & K2). exists b2.
  split; [|split; [done|split; [by eapply zeros_trans|]]].
  - rewrite (bind_ok _ _ _ tt (set_buf b2 s)); [done|]. rewrite (bind_ok _ _ _ _ _ E1), (bind_ok _ _ _ _ _ E2). done.
  - intros b3 N3 Z3. split; [apply K1; [done|by eapply zeros_trans]|by apply K2].
Qed.

Lemma nulterminate_run h t : nul_ok h t.
Proof using Htext.
  induction t as [ws|c IH f m d|l IHl r IHr|l IHl r IHr|c IH]; intros p fuel s Hr Eh Hn Hf; (destruct fuel as [|fuel]; [lia|]).
  - destruct Hr as (av & ev & Hp & (_ & _ & Ha) & He). rewrite (nulterminate_node _ _ _ _ _ Eh Hp).
    destruct (nul_args_run ws av ev s Ha He Hn) as (b & E & N & Z & K). exists b. rewrite (bind_ok _ _ _ _ _ E).
    split; [done|]. split; [done|]. split; [done|]. intros b2 N2 Z2. exists av, ev. split; [done|]. split; [by apply K|done].
  - destruct Hr as (p' & q & e & Hp & Hlt & Hw & Hr). rewrite (nulterminate_node _ _ _ _ _ Eh Hp).
    destruct (IH p' fuel s Hr Eh Hn ltac:(lia)) as (b1 & E1 & N1 & Z1 & K1).
    destruct (put_nul_run q e f (set_buf b1 s) N1 Hw) as (b2 & E2 & N2 & Z2 & K2). cbn in Z2. exists b2.
    split; [|split; [done|split; [by eapply zeros_trans|]]].
    + rewrite (bind_ok _ _ _ tt (set_buf b2 s)); [done|]. by rewrite (bind_ok _ _ _ _ _ E1), E2.
    + intros b3 N3 Z3. exists p', q, e. split; [done|]. split; [done|]. split; [eapply nulled_word; [done|exact Hw|by apply Z3]|].
      apply K1; [done|by eapply zeros_trans].
  - destruct Hr as (pl & pr & Hp & Hlp & Hrp & Hl & Hr). rewrite (nulterminate_node _ _ _ _ _ Eh Hp).
    destruct (nul_pair h l r pl pr p fuel s) as (b & E & N & Z & K); [done..|lia|]. exists b.
    split; [exact E|]. split; [done|]. split; [done|]. intros b2 N2 Z2. exists pl, pr. split; [done|]. do 2 (split; [done|]). by apply K.
  - destruct Hr as (pl & pr & Hp & Hlp & Hrp & Hl & Hr). rewrite (nulterminate_node _ _ _ _ _ Eh Hp).
    destruct (nul_pair h l r pl pr p fuel s) as (b & E & N & Z & K); [done..|lia|]. exists b.
    split; [exact E|]. split; [done|]. split; [done|]. intros b2 N2 Z2. exists pl, pr. split; [done|]. do 2 (split; [done|]). by apply K.
  - destruct Hr as (p' & Hp & Hlt & Hr). rewrite (nulterminate_node _ _ _ _ _ Eh Hp).
    destruct (IH p' fuel s Hr Eh Hn ltac:(lia)) as (b1 & E1 & N1 & Z1 & K1). exists b1. split; [|split; [done|split; [done|]]].
    + rewrite (bind_ok _ _ _ tt (set_buf b1 s)); [done|]. by rewrite (bind_ok _ _ _ _ _ E1).
    + intros b3 N3 Z3. exists p'. split; [done|]. split; [done|by apply K1].
Qed.
End Line.

Lemma length_lex s : (length (lex s) ≤ length s)%nat.
Proof.
  remember (length s) as n eqn:En. assert (Hn : (length s ≤ n)%nat) by lia. clear En. revert s Hn.
  induction n as [|n IH]; intros [|c r] Hn; cbn in *; try lia. assert (Hr := IH r ltac:(lia)).
  destruct (is_in whitespace c); [lia|]. destruct (c =? 62).
  { destruct r as [|d r']; [cbn; lia|]. assert (Hr' := IH r' ltac:(cbn in Hn; lia)). destruct (d =? 62); cbn [length] in *; lia. }
  destruct (is_in symbols c); [cbn; lia|]. destruct r as [|d r']; [cbn; lia|]. destruct (word_char d); [|cbn [length] in *; lia].
  destruct (lex (d :: r')) as [|[w|x] ts]; cbn [length] in *; lia.
Qed.

Lemma sim_parsecmd text rest s :
  is_str text → sh_buf s = text ++ 0 :: rest → (2 * length text + 1 ≤ sh_room s)%nat →
  match parsecmd s, t_parse (4 * length text + 4) (lex text) with
  | Ok p s', Ok t _ => reads (sh_buf s') (sh_heap s') p t
  | Err e, Err e' => e = e'
  | _, _ => False
  end.
Proof.
  intros Htext Eb Hroom. unfold parsecmd, t_parse. rewrite (bind_ok _ _ _ (sh_buf s) s) by done. rewrite Eb, cstr_app by done. cbv zeta.
  rewrite (bind_ok _ _ _ tt (set_ps 0 s)) by done. pose proof (length_lex text) as Hl.
  assert (Hat : at_ text rest 1 (set_ps 0 s) (lex text)) by (split; cbn; [done|lia|done|lia]).
  pose proof (proj1 (sim_parse text rest Htext (4 * length text + 4)) 0%nat _ _ Hat) as Hs. unfold sim in Hs.
  destruct (parseline _ _ _) as [p s1|e] eqn:E1, (t_line _ _) as [t ts1|e'] eqn:E2; try done;
    [|rewrite (bind_err _ _ _ _ E1), (bind_err _ _ _ _ E2); done].
  rewrite (bind_ok _ _ _ _ _ E1), (bind_ok _ _ _ _ _ E2). destruct Hs as (H1 & Hp & Hr).
  destruct peekable_nil as (P1 & P2 & P3). destruct (peek_run text rest Htext 0 s1 ts1 [] H1 P1 P2 P3) as (a & Ep & H2 & Ha).
  rewrite (bind_ok _ _ _ _ _ Ep). rewrite (bind_ok _ _ _ a (set_ps a s1)) by done. rewrite (bind_ok (S := list token) _ _ _ ts1 ts1) by done.
  destruct (Nat.eqb_spec a (length text)) as [E|Hne]; cbn [negb]; [|destruct ts1; [by exfalso; apply Hne, Ha|done]].
  rewrite (proj1 Ha E). rewrite (bind_ok _ _ _ (sh_heap s1) (set_ps a s1)) by done.
  destruct (nulterminate_run text rest Htext (sh_heap s1) t p (S (length (sh_heap s1))) (set_ps a s1)) as (b & En & Nn & _ & K);
    [done|done|cbn; rewrite (at_buf _ _ _ _ _ H1); apply nulled_start|pose proof (repr_le _ _ _ _ Hr); lia|].
  rewrite (bind_ok _ _ _ _ _ En). apply K; [exact Nn|by intros ? ?].
Qed.

(** C14. The parser of the shell, which works in place with pointers into the line,
    is equivalent to the grammar of command lines.  On every line it returns, or
    ends with one of its four messages; it never reads or writes outside of the
    line or of an argument vector, and the recursion ends.  When it returns, the
    structure it has built, read with the strings as the line now has them, is the
    one tree that the grammar derives for the tokens of the line; when it gives a
    message the grammar derives none.  Memory for two nodes for each byte is enough. *)
Theorem parsecmd_equiv text rest s :
  is_str text → sh_buf s = text ++ 0 :: rest → (2 * length text + 1 ≤ sh_room s)%nat →
  match parsecmd s with
  | Ok p s' => ∃ t, reads (sh_buf s') (sh_heap s') p t ∧ ∀ t', g_line (lex text) t' ↔ t' = t
  | Err e => (∀ t, ¬ g_line (lex text) t) ∧ ∃ msg, e = Panic msg ∧ msg ∈ sh_panics
  end.
Proof.
  intros Htext Eb Hroom. pose proof (sim_parsecmd text rest s Htext Eb Hroom) as Hs. pose proof (length_lex text) as Hl.
  pose proof (t_parse_spec (4 * length text + 4) (lex text) ltac:(lia)) as Hp.
  destruct (parsecmd s) as [p s'|e], (t_parse _ _) as [t ts'|e']; try done; [|by subst].
  exists t. split; [done|]. apply Hp.
Qed.

(** The line [a < b | c; d] with its newline, in a buffer of 20 bytes. *)
Definition demo_line : list Z := [97; 32; 60; 32; 98; 32; 124; 32; 99; 59; 32; 100; 10].
Definition demo_tree : cmd := LIST (PIPE (REDIR (EXEC [[97]]) [98] 0 0) (EXEC [[99]])) (EXEC [[100]]).

Lemma demo_tokens : lex demo_line = [Word [97]; Sym 60; Word [98]; Sym 124; Word [99]; Sym 59; Word [100]].
Proof. vm_compute. reflexivity. Qed.

Lemma demo_parses : t_parse 60 (lex demo_line) = Ok demo_tree [].
Proof. vm_compute. reflexivity. Qed.

Lemma parsecmd_equiv_witness : ∃ p s', parsecmd (mkSh (demo_line ++ 0 :: replicate 6 0) 0 [] 30) = Ok p s' ∧ reads (sh_buf s') (sh_heap s') p demo_tree.
Proof.
  assert (Hstr : is_str demo_line) by (intros c Hc; unfold demo_line in Hc; rewrite !elem_of_cons, elem_of_nil in Hc; lia).
  pose proof (parsecmd_equiv demo_line (replicate 6 0) (mkSh (demo_line ++ 0 :: replicate 6 0) 0 [] 30) Hstr eq_refl ltac:(cbn; lia)) as H.
  pose proof (t_parse_spec 60 (lex demo_line) ltac:(rewrite demo_tokens; cbn; lia)) as Hp. rewrite demo_parses in Hp. destruct Hp as [_ Hp].
  destruct (parsecmd _) as [p s'|e]; [|by destruct (proj1 H demo_tree); apply Hp].
  destruct H as (t & Hr & Ht). exists p, s'. split; [done|]. assert (demo_tree = t) as -> by (apply Ht, Hp; done). exact Hr.
Defined.
