(* ===== verification/ShRun.v ===== *)
(** * ShRun: what command lines do

    The descriptors of processes are as in the kernel: a table of [NOFILE]
    entries, a new descriptor is the lowest free one, [fork] copies the table.
    Under this reading of the system calls, a command line has the meaning of
    its tree: which programs run, with which arguments and descriptors, in which
    process, and who waits for whom. *)

From S2P Require Import Prelude Mmu Ulib Sh ShSpec ShParse ShClaims.

(** What a descriptor refers to: something the shell was given, an open file, an
    end of a pipe. *)
Inductive obj : Type := Given (n : nat) | Opened (path : list Z) (mode : Z) | PipeR (n : nat) | PipeW (n : nat).
Definition fdtable := list (option obj).

(** What a process does.  [Join] waits for one of the processes it has started. *)
Inductive act : Type :=
  | Ran (path : list Z) (argv : list (list Z)) (fds : fdtable)
  | Wrote (o : option obj) (msg : list Z)
  | Cd (path : list Z)
  | Spawn (l : list act)
  | Join.

Fixpoint lowest (t : fdtable) : option nat :=
  match t with
  | [] => None
  | None :: _ => Some O
  | Some _ :: t' => S <$> lowest t'
  end.
Definition fd_at (t : fdtable) (fd : Z) : option obj := default None (t !! Z.to_nat fd).

(** The descriptor that [fdalloc] of the kernel takes. *)
Lemma lowest_fdalloc t : lowest t = fst <$> list_find (λ o, o = None) t.
Proof. induction t as [|[o|] t IH]; cbn; [done| |done]. rewrite IH. by destruct (list_find _ t) as [[]|]. Qed.

(** ** Strings and lines *)

Lemma argv_of_ok b av ws : words_in b av ws → av !! length ws = Some None → argv_of b av = ws.
Proof.
  revert av. induction ws as [|w ws IH]; intros av Hw He.
  - by destruct av as [|[]].
  - destruct (Hw O w eq_refl) as (q & Hq & Eq). destruct av as [|x av]; [done|]. injection Hq as ->. cbn. rewrite Eq. f_equal.
    apply IH; [intros i x Hi; exact (Hw (S i) x Hi)|done].
Qed.

Lemma reads_le b h p t : reads b h p t → (p ≤ length h)%nat.
Proof. destruct t; cbn; naive_solver eauto using node_le. Qed.

Lemma gets_line n : ∀ line inp, (length line < n)%nat → (∀ c, c ∈ line → c ≠ 10 ∧ c ≠ 13) → gets_loop n (line ++ 10 :: inp) = (line ++ [10], inp).
Proof.
  induction n as [|n IH]; intros line inp Hl Hc; [lia|]. destruct line as [|c line]; [done|]. cbn in *.
  destruct (Hc c) as [H1 H2]; [set_solver|]. rewrite (proj2 (Z.eqb_neq c 10)), (proj2 (Z.eqb_neq c 13)) by done. cbn.
  rewrite IH; [done|lia|set_solver].
Qed.

(** A line that fits the buffer. *)
Definition good_line (line : list Z) : Prop := is_str line ∧ (∀ c, c ∈ line → c ≠ 10 ∧ c ≠ 13) ∧ (length line ≤ 98)%nat.

Lemma getcmd_line line inp : good_line line →
  getcmd (line ++ 10 :: inp) = ((line ++ [10]) ++ 0 :: replicate (98 - length line) 0, inp, 0).
Proof.
  intros (Hs & Hc & Hl). unfold getcmd, ugets. change (Z.to_nat (Z.of_nat NBUF_SH - 1)) with 99%nat. rewrite gets_line by (done || lia).
  assert (E : take NBUF_SH (((line ++ [10]) ++ [0]) ++ replicate NBUF_SH 0) = (line ++ [10]) ++ 0 :: replicate (98 - length line) 0).
  { rewrite <- (app_assoc _ [0]). rewrite take_app, length_app. cbn [length]. unfold NBUF_SH. rewrite take_ge by (rewrite length_app; cbn; lia).
    f_equal. replace (100 - (length line + 1))%nat with (S (98 - length line)) by lia. cbn [app take]. f_equal. rewrite take_replicate. f_equal. lia. }
  rewrite E. f_equal. assert (Hn : nth 0 ((line ++ [10]) ++ 0 :: replicate (98 - length line) 0) 0 ≠ 0).
  { destruct line as [|c line]; [done|]. cbn. assert (0 < c < 256) by (apply Hs; set_solver). lia. }
  by rewrite (proj2 (Z.eqb_neq _ 0)).
Qed.

Section Run.
(** Which files can be opened, which programs exist, which directories can be entered. *)
Context (can_open : list Z → Z → bool) (can_exec : list Z → bool) (can_cd : list Z → bool).

(** [n] is the number of the next pipe.  What a process does, and the new number. *)
Fixpoint run (p : prog) (t : fdtable) (n : nat) : list act * nat :=
  match p with
  | Exit | Stuck => ([], n)
  | Exec path argv failed => if can_exec path then ([Ran path argv t], n) else run failed t n
  | Open path mode k =>
      match lowest t with
      | Some fd => if can_open path mode then run (k (Z.of_nat fd)) (<[fd:=Some (Opened path mode)]> t) n else run (k (-1)) t n
      | None => run (k (-1)) t n
      end
  | Close fd k => run k (<[Z.to_nat fd:=None]> t) n
  | Dup fd k =>
      match fd_at t fd, lowest t with
      | Some o, Some j => run k (<[j:=Some o]> t) n
      | _, _ => run k t n
      end
  | Pipe k =>
      match lowest t with
      | None => run (k None) t n
      | Some p0 =>
          let t1 := <[p0:=Some (PipeR n)]> t in
          match lowest t1 with
          | None => run (k None) t n
          | Some p1 => run (k (Some (Z.of_nat p0, Z.of_nat p1))) (<[p1:=Some (PipeW n)]> t1) (S n)
          end
      end
  | Fork k =>
      let (child, n) := run (k 0) t n in
      let (l, n) := run (k 1) t n in
      (Spawn child :: l, n)
  | Wait k => let (l, n) := run k t n in (Join :: l, n)
  | Chdir path k => let (l, n) := run (k (if can_cd path then 0 else -1)) t n in (Cd path :: l, n)
  | Print fd msg k => let (l, n) := run k t n in (Wrote (fd_at t fd) msg :: l, n)
  end.

(** ** The meaning of trees *)

(** A table with the three standard descriptors and no other. *)
Definition std (i o e : obj) : fdtable := [Some i; Some o; Some e] ++ replicate 13 None.
Definition said (e : obj) (msg : list Z) : list act := [Wrote (Some e) msg].

Fixpoint meaning (t : cmd) (i o e : obj) (n : nat) : list act * nat :=
  match t with
  | EXEC [] => ([], n)
  | EXEC (path :: _ as argv) =>
      if can_exec path then ([Ran path argv (std i o e)], n)
      else (said e (text_of "exec " ++ path ++ text_of " failed" ++ newline), n)
  | REDIR c file mode fd =>
      if can_open file mode then
        if fd =? 0 then meaning c (Opened file mode) o e n else meaning c i (Opened file mode) e n
      else (said e (text_of "open " ++ file ++ text_of " failed" ++ newline), n)
  | PIPE l r =>
      let (ml, n1) := meaning l i (PipeW n) e (S n) in
      let (mr, n2) := meaning r (PipeR n) o e n1 in
      ([Spawn ml; Spawn mr; Join; Join], n2)
  | LIST l r =>
      let (ml, n1) := meaning l i o e n in
      let (mr, n2) := meaning r i o e n1 in
      (Spawn ml :: Join :: mr, n2)
  | BACK c => let (m, n1) := meaning c i o e n in ([Spawn m], n1)
  end.

(** Redirections of the standard input or output only. *)
Fixpoint plain (t : cmd) : Prop :=
  match t with
  | EXEC _ => True
  | REDIR c _ _ fd => (fd = 0 ∨ fd = 1) ∧ plain c
  | PIPE l r | LIST l r => plain l ∧ plain r
  | BACK c => plain c
  end.

Lemma plain_wrap rs : ∀ c, plain c → (∀ r, r ∈ rs → rd_fd r = 0 ∨ rd_fd r = 1) → plain (wrap rs c).
Proof using.
  induction rs as [|r rs IH]; intros c Hc Hr; [done|]. cbn. apply IH; [|set_solver]. split; [|done]. apply Hr. set_solver.
Qed.
Lemma g_redirs_fd ts rs : g_redirs ts rs → ∀ r, r ∈ rs → rd_fd r = 0 ∨ rd_fd r = 1.
Proof using.
  induction 1 as [|c w ts rs Hc _ IH]; intros r Hr; [by apply elem_of_nil in Hr|]. apply elem_of_cons in Hr as [->|Hr]; [|by apply IH].
  unfold redir_of. case_match; cbn; auto.
Qed.
Lemma g_args_fd ts ws rs : g_args ts ws rs → ∀ r, r ∈ rs → rd_fd r = 0 ∨ rd_fd r = 1.
Proof using.
  induction 1 as [|w ts1 rs1 ts ws rs H1 _ IH]; intros r Hr; [by apply elem_of_nil in Hr|]. apply elem_of_app in Hr as [Hr|Hr]; [|by apply IH].
  by eapply g_redirs_fd.
Qed.
Lemma plain_backs n c : plain c → plain (backs n c).
Proof using. intros Hc. induction n; done. Qed.
Lemma grammar_plain : (∀ ts c, g_line ts c → plain c) ∧ (∀ ts c, g_pipe ts c → plain c) ∧ (∀ ts c, g_exec ts c → plain c).
Proof using.
  apply grammar_ind; intros; cbn; auto using plain_backs.
  - apply plain_wrap; [done|]. by eapply g_redirs_fd.
  - apply plain_wrap; [done|]. intros r0 Hr. apply elem_of_app in Hr as [Hr|Hr]; [by eapply g_redirs_fd|by eapply g_args_fd].
Qed.

(** ** [runcmd] *)

Lemma run_redir_ok file mode fd sub i o e n :
  fd = 0 ∨ fd = 1 →
  run (run_redir file mode fd sub) (std i o e) n =
    if can_open file mode then run sub (if fd =? 0 then std (Opened file mode) o e else std i (Opened file mode) e) n
    else (said e (text_of "open " ++ file ++ text_of " failed" ++ newline), n).
Proof using. intros [-> | ->]; cbn; by destruct (can_open file mode). Qed.

Lemma run_list_ok l r i o e n :
  run (run_list l r) (std i o e) n =
    let (ml, n1) := run l (std i o e) n in let (mr, n2) := run r (std i o e) n1 in (Spawn ml :: Join :: mr, n2).
Proof using. unfold run_list, fork1. cbn [run Z.eqb]. destruct (run l _ n) as [ml n1]. by destruct (run r _ n1). Qed.

Lemma run_pipe_ok l r i o e n :
  run (run_pipe l r) (std i o e) n =
    let (ml, n1) := run l (std i (PipeW n) e) (S n) in let (mr, n2) := run r (std (PipeR n) o e) n1 in
    ([Spawn ml; Spawn mr; Join; Join], n2).
Proof using.
  change (run (run_pipe l r) (std i o e) n) with
    (let (ml, n1) := run l (std i (PipeW n) e) (S n) in
     let (l1, n2) := (let (mr, n2) := run r (std (PipeR n) o e) n1 in ([Spawn mr; Join; Join], n2)) in (Spawn ml :: l1, n2)).
  destruct (run l _ (S n)) as [ml n1]. by destruct (run r _ n1).
Qed.

Lemma runcmd_meaning b h t : ∀ p fuel i o e n,
  reads b h p t → plain t → (p < fuel)%nat → run (runcmd fuel b h p) (std i o e) n = meaning t i o e n.
Proof using.
  induction t as [ws|c IH f m d|l IHl r IHr|l IHl r IHr|c IH]; intros p fuel i o e n Hr Hp Hf; (destruct fuel as [|fuel]; [lia|]);
    cbn [runcmd]; (destruct p as [|p]; [by destruct Hr as (? & Hr); naive_solver|]); cbn [Nat.eqb].
  - destruct Hr as (av & ev & -> & Hw & He). unfold run_exec. rewrite (argv_of_ok b av ws Hw He).
    destruct ws as [|w ws]; [done|]. cbn. by destruct (can_exec w).
  - destruct Hr as (p' & q & e' & -> & Hlt & Hq & Hr). destruct Hp as [Hd Hp]. rewrite run_redir_ok, Hq by done. cbn [meaning].
    destruct (can_open f m); [|done]. destruct (d =? 0); apply IH; done || lia.
  - destruct Hr as (pl & pr & -> & Hl1 & Hr1 & Hl & Hr). destruct Hp as [Hp1 Hp2]. rewrite run_pipe_ok. cbn [meaning].
    rewrite IHl by (done || lia). destruct (meaning l _ _ _ _). by rewrite IHr by (done || lia).
  - destruct Hr as (pl & pr & -> & Hl1 & Hr1 & Hl & Hr). destruct Hp as [Hp1 Hp2]. rewrite run_list_ok. cbn [meaning].
    rewrite IHl by (done || lia). destruct (meaning l _ _ _ _). by rewrite IHr by (done || lia).
  - destruct Hr as (p' & -> & Hlt & Hr). unfold run_back, fork1. cbn [run Z.eqb meaning]. rewrite IH by (done || lia). by destruct (meaning c _ _ _ _).
Qed.

(** ** The main loop *)

(** What the child of the shell does with a line. *)
Definition line_does (text : list Z) (i o e : obj) (n : nat) (m : list act) (n' : nat) : Prop :=
  (∃ t, g_line (lex text) t ∧ meaning t i o e n = (m, n')) ∨
  (∀ t, ¬ g_line (lex text) t) ∧ n' = n ∧ ∃ msg, msg ∈ sh_panics ∧ m = said e (text_of msg ++ newline).

Lemma run_line_does room text rest i o e n :
  is_str text → (2 * length text + 1 ≤ room)%nat →
  ∃ m n', line_does text i o e n m n' ∧ run (run_line room (text ++ 0 :: rest)) (std i o e) n = (m, n').
Proof using.
  intros Hs Hr. unfold run_line. pose proof (sim_parsecmd text rest (mkSh (text ++ 0 :: rest) 0 [] room) Hs eq_refl Hr) as H.
  pose proof (length_lex text) as Hl. pose proof (t_parse_spec (4 * length text + 4) (lex text) ltac:(lia)) as Hp.
  destruct (parsecmd _) as [p s'|er], (t_parse _ _) as [t ts'|er']; try done.
  - destruct Hp as [_ Hp]. assert (Hg : g_line (lex text) t) by (by apply Hp).
    destruct (meaning t i o e n) as [m n'] eqn:Em. exists m, n'. split; [left; by exists t|]. rewrite <- Em.
    apply runcmd_meaning; [done|exact (proj1 grammar_plain _ _ Hg)|]. pose proof (reads_le _ _ _ _ H). lia.
  - destruct Hp as [Hp (msg & -> & Hm)]. subst er. exists (said e (text_of msg ++ newline)), n. split; [right; split_and!; [done|done|by exists msg]|]. done.
Qed.

End Run.


(** [cd] takes the last byte of the line away, newline or not: at the end of the
    input the directory [ab] becomes [a]. *)
Lemma cd_without_newline :
  (run (λ _ _, true) (λ _, true) (λ _, true) (sh_loop 200 2 [99; 100; 32; 97; 98]) (std (Given 0) (Given 1) (Given 2)) 0).1 =
    [Wrote (Some (Given 2)) (text_of "$ "); Cd [97]; Wrote (Some (Given 2)) (text_of "$ ")].
Proof. vm_compute. reflexivity. Qed.
