(* ===== verification/Printf.v ===== *)
(** * Printf: formatted output, [printf.c] and [cprintf] of [console.c]

    The output is the list of the bytes given to [putc] or [consputc].  The
    arguments behind the format are the words on the stack; [str a] is the string
    at the address [a]. *)

From S2P Require Import Prelude Mmu Ulib.

Definition upper_digits : list Z := [48; 49; 50; 51; 52; 53; 54; 55; 56; 57; 65; 66; 67; 68; 69; 70].
Definition lower_digits : list Z := [48; 49; 50; 51; 52; 53; 54; 55; 56; 57; 97; 98; 99; 100; 101; 102].

(** ** Integers *)

(** [do buf[i++] = digits[x % base]; while((x /= base) != 0)]: [buf] so far.  A
    word has at most 32 digits. *)
Fixpoint put_digits (fuel : nat) (digits : list Z) (x base : Z) (buf : list Z) : list Z :=
  match fuel with
  | O => buf
  | S fuel' =>
      let buf := buf ++ [nth (Z.to_nat (x mod base)) digits 0] in
      let x := x / base in
      if x =? 0 then buf else put_digits fuel' digits x base buf
  end.

(** [None] if more than the 16 bytes of [buf] are written. *)
Definition print_buf (buf : list Z) : option (list Z) :=
  if (length buf <=? 16)%nat then Some (reverse buf) else None.

Definition uprintint (xx base : Z) (sgn : bool) : option (list Z) :=
  let neg := sgn && (xx <? 0) in
  let x := u32 (if neg then - xx else xx) in
  let buf := put_digits 32 upper_digits x base [] in
  print_buf (if neg then buf ++ [45] else buf).

Definition kprintint (xx base : Z) (sign : bool) : option (list Z) :=
  let sign := sign && (xx <? 0) in
  let x := u32 (if sign then - xx else xx) in
  let buf := put_digits 32 lower_digits x base [] in
  print_buf (if sign then buf ++ [45] else buf).

(** ** Formats *)

Definition PERCENT := 37.
Definition null_str : list Z := [40; 110; 117; 108; 108; 41].   (* "(null)" *)

Section Formats.
Context (str : Z → list Z).

(** What a conversion prints and the arguments it leaves; [None] when it reads
    an argument that is not there. *)
Definition conv_int (print : Z → Z → bool → option (list Z)) (base : Z) (sgn : bool) (args : list Z) : option (list Z * list Z) :=
  match args with
  | a :: args' => o ← print (s32 a) base sgn; Some (o, args')
  | [] => None
  end.
Definition conv_str (args : list Z) : option (list Z * list Z) :=
  match args with
  | a :: args' => Some (if a =? 0 then null_str else str a, args')
  | [] => None
  end.

(** [printf]: [state] says whether a [%] has been read. *)
Fixpoint printf_loop (fmt : list Z) (state : bool) (args : list Z) : option (list Z) :=
  match fmt with
  | [] => Some []
  | c :: fmt' =>
      if negb state then
        if c =? PERCENT then printf_loop fmt' true args
        else out ← printf_loop fmt' false args; Some (c :: out)
      else
        '(o, args') ←
          (if c =? 100 then conv_int uprintint 10 true args
           else if (c =? 120) || (c =? 112) then conv_int uprintint 16 false args
           else if c =? 115 then conv_str args
           else if c =? 99 then match args with a :: args' => Some ([u8 a], args') | [] => None end
           else if c =? PERCENT then Some ([c], args)
           else Some ([PERCENT; c], args));
        out ← printf_loop fmt' false args';
        Some (o ++ out)
  end.
Definition printf (fmt args : list Z) : option (list Z) := printf_loop fmt false args.

(** [cprintf]: no [%c], and a [%] at the end of the format prints nothing. *)
Fixpoint cprintf (fmt args : list Z) : option (list Z) :=
  match fmt with
  | [] => Some []
  | c :: fmt1 =>
      if negb (c =? PERCENT) then out ← cprintf fmt1 args; Some (c :: out)
      else
        match fmt1 with
        | [] => Some []
        | c :: fmt2 =>
            '(o, args') ←
              (if c =? 100 then conv_int kprintint 10 true args
               else if (c =? 120) || (c =? 112) then conv_int kprintint 16 false args
               else if c =? 115 then conv_str args
               else if c =? PERCENT then Some ([PERCENT], args)
               else Some ([PERCENT; c], args));
            out ← cprintf fmt2 args';
            Some (o ++ out)
        end
  end.
End Formats.

(** ** The digits denote the number *)

(** The number written by digits, most significant first. *)
Definition value (base : Z) (ds : list Z) : Z := foldl (λ n d, n * base + d) 0 ds.

Lemma put_digits_app fuel digits base : ∀ x buf, put_digits fuel digits x base buf = buf ++ put_digits fuel digits x base [].
Proof.
  induction fuel as [|fuel IH]; intros x buf; cbn [put_digits]; [by rewrite app_nil_r|].
  destruct (x / base =? 0); [done|]. rewrite IH, (IH (x / base) ([] ++ _)). by rewrite <- app_assoc.
Qed.

(** The digits of [x], as numbers, least significant first. *)
Fixpoint digits_of (fuel : nat) (base x : Z) : list Z :=
  match fuel with
  | O => []
  | S fuel' => x mod base :: (if x / base =? 0 then [] else digits_of fuel' base (x / base))
  end.

Lemma put_digits_of fuel digits base : ∀ x, put_digits fuel digits x base [] = (λ d, nth (Z.to_nat d) digits 0) <$> digits_of fuel base x.
Proof.
  induction fuel as [|fuel IH]; intros x; [done|]. cbn [put_digits digits_of]. rewrite fmap_cons.
  destruct (x / base =? 0); [done|]. rewrite put_digits_app, IH. done.
Qed.

Lemma value_reverse base l : value base (reverse l) = foldr (λ d n, n * base + d) 0 l.
Proof. unfold value. induction l as [|d l IH]; [done|]. rewrite reverse_cons, foldl_app, IH. done. Qed.

Lemma digits_of_ok fuel base : ∀ x, 1 < base → 0 ≤ x < base ^ Z.of_nat fuel →
  value base (reverse (digits_of fuel base x)) = x ∧ Forall (λ d, 0 ≤ d < base) (digits_of fuel base x).
Proof.
  induction fuel as [|fuel IH]; intros x Hb Hx; rewrite value_reverse; cbn [digits_of foldr].
  { rewrite Z.pow_0_r in Hx. split; [lia|constructor]. }
  pose proof (Z.mod_pos_bound x base ltac:(lia)) as Hm. pose proof (Z.div_mod x base ltac:(lia)) as Hd.
  destruct (Z.eqb_spec (x / base) 0) as [E|E].
  - cbn. split; [lia|]. by repeat constructor; lia.
  - destruct (IH (x / base) Hb) as [Hv Hf].
    { rewrite Nat2Z.inj_succ, Z.pow_succ_r in Hx by lia. split; [apply Z.div_pos; lia|]. apply Z.div_lt_upper_bound; lia. }
    rewrite value_reverse in Hv. rewrite Hv. split; [lia|]. by constructor.
Qed.

Lemma length_digits base fuel : ∀ k x, 1 < base → 0 ≤ x < base ^ Z.of_nat k → (0 < k)%nat → (length (digits_of fuel base x) ≤ k)%nat.
Proof.
  induction fuel as [|fuel IH]; intros k x Hb Hx Hk; cbn; [lia|]. destruct k as [|k]; [lia|].
  destruct (Z.eqb_spec (x / base) 0) as [E|E]; [cbn; lia|]. rewrite Nat2Z.inj_succ, Z.pow_succ_r in Hx by lia.
  apply le_n_S, IH; [done| |].
  - split; [apply Z.div_pos; lia|]. apply Z.div_lt_upper_bound; lia.
  - destruct k; [|lia]. rewrite Z.pow_0_r, Z.mul_1_r in Hx. rewrite Z.div_small in E by lia. lia.
Qed.

Definition digit_char (digits : list Z) (d : Z) : Z := nth (Z.to_nat d) digits 0.

Lemma print_digits_ok digits base x k :
  1 < base → 0 ≤ x < base ^ Z.of_nat k → (0 < k ≤ 15)%nat →
  ∃ ds, value base ds = x ∧ Forall (λ d, 0 ≤ d < base) ds ∧
    print_buf (put_digits 32 digits x base []) = Some (digit_char digits <$> ds) ∧
    print_buf (put_digits 32 digits x base [] ++ [45]) = Some (45 :: (digit_char digits <$> ds)).
Proof.
  intros Hb Hx Hk. exists (reverse (digits_of 32 base x)).
  destruct (digits_of_ok 32 base x Hb) as [Hv Hf].
  { split; [lia|]. eapply Z.lt_le_trans; [apply Hx|]. apply Z.pow_le_mono_r; lia. }
  pose proof (length_digits base 32 k x Hb Hx ltac:(lia)) as Hl.
  rewrite put_digits_of. unfold print_buf. rewrite !length_app, length_fmap. cbn [length].
  rewrite !(proj2 (Nat.leb_le _ _)) by lia. split_and!; [done|by apply Forall_reverse|by rewrite fmap_reverse|].
  by rewrite reverse_app, fmap_reverse.
Qed.

Lemma value_mono ds : ∀ n, 0 ≤ n → Forall (λ d, 0 ≤ d < 10) ds → n ≤ foldl (λ n d, n * 10 + d) n ds.
Proof.
  induction ds as [|d ds IH]; intros n Hn Hf; cbn; [lia|]. apply Forall_cons in Hf as [Hd Hf].
  specialize (IH (n * 10 + d) ltac:(lia) Hf). lia.
Qed.

Lemma atoi_digits digits ds : (∀ d, 0 ≤ d < 10 → digit_char digits d = 48 + d) → ∀ n,
  0 ≤ n → Forall (λ d, 0 ≤ d < 10) ds → foldl (λ n d, n * 10 + d) n ds < 2147483648 →
  atoi_loop n (digit_char digits <$> ds) = foldl (λ n d, n * 10 + d) n ds.
Proof.
  intros Hc. induction ds as [|d ds IH]; intros n Hn Hf Hv; [done|]. apply Forall_cons in Hf as [Hd Hf]. cbn [foldl] in *.
  rewrite fmap_cons. cbn [atoi_loop]. rewrite (Hc d Hd).
  rewrite (proj2 (Z.leb_le 48 _)), (proj2 (Z.leb_le _ 57)) by lia. cbn [andb].
  pose proof (value_mono ds (n * 10 + d) ltac:(lia) Hf).
  replace (n * 10 + (48 + d) - 48) with (n * 10 + d) by lia. rewrite s32_small by lia. apply IH; [lia|done|done].
Qed.

Lemma digit_chars digits d : digits = upper_digits ∨ digits = lower_digits → 0 ≤ d < 10 → digit_char digits d = 48 + d.
Proof.
  intros Hd H. assert (Hc : d = 0 ∨ d = 1 ∨ d = 2 ∨ d = 3 ∨ d = 4 ∨ d = 5 ∨ d = 6 ∨ d = 7 ∨ d = 8 ∨ d = 9) by lia.
  destruct Hd as [-> | ->]; naive_solver.
Qed.

(** The number printer of the kernel, or that of the user library. *)
Definition printer (kernel : bool) : Z → Z → bool → option (list Z) := if kernel then kprintint else uprintint.
Definition digit_table (kernel : bool) : list Z := if kernel then lower_digits else upper_digits.

Lemma printer_eq kernel xx base sgn :
  printer kernel xx base sgn =
  let neg := sgn && (xx <? 0) in
  let buf := put_digits 32 (digit_table kernel) (u32 (if neg then - xx else xx)) base [] in
  print_buf (if neg then buf ++ [45] else buf).
Proof. by destruct kernel. Qed.

(** C36. The number printers of [printf] and [cprintf] stay inside their buffer
    for every [int], the smallest one included, and print its value: [%d] a sign
    and decimal digits that denote the absolute value, [%x] hexadecimal digits
    that denote it as an unsigned number; [atoi] reads back what [%d] printed of a
    number that is not negative. *)
Theorem printint_denotes (kernel : bool) (xx : Z) :
  -2147483648 ≤ xx < 2147483648 →
  (∃ ds, printer kernel xx 10 true = Some ((if xx <? 0 then [45] else []) ++ (digit_char (digit_table kernel) <$> ds)) ∧
     value 10 ds = Z.abs xx ∧ Forall (λ d, 0 ≤ d < 10) ds) ∧
  (∃ ds, printer kernel xx 16 false = Some (digit_char (digit_table kernel) <$> ds) ∧
     value 16 ds = u32 xx ∧ Forall (λ d, 0 ≤ d < 16) ds) ∧
  (0 ≤ xx → ∃ o, printer kernel xx 10 true = Some o ∧ atoi o = xx).
Proof.
  intros Hx. rewrite !printer_eq. cbn [andb].
  assert (Hu : u32 (if xx <? 0 then - xx else xx) = Z.abs xx).
  { rewrite u32_small; destruct (Z.ltb_spec xx 0); unfold is_u32; lia. }
  rewrite Hu. destruct (print_digits_ok (digit_table kernel) 10 (Z.abs xx) 10) as (ds & Hv & Hf & E1 & E2); [lia|lia|lia|].
  destruct (print_digits_ok (digit_table kernel) 16 (u32 xx) 8) as (hs & Hv' & Hf' & E1' & _); [lia|unfold u32; dlia|lia|].
  split_and!.
  - exists ds. split; [|done]. by destruct (xx <? 0).
  - by exists hs.
  - intros H0. rewrite (proj2 (Z.ltb_ge xx 0)) by lia. exists (digit_char (digit_table kernel) <$> ds). split; [done|].
    unfold value in Hv. unfold atoi. rewrite atoi_digits; [lia| |lia|done|lia].
    intros d. apply digit_chars. destruct kernel; auto.
Qed.

Lemma printint_denotes_witness :
  kprintint (-2147483648) 10 true = Some [45; 50; 49; 52; 55; 52; 56; 51; 54; 52; 56] ∧
  ∃ o, printer false 2147483647 10 true = Some o ∧ atoi o = 2147483647.
Proof.
  split; [vm_compute; reflexivity|]. refine (proj2 (proj2 (printint_denotes false 2147483647 _)) _); lia.
Defined.

(** ["%d%%"] of -5. *)
Lemma printf_example : printf (λ _, []) [37; 100; 37; 37] [4294967291] = Some [45; 53; 37].
Proof. reflexivity. Qed.
