(* ===== verification/Uprogs.v ===== *)
(** * Uprogs: the user programs

    A program runs on a world [W], of which it sees what system calls return.
    It ends by calling [exit]; a loop that has used up its fuel has not ended. *)

From S2P Require Import Prelude Mmu Ulib Grep Printf.

(** What [fstat] fills in. *)
Record ustat := mkUstat { us_type : Z; us_ino : Z; us_size : Z }.

(** The calls of [user.h] that the programs make.  A read gives the bytes it has put in
    the buffer beside its result. *)
Class Sys (W : Type) := {
  u_open : list Z → Z → W → Z * W;
  u_read : Z → Z → W → (Z * list Z) * W;
  u_write : Z → list Z → W → Z * W;
  u_close : Z → W → Z * W;
  u_fstat : Z → W → (Z * ustat) * W;
  u_link : list Z → list Z → W → Z * W;
  u_unlink : list Z → W → Z * W;
  u_mkdir : list Z → W → Z * W;
  u_mknod : list Z → Z → Z → W → Z * W;
  u_kill : Z → W → Z * W;
  u_dup : Z → W → Z * W;
  u_fork : W → Z * W;
  u_wait : W → Z * W;
  (** [None] if the program has been replaced. *)
  u_exec : list Z → list (list Z) → W → option Z * W;
  u_sleep : Z → W → Z * W
}.

Inductive ures (W A : Type) : Type := Ret (a : A) (w : W) | Exited (w : W) | Running.
Arguments Ret {W A} a w.
Arguments Exited {W A} w.
Arguments Running {W A}.
Definition U (W A : Type) : Type := W → ures W A.
#[global] Instance U_ret {W} : MRet (U W) := λ A a w, Ret a w.
#[global] Instance U_bind {W} : MBind (U W) := λ A B f c w,
  match c w with Ret a w' => f a w' | Exited w' => Exited w' | Running => Running end.
#[global] Arguments U_bind : simpl never.
#[global] Arguments U_ret : simpl never.

Definition call {W A} (f : W → A * W) : U W A := λ w, let (a, w') := f w in Ret a w'.
Definition exit_ {W A} : U W A := λ w, Exited w.
Definition running {W A} : U W A := λ _, Running.

Section Programs.
Context {W : Type} `{Sys W}.

(** [putc] of [printf.c], for each byte; the results are ignored. *)
Fixpoint puts (fd : Z) (text : list Z) : U W unit :=
  match text with
  | [] => mret tt
  | c :: text' => call (u_write fd [c]) ;; puts fd text'
  end.
Notation say fd s := (puts fd (bytes_of_string s)).
Definition nl : list Z := [10].
(** [%d] *)
Definition num (v : Z) : list Z := default [] (uprintint v 10 true).

(** [for(i = k; i < argc; i++)] *)
Fixpoint each (args : list (list Z)) (f : list Z → U W unit) : U W unit :=
  match args with [] => mret tt | a :: args' => f a ;; each args' f end.

(** ** [echo.c] *)
Fixpoint echo_args (args : list (list Z)) : U W unit :=
  match args with
  | [] => mret tt
  | a :: args' => puts 1 (a ++ (match args' with [] => nl | _ => [32] end)) ;; echo_args args'
  end.
Definition echo_main (argv : list (list Z)) : U W unit := echo_args (tail argv) ;; exit_.

(** ** [cat.c] *)
Fixpoint cat (fuel : nat) (fd : Z) : U W unit :=
  match fuel with
  | O => running
  | S fuel' =>
      '(n, buf) ← call (u_read fd 512);
      if 0 <? n then
        r ← call (u_write 1 (take (Z.to_nat n) buf));
        if negb (r =? n) then say 1 "cat: write error" ;; puts 1 nl ;; exit_ else cat fuel' fd
      else if n <? 0 then say 1 "cat: read error" ;; puts 1 nl ;; exit_
      else mret tt
  end.
Definition cat_main (fuel : nat) (argv : list (list Z)) : U W unit :=
  match tail argv with
  | [] => cat fuel 0 ;; exit_
  | args =>
      each args (λ a,
        fd ← call (u_open a 0);
        if fd <? 0 then say 1 "cat: cannot open " ;; puts 1 (a ++ nl) ;; exit_
        else cat fuel fd ;; call (u_close fd) ;; mret tt) ;;
      exit_
  end.

(** ** [wc.c] *)

(** [l], [w], [c] and [inword]; the counts wrap around as the machine's do. *)
Record wcst := mkWc { wc_l : Z; wc_w : Z; wc_c : Z; wc_in : bool }.
Definition wc_white : list Z := [32; 13; 9; 10; 11].
Definition wc_byte (s : wcst) (b : Z) : wcst :=
  let l := if b =? 10 then s32 (wc_l s + 1) else wc_l s in
  let c := s32 (wc_c s + 1) in
  match strchr wc_white b with
  | Some _ => mkWc l (wc_w s) c false
  | None => if wc_in s then mkWc l (wc_w s) c true else mkWc l (s32 (wc_w s + 1)) c true
  end.
Fixpoint wc_loop (fuel : nat) (fd : Z) (s : wcst) : U W (Z * wcst) :=
  match fuel with
  | O => running
  | S fuel' =>
      '(n, buf) ← call (u_read fd 512);
      if 0 <? n then wc_loop fuel' fd (foldl wc_byte s (take (Z.to_nat n) buf)) else mret (n, s)
  end.
Definition wc (fuel : nat) (fd : Z) (name : list Z) : U W unit :=
  '(n, s) ← wc_loop fuel fd (mkWc 0 0 0 false);
  if n <? 0 then say 1 "wc: read error" ;; puts 1 nl ;; exit_
  else puts 1 (num (wc_l s) ++ [32] ++ num (wc_w s) ++ [32] ++ num (wc_c s) ++ [32] ++ name ++ nl).
Definition wc_main (fuel : nat) (argv : list (list Z)) : U W unit :=
  match tail argv with
  | [] => wc fuel 0 [] ;; exit_
  | args =>
      each args (λ a,
        fd ← call (u_open a 0);
        if fd <? 0 then say 1 "wc: cannot open " ;; puts 1 (a ++ nl) ;; exit_
        else wc fuel fd a ;; call (u_close fd) ;; mret tt) ;;
      exit_
  end.

(** ** [kill.c], [ln.c], [mkdir.c], [rm.c], [zombie.c] *)
Definition kill_main (argv : list (list Z)) : U W unit :=
  match tail argv with
  | [] => say 2 "usage: kill pid..." ;; puts 2 nl ;; exit_
  | args => each args (λ a, call (u_kill (atoi a)) ;; mret tt) ;; exit_
  end.

Definition ln_main (argv : list (list Z)) : U W unit :=
  match argv with
  | [_; old; new] =>
      r ← call (u_link old new);
      (if r <? 0 then say 2 "link " ;; puts 2 (old ++ [32] ++ new) ;; say 2 ": failed" ;; puts 2 nl else mret tt) ;;
      exit_
  | _ => say 2 "Usage: ln old new" ;; puts 2 nl ;; exit_
  end.

(** The loop of [mkdir] and [rm]: it stops at the first that fails. *)
Fixpoint until_fails (f : list Z → W → Z * W) (before after : string) (args : list (list Z)) : U W unit :=
  match args with
  | [] => mret tt
  | a :: args' =>
      r ← call (f a);
      if r <? 0 then say 2 before ;; puts 2 a ;; say 2 after ;; puts 2 nl
      else until_fails f before after args'
  end.
Definition mkdir_main (argv : list (list Z)) : U W unit :=
  match tail argv with
  | [] => say 2 "Usage: mkdir files..." ;; puts 2 nl ;; exit_
  | args => until_fails u_mkdir "mkdir: " " failed to create" args ;; exit_
  end.
Definition rm_main (argv : list (list Z)) : U W unit :=
  match tail argv with
  | [] => say 2 "Usage: rm files..." ;; puts 2 nl ;; exit_
  | args => until_fails u_unlink "rm: " " failed to delete" args ;; exit_
  end.

Definition zombie_main : U W unit :=
  pid ← call u_fork;
  (if 0 <? pid then call (u_sleep 5) ;; mret tt else mret tt) ;;
  exit_.

(** ** [init.c] *)

(** [while((wpid=wait()) >= 0 && wpid != pid)] *)
Fixpoint init_wait (fuel : nat) (pid : Z) : U W unit :=
  match fuel with
  | O => running
  | S fuel' =>
      wpid ← call u_wait;
      if (0 <=? wpid) && negb (wpid =? pid) then say 1 "zombie!" ;; puts 1 nl ;; init_wait fuel' pid
      else mret tt
  end.
(** [for(;;)]: every round has the fuel left. *)
Fixpoint init_loop (fuel : nat) : U W unit :=
  match fuel with
  | O => running
  | S fuel' =>
      say 1 "init: starting sh" ;; puts 1 nl ;;
      pid ← call u_fork;
      if pid <? 0 then say 1 "init: fork failed" ;; puts 1 nl ;; exit_
      else if pid =? 0 then
        r ← call (u_exec (bytes_of_string "sh") [bytes_of_string "sh"]);
        match r with
        | None => exit_
        | Some _ => say 1 "init: exec sh failed" ;; puts 1 nl ;; exit_
        end
      else init_wait fuel' pid ;; init_loop fuel'
  end.
Definition init_main (fuel : nat) : U W unit :=
  let console := bytes_of_string "console" in
  fd ← call (u_open console 2);
  (if fd <? 0 then call (u_mknod console 1 1) ;; call (u_open console 2) ;; mret tt else mret tt) ;;
  call (u_dup 0) ;;
  call (u_dup 0) ;;
  init_loop fuel.

(** ** [stat] of [ulib.c] *)
Definition ustat_path (n : list Z) : U W (Z * option ustat) :=
  fd ← call (u_open n 0);
  if fd <? 0 then mret (-1, None)
  else
    '(r, st) ← call (u_fstat fd);
    call (u_close fd) ;;
    mret (r, Some st).

(** ** [ls.c] *)

(** What is after the last slash. *)
Fixpoint after_slash (path : list Z) : list Z :=
  match path with
  | [] => []
  | c :: path' => if existsb (Z.eqb 47) path' then after_slash path' else if c =? 47 then path' else path
  end.
Definition fmtname (path : list Z) : list Z :=
  let p := after_slash path in
  if (14 <=? length p)%nat then p else p ++ replicate (14 - length p) 32.

Definition ls_line (path : list Z) (st : ustat) : list Z :=
  fmtname path ++ [32] ++ num (us_type st) ++ [32] ++ num (s32 (us_ino st)) ++ [32] ++ num (s32 (us_size st)) ++ nl.
Fixpoint until_nul (s : list Z) : list Z :=
  match s with [] => [] | c :: s' => if c =? 0 then [] else c :: until_nul s' end.

(** The loop over the entries of a directory; [dir] is [buf] up to [p]. *)
Fixpoint ls_dir (fuel : nat) (fd : Z) (dir : list Z) : U W unit :=
  match fuel with
  | O => running
  | S fuel' =>
      '(n, de) ← call (u_read fd 16);
      if negb (n =? 16) then mret tt
      else if nth 0 de 0 + 256 * nth 1 de 0 =? 0 then ls_dir fuel' fd dir
      else
        let buf := dir ++ until_nul (take 14 (drop 2 de)) in
        '(r, st) ← ustat_path buf;
        match st with
        | Some st => if r <? 0 then say 1 "ls: cannot stat " ;; puts 1 (buf ++ nl) else puts 1 (ls_line buf st)
        | None => say 1 "ls: cannot stat " ;; puts 1 (buf ++ nl)
        end ;;
        ls_dir fuel' fd dir
  end.
Definition ls (fuel : nat) (path : list Z) : U W unit :=
  fd ← call (u_open path 0);
  if fd <? 0 then say 2 "ls: cannot open " ;; puts 2 (path ++ nl)
  else
    '(r, st) ← call (u_fstat fd);
    if r <? 0 then say 2 "ls: cannot stat " ;; puts 2 (path ++ nl) ;; call (u_close fd) ;; mret tt
    else
      (if us_type st =? 2 then puts 1 (ls_line path st)
       else if us_type st =? 1 then
         if (512 <? length path + 1 + 14 + 1)%nat then say 1 "ls: path too long" ;; puts 1 nl
         else ls_dir fuel fd (path ++ [47])
       else mret tt) ;;
      call (u_close fd) ;;
      mret tt.
Definition ls_main (fuel : nat) (argv : list (list Z)) : U W unit :=
  match tail argv with
  | [] => ls fuel (bytes_of_string ".") ;; exit_
  | args => each args (ls fuel) ;; exit_
  end.
End Programs.
Notation say fd s := (puts fd (bytes_of_string s)).

(** ** Standard input and output *)

(** What is left to be read from descriptor 0, and what has been written to 1: a read takes
    a part of what is left, of any size, and nothing only at its end; a write takes all. *)
Class Stdio (W : Type) `{Sys W} := {
  s_in : W → list Z;
  s_out : W → list Z;
  std_read n w : 0 < n → ∃ c w', u_read 0 n w = ((Z.of_nat (length c), c), w') ∧
    s_in w = c ++ s_in w' ∧ (c = [] → s_in w = []) ∧ Z.of_nat (length c) ≤ n ∧ s_out w' = s_out w;
  std_write bs w : ∃ w', u_write 1 bs w = (Z.of_nat (length bs), w') ∧
    s_out w' = s_out w ++ bs ∧ s_in w' = s_in w
}.

Lemma u_bind_ret {W A B} (c : U W A) (f : A → U W B) w a w' : c w = Ret a w' → (c ≫= f) w = f a w'.
Proof. intros E. unfold mbind, U_bind. by rewrite E. Qed.
Lemma u_call {W A B} (g : W → A * W) (f : A → U W B) w a w' : g w = (a, w') → (call g ≫= f) w = f a w'.
Proof. intros E. apply u_bind_ret. unfold call. by rewrite E. Qed.
Lemma u_bind_exited {W A B} (c : U W A) (f : A → U W B) w w' : c w = Exited w' → (c ≫= f) w = Exited w'.
Proof. intros E. unfold mbind, U_bind. by rewrite E. Qed.

Section Filters.
Context {W : Type} `{Stdio W}.

Lemma puts_out text w : ∃ w', puts 1 text w = Ret tt w' ∧ s_out w' = s_out w ++ text ∧ s_in w' = s_in w.
Proof.
  revert w. induction text as [|c text IH]; intros w.
  { exists w. by rewrite app_nil_r. }
  destruct (std_write [c] w) as (w1 & E1 & O1 & I1). destruct (IH w1) as (w2 & E2 & O2 & I2).
  exists w2. split; [|split; [|congruence]].
  - cbn [puts]. by rewrite (u_call _ _ _ _ _ E1).
  - by rewrite O2, O1, <- app_assoc.
Qed.

(** [echo] writes its arguments with a space between them and a newline at the end. *)
Fixpoint joined (args : list (list Z)) : list Z :=
  match args with
  | [] => []
  | [a] => a ++ nl
  | a :: args' => a ++ [32] ++ joined args'
  end.
Lemma echo_joins name args w :
  ∃ w', echo_main (name :: args) w = Exited w' ∧ s_out w' = s_out w ++ joined args ∧ s_in w' = s_in w.
Proof.
  assert (∀ args w, ∃ w', echo_args args w = Ret tt w' ∧ s_out w' = s_out w ++ joined args ∧ s_in w' = s_in w) as Hl.
  { clear. induction args as [|a args IH]; intros w; [exists w; by rewrite app_nil_r|].
    cbn [echo_args].
    destruct (puts_out (a ++ match args with [] => nl | _ => [32] end) w) as (w1 & E1 & O1 & I1).
    destruct (IH w1) as (w2 & E2 & O2 & I2). exists w2.
    rewrite (u_bind_ret _ _ _ _ _ E1). split; [done|]. split; [|congruence].
    rewrite O2, O1. destruct args; cbn [joined]; by rewrite <- ?app_assoc, ?app_nil_r. }
  destruct (Hl args w) as (w' & E & O & I). exists w'. unfold echo_main. cbn [tail].
  by rewrite (u_bind_ret _ _ _ _ _ E).
Qed.

(** [cat] without arguments writes what it reads, however the reads cut it up. *)
Lemma cat_loop_copies fuel w : (length (s_in w) < fuel)%nat →
  ∃ w', cat fuel 0 w = Ret tt w' ∧ s_out w' = s_out w ++ s_in w ∧ s_in w' = [].
Proof.
  revert w. induction fuel as [|fuel IH]; intros w Hf; [lia|]. cbn [cat].
  destruct (std_read 512 w) as (c & w1 & E1 & I1 & Hnil & _ & O1); [lia|].
  rewrite (u_call _ _ _ _ _ E1).
  destruct c as [|b c].
  { exists w1. cbn. rewrite (Hnil eq_refl), app_nil_r. split_and!; [done|done|].
    rewrite (Hnil eq_refl) in I1. by destruct (s_in w1). }
  destruct (std_write (b :: c) w1) as (w2 & E2 & O2 & I2).
  assert (0 <? Z.of_nat (length (b :: c)) = true) as -> by (apply Z.ltb_lt; cbn [length]; lia).
  rewrite Nat2Z.id, take_ge by lia. rewrite (u_call _ _ _ _ _ E2), Z.eqb_refl.
  rewrite I1, length_app in Hf. cbn [length] in Hf.
  destruct (IH w2) as (w3 & E3 & O3 & I3); [rewrite I2; lia|].
  exists w3. split_and!; [done| |done]. by rewrite O3, O2, O1, I2, I1, <- app_assoc.
Qed.
Lemma cat_copies fuel name w : (length (s_in w) < fuel)%nat →
  ∃ w', cat_main fuel [name] w = Exited w' ∧ s_out w' = s_out w ++ s_in w.
Proof.
  intros Hf. destruct (cat_loop_copies fuel w Hf) as (w' & E & O & _). exists w'.
  unfold cat_main. cbn [tail]. by rewrite (u_bind_ret _ _ _ _ _ E).
Qed.

(** [wc]'s loop folds over all that is read. *)
Lemma wc_loop_folds fuel s w : (length (s_in w) < fuel)%nat →
  ∃ w', wc_loop fuel 0 s w = Ret (0, foldl wc_byte s (s_in w)) w' ∧ s_out w' = s_out w.
Proof.
  revert s w. induction fuel as [|fuel IH]; intros s w Hf; [lia|]. cbn [wc_loop].
  destruct (std_read 512 w) as (c & w1 & E1 & I1 & Hnil & _ & O1); [lia|].
  rewrite (u_call _ _ _ _ _ E1).
  destruct c as [|b c]; [exists w1; cbn; by rewrite (Hnil eq_refl)|].
  assert (0 <? Z.of_nat (length (b :: c)) = true) as -> by (apply Z.ltb_lt; cbn [length]; lia).
  rewrite Nat2Z.id, take_ge by lia.
  rewrite I1, length_app in Hf. cbn [length] in Hf.
  destruct (IH (foldl wc_byte s (b :: c)) w1) as (w2 & E2 & O2); [lia|].
  exists w2. rewrite I1, foldl_app. split; [done|congruence].
Qed.
End Filters.

(** ** Lines, words and characters *)

Definition blank (b : Z) : Prop := b ∈ wc_white.
Definition newlines (bs : list Z) : Z := Z.of_nat (length (filter (λ b, b = 10) bs)).

(** The words of a text are its maximal runs of bytes that are not blank. *)
Inductive words : list Z → list (list Z) → Prop :=
  | words_none b : Forall blank b → words b []
  | words_last b v : Forall blank b → v ≠ [] → Forall (λ x, ¬ blank x) v → words (b ++ v) [v]
  | words_more b v c bs vs : Forall blank b → v ≠ [] → Forall (λ x, ¬ blank x) v → blank c →
      words (c :: bs) vs → words (b ++ v ++ c :: bs) (v :: vs).

Lemma newlines_app a b : newlines (a ++ b) = newlines a + newlines b.
Proof. unfold newlines. rewrite filter_app, length_app. lia. Qed.
Lemma newlines_bound b : 0 ≤ newlines b ≤ Z.of_nat (length b).
Proof. unfold newlines. pose proof (length_filter (λ x, x = 10) b). lia. Qed.

Lemma white_blank b : blank b → ∃ k, strchr wc_white b = Some k.
Proof.
  unfold blank, wc_white. intros Hb.
  repeat (apply elem_of_cons in Hb as [->|Hb]; [by eexists|]). by apply elem_of_nil in Hb.
Qed.
Lemma white_not_blank b : ¬ blank b → strchr wc_white b = None.
Proof.
  unfold blank, wc_white. rewrite !elem_of_cons, elem_of_nil. intros Hb. cbn [strchr].
  repeat match goal with |- context [?x =? b] => destruct (Z.eqb_spec x b); [exfalso; lia|] end. done.
Qed.
Lemma not_blank_newline b : ¬ blank b → (b =? 10) = false.
Proof. intros Hb. apply Z.eqb_neq. intros ->. apply Hb. unfold blank, wc_white. set_solver. Qed.

Lemma wc_blanks b : ∀ l w c i, Forall blank b → 0 ≤ l ≤ c → c + Z.of_nat (length b) < 2147483648 →
  foldl wc_byte (mkWc l w c i) b =
  mkWc (l + newlines b) w (c + Z.of_nat (length b)) (match b with [] => i | _ => false end).
Proof.
  induction b as [|x b IH]; intros l w c i Hb Hl Hc.
  { cbn. f_equal; unfold newlines; cbn; lia. }
  inversion Hb as [|?? Hx Hb']; subst. destruct (white_blank x Hx) as [k Ek].
  change (x :: b) with ([x] ++ b). rewrite newlines_app, foldl_app. cbn [foldl]. unfold wc_byte at 2.
  rewrite Ek. cbn [wc_l wc_w wc_c]. cbn [length app] in *. rewrite (s32_small (c + 1)) by lia.
  unfold newlines at 1. rewrite filter_cons, filter_nil. destruct (Z.eqb_spec x 10), (decide (x = 10)); try done.
  - rewrite (s32_small (l + 1)) by lia. rewrite IH by (done || lia). cbn [length].
    f_equal; try (cbn; lia); by destruct b.
  - rewrite IH by (done || lia). cbn [length]. f_equal; try (cbn; lia); by destruct b.
Qed.

Lemma wc_in_word v : ∀ l w c, Forall (λ x, ¬ blank x) v → 0 ≤ c → c + Z.of_nat (length v) < 2147483648 →
  foldl wc_byte (mkWc l w c true) v = mkWc l w (c + Z.of_nat (length v)) true.
Proof.
  induction v as [|x v IH]; intros l w c Hv Hc Hn; [cbn; f_equal; lia|].
  inversion Hv as [|?? Hx Hv']; subst. cbn [foldl length] in *. unfold wc_byte at 2.
  cbn [wc_l wc_w wc_c wc_in]. rewrite white_not_blank, not_blank_newline, s32_small by (done || lia).
  rewrite IH by (done || lia). f_equal; lia.
Qed.
Lemma wc_word v l w c : v ≠ [] → Forall (λ x, ¬ blank x) v → 0 ≤ w ≤ c → c + Z.of_nat (length v) < 2147483648 →
  foldl wc_byte (mkWc l w c false) v = mkWc l (w + 1) (c + Z.of_nat (length v)) true.
Proof.
  destruct v as [|x v]; intros Hne Hv Hc Hn; [done|].
  inversion Hv as [|?? Hx Hv']; subst. cbn [foldl length] in *. unfold wc_byte at 2.
  cbn [wc_l wc_w wc_c wc_in]. rewrite white_not_blank, not_blank_newline, !s32_small by (done || lia).
  rewrite wc_in_word by (done || lia). f_equal; lia.
Qed.
Lemma newlines_word v : Forall (λ x, ¬ blank x) v → newlines v = 0.
Proof.
  unfold newlines. induction 1 as [|x v Hx Hv IH]; [done|]. rewrite filter_cons.
  destruct (decide (x = 10)) as [->|]; [|done]. exfalso. apply Hx. unfold blank, wc_white. set_solver.
Qed.

Lemma words_length bs vs : words bs vs → (length vs ≤ length bs)%nat.
Proof.
  induction 1 as [|b v ? Hv|b v c bs vs ? Hv ? ? ? IH]; [cbn; lia| |];
    destruct v; try done; repeat (rewrite length_app || cbn [length] in * ); lia.
Qed.

(** A text that follows a word begins with a blank. *)
Lemma wc_counts_words bs vs : words bs vs → ∀ l w c i,
  (i = true → ∃ x bs', bs = x :: bs' ∧ blank x) →
  0 ≤ l ≤ c → 0 ≤ w ≤ c → c + Z.of_nat (length bs) < 2147483648 →
  ∃ i', foldl wc_byte (mkWc l w c i) bs =
    mkWc (l + newlines bs) (w + Z.of_nat (length vs)) (c + Z.of_nat (length bs)) i'.
Proof.
  assert (∀ b v rest i, v ≠ [] → Forall (λ x, ¬ blank x) v → b ++ v ++ rest ≠ [] →
    (i = true → ∃ x bs', b ++ v ++ rest = x :: bs' ∧ blank x) →
    match b with [] => i | _ => false end = false) as Hstart.
  { intros [|y b] [|x v] rest i ? Hv _ Hi; try done. destruct i; [|done].
    destruct (Hi eq_refl) as (? & ? & [= <- _] & Hx). by inversion Hv. }
  induction 1 as [b Hb|b v Hb Hne Hv|b v x bs vs Hb Hne Hv Hx Hw IH]; intros l w c i Hi Hl Hwc Hn.
  - eexists. rewrite wc_blanks by (done || lia). cbn [length]. f_equal; lia.
  - rewrite length_app in *. rewrite foldl_app, wc_blanks by (done || lia).
    rewrite (Hstart b v [] i) by (rewrite ?app_nil_r; try done; by destruct b, v).
    pose proof (newlines_bound b). rewrite wc_word by (done || lia).
    rewrite newlines_app, (newlines_word v Hv). eexists. cbn [length]. f_equal; lia.
  - rewrite (length_app b), (length_app v) in *. cbn [length] in *. rewrite foldl_app, wc_blanks by (done || lia).
    rewrite (Hstart b v (x :: bs) i) by (try done; by destruct b, v).
    pose proof (newlines_bound b). rewrite foldl_app, wc_word by (done || lia).
    assert (1 ≤ Z.of_nat (length v)) by (destruct v; [done|cbn [length]; lia]).
    destruct (IH (l + newlines b) (w + 1) (c + Z.of_nat (length b) + Z.of_nat (length v)) true) as [i' E];
      [by eauto|lia|lia|lia|rewrite E].
    exists i'. rewrite !newlines_app, (newlines_word v Hv). cbn [length]. f_equal; lia.
Qed.

(** The name of a directory entry, padded to the width of a name. *)
Lemma after_slash_last dir name : 47 ∉ name → after_slash (dir ++ 47 :: name) = name.
Proof.
  intros Hn. assert (existsb (Z.eqb 47) name = false) as E.
  { apply not_true_iff_false. rewrite existsb_exists. intros (x & Hx & <-%Z.eqb_eq).
    apply Hn. by apply list_elem_of_In. }
  induction dir as [|d dir IH]; cbn [app after_slash]; [by rewrite E|].
  assert (existsb (Z.eqb 47) (dir ++ 47 :: name) = true) as ->; [|done].
  rewrite existsb_app. cbn. by rewrite orb_true_r.
Qed.
Lemma fmtname_pads dir name : 47 ∉ name → (length name ≤ 14)%nat →
  fmtname (dir ++ 47 :: name) = name ++ replicate (14 - length name) 32 ∧ length (fmtname (dir ++ 47 :: name)) = 14%nat.
Proof.
  intros Hn Hl. unfold fmtname. rewrite after_slash_last by done.
  destruct (Nat.leb_spec 14 (length name)).
  - replace (14 - length name)%nat with 0%nat by lia. rewrite app_nil_r. split; [done|lia].
  - rewrite length_app, length_replicate. split; [done|lia].
Qed.

(** [wc] without arguments counts what it reads from its standard input: however the
    reads cut the text up, it ends and prints the number of newlines, of words (maximal
    runs of bytes that are not blank, also those cut by a read) and of bytes. *)
Theorem wc_counts {W} `{Stdio W} fuel prog w vs :
  words (s_in w) vs → Z.of_nat (length (s_in w)) < 2147483648 → (length (s_in w) < fuel)%nat →
  ∃ w', wc_main fuel [prog] w = Exited w' ∧
    s_out w' = s_out w ++ num (newlines (s_in w)) ++ [32] ++ num (Z.of_nat (length vs)) ++ [32] ++
      num (Z.of_nat (length (s_in w))) ++ [32] ++ nl.
Proof.
  intros Hw Hn Hf. destruct (wc_loop_folds fuel (mkWc 0 0 0 false) w Hf) as (w1 & E1 & O1).
  destruct (wc_counts_words _ _ Hw 0 0 0 false) as [i E]; [done|lia|lia|lia|].
  rewrite E, !Z.add_0_l in E1. unfold wc_main, wc. cbn [tail].
  edestruct (puts_out (W := W)) as (w2 & E2 & O2 & _). exists w2. split; [|by rewrite O2, O1].
  erewrite (u_bind_ret _ _ w); [reflexivity|]. rewrite (u_bind_ret _ _ _ _ _ E1). exact E2.
Qed.

(** A terminal: what will arrive, and what is on the screen. *)
Record term := mkTerm { t_arrives : list (list Z); t_screen : list Z }.
Definition term_read (fd n : Z) (w : term) : (Z * list Z) * term :=
  let fix go (cs : list (list Z)) :=
    match cs with
    | [] => ([], [])
    | [] :: cs' => go cs'
    | c :: cs' => (take (Z.to_nat n) c, drop (Z.to_nat n) c :: cs')
    end in
  let (c, cs) := go (t_arrives w) in ((Z.of_nat (length c), c), mkTerm cs (t_screen w)).
Definition refused {A} (a : A) (w : term) : A * term := (a, w).
#[global] Instance term_sys : Sys term := {|
  u_open _ _ := refused (-1); u_read := term_read;
  u_write _ bs w := (Z.of_nat (length bs), mkTerm (t_arrives w) (t_screen w ++ bs));
  u_close _ := refused (-1); u_fstat _ := refused (-1, mkUstat 0 0 0); u_link _ _ := refused (-1);
  u_unlink _ := refused (-1); u_mkdir _ := refused (-1); u_mknod _ _ _ := refused (-1);
  u_kill _ := refused (-1); u_dup _ := refused (-1); u_fork := refused (-1); u_wait := refused (-1);
  u_exec _ _ := refused (Some (-1)); u_sleep _ := refused 0 |}.

#[global] Program Instance term_stdio : Stdio term := {|
  s_in w := concat (t_arrives w); s_out := t_screen |}.
Next Obligation.
  intros n [cs out] Hn. cbn. unfold term_read. cbn [t_arrives t_screen].
  induction cs as [|[|b c] cs IH]; cbn [concat app].
  - eexists [], _. split; [reflexivity|]. cbn. split_and!; [done|done|lia|done].
  - exact IH.
  - eexists _, _. split; [reflexivity|]. cbn [t_arrives t_screen concat].
    split_and!; [by rewrite app_assoc, take_drop| |rewrite length_take; lia|done].
    intros E. destruct (Z.to_nat n) eqn:En; [lia|done].
Qed.
Next Obligation. intros bs [cs out]. by eexists. Qed.

(** "ab cd" and a newline, cut in the middle of a word. *)
Definition demo_term : term := mkTerm [[97; 98; 32; 99]; [100; 10]] [].
Lemma wc_counts_witness :
  ∃ w', wc_main 10 [bytes_of_string "wc"] demo_term = Exited w' ∧ s_out w' = bytes_of_string "1 2 6 " ++ nl.
Proof.
  destruct (wc_counts 10 (bytes_of_string "wc") demo_term [[97; 98]; [99; 100]]) as (w' & E & O);
    [| | |exists w'; split; [exact E|rewrite O; vm_compute; reflexivity]].
  - apply (words_more [] [97; 98] 32 [99; 100; 10]); [constructor|done| | |].
    { repeat constructor; unfold blank, wc_white; set_solver. }
    { unfold blank, wc_white; set_solver. }
    apply (words_more [32] [99; 100] 10 [] []).
    { repeat constructor; unfold blank, wc_white; set_solver. }
    { done. }
    { repeat constructor; unfold blank, wc_white; set_solver. }
    { unfold blank, wc_white; set_solver. }
    apply words_none. repeat constructor; unfold blank, wc_white; set_solver.
  - reflexivity.
  - vm_compute. lia.
Defined.
