(* ===== verification/Umalloc.v ===== *)
(** * Umalloc: the memory allocator of the user programs, [umalloc.c]

    Addresses count headers (8 bytes).  The two words of every header are the
    functions [hptr] and [hsize]; [hbase] is the static variable [base], [freep]
    is 0 before the first call, [hstart] and [hbrk] bound the memory obtained from
    [sbrk], and [hmax] is how far the kernel lets the process grow. *)

From S2P Require Import Prelude Mmu.

Record heap := mkHeap {
  hptr : Z → Z;
  hsize : Z → Z;
  freep : Z;
  hbase : Z;
  hstart : Z;
  hbrk : Z;
  hmax : Z
}.

Definition set_ptr (p v : Z) (h : heap) : heap :=
  mkHeap (λ x, if x =? p then v else hptr h x) (hsize h) (freep h) (hbase h) (hstart h) (hbrk h) (hmax h).
Definition set_size (p v : Z) (h : heap) : heap :=
  mkHeap (hptr h) (λ x, if x =? p then v else hsize h x) (freep h) (hbase h) (hstart h) (hbrk h) (hmax h).
Definition set_freep (v : Z) (h : heap) : heap :=
  mkHeap (hptr h) (hsize h) v (hbase h) (hstart h) (hbrk h) (hmax h).
Definition set_brk (v : Z) (h : heap) : heap :=
  mkHeap (hptr h) (hsize h) (freep h) (hbase h) (hstart h) v (hmax h).

Definition rd_ptr (p : Z) : M heap Z := gets (λ h, hptr h p).
Definition rd_size (p : Z) : M heap Z := gets (λ h, hsize h p).

(** ** [free] *)

(** The search for the place of [bp] in the circular list. *)
Fixpoint find_place (fuel : nat) (bp p : Z) : M heap Z :=
  match fuel with
  | O => fail NoFuel
  | S fuel' =>
      q ← rd_ptr p;
      if (p <? bp) && (bp <? q) then mret p
      else if (q <=? p) && ((p <? bp) || (bp <? q)) then mret p
      else find_place fuel' bp q
  end.

(** There are at most as many blocks as headers in the heap, and [base]. *)
Definition blocks_fuel (h : heap) : nat := S (S (Z.to_nat (hbrk h - hstart h))).

Definition free (ap : Z) : M heap unit :=
  let bp := ap - 1 in
  fuel ← gets blocks_fuel;
  fp ← gets freep;
  p ← find_place fuel bp fp;
  q ← rd_ptr p;
  sb ← rd_size bp;
  (if bp + sb =? q then
     sq ← rd_size q;
     modify (set_size bp (u32 (sb + sq))) ;;
     qq ← rd_ptr q;
     modify (set_ptr bp qq)
   else modify (set_ptr bp q)) ;;
  sp ← rd_size p;
  (if p + sp =? bp then
     sb ← rd_size bp;
     modify (set_size p (u32 (sp + sb))) ;;
     qb ← rd_ptr bp;
     modify (set_ptr p qb)
   else modify (set_ptr p bp)) ;;
  modify (set_freep p).

(** ** [malloc] *)

(** The system call [sbrk] of [n] bytes: the old end of the process, or -1.  A
    negative [n] gives memory back; one below the address 0 wraps round to an end
    above the old one, which [deallocuvm] ignores. *)
Definition sbrk (n : Z) : M heap Z :=
  b ← gets hbrk;
  m ← gets hmax;
  let b' := b + n / 8 in
  if 0 <? n then
    if m <? b' then mret (-1) else modify (set_brk b') ;; mret b
  else if n <? 0 then
    if b' <? 0 then mret b
    else if b' =? 0 then mret (-1)
    else modify (set_brk b') ;; mret b
  else mret b.

(** 0 is the null pointer. *)
Definition morecore (nu : Z) : M heap Z :=
  let nu := if nu <? 4096 then 4096 else nu in
  hp ← sbrk (s32 (nu * 8));
  if hp =? -1 then mret 0
  else
    modify (set_size hp nu) ;;
    free (hp + 1) ;;
    gets freep.

Fixpoint malloc_loop (fuel : nat) (nunits prevp p : Z) : M heap Z :=
  match fuel with
  | O => fail NoFuel
  | S fuel' =>
      sz ← rd_size p;
      if nunits <=? sz then
        (if sz =? nunits then
           q ← rd_ptr p;
           modify (set_ptr prevp q) ;;
           modify (set_freep prevp) ;;
           mret (p + 1)
         else
           modify (set_size p (sz - nunits)) ;;
           let p := p + (sz - nunits) in
           modify (set_size p nunits) ;;
           modify (set_freep prevp) ;;
           mret (p + 1))
      else
        fp ← gets freep;
        o ← (if p =? fp then hp ← morecore nunits; mret (if hp =? 0 then None else Some hp) else mret (Some p));
        match o with
        | None => mret 0
        | Some p => q ← rd_ptr p; malloc_loop fuel' nunits p q
        end
  end.

(** One round over the list before, and one after the call of [morecore]. *)
Definition malloc_fuel (nunits : Z) (h : heap) : nat := (blocks_fuel h + blocks_fuel h + Z.to_nat nunits + 4100)%nat.

Definition malloc (nbytes : Z) : M heap Z :=
  let nunits := u32 (nbytes + 7) / 8 + 1 in
  fp ← gets freep;
  (if fp =? 0 then
     b ← gets hbase;
     modify (set_freep b) ;;
     modify (set_ptr b b) ;;
     modify (set_size b 0)
   else mret tt) ;;
  prevp ← gets freep;
  p ← rd_ptr prevp;
  fuel ← gets (malloc_fuel nunits);
  malloc_loop fuel nunits prevp p.
