(* ===== verification/UmallocSpec.v ===== *)
(** * UmallocSpec: [malloc] and [free] keep the heap in order

    The free blocks, [base] first, form a circular list in the order of their
    addresses, no two of them touching; free and allocated blocks do not overlap.
    Blocks are pairs of an address and a size in headers. *)

From S2P Require Import Prelude Mmu Umalloc.

(** ** Linked lists of blocks *)

Definition hd_addr (l : list (Z * Z)) (last : Z) : Z := match l with (x, _) :: _ => x | [] => last end.

Fixpoint linked (h : heap) (l : list (Z * Z)) (last : Z) : Prop :=
  match l with
  | [] => True
  | (x, s) :: l' => hsize h x = s ∧ hptr h x = hd_addr l' last ∧ linked h l' last
  end.

Lemma hd_addr_app l1 l2 last : hd_addr (l1 ++ l2) last = hd_addr l1 (hd_addr l2 last).
Proof. by destruct l1 as [|[x s] l1]. Qed.

Lemma linked_app h l1 l2 last : linked h (l1 ++ l2) last ↔ linked h l1 (hd_addr l2 last) ∧ linked h l2 last.
Proof.
  induction l1 as [|[x s] l1 IH]; cbn; [tauto|]. rewrite IH, hd_addr_app. tauto.
Qed.

Lemma linked_ext h h' l last :
  linked h l last → (∀ x s, (x, s) ∈ l → hptr h' x = hptr h x ∧ hsize h' x = hsize h x) → linked h' l last.
Proof.
  induction l as [|[x s] l IH]; cbn; [done|]. intros (H1 & H2 & H3) He.
  destruct (He x s ltac:(set_solver)) as [-> ->]. split_and!; try done. apply IH; [done|]. intros y t Hy. apply (He y t). set_solver.
Qed.

(** A block ends before another begins, with room in between. *)
Definition before (a b : Z * Z) : Prop := a.1 + a.2 < b.1.

Notation sorted := (StronglySorted before).

Lemma sorted_app l1 l2 : sorted (l1 ++ l2) ↔ sorted l1 ∧ sorted l2 ∧ ∀ a b, a ∈ l1 → b ∈ l2 → before a b.
Proof.
  split.
  - intros Hs. split_and!; [by eapply StronglySorted_app_1_l|by eapply StronglySorted_app_1_r|].
    intros a b Ha Hb. by eapply (StronglySorted_app_1_elem_of before).
  - intros (H1 & H2 & H3). by apply StronglySorted_app.
Qed.

Lemma sorted_cons a l : sorted (a :: l) ↔ sorted l ∧ ∀ b, b ∈ l → before a b.
Proof.
  rewrite (sorted_app [a] l). split.
  - intros (_ & H2 & H3). split; [done|]. intros b. apply H3. set_solver.
  - intros [H2 H3]. split_and!; [repeat constructor|done|]. intros x b Hx. apply list_elem_of_singleton in Hx as ->. auto.
Qed.

Lemma sorted_length l lo hi :
  sorted l → lo ≤ hi → (∀ x s, (x, s) ∈ l → 0 < s ∧ lo ≤ x ∧ x + s ≤ hi) → Z.of_nat (length l) ≤ hi - lo.
Proof.
  revert lo. induction l as [|[x s] l IH]; intros lo Hs Hlo Hr; cbn [length]; [lia|].
  apply sorted_cons in Hs as [Hs Hb]. destruct (Hr x s) as (H1 & H2 & H3); [set_solver|].
  rewrite Nat2Z.inj_succ. enough (Z.of_nat (length l) ≤ hi - (x + s)) by lia. apply IH; [done|lia|].
  intros y t Hy. destruct (Hr y t) as (? & ? & ?); [set_solver|]. specialize (Hb (y, t) Hy). unfold before in Hb. cbn in Hb. lia.
Qed.

(** ** The invariant *)

Record heap_ok (h : heap) (fl : list (Z * Z)) (A : gmap Z Z) : Prop := {
  ho_base : 0 < hbase h < hstart h;
  ho_brk : hstart h ≤ hbrk h ≤ hmax h;
  ho_max : hmax h < 268435456;
  ho_freep : ∃ s, (freep h, s) ∈ (hbase h, 0) :: fl;
  ho_linked : linked h ((hbase h, 0) :: fl) (hbase h);
  ho_sorted : sorted ((hbase h, 0) :: fl);
  ho_free : ∀ x s, (x, s) ∈ fl → 0 < s ∧ hstart h ≤ x ∧ x + s ≤ hbrk h;
  ho_alloc : ∀ x s, A !! x = Some s → 0 < s ∧ hstart h ≤ x ∧ x + s ≤ hbrk h ∧ hsize h x = s;
  ho_disj : ∀ x s y t, A !! x = Some s → (y, t) ∈ fl → x + s ≤ y ∨ y + t ≤ x;
  ho_alloc_disj : ∀ x s y t, A !! x = Some s → A !! y = Some t → x ≠ y → x + s ≤ y ∨ y + t ≤ x
}.

Lemma ho_length h fl A : heap_ok h fl A → (S (length fl) < blocks_fuel h)%nat.
Proof.
  intros Hok. pose proof (ho_sorted _ _ _ Hok) as [Hs _]%sorted_cons.
  pose proof (sorted_length fl (hstart h) (hbrk h) Hs ltac:(apply Hok) (ho_free _ _ _ Hok)).
  unfold blocks_fuel. cbn [length]. pose proof (ho_brk _ _ _ Hok). lia.
Qed.

(** ** The search of [free] *)

Section Search.
Context (h : heap) (base bp p sp : Z) (l1 l2 : list (Z * Z)).
Hypothesis Hlink : linked h (l1 ++ (p, sp) :: l2) base.
Hypothesis Hsort : sorted (l1 ++ (p, sp) :: l2).
Hypothesis Hsize : ∀ x s, (x, s) ∈ l1 ++ (p, sp) :: l2 → 0 ≤ s.
Hypothesis Hbase : ∃ s l, l1 ++ (p, sp) :: l2 = (base, s) :: l.
Hypothesis Hp : p < bp.
Hypothesis Hq : ∀ y t, (y, t) ∈ l2 → bp < y.

Lemma base_least x s : (x, s) ∈ l1 ++ (p, sp) :: l2 → base ≤ x.
Proof.
  destruct Hbase as (s0 & l & E). rewrite E in Hsort, Hsize |- *. intros [[= -> ->]|Hx]%elem_of_cons; [lia|].
  pose proof Hsort as Hb. apply sorted_cons in Hb as [_ Hb]. specialize (Hb _ Hx). specialize (Hsize base s0 ltac:(set_solver)). unfold before in Hb. cbn in Hb. lia.
Qed.

(** At [p] the search ends. *)
Lemma find_at fuel : (0 < fuel)%nat → find_place fuel bp p h = Ok p h.
Proof.
  destruct fuel as [|fuel]; [lia|]. intros _. cbn [find_place]. unfold rd_ptr.
  pose proof Hlink as Hl. apply linked_app in Hl as [_ (_ & E & _)]. rewrite (bind_ok (gets _) _ h (hptr h p) h) by done. rewrite E.
  pose proof (base_least p sp ltac:(set_solver)) as Hb.
  destruct l2 as [|[y t] l2']; cbn [hd_addr].
  - rewrite (proj2 (Z.ltb_lt p bp)) by done. destruct (bp <? base); [done|]. rewrite (proj2 (Z.leb_le base p)) by done. done.
  - assert (bp < y) by (apply (Hq y t); set_solver). by rewrite (proj2 (Z.ltb_lt p bp)), (proj2 (Z.ltb_lt bp y)) by done.
Qed.

(** From a block in front of [p]. *)
Lemma find_before l : ∀ l0 fuel, l1 = l0 ++ l → (length l < fuel)%nat → find_place fuel bp (hd_addr l p) h = Ok p h.
Proof.
  induction l as [|[x s] l IH]; intros l0 fuel El Hf; [by apply find_at|]. destruct fuel as [|fuel]; [lia|]. cbn in Hf.
  cbn [find_place hd_addr]. unfold rd_ptr.
  assert (E : hptr h x = hd_addr l p).
  { pose proof Hlink as Hl. rewrite El, <- app_assoc in Hl. apply linked_app in Hl as [_ Hl]. cbn in Hl. destruct Hl as (_ & Hl & _).
    by rewrite hd_addr_app in Hl. }
  rewrite (bind_ok (gets _) _ h (hptr h x) h) by done. rewrite E.
  assert (Hx : x < hd_addr l p ∧ hd_addr l p ≤ p).
  { pose proof Hsort as Hs. rewrite El, <- app_assoc in Hs. apply sorted_app in Hs as (_ & Hs & _). cbn in Hs. apply sorted_cons in Hs as [Hs Hb].
    assert (0 ≤ s) by (apply (Hsize x); rewrite El; set_solver).
    destruct l as [|[y t] l]; cbn.
    - specialize (Hb (p, sp) ltac:(set_solver)). unfold before in Hb. cbn in Hb. lia.
    - pose proof (Hb (y, t) ltac:(set_solver)) as Hy. cbn in Hs. apply sorted_cons in Hs as [_ Hs].
      specialize (Hs (p, sp) ltac:(set_solver)). unfold before in *. cbn in *.
      assert (0 ≤ t) by (apply (Hsize y); rewrite El; set_solver). lia. }
  rewrite (proj2 (Z.ltb_ge bp _)) by lia. rewrite andb_false_r. rewrite (proj2 (Z.leb_gt _ _)) by lia. cbn [andb].
  apply (IH (l0 ++ [(x, s)])); [by rewrite <- app_assoc|lia].
Qed.

(** From a block behind [p]: to the end of the list and on from [base]. *)
Lemma find_after l : ∀ l0 fuel, l2 = l0 ++ l → (length l ≤ fuel)%nat →
  find_place fuel bp (hd_addr l base) h = find_place (fuel - length l) bp base h.
Proof.
  induction l as [|[x s] l IH]; intros l0 fuel El Hf; cbn [length hd_addr]; [by rewrite Nat.sub_0_r|].
  destruct fuel as [|fuel]; [cbn in Hf; lia|]. cbn in Hf. rewrite Nat.sub_succ. cbn [find_place]. unfold rd_ptr.
  assert (E : hptr h x = hd_addr l base).
  { pose proof Hlink as Hl. rewrite El in Hl. apply linked_app in Hl as [_ (_ & _ & Hl)]. apply linked_app in Hl as [_ Hl]. by destruct Hl as (_ & Hl & _). }
  rewrite (bind_ok (gets _) _ h (hptr h x) h) by done. rewrite E.
  assert (Hx : bp < x) by (apply (Hq x s); rewrite El; set_solver).
  rewrite (proj2 (Z.ltb_ge x bp)) by lia. cbn [andb orb].
  assert (Hw : (hd_addr l base <=? x) && (bp <? hd_addr l base) = false).
  { destruct l as [|[y t] l]; cbn.
    - pose proof (base_least p sp ltac:(set_solver)). rewrite (proj2 (Z.ltb_ge bp base)) by lia. apply andb_false_r.
    - rewrite (proj2 (Z.leb_gt y x)); [done|]. pose proof Hsort as Hs. rewrite El in Hs. apply sorted_app in Hs as (_ & Hs & _).
      apply sorted_cons in Hs as [Hs _]. apply sorted_app in Hs as (_ & Hs & _). apply sorted_cons in Hs as [_ Hs].
      specialize (Hs (y, t) ltac:(set_solver)). unfold before in Hs. cbn in Hs.
      assert (0 ≤ s) by (apply (Hsize x); rewrite El; set_solver). lia. }
  rewrite Hw. rewrite (IH (l0 ++ [(x, s)])); [done|by rewrite <- app_assoc|lia].
Qed.

Lemma find_place_ok x s fuel :
  (x, s) ∈ l1 ++ (p, sp) :: l2 → (length (l1 ++ (p, sp) :: l2) < fuel)%nat → find_place fuel bp x h = Ok p h.
Proof.
  intros Hx Hf. rewrite length_app in Hf. cbn in Hf. apply elem_of_app in Hx as [Hx|[[= -> ->]|Hx]%elem_of_cons].
  - apply list_elem_of_split in Hx as (l0 & l & E). apply (find_before ((x, s) :: l) l0); [done|]. rewrite E, length_app in Hf. cbn in *. lia.
  - apply find_at. lia.
  - apply list_elem_of_split in Hx as (l0 & l & E). change x with (hd_addr ((x, s) :: l) base) at 1.
    rewrite (find_after ((x, s) :: l) l0); [|done|rewrite E, length_app in Hf; cbn in *; lia].
    destruct Hbase as (s0 & lb & Eb). replace base with (hd_addr l1 p).
    + apply (find_before l1 []); [done|]. rewrite E, length_app in Hf. cbn in *. lia.
    + destruct l1 as [|[z u] l1']; cbn in Eb |- *; congruence.
Qed.
End Search.

(** ** [free] *)

Definition join_right (b q : Z) (h : heap) : heap :=
  if b + hsize h b =? q then set_ptr b (hptr h q) (set_size b (u32 (hsize h b + hsize h q)) h) else set_ptr b q h.

Definition join_left (p b : Z) (h : heap) : heap :=
  if p + hsize h p =? b then set_ptr p (hptr h b) (set_size p (u32 (hsize h p + hsize h b)) h) else set_ptr p b h.

Lemma free_unfold b p h :
  find_place (blocks_fuel h) b (freep h) h = Ok p h →
  free (b + 1) h = Ok tt (set_freep p (join_left p b (join_right b (hptr h p) h))).
Proof.
  intros E. unfold free. replace (b + 1 - 1) with b by lia.
  rewrite (bind_ok (gets blocks_fuel) _ h (blocks_fuel h) h), (bind_ok (gets freep) _ h (freep h) h), (bind_ok _ _ h p h E) by done.
  unfold join_left, join_right, rd_ptr, rd_size, gets, modify, mbind, M_bind. cbn -[Z.add u32].
  destruct (b + hsize h b =? hptr h p); cbn -[Z.add u32]; by destruct (p + _ =? b).
Qed.

(** What lies outside of one header is as before. *)
Definition same_but (b : Z) (h h' : heap) : Prop :=
  (∀ x, x ≠ b → hptr h' x = hptr h x ∧ hsize h' x = hsize h x) ∧
  freep h' = freep h ∧ hbase h' = hbase h ∧ hstart h' = hstart h ∧ hbrk h' = hbrk h ∧ hmax h' = hmax h.

Lemma same_but_intro b v w h : same_but b h (set_ptr b v (set_size b w h)) ∧ same_but b h (set_ptr b v h).
Proof. split; (split; [|done]); intros x Hx; cbn; by rewrite (proj2 (Z.eqb_neq x b) Hx). Qed.

Lemma join_right_same b q h : same_but b h (join_right b q h).
Proof. unfold join_right. destruct (_ =? _); apply (same_but_intro b _ 0) || apply same_but_intro. Qed.

Lemma join_left_same p b h : same_but p h (join_left p b h).
Proof. unfold join_left. destruct (_ =? _); apply (same_but_intro p _ 0) || apply same_but_intro. Qed.

Lemma same_linked b h h' l last : same_but b h h' → (∀ s, (b, s) ∉ l) → linked h l last → linked h' l last.
Proof.
  intros [Hs _] Hb Hl. apply (linked_ext h); [done|]. intros x s Hx. apply Hs. intros ->. by apply (Hb s).
Qed.

Lemma join_right_ok h b s l2 base :
  linked h l2 base → hsize h b = s → 0 < s → 0 < base < b → sorted l2 →
  (∀ y t, (y, t) ∈ l2 → 0 < t ∧ b + s ≤ y ∧ y + t < 268435456) →
  ∃ s' l2', linked (join_right b (hd_addr l2 base) h) ((b, s') :: l2') base ∧
    ((l2' = l2 ∧ s' = s ∧ ∀ y t, (y, t) ∈ l2 → b + s < y) ∨ (∃ t, l2 = (b + s, t) :: l2' ∧ s' = s + t)).
Proof.
  intros Hl Hsz Hs Hb Hso Hin. unfold join_right. rewrite Hsz. destruct l2 as [|[y t] l2]; cbn [hd_addr].
  - rewrite (proj2 (Z.eqb_neq (b + s) base)) by lia. exists s, []. split; [|by left; set_solver].
    cbn. by rewrite Z.eqb_refl.
  - destruct (Hin y t ltac:(set_solver)) as (Ht & Hy & Hmax). apply sorted_cons in Hso as [Hso Hlt]. destruct (Z.eqb_spec (b + s) y) as [<-|Hne].
    + destruct Hl as (Hst & Hpt & Hl). exists (s + t), l2. split; [|right; by exists t].
      cbn [linked hptr hsize set_ptr set_size]. rewrite Z.eqb_refl, Hst, Hpt. split_and!; [apply u32_small; unfold is_u32; lia|done|].
      eapply (same_linked b h); [by apply (same_but_intro b _ (u32 (s + t)))| |done]. intros w Hw. specialize (Hin b w ltac:(set_solver)). lia.
    + exists s, ((y, t) :: l2). split.
      * split; [done|]. split; [cbn; by rewrite Z.eqb_refl|].
        eapply (same_linked b h ); [by apply (same_but_intro b _ 0)| |done]. intros w Hw. specialize (Hin b w ltac:(set_solver)). lia.
      * left. split_and!; [done|done|]. intros z u Hz. apply elem_of_cons in Hz as [[= -> ->]|Hz]; [lia|].
        specialize (Hlt _ Hz). unfold before in Hlt. cbn in Hlt. lia.
Qed.

Lemma join_left_ok h b s p sp l1 l2 base x :
  linked h (l1 ++ [(p, sp)]) x → linked h ((b, s) :: l2) base → p + sp ≤ b → 0 ≤ sp → 0 < s → b + s < 268435456 → 0 < p →
  (∀ t, (p, t) ∉ l1 ++ (b, s) :: l2) →
  ∃ l, linked (join_left p b h) (l1 ++ l) base ∧
    ((l = (p, sp) :: (b, s) :: l2 ∧ p + sp < b) ∨ (p + sp = b ∧ l = (p, sp + s) :: l2)).
Proof.
  intros H1 H2 Hp Hsp Hs Hmax Hp0 Hn. apply linked_app in H1 as [H1 (Hsz & _)]. cbn [hd_addr] in H1. pose proof H2 as (Hb & Hbp & H3).
  unfold join_left. rewrite Hsz, Hb. destruct (Z.eqb_spec (p + sp) b) as [E|E].
  - exists ((p, sp + s) :: l2). split; [|by right]. apply linked_app. cbn [hd_addr linked]. split_and!.
    + eapply (same_linked p h); [by apply same_but_intro| |done]. set_solver.
    + cbn. rewrite Z.eqb_refl. apply u32_small; unfold is_u32; lia.
    + cbn. by rewrite Z.eqb_refl.
    + eapply (same_linked p h); [by apply same_but_intro| |done]. set_solver.
  - exists ((p, sp) :: (b, s) :: l2). split; [|left; split; [done|lia]]. apply linked_app. cbn [hd_addr]. split.
    + eapply (same_linked p h); [by apply (same_but_intro p _ 0)| |done]. set_solver.
    + split; [done|]. split; [cbn; by rewrite Z.eqb_refl|].
      eapply (same_linked p h); [by apply (same_but_intro p _ 0)| |done]. set_solver.
Qed.

(** The place of a block between the blocks of a list. *)
Lemma split_pred b s fl : ∀ x0 s0,
  sorted ((x0, s0) :: fl) → 0 ≤ s0 → x0 < b → x0 + s0 ≤ b → 0 < s →
  (∀ x t, (x, t) ∈ fl → 0 < t ∧ (x + t ≤ b ∨ b + s ≤ x)) →
  ∃ l1 p sp l2, (x0, s0) :: fl = l1 ++ (p, sp) :: l2 ∧ p < b ∧ p + sp ≤ b ∧ ∀ y t, (y, t) ∈ l2 → b + s ≤ y.
Proof.
  induction fl as [|[x t] fl IH]; intros x0 s0 Hso H0 Hx0 Hs0 Hs Hin.
  - exists [], x0, s0, []. split_and!; try done. set_solver.
  - apply sorted_cons in Hso as [Hso Hlt]. destruct (Hin x t ltac:(set_solver)) as [Ht [Hx|Hx]].
    + destruct (IH x t) as (l1 & p & sp & l2 & -> & H1 & H2 & H3); [done|lia|lia|done|done|set_solver|].
      by exists ((x0, s0) :: l1), p, sp, l2.
    + exists [], x0, s0, ((x, t) :: fl). split_and!; try done. intros y u [[= -> ->]|Hy]%elem_of_cons; [done|].
      apply sorted_cons in Hso as [_ Hso]. specialize (Hso _ Hy). unfold before in Hso. cbn in Hso. lia.
Qed.

Definition covers (fl : list (Z * Z)) (u : Z) : Prop := ∃ x s, (x, s) ∈ fl ∧ x ≤ u < x + s.

Lemma covers_app l1 l2 u : covers (l1 ++ l2) u ↔ covers l1 u ∨ covers l2 u.
Proof.
  unfold covers. split.
  - intros (x & s & [Hx|Hx]%elem_of_app & Hu); [left|right]; eauto.
  - intros [(x & s & Hx & Hu)|(x & s & Hx & Hu)]; exists x, s; set_solver.
Qed.

Lemma covers_cons x s l u : covers ((x, s) :: l) u ↔ x ≤ u < x + s ∨ covers l u.
Proof.
  rewrite (covers_app [(x, s)] l). unfold covers at 1. split; (intros [H|H]; [left|by right]).
  - destruct H as (y & t & [= -> ->]%list_elem_of_singleton & Hu). done.
  - exists x, s. split; [set_solver|done].
Qed.

(** The list after the block [(b, s)] is put between [(p, sp)] and [l2]. *)
Definition joined (b s : Z) (l1 : list (Z * Z)) (p sp : Z) (l2 l' : list (Z * Z)) : Prop :=
  ∃ s' l2' l, l' = l1 ++ l ∧
    ((l2' = l2 ∧ s' = s ∧ ∀ y t, (y, t) ∈ l2 → b + s < y) ∨ (∃ t, l2 = (b + s, t) :: l2' ∧ s' = s + t)) ∧
    ((l = (p, sp) :: (b, s') :: l2' ∧ p + sp < b) ∨ (p + sp = b ∧ l = (p, sp + s') :: l2')).

Section Joined.
Context (b s p sp : Z) (l1 l2 l' : list (Z * Z)).
Hypothesis Hj : joined b s l1 p sp l2 l'.
Hypothesis Hs : 0 < s.
Hypothesis Hsp : 0 ≤ sp.
Hypothesis Hl2 : ∀ y t, (y, t) ∈ l2 → 0 < t ∧ b + s ≤ y.

Lemma joined_covers u : covers l' u ↔ covers (l1 ++ (p, sp) :: l2) u ∨ b ≤ u < b + s.
Proof.
  destruct Hj as (s' & l2' & l & -> & Hr & Hl). rewrite !covers_app, covers_cons.
  assert (Hr' : b ≤ u < b + s' ∨ covers l2' u ↔ b ≤ u < b + s ∨ covers l2 u).
  { destruct Hr as [(-> & -> & _)|(t & -> & ->)]; [done|]. rewrite covers_cons.
    destruct (Hl2 (b + s) t ltac:(set_solver)). assert (b ≤ u < b + (s + t) ↔ b ≤ u < b + s ∨ b + s ≤ u < b + s + t) as -> by lia. tauto. }
  destruct Hl as [[-> _]|[E ->]]; rewrite !covers_cons; [tauto|].
  assert (p ≤ u < p + (sp + s') ↔ p ≤ u < p + sp ∨ b ≤ u < b + s') as ->; [|tauto].
  assert (s ≤ s'); [|lia]. destruct Hr as [(_ & -> & _)|(t & E2 & ->)]; [done|]. destruct (Hl2 (b + s) t); [rewrite E2; set_solver|lia].
Qed.

Lemma joined_sorted : sorted (l1 ++ (p, sp) :: l2) → p + sp ≤ b → sorted l'.
Proof.
  destruct Hj as (s' & l2' & l & -> & Hr & Hl). intros (H1 & [H2 H2']%sorted_cons & H3)%sorted_app Hp.
  assert (Hb : sorted ((b, s') :: l2') ∧ (∀ c, c ∈ l2' → c ∈ l2)).
  { destruct Hr as [(-> & -> & Hr)|(t & E & ->)].
    - split; [|done]. apply sorted_cons. split; [done|]. intros [y t] Hy. apply (Hr y t Hy).
    - rewrite E in H2 |- *. apply sorted_cons in H2 as [H2 Ht]. split; [|set_solver]. apply sorted_cons. split; [done|]. intros c Hc.
      specialize (Ht c Hc). unfold before in *. cbn in *. lia. }
  destruct Hb as [Hb Hsub]. pose proof Hb as [Hb1 Hb2]%sorted_cons.
  assert (Hbef : ∀ a, a ∈ l1 → before a (p, sp)) by (intros a Ha; apply H3; set_solver).
  apply sorted_app. destruct Hl as [[-> Hlt]|[E ->]]; (split; [done|]).
  - split; [apply sorted_cons; split; [done|]|].
    + intros c [->|Hc]%elem_of_cons; [done|]. apply H2', Hsub, Hc.
    + intros a c Ha [->|[->|Hc]%elem_of_cons]%elem_of_cons; [by apply Hbef| |apply H3; set_solver].
      specialize (Hbef a Ha). unfold before in *. cbn in *. lia.
  - split; [apply sorted_cons; split; [done|]|].
    + intros c Hc. specialize (Hb2 c Hc). unfold before in *. cbn in *. lia.
    + intros a c Ha [->|Hc]%elem_of_cons; [by apply Hbef|apply H3; set_solver].
Qed.

(** Every block of the new list is an old one or lies inside of the old ones and
    [(b, s)]; and one holds [(b, s)]. *)
Lemma joined_block : ∃ x t, (x, t) ∈ l' ∧ x ≤ b ∧ b + s ≤ x + t.
Proof.
  destruct Hj as (s' & l2' & l & -> & Hr & Hl).
  assert (s ≤ s'). { destruct Hr as [(_ & -> & _)|(t & E2 & ->)]; [done|]. destruct (Hl2 (b + s) t); [rewrite E2; set_solver|lia]. }
  destruct Hl as [[-> Hlt]|[E ->]]; [exists b, s'|exists p, (sp + s')]; (split; [set_solver|lia]).
Qed.

Lemma joined_in x t :
  (x, t) ∈ l' → (x, t) ∈ l1 ++ [(p, sp)] ∨ (0 < t ∧ ∀ u, x ≤ u < x + t → covers (l1 ++ (p, sp) :: l2) u ∨ b ≤ u < b + s).
Proof.
  intros Hx. destruct (decide ((x, t) ∈ l1 ++ [(p, sp)])) as [|Hn]; [by left|right].
  split; [|intros u Hu; apply joined_covers; by exists x, t].
  destruct Hj as (s' & l2' & l & -> & Hr & Hl). apply elem_of_app in Hx as [Hx|Hx]; [set_solver|].
  assert (s ≤ s' ∧ ∀ c, c ∈ l2' → c ∈ l2) as [Hs' Hsub].
  { destruct Hr as [(-> & -> & _)|(t' & E2 & ->)]; [done|]. destruct (Hl2 (b + s) t'); rewrite ?E2; [set_solver|]. split; [lia|set_solver]. }
  destruct Hl as [[-> Hlt]|[E ->]].
  - apply elem_of_cons in Hx as [Hx|[[= -> ->]|Hx]%elem_of_cons]; [set_solver|lia|by apply (Hl2 x t), Hsub].
  - apply elem_of_cons in Hx as [[= -> ->]|Hx]; [lia|by apply (Hl2 x t), Hsub].
Qed.
End Joined.

Lemma covers_base base l u : covers ((base, 0) :: l) u ↔ covers l u.
Proof. rewrite covers_cons. split; [intros [?|?]; [lia|done]|by right]. Qed.

(** The list keeps its head. *)
Lemma joined_head base fl b s l1 p sp l2 l' :
  (base, 0) :: fl = l1 ++ (p, sp) :: l2 → joined b s l1 p sp l2 l' → base < b → ∃ fl', l' = (base, 0) :: fl'.
Proof.
  intros E (s' & l2' & l & -> & _ & Hl) Hb. destruct l1 as [|c l1]; cbn in E |- *; simplify_eq; [|by eauto].
  destruct Hl as [[-> _]|[E _]]; [by eauto|lia].
Qed.

(** The part of the heap that [free] works on, as lists. *)
Lemma free_joins h base b s p sp l1 l2 :
  linked h (l1 ++ (p, sp) :: l2) base → sorted (l1 ++ (p, sp) :: l2) →
  hsize h b = s → 0 < s → 0 < base < b → 0 < p → p < b → p + sp ≤ b → 0 ≤ sp → b + s < 268435456 →
  (∀ x t, (x, t) ∈ l1 → x ≠ b ∧ x ≠ p) →
  (∀ y t, (y, t) ∈ l2 → 0 < t ∧ b + s ≤ y ∧ y + t < 268435456) →
  ∃ l', linked (join_left p b (join_right b (hptr h p) h)) l' base ∧ joined b s l1 p sp l2 l'.
Proof.
  intros Hl Hso Hsz Hs Hbase Hp0 Hp Hpb Hsp Hmax Hl1 Hl2.
  assert (Hq : hptr h p = hd_addr l2 base) by (apply linked_app in Hl as [_ (_ & ? & _)]; done). rewrite Hq.
  pose proof Hl as [Hla (Hlp & _ & Hl2')]%linked_app. cbn [hd_addr] in Hla.
  pose proof Hso as (_ & [Hso2 _]%sorted_cons & _)%sorted_app.
  destruct (join_right_ok h b s l2 base) as (s' & l2' & Hr & Hcase); try done.
  pose proof (join_right_same b (hd_addr l2 base) h) as Hsame. set (h1 := join_right b (hd_addr l2 base) h) in *.
  assert (Hsub : b + s' < 268435456 ∧ s ≤ s' ∧ ∀ c, c ∈ l2' → c ∈ l2).
  { destruct Hcase as [(-> & -> & _)|(t & E & ->)]; [split_and!; [done|lia|done]|].
    rewrite E. destruct (Hl2 (b + s) t); [rewrite E; set_solver|]. split_and!; [lia|lia|set_solver]. }
  destruct Hsub as (Hmax' & Hs' & Hsub).
  destruct (join_left_ok h1 b s' p sp l1 l2' base (hd_addr l2 base)) as (l & Hll & Hlcase); try done; try lia.
  - apply linked_app. cbn [hd_addr]. split.
    + eapply (same_linked b h); [done| |done]. intros t Ht. by destruct (Hl1 b t Ht).
    + destruct Hsame as [Hsame _]. destruct (Hsame p) as [E1 E2]; [lia|]. cbn. by rewrite E1, E2.
  - intros t [Ht|[[= -> ->]|Ht]%elem_of_cons]%elem_of_app; [by destruct (Hl1 p t Ht)|lia|].
    destruct (Hl2 p t (Hsub _ Ht)). lia.
  - exists (l1 ++ l). split; [done|]. by exists s', l2', l.
Qed.

Definition same_bounds (h h' : heap) : Prop := hbase h' = hbase h ∧ hstart h' = hstart h ∧ hbrk h' = hbrk h ∧ hmax h' = hmax h.

(** The place of a block in the free list. *)
Record place (h : heap) (fl : list (Z * Z)) (b s : Z) (l1 : list (Z * Z)) (p sp : Z) (l2 : list (Z * Z)) : Prop := {
  pl_list : (hbase h, 0) :: fl = l1 ++ (p, sp) :: l2;
  pl_p : 0 < p < b ∧ p + sp ≤ b ∧ 0 ≤ sp;
  pl_l1 : ∀ x t, (x, t) ∈ l1 → x < p;
  pl_l2 : ∀ y t, (y, t) ∈ l2 → 0 < t ∧ b + s ≤ y ∧ y + t ≤ hbrk h
}.

Section FreeBlock.
Context (h : heap) (fl : list (Z * Z)) (A : gmap Z Z) (b s : Z).
Hypothesis Hok : heap_ok h fl A.
Hypothesis Hsz : hsize h b = s.
Hypothesis Hs : 0 < s.
Hypothesis Hin : hstart h ≤ b ∧ b + s ≤ hbrk h.
Hypothesis Hdf : ∀ x t, (x, t) ∈ fl → x + t ≤ b ∨ b + s ≤ x.
Hypothesis Hda : ∀ x t, A !! x = Some t → x + t ≤ b ∨ b + s ≤ x.

Lemma place_ex : ∃ l1 p sp l2, place h fl b s l1 p sp l2.
Proof.
  pose proof Hok as [Hb Hbrk Hmax _ _ Hso Hfree _ _ _].
  destruct (split_pred b s fl (hbase h) 0) as (l1 & p & sp & l2 & E & Hp & Hpb & Hl2); try done; try lia.
  { intros x t Hx. split; [by apply (Hfree x t)|by apply Hdf]. }
  assert (Hall : ∀ x t, (x, t) ∈ l1 ++ (p, sp) :: l2 → 0 ≤ t ∧ hbase h ≤ x ∧ (x = hbase h ∨ (x, t) ∈ fl)).
  { intros x t. rewrite <- E. intros [[= -> ->]|Hx]%elem_of_cons; [lia|]. destruct (Hfree x t Hx). split_and!; [lia|lia|by right]. }
  exists l1, p, sp, l2. split; [done| | |].
  - destruct (Hall p sp) as (Hsp & Hp0 & _); [set_solver|lia].
  - intros x t Hx. rewrite E in Hso. apply sorted_app in Hso as (_ & _ & H3). specialize (H3 (x, t) (p, sp) Hx ltac:(set_solver)).
    destruct (Hall x t ltac:(set_solver)). unfold before in H3. cbn in H3. lia.
  - intros y t Hy. pose proof (Hl2 y t Hy). destruct (Hall y t) as (_ & _ & [->|Hy']); [set_solver|lia|].
    destruct (Hfree y t Hy'). lia.
Qed.

(** A list that results from putting the block in place keeps the invariant. *)
Lemma heap_ok_joined h' fl' l1 p sp l2 :
  place h fl b s l1 p sp l2 → joined b s l1 p sp l2 ((hbase h, 0) :: fl') →
  linked h' ((hbase h, 0) :: fl') (hbase h) → same_bounds h h' → freep h' = p → (∀ x t, A !! x = Some t → hsize h' x = hsize h x) →
  heap_ok h' fl' A ∧ (∀ u, covers fl' u ↔ covers fl u ∨ b ≤ u < b + s) ∧ (∃ x t, (x, t) ∈ fl' ∧ s ≤ t).
Proof.
  intros [E (Hp & Hpb & Hsp) Hl1 Hl2] Hj Hl (E1 & E2 & E3 & E4) Efp Hsame. pose proof Hok as [Hb Hbrk Hmax _ _ Hso Hfree Hal Hdis Had].
  assert (Hl2' : ∀ y t, (y, t) ∈ l2 → 0 < t ∧ b + s ≤ y) by (intros y t Hy; destruct (Hl2 y t Hy); lia).
  assert (Hcov : ∀ u, covers fl' u ↔ covers fl u ∨ b ≤ u < b + s).
  { intros u. rewrite <- (covers_base (hbase h) fl'), <- (covers_base (hbase h) fl), E. by apply joined_covers. }
  assert (Hso' : sorted ((hbase h, 0) :: fl')) by (rewrite E in Hso; by apply (joined_sorted b s p sp l1 l2)).
  assert (Hpos : ∀ x t, (x, t) ∈ fl' → 0 < t).
  { intros x t Hx. destruct (joined_in b s p sp l1 l2 _ Hj Hs Hsp Hl2' x t) as [Hx'|[Ht _]]; [set_solver| |done].
    assert (Hx2 : (x, t) ∈ (hbase h, 0) :: fl) by (rewrite E; set_solver). apply elem_of_cons in Hx2 as [[= -> ->]|Hx2]; [|by apply (Hfree x t)].
    apply sorted_cons in Hso' as [_ Hso']. specialize (Hso' _ Hx). unfold before in Hso'. cbn in Hso'. lia. }
  assert (Hunit : ∀ x t u, (x, t) ∈ fl' → x ≤ u < x + t → covers fl u ∨ b ≤ u < b + s) by (intros x t u Hx Hu; apply Hcov; by exists x, t).
  split_and!; [|done|].
  2: { destruct (joined_block b s p sp l1 l2 _ Hj Hs Hsp Hl2') as (x & t & [[= -> ->]|Hx]%elem_of_cons & ? & ?); [lia|]. exists x, t. split; [done|lia]. }
  split; rewrite ?E1, ?E2, ?E3, ?E4, ?Efp; try done.
  - destruct Hj as (s' & l2' & l & -> & _ & [[-> _]|[_ ->]]); eexists; apply elem_of_app; right; left.
  - intros x t Hx. pose proof (Hpos x t Hx). split; [done|].
    assert (Hr : ∀ u, x ≤ u < x + t → hstart h ≤ u < hbrk h).
    { intros u Hu. destruct (Hunit x t u Hx Hu) as [(y & w & Hy & Hyu)|?]; [|lia]. destruct (Hfree y w Hy). lia. }
    pose proof (Hr x ltac:(lia)). pose proof (Hr (x + t - 1) ltac:(lia)). lia.
  - intros x t Hx. destruct (Hal x t Hx) as (? & ? & ? & ?). split_and!; try done. by rewrite (Hsame x t).
  - intros x t y w Hx Hy. destruct (decide (x + t ≤ y ∨ y + w ≤ x)) as [|Hn]; [done|]. exfalso. destruct (Hal x t Hx) as (? & _). pose proof (Hpos y w Hy).
    destruct (Hunit y w (Z.max x y) Hy ltac:(lia)) as [(z & v & Hz & Hzu)|Hu]; [destruct (Hdis x t z v Hx Hz); lia|destruct (Hda x t Hx); lia].
Qed.

(** A block that overlaps with no other goes to the free list. *)
Lemma free_block :
  ∃ h' fl', free (b + 1) h = Ok tt h' ∧ same_bounds h h' ∧
    heap_ok h' fl' A ∧ (∀ u, covers fl' u ↔ covers fl u ∨ b ≤ u < b + s) ∧ (∃ x t, (x, t) ∈ fl' ∧ s ≤ t).
Proof.
  destruct place_ex as (l1 & p & sp & l2 & Hpl). pose proof Hpl as [E (Hp & Hpb & Hsp) Hl1 Hl2].
  pose proof Hok as [Hb Hbrk Hmax [sf Hfp] Hl Hso Hfree Hal Hdis Had]. pose proof (ho_length _ _ _ Hok) as Hlen.
  rewrite E in Hfp, Hl, Hso.
  destruct (free_joins h (hbase h) b s p sp l1 l2) as (l' & Hl' & Hj); try done; try lia.
  { intros x t Hx. specialize (Hl1 x t Hx). lia. }
  { intros y t Hy. destruct (Hl2 y t Hy). lia. }
  pose proof (joined_head _ _ _ _ _ _ _ _ _ E Hj ltac:(lia)) as [fl' ->].
  eexists _, fl'. split.
  { apply free_unfold, (find_place_ok h (hbase h) b p sp l1 l2 Hl Hso) with sf; try done; try lia.
    - intros x t. rewrite <- E. intros [[= -> ->]|Hx]%elem_of_cons; [done|]. destruct (Hfree x t Hx). lia.
    - by exists 0, fl.
    - intros y t Hy. destruct (Hl2 y t Hy). lia.
    - rewrite <- E. cbn. lia. }
  pose proof (join_right_same b (hptr h p) h) as [Hs1 (? & ? & ? & ? & ?)].
  pose proof (join_left_same p b (join_right b (hptr h p) h)) as [Hs2 (? & ? & ? & ? & ?)].
  assert (Hsb : same_bounds h (set_freep p (join_left p b (join_right b (hptr h p) h)))) by (unfold same_bounds; cbn; split_and!; congruence).
  split; [done|]. eapply heap_ok_joined; try done; [by eapply linked_ext|].
  intros x t Hx. cbn. destruct (Hal x t Hx) as (? & ? & _). destruct (Hs2 x) as [_ ->].
  - intros ->. assert (Hin2 : (p, sp) ∈ (hbase h, 0) :: fl) by (rewrite E; set_solver).
    apply elem_of_cons in Hin2 as [[= -> ->]|Hin2]; [lia|]. destruct (Hfree p sp Hin2). destruct (Hdis p t p sp Hx Hin2); lia.
  - destruct (Hs1 x) as [_ ->]; [|done]. intros ->. destruct (Hda b t Hx); lia.
Qed.
End FreeBlock.

(** ** Taking a block from the free list *)

(** What is left of the block [(x, t)] when its last [n] headers are taken. *)
Definition rest_of (x t n : Z) : list (Z * Z) := if t =? n then [] else [(x, t - n)].

Lemma elem_of_rest c x t n : c ∈ rest_of x t n → c = (x, t - n) ∧ t ≠ n.
Proof.
  unfold rest_of. destruct (Z.eqb_spec t n); [by intros ?%elem_of_nil|]. by intros ->%list_elem_of_singleton.
Qed.

Section Take.
Context (h : heap) (fl : list (Z * Z)) (A : gmap Z Z) (n p sp x t : Z) (k1 k2 : list (Z * Z)).
Hypothesis Hok : heap_ok h fl A.
Hypothesis Hn : 0 < n ≤ t.
Hypothesis Hfl : (hbase h, 0) :: fl = k1 ++ (p, sp) :: (x, t) :: k2.

Notation l' := (k1 ++ (p, sp) :: rest_of x t n ++ k2).

Lemma take_in : (x, t) ∈ fl.
Proof.
  assert (H : (x, t) ∈ (hbase h, 0) :: fl) by (rewrite Hfl; set_solver). apply elem_of_cons in H as [[= _ ->]|H]; [lia|done].
Qed.

Lemma take_covers u : covers ((hbase h, 0) :: fl) u ↔ covers l' u ∨ x + (t - n) ≤ u < x + (t - n) + n.
Proof.
  rewrite Hfl, !covers_app, !covers_cons, covers_app.
  assert (x ≤ u < x + t ↔ covers (rest_of x t n) u ∨ x + (t - n) ≤ u < x + (t - n) + n) as ->; [|tauto].
  unfold rest_of. destruct (Z.eqb_spec t n) as [->|Hne].
  - split; [intros; right; lia|intros [(y & s & ?%elem_of_nil & _)|?]; [done|lia]].
  - rewrite covers_cons. split; [intros; destruct (decide (u < x + (t - n))); [left; left|right]; lia|].
    intros [[?|(y & s & ?%elem_of_nil & _)]|?]; [lia|done|lia].
Qed.

Lemma take_sorted : sorted l'.
Proof.
  pose proof (ho_sorted _ _ _ Hok) as Hso. rewrite Hfl in Hso.
  apply sorted_app in Hso as (H1 & H2 & H3). apply sorted_cons in H2 as [H2 H4]. apply sorted_cons in H2 as [H2 H5].
  assert (Hr : ∀ a, before a (x, t) → ∀ c, c ∈ rest_of x t n → before a c).
  { intros a Ha c [-> _]%elem_of_rest. unfold before in *. cbn in *. lia. }
  apply sorted_app. split; [done|]. split.
  - apply sorted_cons. split.
    + apply sorted_app. split; [unfold rest_of; destruct (t =? n); repeat constructor|]. split; [done|].
      intros a c [-> _]%elem_of_rest Hc. specialize (H5 c Hc). unfold before in *. cbn in *. lia.
    + intros c [Hc|Hc]%elem_of_app; [|apply H4; set_solver]. eapply Hr; [|done]. apply H4. set_solver.
  - intros a c Ha [->|[Hc|Hc]%elem_of_app]%elem_of_cons; [apply H3; set_solver| |apply H3; set_solver].
    eapply Hr; [|done]. apply H3; set_solver.
Qed.

Lemma take_elem y s : (y, s) ∈ l' → y + s ≤ x ∨ x + t ≤ y ∨ y = x ∧ s = t - n.
Proof.
  pose proof (ho_sorted _ _ _ Hok) as Hs. rewrite Hfl in Hs. apply sorted_app in Hs as (_ & [[_ H5]%sorted_cons H4]%sorted_cons & H3).
  unfold before in *. intros [Hy|[[= -> ->]|[[[= -> ->] _]%elem_of_rest|Hy]%elem_of_app]%elem_of_cons]%elem_of_app.
  - specialize (H3 _ (x, t) Hy ltac:(set_solver)). cbn in H3. lia.
  - specialize (H4 (x, t) ltac:(set_solver)). cbn in H4. lia.
  - lia.
  - specialize (H5 _ Hy). cbn in H5. lia.
Qed.

Lemma take_head : ∃ fl', l' = (hbase h, 0) :: fl' ∧ (∀ y s, (y, s) ∈ fl' → (y, s) ∈ fl ∨ (y, s) ∈ rest_of x t n).
Proof.
  pose proof Hfl as E. destruct k1 as [|c k]; cbn in E |- *.
  - injection E as <- <- E1. eexists. split; [done|]. rewrite E1. set_solver.
  - injection E as <- E1. eexists. split; [done|]. rewrite E1. set_solver.
Qed.

Lemma heap_ok_taken h' :
  linked h' l' (hbase h) → same_bounds h h' → freep h' = p → (∀ y s, A !! y = Some s → hsize h' y = hsize h y) →
  hsize h' (x + (t - n)) = n →
  ∃ fl', heap_ok h' fl' (<[x + (t - n) := n]> A) ∧ A !! (x + (t - n)) = None ∧
    ∀ u, covers fl u ↔ covers fl' u ∨ x + (t - n) ≤ u < x + (t - n) + n.
Proof.
  intros Hl (E1 & E2 & E3 & E4) Efp Hsame Hsz. pose proof Hok as [Hb Hbrk Hmax _ _ _ Hfree Hal Hdis Had].
  pose proof take_sorted as Hso. destruct take_head as (fl' & E & Hsub). pose proof take_in as Hx. destruct (Hfree x t Hx) as (Ht & Hlo & Hhi).
  pose proof take_covers as Hcov. rewrite E in Hso, Hl. setoid_rewrite E in Hcov. setoid_rewrite covers_base in Hcov.
  assert (Hfr : ∀ y s, (y, s) ∈ fl' → 0 < s ∧ ((y, s) ∈ fl ∧ (y + s ≤ x ∨ x + t ≤ y) ∨ y = x ∧ s = t - n)).
  { intros y s Hy. destruct (Hsub y s Hy) as [Hy'|[[= -> ->] ?]%elem_of_rest]; [|lia]. destruct (Hfree y s Hy').
    destruct (take_elem y s) as [?|[?|?]]; [rewrite E; set_solver|..]; lia || tauto. }
  assert (Hnew : A !! (x + (t - n)) = None).
  { destruct (A !! (x + (t - n))) as [s|] eqn:Ey; [|done]. destruct (Hdis _ _ _ _ Ey Hx); destruct (Hal _ _ Ey); lia. }
  exists fl'. split_and!; [|done|done]. split; rewrite ?E1, ?E2, ?E3, ?E4, ?Efp; try done.
  - rewrite <- E. exists sp. set_solver.
  - intros y s Hy. destruct (Hfr y s Hy) as (? & [[Hy' _]|[-> ->]]); [by apply Hfree|lia].
  - intros y s [[<- <-]|[Hne Hy]]%lookup_insert_Some; [lia|]. destruct (Hal y s Hy) as (? & ? & ? & ?). split_and!; try done. by rewrite (Hsame y s).
  - intros y s z w [[<- <-]|[Hne Hy]]%lookup_insert_Some Hz; destruct (Hfr z w Hz) as (? & [[Hz' ?]|[-> ->]]); try lia.
    + by apply (Hdis y s z w).
    + destruct (Hdis y s x t Hy Hx); lia.
  - intros y s z w [[<- <-]|[Hne Hy]]%lookup_insert_Some [[<- <-]|[Hne' Hz]]%lookup_insert_Some Hyz; try done.
    + destruct (Hdis z w x t Hz Hx); lia.
    + destruct (Hdis y s x t Hy Hx); lia.
    + by apply Had.
Qed.
End Take.

Lemma ho_nonneg h fl A y s : heap_ok h fl A → (y, s) ∈ (hbase h, 0) :: fl → 0 ≤ s.
Proof. intros Hok [[= -> ->]|Hy]%elem_of_cons; [done|]. destruct (ho_free _ _ _ Hok y s Hy). lia. Qed.

(** The two ways in which [malloc] takes [n] headers from the block after [p]. *)
Definition taken (n p x : Z) (h : heap) : heap :=
  set_freep p (if hsize h x =? n then set_ptr p (hptr h x) h
               else set_size (x + (hsize h x - n)) n (set_size x (hsize h x - n) h)).

Lemma malloc_loop_fits fuel n p x h :
  n ≤ hsize h x → malloc_loop (S fuel) n p x h = Ok (x + (hsize h x - n) + 1) (taken n p x h).
Proof.
  intros Hn. cbn [malloc_loop]. unfold rd_size. rewrite (bind_ok (gets _) _ h (hsize h x) h) by done.
  rewrite (proj2 (Z.leb_le _ _) Hn). unfold taken. destruct (Z.eqb_spec (hsize h x) n) as [->|]; [|done].
  rewrite Z.sub_diag, Z.add_0_r. done.
Qed.

Lemma taken_linked h fl A n p sp x t k1 k2 :
  heap_ok h fl A → 0 < n ≤ t → (hbase h, 0) :: fl = k1 ++ (p, sp) :: (x, t) :: k2 →
  linked (taken n p x h) (k1 ++ (p, sp) :: rest_of x t n ++ k2) (hbase h).
Proof.
  intros Hok Hn E. pose proof (ho_linked _ _ _ Hok) as Hl. pose proof (ho_sorted _ _ _ Hok) as Hso. rewrite E in Hl, Hso.
  assert (Hnn : ∀ y s, (y, s) ∈ k1 ++ (p, sp) :: (x, t) :: k2 → 0 ≤ s) by (intros y s Hy; eapply ho_nonneg; [done|by rewrite E]).
  apply sorted_app in Hso as (_ & [[_ H5]%sorted_cons H4]%sorted_cons & H3). unfold before in *.
  assert (Hk1 : ∀ y s, (y, s) ∈ k1 → y < p ∧ y < x).
  { intros y s Hy. pose proof (H3 _ (p, sp) Hy ltac:(set_solver)). pose proof (H3 _ (x, t) Hy ltac:(set_solver)).
    pose proof (Hnn y s ltac:(set_solver)). cbn in *. lia. }
  assert (Hp : p < x). { pose proof (H4 (x, t) ltac:(set_solver)). pose proof (Hnn p sp ltac:(set_solver)). cbn in *. lia. }
  assert (Hk2 : ∀ y s, (y, s) ∈ k2 → x + t < y) by (intros y s Hy; exact (H5 _ Hy)).
  apply linked_app in Hl as [Hl1 (Hsp & Hpp & Hsx & Hpx & Hl2)]. cbn [hd_addr] in Hl1, Hpp.
  apply linked_app. cbn [hd_addr]. unfold taken, rest_of. rewrite Hsx. destruct (Z.eqb_spec t n) as [->|Hne].
  - split; [|split; [done|split; [cbn; by rewrite Z.eqb_refl, Hpx|]]]; (eapply linked_ext; [done|]); intros y s Hy; cbn.
    + rewrite (proj2 (Z.eqb_neq y p)); [done|]. destruct (Hk1 y s Hy). lia.
    + rewrite (proj2 (Z.eqb_neq y p)); [done|]. specialize (Hk2 y s Hy). lia.
  - split; [|split; [|split; [done|split; [|split; [done|]]]]].
    + eapply linked_ext; [done|]. intros y s Hy. destruct (Hk1 y s Hy). cbn. by rewrite !(proj2 (Z.eqb_neq y _)) by lia.
    + cbn. by rewrite !(proj2 (Z.eqb_neq p _)) by lia.
    + cbn. by rewrite (proj2 (Z.eqb_neq x (x + (t - n)))), Z.eqb_refl by lia.
    + eapply linked_ext; [done|]. intros y s Hy. specialize (Hk2 y s Hy). cbn. by rewrite !(proj2 (Z.eqb_neq y _)) by lia.
Qed.

Lemma malloc_take fuel h fl A n p sp x :
  heap_ok h fl A → 0 < n ≤ hsize h x → (p, sp) ∈ (hbase h, 0) :: fl → hptr h p = x → x ≠ hbase h →
  ∃ y h' fl', malloc_loop (S fuel) n p x h = Ok (y + 1) h' ∧ same_bounds h h' ∧ 0 < y ∧ heap_ok h' fl' (<[y := n]> A) ∧ A !! y = None ∧
    ∀ u, covers fl u ↔ covers fl' u ∨ y ≤ u < y + n.
Proof.
  intros Hok Hn Hp Hx Hne. pose proof (ho_linked _ _ _ Hok) as Hl. pose proof Hp as Hp'.
  apply list_elem_of_split in Hp as (k1 & k & E). rewrite E in Hl. apply linked_app in Hl as [_ (_ & Hhd & Hk)]. rewrite Hx in Hhd.
  destruct k as [|[x' t] k2]; cbn [hd_addr] in Hhd; [congruence|]. subst x'. destruct Hk as (Ht & _ & _). rewrite Ht in Hn.
  assert (Hin : (x, t) ∈ fl) by (by eapply take_in). destruct (ho_free _ _ _ Hok x t Hin) as (? & Hlo & _).
  destruct (heap_ok_taken h fl A n p sp x t k1 k2 Hok Hn E (taken n p x h)) as (fl' & H1 & H2 & H3).
  - by eapply taken_linked.
  - unfold taken. by destruct (_ =? _).
  - done.
  - intros y s Hy. unfold taken. rewrite Ht. destruct (ho_alloc _ _ _ Hok y s Hy). destruct (ho_disj _ _ _ Hok y s x t Hy Hin);
      destruct (_ =? n); cbn; rewrite ?(proj2 (Z.eqb_neq y _)) by lia; done.
  - unfold taken. rewrite Ht. destruct (Z.eqb_spec t n) as [->|]; cbn; [by rewrite Z.sub_diag, Z.add_0_r|by rewrite Z.eqb_refl].
  - exists (x + (t - n)), (taken n p x h), fl'. split_and!; try done; [|by unfold taken; destruct (_ =? _)..|].
    + rewrite malloc_loop_fits by lia. by rewrite Ht.
    + pose proof (ho_base _ _ _ Hok). lia.
Qed.

(** ** The walk of [malloc] *)

Definition last_addr (p : Z) (l : list (Z * Z)) : Z := match last l with Some c => c.1 | None => p end.

Lemma last_addr_cons p c l : last_addr p (c :: l) = last_addr c.1 l.
Proof. unfold last_addr. rewrite last_cons. by destruct (last l). Qed.

Lemma malloc_loop_skip h n x w : ∀ p fuel,
  linked h w x → (∀ y s, (y, s) ∈ w → s < n ∧ y ≠ freep h) →
  malloc_loop (length w + fuel) n p (hd_addr w x) h = malloc_loop fuel n (last_addr p w) x h.
Proof.
  induction w as [|[y s] w IH]; intros p fuel Hl Hw; [done|]. destruct Hl as (Hs & Hp & Hl). destruct (Hw y s ltac:(set_solver)) as [Hsn Hne].
  rewrite last_addr_cons. cbn [length Nat.add malloc_loop hd_addr]. unfold rd_size, rd_ptr.
  rewrite (bind_ok (gets _) _ h (hsize h y) h) by done. rewrite Hs, (proj2 (Z.leb_gt n s)) by done.
  rewrite (bind_ok (gets _) _ h (freep h) h) by done. rewrite (proj2 (Z.eqb_neq y _) Hne).
  rewrite (bind_ok (mret _) _ h (Some y) h), (bind_ok (gets _) _ h (hptr h y) h) by done. rewrite Hp. apply IH; [done|set_solver].
Qed.

Lemma last_linked h x w : ∀ f sf, linked h ((f, sf) :: w) x →
  ∃ sp, (last_addr f w, sp) ∈ (f, sf) :: w ∧ hptr h (last_addr f w) = x.
Proof.
  induction w as [|[y s] w IH]; intros f sf (Hs & Hp & Hl).
  - exists sf. split; [set_solver|done].
  - destruct (IH y s Hl) as (sp & Hin & E). rewrite last_addr_cons. exists sp. split; [by right|done].
Qed.

Lemma first_fit n (w : list (Z * Z)) :
  (∀ y s, (y, s) ∈ w → s < n) ∨ ∃ w1 x t w2, w = w1 ++ (x, t) :: w2 ∧ n ≤ t ∧ ∀ y s, (y, s) ∈ w1 → s < n.
Proof.
  induction w as [|[y s] w IH]; [left; by intros ?? ?%elem_of_nil|].
  destruct (decide (s < n)) as [Hs|Hs]; [|right; exists [], y, s, w; split_and!; [done|lia|by intros ?? ?%elem_of_nil]].
  destruct IH as [IH|(w1 & x & t & w2 & -> & Ht & IH)].
  - left. intros z u [[= -> ->]|Hz]%elem_of_cons; [done|by apply (IH z u)].
  - right. exists ((y, s) :: w1), x, t, w2. split_and!; [done|done|]. intros z u [[= -> ->]|Hz]%elem_of_cons; [done|by apply (IH z u)].
Qed.

(** The free list as [malloc] walks it: from the block after [freep] round to it. *)
Lemma rotate h fl A :
  heap_ok h fl A → ∃ sf w, linked h ((freep h, sf) :: w) (freep h) ∧ length w = length fl ∧
    (∀ c, c ∈ (freep h, sf) :: w ↔ c ∈ (hbase h, 0) :: fl) ∧ (∀ y s, (y, s) ∈ w → y ≠ freep h).
Proof.
  intros Hok. destruct (ho_freep _ _ _ Hok) as [sf Hf]. pose proof (ho_linked _ _ _ Hok) as Hl. pose proof (ho_sorted _ _ _ Hok) as Hso.
  pose proof (λ y s, ho_nonneg _ _ _ y s Hok) as Hnn.
  apply list_elem_of_split in Hf as (la & lb & E). exists sf, (lb ++ la). rewrite E in Hl, Hso, Hnn.
  pose proof Hl as [Hla (Hsz & Hp & Hlb)]%linked_app. cbn [hd_addr] in Hla.
  assert (Hhd : hd_addr la (freep h) = hbase h) by (destruct la as [|[z u] la]; injection E as <- ?; done).
  split_and!.
  - change (linked h (((freep h, sf) :: lb) ++ la) (freep h)). apply linked_app. rewrite Hhd. done.
  - apply (f_equal length) in E. cbn in E. rewrite length_app in *. cbn in E. lia.
  - intros c. rewrite E. set_solver.
  - apply sorted_app in Hso as (_ & [_ H4]%sorted_cons & H3). unfold before in *.
    intros y s [Hy|Hy]%elem_of_app ->; [specialize (H4 _ Hy)|specialize (H3 _ (freep h, sf) Hy ltac:(set_solver))]; cbn in *.
    + pose proof (Hnn (freep h) sf ltac:(set_solver)). lia.
    + pose proof (Hnn (freep h) s ltac:(set_solver)). lia.
Qed.

Lemma fits_not_base h fl A n x t : heap_ok h fl A → 0 < n ≤ t → hsize h x = t → x ≠ hbase h.
Proof. intros Hok Hn Ht ->. destruct (ho_linked _ _ _ Hok) as [E _]. lia. Qed.

(** A block that is large enough is found in one round. *)
Lemma malloc_round_fits h fl A n fuel :
  heap_ok h fl A → 0 < n → (S (length fl) ≤ fuel)%nat → (∃ x t, (x, t) ∈ fl ∧ n ≤ t) →
  ∃ y h' fl', malloc_loop fuel n (freep h) (hptr h (freep h)) h = Ok (y + 1) h' ∧ same_bounds h h' ∧ 0 < y ∧
    heap_ok h' fl' (<[y := n]> A) ∧ A !! y = None ∧ ∀ u, covers fl u ↔ covers fl' u ∨ y ≤ u < y + n.
Proof.
  intros Hok Hn Hf (x0 & t0 & Hx0 & Ht0). destruct (rotate h fl A Hok) as (sf & w & Hl & Hlen & Hin & Hne). pose proof Hl as (Hsf & Hpf & Hlw).
  rewrite Hpf. destruct (first_fit n w) as [Hall|(w1 & x & t & w2 & -> & Ht & Hall)].
  - destruct (last_linked _ _ _ _ _ Hl) as (sp & Hsp & Hlast). assert (Hsfn : n ≤ sf).
    { assert (H0 : (x0, t0) ∈ (freep h, sf) :: w) by (apply Hin; set_solver).
      apply elem_of_cons in H0 as [[= -> ->]|H0]; [done|]. specialize (Hall _ _ H0). lia. }
    replace fuel with (length w + S (fuel - S (length w)))%nat by lia.
    rewrite malloc_loop_skip; [|done|intros y s Hy; split; [by apply (Hall y s)|by apply (Hne y s)]].
    eapply malloc_take; [done|lia|by apply Hin|done|]. by apply (fits_not_base h fl A n _ sf).
  - change ((freep h, sf) :: w1 ++ (x, t) :: w2) with (((freep h, sf) :: w1) ++ (x, t) :: w2) in *.
    apply linked_app in Hl as [Hl1 (Hsx & _ & _)]. cbn [hd_addr] in Hl1. destruct (last_linked _ _ _ _ _ Hl1) as (sp & Hsp & Hlast).
    destruct Hl1 as (_ & _ & Hl1). rewrite length_app in Hlen. cbn in Hlen. replace fuel with (length w1 + S (fuel - S (length w1)))%nat by lia.
    rewrite hd_addr_app. cbn [hd_addr]. rewrite malloc_loop_skip; [|done|intros y s Hy; split; [by apply (Hall y s)|apply (Hne y s); set_solver]].
    eapply malloc_take; [done|lia|apply Hin, (elem_of_app ((freep h, sf) :: w1)); by left|done|]. by apply (fits_not_base h fl A n _ t).
Qed.

(** Without one, the walk comes back to [freep] and asks for more memory. *)
Lemma malloc_round_small h fl A n fuel :
  heap_ok h fl A → 0 < n → (∀ x t, (x, t) ∈ fl → t < n) →
  ∃ p, malloc_loop (length fl + fuel) n (freep h) (hptr h (freep h)) h = malloc_loop fuel n p (freep h) h ∧ hsize h (freep h) < n.
Proof.
  intros Hok Hn Hall. destruct (rotate h fl A Hok) as (sf & w & (Hsf & Hpf & Hlw) & Hlen & Hin & Hne).
  assert (Hsm : ∀ y s, (y, s) ∈ (freep h, sf) :: w → s < n).
  { intros y s [[= -> ->]|Hy]%Hin%elem_of_cons; [done|by apply (Hall y s)]. }
  exists (last_addr (freep h) w). rewrite Hpf, Hsf, <- Hlen. split; [|apply (Hsm (freep h)); set_solver].
  apply malloc_loop_skip; [done|]. intros y s Hy. split; [apply (Hsm y); set_solver|by apply (Hne y s)].
Qed.

(** ** Growing the heap *)

Lemma grown_ok h fl A nu :
  heap_ok h fl A → 0 < nu → hbrk h + nu ≤ hmax h → heap_ok (set_size (hbrk h) nu (set_brk (hbrk h + nu) h)) fl A.
Proof.
  intros [Hb Hbrk Hmax Hfp Hl Hso Hfree Hal Hdis Had] Hnu Hroom. split; cbn -[linked]; try done; try lia.
  - apply (linked_ext h); [done|]. intros x s Hx. cbn. rewrite (proj2 (Z.eqb_neq x (hbrk h))); [done|].
    apply elem_of_cons in Hx as [[= -> ->]|Hx]; [lia|]. destruct (Hfree x s Hx). lia.
  - intros x s Hx. destruct (Hfree x s Hx). lia.
  - intros x s Hx. destruct (Hal x s Hx) as (? & ? & ? & ?). rewrite (proj2 (Z.eqb_neq x (hbrk h))) by lia. lia.
Qed.

Lemma morecore_fails h n :
  0 < n < 268435456 → hmax h < hbrk h + Z.max n 4096 → morecore n h = Ok 0 h.
Proof.
  intros Hn Hm. unfold morecore. replace (if n <? 4096 then 4096 else n) with (Z.max n 4096) by (destruct (Z.ltb_spec n 4096); lia).
  rewrite s32_small by lia. rewrite (bind_ok _ _ h (-1) h); [done|]. unfold sbrk.
  rewrite (bind_ok (gets _) _ h (hbrk h) h), (bind_ok (gets _) _ h (hmax h) h) by done.
  rewrite Z.div_mul by lia. by rewrite (proj2 (Z.ltb_lt 0 _)), (proj2 (Z.ltb_lt (hmax h) _)) by lia.
Qed.

Lemma morecore_ok h fl A n :
  heap_ok h fl A → 0 < n < 268435456 → hbrk h + Z.max n 4096 ≤ hmax h →
  ∃ h' fl', morecore n h = Ok (freep h') h' ∧ heap_ok h' fl' A ∧ freep h' ≠ 0 ∧ (∃ x t, (x, t) ∈ fl' ∧ n ≤ t) ∧
    hbase h' = hbase h ∧ hstart h' = hstart h ∧ hbrk h' = hbrk h + Z.max n 4096 ∧ hmax h' = hmax h ∧
    ∀ u, covers fl' u ↔ covers fl u ∨ hbrk h ≤ u < hbrk h'.
Proof.
  intros Hok Hn Hm. unfold morecore. replace (if n <? 4096 then 4096 else n) with (Z.max n 4096) by (destruct (Z.ltb_spec n 4096); lia).
  set (nu := Z.max n 4096) in *. pose proof Hok as [Hb Hbrk Hmax _ _ _ Hfree Hal _ _].
  rewrite s32_small by lia. rewrite (bind_ok _ _ h (hbrk h) (set_brk (hbrk h + nu) h)).
  2: { unfold sbrk. rewrite (bind_ok (gets _) _ h (hbrk h) h), (bind_ok (gets _) _ h (hmax h) h) by done.
       rewrite Z.div_mul by lia. by rewrite (proj2 (Z.ltb_lt 0 _)), (proj2 (Z.ltb_ge (hmax h) _)) by lia. }
  rewrite (proj2 (Z.eqb_neq (hbrk h) (-1))) by lia.
  set (h1 := set_size (hbrk h) nu (set_brk (hbrk h + nu) h)). rewrite (bind_ok (modify _) _ _ tt h1) by done.
  destruct (free_block h1 fl A (hbrk h) nu) as (h' & fl' & Hrun & (E1 & E2 & E3 & E4) & Hok' & Hcov & x & t & Hx & Ht).
  - apply grown_ok; [done|lia|done].
  - cbn. by rewrite Z.eqb_refl.
  - lia.
  - cbn. lia.
  - intros x t Hx. destruct (Hfree x t Hx). lia.
  - intros x t Hx. destruct (Hal x t Hx). lia.
  - exists h', fl'. rewrite (bind_ok _ _ _ _ _ Hrun). split; [done|]. split; [done|]. split.
    { destruct (ho_freep _ _ _ Hok') as [s [[= -> _]|Hf]%elem_of_cons]; pose proof (ho_base _ _ _ Hok'); [lia|].
      destruct (ho_free _ _ _ Hok' _ _ Hf). lia. }
    split; [exists x, t; split; [done|lia]|]. cbn in E1, E2, E3, E4. split_and!; try done. rewrite E3. done.
Qed.

(** ** [malloc] *)

(** A header of the heap that belongs to no allocated block. *)
Definition free_unit (h : heap) (A : gmap Z Z) (u : Z) : Prop :=
  hstart h ≤ u < hbrk h ∧ ∀ y s, A !! y = Some s → ¬ y ≤ u < y + s.

(** No header is lost. *)
Definition no_leak (h : heap) (fl : list (Z * Z)) (A : gmap Z Z) : Prop := ∀ u, free_unit h A u → covers fl u.

Definition heap_inv (h : heap) (A : gmap Z Z) : Prop :=
  (freep h = 0 ∧ A = ∅ ∧ 0 < hbase h < hstart h ∧ hbrk h = hstart h ∧ hstart h ≤ hmax h < 268435456) ∨
  (∃ fl, heap_ok h fl A ∧ no_leak h fl A).

Lemma ho_freep_ne h fl A : heap_ok h fl A → freep h ≠ 0.
Proof.
  intros Hok. destruct (ho_freep _ _ _ Hok) as [s [[= -> _]|Hf]%elem_of_cons]; pose proof (ho_base _ _ _ Hok); [lia|].
  destruct (ho_free _ _ _ Hok _ _ Hf). lia.
Qed.

Lemma sorted_pair l a b : sorted l → a ∈ l → b ∈ l → a = b ∨ before a b ∨ before b a.
Proof.
  induction l as [|c l IH]; [by intros _ ?%elem_of_nil|]. intros [Hs Hc]%sorted_cons [->|Ha]%elem_of_cons [->|Hb]%elem_of_cons; auto.
Qed.

(** Free blocks do not touch: a run of free headers lies in one of them. *)
Lemma run_in_block h fl A n x :
  heap_ok h fl A → 0 < n → (∀ u, x ≤ u < x + n → covers fl u) → ∃ y t, (y, t) ∈ fl ∧ n ≤ t.
Proof.
  intros Hok Hn Hc. destruct (Hc x ltac:(lia)) as (y & t & Hy & Hx). exists y, t. split; [done|].
  destruct (decide (x + n ≤ y + t)) as [|Hlt]; [lia|]. exfalso.
  destruct (Hc (y + t) ltac:(lia)) as (z & w & Hz & Hzu). pose proof (ho_sorted _ _ _ Hok) as [Hs _]%sorted_cons.
  destruct (sorted_pair fl (y, t) (z, w) Hs Hy Hz) as [[= -> ->]|[Hb|Hb]]; unfold before in *; cbn in *; lia.
Qed.

(** The state in which the walk starts. *)
Lemma malloc_start h A nbytes :
  heap_inv h A → ∃ h1 fl, heap_ok h1 fl A ∧ no_leak h1 fl A ∧ same_bounds h h1 ∧
    malloc nbytes h = malloc_loop (malloc_fuel (u32 (nbytes + 7) / 8 + 1) h1) (u32 (nbytes + 7) / 8 + 1) (freep h1) (hptr h1 (freep h1)) h1.
Proof.
  intros [(Hf & -> & Hb & Hbrk & Hmax)|(fl & Hok & Hnl)].
  - set (h1 := set_size (hbase h) 0 (set_ptr (hbase h) (hbase h) (set_freep (hbase h) h))). exists h1, [].
    split_and!.
    + split; cbn; try done; try lia; try set_solver.
      * by rewrite Z.eqb_refl.
      * repeat constructor.
    + intros u [Hu _]. cbn in Hu. lia.
    + done.
    + unfold malloc. rewrite (bind_ok (gets _) _ h (freep h) h) by done. rewrite Hf. done.
  - exists h, fl. split_and!; [done|done|done|]. unfold malloc. rewrite (bind_ok (gets _) _ h (freep h) h) by done.
    by rewrite (proj2 (Z.eqb_neq _ _) (ho_freep_ne _ _ _ Hok)).
Qed.

Lemma no_leak_taken h h' fl fl' A y n :
  no_leak h fl A → same_bounds h h' → (∀ u, covers fl u ↔ covers fl' u ∨ y ≤ u < y + n) → A !! y = None → no_leak h' fl' (<[y := n]> A).
Proof.
  intros Hnl (E1 & E2 & E3 & E4) Hcov Hy u [Hu Ha]. rewrite E2, E3 in Hu.
  assert (Hc : covers fl u).
  { apply Hnl. split; [done|]. intros z s Hz. apply Ha. rewrite lookup_insert_ne; [done|]. congruence. }
  apply Hcov in Hc as [Hc|Hc]; [done|]. exfalso. apply (Ha y n); [by rewrite lookup_insert_eq|done].
Qed.

(** The step of the loop at which [malloc] asks for more memory. *)
Lemma malloc_loop_grow h n p fuel :
  hsize h (freep h) < n →
  malloc_loop (S fuel) n p (freep h) h =
  mbind (λ hp, if hp =? 0 then mret 0 else q ← rd_ptr hp; malloc_loop fuel n hp q) (morecore n) h.
Proof.
  intros Hn. cbn [malloc_loop]. unfold rd_size. rewrite (bind_ok (gets _) _ h (hsize h (freep h)) h) by done.
  rewrite (proj2 (Z.leb_gt _ _) Hn), (bind_ok (gets _) _ h (freep h) h), Z.eqb_refl by done.
  unfold mbind, M_bind. destruct (morecore n h) as [hp h'|e]; cbn; [|done]. by destruct (hp =? 0).
Qed.

Section Request.
Context (h : heap) (fl : list (Z * Z)) (A : gmap Z Z) (n : Z) (fuel : nat).
Hypothesis Hok : heap_ok h fl A.
Hypothesis Hnl : no_leak h fl A.
Hypothesis Hn : 0 < n < 268435456.
Hypothesis Hfuel : (malloc_fuel n h ≤ fuel)%nat.

(** What [malloc] does for [n] headers, from [freep] on. *)
Lemma malloc_loop_ok :
  ∃ r h', malloc_loop fuel n (freep h) (hptr h (freep h)) h = Ok r h' ∧
    ((r = 0 ∧ heap_inv h' A ∧ hmax h < hbrk h + Z.max n 4096 ∧ ∀ x, ¬ ∀ u, x ≤ u < x + n → free_unit h A u) ∨
     (0 < r - 1 ∧ A !! (r - 1) = None ∧ heap_inv h' (<[r - 1 := n]> A))).
Proof.
  pose proof (ho_length _ _ _ Hok) as Hlen. pose proof (ho_brk _ _ _ Hok) as Hb. unfold malloc_fuel in Hfuel.
  assert (Hdone : ∀ h0 fl0 y h' fl', no_leak h0 fl0 A → same_bounds h0 h' → 0 < y → heap_ok h' fl' (<[y := n]> A) → A !! y = None →
    (∀ u, covers fl0 u ↔ covers fl' u ∨ y ≤ u < y + n) → 0 < y + 1 - 1 ∧ A !! (y + 1 - 1) = None ∧ heap_inv h' (<[y + 1 - 1 := n]> A)).
  { intros h0 fl0 y h' fl' H0 H1 H2 H3 H4 H5. replace (y + 1 - 1) with y by lia. split_and!; [done|done|]. right. exists fl'.
    split; [done|]. by eapply no_leak_taken. }
  destruct (first_fit n fl) as [Hall|(w1 & x & t & w2 & E & Ht & _)].
  - destruct (malloc_round_small h fl A n (fuel - length fl) Hok ltac:(lia) Hall) as (p & Hround & Hsz).
    replace (length fl + (fuel - length fl))%nat with fuel in Hround by lia. rewrite Hround.
    replace (fuel - length fl)%nat with (S (fuel - S (length fl))) by lia. rewrite malloc_loop_grow by done.
    destruct (decide (hmax h < hbrk h + Z.max n 4096)) as [Hm|Hm].
    + rewrite (bind_ok _ _ _ _ _ (morecore_fails h n Hn Hm)). exists 0, h. split; [done|]. left. split_and!; [done|right; by exists fl|done|].
      intros x Hx. destruct (run_in_block h fl A n x Hok ltac:(lia)) as (y & t & Hy & Ht); [intros u Hu; by apply Hnl, Hx|].
      specialize (Hall y t Hy). lia.
    + destruct (morecore_ok h fl A n Hok Hn ltac:(lia)) as (h1 & fl1 & Hmc & Hok1 & Hf & Hfit & E1 & E2 & E3 & E4 & Hcov).
      rewrite (bind_ok _ _ _ _ _ Hmc), (proj2 (Z.eqb_neq _ _) Hf). unfold rd_ptr. rewrite (bind_ok (gets _) _ h1 (hptr h1 (freep h1)) h1) by done.
      pose proof (ho_length _ _ _ Hok1) as Hlen1. unfold blocks_fuel in *. rewrite E2, E3 in Hlen1.
      destruct (malloc_round_fits h1 fl1 A n (fuel - S (length fl)) Hok1 ltac:(lia) ltac:(lia) Hfit) as (y & h' & fl' & Hrun & Hsb & Hy & Hok' & Hnew & Hc).
      exists (y + 1), h'. split; [done|]. right. eapply (Hdone h1 fl1); try done.
      intros u [Hu Ha]. apply Hcov. rewrite E2, E3 in Hu. destruct (decide (u < hbrk h)); [left; apply Hnl; split; [lia|done]|right; lia].
  - destruct (malloc_round_fits h fl A n fuel Hok) as (y & h' & fl' & Hrun & Hsb & Hy & Hok' & Hnew & Hc); [lia|lia|exists x, t; rewrite E; set_solver|].
    exists (y + 1), h'. split; [done|]. right. by eapply (Hdone h fl).
Qed.
End Request.

Lemma heap_ok_delete h fl A b : heap_ok h fl A → heap_ok h fl (delete b A).
Proof.
  intros [Hb Hbrk Hmax Hfp Hl Hso Hfree Hal Hdis Had]. split; try done.
  - intros x s [_ Hx]%lookup_delete_Some. by apply Hal.
  - intros x s y t [_ Hx]%lookup_delete_Some. by apply Hdis.
  - intros x s y t [_ Hx]%lookup_delete_Some [_ Hy]%lookup_delete_Some. by apply Had.
Qed.

Lemma free_ok h A b s : heap_inv h A → A !! b = Some s → ∃ h', free (b + 1) h = Ok tt h' ∧ heap_inv h' (delete b A).
Proof.
  intros [(_ & -> & _)|(fl & Hok & Hnl)] Hb; [by rewrite lookup_empty in Hb|]. destruct (ho_alloc _ _ _ Hok b s Hb) as (H1 & H2 & H3 & H4).
  destruct (free_block h fl (delete b A) b s) as (h' & fl' & Hrun & (E1 & E2 & E3 & E4) & Hok' & Hcov & _); try done.
  - by apply heap_ok_delete.
  - intros x t Hx. destruct (ho_disj _ _ _ Hok b s x t Hb Hx); lia.
  - intros x t [Hne Hx]%lookup_delete_Some. destruct (ho_alloc_disj _ _ _ Hok x t b s Hx Hb); [congruence|lia|lia].
  - exists h'. split; [done|]. right. exists fl'. split; [done|]. intros u [Hu Ha]. rewrite E2, E3 in Hu. apply Hcov.
    destruct (decide (b ≤ u < b + s)) as [|Hn]; [by right|left]. apply Hnl. split; [done|]. intros y t Hy.
    destruct (decide (y = b)) as [->|Hne]; [congruence|]. apply Ha. by apply lookup_delete_Some.
Qed.

(** C13. The allocator of the user programs is correct.  [A] gives the size in
    headers of every block handed out and not yet freed; [heap_inv] says that these
    blocks lie in the heap and do not overlap with each other or with a free block,
    that the free list is circular, ordered by address and has no two blocks that
    touch, and that every header of the heap is in a free or an allocated block.
    [malloc] always returns.  It returns 0 only if the kernel refuses to extend the
    process and no run of free headers is long enough; otherwise it returns the
    address after the header of a fresh block with room for the bytes asked for.
    [free] of a block that was handed out gives it back.  The invariant holds
    afterwards in every case. *)
Theorem malloc_free_correct h A :
  heap_inv h A →
  (∀ nbytes, 0 ≤ nbytes ≤ 2147483632 → ∃ n r h', malloc nbytes h = Ok r h' ∧ nbytes ≤ 8 * (n - 1) < nbytes + 8 ∧
     ((r = 0 ∧ heap_inv h' A ∧ hmax h < hbrk h + Z.max n 4096 ∧ ∀ x, ¬ ∀ u, x ≤ u < x + n → free_unit h A u) ∨
      (0 < r - 1 ∧ A !! (r - 1) = None ∧ heap_inv h' (<[r - 1 := n]> A)))) ∧
  (∀ b s, A !! b = Some s → ∃ h', free (b + 1) h = Ok tt h' ∧ heap_inv h' (delete b A)).
Proof.
  intros Hinv. split; [|intros b s; by apply free_ok]. intros nbytes Hn.
  destruct (malloc_start h A nbytes Hinv) as (h1 & fl & Hok & Hnl & (E1 & E2 & E3 & E4) & ->).
  rewrite u32_small by (unfold is_u32; lia). set (n := (nbytes + 7) / 8 + 1).
  assert (Hr : nbytes ≤ 8 * (n - 1) < nbytes + 8).
  { unfold n. pose proof (Z.div_mod (nbytes + 7) 8 ltac:(lia)). pose proof (Z.mod_pos_bound (nbytes + 7) 8 ltac:(lia)). lia. }
  destruct (malloc_loop_ok h1 fl A n (malloc_fuel n h1) Hok Hnl ltac:(lia) ltac:(lia)) as (r & h' & Hrun & Hcase).
  exists n, r, h'. split; [done|]. split; [done|]. unfold free_unit in *. by rewrite <- E2, <- E3, <- E4.
Qed.

Definition heap0 : heap := mkHeap (λ _, 0) (λ _, 0) 0 100 512 512 100000.

Lemma malloc_free_correct_witness :
  heap_inv heap0 ∅ ∧ (∃ n r h', malloc 100 heap0 = Ok r h' ∧ 100 ≤ 8 * (n - 1) < 108 ∧
     ((r = 0 ∧ heap_inv h' ∅ ∧ hmax heap0 < hbrk heap0 + Z.max n 4096 ∧ ∀ x, ¬ ∀ u, x ≤ u < x + n → free_unit heap0 ∅ u) ∨
      (0 < r - 1 ∧ (∅ : gmap Z Z) !! (r - 1) = None ∧ heap_inv h' (<[r - 1 := n]> ∅)))).
Proof.
  assert (H : heap_inv heap0 ∅) by (left; cbn; split_and!; (done || lia)). split; [exact H|].
  apply (proj1 (malloc_free_correct heap0 ∅ H) 100). lia.
Defined.

(** A request for almost 4 gigabytes wraps round to the smallest block. *)
Lemma malloc_wraps : u32 (4294967295 + 7) / 8 + 1 = 1 ∧ ∃ h', malloc 4294967295 heap0 = Ok 4608 h' ∧ hsize h' 4607 = 1.
Proof. split; [done|]. eexists. split; [vm_compute; reflexivity|]. reflexivity. Qed.
