(* ===== verification/Exec.v ===== *)
(** * Exec: loading a program, [exec.c] and [elf.h]

    The program file is read through the interface [FileSystem].  The arguments
    are the strings that [sys_exec] has fetched. *)

From S2P Require Import Prelude Mmu Phys Config Kalloc PageTable State Spinlock PageList Swap Uvm Bytes.

(** ** The executable format *)

Definition ELF_MAGIC := 0x464C457F.
Definition ELF_PROG_LOAD := 1.

Record elfhdr := mkElf {
  elf_magic : Z; elf_elf : list Z; elf_type : Z; elf_machine : Z; elf_version : Z; elf_entry : Z; elf_phoff : Z; elf_shoff : Z;
  elf_flags : Z; elf_ehsize : Z; elf_phentsize : Z; elf_phnum : Z; elf_shentsize : Z; elf_shnum : Z; elf_shstrndx : Z
}.
Record proghdr := mkPh {
  ph_type : Z; ph_off : Z; ph_vaddr : Z; ph_paddr : Z; ph_filesz : Z; ph_memsz : Z; ph_flags : Z; ph_align : Z
}.

Definition sizeof_elfhdr := 52.
Definition sizeof_proghdr := 32.

Definition elfhdr_of (b : list Z) : elfhdr :=
  mkElf (get32 b 0) (take 12 (drop 4 b)) (get16 b 16) (get16 b 18) (get32 b 20) (get32 b 24) (get32 b 28) (get32 b 32)
    (get32 b 36) (get16 b 40) (get16 b 42) (get16 b 44) (get16 b 46) (get16 b 48) (get16 b 50).
Definition proghdr_of (b : list Z) : proghdr :=
  mkPh (get32 b 0) (get32 b 4) (get32 b 8) (get32 b 12) (get32 b 16) (get32 b 20) (get32 b 24) (get32 b 28).

(** ** The copy of the page list

    [backup_array] is an array on the stack: [None] stands for a field that has
    not been written.  A null link is not saved. *)
Record link_backup := mkLb { lb_page : option page_meta_data; lb_prev : option nat; lb_next : option nat }.
Record backup := mkBackup { bk_array : list link_backup; bk_head : option nat; bk_ram : Z; bk_disk : Z }.

Definition backup0 (g : paging) : backup :=
  mkBackup (replicate MAX_TOTAL_PAGES (mkLb None None None)) (page_list_head_ram g) (num_pages_ram g) (num_pages_disk g).

Definition save_links (g : paging) (bk : backup) : backup :=
  mkBackup ((λ l, mkLb (Some (page l)) (pl_prev l) (pl_next l)) <$> pages_meta_data g) (page_list_head_ram g) (bk_ram bk) (bk_disk bk).

(** Reading a field that has not been written is undefined. *)
Definition restore_link (b : link_backup) (l : page_link) : option page_link :=
  match lb_page b, lb_prev b, lb_next b with
  | Some p, Some v, Some n => Some (mkLink p (Some n) (Some v))
  | _, _, _ => None
  end.

Definition restore_links (bk : backup) : M paging unit := λ g,
  match mapM (λ '(b, l), restore_link b l) (zip (bk_array bk) (pages_meta_data g)) with
  | Some ls => Ok tt (set_pages_meta_data ls (set_page_list_head_ram (bk_head bk)
                 (set_num_pages_disk (bk_disk bk) (set_num_pages_ram (bk_ram bk) g))))
  | None => Err (UB "exec: uninitialised backup_array")
  end.

(** ** [exec] *)

(** [last]: what follows the last slash. *)
Fixpoint basename (last s : string) : string :=
  match s with
  | EmptyString => last
  | String c s' => basename (if Z.of_N (Ascii.N_of_ascii c) =? 47 then s' else last) s'
  end.

Section Exec.
Context `{Config} {F : Type} `{FileSystem F}.

(** [bad:] *)
Definition exec_bad (pd : Z) (ip : option Z) (bk : backup) : K F Z :=
  (if pd =? 0 then mret tt else freevm pd) ;;
  (match ip with
   | Some ip => on_fs (fs_iunlockput ip) ;; on_fs fs_end_op
   | None => mret tt
   end) ;;
  when paging_on (on_paging (restore_links bk)) ;;
  mret (-1).

(** The loop over the program headers; [None] stands for [goto bad]. *)
Fixpoint load_segments (n : nat) (ip pd off sz : Z) : K F (option Z) :=
  match n with
  | O => mret (Some sz)
  | S n' =>
      '(r, b) ← on_fs (fs_readi ip (u32 off) sizeof_proghdr);
      if negb (r =? sizeof_proghdr) then mret None
      else
        let ph := proghdr_of b in
        if negb (ph_type ph =? ELF_PROG_LOAD) then load_segments n' ip pd (off + sizeof_proghdr) sz
        else if ph_memsz ph <? ph_filesz ph then mret None
        else if u32 (ph_vaddr ph + ph_memsz ph) <? ph_vaddr ph then mret None
        else
          sz ← allocuvm pd sz (u32 (ph_vaddr ph + ph_memsz ph));
          if sz =? 0 then mret None
          else if negb (ph_vaddr ph mod PGSIZE =? 0) then mret None
          else
            r ← loaduvm pd (ph_vaddr ph) ip (ph_off ph) (ph_filesz ph);
            if r <? 0 then mret None
            else load_segments n' ip pd (off + sizeof_proghdr) sz
  end.

(** Pushes the argument strings: [ustack] are their addresses. *)
Fixpoint push_args (argv : list (list Z)) (pd sp : Z) (ustack : list Z) : K F (option (Z * list Z)) :=
  match argv with
  | [] => mret (Some (sp, ustack))
  | s :: argv' =>
      if MAXARG <=? Z.of_nat (length ustack) then mret None
      else
        let sp := Z.land (u32 (sp - (Z.of_nat (length s) + 1))) (notu 3) in
        r ← on_phys (copyout pd sp (s ++ [0]));
        if r <? 0 then mret None
        else push_args argv' pd sp (ustack ++ [sp])
  end.

(** The stack page, below it one without access; the stack pointer. *)
Definition build_stack (argv : list (list Z)) (pd sz : Z) : K F (option (Z * Z)) :=
  let sz := PGROUNDUP sz in
  sz ← allocuvm pd sz (u32 (sz + 2 * PGSIZE));
  if sz =? 0 then mret None
  else
    on_phys (clearpteu pd (u32 (sz - 2 * PGSIZE))) ;;
    o ← push_args argv pd sz [];
    match o with
    | None => mret None
    | Some (sp, args) =>
        let argc := Z.of_nat (length args) in
        let ustack := [0xffffffff; argc; u32 (sp - (argc + 1) * 4)] ++ args ++ [0] in
        let sp := u32 (sp - (3 + argc + 1) * 4) in
        r ← on_phys (copyout pd sp (ustack ≫= enc32));
        if r <? 0 then mret None else mret (Some (sz, sp))
    end.

(** The process takes the new image. *)
Definition exec_commit (path : string) (pd sz entry sp : Z) : K F Z :=
  on_myproc (modify (set_pname (String.substring 0 15 (basename path path)))) ;;
  oldpgdir ← myproc pgdir;
  on_myproc (modify (λ p, set_sz sz (set_pgdir pd p))) ;;
  on_myproc (modify (λ p, let t := tf p in
    set_tf (mkTf (tf_edi t) (tf_esi t) (tf_ebp t) (tf_oesp t) (tf_ebx t) (tf_edx t) (tf_ecx t) (tf_eax t) (tf_gs t)
      (tf_fs t) (tf_es t) (tf_ds t) (tf_trapno t) (tf_err t) entry (tf_cs t) (tf_eflags t) sp (tf_ss t)) p)) ;;
  when paging_on (
    f ← myproc swapFile;
    match f with
    | Some f => p ← myproc pid; on_fs (fs_remove_swap p f) ;; create_my_swap
    | None => mret tt
    end) ;;
  me ← gets cpu_proc;
  switchuvm me ;;
  freevm oldpgdir ;;
  mret 0.

Definition exec (path : string) (argv : list (list Z)) : K F Z :=
  bk ← (g ← myproc paging_; mret (backup0 g));
  on_fs fs_begin_op ;;
  o ← on_fs (fs_namei path);
  match o with
  | None => on_fs fs_end_op ;; mret (-1)
  | Some ip =>
      on_fs (fs_ilock ip) ;;
      '(r, b) ← on_fs (fs_readi ip 0 sizeof_elfhdr);
      let elf := elfhdr_of b in
      if negb (r =? sizeof_elfhdr) then exec_bad 0 (Some ip) bk
      else if negb (elf_magic elf =? ELF_MAGIC) then exec_bad 0 (Some ip) bk
      else
        pd ← setupkvm;
        if pd =? 0 then exec_bad 0 (Some ip) bk
        else
          bk ← (if paging_on then
                  g ← myproc paging_;
                  on_myproc (modify (λ p, set_paging_ (init_paging (paging_ p)) (set_swapFile None p))) ;;
                  mret (save_links g bk)
                else mret bk);
          osz ← load_segments (Z.to_nat (elf_phnum elf)) ip pd (s32 (elf_phoff elf)) 0;
          match osz with
          | None => exec_bad pd (Some ip) bk
          | Some sz =>
              on_fs (fs_iunlockput ip) ;;
              on_fs fs_end_op ;;
              o ← build_stack argv pd sz;
              match o with
              | None => exec_bad pd None bk
              | Some (sz, sp) => exec_commit path pd sz (elf_entry elf) sp
              end
          end
  end.
End Exec.
