(* ===== verification/ExecSpec.v ===== *)
(** * ExecSpec: what [exec] makes of a program file

    [exec_image] is a pure reading of an executable: the memory of the new process,
    its size, entry point and stack pointer.  [exec] builds this image in a fresh
    address space, or leaves everything as it was. *)

From S2P Require Import Prelude Mmu Phys Config Kalloc PageTable Vmspace UvmInv UserMem State Spinlock.
From S2P Require Import PageList Swap Uvm UvmSpec GrowSpec LoadSpec Bytes Exec.

(** ** Images *)

(** A user memory: the byte at each address, [None] where no page is mapped. *)
Notation aspace := (Z → option Z).

Definition a_grow (sz new : Z) (m : aspace) : aspace := λ va,
  if (sz <=? 4096 * vpn va) && (4096 * vpn va <? new) then Some 0 else m va.
Definition a_store (a : Z) (b : list Z) (m : aspace) : aspace := λ va,
  if (a <=? va) && (va <? a + Z.of_nat (length b)) then Some (u8 (nth (Z.to_nat (va - a)) b 0)) else m va.

Fixpoint a_segments (n : nat) (file : list Z) (off sz : Z) (m : aspace) : option (Z * aspace) :=
  match n with
  | O => Some (sz, m)
  | S n' =>
      let (r, b) := readi_result file (u32 off) sizeof_proghdr in
      if negb (r =? sizeof_proghdr) then None
      else
        let ph := proghdr_of b in
        let new := u32 (ph_vaddr ph + ph_memsz ph) in
        if negb (ph_type ph =? ELF_PROG_LOAD) then a_segments n' file (off + sizeof_proghdr) sz m
        else if (ph_memsz ph <? ph_filesz ph) || (new <? ph_vaddr ph) || (KERNBASE <=? new) || (Z.max sz new =? 0)
             || negb (ph_vaddr ph mod PGSIZE =? 0)
             || negb ((ph_filesz ph =? 0) || (ph_off ph + ph_filesz ph <=? Z.of_nat (length file))) then None
        else a_segments n' file (off + sizeof_proghdr) (Z.max sz new)
               (a_store (ph_vaddr ph) (segment file (ph_off ph) (ph_filesz ph)) (a_grow sz new m))
  end.

(** The stack pointer after a string of [n] characters and its terminator. *)
Definition below (sp n : Z) : Z := (sp - (n + 1)) - (sp - (n + 1)) mod 4.

Fixpoint a_args (argv : list (list Z)) (sp : Z) (ustack : list Z) (m : aspace) : option (Z * list Z * aspace) :=
  match argv with
  | [] => Some (sp, ustack, m)
  | s :: argv' =>
      if MAXARG <=? Z.of_nat (length ustack) then None
      else
        let sp := below sp (Z.of_nat (length s)) in
        a_args argv' sp (ustack ++ [sp]) (a_store sp (s ++ [0]) m)
  end.

Definition ustack_of (sp : Z) (args : list Z) : list Z :=
  let argc := Z.of_nat (length args) in [0xffffffff; argc; sp - (argc + 1) * 4] ++ args ++ [0].

Definition a_stack (argv : list (list Z)) (sz : Z) (m : aspace) : option (Z * Z * aspace) :=
  let sz := PGROUNDUP sz in
  if KERNBASE <=? sz + 2 * PGSIZE then None
  else
    let new := sz + 2 * PGSIZE in
    match a_args argv new [] (a_grow sz new m) with
    | None => None
    | Some (sp, args, m) =>
        let sp' := sp - (3 + Z.of_nat (length args) + 1) * 4 in
        Some (new, sp', a_store sp' (ustack_of sp args ≫= enc32) m)
    end.

Record image := mkImage { im_entry : Z; im_sz : Z; im_sp : Z; im_mem : aspace }.

Definition exec_image (file : list Z) (argv : list (list Z)) : option image :=
  let (r, b) := readi_result file 0 sizeof_elfhdr in
  let elf := elfhdr_of b in
  if negb (r =? sizeof_elfhdr) || negb (elf_magic elf =? ELF_MAGIC) then None
  else
    match a_segments (Z.to_nat (elf_phnum elf)) file (s32 (elf_phoff elf)) 0 (λ _, None) with
    | None => None
    | Some (sz, m) =>
        match a_stack argv sz m with
        | None => None
        | Some (sz, sp, m) => Some (mkImage (elf_entry elf) sz sp m)
        end
    end.

(** The arguments fit on the stack page. *)
Definition args_room (argv : list (list Z)) : Z := foldr (λ s n, Z.of_nat (length s) + 4 + n) 0 argv.
Definition args_fit (argv : list (list Z)) : Prop := args_room argv + 4 * (4 + Z.of_nat (length argv)) ≤ 4096.

Lemma length_enc32s l : length (l ≫= enc32) = (4 * length l)%nat.
Proof. induction l as [|v l IH]; [done|]. cbn [length mbind list_bind]. rewrite length_app, IH. cbn. lia. Qed.

Lemma args_room_nonneg argv : 0 ≤ args_room argv.
Proof. induction argv as [|s argv IH]; unfold args_room in *; cbn [foldr]; lia. Qed.

Lemma byte_at_range b k : bytes_ok b → 0 ≤ byte_at b k < 256.
Proof.
  intros Hb. unfold byte_at. destruct (decide (k < length b)%nat) as [Hk|Hk].
  - destruct (lookup_lt_is_Some_2 b k Hk) as [y Hy]. rewrite (nth_lookup_Some b k 0 y Hy). by apply (Forall_lookup_1 _ _ _ _ Hb Hy).
  - rewrite nth_overflow by lia. lia.
Qed.

Lemma get32_range b k : bytes_ok b → is_u32 (get32 b k).
Proof.
  intros Hb. unfold get32, get16, is_u32.
  pose proof (byte_at_range b k Hb). pose proof (byte_at_range b (k + 1) Hb).
  pose proof (byte_at_range b (k + 2) Hb). pose proof (byte_at_range b (k + 2 + 1) Hb). lia.
Qed.

Lemma readi_bytes file off n r b : bytes_ok file → readi_result file off n = (r, b) → bytes_ok b.
Proof.
  intros Hf. unfold readi_result. case_match; intros [= <- <-]; [constructor|]. by apply Forall_take, Forall_drop.
Qed.

Section ExecSpec.
Context `{ConfigOk} {F : Type} `{FileSystem F}.

Notation owners := (Z → gset (Z * Z)).

(** ** An address space under construction *)

Section Build.
Context (d : Z) (PG : list Z) (X : Z → Z) (ph0 : phys) (L0 : list Z) (O0 : owners) (pd : Z).
Hypothesis Hpd : pd ∉ PG.

(** Everything but [pd] is as it was. *)
Record building (ph : phys) (L : list Z) (O : owners) : Prop := {
  bd_inv : vm_inv d (pd :: PG) ph L O X;
  bd_own : ∀ f pg v, pg ≠ pd → (pg, v) ∈ O f ↔ (pg, v) ∈ O0 f;
  bd_held : ∀ f w, (pd, w) ∈ O f → X f = 0;
  bd_user : same_user PG (mem ph0) (mem ph);
  bd_pte : ∀ pg v, pg ∈ PG → user_vpn v → pte_of (mem ph) pg v = pte_of (mem ph0) pg v;
  bd_tight : tight PG ph0 L0 O0 X → tight (pd :: PG) ph L O X;
  bd_lock : use_lock ph = use_lock ph0
}.

(** [pd] holds the memory [m], of [sz] bytes; the page [guard] is not accessible to
    the program, all others are writable. *)
Record holds (guard sz : Z) (m : aspace) (ph : phys) : Prop := {
  hd_mem : ∀ va, user_va_ok va → user_byte (mem ph) pd va = m va;
  hd_write : ∀ v, user_vpn v → 4096 * v < sz → v ≠ guard → user_writable (mem ph) pd v;
  hd_guard : user_vpn guard → has (pte_of (mem ph) pd guard) PTE_U = false;
  hd_none : ∀ v, user_vpn v → sz ≤ 4096 * v → has (pte_of (mem ph) pd v) PTE_P = false;
  hd_kern : ∀ va, is_u32 va → KERNBASE ≤ va → lookup_pte (mem ph) pd va = kpte kmap va
}.

Lemma building_new ph L :
  vm_inv d PG ph0 L0 O0 X → new_space d PG O0 X ph0 L0 pd ph L → building ph L O0 ∧ holds (-1) 0 (λ _, None) ph.
Proof.
  intros Hi0 [Hf Hi Hno Hk Hu Hp Ht Hl].
  assert (Hab : ∀ v, user_vpn v → has (pte_of (mem ph) pd v) PTE_P = false).
  { intros v Hv. destruct (has (pte_of (mem ph) pd v) PTE_P) eqn:HP; [|done]. exfalso.
    apply (Hno (frame_of (pte_of (mem ph) pd v)) v). apply (vi_own _ _ _ _ _ _ Hi). split; [by left|done]. }
  split; split; try done.
  - intros f w Hin. by apply Hno in Hin.
  - intros va Hva. destruct (user_va_vpn va Hva) as [Hu' Hv]. apply absent_byte; [done|by apply Hab].
  - intros v Hv Hlt. unfold user_vpn in Hv. lia.
  - unfold user_vpn. lia.
  - intros v Hv _. by apply Hab.
  - intros va Hva _. by apply Hk.
Qed.

Lemma building_grown sz new m ph L O ph' L' O' :
  0 ≤ sz → new < KERNBASE → building ph L O → holds (-1) sz m ph → grown d (pd :: PG) ph L O X pd (added sz new) ph' L' O' →
  building ph' L' O' ∧ holds (-1) (Z.max sz new) (a_grow sz new m) ph'.
Proof.
  intros Hsz Hnew [Bi Bo Bh Bu Bp Bt Bl] [Hm Hw _ Hn Hk] [Gi Go Gn Gz Gu Gp Gk _ Gt Gh Gl].
  split; split; try done.
  - intros f pg v Hne. rewrite Go by tauto. by apply Bo.
  - by apply Gh.
  - intros pg va Hpg Hva. rewrite Gu; [by apply Bu|by right|done|]. intros [-> _]. done.
  - intros pg v Hpg Hv. rewrite Gp; [by apply Bp|by right|done|]. intros [-> _]. done.
  - auto.
  - congruence.
  - intros va Hva. unfold a_grow. destruct ((sz <=? 4096 * vpn va) && (4096 * vpn va <? new)) eqn:E.
    + apply Gz; [done|]. unfold added. apply andb_true_iff in E as [?%Z.leb_le ?%Z.ltb_lt]. lia.
    + rewrite Gu; [by apply Hm|by left|done|]. intros [_ [??]]. rewrite (proj2 (Z.leb_le _ _)), (proj2 (Z.ltb_lt _ _)) in E by lia. done.
  - intros v Hv Hlt Hg. unfold user_writable. destruct (decide (added sz new v)) as [Ha|Ha]; [by apply Gn|].
    rewrite Gp; [apply Hw; [done| |done]|by left|done|tauto]. unfold added in Ha. lia.
  - unfold user_vpn. lia.
  - intros v Hv Hge. rewrite Gp; [apply Hn; [done|lia]|by left|done|]. unfold added. lia.
  - intros va Hva Hge. rewrite Gk by (done || by left). by apply Hk.
Qed.

Lemma building_back R ph L O ph' L' :
  building ph L O → given_back d (pd :: PG) O X ph L pd R ph' L' → building ph' L' O.
Proof.
  intros [Bi Bo Bh Bu Bp Bt Bl] [Gi Gu Gp Gt Gl]. split; try done.
  - intros pg va Hpg Hva. rewrite Gu; [by apply Bu|by right|done].
  - intros pg v Hpg Hv. rewrite Gp; [by apply Bp|by right|done|]. intros [-> _]. done.
  - auto.
  - congruence.
Qed.

Lemma building_stored va b ph L O ph' :
  building ph L O → stored d (pd :: PG) ph L O X pd va b ph' → building ph' L O.
Proof.
  intros [Bi Bo Bh Bu Bp Bt Bl] [Si Sn Su Sp _ St Sl]. split; try done.
  - intros pg va' Hpg Hva. rewrite Su; [by apply Bu|by right|done|]. intros [-> _]. done.
  - intros pg v Hpg Hv. unfold pte_of. rewrite Sp by (by right). by apply Bp.
  - auto.
  - congruence.
Qed.

Lemma holds_stored va b guard sz m ph L O ph' :
  holds guard sz m ph → stored d (pd :: PG) ph L O X pd va b ph' → holds guard sz (a_store va b m) ph'.
Proof.
  intros [Hm Hw Hg Hn Hk] [Si Sn Su Sp _ St Sl].
  assert (Epte : ∀ v, pte_of (mem ph') pd v = pte_of (mem ph) pd v) by (intros v; apply Sp; by left).
  split.
  - intros va' Hva. unfold a_store. destruct ((va <=? va') && (va' <? va + Z.of_nat (length b))) eqn:E.
    + apply andb_true_iff in E as [?%Z.leb_le ?%Z.ltb_lt].
      destruct (lookup_lt_is_Some_2 b (Z.to_nat (va' - va))) as [y Hy]; [lia|].
      pose proof (Sn _ _ Hy) as E. replace (va + Z.of_nat (Z.to_nat (va' - va))) with va' in E by lia. rewrite E.
      by rewrite (nth_lookup_Some b _ 0 y).
    + rewrite Su; [by apply Hm|by left|done|]. intros [_ [??]]. rewrite (proj2 (Z.leb_le _ _)), (proj2 (Z.ltb_lt _ _)) in E by lia. done.
  - intros v Hv Hlt Hne. unfold user_writable. rewrite Epte. by apply Hw.
  - intros Hv. rewrite Epte. by apply Hg.
  - intros v Hv Hge. rewrite Epte. by apply Hn.
  - intros va' Hva Hge. rewrite Sp by (by left). by apply Hk.
Qed.
End Build.

(** ** The program headers *)

Section Segments.
Context (path : string) (file : list Z) `{!ProgFile F path file}.
Context (d : Z) (PG : list Z) (X : Z → Z) (ph0 : phys) (L0 : list Z) (O0 : owners) (pd : Z).
Context (s : kernel F) (i : nat) (p : proc) (g : paging) (c : Z).
Hypothesis Hpd : pd ∉ PG.
Hypothesis Hruns : runs s i.
Hypothesis Hnp : paging_on = false.
Hypothesis Hbytes : bytes_ok file.

Notation opened := (pf_open (path := path) (file := file)).
Notation bld := (building d PG X ph0 L0 O0 pd).
Notation hld := (holds pd (-1)).

(** [allocuvm] in the new space. *)
Lemma alloc_step sz new m ph L O x :
  bld ph L O → hld sz m ph → 0 ≤ sz → 0 ≤ new → new < KERNBASE →
  (∃ ph' L' O', allocuvm pd sz new (frame s i p ph g x c) = Ok (Z.max sz new) (frame s i p ph' g x c) ∧
     bld ph' L' O' ∧ hld (Z.max sz new) (a_grow sz new m) ph') ∨
  (∃ ph' L' O', allocuvm pd sz new (frame s i p ph g x c) = Ok 0 (frame s i p ph' g x c) ∧ bld ph' L' O').
Proof.
  intros Hb Hh Hsz Hn0 Hnew. pose proof (bd_inv _ _ _ _ _ _ _ _ _ _ Hb) as Hi. destruct (decide (sz ≤ new)) as [Hle|Hgt].
  - destruct (allocuvm_ok d (pd :: PG) X pd s i p g x c Hruns ltac:(by left) ltac:(by left) ltac:(by left) ph L O sz new) as
      [(ph' & L' & O' & E & Hg)|(ph' & L' & E & Hg)]; [done|apply Hb|lia|done| |left|right].
    + intros v Hv. unfold added in Hv. apply (hd_none _ _ _ _ _ Hh); [unfold user_vpn; klia|lia].
    + exists ph', L', O'. rewrite Z.max_r by done. split; [done|]. rewrite <- (Z.max_r sz new) at 1 by done. by eapply building_grown.
    + exists ph', L', O. split; [done|]. by eapply building_back.
  - left. exists ph, L, O. split.
    + unfold allocuvm. rewrite (proj2 (Z.leb_gt KERNBASE new)), (proj2 (Z.ltb_lt new sz)) by lia. by rewrite Z.max_l by lia.
    + eapply building_grown; [done|done|done|exact Hb|exact Hh|].
      eapply grown_ext; [done| |by apply grown_refl]. intros v Hv. unfold added. lia.
Qed.

(** [loaduvm] in the new space. *)
Lemma load_step ip addr off fsz sz m ph L O x :
  bld ph L O → hld sz m ph → opened ip x → sz < KERNBASE →
  0 ≤ addr → addr mod PGSIZE = 0 → 0 ≤ fsz → addr + fsz ≤ sz → is_u32 off →
  ∃ r ph' x', loaduvm pd addr ip off fsz (frame s i p ph g x c) = Ok r (frame s i p ph' g x' c) ∧ opened ip x' ∧ bld ph' L O ∧
    ((r = 0 ∧ segment_there file off fsz ∧ hld sz (a_store addr (segment file off fsz) m) ph') ∨ (r = -1 ∧ ¬ segment_there file off fsz)).
Proof.
  intros Hb Hh Hx Hsz Ha Hal Hf Hend Ho.
  destruct (loaduvm_ok path file d (pd :: PG) L O X pd s i p g c ltac:(by left) addr off fsz ltac:(split_and!; [done|done|lia]) Ho Hf ph ip x)
    as (r & b & ph' & x' & E & Hx' & Hst & Hr); [apply Hb|done| |].
  { intros v Hv1 Hv2. apply (hd_write _ _ _ _ _ Hh); [unfold user_vpn; klia|lia|lia]. }
  exists r, ph', x'. split; [done|]. split; [done|]. split; [by eapply building_stored|].
  destruct Hr as [(-> & -> & Ht)|(-> & Ht & _)]; [left|by right]. split_and!; [done|done|]. by eapply holds_stored.
Qed.

Lemma load_segments_ok ip n : ∀ off sz m ph L O x,
  bld ph L O → hld sz m ph → opened ip x → 0 ≤ sz < KERNBASE →
  ∃ o ph' L' O' x', load_segments n ip pd off sz (frame s i p ph g x c) = Ok o (frame s i p ph' g x' c) ∧ opened ip x' ∧ bld ph' L' O' ∧
    match o with Some sz' => 0 ≤ sz' < KERNBASE ∧ ∃ m', a_segments n file off sz m = Some (sz', m') ∧ hld sz' m' ph' | None => True end.
Proof.
  induction n as [|n IH]; intros off sz m ph L O x Hb Hh Hx Hsz; cbn [load_segments a_segments].
  { exists (Some sz), ph, L, O, x. split; [done|]. split; [done|]. split; [done|]. split; [done|]. by exists m. }
  destruct (pf_read ip x (u32 off) sizeof_proghdr Hx) as (x1 & Er & Hx1); [apply u32_range|done|].
  rewrite (bind_ok _ _ _ _ _ (on_fs_frame _ s i p ph g x x1 c _ Er)).
  destruct (readi_result file (u32 off) sizeof_proghdr) as [r b] eqn:Erb. pose proof (readi_bytes _ _ _ _ _ Hbytes Erb) as Hbb.
  assert (Hnone : ∀ ph L O x, bld ph L O → opened ip x → ∃ o ph' L' O' x', Ok None (frame s i p ph g x c) = Ok o (frame s i p ph' g x' c) ∧
    opened ip x' ∧ bld ph' L' O' ∧ match o with Some sz' => 0 ≤ sz' < KERNBASE ∧ ∃ m', a_segments (S n) file off sz m = Some (sz', m') ∧ hld sz' m' ph' | None => True end).
  { intros ph1 L1 O1 x2 ??. by exists None, ph1, L1, O1, x2. }
  cbn [a_segments] in Hnone. rewrite Erb in Hnone.
  destruct (r =? sizeof_proghdr); cbn [negb]; [|by eapply Hnone]. set (h := proghdr_of b) in *.
  assert (Hv : is_u32 (ph_vaddr h) ∧ is_u32 (ph_memsz h) ∧ is_u32 (ph_filesz h) ∧ is_u32 (ph_off h)) by (split_and!; by apply get32_range).
  destruct Hv as (Hva & Hms & Hfs & Hof). set (new := u32 (ph_vaddr h + ph_memsz h)) in *.
  destruct (ph_type h =? ELF_PROG_LOAD); cbn [negb]; [|by eapply IH].
  destruct (Z.ltb_spec (ph_memsz h) (ph_filesz h)) as [|Hle]; [by eapply Hnone|]. cbn [orb] in Hnone |- *.
  destruct (Z.ltb_spec new (ph_vaddr h)) as [|Hwrap]; [by eapply Hnone|]. cbn [orb] in Hnone |- *.
  destruct (Z.leb_spec KERNBASE new) as [Hbig|Hnew].
  { rewrite (bind_ok _ _ _ 0 (frame s i p ph g x1 c)); [by eapply Hnone|]. unfold allocuvm. by rewrite (proj2 (Z.leb_le _ _) Hbig). }
  assert (Enew : new = ph_vaddr h + ph_memsz h).
  { unfold new in *. unfold is_u32 in *. destruct (decide (ph_vaddr h + ph_memsz h < 4294967296)); [apply u32_small; unfold is_u32; lia|].
    unfold u32 in *. dlia. }
  destruct (alloc_step sz new m ph L O x1 Hb Hh ltac:(lia) ltac:(unfold is_u32 in *; lia) Hnew) as [(ph1 & L1 & O1 & E1 & Hb1 & Hh1)|(ph1 & L1 & O1 & E1 & Hb1)];
    rewrite (bind_ok _ _ _ _ _ E1); [|by eapply Hnone].
  destruct (Z.eqb_spec (Z.max sz new) 0) as [|Hnz]; [by eapply Hnone|]. cbn [orb] in Hnone |- *.
  destruct (Z.eqb_spec (ph_vaddr h mod PGSIZE) 0) as [Hal|]; cbn [negb orb] in Hnone |- *; [|by eapply Hnone].
  destruct (load_step ip (ph_vaddr h) (ph_off h) (ph_filesz h) (Z.max sz new) _ ph1 L1 O1 x1 Hb1 Hh1 Hx1) as (r2 & ph2 & x2 & E2 & Hx2 & Hb2 & Hr);
    [lia|unfold is_u32 in *; lia|done|unfold is_u32 in *; lia|lia|done|].
  rewrite (bind_ok _ _ _ _ _ E2). destruct Hr as [(-> & Ht & Hh2)|(-> & Ht)]; [|by eapply Hnone].
  change (0 <? 0) with false. cbv iota.
  assert (Eth : (ph_filesz h =? 0) || (ph_off h + ph_filesz h <=? Z.of_nat (length file)) = true).
  { unfold segment_there in Ht. apply orb_true_iff. destruct Ht; [left; by apply Z.eqb_eq|right; by apply Z.leb_le]. }
  rewrite Eth. cbn [negb]. eapply (IH _ _ _ _ L1 O1); [done|done|done|lia].
Qed.
End Segments.

(** ** The stack *)

Section Stack.
Context (d : Z) (PG : list Z) (X : Z → Z) (ph0 : phys) (L0 : list Z) (O0 : owners) (pd : Z).
Context (s : kernel F) (i : nat) (p : proc) (g : paging) (x : F) (c : Z).
Hypothesis Hpd : pd ∉ PG.
Hypothesis Hruns : runs s i.
Hypothesis Hnp : paging_on = false.

Notation bld := (building d PG X ph0 L0 O0 pd).

Lemma guard_entry e : is_u32 e →
  is_u32 (Z.land e (notu PTE_U)) ∧ has (Z.land e (notu PTE_U)) PTE_P = has e PTE_P ∧ has (Z.land e (notu PTE_U)) PTE_W = has e PTE_W ∧
  has (Z.land e (notu PTE_U)) PTE_U = false ∧ frame_of (Z.land e (notu PTE_U)) = frame_of e.
Proof.
  intros He. split_and!; try (by flags); [by apply is_u32_land|]. unfold frame_of. by rewrite PTE_ADDR_clear.
Qed.

(** [clearpteu] takes the page below the stack away from the program. *)
Lemma clear_guard v sz m ph L O :
  bld ph L O → holds pd (-1) sz m ph → user_vpn v → 4096 * v < sz →
  ∃ ph', clearpteu pd (4096 * v) ph = Ok tt ph' ∧ bld ph' L O ∧ holds pd v sz m ph'.
Proof.
  intros Hb [Hm Hw _ Hn Hk] Hv Hlt. pose proof Hb as [Bi Bo Bh Bu Bp Bt Bl]. set (va := 4096 * v).
  assert (Hva : user_va_ok va) by (unfold user_va_ok, user_vpn in *; klia). assert (Ev : vpn va = v) by apply vpn_mul.
  destruct (Hw v Hv Hlt ltac:(unfold user_vpn in Hv; lia)) as (HP & HW & HU). set (e := pte_of (mem ph) pd v) in *.
  assert (Hin : (pd, vpn va) ∈ O (frame_of e)) by (rewrite Ev; apply (vi_own _ _ _ _ _ _ Bi); split; [by left|done]).
  destruct (owner_tab d (pd :: PG) ph L O X pd va (frame_of e) Bi Hva Hin) as [t Ht].
  destruct (pw_dirs _ _ _ (vi_wf _ _ _ _ _ _ Bi) pd ltac:(by left)) as [Hpv _].
  destruct (guard_entry e ltac:(apply pte_of_u32)) as (Gu & GP & GW & GU & GF). set (e' := Z.land e (notu PTE_U)) in *.
  destruct (put_flags d (pd :: PG) ph L O X pd va t Bi ltac:(by left) Hva Ht (frame_of e) e' Hin Gu ltac:(congruence) GF) as [Pi Pu].
  { intros _. rewrite Ev in Hin |- *. rewrite (vi_write _ _ _ _ _ _ Bi _ _ _ Hin HW). done. }
  pose proof (put_post d (pd :: PG) ph L O X pd va t Bi ltac:(by left) Hva Ht e' Gu) as Hpost.
  pose proof (λ w Hw, put_pte_of d (pd :: PG) ph L O X pd va t Bi ltac:(by left) Hva Ht e' w Gu Hw) as Hpte. rewrite Ev in Hpte.
  exists (pte_put t va e' ph). split.
  { unfold clearpteu. rewrite (bind_ok _ _ ph (t + 4 * PTX va) ph) by (by apply walkpgdir_some).
    rewrite (pte_nonzero ph (pd :: PG) L pd va t) by (done || apply Bi || by left). rewrite (bind_ok _ _ ph e ph).
    - by eapply kstore_pte; [apply Bi|by left|].
    - erewrite kload_pte; [|apply Bi|by left|exact Ht]. rewrite lookup_pte_vpn by (by apply user_va_vpn). by rewrite Ev. }
  split; split; try done.
  - intros pg va' Hpg Hva'. rewrite Pu by (done || by right). by apply Bu.
  - intros pg w Hpg Hw'. rewrite Hpte by (done || by right). rewrite decide_False by (intros [-> _]; done). by apply Bp.
  - intros Ht0 f Hf HfL Hfp. apply (Bt Ht0); [done|done|]. intros Hp. apply Hfp. rewrite (vp_pt _ _ _ _ _ _ _ Hpost). by left.
  - intros va' Hva'. rewrite Pu by (done || by left). by apply Hm.
  - intros w Hw' Hlt' Hne. unfold user_writable. rewrite Hpte by (done || by left). rewrite decide_False by tauto.
    apply Hw; [done|done|unfold user_vpn in Hw'; lia].
  - intros _. rewrite Hpte by (done || by left). by rewrite decide_True.
  - intros w Hw' Hge. rewrite Hpte by (done || by left). rewrite decide_False by lia. by apply Hn.
  - intros va' Hva' Hge. rewrite (vp_lookup _ _ _ _ _ _ _ Hpost) by (done || by left). unfold put_entry. rewrite decide_False; [by apply Hk|].
    intros [_ E]. rewrite Ev in E. unfold user_vpn in Hv. unfold vpn in E. klia.
Qed.

(** ** The arguments *)

Lemma below_aligned sp n :
  0 ≤ n → n + 4 ≤ sp → sp < 4294967296 → Z.land (u32 (sp - (n + 1))) (notu 3) = below sp n ∧ sp - n - 4 ≤ below sp n ∧ below sp n + n + 1 ≤ sp.
Proof.
  intros Hn Hsp Hmax. rewrite u32_small by (unfold is_u32; lia). split; [|unfold below; dlia].
  unfold below. apply (land_high_mask (sp - (n + 1)) 2); [lia|unfold is_u32; lia].
Qed.

(** A string that lies on the stack page is stored there. *)
Lemma stack_store guard sz m ph L O va b :
  bld ph L O → holds pd guard sz m ph → 0 ≤ guard → 4096 * (guard + 1) ≤ va → va + Z.of_nat (length b) ≤ sz → sz ≤ KERNBASE →
  ∃ ph', copyout pd va b ph = Ok 0 ph' ∧ bld ph' L O ∧ holds pd guard sz (a_store va b m) ph'.
Proof.
  intros Hb Hh Hg Hva Hend Hsz.
  destruct (copyout_ok d (pd :: PG) L O X pd va b ph) as (ph' & E & Hst); [apply Hb|by left|lia|lia| |].
  - intros v Hv1 Hv2. apply (hd_write _ _ _ _ _ Hh); [unfold user_vpn; klia|lia|lia].
  - exists ph'. split; [done|]. split; [by eapply building_stored|by eapply holds_stored].
Qed.

Lemma push_args_ok guard sz argv : ∀ sp ustack m ph L O,
  bld ph L O → holds pd guard sz m ph → 0 ≤ guard → sz ≤ KERNBASE → sp ≤ sz → 4096 * (guard + 1) + args_room argv ≤ sp →
  (∃ ph' L' sp' us' m', push_args argv pd sp ustack (frame s i p ph g x c) = Ok (Some (sp', us')) (frame s i p ph' g x c) ∧
     a_args argv sp ustack m = Some (sp', us', m') ∧ bld ph' L' O ∧ holds pd guard sz m' ph' ∧
     sp - args_room argv ≤ sp' ≤ sp ∧ length us' = (length ustack + length argv)%nat) ∨
  (∃ ph' L', push_args argv pd sp ustack (frame s i p ph g x c) = Ok None (frame s i p ph' g x c) ∧
     a_args argv sp ustack m = None ∧ bld ph' L' O).
Proof.
  induction argv as [|a argv IH]; intros sp ustack m ph L O Hb Hh Hg Hsz Hsp Hroom; cbn [push_args a_args args_room foldr] in *.
  { left. exists ph, L, sp, ustack, m. split_and!; try done; try lia. }
  destruct (MAXARG <=? Z.of_nat (length ustack)); [right; by exists ph, L|].
  pose proof (args_room_nonneg argv) as Hrest. fold (args_room argv) in *.
  destruct (below_aligned sp (Z.of_nat (length a))) as (E & Hlo & Hhi); [lia|lia|klia|]. rewrite E. set (sp1 := below sp (Z.of_nat (length a))) in *.
  destruct (stack_store guard sz m ph L O sp1 (a ++ [0])) as (ph1 & Est & Hb1 & Hh1); try done; [lia|rewrite length_app; cbn; lia|].
  rewrite (bind_ok _ _ _ _ _ (on_phys_frame _ s i p ph ph1 g x c _ Est)). change (0 <? 0) with false. cbv iota.
  destruct (IH sp1 (ustack ++ [sp1]) (a_store sp1 (a ++ [0]) m) ph1 L O) as
    [(ph' & L' & sp' & us' & m' & E1 & E2 & Hb' & Hh' & Hr & Hl)|(ph' & L' & E1 & E2 & Hb')]; try done; [lia|lia|left|right].
  - exists ph', L', sp', us', m'. split_and!; try done; try lia. rewrite Hl, length_app. cbn. lia.
  - by exists ph', L'.
Qed.

Lemma holds_roundup sz m ph : 0 ≤ sz < KERNBASE → holds pd (-1) sz m ph → holds pd (-1) (PGROUNDUP sz) m ph.
Proof.
  intros Hsz [Hm Hw Hg Hn Hk]. rewrite PGROUNDUP_page by lia. split; try done.
  - intros v Hv Hlt. apply Hw; [done|dlia].
  - intros v Hv Hge. apply Hn; [done|dlia].
Qed.

Lemma build_stack_ok argv sz m ph L O :
  bld ph L O → holds pd (-1) sz m ph → 0 ≤ sz < KERNBASE → args_fit argv →
  ∃ o ph' L' O', build_stack argv pd sz (frame s i p ph g x c) = Ok o (frame s i p ph' g x c) ∧ bld ph' L' O' ∧
    match o with
    | Some (sz', sp) => ∃ m', a_stack argv sz m = Some (sz', sp, m') ∧ holds pd (sz' / 4096 - 2) sz' m' ph'
    | None => True
    end.
Proof.
  intros Hb Hh Hsz Hfit. apply (holds_roundup sz) in Hh; [|done]. unfold build_stack, a_stack.
  assert (Er : PGROUNDUP sz = 4096 * ((sz + 4095) / 4096)) by (apply PGROUNDUP_page; lia). set (k := (sz + 4095) / 4096) in *.
  assert (Hk : 0 ≤ k ∧ 4096 * k ≤ KERNBASE) by (unfold k; klia). rewrite Er in Hh |- *. rewrite u32_small by klia.
  set (new := 4096 * k + 2 * PGSIZE). assert (Enew : new = 4096 * (k + 2)) by (unfold new, PGSIZE; lia).
  destruct (Z.leb_spec KERNBASE new) as [Hbig|Hnew].
  { exists None, ph, L, O. rewrite (bind_ok _ _ _ 0 (frame s i p ph g x c)); [done|]. unfold allocuvm. by rewrite (proj2 (Z.leb_le _ _) Hbig). }
  destruct (alloc_step d PG X ph0 L0 O0 pd s i p g c Hpd Hruns Hnp (4096 * k) new m ph L O x Hb Hh) as
    [(ph1 & L1 & O1 & E1 & Hb1 & Hh1)|(ph1 & L1 & O1 & E1 & Hb1)]; [lia|lia|done| |].
  2: { exists None, ph1, L1, O1. by rewrite (bind_ok _ _ _ _ _ E1). }
  rewrite Z.max_r in E1, Hh1 by lia. rewrite (bind_ok _ _ _ _ _ E1), (proj2 (Z.eqb_neq new 0)) by lia.
  assert (Hgv : user_vpn k) by (unfold user_vpn; klia).
  destruct (clear_guard k new _ ph1 L1 O1 Hb1 Hh1 Hgv ltac:(lia)) as (ph2 & E2 & Hb2 & Hh2).
  assert (Eg : u32 (new - 2 * PGSIZE) = 4096 * k) by (rewrite u32_small by klia; unfold PGSIZE; lia). rewrite Eg.
  rewrite (bind_ok _ _ _ _ _ (on_phys_frame _ s i p ph1 ph2 g x c _ E2)). unfold args_fit in Hfit.
  destruct (push_args_ok k new argv new [] _ ph2 L1 O1 Hb2 Hh2) as
    [(ph3 & L3 & sp & us & m3 & E3 & E3' & Hb3 & Hh3 & Hsp & Hus)|(ph3 & L3 & E3 & E3' & Hb3)]; [lia|lia|lia|lia| |].
  2: { exists None, ph3, L3, O1. by rewrite (bind_ok _ _ _ _ _ E3). }
  rewrite (bind_ok _ _ _ _ _ E3), E3'. cbn [length Nat.add] in Hus. rewrite Hus.
  pose proof (args_room_nonneg argv). rewrite !u32_small by klia.
  replace ([0xffffffff; Z.of_nat (length argv); sp - (Z.of_nat (length argv) + 1) * 4] ++ us ++ [0]) with (ustack_of sp us) by (unfold ustack_of; by rewrite Hus).
  destruct (stack_store k new m3 ph3 L3 O1 (sp - (3 + Z.of_nat (length argv) + 1) * 4) (ustack_of sp us ≫= enc32)) as (ph4 & E4 & Hb4 & Hh4);
    [done|done|lia|lia|rewrite length_enc32s; unfold ustack_of; cbn [length app]; rewrite length_app, Hus; cbn; lia|klia|].
  rewrite (bind_ok _ _ _ _ _ (on_phys_frame _ s i p ph3 ph4 g x c _ E4)). change (0 <? 0) with false. cbv iota.
  eexists (Some (_, _)), ph4, L3, O1. split; [done|]. split; [done|]. eexists. split; [done|].
  replace (new / 4096 - 2) with k by dlia. done.
Qed.
End Stack.
End ExecSpec.
