(* ===== verification/Boot.v ===== *)
(** * Boot: the boot loader, [bootmain.c]

    The loader runs in physical memory, without paging, and reads the kernel from
    the disk sector by sector.  Its theorem says that the image of the kernel is
    in memory when the loader jumps to the entry point. *)

From S2P Require Import Prelude Mmu Phys Hw CString Bytes Exec ExecSpec.

Definition SECTSIZE := 512.

Section Boot.
Context {D : Type} `{HD : Machine D} (looks : nat).

Definition bst : Type := D * memory.
Definition on_dev {A} (c : M D A) : M bst A := λ '(d, m), match c d with Ok a d' => Ok a (d', m) | Err e => Err e end.

Definition waitdisk : M D unit := poll looks 0x1f7 0xc0 0x40 ;; mret tt.

Definition readsect (dst offset : Z) : M bst unit :=
  on_dev waitdisk ;;
  on_dev (outb 0x1f2 1) ;;
  on_dev (outb 0x1f3 offset) ;;
  on_dev (outb 0x1f4 (Z.shiftr offset 8)) ;;
  on_dev (outb 0x1f5 (Z.shiftr offset 16)) ;;
  on_dev (outb 0x1f6 (Z.lor (Z.shiftr offset 24) 0xe0)) ;;
  on_dev (outb 0x1f7 0x20) ;;
  on_dev waitdisk ;;
  x ← on_dev (insl 0x1f0 (Z.to_nat (SECTSIZE / 4)));
  modify (λ '(d, m), (d, st_bytes m dst x)).

(** [for(; pa < epa; pa += SECTSIZE, offset++)] *)
Fixpoint readseg_loop (fuel : nat) (pa epa offset : Z) : M bst unit :=
  match fuel with
  | O => fail NoFuel
  | S fuel' =>
      if pa <? epa then readsect pa offset ;; readseg_loop fuel' (u32 (pa + SECTSIZE)) epa (u32 (offset + 1))
      else mret tt
  end.
Definition readseg (pa count offset : Z) : M bst unit :=
  let epa := u32 (pa + count) in
  let pa := u32 (pa - offset mod SECTSIZE) in
  let offset := offset / SECTSIZE + 1 in
  readseg_loop (Z.to_nat (count / SECTSIZE) + 3) pa epa offset.

Definition ELF_AT := 0x10000.

(** One segment, with its header at [ph]. *)
Definition load_segment (ph : Z) : M bst unit :=
  m ← gets snd;
  let h := proghdr_of (ld_bytes m ph (Z.to_nat sizeof_proghdr)) in
  let pa := ph_paddr h in
  readseg pa (ph_filesz h) (ph_off h) ;;
  when (ph_filesz h <? ph_memsz h)
    (modify (λ '(d, m), (d, stosb m (u32 (pa + ph_filesz h)) 0 (Z.to_nat (ph_memsz h - ph_filesz h))))).
(** [for(; ph < eph; ph++)] *)
Fixpoint load_loop (n : nat) (ph : Z) : M bst unit :=
  match n with
  | O => mret tt
  | S n' => load_segment ph ;; load_loop n' (ph + sizeof_proghdr)
  end.

(** The address jumped to; [None] when the loader returns because there is no
    program. *)
Definition bootmain : M bst (option Z) :=
  readseg ELF_AT 4096 0 ;;
  m ← gets snd;
  let elf := elfhdr_of (ld_bytes m ELF_AT (Z.to_nat sizeof_elfhdr)) in
  if negb (elf_magic elf =? ELF_MAGIC) then mret None
  else
    load_loop (Z.to_nat (elf_phnum elf)) (ELF_AT + elf_phoff elf) ;;
    m ← gets snd;
    mret (Some (elf_entry (elfhdr_of (ld_bytes m ELF_AT (Z.to_nat sizeof_elfhdr))))).
End Boot.

(** ** Sectors *)

Lemma drive_register h : 0 ≤ h < 16 →
  let r := u8 (Z.lor h 0xe0) in Z.land r 15 = h ∧ ata_drive r = 0 ∧ Z.land r 0xe0 = 0xe0 ∧ is_u8 r.
Proof.
  intros Hh. assert (Hall : forallb (λ k, let h := Z.of_nat k in let r := u8 (Z.lor h 0xe0) in
    (Z.land r 15 =? h) && (ata_drive r =? 0) && (Z.land r 0xe0 =? 0xe0) && (0 <=? r) && (r <? 256)) (seq 0 16) = true) by reflexivity.
  rewrite forallb_forall in Hall. specialize (Hall (Z.to_nat h)). rewrite Z2Nat.id in Hall by lia.
  specialize (Hall ltac:(apply in_seq; lia)). cbv zeta in *. rewrite !andb_true_iff, !Z.eqb_eq, Z.leb_le, Z.ltb_lt in Hall.
  unfold is_u8. tauto.
Qed.

(** The registers of the controller hold the number of the sector. *)
Lemma ata_registers n : 0 ≤ n < 2 ^ 28 →
  let r6 := u8 (Z.lor (Z.shiftr n 24) 0xe0) in
  ata_lba (u8 n) (u8 (Z.shiftr n 8)) (u8 (Z.shiftr n 16)) r6 = n ∧ ata_drive r6 = 0 ∧ Z.land r6 0xe0 = 0xe0 ∧ is_u8 r6.
Proof.
  intros Hn. assert (Hh : 0 ≤ Z.shiftr n 24 < 16) by (rewrite Z.shiftr_div_pow2 by lia; dlia).
  destruct (drive_register _ Hh) as (H1 & H2 & H3 & H4). cbv zeta in *. split; [|done]. unfold ata_lba. rewrite H1.
  rewrite !Z.shiftr_div_pow2 by lia. unfold u8. dlia.
Qed.

(** The byte [k] of the kernel file, which starts at sector 1 of drive 0. *)
Definition image (sec : Z → Z → list Z) (k : Z) : Z := u8 (nth (Z.to_nat (k mod SECTSIZE)) (sec 0 (k / SECTSIZE + 1)) 0).

Lemma ld8_st_bytes m a l x :
  ld8 (st_bytes m a l) x = if decide (a ≤ x < a + Z.of_nat (length l)) then u8 (nth (Z.to_nat (x - a)) l 0) else ld8 m x.
Proof.
  unfold ld8, st_bytes, in_range. destruct (Z.leb_spec a x), (Z.ltb_spec x (a + Z.of_nat (length l))); cbn; case_decide; try lia; [|done..].
  unfold u8. by rewrite Zmod_mod.
Qed.

(** The whole sectors that [readseg] reads. *)
Definition sectors (count offset : Z) : Z := (count + offset mod SECTSIZE + SECTSIZE - 1) / SECTSIZE.
Definition first_byte (pa offset : Z) : Z := pa - offset mod SECTSIZE.
Definition touched (pa count offset x : Z) : Prop := first_byte pa offset ≤ x < first_byte pa offset + SECTSIZE * sectors count offset.
#[export] Instance touched_dec pa count offset x : Decision (touched pa count offset x).
Proof. unfold touched. apply _. Defined.

Section Load.
Context {D : Type} `{HA : Ata D looks}.
Notation bst := (D * memory)%type.

(** The state of the loader: the controller, and the contents of the disk. *)
Definition booting (sec : Z → Z → list Z) (d : D) : Prop := ata_ok d ∧ ata_sector d = sec.

Lemma on_dev_ok {A} (c : M D A) d m a d' : c d = Ok a d' → on_dev c (d, m) = Ok a (d', m).
Proof using. clear. intros E. unfold on_dev. by rewrite E. Qed.
Lemma waitdisk_run d : ata_ok d → ∃ d', waitdisk looks d = Ok tt d' ∧ ata_ok d' ∧ ata_sector d' = ata_sector d ∧ ata_pending d' = ata_pending d.
Proof using.
  intros Hd. destruct (ata_wait d Hd) as (r & d' & E & _ & H1 & H2 & H3). exists d'. split; [|done]. unfold waitdisk. by rewrite (bind_ok _ _ _ _ _ E).
Qed.

Lemma readsect_run sec d m dst n : booting sec d → 0 ≤ n < 2 ^ 28 →
  ∃ d', readsect looks dst n (d, m) = Ok tt (d', st_bytes m dst (sec 0 n)) ∧ booting sec d'.
Proof using.
  intros [Hok Hsec] Hn. unfold readsect. destruct (waitdisk_run d Hok) as (d1 & E1 & O1 & S1 & P1).
  rewrite (bind_ok _ _ _ _ _ (on_dev_ok _ _ m _ _ E1)). do 6 (erewrite bind_ok by done).
  destruct (ata_registers n Hn) as (R1 & R2 & R3 & R4). cbv zeta in *.
  destruct (ata_read d1 (u8 n) (u8 (Z.shiftr n 8)) (u8 (Z.shiftr n 16)) (u8 (Z.lor (Z.shiftr n 24) 0xe0)) O1 R3) as (O2 & S2 & P2);
    [unfold is_u8, u8; dlia..|done|]. rewrite R1, R2 in P2. unfold ata_command in *. change (u8 1) with 1. change (u8 32) with 32.
  destruct (waitdisk_run _ O2) as (d3 & E3 & O3 & S3 & P3). rewrite (bind_ok _ _ _ _ _ (on_dev_ok _ _ m _ _ E3)).
  rewrite P2 in P3. destruct (ata_data d3 _ O3 P3) as (d4 & E4 & O4 & S4).
  rewrite (bind_ok _ _ _ (ata_sector d1 0 n) (d4, m)). 2:{ unfold on_dev, insl. change (Z.to_nat (SECTSIZE / 4)) with 128%nat. by rewrite E4. }
  exists d4. split; [unfold modify; by rewrite S1, Hsec|]. split; [done|]. congruence.
Qed.

Lemma readseg_loop_run sec k : ∀ fuel d m pa epa n,
  booting sec d → (∀ v i, length (sec v i) = 512%nat) → (k < fuel)%nat → 0 ≤ pa → pa + SECTSIZE * Z.of_nat k < 2 ^ 32 → 1 ≤ n → n + Z.of_nat k < 2 ^ 28 →
  pa + SECTSIZE * (Z.of_nat k - 1) < epa ∨ k = O → epa ≤ pa + SECTSIZE * Z.of_nat k →
  ∃ d' m', readseg_loop looks fuel pa epa n (d, m) = Ok tt (d', m') ∧ booting sec d' ∧
    ∀ x, ld8 m' x = if decide (pa ≤ x < pa + SECTSIZE * Z.of_nat k) then image sec (x - pa + SECTSIZE * (n - 1)) else ld8 m x.
Proof using.
  unfold SECTSIZE. induction k as [|k IH]; intros fuel d m pa epa n Hb Hlen Hf Hpa Hend Hn Hnk Hlo Hhi; (destruct fuel as [|fuel]; [lia|]); cbn [readseg_loop].
  - rewrite (proj2 (Z.ltb_ge _ _)) by lia. exists d, m. split; [done|]. split; [done|]. intros x. case_decide; [lia|done].
  - rewrite (proj2 (Z.ltb_lt _ _)) by lia. destruct (readsect_run sec d m pa n Hb ltac:(lia)) as (d1 & E1 & B1).
    rewrite (bind_ok _ _ _ _ _ E1). unfold SECTSIZE. rewrite !u32_small by (unfold is_u32; lia).
    destruct (IH fuel d1 (st_bytes m pa (sec 0 n)) (pa + 512) epa (n + 1)) as (d2 & m2 & E2 & B2 & M2); [done|done|lia..|].
    exists d2, m2. split; [done|]. split; [done|]. intros x. rewrite M2, ld8_st_bytes, Hlen. unfold image, SECTSIZE.
    repeat case_decide; try lia; [f_equal; f_equal; [f_equal; dlia|f_equal; dlia]|].
    replace (Z.to_nat ((x - pa + 512 * (n - 1)) mod 512)) with (Z.to_nat (x - pa)) by (f_equal; dlia).
    by replace ((x - pa + 512 * (n - 1)) / 512 + 1) with n by dlia.
Qed.

Lemma readseg_run sec d m pa count offset :
  booting sec d → (∀ v i, length (sec v i) = 512%nat) → 0 ≤ offset → 0 ≤ count → offset mod SECTSIZE ≤ pa → pa + count + SECTSIZE < 2 ^ 32 →
  offset + count < 2 ^ 32 →
  ∃ d' m', readseg looks pa count offset (d, m) = Ok tt (d', m') ∧ booting sec d' ∧
    ∀ x, ld8 m' x = if decide (touched pa count offset x) then image sec (x - pa + offset) else ld8 m x.
Proof using.
  intros Hb Hlen Ho Hc Hpa Hend Hoc. unfold readseg, SECTSIZE in *. rewrite !u32_small by (unfold is_u32; dlia).
  assert (Hs : 0 ≤ sectors count offset) by (unfold sectors, SECTSIZE; dlia).
  destruct (readseg_loop_run sec (Z.to_nat (sectors count offset)) (Z.to_nat (count / 512) + 3) d m (pa - offset mod 512) (pa + count) (offset / 512 + 1))
    as (d' & m' & E & B & Hm); [done|done|unfold sectors, SECTSIZE; dlia|lia|rewrite Z2Nat.id by done; unfold sectors, SECTSIZE; dlia|dlia|
      rewrite Z2Nat.id by done; unfold sectors, SECTSIZE; dlia| | |].
  - rewrite Z2Nat.id by done. destruct (decide (sectors count offset = 0)) as [E0|]; [right; by rewrite E0|left]. unfold sectors, SECTSIZE in *. dlia.
  - rewrite Z2Nat.id by done. unfold sectors, SECTSIZE. dlia.
  - exists d', m'. split; [done|]. split; [done|]. intros x. rewrite Hm, Z2Nat.id by done. unfold touched, first_byte, SECTSIZE.
    repeat case_decide; try lia. f_equal. dlia.
Qed.
End Load.

(** ** The whole kernel *)

(** The headers in the file. *)
Definition file_bytes (sec : Z → Z → list Z) (off : Z) (n : nat) : list Z := (λ i, image sec (off + Z.of_nat i)) <$> seq 0 n.
Definition file_elf (sec : Z → Z → list Z) : elfhdr := elfhdr_of (file_bytes sec 0 (Z.to_nat sizeof_elfhdr)).
Definition file_ph (sec : Z → Z → list Z) (i : nat) : proghdr :=
  proghdr_of (file_bytes sec (elf_phoff (file_elf sec) + sizeof_proghdr * Z.of_nat i) (Z.to_nat sizeof_proghdr)).
Definition file_phnum (sec : Z → Z → list Z) : nat := Z.to_nat (elf_phnum (file_elf sec)).

(** The memory that loading a segment can change. *)
Definition seg_area (h : proghdr) (x : Z) : Prop :=
  touched (ph_paddr h) (ph_filesz h) (ph_off h) x ∨ ph_paddr h + ph_filesz h ≤ x < ph_paddr h + ph_memsz h.
Definition header_area (x : Z) : Prop := ELF_AT ≤ x < ELF_AT + 4096.

(** A kernel file: its headers are in the first page, and its segments do not get
    in each other's way, nor in the way of the headers. *)
Record kernel_file (sec : Z → Z → list Z) : Prop := {
  kf_sectors : ∀ v i, length (sec v i) = 512%nat;
  kf_magic : elf_magic (file_elf sec) = ELF_MAGIC;
  kf_headers : elf_phoff (file_elf sec) + sizeof_proghdr * elf_phnum (file_elf sec) ≤ 4096;
  kf_range : ∀ i, (i < file_phnum sec)%nat → let h := file_ph sec i in
    ph_off h mod SECTSIZE ≤ ph_paddr h ∧ ph_paddr h + ph_filesz h + SECTSIZE < 2 ^ 32 ∧ ph_paddr h + ph_memsz h < 2 ^ 32 ∧
    ph_off h + ph_filesz h < 2 ^ 32;
  kf_apart : ∀ i x, (i < file_phnum sec)%nat → seg_area (file_ph sec i) x → ¬ header_area x;
  kf_disjoint : ∀ i j x, (i < j < file_phnum sec)%nat → seg_area (file_ph sec j) x → ¬ seg_area (file_ph sec i) x
}.

(** A segment is in memory: the bytes of the file, then zeros. *)
Definition seg_loaded (sec : Z → Z → list Z) (m : memory) (h : proghdr) : Prop :=
  (∀ k, 0 ≤ k < ph_filesz h → ld8 m (ph_paddr h + k) = image sec (ph_off h + k)) ∧
  (∀ k, ph_filesz h ≤ k < ph_memsz h → ld8 m (ph_paddr h + k) = 0).

Lemma file_bytes_ok sec off n : bytes_ok (file_bytes sec off n).
Proof.
  apply Forall_forall. intros c Hc. apply list_elem_of_fmap in Hc as (k & -> & _). unfold image, u8. dlia.
Qed.
Lemma file_ph_ranges sec i : let h := file_ph sec i in is_u32 (ph_off h) ∧ is_u32 (ph_paddr h) ∧ is_u32 (ph_filesz h) ∧ is_u32 (ph_memsz h).
Proof. cbn. split_and!; apply get32_range, file_bytes_ok. Qed.

(** The first page of the file at [ELF_AT]. *)
Definition headers_in (sec : Z → Z → list Z) (m : memory) : Prop := ∀ k, 0 ≤ k < 4096 → ld8 m (ELF_AT + k) = image sec k.

Lemma headers_bytes sec m off n : headers_in sec m → 0 ≤ off → off + Z.of_nat n ≤ 4096 → ld_bytes m (ELF_AT + off) n = file_bytes sec off n.
Proof.
  intros Hh Ho Hn. unfold ld_bytes, file_bytes. apply list_fmap_ext. intros k x Hx. apply lookup_seq in Hx as [-> Hk].
  rewrite <- Z.add_assoc. apply Hh. lia.
Qed.

Section Kernel.
Context {D : Type} `{HA : Ata D looks} (sec : Z → Z → list Z).
Hypothesis Hk : kernel_file sec.

Lemma load_segment_run d m i :
  booting sec d → headers_in sec m → (i < file_phnum sec)%nat → let h := file_ph sec i in
  ∃ d' m', load_segment looks (ELF_AT + elf_phoff (file_elf sec) + sizeof_proghdr * Z.of_nat i) (d, m) = Ok tt (d', m') ∧ booting sec d' ∧
    seg_loaded sec m' h ∧ ∀ x, ¬ seg_area h x → ld8 m' x = ld8 m x.
Proof using Hk.
  intros Hb Hh Hi h. destruct (file_ph_ranges sec i) as (U1 & U2 & U3 & U4). fold h in U1, U2, U3, U4. unfold is_u32 in *.
  destruct (kf_range _ Hk i Hi) as (R1 & R2 & R3 & R4). fold h in R1, R2, R3, R4.
  pose proof (kf_headers _ Hk) as Hhd. pose proof (get32_range _ 28 (file_bytes_ok sec 0 (Z.to_nat sizeof_elfhdr))) as Hpo.
  change (get32 (file_bytes sec 0 (Z.to_nat sizeof_elfhdr)) 28) with (elf_phoff (file_elf sec)) in Hpo. unfold is_u32 in Hpo.
  unfold file_phnum in Hi. unfold load_segment. rewrite (bind_ok _ _ _ m (d, m)) by done. unfold sizeof_proghdr in *.
  rewrite <- Z.add_assoc, (headers_bytes sec) by (done || lia). fold h. change (proghdr_of _) with h. cbv zeta.
  destruct (readseg_run sec d m (ph_paddr h) (ph_filesz h) (ph_off h)) as (d1 & m1 & E1 & B1 & M1); [done|apply Hk|lia..|].
  rewrite (bind_ok _ _ _ _ _ E1). assert (Ht : ∀ k, 0 ≤ k < ph_filesz h → touched (ph_paddr h) (ph_filesz h) (ph_off h) (ph_paddr h + k)).
  { intros k Hkk. unfold touched, first_byte, sectors, SECTSIZE. dlia. }
  destruct (Z.ltb_spec (ph_filesz h) (ph_memsz h)) as [Hlt|Hge]; cbn [when].
  - eexists d1, _. split; [done|]. split; [done|]. rewrite u32_small by (unfold is_u32; lia). split; [split|].
    + intros k Hkk. rewrite stosb_spec, ld8_fill_out, M1, decide_True by (auto || lia). f_equal. lia.
    + intros k Hkk. rewrite stosb_spec, ld8_fill_in by lia. done.
    + intros x Hx. unfold seg_area in Hx. rewrite stosb_spec, ld8_fill_out by lia. rewrite M1, decide_False by tauto. done.
  - exists d1, m1. split; [done|]. split; [done|]. split; [split|].
    + intros k Hkk. rewrite M1, decide_True by auto. f_equal. lia.
    + intros k Hkk. lia.
    + intros x Hx. unfold seg_area in Hx. rewrite M1, decide_False by tauto. done.
Qed.

Lemma load_loop_run n : ∀ d m i,
  booting sec d → headers_in sec m → (i + n = file_phnum sec)%nat → (∀ j, (j < i)%nat → seg_loaded sec m (file_ph sec j)) →
  ∃ d' m', load_loop looks n (ELF_AT + elf_phoff (file_elf sec) + sizeof_proghdr * Z.of_nat i) (d, m) = Ok tt (d', m') ∧ booting sec d' ∧
    headers_in sec m' ∧ (∀ j, (j < file_phnum sec)%nat → seg_loaded sec m' (file_ph sec j)) ∧
    ∀ x, (∀ j, (i ≤ j < file_phnum sec)%nat → ¬ seg_area (file_ph sec j) x) → ld8 m' x = ld8 m x.
Proof using Hk.
  induction n as [|n IH]; intros d m i Hb Hh Hi Hl; cbn [load_loop].
  - exists d, m. split; [done|]. split; [done|]. split; [done|]. split; [|done]. intros j Hj. apply Hl. lia.
  - destruct (load_segment_run d m i Hb Hh ltac:(lia)) as (d1 & m1 & E1 & B1 & L1 & O1). rewrite (bind_ok _ _ _ _ _ E1).
    assert (Hh1 : headers_in sec m1).
    { intros k Hkk. rewrite O1; [by apply Hh|]. intros Ha. apply (kf_apart _ Hk i _ ltac:(lia) Ha). unfold header_area. lia. }
    destruct (IH d1 m1 (S i) B1 Hh1 ltac:(lia)) as (d2 & m2 & E2 & B2 & Hh2 & L2 & O2).
    { intros j Hj. destruct (decide (j = i)) as [->|]; [done|].
      assert (Hs : ∀ x, seg_area (file_ph sec j) x → ld8 m1 x = ld8 m x) by (intros x Hx; apply O1; intros Ha; by apply (kf_disjoint _ Hk j i x ltac:(lia) Ha)).
      destruct (Hl j ltac:(lia)) as [S1 S2]. destruct (file_ph_ranges sec j) as (U1 & U2 & U3 & U4). unfold is_u32 in *. split; intros k Hkk.
      - rewrite Hs; [by apply S1|]. left. unfold touched, first_byte, sectors, SECTSIZE. dlia.
      - rewrite Hs; [by apply S2|]. right. lia. }
    exists d2, m2. split; [|split; [done|split; [done|split; [done|]]]].
    + replace (ELF_AT + elf_phoff (file_elf sec) + sizeof_proghdr * Z.of_nat i + sizeof_proghdr)
        with (ELF_AT + elf_phoff (file_elf sec) + sizeof_proghdr * Z.of_nat (S i)) by lia. done.
    + intros x Hx. rewrite O2 by (intros j Hj; apply Hx; lia). apply O1. apply Hx. lia.
Qed.

End Kernel.

(** A disk with a kernel of one segment: 600 bytes of the file from byte 4096 on, to
    be loaded at 1 megabyte, and 100 zeros. *)
Definition demo_elf : list Z :=
  enc32 ELF_MAGIC ++ replicate 12 0 ++ enc16 2 ++ enc16 3 ++ enc32 1 ++ enc32 0x10000c ++ enc32 52 ++ enc32 0 ++ enc32 0 ++
  enc16 52 ++ enc16 32 ++ enc16 1 ++ enc16 0 ++ enc16 0 ++ enc16 0 ++
  enc32 1 ++ enc32 4096 ++ enc32 0x80100000 ++ enc32 0x100000 ++ enc32 600 ++ enc32 700 ++ enc32 7 ++ enc32 4096.
Definition demo_ata : pio := mkPio (λ _ n, if n =? 1 then demo_elf else replicate 512 7) (λ _, 0) 2 None.
Definition demo_sec : Z → Z → list Z := pio_sector demo_ata.

Lemma demo_headers : file_ph demo_sec 0 = mkPh 1 4096 0x80100000 0x100000 600 700 7 4096 ∧ file_phnum demo_sec = 1%nat ∧
  elf_phoff (file_elf demo_sec) + sizeof_proghdr * elf_phnum (file_elf demo_sec) ≤ 4096 ∧
  elf_magic (file_elf demo_sec) = ELF_MAGIC ∧ elf_entry (file_elf demo_sec) = 0x10000c.
Proof. vm_compute. repeat split. discriminate. Qed.

Lemma demo_kernel : kernel_file demo_sec.
Proof.
  destruct demo_headers as (H1 & H2 & H3 & H4 & _). split.
  - intros v i. apply length_fit512.
  - done.
  - done.
  - intros i Hi. rewrite H2 in Hi. assert (i = 0%nat) as -> by lia. rewrite H1. vm_compute. repeat split; discriminate.
  - intros i x Hi. rewrite H2 in Hi. assert (i = 0%nat) as -> by lia. rewrite H1. unfold seg_area, header_area, touched, first_byte, sectors, SECTSIZE, ELF_AT. cbn [ph_paddr ph_filesz ph_memsz ph_off]. dlia.
  - intros i j x Hij. rewrite H2 in Hij. lia.
Qed.


(** ** The page directory that [entry.S] turns paging on with *)

Definition entrypgdir (i : Z) : Z :=
  if (i =? 0) || (i =? Z.shiftr KERNBASE PDXSHIFT) then Z.lor (Z.lor (Z.lor 0 PTE_P) PTE_W) PTE_PS else 0.

(** The translation by a directory of pages of 4 megabytes. *)
Definition big_page (dir : Z → Z) (va : Z) : option Z :=
  let pde := dir (PDX va) in
  if nz (Z.land pde PTE_P) && nz (Z.land pde PTE_PS) then Some (pde / 2 ^ 22 * 2 ^ 22 + va mod 2 ^ 22) else None.

(** The first 4 megabytes are mapped at 0, where the code runs that turns paging on, and
    at [KERNBASE], where the kernel is linked; nothing else is mapped. *)
Theorem entrypgdir_maps va : is_u32 va →
  big_page entrypgdir va =
    if decide (va < 0x400000) then Some va
    else if decide (KERNBASE ≤ va < KERNBASE + 0x400000) then Some (va - KERNBASE) else None.
Proof.
  unfold is_u32. intros Hv. unfold big_page.
  assert (PDX va = va / 4194304) as ->.
  { unfold PDX, PDXSHIFT. change 0x3FF with (Z.ones 10). rewrite Z.land_ones, Z.shiftr_div_pow2 by done.
    change (2 ^ 22) with 4194304. change (2 ^ 10) with 1024. apply Z.mod_small. klia. }
  unfold entrypgdir. change (Z.shiftr KERNBASE PDXSHIFT) with 512. change (2 ^ 22) with 4194304. unfold KERNBASE.
  change (Z.lor (Z.lor (Z.lor 0 PTE_P) PTE_W) PTE_PS) with 131.
  destruct (Z.eqb_spec (va / 4194304) 0), (Z.eqb_spec (va / 4194304) 512); cbn [orb]; try klia;
    repeat case_decide; try klia; try done;
    change (nz (Z.land 131 PTE_P) && nz (Z.land 131 PTE_PS)) with true; cbv iota; f_equal;
    change (131 / 4194304 * 4194304) with 0; klia.
Qed.
