(* ===== verification/ExecClaims.v ===== *)
(** * ExecClaims: [exec] loads the program or changes nothing *)

From S2P Require Import Prelude Mmu Phys Config Kalloc PageTable Vmspace UvmInv UserMem State Spinlock.
From S2P Require Import PageList Swap Uvm UvmSpec GrowSpec LoadSpec Bytes Exec ExecSpec.

(** ** The arguments in an image *)

Definition a_holds (m : aspace) (a : Z) (b : list Z) : Prop := ∀ (k : nat) y, b !! k = Some y → m (a + Z.of_nat k) = Some (u8 y).

Lemma a_store_in a b m : a_holds (a_store a b m) a b.
Proof.
  intros k y Hy. pose proof (lookup_lt_Some _ _ _ Hy). unfold a_store. rewrite (proj2 (Z.leb_le _ _)), (proj2 (Z.ltb_lt _ _)) by lia. cbn [andb].
  replace (Z.to_nat (a + Z.of_nat k - a)) with k by lia. by rewrite (nth_lookup_Some b k 0 y).
Qed.

Lemma a_store_out a b m a' b' :
  a + Z.of_nat (length b) ≤ a' ∨ a' + Z.of_nat (length b') ≤ a → a_holds m a' b' → a_holds (a_store a b m) a' b'.
Proof.
  intros Hd Hm k y Hy. pose proof (lookup_lt_Some _ _ _ Hy). unfold a_store.
  destruct ((a <=? a' + Z.of_nat k) && (a' + Z.of_nat k <? a + Z.of_nat (length b))) eqn:E; [|by apply Hm].
  apply andb_true_iff in E as [?%Z.leb_le ?%Z.ltb_lt]. lia.
Qed.

Lemma below_range sp n : 0 ≤ n → sp - n - 4 ≤ below sp n ∧ below sp n + n + 1 ≤ sp ∧ below sp n mod 4 = 0.
Proof. intros Hn. unfold below. dlia. Qed.

(** The strings, each with its terminator, lie above the stack pointer, and memory
    above the old one is as it was. *)
Lemma a_args_ok argv : ∀ sp us m sp' us' m',
  a_args argv sp us m = Some (sp', us', m') → sp mod 4 = 0 →
  sp - args_room argv ≤ sp' ≤ sp ∧ sp' mod 4 = 0 ∧ (∀ a b, sp ≤ a → a_holds m a b → a_holds m' a b) ∧
  ∃ ps, us' = us ++ ps ∧ Forall2 (λ a s, sp' ≤ a ∧ a + Z.of_nat (length s) < sp ∧ a_holds m' a (s ++ [0])) ps argv.
Proof.
  induction argv as [|s argv IH]; intros sp us m sp' us' m' E Hsp; cbn [a_args] in E.
  { injection E as <- <- <-. split; [cbn; lia|]. split; [done|]. split; [done|]. exists []. by rewrite app_nil_r. }
  destruct (MAXARG <=? Z.of_nat (length us)); [done|]. destruct (below_range sp (Z.of_nat (length s))) as (Hlo & Hhi & Hal); [lia|].
  set (sp1 := below sp (Z.of_nat (length s))) in *.
  destruct (IH _ _ _ _ _ _ E Hal) as (Hr & Hal' & Hkeep & ps & -> & Hps).
  unfold args_room in *. cbn [foldr]. split; [lia|]. split; [done|]. split.
  - intros a b Ha Hm. apply Hkeep; [lia|]. apply a_store_out; [|done]. left. rewrite length_app. cbn. lia.
  - exists (sp1 :: ps). rewrite <- app_assoc. split; [done|]. constructor.
    + split; [lia|]. split; [lia|]. apply Hkeep; [lia|]. apply a_store_in.
    + eapply Forall2_impl; [exact Hps|]. cbn. intros a t (? & ? & ?). split_and!; [done|lia|done].
Qed.

(** What [main] of the new program finds: below a return address that is not valid,
    the number of arguments and the address of an array of their addresses, which
    ends with a null pointer; at each of them the string with its terminator. *)
Definition args_layout (argv : list (list Z)) (img : image) : Prop :=
  im_sz img - 4096 ≤ im_sp img ∧ im_sp img mod 4 = 0 ∧
  ∃ args, a_holds (im_mem img) (im_sp img)
      (([0xffffffff; Z.of_nat (length argv); im_sp img + 12] ++ args ++ [0]) ≫= enc32) ∧
    Forall2 (λ a s, im_sp img + 4 * (4 + Z.of_nat (length argv)) ≤ a ∧ a + Z.of_nat (length s) < im_sz img ∧
      a_holds (im_mem img) a (s ++ [0])) args argv.

Lemma exec_image_args file argv img : args_fit argv → exec_image file argv = Some img → args_layout argv img.
Proof.
  intros Hfit. unfold exec_image. destruct (readi_result file 0 sizeof_elfhdr) as [r b]. case_match; [done|].
  destruct (a_segments _ _ _ _ _) as [[sz m]|] eqn:Eseg; [|done]. unfold a_stack. set (sz1 := PGROUNDUP sz).
  destruct (KERNBASE <=? sz1 + 2 * PGSIZE); [done|].
  destruct (a_args argv _ _ _) as [[[sp us] m1]|] eqn:Eargs; [|done]. intros Himg%Some_inj. subst img. unfold args_layout. cbn [im_sz im_sp im_mem].
  destruct (a_args_ok _ _ _ _ _ _ _ Eargs) as (Hr & Hal & _ & ps & E & Hps).
  { unfold sz1. rewrite PGROUNDUP_eq. unfold PGSIZE. dlia. }
  cbn [app] in E. subst us. pose proof (Forall2_length _ _ _ Hps) as Hlen. unfold args_fit in Hfit. rewrite Hlen.
  split; [unfold PGSIZE in *; lia|]. split; [dlia|]. exists ps. split.
  - assert (Eu : [0xffffffff; Z.of_nat (length argv); sp - (3 + Z.of_nat (length argv) + 1) * 4 + 12] ++ ps ++ [0] = ustack_of sp ps).
    { unfold ustack_of. rewrite Hlen. replace (sp - (3 + Z.of_nat (length argv) + 1) * 4 + 12) with (sp - (Z.of_nat (length argv) + 1) * 4) by lia. done. }
    rewrite Eu. apply a_store_in.
  - eapply Forall2_impl; [exact Hps|]. cbn beta. intros a t (? & ? & ?). split; [lia|]. split; [done|]. apply a_store_out; [|done].
    left. rewrite length_enc32s. unfold ustack_of. cbn [length app]. rewrite length_app, Hlen. cbn. lia.
Qed.

Section ExecClaims.
Context `{ConfigOk} {F : Type} `{FileSystem F}.

Notation owners := (Z → gset (Z * Z)).

(** ** Switching *)

Lemma on_proc_gets {A} (s : kernel F) i p (f : proc → A) : cur_is s i p → on_proc i (gets f) s = Ok (f p) s.
Proof.
  intros Hc. unfold on_proc. destruct Hc as [Hc Hp]. rewrite Hp. cbn. f_equal. by apply (put_cur_id s i p).
Qed.

Lemma popcli_ok c : intr_flag c = false → 0 < ncli c → ∃ c', popcli c = Ok tt c'.
Proof.
  intros Hi Hn. unfold popcli. rewrite (bind_ok (gets _) _ c false c) by (unfold gets; by rewrite Hi). erewrite bind_ok by done.
  rewrite (bind_ok (gets _) _ _ (ncli c - 1) (set_ncli (ncli c - 1) c)) by done. rewrite (proj2 (Z.ltb_ge _ _)) by lia.
  erewrite bind_ok by done. unfold when. destruct (_ && _); by eexists.
Qed.

Lemma switchuvm_ok (s : kernel F) i p :
  cur_is s i p → kstack p ≠ 0 → pgdir p ≠ 0 → 0 ≤ ncli (cpu0 s) →
  ∃ c', switchuvm (Some i) s = Ok tt (set_cr3 (V2P (pgdir p)) (set_cpu0 c' s)).
Proof.
  intros Hc Hk Hp Hn. unfold switchuvm.
  rewrite (bind_ok _ _ _ _ _ (on_proc_gets s i p kstack Hc)), (bind_ok _ _ _ _ _ (on_proc_gets s i p pgdir Hc)).
  rewrite (proj2 (Z.eqb_neq _ _) Hk), (proj2 (Z.eqb_neq _ _) Hp).
  assert (Hpush : ∃ c1, pushcli (cpu0 s) = Ok tt c1 ∧ intr_flag c1 = false ∧ 0 < ncli c1).
  { rewrite pushcli_eq. eexists. split; [done|]. unfold after_push. destruct (ncli (cpu0 s) =? 0); cbn; (split; [done|lia]). }
  destruct Hpush as (c1 & E1 & Hi1 & Hn1). rewrite (bind_ok _ _ s tt (set_cpu0 c1 s)) by (unfold on_cpu; by rewrite E1).
  rewrite (bind_ok _ _ _ (ts_addr c1) (set_cpu0 c1 s)) by done. cbv zeta.
  do 3 (erewrite bind_ok by reflexivity). erewrite bind_ok by reflexivity. unfold on_cpu.
  match goal with |- context [popcli ?c] => destruct (popcli_ok c) as [c' Ec]; [done|done|] end.
  rewrite Ec. by eexists.
Qed.

Lemma vm_inv_perm d PG PG' ph L O X :
  (∀ pg, pg ∈ PG ↔ pg ∈ PG') → vm_inv d PG ph L O X → vm_inv d PG' ph L O X.
Proof.
  intros HPG [Hk [W1 W2 W3] Ho Hp Hr Ht Hw Hz].
  assert (Hpt : ∀ f, pt_page (mem ph) PG f ↔ pt_page (mem ph) PG' f) by (intros f; unfold pt_page; setoid_rewrite HPG; done).
  split; try done.
  - split.
    + intros pg Hpg. by apply W1, HPG.
    + intros pg j t Hpg Hj Et. destruct (W2 pg j t) as (? & ? & Hn); [by apply HPG|done|done|]. split_and!; try done. by rewrite <- HPG.
    + intros pg pg' j k t H1' H2'. apply W3; by apply HPG.
  - intros f pg v. rewrite Ho. by rewrite HPG.
  - intros f pg v Hin. rewrite <- Hpt. by eapply Hp.
  - intros f Hf HfL Hfp. apply Hr; [done|done|]. by rewrite Hpt.
  - intros f Hf. apply Ht. by rewrite Hpt.
  - intros f Hf. apply Hz. by rewrite Hpt.
Qed.

Lemma tight_perm PG PG' ph L O X : (∀ pg, pg ∈ PG ↔ pg ∈ PG') → tight PG ph L O X → tight PG' ph L O X.
Proof.
  intros HPG Ht f Hf HfL Hfp. apply Ht; [done|done|]. intros Hp. apply Hfp. unfold pt_page in *. by setoid_rewrite <- HPG.
Qed.

(** ** Failing *)

Section Bad.
Context (path : string) (file : list Z) `{!ProgFile F path file}.
Context (d : Z) (PG : list Z) (X : Z → Z) (ph0 : phys) (L0 : list Z) (O0 : owners).
Context (s : kernel F) (i : nat) (p : proc) (g : paging) (c : Z) (bk : backup).
Hypothesis Hruns : runs s i.
Hypothesis Hnp : paging_on = false.
Hypothesis Hflag : global_pgdir_flag s = 0 ∧ global_pgdir s = 0.
Hypothesis Hinv : vm_inv d PG ph0 L0 O0 X.

Notation opened := (pf_open (path := path) (file := file)).
Notation idle := (pf_idle (path := path) (file := file)).

(** The new address space is given back. *)
Lemma drop_space pd ph L O x :
  pd ∉ PG → building d PG X ph0 L0 O0 pd ph L O →
  ∃ ph' L', (if pd =? 0 then mret tt else freevm pd) (frame s i p ph g x c) = Ok tt (frame s i p ph' g x c) ∧
    no_space d PG O0 X ph0 L0 ph' L'.
Proof.
  intros Hpd [Bi Bo Bh Bu Bp Bt Bl].
  destruct (freevm_foreign d PG ph L O X pd s i p g x c Hruns ltac:(by left) Bi Hpd Bh Hflag) as
    (ph' & L' & O' & E & Fi & Fo & Fu & _ & Ft & Fl & Fp).
  exists ph', L'. split.
  - rewrite (proj2 (Z.eqb_neq pd 0)); [done|]. destruct (pw_dirs _ _ _ (vi_wf _ _ _ _ _ _ Bi) pd ltac:(by left)) as [(?&?&?) _]. klia.
  - assert (HO : ∀ f, O' f = O0 f).
    { intros f. apply set_eq. intros [pg v]. rewrite Fo. split; [intros [Hin Hne]; by apply Bo in Hin|].
      intros Hin. assert (pg ≠ pd) by (intros ->; apply (vi_own _ _ _ _ _ _ Hinv) in Hin as [? _]; done). split; [by apply Bo|done]. }
    split.
    + by eapply vm_inv_ext.
    + by eapply same_user_trans.
    + intros pg v Hpg Hv. rewrite Fp by done. by apply Bp.
    + intros Ht f Hf HfL Hfp HOf. apply (Ft (Bt Ht)); [done|done|done|by rewrite HO].
    + congruence.
Qed.

Lemma exec_bad_open pd ph L O ip x :
  pd ∉ PG → building d PG X ph0 L0 O0 pd ph L O → opened ip x →
  ∃ ph' L' x', exec_bad pd (Some ip) bk (frame s i p ph g x c) = Ok (-1) (frame s i p ph' g x' c) ∧ idle x' ∧ no_space d PG O0 X ph0 L0 ph' L'.
Proof.
  intros Hpd Hb Hx. destruct (drop_space pd ph L O x Hpd Hb) as (ph' & L' & E & Hns).
  destruct (pf_close ip x Hx) as (x1 & x2 & E1 & E2 & Hi). exists ph', L', x2. split; [|done].
  unfold exec_bad. rewrite (bind_ok _ _ _ _ _ E). rewrite (bind_ok _ _ _ tt (frame s i p ph' g x2 c)).
  - by rewrite Hnp.
  - rewrite (bind_ok _ _ _ _ _ (on_fs_frame _ s i p ph' g x x1 c _ E1)). by apply on_fs_frame.
Qed.

Lemma exec_bad_closed pd ph L O x :
  pd ∉ PG → building d PG X ph0 L0 O0 pd ph L O →
  ∃ ph' L', exec_bad pd None bk (frame s i p ph g x c) = Ok (-1) (frame s i p ph' g x c) ∧ no_space d PG O0 X ph0 L0 ph' L'.
Proof.
  intros Hpd Hb. destruct (drop_space pd ph L O x Hpd Hb) as (ph' & L' & E & Hns). exists ph', L'. split; [|done].
  unfold exec_bad. rewrite (bind_ok _ _ _ _ _ E). erewrite bind_ok by done. by rewrite Hnp.
Qed.

Lemma exec_bad_early ph L ip x :
  no_space d PG O0 X ph0 L0 ph L → opened ip x →
  ∃ x', exec_bad 0 (Some ip) bk (frame s i p ph g x c) = Ok (-1) (frame s i p ph g x' c) ∧ idle x'.
Proof.
  intros Hns Hx. destruct (pf_close ip x Hx) as (x1 & x2 & E1 & E2 & Hi). exists x2. split; [|done].
  unfold exec_bad. cbn [Z.eqb]. erewrite bind_ok by done. rewrite (bind_ok _ _ _ tt (frame s i p ph g x2 c)).
  - by rewrite Hnp.
  - rewrite (bind_ok _ _ _ _ _ (on_fs_frame _ s i p ph g x x1 c _ E1)). by apply on_fs_frame.
Qed.
End Bad.

(** ** Succeeding *)

(** The process with the new image. *)
Definition exec_proc (path : string) (pd sz entry sp : Z) (p : proc) : proc :=
  let t := tf p in
  set_tf (mkTf (tf_edi t) (tf_esi t) (tf_ebp t) (tf_oesp t) (tf_ebx t) (tf_edx t) (tf_ecx t) (tf_eax t) (tf_gs t)
    (tf_fs t) (tf_es t) (tf_ds t) (tf_trapno t) (tf_err t) entry (tf_cs t) (tf_eflags t) sp (tf_ss t))
    (set_sz sz (set_pgdir pd (set_pname (String.substring 0 15 (basename path path)) p))).

(** The address space [pd] holds the image: its bytes, writable but for the page
    below the stack, which the program cannot access, and nothing above. *)
Record program_in (pd : Z) (img : image) (m : memory) : Prop := {
  pi_mem : ∀ va, user_va_ok va → user_byte m pd va = im_mem img va;
  pi_write : ∀ v, user_vpn v → 4096 * v < im_sz img → v ≠ im_sz img / 4096 - 2 → user_writable m pd v;
  pi_guard : user_vpn (im_sz img / 4096 - 2) → has (pte_of m pd (im_sz img / 4096 - 2)) PTE_U = false;
  pi_none : ∀ v, user_vpn v → im_sz img ≤ 4096 * v → has (pte_of m pd v) PTE_P = false
}.

Section Commit.
Context (d : Z) (old : Z) (PG : list Z) (X : Z → Z) (ph0 : phys) (L0 : list Z) (O0 : owners).
Context (s : kernel F) (i : nat) (p : proc) (g : paging) (c : Z).
Hypothesis Hruns : runs s i.
Hypothesis Hnp : paging_on = false.
Hypothesis Hflag : global_pgdir_flag s = 0 ∧ global_pgdir s = 0.
Hypothesis Hold : pgdir p = old ∧ old ∉ PG.
Hypothesis Hks : kstack p ≠ 0.
Hypothesis Hncli : 0 ≤ ncli (cpu0 s).
Hypothesis HX : ∀ f w, (old, w) ∈ O0 f → X f = 0.

Lemma exec_commit_ok path pd entry img ph L O x :
  pd ∉ old :: PG → building d (old :: PG) X ph0 L0 O0 pd ph L O →
  holds pd (im_sz img / 4096 - 2) (im_sz img) (im_mem img) ph →
  ∃ c' ph' L' O', exec_commit path pd (im_sz img) entry (im_sp img) (frame s i p ph g x c) =
      Ok 0 (frame (set_cpu0 c' s) i (exec_proc path pd (im_sz img) entry (im_sp img) p) ph' g x (V2P pd)) ∧
    vm_inv d (pd :: PG) ph' L' O' X ∧ program_in pd img (mem ph') ∧ same_user PG (mem ph0) (mem ph') ∧
    (tight (old :: PG) ph0 L0 O0 X → tight (pd :: PG) ph' L' O' X).
Proof.
  intros Hpd Hb Hh. set (p1 := exec_proc path pd (im_sz img) entry (im_sp img) p). destruct Hold as [Eold HoldPG].
  apply not_elem_of_cons in Hpd as [Hne HpdPG]. pose proof Hb as [Bi Bo Bh Bu Bp Bt Bl].
  assert (Hpd0 : pd ≠ 0) by (destruct (pw_dirs _ _ _ (vi_wf _ _ _ _ _ _ Bi) pd ltac:(by left)) as [(?&?&?) _]; klia).
  destruct (switchuvm_ok (frame s i p1 ph g x c) i (set_paging_ g p1)) as [c' Esw]; [by apply frame_cur|done|done|done|].
  assert (HPG : ∀ pg, pg ∈ pd :: old :: PG ↔ pg ∈ old :: pd :: PG) by set_solver.
  destruct (freevm_foreign d (pd :: PG) ph L O X old (set_cpu0 c' s) i p1 g x (V2P pd) Hruns ltac:(by left)) as
    (ph' & L' & O' & E & Fi & Fo & Fu & _ & Ft & Fl & Fp).
  { by apply (vm_inv_perm d (pd :: old :: PG)). }
  { by apply not_elem_of_cons. }
  { intros f w Hin. apply (HX f w). by apply Bo in Hin. }
  { done. }
  exists c', ph', L', O'. split; [|split_and!].
  - unfold exec_commit. set (p2 := set_pname (String.substring 0 15 (basename path path)) p). set (p3 := set_sz (im_sz img) (set_pgdir pd p2)).
    rewrite (bind_ok _ _ _ tt (frame s i p2 ph g x c)) by (by apply on_myproc_frame).
    rewrite (bind_ok _ _ _ _ _ (myproc_frame pgdir s i p2 ph g x c Hruns)).
    rewrite (bind_ok _ _ _ tt (frame s i p3 ph g x c)) by (by apply on_myproc_frame).
    rewrite (bind_ok _ _ _ tt (frame s i p1 ph g x c)) by (by apply on_myproc_frame).
    rewrite Hnp. cbn [when]. erewrite bind_ok by done. rewrite (bind_ok _ _ _ (Some i) (frame s i p1 ph g x c)).
    2: { unfold gets. cbn. by destruct Hruns as [-> _]. }
    rewrite (bind_ok _ _ _ _ _ Esw). unfold p2. cbn [pgdir set_paging_ set_pname]. rewrite Eold. by rewrite (bind_ok _ _ _ _ _ E).
  - done.
  - destruct Hh as [Hm Hw Hg Hn _].
    assert (Ep : ∀ v, user_vpn v → pte_of (mem ph') pd v = pte_of (mem ph) pd v) by (intros v Hv; apply Fp; [by left|done]).
    split.
    + intros va Hva. rewrite Fu by (done || by left). by apply Hm.
    + intros v Hv Hlt Hg'. unfold user_writable. rewrite Ep by done. by apply Hw.
    + intros Hv. rewrite Ep by done. by apply Hg.
    + intros v Hv Hge. rewrite Ep by done. by apply Hn.
  - intros pg va Hpg Hva. rewrite Fu by (done || by right). apply Bu; [by right|done].
  - intros Ht. apply Ft. eapply tight_perm; [exact HPG|]. by apply Bt.
Qed.
End Commit.

(** ** The whole *)

Section Exec.
Context (path : string) (file : list Z) `{!ProgFile F path file}.
Context (d : Z) (PG : list Z) (X : Z → Z) (L0 : list Z) (O0 : owners) (s : kernel F) (i : nat) (p : proc) (argv : list (list Z)).

Notation opened := (pf_open (path := path) (file := file)).
Notation idle := (pf_idle (path := path) (file := file)).

(** What [exec] needs: no replacement policy, the accounting of pages, the running
    process with its address space, a file of bytes, and arguments that fit on one
    page. *)
Record exec_pre : Prop := {
  ep_cur : cur_is s i p;
  ep_none : paging_on = false;
  ep_flag : global_pgdir_flag s = 0 ∧ global_pgdir s = 0;
  ep_inv : vm_inv d (pgdir p :: PG) (phys_ s) L0 O0 X;
  ep_old : pgdir p ∉ PG;
  ep_held : ∀ f w, (pgdir p, w) ∈ O0 f → X f = 0;
  ep_stack : kstack p ≠ 0;
  ep_ncli : 0 ≤ ncli (cpu0 s);
  ep_idle : idle (fsys s);
  ep_bytes : bytes_ok file;
  ep_args : args_fit argv
}.

(** Nothing but the free list and the state of the file system has changed. *)
Record exec_failed (s' : kernel F) : Prop := {
  xf_state : ∃ ph' x', s' = set_phys_ ph' (set_fsys x' s) ∧ idle x' ∧ ∃ L', no_space d (pgdir p :: PG) O0 X (phys_ s) L0 ph' L'
}.

(** The process runs the image in an address space of its own. *)
Record exec_done (img : image) (s' : kernel F) : Prop := {
  xd_state : ∃ pd c' ph' x', s' = set_cr3 (V2P pd) (set_cpu0 c' (set_phys_ ph' (set_fsys x'
      (put_cur i (exec_proc path pd (im_sz img) (im_entry img) (im_sp img) p) s)))) ∧ idle x' ∧ pd ∉ pgdir p :: PG ∧
    program_in pd img (mem ph') ∧ same_user PG (mem (phys_ s)) (mem ph') ∧
    ∃ L' O', vm_inv d (pd :: PG) ph' L' O' X ∧ (tight (pgdir p :: PG) (phys_ s) L0 O0 X → tight (pd :: PG) ph' L' O' X)
}.

Lemma failed_frame ph' L' x' :
  exec_pre → idle x' → no_space d (pgdir p :: PG) O0 X (phys_ s) L0 ph' L' → exec_failed (frame s i p ph' (paging_ p) x' (cr3 s)).
Proof.
  intros Hp Hi Hn. split. exists ph', x'. split; [|split; [done|by exists L']].
  destruct (ep_cur Hp) as [_ Hlk]. unfold frame, set_phys_, set_fsys. cbn. f_equal. apply list_insert_id. rewrite Hlk. by destruct p.
Qed.

Lemma exec_ok :
  exec_pre →
  (∃ s', exec path argv s = Ok (-1) s' ∧ exec_failed s') ∨
  (∃ img s', exec path argv s = Ok 0 s' ∧ exec_image file argv = Some img ∧ exec_done img s').
Proof.
  intros Hp. pose proof Hp as [Hcur Hnp Hfl Hinv Hold Hheld Hks Hnc Hidle Hby Hfit]. pose proof (cur_is_runs _ _ _ Hcur) as Hruns.
  set (PGs := pgdir p :: PG) in *. set (g := paging_ p). set (c := cr3 s). set (ph0 := phys_ s) in *.
  assert (Es : s = frame s i p ph0 g (fsys s) c) by (symmetry; by apply frame_id).
  destruct (pf_start (path := path) (file := file) (fsys s) Hidle) as (ip & x1 & x2 & x3 & E1 & E2 & E3 & Ho3).
  destruct (pf_read ip x3 0 sizeof_elfhdr Ho3) as (x4 & E4 & Ho4); [done|done|].
  assert (Ex : exec path argv s = exec path argv (frame s i p ph0 g (fsys s) c)) by (by rewrite <- Es). rewrite Ex. clear Ex Es.
  unfold exec, exec_image. rewrite (bind_ok _ _ _ (backup0 g) (frame s i p ph0 g (fsys s) c)).
  2: { by rewrite (bind_ok _ _ _ _ _ (myproc_frame paging_ s i p ph0 g (fsys s) c Hruns)). }
  rewrite (bind_ok _ _ _ _ _ (on_fs_frame _ s i p ph0 g _ x1 c _ E1)), (bind_ok _ _ _ _ _ (on_fs_frame _ s i p ph0 g _ x2 c _ E2)).
  rewrite (bind_ok _ _ _ _ _ (on_fs_frame _ s i p ph0 g _ x3 c _ E3)), (bind_ok _ _ _ _ _ (on_fs_frame _ s i p ph0 g _ x4 c _ E4)).
  destruct (readi_result file 0 sizeof_elfhdr) as [r b]. set (elf := elfhdr_of b). set (bk := backup0 g).
  assert (Hbad0 : ∃ s', exec_bad 0 (Some ip) bk (frame s i p ph0 g x4 c) = Ok (-1) s' ∧ exec_failed s').
  { assert (Hns : no_space d PGs O0 X ph0 L0 ph0 L0) by (by split).
    destruct (exec_bad_early path file d PGs X ph0 L0 O0 s i p g c bk Hnp ph0 L0 ip x4 Hns Ho4) as (x5 & E5 & Hi5).
    eexists. split; [exact E5|]. by eapply failed_frame. }
  destruct (r =? sizeof_elfhdr); cbn [negb orb]; [|by left]. destruct (elf_magic elf =? ELF_MAGIC); cbn [negb]; [|by left].
  destruct (setupkvm_ok d PGs O0 X ph0 s i p g x4 c Hruns Hfl L0 Hinv ltac:(by left)) as [(pd & ph1 & L1 & E5 & Hns)|(ph1 & L1 & E5 & Hns)];
    rewrite (bind_ok _ _ _ _ _ E5).
  2: { left. destruct (exec_bad_early path file d PGs X ph0 L0 O0 s i p g c bk Hnp ph1 L1 ip x4 Hns Ho4) as (x5 & E6 & Hi5).
    eexists. split; [exact E6|]. by eapply failed_frame. }
  pose proof (ns_fresh _ _ _ _ _ _ _ _ _ Hns) as (_ & Hpd & Hpd0). rewrite (proj2 (Z.eqb_neq _ _) Hpd0), Hnp. erewrite bind_ok by done.
  destruct (building_new d PGs X ph0 L0 O0 pd ph1 L1 Hinv Hns) as [Hb1 Hh1].
  destruct (load_segments_ok path file d PGs X ph0 L0 O0 pd s i p g c Hpd Hruns Hnp Hby ip (Z.to_nat (elf_phnum elf)) (s32 (elf_phoff elf)) 0 _ ph1 L1 O0 x4 Hb1 Hh1 Ho4) as
    (o & ph2 & L2 & O2 & x5 & E6 & Ho5 & Hb2 & Hseg); [done|]. rewrite (bind_ok _ _ _ _ _ E6). destruct o as [sz|].
  2: { left. destruct (exec_bad_open path file d PGs X ph0 L0 O0 s i p g c bk Hruns Hnp Hfl Hinv pd ph2 L2 O2 ip x5 Hpd Hb2 Ho5) as (ph3 & L3 & x6 & E7 & Hi6 & Hn3).
    eexists. split; [exact E7|]. by eapply failed_frame. }
  destruct Hseg as (Hsz & m2 & -> & Hh2). destruct (pf_close ip x5 Ho5) as (x6 & x7 & E7 & E8 & Hi7).
  rewrite (bind_ok _ _ _ _ _ (on_fs_frame _ s i p ph2 g _ x6 c _ E7)), (bind_ok _ _ _ _ _ (on_fs_frame _ s i p ph2 g _ x7 c _ E8)).
  destruct (build_stack_ok d PGs X ph0 L0 O0 pd s i p g x7 c Hpd Hruns Hnp argv sz m2 ph2 L2 O2 Hb2 Hh2 Hsz Hfit) as (o & ph3 & L3 & O3 & E9 & Hb3 & Hstk).
  rewrite (bind_ok _ _ _ _ _ E9). destruct o as [[sz' sp]|].
  2: { left. destruct (exec_bad_closed d PGs X ph0 L0 O0 s i p g c bk Hruns Hnp Hfl Hinv pd ph3 L3 O3 x7 Hpd Hb3) as (ph4 & L4 & E10 & Hn4).
    eexists. split; [exact E10|]. by eapply failed_frame. }
  destruct Hstk as (m3 & -> & Hh3). right. set (img := mkImage (elf_entry elf) sz' sp m3).
  destruct (exec_commit_ok d (pgdir p) PG X ph0 L0 O0 s i p g c Hruns Hnp Hfl ltac:(done) Hks Hnc Hheld path pd (elf_entry elf) img ph3 L3 O3 x7 Hpd Hb3 Hh3) as
    (c' & ph4 & L4 & O4 & E10 & Hi4 & Hprog & Hus & Hti).
  exists img. eexists. split; [exact E10|]. split; [done|]. split. exists pd, c', ph4, x7. split; [done|]. split; [done|]. split; [done|].
  split; [done|]. split; [done|]. by exists L4, O4.
Qed.
(** ** With a replacement policy *)

Lemma restore_unsaved g0 g :
  length (pages_meta_data g) = MAX_TOTAL_PAGES → restore_links (backup0 g0) g = Err (UB "exec: uninitialised backup_array").
Proof. intros Hl. unfold restore_links. destruct (pages_meta_data g) as [|l ls]; [done|reflexivity]. Qed.


End Exec.
End ExecClaims.
