(* ===== verification/ExecDemo.v ===== *)
(** * ExecDemo: a program to load

    A file system with one file, an executable with one segment of four bytes, on
    which the theorems about growing an address space and about [exec] are applied;
    and what a failing [exec] does when there is a replacement policy. *)

From S2P Require Import Prelude Mmu Phys Config Kalloc PageTable Vmspace UvmInv UserMem State Spinlock.
From S2P Require Import PageList Swap Uvm UvmSpec GrowSpec LoadSpec Bytes Exec ExecSpec ExecClaims Demo SwapDemo UvmDemo.

Record romfs := mkRom { rom : list Z }.

#[global] Instance romfs_fs : FileSystem romfs := {
  fs_begin_op := mret tt;
  fs_end_op := mret tt;
  fs_create_swap := λ pid, mret pid;
  fs_remove_swap := λ _ _, mret 0;
  fs_write_at := λ _ _ b, mret (Z.of_nat (length b));
  fs_read_at := λ _ _ _, mret (0, []);
  fs_filedup := λ _, mret tt;
  fs_fileclose := λ _, mret [];
  fs_idup := λ _, mret tt;
  fs_iput := λ _, mret tt;
  fs_namei := λ _, mret (Some 1);
  fs_ilock := λ _, mret tt;
  fs_iunlockput := λ _, mret tt;
  fs_readi := λ _ off n x, Ok (readi_result (rom x) off n) x
}.

(** Loops for ever at the address 0. *)
Definition demo_prog : list Z :=
  enc32 ELF_MAGIC ++ replicate 12 0 ++ enc16 2 ++ enc16 3 ++ enc32 1 ++ enc32 0 ++ enc32 52 ++ enc32 0 ++ enc32 0 ++
  enc16 52 ++ enc16 32 ++ enc16 1 ++ enc16 0 ++ enc16 0 ++ enc16 0 ++
  enc32 ELF_PROG_LOAD ++ enc32 84 ++ enc32 0 ++ enc32 0 ++ enc32 4 ++ enc32 4 ++ enc32 7 ++ enc32 4096 ++
  [235; 254; 144; 144].

Definition rom_progfile (path : string) (file : list Z) : Z.of_nat (length file) < 2147483648 → ProgFile romfs path file.
Proof.
  intros Hl. refine {| pf_idle := λ x, rom x = file; pf_open := λ ip x, rom x = file |}.
  - intros x Hx. by exists 1, x, x, x.
  - intros ip x off n Hx _ _. exists x. split; [|done]. unfold fs_readi. cbn [romfs_fs]. by rewrite Hx.
  - intros ip x Hx. by exists x, x.
  - done.
Defined.

#[global] Instance demo_progfile : ProgFile romfs "loop" demo_prog := rom_progfile "loop" demo_prog eq_refl.
#[global] Instance empty_progfile : ProgFile romfs "empty" [] := rom_progfile "empty" [] eq_refl.

Definition rom_proc : proc := set_kstack 0x80400000 (demo_proc pd1 (Some 0)).
Definition rom_state : kernel romfs :=
  mkKernel fork_phys (V2P pd1) 0 0 0 [rom_proc] (Some O) None 4 0 demo_cpu (mkRom demo_prog).


Definition paged_state : kernel romfs := mkKernel fork_phys (V2P pd1) 0 0 0 [rom_proc] (Some O) None 4 0 demo_cpu (mkRom []).


