(* ===== verification/Trap.v ===== *)
(** * Trap: system calls and traps, [syscall.c], [sysproc.c] and [trap.c]

    The whole kernel, with the file layer of [Kernel].  [u] is what the kernel
    sees of the memory of the running process ([Args]); the result has it with what
    the call stored there.  A call or a trap that does not come back because the
    process exits, sleeps until a tick or gives up the processor says so in its
    result; what follows when the process runs again is a definition of its own.
    [wait] and reads and writes that have to wait are the outcome [Blocked].  The
    addresses of variables on which processes sleep are parameters. *)

From S2P Require Import Prelude Mmu Phys Config Kalloc PageTable State Spinlock PageList Swap Uvm Proc Pgfault Bytes Bio Log Fs Console Pipe Args File Sysfile Kernel Exec Hw.

Definition SYS_fork := 1.
Definition SYS_exit := 2.
Definition SYS_wait := 3.
Definition SYS_pipe := 4.
Definition SYS_read := 5.
Definition SYS_kill := 6.
Definition SYS_exec := 7.
Definition SYS_fstat := 8.
Definition SYS_chdir := 9.
Definition SYS_dup := 10.
Definition SYS_getpid := 11.
Definition SYS_sbrk := 12.
Definition SYS_sleep := 13.
Definition SYS_uptime := 14.
Definition SYS_open := 15.
Definition SYS_write := 16.
Definition SYS_mknod := 17.
Definition SYS_unlink := 18.
Definition SYS_link := 19.
Definition SYS_mkdir := 20.
Definition SYS_close := 21.
Definition SYS_getNumberOfFreePages := 22.

(** ** The interrupt descriptor table *)

Definition tvinit (vectors : Z → Z) : list gatedesc :=
  let idt := (λ k, SETGATE false (Z.shiftl SEG_KCODE 3) (vectors k) 0) <$> seqZ 0 256 in
  <[Z.to_nat T_SYSCALL := SETGATE true (Z.shiftl SEG_KCODE 3) (vectors T_SYSCALL) DPL_USER]> idt.

(** ** System calls *)

(** The loop of [sys_exec]: the argument strings from index [i] on. *)
Fixpoint fetch_args (u : user) (uargv : Z) (i : Z) (left : nat) : option (list (list Z)) :=
  match left with
  | O => None
  | S left' =>
      uarg ← fetchint u (u32 (uargv + 4 * i));
      if uarg =? 0 then Some []
      else
        s ← fetchstr u (u32 uarg);
        l ← fetch_args u uargv (i + 1) left';
        Some (s :: l)
  end.

Inductive sysret := SRet (r : Z) | SGone | SSleep (ticks0 n : Z).
Inductive tres := TReturn | TExit | TYield | TSleep (ticks0 n : Z).

(** What the devices have for the kernel at a trap: the faulting address, bytes of
    the keyboard and of the serial line. *)
Record hw := mkHw { hw_cr2 : Z; hw_kbd : list Z; hw_uart : list Z }.

Section Trap.
Context `{Config}.
Context (addr buf_addr : nat → Z) (trapret forkret_ ticks_chan input_r cpuid : Z).
#[local] Notation K := (K kfs).

Definition sys_fork : K Z := fork trapret forkret_.
Definition sys_exit : K unit := exit addr.
Definition sys_wait : K Z := wait addr.
Definition sys_kill (u : user) : K Z :=
  match argint u 0 with None => mret (-1) | Some pid => kill pid end.
Definition sys_getpid : K Z := myproc pid.
Definition sys_sbrk (u : user) : K Z :=
  match argint u 0 with
  | None => mret (-1)
  | Some n =>
      addr ← myproc sz;
      r ← growproc n;
      if r <? 0 then mret (-1) else mret (s32 addr)
  end.

(** The test of the loop of [sys_sleep], with [tickslock] held. *)
Definition sleep_test (ticks0 n : Z) : K sysret :=
  t ← gets ticks;
  if u32 (t - ticks0) <? u32 n then
    k ← myproc killed;
    if (k : bool) then on_cpu popcli ;; mret (SRet (-1))
    else sleep ticks_chan (Some false) ;; mret (SSleep ticks0 n)
  else on_cpu popcli ;; mret (SRet 0).
Definition sys_sleep (u : user) : K sysret :=
  match argint u 0 with
  | None => mret (SRet (-1))
  | Some n =>
      on_cpu pushcli ;;
      ticks0 ← gets ticks;
      sleep_test ticks0 n
  end.
Definition sys_sleep_resume (ticks0 n : Z) : K sysret := sleep_end false ;; sleep_test ticks0 n.

Definition sys_uptime : K Z := on_cpu pushcli ;; t ← gets ticks; on_cpu popcli ;; mret (s32 t).
Definition sys_getNumberOfFreePages : K Z := gets (λ s, s32 (system_free_pages (phys_ s))).

Definition sys_exec (u : user) : K Z :=
  match argstr u 0, argint u 1 with
  | Some path, Some uargv =>
      match fetch_args u (u32 uargv) 0 (Z.to_nat MAXARG) with
      | None => mret (-1)
      | Some argv => exec (string_of_bytes path) argv
      end
  | _, _ => mret (-1)
  end.

Definition ret (u : user) (c : K Z) : K (sysret * user) := r ← c; mret (SRet r, u).
Definition fret (u : user) (c : M fil Z) : K (sysret * user) := '(r, u) ← on_fil c u; mret (SRet r, u).

(** [syscalls[num]()], [None] for a number without an entry. *)
Definition syscalls (num : Z) (u : user) : option (K (sysret * user)) :=
  if num =? SYS_fork then Some (ret u sys_fork)
  else if num =? SYS_exit then Some (sys_exit ;; mret (SGone, u))
  else if num =? SYS_wait then Some (ret u sys_wait)
  else if num =? SYS_pipe then Some (fret u sys_pipe)
  else if num =? SYS_read then Some (fret u sys_read)
  else if num =? SYS_kill then Some (ret u (sys_kill u))
  else if num =? SYS_exec then Some (ret u (sys_exec u))
  else if num =? SYS_fstat then Some (fret u sys_fstat)
  else if num =? SYS_chdir then Some (fret u sys_chdir)
  else if num =? SYS_dup then Some (fret u sys_dup)
  else if num =? SYS_getpid then Some (ret u sys_getpid)
  else if num =? SYS_sbrk then Some (ret u (sys_sbrk u))
  else if num =? SYS_sleep then Some (r ← sys_sleep u; mret (r, u))
  else if num =? SYS_uptime then Some (ret u sys_uptime)
  else if num =? SYS_open then Some (fret u sys_open)
  else if num =? SYS_write then Some (fret u sys_write)
  else if num =? SYS_mknod then Some (fret u sys_mknod)
  else if num =? SYS_unlink then Some (fret u sys_unlink)
  else if num =? SYS_link then Some (fret u sys_link)
  else if num =? SYS_mkdir then Some (fret u sys_mkdir)
  else if num =? SYS_close then Some (fret u sys_close)
  else if num =? SYS_getNumberOfFreePages then Some (ret u sys_getNumberOfFreePages)
  else None.

Definition with_eax (r : Z) (t : trapframe) : trapframe :=
  mkTf (tf_edi t) (tf_esi t) (tf_ebp t) (tf_oesp t) (tf_ebx t) (tf_edx t) (tf_ecx t) (u32 r) (tf_gs t) (tf_fs t)
    (tf_es t) (tf_ds t) (tf_trapno t) (tf_err t) (tf_eip t) (tf_cs t) (tf_eflags t) (tf_esp t) (tf_ss t).
Definition set_eax (r : Z) : K unit := on_myproc (modify (λ p, set_tf (with_eax r (tf p)) p)).

Definition syscall_end (r : sysret) : K unit := match r with SRet v => set_eax v | _ => mret tt end.
Definition syscall (u : user) : K (sysret * user) :=
  t ← myproc tf;
  match syscalls (s32 (tf_eax t)) u with
  | Some c => '(r, u) ← c; syscall_end r ;; mret (r, u)
  | None => set_eax (-1) ;; mret (SRet (-1), u)
  end.

(** ** Traps *)

(** [if(myproc()->killed) exit();] at the end of a system call, also of one that
    slept. *)
Definition trap_sysret (r : sysret) : K tres :=
  match r with
  | SRet _ => k ← myproc killed; if (k : bool) then exit addr ;; mret TExit else mret TReturn
  | SGone => mret TExit
  | SSleep t n => mret (TSleep t n)
  end.
Definition trap_syscall (t : trapframe) (u : user) : K (tres * user) :=
  k ← myproc killed;
  if (k : bool) then exit addr ;; mret (TExit, u)
  else
    on_myproc (modify (set_tf t)) ;;
    '(r, u) ← syscall u;
    r ← trap_sysret r;
    mret (r, u).
(** A sleeping call runs again. *)
Definition trap_wake (ticks0 n : Z) : K tres :=
  r ← sys_sleep_resume ticks0 n;
  syscall_end r ;;
  trap_sysret r.

(** [default:] *)
Definition trap_default (t : trapframe) : K unit :=
  me ← gets cpu_proc;
  match me with
  | None => panic "trap"
  | Some _ => if Z.land (tf_cs t) 3 =? 0 then panic "trap" else on_myproc (modify (set_killed true))
  end.

(** [ideintr] wakes the process that waits for the buffer. *)
Definition trap_ide : K unit :=
  q ← gets (λ s, idequeue (lbio (ftx (kf_fs (fsys s)))));
  on_fs (on_kfs (on_tx (on_bio ideintr))) ;;
  match q with b :: _ => wakeup (buf_addr b) | [] => mret tt end.
Definition trap_console (c : M console bool) : K unit :=
  w ← on_fs (on_kfs (on_cons c));
  when w (wakeup input_r).

(** The [switch]. *)
Definition trap_switch (t : trapframe) (h : hw) : K unit :=
  let n := tf_trapno t in
  if n =? T_IRQ0 + IRQ_TIMER then
    when (cpuid =? 0) (
      on_cpu pushcli ;;
      modify (λ s, set_ticks (u32 (ticks s + 1)) s) ;;
      wakeup ticks_chan ;;
      on_cpu popcli)
  else if n =? T_IRQ0 + IRQ_IDE then trap_ide
  else if n =? T_IRQ0 + IRQ_IDE + 1 then mret tt
  else if n =? T_IRQ0 + IRQ_KBD then trap_console (kbdintr (hw_kbd h))
  else if n =? T_IRQ0 + IRQ_COM1 then trap_console (uartintr (hw_uart h))
  else if (n =? T_IRQ0 + 7) || (n =? T_IRQ0 + IRQ_SPURIOUS) then mret tt
  else if n =? T_PGFLT then
    bad ← page_fault (hw_cr2 h);
    when bad (trap_default t)
  else trap_default t.

Definition from_user (t : trapframe) : bool := Z.land (tf_cs t) 3 =? DPL_USER.

(** [if(myproc() && myproc()->killed && (tf->cs&3) == DPL_USER) exit();] *)
Definition exit_if_killed (t : trapframe) (next : K tres) : K tres :=
  me ← gets cpu_proc;
  match me with
  | None => next
  | Some _ =>
      k ← myproc killed;
      if k && from_user t then exit addr ;; mret TExit else next
  end.

(** The end of [trap]; [trap_resume] is what is left of it after [yield]. *)
Definition trap_resume (t : trapframe) : K tres := exit_if_killed t (mret TReturn).
Definition trap_end (t : trapframe) : K tres :=
  exit_if_killed t (
    me ← gets cpu_proc;
    run ← match me with Some _ => st ← myproc state; mret (bool_decide (st = RUNNING)) | None => mret false end;
    if run && (tf_trapno t =? T_IRQ0 + IRQ_TIMER) then yield ;; mret TYield
    else trap_resume t).
Definition trap_yielded (t : trapframe) : K tres := yield_end ;; trap_resume t.

Definition trap (t : trapframe) (h : hw) (u : user) : K (tres * user) :=
  me ← gets cpu_proc;
  when (bool_decide (me ≠ None)) enter ;;
  if tf_trapno t =? T_SYSCALL then trap_syscall t u
  else trap_switch t h ;; r ← trap_end t; mret (r, u).
End Trap.
