(* ===== verification/TrapSpec.v ===== *)
(** * TrapSpec: traps run the process machine

    Every trap from user mode takes the process table through steps of the
    machine of [ProcSpec], and what its result says is so: a process that goes
    back to user mode is running and has not been killed. *)

From S2P Require Import Prelude Mmu Phys Config Kalloc PageTable State Spinlock PageList Swap Uvm Proc ProcSpec ProcRefine Pgfault.
From S2P Require Import Bytes Bio Log Fs Console Pipe Args File Sysfile Kernel Exec Hw Trap.

(** ** What leaves the shape of the table alone *)

Section Keeps.
Context `{Config} {F : Type} `{FileSystem F}.

Lemma keeps_age_loop fuel o : keeps (F := F) (age_loop fuel o).
Proof using. revert o. induction fuel; intros; cbn [age_loop]; keep; auto. Qed.
Lemma keeps_queue_loop fuel pd o : keeps (F := F) (switchQueueAQ_loop fuel pd o).
Proof using. revert o. induction fuel; intros; cbn [switchQueueAQ_loop]; keep; auto. Qed.
#[local] Hint Resolve keeps_age_loop keeps_queue_loop keeps_choosePageToSwap keeps_moveToDisk keeps_getPageFromFile : keeps.
Lemma keeps_update_meta_data : keeps (F := F) update_meta_data.
Proof using. unfold update_meta_data, switchQueueAQ. keep. Qed.
Lemma keeps_swapPages a : keeps (F := F) (swapPages a).
Proof using. unfold swapPages. keep. Qed.
Lemma keeps_cow_fault a pte : keeps (F := F) (cow_fault a pte).
Proof using. unfold cow_fault. keep. Qed.
#[local] Hint Resolve keeps_update_meta_data keeps_swapPages keeps_cow_fault : keeps.
Lemma keeps_page_fault a : keeps (F := F) (page_fault a).
Proof using. unfold page_fault. keep. Qed.

Lemma keeps_loaduvm pd a ip off n : keeps (F := F) (loaduvm pd a ip off n).
Proof using.
  unfold loaduvm. keep. generalize 0. induction (S (S (Z.to_nat (n / PGSIZE)))); intros; cbn [loaduvm_loop]; keep; auto.
Qed.
#[local] Hint Resolve keeps_loaduvm keeps_allocuvm keeps_setupkvm : keeps.
Lemma keeps_load_segments n ip pd off sz : keeps (F := F) (load_segments n ip pd off sz).
Proof using. revert off sz. induction n; intros; cbn [load_segments]; keep; auto. Qed.
Lemma keeps_push_args argv pd sp us : keeps (F := F) (push_args argv pd sp us).
Proof using. revert sp us. induction argv; intros; cbn [push_args]; keep; auto. Qed.
#[local] Hint Resolve keeps_load_segments keeps_push_args : keeps.
Lemma keeps_build_stack argv pd sz : keeps (F := F) (build_stack argv pd sz).
Proof using. unfold build_stack. keep. Qed.
Lemma keeps_exec_bad pd o bk : keeps (F := F) (exec_bad pd o bk).
Proof using. unfold exec_bad. keep. Qed.
Lemma keeps_exec_commit path pd sz e sp : keeps (F := F) (exec_commit path pd sz e sp).
Proof using. unfold exec_commit, create_my_swap. keep. Qed.
#[local] Hint Resolve keeps_build_stack keeps_exec_bad keeps_exec_commit : keeps.
Lemma keeps_exec path argv : keeps (F := F) (exec path argv).
Proof using. unfold exec. keep. Qed.
End Keeps.
#[export] Hint Resolve keeps_page_fault keeps_exec : keeps.

(** ** System calls and traps *)

Lemma myproc_inv {F A} (g : proc → A) (s : kernel F) a s' :
  myproc g s = Ok a s' → s' = s ∧ ∃ i p, cur_is s i p ∧ a = g p.
Proof.
  unfold myproc, on_myproc. destruct (cpu_proc s) as [i|] eqn:Ei; [|done]. unfold on_proc.
  destruct (procs s !! i) as [p|] eqn:Ep; [|done]. cbn. intros [= <- <-]. rewrite list_insert_id by done.
  split; [by destruct s|]. exists i, p. done.
Qed.

Section Traps.
Context `{Config}.
Context (addr buf_addr : nat → Z) (trapret forkret_ ticks_chan input_r cpuid : Z).
Context (init : nat) (f : gmap nat nat) (me : nat).
#[local] Notation K := (K kfs).
#[local] Notation steps := (rtc (ptstep addr init)).
#[local] Notation inside := (inside init f me).
#[local] Notation stays := (stays addr init f me).
#[local] Notation view s := (view s f).

(** The state of process [me] in the table. *)
Definition is_in (s : kernel kfs) (P : proc → Prop) : Prop := ∃ p, procs s !! me = Some p ∧ P p.

(** What a trap has done when its result is [r]. *)
Definition trap_left (r : tres) (s : kernel kfs) : Prop :=
  match r with
  | TReturn => cpu_proc s = Some me ∧ is_in s (λ p, state p = RUNNING ∧ killed p = false)
  | TExit => is_in s (λ p, state p = ZOMBIE)
  | TYield => is_in s (λ p, state p = RUNNABLE)
  | TSleep _ _ => is_in s (λ p, state p = SLEEPING ∧ chan p = ticks_chan)
  end.
Definition sys_left (r : sysret) (s : kernel kfs) : Prop :=
  match r with
  | SRet _ => inside s
  | SGone => trap_left TExit s
  | SSleep t n => trap_left (TSleep t n) s
  end.

(** From [s], [c] takes the table through steps of the machine and ends in [Q]. *)
Definition leads {A} (c : K A) (Q : A → kernel kfs → Prop) (s : kernel kfs) : Prop :=
  ∀ a s', c s = Ok a s' → steps (view s) (view s') ∧ Q a s'.

Lemma leads_bind {A B} (c : K A) (g : A → K B) Q1 Q s :
  leads c Q1 s → (∀ a s1, Q1 a s1 → leads (g a) Q s1) → leads (c ≫= g) Q s.
Proof using.
  intros Hc Hg b s' (a & s1 & E1 & E2)%bind_inv. destruct (Hc a s1 E1) as [S1 H1]. destruct (Hg a s1 H1 b s' E2) as [S2 H2].
  split; [by etrans|done].
Qed.
Lemma leads_mono {A} (c : K A) Q1 (Q : A → kernel kfs → Prop) s : leads c Q1 s → (∀ a s1, Q1 a s1 → Q a s1) → leads c Q s.
Proof using. intros Hc HQ a s' E. destruct (Hc a s' E). auto. Qed.
Lemma leads_ret {A} (a : A) (Q : A → kernel kfs → Prop) s : Q a s → leads (mret a) Q s.
Proof using. by intros HQ a' s' [= <- <-]. Qed.
Lemma leads_stays {A} (c : K A) s : stays c → inside s → leads c (λ _, inside) s.
Proof using. intros Hc Hin a s' E. by apply (Hc s a s'). Qed.
Lemma leads_keeps {A} (c : K A) s : keeps c → inside s → leads c (λ _, inside) s.
Proof using. intros Hc. by apply leads_stays, stays_keeps. Qed.
Lemma leads_myproc {A} (g : proc → A) (Q : A → kernel kfs → Prop) s :
  inside s → (∀ p, procs s !! me = Some p → state p = RUNNING → Q (g p) s) → leads (myproc g) Q s.
Proof using.
  intros ([(p & Ep & Hp) _] & Hme & _) HQ a s' (-> & i & q & [Ei Eq] & ->)%myproc_inv. split; [done|].
  rewrite Hme in Ei. injection Ei as <-. by apply HQ; [|cbn in Ep; congruence].
Qed.

Lemma leads_exit s : inside s → leads (exit addr) (λ _, trap_left TExit) s.
Proof using. intros (Hr & Hme & Hini) a s' E. by apply (exit_sim addr init s f me Hr Hme a s' Hini). Qed.

(** A change of the running process, followed by the checks of [sched]. *)
Lemma leads_switch g (c : K unit) (P : proc → Prop) s :
  inside s → keeps c → (∀ p p', shape p' = shape (g p) → state p = RUNNING → P p') →
  (∀ p, procs s !! me = Some p → state p = RUNNING → ptstep addr init (view s) (mkPtab (alter g me (procs s)) (nextpid s) f)) →
  leads (on_myproc (modify g) ;; c) (λ _ s', is_in s' P) s.
Proof using.
  intros Hin Hc HP Hst a s' (u & s1 & E1 & E2)%bind_inv. destruct Hin as ([(p & Ep & Hp) _] & Hme & _). cbn in Ep.
  unfold on_myproc in E1. rewrite Hme in E1. apply on_proc_modify in E1 as [-> _].
  destruct (keeps_sim addr init c _ _ _ f Hc E2) as (S2 & Hs & _). split.
  - etrans; [|exact S2]. apply rtc_once. by apply (Hst p).
  - destruct (shape_lookup _ _ me (g p) Hs) as (p' & Ep' & Hp'); [cbn; by rewrite list_lookup_alter_eq, Ep|].
    exists p'. split; [done|]. by apply (HP p).
Qed.

Lemma leads_yield s : inside s → leads yield (λ _, trap_left TYield) s.
Proof using.
  intros Hin. unfold yield. eapply leads_bind; [apply leads_keeps; [keep|done]|]. intros [] s1 Hin1.
  apply leads_switch; [done|apply keeps_sched_checks|by intros p p' [= ->]|].
  intros p Ep Hp. by apply (pt_yield addr init (view s1) me p).
Qed.

Hypothesis Hticks : ∀ k, ticks_chan ≠ addr k.

Lemma leads_sleep s t n : inside s → leads (sleep ticks_chan (Some false)) (λ _, trap_left (TSleep t n)) s.
Proof using Hticks.
  intros Hin. unfold sleep. eapply leads_bind; [apply leads_keeps; [keep|done]|]. intros [i|] s1 Hin1; [|by intros a s'].
  eapply leads_bind; [apply leads_keeps; [keep|done]|]. intros [] s2 Hin2.
  apply leads_switch; [done|apply keeps_sched_checks|by intros p p' [= -> _ _ ->]|].
  intros p Ep Hp. by apply (pt_sleep addr init (view s2) me p).
Qed.

(** *** System calls *)

Lemma stays_on_fil c u : stays (on_fil c u).
Proof using.
  unfold on_fil. apply stays_bind; [apply stays_keeps; keep|]. intros p. apply stays_bind; [apply stays_keeps; keep|]. intros [r l].
  apply stays_bind; [apply stays_keeps; keep|]. intros _. apply stays_bind; [|intros; apply stays_keeps; keep].
  apply stays_forM. intros c'. apply stays_wakeup.
Qed.

Lemma keeps_set_eax r : keeps (set_eax r).
Proof using. unfold set_eax. keep. Qed.
Lemma keeps_syscall_end r : keeps (syscall_end r).
Proof using. unfold syscall_end. destruct r; [apply keeps_set_eax|keep..]. Qed.

Lemma leads_sleep_test t n s : inside s → leads (sleep_test ticks_chan t n) sys_left s.
Proof using Hticks.
  intros Hin. unfold sleep_test. eapply leads_bind; [apply leads_keeps; [keep|done]|]. intros t1 s1 Hin1. case_match.
  - eapply leads_bind; [apply leads_keeps; [keep|done]|]. intros [] s2 Hin2.
    + eapply leads_bind; [apply leads_keeps; [keep|done]|]. intros [] s3 Hin3. by apply leads_ret.
    + eapply leads_bind; [by apply (leads_sleep s2 t n)|]. intros [] s3 Hs. by apply leads_ret.
  - eapply leads_bind; [apply leads_keeps; [keep|done]|]. intros [] s3 Hin3. by apply leads_ret.
Qed.

(** What a call may rely on. *)
Definition in_call (s : kernel kfs) : Prop := ptinv addr init (view s) ∧ inside s ∧ nextpid s < 2147483647.
Definition call_ok (c : K (sysret * user)) : Prop := ∀ s, in_call s → leads c (λ ru, sys_left ru.1) s.

Lemma ret_ok u (c : K Z) : (∀ s, in_call s → leads c (λ _, inside) s) → call_ok (ret u c).
Proof using. intros Hc s Hs. eapply leads_bind; [by apply Hc|]. intros r s1 Hin. by apply leads_ret. Qed.
Lemma ret_stays u (c : K Z) : stays c → call_ok (ret u c).
Proof using. intros Hc. apply ret_ok. intros s (_ & Hin & _). by apply leads_stays. Qed.
Lemma ret_keeps u (c : K Z) : keeps c → call_ok (ret u c).
Proof using. intros Hc. by apply ret_stays, stays_keeps. Qed.
Lemma fret_ok u c : call_ok (fret u c).
Proof using.
  intros s (_ & Hin & _). unfold fret. eapply leads_bind; [apply leads_stays; [apply stays_on_fil|done]|]. intros [r u'] s1 Hin1.
  by apply leads_ret.
Qed.
Lemma fork_ok u : call_ok (ret u (sys_fork trapret forkret_)).
Proof using.
  apply ret_ok. intros s (Hi & Hin & Hn) r s' E. pose proof Hin as (Hr & Hme & _). split.
  - by apply (fork_sim addr trapret forkret_ init s f me Hi Hr Hn Hme r s').
  - by apply (fork_safe trapret forkret_ init f me s r s').
Qed.
Lemma wait_ok u : call_ok (ret u (sys_wait addr)).
Proof using.
  apply ret_ok. intros s (_ & Hin & _) r s' E. pose proof Hin as (Hr & Hme & _). split.
  - by apply (wait_sim addr init s f me Hr Hme r s').
  - by apply (wait_safe addr init f me s r s').
Qed.

Lemma syscalls_ok num u c : syscalls addr trapret forkret_ ticks_chan num u = Some c → call_ok c.
Proof using Hticks.
  unfold syscalls. repeat case_match; intros [= <-]; try apply fret_ok.
  - apply fork_ok.
  - intros s (_ & Hin & _). eapply leads_bind; [by apply leads_exit|]. intros [] s1 Hz. by apply leads_ret.
  - apply wait_ok.
  - apply ret_stays. unfold sys_kill. case_match; [apply stays_kill|apply stays_keeps; keep].
  - apply ret_keeps. unfold sys_exec. keep.
  - apply ret_keeps. unfold sys_getpid. keep.
  - apply ret_keeps. unfold sys_sbrk. keep.
  - intros s (_ & Hin & _). unfold sys_sleep. destruct (argint u 0) as [n|].
    + eapply leads_bind; [|intros r s1 Hr; apply leads_ret; exact Hr]. eapply leads_bind; [apply leads_keeps; [keep|done]|]. intros [] s1 Hin1.
      eapply leads_bind; [apply leads_keeps; [keep|done]|]. intros t s2 Hin2. by apply leads_sleep_test.
    + apply (leads_bind _ _ sys_left); [by apply leads_ret|]. intros r s1 Hr. by apply leads_ret.
  - apply ret_keeps. unfold sys_uptime. keep.
  - apply ret_keeps. unfold sys_getNumberOfFreePages. keep.
Qed.

Lemma in_call_keeps {A} (c : K A) s a s' : keeps c → in_call s → c s = Ok a s' → in_call s' ∧ steps (view s) (view s').
Proof using.
  intros Hc (Hi & Hin & Hn) E. destruct (keeps_sim addr init c s a s' f Hc E) as (S & _ & _ & _ & Hnx).
  split; [|done]. split; [|split; [by eapply keeps_inside|congruence]]. clear - Hi S.
  remember (view s) as m. clear Heqm. induction S; [done|]. apply IHS. by eapply ptinv_step.
Qed.
Lemma leads_in_call {A B} (c : K A) (g : A → K B) Q s :
  keeps c → in_call s → (∀ a s1, in_call s1 → leads (g a) Q s1) → leads (c ≫= g) Q s.
Proof using.
  intros Hc Hs Hg b s' (a & s1 & E1 & E2)%bind_inv. destruct (in_call_keeps c s a s1 Hc Hs E1) as [Hs1 S1].
  destruct (Hg a s1 Hs1 b s' E2) as [S2 H2]. split; [by etrans|done].
Qed.

Lemma syscall_ok u : call_ok (syscall addr trapret forkret_ ticks_chan u).
Proof using Hticks.
  intros s Hs. unfold syscall. apply leads_in_call; [keep|done|]. intros t s1 Hs1.
  destruct (syscalls _ _ _ _ _ u) as [c|] eqn:Ec.
  - eapply leads_bind; [by apply (syscalls_ok _ _ _ Ec)|]. intros [r u'] s2 Hl. cbn [fst] in Hl.
    destruct r as [v| |t0 n]; cbn [syscall_end]; [|by apply leads_ret..].
    eapply leads_bind; [apply leads_keeps; [apply keeps_set_eax|done]|]. intros [] s3 Hin3. by apply leads_ret.
  - destruct Hs1 as (_ & Hin1 & _). eapply leads_bind; [apply leads_keeps; [apply keeps_set_eax|done]|]. intros [] s3 Hin3. by apply leads_ret.
Qed.

(** *** The return to user mode *)

Lemma leads_sysret r s : sys_left r s → leads (trap_sysret addr r) trap_left s.
Proof using.
  destruct r as [v| |t n]; cbn [sys_left trap_sysret]; [|by intros; apply leads_ret..]. intros Hin.
  eapply leads_bind; [apply (leads_myproc _ (λ k s', inside s' ∧ (k = false → trap_left TReturn s'))); [done|]|].
  { intros p Ep Hp. split; [done|]. intros Hk. split; [apply Hin|]. by exists p. }
  intros [] s1 [Hin1 Hk].
  - eapply leads_bind; [by apply leads_exit|]. intros [] s2 Hz. by apply leads_ret.
  - apply leads_ret. by apply Hk.
Qed.

Lemma leads_unkilled (t : trapframe) next s :
  from_user t = true → inside s → (inside s → is_in s (λ p, state p = RUNNING ∧ killed p = false) → leads next trap_left s) →
  leads (exit_if_killed addr t next) trap_left s.
Proof using.
  intros Ht Hin Hnext. unfold exit_if_killed.
  assert (Hme : cpu_proc s = Some me) by apply Hin. intros r s'. rewrite (bind_ok (gets cpu_proc) _ s (Some me) s) by (unfold gets; by rewrite Hme).
  revert r s'. apply (leads_bind _ _ (λ k s', inside s' ∧ (k = false → leads next trap_left s'))).
  { apply leads_myproc; [done|]. intros p Ep Hp. split; [done|]. intros Hk. apply Hnext; [done|]. by exists p. }
  intros [] s1 [Hin1 Hk]; rewrite Ht; cbn [andb]; [|by apply Hk].
  eapply leads_bind; [by apply leads_exit|]. intros [] s2 Hz. by apply leads_ret.
Qed.

Lemma leads_resume t s : from_user t = true → inside s → leads (trap_resume addr t) trap_left s.
Proof using.
  intros Ht Hin. apply leads_unkilled; [done|done|]. intros _ Hk. apply leads_ret. split; [apply Hin|done].
Qed.

Lemma leads_end t s : from_user t = true → inside s → leads (trap_end addr t) trap_left s.
Proof using.
  intros Ht Hin. apply leads_unkilled; [done|done|]. intros _ _.
  eapply leads_bind; [apply leads_keeps; [keep|done]|]. intros o s1 Hin1.
  eapply leads_bind; [apply leads_keeps; [keep|done]|]. intros b s2 Hin2. case_match; [|by apply leads_resume].
  eapply leads_bind; [by apply leads_yield|]. intros [] s3 Hy. by apply leads_ret.
Qed.

Lemma stays_switch t h : stays (trap_switch buf_addr ticks_chan input_r cpuid t h).
Proof using.
  assert (Hd : stays (trap_default t)) by (apply stays_keeps; unfold trap_default; keep).
  unfold trap_switch. repeat case_match; try (apply stays_keeps; keep; fail); [..|done].
  - apply stays_when. apply stays_bind; [apply stays_keeps; keep|]. intros _. apply stays_bind; [apply stays_keeps; keep|]. intros _.
    apply stays_bind; [apply stays_wakeup|]. intros _. apply stays_keeps; keep.
  - unfold trap_ide. apply stays_bind; [apply stays_keeps; keep|]. intros q. apply stays_bind; [apply stays_keeps; keep|]. intros _.
    destruct q; [apply stays_keeps; keep|apply stays_wakeup].
  - apply stays_bind; [apply stays_keeps; keep|]. intros w. apply stays_when, stays_wakeup.
  - apply stays_bind; [apply stays_keeps; keep|]. intros w. apply stays_when, stays_wakeup.
  - apply stays_bind; [apply stays_keeps; keep|]. intros w. by apply stays_when.
Qed.

Lemma keeps_enter : keeps enter.
Proof using. unfold enter. keep. Qed.

Lemma leads_trap t h u s :
  from_user t = true → in_call s → leads (trap addr buf_addr trapret forkret_ ticks_chan input_r cpuid t h u) (λ ru, trap_left ru.1) s.
Proof using Hticks.
  intros Ht Hs. unfold trap. apply leads_in_call; [keep|done|]. intros o s1 Hs1.
  apply leads_in_call; [apply keeps_when, keeps_enter|done|]. intros [] s2 Hs2. case_match.
  - unfold trap_syscall. apply leads_in_call; [keep|done|]. intros [] s3 Hs3.
    + eapply leads_bind; [apply leads_exit; apply Hs3|]. intros [] s4 Hz. by apply leads_ret.
    + apply leads_in_call; [keep|done|]. intros [] s4 Hs4. eapply leads_bind; [by apply syscall_ok|]. intros [r u'] s5 Hl.
      eapply leads_bind; [by apply leads_sysret|]. intros r' s6 Hr. by apply leads_ret.
  - eapply leads_bind; [apply leads_stays; [apply stays_switch|apply Hs2]|]. intros [] s3 Hin3.
    eapply leads_bind; [by apply leads_end|]. intros r s4 Hr. by apply leads_ret.
Qed.

Lemma leads_wake t0 n s : inside s → leads (trap_wake addr ticks_chan t0 n) trap_left s.
Proof using Hticks.
  intros Hin. unfold trap_wake, sys_sleep_resume.
  apply (leads_bind _ _ sys_left); [apply (leads_bind _ _ (λ _, inside)); [|intros [] s1 Hin1; by apply leads_sleep_test]|].
  { intros [] s' E. pose proof Hin as (Hr & Hme & Hini). split; [by apply (sleep_end_sim addr init s f me Hr Hme false tt)|].
    unfold sleep_end in E. apply bind_inv in E as (u & s1 & E1 & E2). refine (keeps_inside init f me _ s1 tt s' _ _ E2); [keep|].
    unfold on_myproc in E1. rewrite Hme in E1. apply on_proc_modify in E1 as [-> _]. apply inside_table; [done|].
    intros p Ep Hp. exists (set_chan 0 p). by rewrite list_lookup_alter_eq, Ep. }
  intros r s1 Hl. destruct r as [v| |t1 n1]; cbn [syscall_end].
  - eapply leads_bind; [apply leads_keeps; [apply keeps_set_eax|done]|]. intros [] s2 Hin2. by apply (leads_sysret (SRet v)).
  - by apply (leads_sysret SGone).
  - by apply (leads_sysret (SSleep t1 n1)).
Qed.

Lemma leads_yielded t s : from_user t = true → inside s → leads (trap_yielded addr t) trap_left s.
Proof using.
  intros Ht Hin. unfold trap_yielded. eapply leads_bind; [apply leads_keeps; [unfold yield_end; keep|done]|]. intros [] s1 Hin1.
  by apply leads_resume.
Qed.

(** An exception of the processor other than a page fault. *)
Definition exception (t : trapframe) : Prop :=
  tf_trapno t ∉ [T_SYSCALL; T_PGFLT; T_IRQ0 + IRQ_TIMER; T_IRQ0 + IRQ_IDE; T_IRQ0 + IRQ_IDE + 1; T_IRQ0 + IRQ_KBD;
    T_IRQ0 + IRQ_COM1; T_IRQ0 + 7; T_IRQ0 + IRQ_SPURIOUS].

Lemma exception_switch t h :
  exception t → trap_switch buf_addr ticks_chan input_r cpuid t h = trap_default t ∧ (tf_trapno t =? T_SYSCALL) = false.
Proof using.
  unfold exception. intros He. unfold trap_switch.
  rewrite !(proj2 (Z.eqb_neq (tf_trapno t) _)) by (intros E; apply He; rewrite E; clear; set_solver). done.
Qed.

Lemma exception_exits t h u s r s' :
  from_user t = true → inside s → exception t →
  trap addr buf_addr trapret forkret_ ticks_chan input_r cpuid t h u s = Ok r s' → r = (TExit, u).
Proof using.
  intros Ht Hin He. destruct (exception_switch t h He) as [Es En]. unfold trap. rewrite Es, En.
  intros (o & s1 & E1 & (v & s2 & E2 & (w & s3 & E3 & (r' & s4 & E4 & [= <- <-])%bind_inv)%bind_inv)%bind_inv)%bind_inv.
  assert (Hin2 : inside s2).
  { eapply (keeps_inside init f me); [|eapply (keeps_inside init f me); [|exact Hin|exact E1]|exact E2]; [apply keeps_when, keeps_enter|keep]. }
  destruct Hin2 as ([(p & Ep & Hp) _] & Hme & _). unfold trap_default in E3.
  rewrite (bind_ok (gets cpu_proc) _ s2 (Some me) s2) in E3 by (unfold gets; by rewrite Hme).
  destruct (Z.land (tf_cs t) 3 =? 0); [done|]. rewrite (on_myproc_eq _ s2 me p) in E3 by done. injection E3 as _ <-.
  set (s3 := put_cur me _ s2) in *. assert (Hc : cur_is s3 me (set_killed true p)) by (by eapply cur_is_put).
  unfold trap_end, exit_if_killed in E4. rewrite (bind_ok (gets cpu_proc) _ s3 (Some me) s3) in E4 by (unfold gets; by rewrite (proj1 Hc)).
  rewrite (bind_ok (myproc killed) _ s3 true s3) in E4 by (by apply (myproc_eq killed s3 me _ Hc)).
  rewrite Ht in E4. cbn [andb] in E4. apply bind_inv in E4 as (? & ? & _ & [= <- _]). done.
Qed.

Lemma steps_inv m m' : ptinv addr init m → steps m m' → ptinv addr init m'.
Proof using. intros Hi S. induction S; [done|]. apply IHS. by eapply ptinv_step. Qed.
End Traps.

