(* ===== verification/TrapDemo.v ===== *)
(** * TrapDemo: traps of a concrete kernel

    Two processes on the file system that [mkfs] makes: the first sleeps in
    [wait], the second, its child, runs. *)

From stdpp Require Import gmap.
From S2P Require Import Prelude Mmu Phys Config Kalloc State Proc ProcSpec ProcRefine ProcClaims Bytes Bio Log Fs Console Pipe Args File Sysfile Kernel.
From S2P Require Import LogSpec Mkfs FsDemo Demo UvmDemo Hw Trap TrapSpec.

(** ** The interrupt descriptor table *)

(** Every vector has a present interrupt gate into the kernel's code; only the
    system call can be raised by a user program, and only it leaves interrupts
    enabled. *)
Lemma tvinit_gates (vectors : Z → Z) (k : Z) :
  is_u32 (vectors k) → 0 ≤ k < 256 →
  ∃ g, tvinit vectors !! Z.to_nat k = Some g ∧ gate_offset g = vectors k ∧ gd_p g = 1 ∧ gd_cs g = Z.shiftl SEG_KCODE 3 ∧
    (gd_dpl g = DPL_USER ↔ k = T_SYSCALL) ∧ (gd_type g = STS_TG32 ↔ k = T_SYSCALL).
Proof.
  intros Hv Hk. unfold tvinit.
  assert (Ho : ∀ b d, gate_offset (SETGATE b (Z.shiftl SEG_KCODE 3) (vectors k) d) = vectors k).
  { intros b d. unfold gate_offset, SETGATE. cbn. unfold is_u32, bits in *.
    change 0xffff with (Z.ones 16). rewrite Z.land_ones, Z.shiftr_div_pow2 by lia. dlia. }
  assert (E : seqZ 0 256 !! Z.to_nat k = Some k) by (rewrite lookup_seqZ_lt by lia; f_equal; lia).
  destruct (decide (k = T_SYSCALL)) as [->|Hne].
  - rewrite list_lookup_insert_eq by (rewrite length_fmap, length_seqZ; unfold T_SYSCALL; lia). eexists. split; [done|].
    split; [apply Ho|]. done.
  - rewrite list_lookup_insert_ne by (unfold T_SYSCALL in *; lia). rewrite list_lookup_fmap, E. eexists. split; [done|].
    split; [apply Ho|]. done.
Qed.

(** ** A running kernel *)

Definition root_inode : inode :=
  load_dinode (demo_disk 1 (IBLOCK ROOTINO mkfs_sb)) (islot ROOTINO) (mkInode 1 ROOTINO 2 (mkSleep false 0) true 0 0 0 0 0 []).
Definition idle_inode : inode := mkInode 0 0 0 (mkSleep false 0) false 0 0 0 0 0 [].
Definition idle_log : log := mkLog 2 30 0 false 1 0 (replicate 30 0).
Definition run_kfs : kfs :=
  mkKfs (mkFs (mkLst demo_bio idle_log) mkfs_sb (root_inode :: replicate 9 idle_inode) 0 demo_console)
    (replicate NFILE (mkFile FD_NONE 0 false false 0 0 0)) ∅.

Definition child : proc := set_cwd (Some 0) (set_tf user_tf (slot_ RUNNING 2 (Some 0%nat))).
Definition run_kernel : kernel kfs :=
  mkKernel fork_phys (V2P pd1) 0 0 0 [asleep (proc_addr 0) (slot_ RUNNING 1 None); child; slot_ UNUSED 0 None]
    (Some 1%nat) (Some 0%nat) 3 0 demo_cpu run_kfs.

Definition tf_of (no eax : Z) : trapframe :=
  with_eax eax (mkTf 0 0 0 0 0 0 0 0 0 0 0x23 0x23 no 0 0x100 0x1b FL_IF 100 0x23).
Definition run_trap (no eax : Z) (u : user) (s : kernel kfs) : res (kernel kfs) (tres * user) :=
  let _ := demo_config SCFIFO in
  trap proc_addr (λ b, 0x80100000 + 0x250 * Z.of_nat b) 0x80106000 0x80103000 0x80116000 0x80117000 0 (tf_of no eax) (mkHw 0 [] []) u s.

Lemma run_trap_eq no eax u s :
  run_trap no eax u s = @trap (demo_config SCFIFO) proc_addr (λ b, 0x80100000 + 0x250 * Z.of_nat b) 0x80106000 0x80103000 0x80116000
    0x80117000 0 (tf_of no eax) (mkHw 0 [] []) u s.
Proof. reflexivity. Qed.

Lemma run_kernel_inv : in_call proc_addr 0 ∅ 1 run_kernel.
Proof.
  split; [|split; [|done]].
  - apply (ptreach_inv proc_addr 0).
    pose proof (ptreach_step _ _ _ _ waiting_reach (pt_run proc_addr 0 waiting_table 1 (slot_ RUNNABLE 2 (Some 0%nat)) eq_refl eq_refl)) as H1.
    match type of H1 with ptreach _ _ ?m => exact (ptreach_step _ _ _ _ H1 (pt_data proc_addr 0 m (procs run_kernel) eq_refl)) end.
  - split; [split; [by eexists|done]|done].
Qed.

(** What a run has left, when its result is looked at. *)
Definition left_by (r : res (kernel kfs) (tres * user)) : option (tres * list procstate) :=
  match r with Ok r s => Some (r.1, state <$> procs s) | Err _ => None end.
Lemma left_by_inv (R : res (kernel kfs) (tres * user)) x l :
  left_by R = Some (x, l) → ∃ u s, R = Ok (x, u) s ∧ state <$> procs s = l.
Proof. destruct R as [[r u] s|]; [|done]. intros [= <- <-]. by exists u, s. Qed.

Lemma divide_left : left_by (run_trap 0 0 user_demo run_kernel) = Some (TExit, [RUNNABLE; ZOMBIE; UNUSED]).
Proof. vm_compute. reflexivity. Qed.


(** ** A process at work

    The child opens the file [a] and reads five of its bytes to address 300; the
    third call, a [read] of a descriptor that is not open, fails. *)
Definition args (l : list Z) (u : user) : user := ustore 104 (l ≫= enc32) u.
Definition then_call (no : Z) (l : list Z) (r : res (kernel kfs) (tres * user)) : res (kernel kfs) (tres * user) :=
  match r with Ok (TReturn, u) s => run_trap T_SYSCALL no (args l u) s | r => r end.
Definition result (r : res (kernel kfs) (tres * user)) : option (Z * list Z) :=
  match r with Ok (TReturn, u) s => p ← procs s !! 1%nat; Some (tf_eax (tf p), ubytes u 300 6) | _ => None end.

Lemma child_reads :
  let r1 := run_trap T_SYSCALL SYS_open (args [200; 0] user_demo) run_kernel in
  let r2 := then_call SYS_read [0; 300; 5] r1 in
  let r3 := then_call SYS_read [1; 300; 5] r2 in
  (result r1, result r2, result r3) = (Some (0, [7; 7; 7; 7; 7; 7]), Some (5, [5; 5; 5; 5; 5; 7]), Some (4294967295, [5; 5; 5; 5; 5; 7])).
Proof. vm_compute. reflexivity. Qed.
